(* ===== verification/_CoqProject ===== *)
-Q . S2P
Prelude.v
Steps.v
Str.v
Sha256.v
Phys.v
FrameAllocator.v
FrameRefcount.v
Paging.v
AddressSpace.v
AddressSpaceCorrect.v
CowCorrect.v
CloneCorrect.v
DestroyCorrect.v
PagingModel.v
Elf.v
MemoryDemo.v
Signal.v
ProcessTable.v
Ipc.v
IpcCorrect.v
Queue.v
Gfx.v
GfxCorrect.v
Executor.v
Time.v
Process.v
ProcessCorrect.v
Ports.v
BlockDev.v
Ata.v
Userprog.v
Ramfs.v
Persist.v
Users.v
Part.v
Fat32.v
Ext2.v
Thread.v
Exec.v
Font.v
Fb.v
FbCorrect.v
Console.v
Fat32Dir.v
Fat32Correct.v
Syscall.v
SyscallCorrect.v
BootInfo.v
Pci.v
E1000.v
Dns.v
Acpi.v
Net.v
Resolve.v
Http.v
HttpCorrect.v
Umem.v
Abi.v
Keyboard.v
Mouse.v
Shell.v
ShellCorrect.v
Tty.v
TtyCorrect.v
Mmio.v
Virtio.v
VirtioGpu.v
VirtioCorrect.v
Ulib.v
UserProgs.v
UserRun.v
UserCorrect.v
Apic.v
Nvme.v
Interrupts.v
VgaText.v
E1000Init.v
