(* ===== verification/Prelude.v ===== *)
(** * A verification development for rust-x86_64-kernel

    The program (src/) is a hobby x86-64 kernel in Rust with a small user
    land: physical frames and page tables, address spaces with copy-on-write
    fork, a process table with a preemptive round-robin scheduler, signals,
    an async executor, system calls, shared memory and mailboxes, a
    framebuffer with a text console, an ATA disk with MBR partitions, FAT32
    and ext2, a RAM file system whose account file is kept on disk, user
    accounts with SHA-256 passwords, PCI and ACPI discovery, the APICs, an
    NVMe controller, a virtio display adapter, an e1000 network card with
    DHCP, DNS and a small HTTP server on top of smoltcp, a keyboard, a mouse,
    a login prompt and a shell.  The user land is a library of system calls
    with three programs: init, a shell and a display server.

    ** How the code is modelled

    Every function of a modelled part is a Rocq function of the same name.
    A function that can panic returns an [outcome]; one that returns
    [Result] or uses the question-mark operator is a computation of the
    kernel monad [M S E A] (this file).  The kernel is built with the dev
    profile, so arithmetic overflow, division by zero, an index out of range
    and [unwrap] on the wrong variant panic.  Machine integers are [Z] with
    checked operations ([+!], [*!], [-!]) and explicit wrap-around ([wrap]).
    Bytes and strings are lists of [Z].  A static guarded by a lock is a
    field of the state record of its module; a handler of one module runs on
    the part of a larger state that belongs to it ([zoom]).

    A loop that the code does not bound takes a fuel, and running out is a
    panic or has an answer of its own, never a value; the theorems say which
    fuel is enough, or hold for every fuel with that answer excluded.  A
    call that waits for something (a key, a message, the clock, another
    process) takes the list of what the rest of the machine does meanwhile.

    Code outside src/ is a class with its documented laws, and each class
    has an instance: the mapper of the x86_64 crate ([X86Paging], instance
    in PagingModel.v), accesses to user memory ([UserMem]), the lock-free
    queues of the crossbeam crate ([ArrayQueue]), input and output ports and
    the drive behind them (Ports.v, Ata.v), the TCP/IP stack of the
    smoltcp crate with its clock ([Smoltcp], [SmoltcpLaws], instance in
    Resolve.v; [Icmp], instance in TtyCorrect.v) and the scancode decoder of the
    pc-keyboard crate ([PcKeyboard]).  A device with memory-mapped registers
    is an instance of [Mmio] (Mmio.v): it answers accesses, and it reads and
    writes the RAM the driver uses, also between two looks of the driver.
    [BlockDev] is the interface between the disk driver and its clients: the
    file systems and the persistent state are verified against
    [BlockDevLaws], and Ata.v proves that the ATA driver on an IDE drive
    keeps those laws.

    A user program is an interaction tree of system calls, loads and stores;
    running it passes each call to the dispatcher of the kernel model and
    each access to its address space (UserRun.v), so that a theorem on a
    program is one on the program and the kernel together.  [UserMemLaws]
    says what the accesses keep.

    ** The files

    - Prelude.v: panics, results, the kernel monad, checked arithmetic,
      slices, byte encodings, and the lemmas and tactics on them.
    - Steps.v: what a computation may do to its state ([steps], for frame
      properties) and total runs ([runs], for results).
    - Str.v: UTF-8 strings, splitting, trimming, numbers.
    - Sha256.v (crypto/sha256.rs): the streaming hash against FIPS 180-4.
    - Phys.v, FrameAllocator.v, FrameRefcount.v (memory/): physical memory,
      the bitmap allocator, the frame counters.
    - Paging.v, AddressSpace.v (memory/paging.rs, address_space.rs, cow.rs):
      mapping, address spaces, the fork clone, copy-on-write faults,
      teardown.  AddressSpaceCorrect.v, CowCorrect.v, CloneCorrect.v and
      DestroyCorrect.v prove them; PagingModel.v writes out the page walk
      and MemoryDemo.v holds the witnesses.
    - Signal.v, ProcessTable.v, Process.v, Exec.v (task/signal.rs,
      task/process.rs, task/preempt.rs): the process table, spawn, fork,
      exec, exit, wait, kill and the scheduler.  ProcessCorrect.v.
    - Thread.v (task/thread.rs): the kernel threads.
    - Executor.v, Time.v (task/executor.rs, time/): the async executor, the
      clock and sleeping.
    - Ipc.v (ipc/mod.rs): shared memory and mailboxes, with the user pointer
      checks of syscall/mod.rs.  IpcCorrect.v.
    - Queue.v, Gfx.v (gfx/): the event queue and the framebuffer ownership.
      GfxCorrect.v.
    - Elf.v, Userprog.v, Ramfs.v (fs/): the loader, the built-in programs,
      the RAM file system.
    - Ports.v, BlockDev.v, Ata.v (drivers/ata.rs): port input and output, the
      block device interface, the driver, and the drive it talks to.
    - Persist.v, Users.v (persist.rs, users/mod.rs): the state kept on disk
      and the accounts.
    - Part.v, Fat32.v, Ext2.v (drivers/part.rs, fat32.rs, ext2.rs): the
      partition table and the file systems.  Fat32Dir.v and Fat32Correct.v
      prove the FAT32 directory and write path.
    - Font.v, Fb.v, Console.v (drivers/font8x16*.rs, fb.rs, console.rs): the
      font, the framebuffer driver and the console.  FbCorrect.v.
    - Syscall.v (syscall/mod.rs, gfx/mod.rs): the dispatcher and the handlers
      over the whole kernel state.  SyscallCorrect.v.
    - Interrupts.v (arch/x86_64/idt.rs, pic.rs, backtrace.rs): the descriptor
      table, the exception handlers over the process state, the backtrace.
    - BootInfo.v (boot_info.rs): the boot information and the frame allocator
      built from it.
    - Pci.v, Acpi.v (pci/mod.rs, acpi/mod.rs): the enumeration of the bus over
      ports, the firmware tables over physical memory.
    - E1000.v (drivers/e1000.rs): the descriptor rings, with the card that
      works on the other end of them.  E1000Init.v has the search of the
      card on the bus.
    - VgaText.v (drivers/vga.rs): the text screen of the boot.
    - Mmio.v: devices with memory-mapped registers beside the RAM.
    - Virtio.v, VirtioGpu.v (virtio/): the transport, the queue and the
      display commands; VirtioCorrect.v has an adapter and runs the driver
      against it.
    - Apic.v (arch/x86_64/apic.rs), Nvme.v (drivers/nvme.rs): the interrupt
      controllers and the NVMe controller, each with the chip it drives.
    - Dns.v, Net.v, Resolve.v, Http.v (net/): the messages of DNS, the layer
      over smoltcp and its sockets, the resolution of a name, the server.
      HttpCorrect.v.
    - Keyboard.v, Mouse.v (drivers/keyboard.rs, mouse.rs): the key stream and
      the interrupt handler step by step, the packets of the mouse.
    - Shell.v, Tty.v (shell/mod.rs, shell/tty_login.rs): the commands over the
      state of the system calls, the login dialogue and the line editor.
      ShellCorrect.v, TtyCorrect.v.
    - Umem.v (userland/crates/ulib/src/mem.rs): the allocator of the programs.
    - Ulib.v (userland/crates/ulib/), UserProgs.v (userland/init, sh and
      displayd): the library and the programs.  UserRun.v runs them on the
      kernel; UserCorrect.v.
    - Abi.v (abi/, gfx/, ulib/src/syscall.rs): the layouts of the structures
      that cross the boundary.

    A file that has both a component and its theorems gives the component
    first; the witnesses, at concrete states, close the file of the theorems
    they apply.

    ** What the theorems show

    - Memory: the allocator hands out each free frame once and frees what is
      given back, and starts from exactly the usable memory; writing to an
      address space stores those bytes and no others; the page-fault handler
      resumes a write to a copy-on-write page with a private writable copy
      and changes nothing else of the process; a fork leaves both sides read-only
      on the same bytes; teardown releases what it was the last holder of.
      A well-formed ELF file is loaded as its segments say.  The counterpart:
      a fork shares the leaf tables, a new space inherits the caller's
      mappings, and the counters saturate.
    - Processes: no runnable process is lost along any history of calls and
      ticks; a preempted process gets its registers back; elections rotate
      the ring; exit and wait pass the codes in order; a fork makes the
      child it should.  The counterpart: a process resumed after an exit
      loses its registers, a signal on a tick leaves the interrupt in
      service, a zombie that is current can exit again.
    - Exceptions: a fault of a program ends that program, as long as its
      vector has a gate; the others stop the kernel.
    - System calls: no call gives a process an identity it may not have.
    - Messages: the tables of the ipc module stay consistent whatever is
      called, and mailboxes are queues.
    - Async tasks and time: every woken task is polled, and a sleep fires
      once; a full queue loses a task, and a sleep can end early.
    - Disk: what the ATA driver writes it reads back; a file created on a
      FAT32 volume is read back and leaves the others alone; the saved
      files survive a reboot; an empty file cannot be read.
    - Accounts: a created account logs in and changes no other login, the
      passwd text round-trips, a failed save still creates the account.
    - Display and boot: the console never panics and shows what was written,
      the framebuffer has one owner, the boot information is read as it was
      laid out, the text screen shows the last lines printed, and the hash is
      SHA-256.
    - Devices: the bus scan lists the functions present, the ACPI parser
      decodes the tables of the firmware, the rings of the network card are
      queues as long as nobody overruns them, no key and no wake-up of the
      key stream is lost, the mouse packets are decoded.  The virtio display
      shows what its client draws and presents, the interrupt routes are
      programmed as asked, and the NVMe driver returns what the controller
      says of itself; each against a device that meets its deadline.
    - Network: the reader of DNS finds the first address of any well-formed
      answer, a resolution ends and answers only what was asked and received,
      the JSON of the server reads back as the state it shows, and each
      request gets one well-framed response.
    - Terminal: no session without an account that authenticates, the login
      dialogue does what it should and shows no password, the line on the
      screen is the line the shell runs, a file written is the file shown.
    - Programs: a turn of the shell prints what its builtin should, the
      display server keeps its cursor and its picture, allocations of threads stay apart, and the library reads the
      kernel's structures as the kernel wrote them.

    ** Bounds

    The fuels are the ones the theorems need: the length of the input for
    walks over bytes, one round of [upsert_loop] for a root directory with a
    free slot in its first cluster, [SAFETY] (1,000,000, a constant of the
    code) for cluster chains, the spin counts of the code for the polls of
    virtio (timeout_iters) and NVMe, and for the waits of the network the rounds
    after which the clock has passed the deadline.  Programs run by a relation
    without fuel; its executable form takes the number of steps.  FAT32 theorems assume a volume whose clusters
    are within 28-bit addresses, as the driver can address no others.

    ** Not modelled

    Assembly (the boot path, the entry stubs, the stack switches), the segment
    tables and the per-CPU block, the old interrupt controllers and the
    serial port (crates the code only calls), the heap (a fixed range handed
    to a crate), the start-up order of the kernel with its self tests and
    status tasks, and the messages drivers print while they come up.  What the
    terminal shows is a transcript of bytes: colours and the clearing of the
    screen are not in it.  TLB contents and memory ordering between processors
    are not modelled; the kernel runs on one. *)

From stdpp Require Export prelude gmap strings list list_numbers sorting.
From Stdlib Require Export ZArith Lia.

#[global] Set Default Goal Selector "!".
Local Open Scope Z_scope.

(** ** Panics

    The kernel is built with the dev profile (kernel/Makefile links
    target/x86_64-kernel/debug), so arithmetic overflow, an index out of
    range and [unwrap]/[expect] on the wrong variant all panic.  A
    computation that can panic has type [outcome A]. *)

Inductive outcome (A : Type) : Type :=
| Ret (a : A)
| Panic.
Arguments Ret {A} a.
Arguments Panic {A}.

#[export] Instance outcome_ret : MRet outcome := fun A a => Ret a.
#[export] Instance outcome_bind : MBind outcome :=
  fun A B f m => match m with Ret a => f a | Panic => Panic end.
#[export] Instance outcome_fmap : FMap outcome :=
  fun A B f m => match m with Ret a => Ret (f a) | Panic => Panic end.

#[export] Instance outcome_eq_dec {A} `{EqDecision A} : EqDecision (outcome A).
Proof. solve_decision. Defined.

(** Rust's [Result<A, E>]. *)
Inductive result (A E : Type) : Type :=
| Ok (a : A)
| Err (e : E).
Arguments Ok {A E} a.
Arguments Err {A E} e.

#[export] Instance result_eq_dec {A E} `{EqDecision A, EqDecision E} :
  EqDecision (result A E).
Proof. solve_decision. Defined.

Definition is_ok {A E} (r : result A E) : bool :=
  match r with Ok _ => true | Err _ => false end.

(** Rust's [unwrap]/[expect] on an option. *)
Definition expect {A} (o : option A) : outcome A :=
  match o with Some a => Ret a | None => Panic end.

Definition is_ret {A} (o : outcome A) : bool :=
  match o with Ret _ => true | Panic => false end.
Definition ret_or {A} (d : A) (o : outcome A) : A :=
  match o with Ret a => a | Panic => d end.

(** ** The kernel monad

    A Rust function that takes [&mut S], returns [Result<A, E>] and uses
    the question-mark operator: an [Err] returns early and keeps the
    mutations made so far, a panic aborts. *)

Definition M (S E A : Type) : Type := S -> outcome (S * result A E).

Section kernel_monad.
Context {S E : Type}.

Definition mok {A} (a : A) : M S E A := fun s => Ret (s, Ok a).
Definition mfail {A} (e : E) : M S E A := fun s => Ret (s, Err e).
Definition mpanic {A} : M S E A := fun _ => Panic.
Definition mget : M S E S := fun s => Ret (s, Ok s).
Definition mput (s' : S) : M S E unit := fun _ => Ret (s', Ok tt).
Definition mbindM {A B} (m : M S E A) (f : A -> M S E B) : M S E B :=
  fun s => match m s with
           | Ret (s', Ok a) => f a s'
           | Ret (s', Err e) => Ret (s', Err e)
           | Panic => Panic
           end.
Definition mlift {A} (o : outcome A) : M S E A :=
  fun s => match o with Ret a => Ret (s, Ok a) | Panic => Panic end.

(** [for x in l { f(x)?; }] *)
Fixpoint mfor {A} (l : list A) (f : A -> M S E unit) : M S E unit :=
  match l with
  | [] => mok tt
  | x :: l' => mbindM (f x) (fun _ => mfor l' f)
  end.
End kernel_monad.

(** A function that returns early: [mfail v] is [return v]. *)
Definition fn_ret {S A} (c : M S A A) : S -> outcome (S * A) := fun s =>
  match c s with
  | Ret (s', Ok a) | Ret (s', Err a) => Ret (s', a)
  | Panic => Panic
  end.

(** The result of a call as a value, its error not propagated. *)
Definition try_ {S E F A} (c : M S E A) : M S F (result A E) := fun s =>
  match c s with
  | Ret (s', r) => Ret (s', Ok r)
  | Panic => Panic
  end.

(** A call on a part of the state. *)
Definition zoom {S T E A} (get : S -> T) (put : T -> S -> S) (c : M T E A) : M S E A := fun s =>
  match c (get s) with
  | Ret (t', r) => Ret (put t' s, r)
  | Panic => Panic
  end.

Definition modify {S E} (f : S -> S) : M S E unit := fun s => Ret (f s, Ok tt).

#[export] Instance M_ret {S E} : MRet (M S E) := fun A a => mok a.
#[export] Instance M_bind {S E} : MBind (M S E) := fun A B f m => mbindM m f.

(** ** Machine integers *)

(** [x] fits an unsigned integer of [w] bits. *)
Definition fits (w x : Z) : Prop := 0 <= x < 2 ^ w.
#[export] Instance fits_dec w x : Decision (fits w x).
Proof. unfold fits. apply _. Defined.

(** [a as u<w>], [wrapping_*]. *)
Definition wrap (w x : Z) : Z := x mod 2 ^ w.

(** [a + b], [a - b], [a * b] on an unsigned [w]-bit type. *)
Definition add_chk (w a b : Z) : outcome Z :=
  if bool_decide (a + b < 2 ^ w) then Ret (a + b) else Panic.
Definition sub_chk (a b : Z) : outcome Z :=
  if bool_decide (b <= a) then Ret (a - b) else Panic.
Definition mul_chk (w a b : Z) : outcome Z :=
  if bool_decide (a * b < 2 ^ w) then Ret (a * b) else Panic.

(** [a.checked_add(b)] *)
Definition checked_add (w a b : Z) : option Z :=
  if bool_decide (a + b < 2 ^ w) then Some (a + b) else None.
Definition checked_mul (w a b : Z) : option Z :=
  if bool_decide (a * b < 2 ^ w) then Some (a * b) else None.

Definition U64_MAX : Z := 2 ^ 64 - 1.

(** ** Slices *)

Definition lenZ {A} (l : list A) : Z := Z.of_nat (length l).

(** [l[i]] for a [usize] index. *)
Definition idx {A} (l : list A) (i : Z) : outcome A :=
  if bool_decide (0 <= i) then expect (l !! Z.to_nat i) else Panic.

(** [l[i] = x] *)
Definition idx_set {A} (l : list A) (i : Z) (x : A) : outcome (list A) :=
  if bool_decide (0 <= i < lenZ l) then Ret (<[Z.to_nat i := x]> l) else Panic.

(** [&l[lo..hi]] *)
Definition slice {A} (l : list A) (lo hi : Z) : outcome (list A) :=
  if bool_decide (0 <= lo <= hi /\ hi <= lenZ l)
  then Ret (take (Z.to_nat (hi - lo)) (drop (Z.to_nat lo) l))
  else Panic.

(** [l[off..off+src.len()].copy_from_slice(src)] *)
Definition splice {A} (l : list A) (off : Z) (src : list A) : outcome (list A) :=
  if bool_decide (0 <= off /\ off + lenZ src <= lenZ l)
  then Ret (take (Z.to_nat off) l ++ src ++ drop (Z.to_nat (off + lenZ src)) l)
  else Panic.

(** ** Bytes *)

Definition byte_ok (b : Z) : Prop := 0 <= b < 256.
Definition bytes_ok (l : list Z) : Prop := Forall byte_ok l.
#[export] Instance byte_ok_dec b : Decision (byte_ok b).
Proof. unfold byte_ok. apply _. Defined.

(** [u<8n>::to_le_bytes] and [from_le_bytes]. *)
Fixpoint le_bytes (n : nat) (z : Z) : list Z :=
  match n with
  | O => []
  | S n' => z mod 256 :: le_bytes n' (z / 256)
  end.
Fixpoint of_le (l : list Z) : Z :=
  match l with
  | [] => 0
  | b :: l' => b + 256 * of_le l'
  end.

(** [to_be_bytes] and [from_be_bytes]. *)
Definition be_bytes (n : nat) (z : Z) : list Z := reverse (le_bytes n z).
Definition of_be (l : list Z) : Z := of_le (reverse l).

(** ASCII literals as byte strings. *)
Definition bstr (s : string) : list Z :=
  (fun a => Z.of_N (Ascii.N_of_ascii a)) <$> String.list_ascii_of_string s.

(** [!x] on an unsigned [w]-bit type. *)
Definition unot (w x : Z) : Z := 2 ^ w - 1 - x.

(** A loop over a mutable state whose body may panic. *)
Fixpoint ofold {S A} (f : S -> A -> outcome S) (s : S) (l : list A) : outcome S :=
  match l with
  | [] => Ret s
  | x :: l' => match f s x with Ret s' => ofold f s' l' | Panic => Panic end
  end.

(** A [BTreeMap] with integer keys is a [gmap]; it iterates by key. *)
Definition key_le {A} (x y : Z * A) : Prop := x.1 <= y.1.
#[export] Instance key_le_dec {A} (x y : Z * A) : Decision (key_le x y).
Proof. unfold key_le. apply _. Defined.
Definition btree_iter {A} (m : gmap Z A) : list (Z * A) :=
  merge_sort key_le (map_to_list m).

(** Checked arithmetic at a width, written [a +! b @ w] as an [outcome]. *)
Declare Scope kernel_scope.
Delimit Scope kernel_scope with kernel.
Notation "a +! b @ w" := (add_chk w a b) (at level 50, b at level 49, w at level 9) : kernel_scope.
Notation "a *! b @ w" := (mul_chk w a b) (at level 40, b at level 39, w at level 9) : kernel_scope.
Notation "a -! b" := (sub_chk a b) (at level 50, b at level 49) : kernel_scope.
Open Scope kernel_scope.

(** ** Automation *)

Create HintDb kernel.

(** Case analysis on a [bool_decide] or a [match] on a [decide] in the goal
    or a hypothesis, with arithmetic to close the impossible cases. *)
Ltac dec :=
  repeat (case_bool_decide || case_decide); simplify_eq/=; try done; try lia.

(** Inverts a [Ret _ = Ret _], [mbind] or [match] hypothesis step by step. *)
Ltac inv_ret :=
  repeat match goal with
  | H : Ret _ = Ret _ |- _ => injection H as H; simplify_eq
  | H : Panic = Ret _ |- _ => discriminate H
  | H : Ret _ = Panic |- _ => discriminate H
  | H : context [mbind (M:=outcome) _ ?m] |- _ =>
      let E := fresh "E" in destruct m eqn:E; simpl in H
  end.

(** A closed decidable goal, by evaluation. *)
Ltac by_decide := apply (bool_decide_eq_true_1 _); vm_compute; reflexivity.

(** The continuation of a call that returned. *)
Ltac obind := cbn [mbind outcome_bind].

(** ** Generic lemmas *)

Lemma outcome_bind_ret {A B} (m : outcome A) (f : A -> outcome B) b :
  (m ≫= f) = Ret b <-> exists a, m = Ret a /\ f a = Ret b.
Proof.
  split.
  - destruct m as [a|]; simpl; [|done]. eauto.
  - intros (a & -> & H). exact H.
Qed.

Lemma ret_or_ok {A} (d : A) (o : outcome A) : is_ret o = true -> o = Ret (ret_or d o).
Proof. by destruct o. Qed.

(** A call that returns [v], by evaluating the value alone. *)
Lemma ret_or_snd {S A} (d : S * A) (o : outcome (S * A)) v :
  is_ret o = true -> (ret_or d o).2 = v -> o = Ret ((ret_or d o).1, v).
Proof. by destruct o as [[s a]|]; [intros _ <-|]. Qed.

Lemma mbindM_ok {S E A B} (m : M S E A) (f : A -> M S E B) s s' b :
  mbindM m f s = Ret (s', Ok b) <->
  exists a s1, m s = Ret (s1, Ok a) /\ f a s1 = Ret (s', Ok b).
Proof.
  unfold mbindM. split.
  - destruct (m s) as [[s1 [a|e]]|] eqn:Em; [|done|done]. eauto.
  - intros (a & s1 & -> & H). exact H.
Qed.

Lemma mbindM_Ret {S E A B} (c : M S E A) (f : A -> M S E B) s s1 a :
  c s = Ret (s1, Ok a) -> (c ≫= f) s = f a s1.
Proof. intros H. unfold mbind, M_bind, mbindM. by rewrite H. Qed.

Lemma mfor_app {S E A} (l k : list A) (f : A -> M S E unit) s :
  mfor (l ++ k) f s = mbindM (mfor l f) (fun _ => mfor k f) s.
Proof.
  revert s. induction l as [|x l IH]; intros s; [done|].
  simpl. unfold mbindM at 1 2 3. destruct (f x s) as [[s1 [[]|e]]|]; [|done|done].
  apply IH.
Qed.

(** A loop invariant rule: an invariant each iteration keeps holds after
    the loop, whether it completes or returns early. *)
Lemma mfor_inv {S E A} (P : S -> Prop) (l : list A) (f : A -> M S E unit) :
  (forall x s s' r, x ∈ l -> P s -> f x s = Ret (s', r) -> P s') ->
  forall s s' r, P s -> mfor l f s = Ret (s', r) -> P s'.
Proof.
  induction l as [|x l IH]; intros Hf s s' r Hs.
  { cbn. intros [= <- <-]. done. }
  cbn. unfold mbindM. destruct (f x s) as [[s1 [[]|e]]|] eqn:Ef; [| |done].
  - intros Hl. eapply IH; [|by eapply Hf; [left| |]|done].
    intros. eapply Hf; [by right|done|done].
  - intros [= <- <-]. by eapply Hf; [left| |].
Qed.

Lemma add_chk_Ret w a b c : add_chk w a b = Ret c <-> a + b < 2 ^ w /\ c = a + b.
Proof. unfold add_chk. case_bool_decide; naive_solver. Qed.
Lemma sub_chk_Ret a b c : sub_chk a b = Ret c <-> b <= a /\ c = a - b.
Proof. unfold sub_chk. case_bool_decide; naive_solver. Qed.

Lemma mul_chk_Ret w a b c : mul_chk w a b = Ret c <-> a * b < 2 ^ w /\ c = a * b.
Proof. unfold mul_chk. case_bool_decide; naive_solver. Qed.

Lemma add_chk_ok w a b : a + b < 2 ^ w -> add_chk w a b = Ret (a + b).
Proof. intros. unfold add_chk. by rewrite bool_decide_eq_true_2. Qed.
Lemma sub_chk_ok a b : b <= a -> sub_chk a b = Ret (a - b).
Proof. intros. unfold sub_chk. by rewrite bool_decide_eq_true_2. Qed.
Lemma mul_chk_ok w a b : a * b < 2 ^ w -> mul_chk w a b = Ret (a * b).
Proof. intros. unfold mul_chk. by rewrite bool_decide_eq_true_2. Qed.

Lemma wrap_fits w x : 0 <= w -> fits w (wrap w x).
Proof. intros. apply Z.mod_pos_bound. lia. Qed.
Lemma wrap_id w x : fits w x -> wrap w x = x.
Proof. intros. by apply Z.mod_small. Qed.

Lemma lenZ_nonneg {A} (l : list A) : 0 <= lenZ l.
Proof. unfold lenZ. lia. Qed.
Lemma lenZ_app {A} (l k : list A) : lenZ (l ++ k) = lenZ l + lenZ k.
Proof. unfold lenZ. rewrite length_app. lia. Qed.
Lemma lenZ_cons {A} (x : A) (l : list A) : lenZ (x :: l) = 1 + lenZ l.
Proof. unfold lenZ. simpl. lia. Qed.
Lemma lenZ_insert {A} (l : list A) i (x : A) : lenZ (<[i := x]> l) = lenZ l.
Proof. unfold lenZ. by rewrite length_insert. Qed.
Lemma lenZ_to_nat {A} (l : list A) : Z.to_nat (lenZ l) = length l.
Proof. unfold lenZ. lia. Qed.
Lemma lenZ_nil {A} : lenZ ([] : list A) = 0.
Proof. done. Qed.

Lemma idx_Ret {A} (l : list A) i x :
  idx l i = Ret x <-> 0 <= i /\ l !! Z.to_nat i = Some x.
Proof.
  unfold idx, expect. dec; [|naive_solver].
  destruct (l !! Z.to_nat i); naive_solver.
Qed.
Lemma idx_in_range {A} (l : list A) i :
  0 <= i < lenZ l -> exists x, idx l i = Ret x.
Proof.
  intros Hi. unfold lenZ in Hi.
  destruct (lookup_lt_is_Some_2 l (Z.to_nat i)) as [x Hx]; [lia|].
  exists x. apply idx_Ret. split; [lia|done].
Qed.
Lemma idx_out_of_range {A} (l : list A) i : lenZ l <= i -> idx l i = Panic.
Proof.
  intros Hi. unfold idx, expect, lenZ in *. dec.
  by rewrite lookup_ge_None_2 by lia.
Qed.
Lemma idx_set_in_range {A} (l : list A) i (x : A) :
  0 <= i < lenZ l -> idx_set l i x = Ret (<[Z.to_nat i := x]> l).
Proof. intros. unfold idx_set. dec. Qed.

Lemma slice_app_mid {A} (l1 l2 l3 : list A) lo hi :
  lo = lenZ l1 -> hi = lenZ l1 + lenZ l2 ->
  slice (l1 ++ l2 ++ l3) lo hi = Ret l2.
Proof.
  intros -> ->. unfold slice. rewrite bool_decide_eq_true_2.
  2:{ rewrite !lenZ_app. pose proof (lenZ_nonneg l1).
      pose proof (lenZ_nonneg l2). pose proof (lenZ_nonneg l3). lia. }
  unfold lenZ. rewrite Nat2Z.id, drop_app_length.
  replace (Z.to_nat _) with (length l2) by lia.
  by rewrite take_app_length.
Qed.

(** Bytes. *)
Lemma length_le_bytes n z : length (le_bytes n z) = n.
Proof. revert z. induction n; intros z; simpl; auto. Qed.
Lemma lenZ_le_bytes n z : lenZ (le_bytes n z) = Z.of_nat n.
Proof. unfold lenZ. by rewrite length_le_bytes. Qed.

Lemma le_bytes_ok n z : bytes_ok (le_bytes n z).
Proof.
  revert z. induction n; intros z; simpl; constructor.
  - apply Z.mod_pos_bound. lia.
  - apply IHn.
Qed.

Lemma of_le_bytes n z : of_le (le_bytes n z) = z mod 256 ^ Z.of_nat n.
Proof.
  revert z. induction n as [|n IH]; intros z.
  { simpl. by rewrite Z.mod_1_r. }
  cbn [le_bytes of_le]. rewrite IH.
  rewrite Nat2Z.inj_succ, Z.pow_succ_r by lia.
  rewrite Z.rem_mul_r by lia. lia.
Qed.

Lemma of_le_bytes_id n z : fits (8 * Z.of_nat n) z -> of_le (le_bytes n z) = z.
Proof.
  intros Hz. rewrite of_le_bytes. apply Z.mod_small.
  unfold fits in Hz. change 256 with (2 ^ 8). by rewrite <- Z.pow_mul_r by lia.
Qed.

Lemma of_le_range l : bytes_ok l -> 0 <= of_le l < 256 ^ lenZ l.
Proof.
  induction 1 as [|b l Hb Hl IH]; [done|].
  rewrite lenZ_cons, Z.pow_add_r by (try lia; apply lenZ_nonneg).
  cbn [of_le]. unfold byte_ok in Hb. nia.
Qed.

Lemma le_bytes_of_le l : bytes_ok l -> le_bytes (length l) (of_le l) = l.
Proof.
  induction 1 as [|b l Hb Hl IH]; [done|]. cbn [length le_bytes of_le].
  unfold byte_ok in Hb. f_equal.
  - rewrite Z.mul_comm, Z_mod_plus_full. apply Z.mod_small. lia.
  - rewrite Z.mul_comm, Z_div_plus_full by lia.
    rewrite (Z.div_small b) by lia. by rewrite Z.add_0_l.
Qed.

Lemma bytes_ok_app l k : bytes_ok (l ++ k) <-> bytes_ok l /\ bytes_ok k.
Proof. apply Forall_app. Qed.

Lemma length_be_bytes n z : length (be_bytes n z) = n.
Proof. unfold be_bytes. by rewrite length_reverse, length_le_bytes. Qed.
Lemma of_be_bytes_id n z : fits (8 * Z.of_nat n) z -> of_be (be_bytes n z) = z.
Proof.
  intros. unfold of_be, be_bytes. rewrite reverse_involutive.
  by apply of_le_bytes_id.
Qed.

Lemma bstr_ok s : bytes_ok (bstr s).
Proof.
  unfold bstr, bytes_ok. apply Forall_fmap, Forall_forall. intros a _.
  unfold byte_ok. simpl. pose proof (Ascii.N_ascii_bounded a). lia.
Qed.

(** Loops: an invariant that every iteration keeps, and a body that never
    panics where the invariant holds. *)
Lemma ofold_inv {S A} (P : S -> Prop) (f : S -> A -> outcome S) l s s' :
  (forall x s s', x ∈ l -> P s -> f s x = Ret s' -> P s') ->
  P s -> ofold f s l = Ret s' -> P s'.
Proof.
  revert s. induction l as [|x l IH]; intros s Hf Hs; simpl; [naive_solver|].
  destruct (f s x) as [s1|] eqn:Ef; [|done]. intros Hl.
  eapply IH; [|by eapply Hf; [left| |]|done].
  intros. eapply Hf; [by right|done|done].
Qed.

Lemma ofold_total {S A} (P : S -> Prop) (f : S -> A -> outcome S) l s :
  (forall x s, x ∈ l -> P s -> exists s', f s x = Ret s' /\ P s') ->
  P s -> exists s', ofold f s l = Ret s' /\ P s'.
Proof.
  revert s. induction l as [|x l IH]; intros s Hf Hs; simpl; [eauto|].
  destruct (Hf x s) as (s1 & -> & Hs1); [by left|done|].
  apply IH; [|done]. intros. apply Hf; [by right|done].
Qed.

Lemma elem_of_btree_iter {A} (m : gmap Z A) k v :
  (k, v) ∈ btree_iter m <-> m !! k = Some v.
Proof.
  unfold btree_iter. rewrite (merge_sort_Permutation key_le).
  apply elem_of_map_to_list.
Qed.

(** Masking with the complement of [2 ^ k - 1] rounds down to a multiple of [2 ^ k]. *)
Lemma land_align k x :
  0 <= k <= 64 -> fits 64 x -> Z.land x (unot 64 (2 ^ k - 1)) = x / 2 ^ k * 2 ^ k.
Proof.
  unfold fits. intros Hk Hx. assert (2 ^ 64 = 2 ^ (64 - k) * 2 ^ k) as E64 by (rewrite <- Z.pow_add_r by lia; f_equal; lia).
  assert (0 < 2 ^ k) by (apply Z.pow_pos_nonneg; lia).
  replace (unot 64 (2 ^ k - 1)) with (Z.shiftl (Z.ones (64 - k)) k)
    by (unfold unot; rewrite Z.shiftl_mul_pow2, Z.ones_equiv, E64 by lia; lia).
  transitivity (Z.shiftl (Z.land (Z.shiftr x k) (Z.ones (64 - k))) k).
  - apply Z.bits_inj'. intros n Hn. rewrite Z.land_spec, !Z.shiftl_spec by done.
    destruct (decide (n < k)) as [Hlt|Hge].
    + rewrite !(Z.testbit_neg_r _ (n - k)) by lia. by rewrite andb_false_r.
    + rewrite Z.land_spec, Z.shiftr_spec by lia. by replace (n - k + k) with n by lia.
  - rewrite Z.land_ones, Z.shiftr_div_pow2, Z.shiftl_mul_pow2 by lia.
    rewrite Z.mod_small; [done|]. rewrite E64 in Hx.
    split; [apply Z.div_pos; lia|apply Z.div_lt_upper_bound; lia].
Qed.
(** Masking with [!0xfff] rounds down to a page boundary. *)
Lemma land_page_mask x :
  fits 64 x -> Z.land x (unot 64 4095) = x / 4096 * 4096.
Proof. exact (land_align 12 x ltac:(lia)). Qed.

(** Ranges of slices, and loops over concatenations. *)
Lemma idx_set_len {A} (l : list A) i x :
  0 <= i < lenZ l -> exists l', idx_set l i x = Ret l' /\ lenZ l' = lenZ l.
Proof. intros Hi. rewrite idx_set_in_range by done. eexists. split; [done|apply lenZ_insert]. Qed.

Lemma ofold_snoc {S A} (f : S -> A -> outcome S) s l x :
  ofold f s (l ++ [x]) = ofold f s l ≫= fun s' => f s' x.
Proof.
  revert s. induction l as [|y l IH]; intros s; simpl; [by destruct (f s x)|].
  destruct (f s y); [apply IH|done].
Qed.

Lemma ofold_app {S A} (f : S -> A -> outcome S) s l k :
  ofold f s (l ++ k) = ofold f s l ≫= fun s' => ofold f s' k.
Proof.
  revert s. induction l as [|y l IH]; intros s; simpl; [done|].
  destruct (f s y); [apply IH|done].
Qed.

Lemma slice_prefix {A} (l : list A) n :
  0 <= n <= lenZ l -> slice l 0 n = Ret (take (Z.to_nat n) l).
Proof.
  intros Hn. unfold slice. rewrite bool_decide_eq_true_2 by lia.
  by rewrite drop_0, Z.sub_0_r.
Qed.

Lemma slice_suffix {A} (l : list A) n :
  0 <= n <= lenZ l -> slice l n (lenZ l) = Ret (drop (Z.to_nat n) l).
Proof.
  intros Hn. unfold slice. rewrite bool_decide_eq_true_2 by lia.
  f_equal. apply take_ge. rewrite length_drop. unfold lenZ in *. lia.
Qed.

Lemma splice_ok {A} (l : list A) off src :
  0 <= off -> off + lenZ src <= lenZ l ->
  splice l off src =
    Ret (take (Z.to_nat off) l ++ src ++ drop (Z.to_nat (off + lenZ src)) l).
Proof. intros. unfold splice. by rewrite bool_decide_eq_true_2. Qed.

Lemma lenZ_splice {A} (l l' : list A) off src :
  splice l off src = Ret l' -> lenZ l' = lenZ l.
Proof.
  unfold splice. case_bool_decide as Hb; [|done]. intros [= <-].
  unfold lenZ in *. rewrite !length_app, length_take, length_drop. lia.
Qed.

(** ** Counting

    [count_if p l] counts the elements of [l] that satisfy [p]; the lemmas
    below relate the counts of two predicates that differ at one point. *)
Definition count_if {A} (p : A -> bool) (l : list A) : Z :=
  lenZ (filter (fun x => p x = true) l).

Lemma count_if_cons {A} (p : A -> bool) x l :
  count_if p (x :: l) = (if p x then 1 else 0) + count_if p l.
Proof.
  unfold count_if. rewrite filter_cons.
  case_decide as H; [rewrite H, lenZ_cons; lia|].
  by apply not_true_is_false in H as ->.
Qed.

Lemma count_if_app {A} (p : A -> bool) l k :
  count_if p (l ++ k) = count_if p l + count_if p k.
Proof. unfold count_if. by rewrite filter_app, lenZ_app. Qed.

Lemma count_if_nonneg {A} (p : A -> bool) l : 0 <= count_if p l.
Proof. apply lenZ_nonneg. Qed.

Lemma count_if_ext {A} (p q : A -> bool) l :
  (forall x, x ∈ l -> p x = q x) -> count_if p l = count_if q l.
Proof.
  induction l as [|x l IH]; intros Hpq; [done|].
  rewrite !count_if_cons, (Hpq x) by (by left).
  rewrite IH; [done|]. intros. apply Hpq. by right.
Qed.

Lemma count_if_pos {A} (p : A -> bool) l x :
  x ∈ l -> p x = true -> 0 < count_if p l.
Proof.
  induction l as [|y l IH]; intros Hx Hp; [by apply not_elem_of_nil in Hx|].
  rewrite count_if_cons. apply elem_of_cons in Hx as [->|Hx].
  - rewrite Hp. pose proof (count_if_nonneg p l). lia.
  - specialize (IH Hx Hp). destruct (p y); lia.
Qed.

(** Flipping the predicate from [true] to [false] at one element of a
    duplicate-free list removes exactly one from the count. *)
Lemma count_if_flip {A} `{EqDecision A} (p q : A -> bool) l x :
  NoDup l -> x ∈ l -> p x = true -> q x = false ->
  (forall y, y ∈ l -> y <> x -> p y = q y) ->
  count_if p l = count_if q l + 1.
Proof.
  induction l as [|y l IH]; intros Hnd Hx Hp Hq Heq; [by apply not_elem_of_nil in Hx|].
  apply NoDup_cons in Hnd as [Hy Hnd]. rewrite !count_if_cons.
  destruct (decide (y = x)) as [->|Hne].
  - rewrite Hp, Hq.
    rewrite (count_if_ext p q); [lia|].
    intros z Hz. apply Heq; [by right|]. by intros ->.
  - apply elem_of_cons in Hx as [->|Hx]; [done|].
    rewrite (Heq y) by (by try left). rewrite IH; [lia|done..|].
    intros z Hz. apply Heq. by right.
Qed.

(** ** Weakest preconditions

    [wp c Q s]: whatever [c] returns from [s], normally or with an error,
    satisfies [Q].  A panic stops the kernel and returns nothing; theorems
    that a call returns are stated on the call itself. *)
Definition wp {S E A} (c : M S E A) (Q : S -> result A E -> Prop) (s : S) : Prop :=
  forall s' r, c s = Ret (s', r) -> Q s' r.

Section wp.
Context {S E : Type}.

Lemma wp_bind {A B} (c : M S E A) (f : A -> M S E B) Q s :
  wp c (fun s1 r => match r with Ok a => wp (f a) Q s1 | Err e => Q s1 (Err e) end) s ->
  wp (mbind (M:=M S E) f c) Q s.
Proof.
  unfold wp, mbind, M_bind, mbindM. intros H s' r.
  destruct (c s) as [[s1 [a|e]]|] eqn:Ec; [| |done].
  - exact (H s1 (Ok a) eq_refl s' r).
  - intros [= <- <-]. exact (H s1 (Err e) eq_refl).
Qed.

Lemma wp_mok {A} (a : A) Q s : Q s (Ok a) -> wp (mok a : M S E A) Q s.
Proof. intros HQ s' r [= <- <-]. exact HQ. Qed.

Lemma wp_mfail {A} (e : E) Q s : Q s (Err e) -> wp (mfail e : M S E A) Q s.
Proof. intros HQ s' r [= <- <-]. exact HQ. Qed.

Lemma wp_mget Q s : Q s (Ok s) -> wp (mget : M S E S) Q s.
Proof. intros HQ s' r [= <- <-]. exact HQ. Qed.

Lemma wp_mput s1 Q s : Q s1 (Ok tt) -> wp (mput s1 : M S E unit) Q s.
Proof. intros HQ s' r [= <- <-]. exact HQ. Qed.

Lemma wp_modify f Q s : Q (f s) (Ok tt) -> wp (modify f : M S E unit) Q s.
Proof. intros HQ s' r [= <- <-]. exact HQ. Qed.

Lemma wp_mlift {A} (o : outcome A) Q s :
  (forall a, o = Ret a -> Q s (Ok a)) -> wp (mlift o : M S E A) Q s.
Proof.
  unfold wp, mlift. intros HQ s' r. destruct o as [a|]; [|done].
  intros [= <- <-]. by apply HQ.
Qed.

Lemma wp_mono {A} (c : M S E A) (P Q : S -> result A E -> Prop) s :
  wp c P s -> (forall s' r, P s' r -> Q s' r) -> wp c Q s.
Proof. intros Hc HPQ s' r Hr. apply HPQ, Hc, Hr. Qed.

Lemma wp_mfor {A} (P : S -> Prop) (R : S -> E -> Prop) (l : list A) f s :
  P s ->
  (forall x s, x ∈ l -> P s ->
    wp (f x) (fun s' r => match r with Ok _ => P s' | Err e => R s' e end) s) ->
  wp (mfor l f) (fun s' r => match r with Ok _ => P s' | Err e => R s' e end) s.
Proof.
  revert s. induction l as [|x l IH]; intros s Hs Hf; [by apply wp_mok|].
  apply wp_bind. eapply wp_mono; [apply Hf; [by left|done]|].
  intros s1 [[]|e] H1; [|done]. apply IH; [done|]. intros. apply Hf; [by right|done].
Qed.

Lemma wp_try {F A} (c : M S F A) Q s :
  wp c (fun s' r => Q s' (Ok r)) s -> wp (try_ c : M S E (result A F)) Q s.
Proof.
  unfold wp, try_. intros H s' r. destruct (c s) as [[s1 r1]|]; [|done].
  intros [= <- <-]. by apply H.
Qed.

Lemma wp_zoom {T A} (get : S -> T) (put : T -> S -> S) (c : M T E A) Q s :
  wp c (fun t r => Q (put t s) r) (get s) -> wp (zoom get put c) Q s.
Proof.
  unfold wp, zoom. intros H s' r. destruct (c (get s)) as [[t1 r1]|]; [|done].
  intros [= <- <-]. by apply H.
Qed.

End wp.

Lemma wp_fn_ret {S A} (c : M S A A) (P : S -> A -> Prop) s s' v :
  wp c (fun s' r => match r with Ok a | Err a => P s' a end) s ->
  fn_ret c s = Ret (s', v) -> P s' v.
Proof.
  unfold wp, fn_ret. intros H. destruct (c s) as [[s1 [a|a]]|]; [| |done];
    intros [= <- <-]; exact (H _ _ eq_refl).
Qed.

(** Checked arithmetic and binds that returned, as equations. *)
Ltac inv_chk :=
  repeat match goal with
  | H : mbind (M:=outcome) _ _ = Ret _ |- _ => apply outcome_bind_ret in H as (? & ? & ?)
  | H : add_chk _ _ _ = Ret _ |- _ => apply add_chk_Ret in H as [? ?]
  | H : sub_chk _ _ = Ret _ |- _ => apply sub_chk_Ret in H as [? ?]
  | H : mul_chk _ _ _ = Ret _ |- _ => apply mul_chk_Ret in H as [? ?]
  | H : Ret _ = Ret _ |- _ => injection H as H
  end; subst.

(** One step of a weakest precondition, by the head of the computation;
    [wp_extra] is extended by the components. *)
Ltac wp_extra := fail.
Ltac wp_step :=
  cbv beta iota zeta;
  lazymatch goal with
  | |- wp (mbind _ _) _ _ => apply wp_bind
  | |- wp (mok _) _ _ => apply wp_mok
  | |- wp (mret _) _ _ => apply wp_mok
  | |- wp (mfail _) _ _ => apply wp_mfail
  | |- wp mget _ _ => apply wp_mget
  | |- wp (modify _) _ _ => apply wp_modify
  | |- wp (mput _) _ _ => apply wp_mput
  | |- wp (mlift _) _ _ => apply wp_mlift; intros ? ?
  | |- wp (try_ _) _ _ => apply wp_try
  | |- wp (zoom _ _ _) _ _ => apply wp_zoom
  | |- wp (match ?x with _ => _ end) _ _ => destruct x eqn:?
  | |- wp (let '_ := ?x in _) _ _ => destruct x eqn:?
  | |- _ => wp_extra
  end.
Ltac wp_steps := repeat (wp_step; cbn beta iota zeta).
