(* ===== verification/Steps.v ===== *)
(** * What a computation may do to the state

    [steps R c]: every run of [c] that does not panic takes a state to an
    [R]-related one, whatever it answers.  For a preorder [R] this is closed
    under the combinators of the kernel monad, so the frame of a handler is
    proved by walking over its body ([steps_tac]). *)

From S2P Require Import Prelude.
Local Open Scope Z_scope.

Definition steps {S E A} (R : relation S) (c : M S E A) : Prop :=
  forall s s' r, c s = Ret (s', r) -> R s s'.

Section steps.
Context {S : Type} (R : relation S) `{!PreOrder R}.

Lemma steps_id {E A} (c : M S E A) : (forall s s' r, c s = Ret (s', r) -> s' = s) -> steps R c.
Proof. intros Hc s s' r Hr. by rewrite (Hc s s' r Hr). Qed.
Lemma steps_ok {E A} (a : A) : steps R (mok a : M S E A).
Proof. apply steps_id. by intros s s' r [= -> _]. Qed.
Lemma steps_fail {E A} (e : E) : steps R (mfail e : M S E A).
Proof. apply steps_id. by intros s s' r [= -> _]. Qed.
Lemma steps_panic {E A} : steps R (mpanic : M S E A).
Proof. by intros s s' r ?. Qed.
Lemma steps_get {E} : steps R (mget : M S E S).
Proof. apply steps_id. by intros s s' r [= -> _]. Qed.
Lemma steps_lift {E A} (o : outcome A) : steps R (mlift o : M S E A).
Proof. apply steps_id. intros s s' r. unfold mlift. by destruct o; intros [= -> _]. Qed.
Lemma steps_modify {E} (f : S -> S) : (forall s, R s (f s)) -> steps R (modify f : M S E unit).
Proof. intros Hf s s' r [= <- _]. apply Hf. Qed.

Lemma steps_bind {E A B} (m : M S E A) (f : A -> M S E B) :
  steps R m -> (forall a, steps R (f a)) -> steps R (mbindM m f).
Proof.
  intros Hm Hf s s' r. unfold mbindM. destruct (m s) as [[s1 [a|e]]|] eqn:Em; [| |done].
  - intros Hr. etrans; [by eapply Hm|by eapply Hf].
  - intros [= <- _]. by eapply Hm.
Qed.
Lemma steps_bind_ok {E A B} (a : A) (f : A -> M S E B) :
  steps R (f a) -> steps R (mbindM (mok a) f).
Proof. done. Qed.
Lemma steps_for {E A} (l : list A) (f : A -> M S E unit) :
  (forall a, steps R (f a)) -> steps R (mfor l f).
Proof.
  intros Hf. induction l as [|x l IH]; cbn [mfor]; [apply steps_ok|].
  apply steps_bind; [apply Hf|done].
Qed.
Lemma steps_try {E F A} (c : M S E A) : steps R c -> steps R (try_ c : M S F _).
Proof.
  intros Hc s s' r. unfold try_. destruct (c s) as [[s1 r1]|] eqn:Ec; [|done].
  intros [= <- _]. by eapply Hc.
Qed.
Lemma steps_fn_ret {A} (c : M S A A) s s' v : steps R c -> fn_ret c s = Ret (s', v) -> R s s'.
Proof.
  intros Hc. unfold fn_ret. destruct (c s) as [[s1 [a|e]]|] eqn:Ec; [| |done];
    intros [= <- _]; by eapply Hc.
Qed.
End steps.

(** A call on a part of the state. *)
Lemma steps_zoom {S T E A} (R : relation S) (Q : relation T) (get : S -> T) (put : T -> S -> S) (c : M T E A) :
  steps Q c -> (forall s t, Q (get s) t -> R s (put t s)) -> steps R (zoom get put c).
Proof.
  intros Hc HQ s s' r. unfold zoom. destruct (c (get s)) as [[t r1]|] eqn:Ec; [|done].
  intros [= <- _]. apply HQ. by eapply Hc.
Qed.
Lemma steps_any {S E A} (c : M S E A) : steps (fun _ _ => True) c.
Proof. by intros s s' r _. Qed.

Create HintDb steps.
#[export] Hint Resolve steps_ok steps_fail steps_panic steps_get steps_lift steps_any : steps.

(** One step over the body of a handler. *)
Ltac steps_tac1 :=
  match goal with
  | |- steps _ (mbind _ _) => unfold mbind, M_bind
  | |- steps _ (mbindM _ _) => apply steps_bind; [try typeclasses eauto| |intros ?]
  | |- steps _ (mfor _ _) => apply steps_for; [try typeclasses eauto|intros ?]
  | |- steps _ (try_ _) => apply steps_try; [try typeclasses eauto|..]
  | |- steps _ (modify _) => apply steps_modify; intros ?
  | |- steps _ (match ?x with _ => _ end) => destruct x
  | |- steps _ _ => solve [eauto with steps typeclass_instances]
  end.
Ltac steps_tac := repeat steps_tac1.

(** Past the first call of a body. *)
Ltac steps_past := unfold mbind at 1, M_bind at 1; apply steps_bind; [typeclasses eauto|solve [steps_tac]|intros ?].

(** ** Total runs

    [runs c s Q]: from [s], [c] returns normally, in a state and with a value
    that satisfy [Q]. *)
Definition runs {S E A} (c : M S E A) (s : S) (Q : S -> A -> Prop) : Prop :=
  exists s' a, c s = Ret (s', Ok a) /\ Q s' a.

Lemma runs_bind {S E A B} (c : M S E A) (f : A -> M S E B) s Q :
  runs c s (fun s1 a => runs (f a) s1 Q) -> runs (c ≫= f) s Q.
Proof.
  intros (s1 & a & E1 & s2 & b & E2 & HQ). exists s2, b. split; [|done].
  by rewrite (mbindM_Ret c f s s1 a).
Qed.
Lemma runs_mono {S E A} (c : M S E A) s (P Q : S -> A -> Prop) :
  runs c s P -> (forall s' a, P s' a -> Q s' a) -> runs c s Q.
Proof. intros (s' & a & E1 & HP) HPQ. exists s', a. auto. Qed.
Lemma runs_ok {S E A} (a : A) s (Q : S -> A -> Prop) : Q s a -> runs (mok a : M S E A) s Q.
Proof. intros HQ. by exists s, a. Qed.
Lemma runs_lift {S E A} (o : outcome A) a s (Q : S -> A -> Prop) :
  o = Ret a -> Q s a -> runs (mlift o : M S E A) s Q.
Proof. intros -> HQ. by exists s, a. Qed.
Lemma runs_for {S E A} (l : list A) (f : A -> M S E unit) (I : list A -> S -> Prop) s :
  I [] s ->
  (forall pre x post s, l = pre ++ x :: post -> I pre s -> runs (f x) s (fun s' _ => I (pre ++ [x]) s')) ->
  runs (mfor l f) s (fun s' _ => I l s').
Proof.
  intros HI Hf. assert (H : forall post pre s, l = pre ++ post -> I pre s ->
    runs (mfor post f) s (fun s' _ => I l s')).
  { induction post as [|x post IH]; intros pre s' Hl Hd; cbn [mfor].
    - apply runs_ok. by rewrite Hl, app_nil_r.
    - apply runs_bind. eapply runs_mono; [by apply (Hf pre x post)|]. intros s1 a H1.
      apply (IH (pre ++ [x])); [by rewrite <- app_assoc|done]. }
  by apply (H l []).
Qed.
