(* ===== verification/Str.v ===== *)
(** * Strings

    A Rust [str] is its UTF-8 bytes.  This file models the parts of
    [core::str] the kernel uses: validation ([from_utf8]), [split], [lines],
    [trim], [parse::<u32>] and the decimal formatting of integers, with the
    lemmas that relate them (splitting and joining, parsing and printing,
    validity of the pieces of a valid string). *)

From S2P Require Import Prelude.
Local Open Scope Z_scope.

Abbreviation str := (list Z).

(** ** UTF-8 validation, [core::str::from_utf8] *)

Definition cont (b : Z) : bool := bool_decide (128 <= b <= 191).

(** The second byte of a three-byte and of a four-byte sequence, by the
    first byte: no overlong form, no surrogate, nothing above U+10FFFF. *)
Definition second3 (b c : Z) : bool :=
  if bool_decide (b = 224) then bool_decide (160 <= c <= 191)
  else if bool_decide (b = 237) then bool_decide (128 <= c <= 159)
  else bool_decide (225 <= b <= 239) && cont c.
Definition second4 (b c : Z) : bool :=
  if bool_decide (b = 240) then bool_decide (144 <= c <= 191)
  else if bool_decide (b = 244) then bool_decide (128 <= c <= 143)
  else bool_decide (241 <= b <= 243) && cont c.

Fixpoint utf8_ok (l : str) : bool :=
  match l with
  | [] => true
  | b :: r =>
      if bool_decide (0 <= b < 128) then utf8_ok r
      else if bool_decide (194 <= b <= 223) then
        match r with c :: r1 => cont c && utf8_ok r1 | _ => false end
      else if bool_decide (224 <= b <= 239) then
        match r with c :: d :: r2 => second3 b c && cont d && utf8_ok r2 | _ => false end
      else match r with
           | c :: d :: e :: r3 => second4 b c && cont d && cont e && utf8_ok r3
           | _ => false
           end
  end.

Definition from_utf8 (l : list Z) : option str := if utf8_ok l then Some l else None.

(** Every byte is an ASCII character. *)
Definition ascii (l : str) : bool := forallb (fun b => bool_decide (0 <= b < 128)) l.

(** [String::push]: the encoding of a character. *)
Definition encode_char (c : Z) : str :=
  if bool_decide (c < 0x80) then [c]
  else if bool_decide (c < 0x800) then [0xC0 + c / 64; 0x80 + c mod 64]
  else if bool_decide (c < 0x10000) then [0xE0 + c / 4096; 0x80 + c / 64 mod 64; 0x80 + c mod 64]
  else [0xF0 + c / 262144; 0x80 + c / 4096 mod 64; 0x80 + c / 64 mod 64; 0x80 + c mod 64].

(** [char::from_u32]: not a surrogate, at most U+10FFFF. *)
Definition char_from_u32 (c : Z) : option Z :=
  if bool_decide (0xD800 <= c <= 0xDFFF \/ 0x10FFFF < c) then None else Some c.

(** [s.chars()] of a valid string. *)
Fixpoint chars (l : str) : list Z :=
  match l with
  | [] => []
  | b :: r =>
      if bool_decide (b < 128) then b :: chars r
      else if bool_decide (b < 224) then
        match r with c :: r1 => (b mod 32) * 64 + c mod 64 :: chars r1 | _ => [] end
      else if bool_decide (b < 240) then
        match r with c :: d :: r2 => (b mod 16) * 4096 + (c mod 64) * 64 + d mod 64 :: chars r2 | _ => [] end
      else match r with
           | c :: d :: e :: r3 =>
               (b mod 8) * 262144 + (c mod 64) * 4096 + (d mod 64) * 64 + e mod 64 :: chars r3
           | _ => []
           end
  end.

(** ** Splitting *)

(** [s.split(sep)] for an ASCII separator: at least one piece. *)
Fixpoint str_split (sep : Z) (s : str) : list str :=
  match s with
  | [] => [[]]
  | c :: r =>
      match str_split sep r with
      | w :: ws => if bool_decide (c = sep) then [] :: w :: ws else (c :: w) :: ws
      | [] => [[]]
      end
  end.

Fixpoint str_join (sep : Z) (ws : list str) : str :=
  match ws with
  | [] => []
  | [w] => w
  | w :: ws' => w ++ sep :: str_join sep ws'
  end.

(** [s.lines()] cuts after each newline,
    drops the newline and one carriage return before it, and yields no
    empty last line. *)
Definition strip_last (c : Z) (s : str) : str :=
  match last s with
  | Some d => if bool_decide (d = c) then removelast s else s
  | None => s
  end.
Definition lines (s : str) : list str :=
  let ws := str_split 10 s in
  let body := match last ws with Some [] => removelast ws | _ => ws end in
  (fun w => strip_last 13 w) <$> body.

(** [s.trim_end_matches(c)] and [s.trim_start_matches(c)]. *)
Fixpoint trim_start_matches (c : Z) (s : str) : str :=
  match s with
  | d :: r => if bool_decide (d = c) then trim_start_matches c r else s
  | [] => []
  end.
Definition trim_end_matches (c : Z) (s : str) : str :=
  reverse (trim_start_matches c (reverse s)).

(** ** White space

    The characters with the Unicode property White_Space, encoded. *)
Definition white : list str :=
  ((fun b => [b]) <$> [9; 10; 11; 12; 13; 32]) ++
  [[194; 133]; [194; 160]; [225; 154; 128]] ++
  ((fun b => [226; 128; b]) <$> [128; 129; 130; 131; 132; 133; 134; 135; 136; 137; 138; 168; 169; 175]) ++
  [[226; 129; 159]; [227; 128; 128]].

Fixpoint strip_prefix (p s : str) : option str :=
  match p, s with
  | [], _ => Some s
  | c :: p', d :: s' => if bool_decide (c = d) then strip_prefix p' s' else None
  | _ :: _, [] => None
  end.

Definition strip_any (ps : list str) (s : str) : option str :=
  foldr (fun p o => match strip_prefix p s with Some r => Some r | None => o end) None ps.

Fixpoint trim_by (ps : list str) (fuel : nat) (s : str) : str :=
  match fuel with
  | O => s
  | S f => match strip_any ps s with Some r => trim_by ps f r | None => s end
  end.

(** [trim_start], [trim_end], [trim]; each step removes a byte, so the
    length is enough fuel. *)
Definition trim_start (s : str) : str := trim_by white (length s) s.
Definition trim_end (s : str) : str :=
  reverse (trim_by (reverse <$> white) (length s) (reverse s)).
Definition trim (s : str) : str := trim_end (trim_start s).

(** ** Prefixes, suffixes, searching *)

Definition starts_with (p s : str) : bool := bool_decide (is_Some (strip_prefix p s)).
Definition ends_with (p s : str) : bool := starts_with (reverse p) (reverse s).
Definition str_contains (c : Z) (s : str) : bool := existsb (fun d => bool_decide (d = c)) s.

(** [s.find(c)]: the index of the first occurrence. *)
Fixpoint find_char (c : Z) (s : str) : option nat :=
  match s with
  | [] => None
  | d :: r => if bool_decide (d = c) then Some O else S <$> find_char c r
  end.

(** [to_ascii_uppercase], [to_ascii_lowercase], [eq_ignore_ascii_case]. *)
Definition to_upper (b : Z) : Z := if bool_decide (97 <= b <= 122) then b - 32 else b.
Definition to_lower (b : Z) : Z := if bool_decide (65 <= b <= 90) then b + 32 else b.
Definition eq_ignore_case (a b : str) : bool :=
  bool_decide ((to_lower <$> a) = (to_lower <$> b)).

(** ** Decimal numbers *)

Definition digit (b : Z) : option Z :=
  if bool_decide (48 <= b <= 57) then Some (b - 48) else None.

Fixpoint parse_digits (w : Z) (acc : Z) (s : str) : option Z :=
  match s with
  | [] => Some acc
  | b :: r =>
      match digit b with
      | Some d =>
          match checked_mul w acc 10 with
          | Some a => match checked_add w a d with
                      | Some a' => parse_digits w a' r
                      | None => None
                      end
          | None => None
          end
      | None => None
      end
  end.

(** [s.parse::<u<w>>()]: an optional plus sign, then at least one digit,
    no overflow. *)
Definition parse_uint (w : Z) (s : str) : option Z :=
  match s with
  | [] => None
  | [43] => None
  | 43 :: r => parse_digits w 0 r
  | _ => parse_digits w 0 s
  end.

(** [format!("{}", n)]: twenty digits hold a [u64]. *)
Fixpoint dec_digits (fuel : nat) (n : Z) : str :=
  match fuel with
  | O => []
  | S f => if bool_decide (n < 10) then [48 + n]
           else dec_digits f (n / 10) ++ [48 + n mod 10]
  end.
Definition fmt_dec (n : Z) : str := dec_digits 20 n.
(** [format!("{:x}", n)] and [{:#x}]: sixteen digits hold a [u64]. *)
Definition hex_digit (d : Z) : Z := if d <? 10 then 48 + d else 87 + d.
Fixpoint hex_digits (fuel : nat) (n : Z) : str :=
  match fuel with
  | O => []
  | S f => if n <? 16 then [hex_digit n] else hex_digits f (n / 16) ++ [hex_digit (n mod 16)]
  end.
Definition fmt_hex (n : Z) : str := hex_digits 16 n.
Definition fmt_0x (n : Z) : str := bstr "0x" ++ fmt_hex n.

(** ** Validity

    A valid string is a concatenation of encoded characters, and an encoded
    character is one ASCII byte or several bytes that are not ASCII. *)
Definition uchar (c : str) : bool :=
  match c with
  | [b] => bool_decide (0 <= b < 128)
  | [b; c1] => bool_decide (194 <= b <= 223) && cont c1
  | [b; c1; c2] => bool_decide (224 <= b <= 239) && second3 b c1 && cont c2
  | [b; c1; c2; c3] => second4 b c1 && cont c2 && cont c3
  | _ => false
  end.

Ltac andb_hyps :=
  repeat match goal with
  | H : _ && _ = true |- _ => apply andb_prop in H as [? ?]
  | H : bool_decide _ = true |- _ => apply bool_decide_eq_true in H
  | H : cont _ = true |- _ => unfold cont in H
  end.

Lemma second4_range b c : second4 b c = true -> 240 <= b <= 244 /\ 128 <= c.
Proof. unfold second4, cont. intros. repeat case_bool_decide; andb_hyps; try done; lia. Qed.
Lemma second3_range b c : second3 b c = true -> 128 <= c.
Proof. unfold second3, cont. intros. repeat case_bool_decide; andb_hyps; try done; lia. Qed.

Lemma uchar_step c s : uchar c = true -> utf8_ok (c ++ s) = utf8_ok s.
Proof.
  destruct c as [|b [|c1 [|c2 [|c3 [|]]]]]; simpl; intros H; try done.
  - by rewrite H.
  - andb_hyps. rewrite bool_decide_eq_false_2, bool_decide_eq_true_2 by lia.
    unfold cont. by rewrite bool_decide_eq_true_2.
  - apply andb_prop in H as [[H1 ->]%andb_prop ->]. andb_hyps.
    rewrite bool_decide_eq_false_2, bool_decide_eq_false_2, bool_decide_eq_true_2 by lia. done.
  - apply andb_prop in H as [[H1 ->]%andb_prop ->]. rewrite H1.
    apply second4_range in H1.
    by rewrite !bool_decide_eq_false_2 by lia.
Qed.

Lemma utf8_chars s :
  utf8_ok s = true <-> exists cs, Forall (fun c => uchar c = true) cs /\ s = concat cs.
Proof.
  split.
  - induction s as [s IH] using (induction_ltof1 _ length). unfold ltof in IH.
    assert (Hcons : forall c r, s = c ++ r -> uchar c = true -> utf8_ok r = true ->
      exists cs, Forall (fun c => uchar c = true) cs /\ s = concat cs).
    { intros c r -> Hc Hr. destruct (IH r) as (cs & Hcs & ->); [|done|].
      - rewrite length_app. destruct c; [done|simpl; lia].
      - exists (c :: cs). split; [by constructor|done]. }
    destruct s as [|b s]; [exists []; done|]. cbn [utf8_ok].
    case_bool_decide as Hb; [|case_bool_decide as Hb2; [|case_bool_decide as Hb3]].
    + intros Hs. apply (Hcons [b] s); [done| |done]. by apply bool_decide_eq_true_2.
    + destruct s as [|c1 s]; [done|]. intros [H1 Hs]%andb_prop.
      apply (Hcons [b; c1] s); [done| |done]. simpl. by rewrite bool_decide_eq_true_2, H1.
    + destruct s as [|c1 [|c2 s]]; [done..|]. intros [[H1 H2]%andb_prop Hs]%andb_prop.
      apply (Hcons [b; c1; c2] s); [done| |done]. simpl. by rewrite bool_decide_eq_true_2, H1, H2.
    + destruct s as [|c1 [|c2 [|c3 s]]]; [done..|].
      intros [[[H1 H2]%andb_prop H3]%andb_prop Hs]%andb_prop.
      apply (Hcons [b; c1; c2; c3] s); [done| |done]. simpl. by rewrite H1, H2, H3.
  - intros (cs & Hcs & ->). induction Hcs as [|c cs Hc Hcs IH]; [done|].
    simpl. by rewrite uchar_step.
Qed.

Lemma utf8_app a b : utf8_ok a = true -> utf8_ok (a ++ b) = utf8_ok b.
Proof.
  intros (cs & Hcs & ->)%utf8_chars. induction Hcs as [|c cs Hc Hcs IH]; [done|].
  simpl. rewrite <- app_assoc. by rewrite uchar_step.
Qed.

Lemma utf8_concat ls : Forall (fun s => utf8_ok s = true) ls -> utf8_ok (concat ls) = true.
Proof. induction 1 as [|s ls Hs Hls IH]; [done|]. simpl. by rewrite utf8_app. Qed.

Lemma ascii_utf8 s : ascii s = true -> utf8_ok s = true.
Proof.
  induction s as [|b s IH]; [done|]. simpl. intros [Hb Hs]%andb_prop. rewrite Hb. auto.
Qed.

Lemma uchar_ascii_or_high c :
  uchar c = true -> (exists b, c = [b] /\ 0 <= b < 128) \/ Forall (fun b => 128 <= b) c.
Proof.
  destruct c as [|b [|c1 [|c2 [|c3 [|]]]]]; simpl; intros H; try done.
  - left. andb_hyps. eauto.
  - right. andb_hyps. repeat constructor; lia.
  - right. apply andb_prop in H as [[H1 H2%second3_range]%andb_prop H3]. andb_hyps.
    repeat constructor; lia.
  - right. apply andb_prop in H as [[H1%second4_range H2]%andb_prop H3]. andb_hyps.
    repeat constructor; lia.
Qed.

(** ** Splitting and joining *)

Lemma str_split_nonempty sep s : str_split sep s <> [].
Proof. destruct s as [|c r]; [done|]. simpl. destruct (str_split sep r); [done|]. by case_bool_decide. Qed.

Lemma str_split_sep sep s : str_split sep (sep :: s) = [] :: str_split sep s.
Proof.
  simpl. pose proof (str_split_nonempty sep s). destruct (str_split sep s); [done|].
  by rewrite bool_decide_eq_true_2.
Qed.

(** A block without the separator extends the first piece. *)
Lemma str_split_app_l sep w s :
  sep ∉ w -> exists p ps, str_split sep s = p :: ps /\ str_split sep (w ++ s) = (w ++ p) :: ps.
Proof.
  intros Hw. pose proof (str_split_nonempty sep s) as Hs.
  destruct (str_split sep s) as [|p ps] eqn:E; [done|]. exists p, ps. split; [done|].
  induction w as [|c w IH]; [done|]. apply not_elem_of_cons in Hw as [Hc Hw].
  simpl. rewrite IH by done. by rewrite bool_decide_eq_false_2.
Qed.

Lemma str_split_block sep w : sep ∉ w -> str_split sep w = [w].
Proof.
  intros Hw. destruct (str_split_app_l sep w [] Hw) as (p & ps & [= <- <-] & H).
  by rewrite !app_nil_r in H.
Qed.

Lemma str_split_cons sep w s :
  sep ∉ w -> str_split sep (w ++ sep :: s) = w :: str_split sep s.
Proof.
  intros Hw. destruct (str_split_app_l sep w (sep :: s) Hw) as (p & ps & H1 & ->).
  rewrite str_split_sep in H1. injection H1 as <- <-. by rewrite app_nil_r.
Qed.

Lemma str_split_join sep ws :
  ws <> [] -> Forall (fun w => sep ∉ w) ws -> str_split sep (str_join sep ws) = ws.
Proof.
  intros Hne Hws. induction Hws as [|w ws Hw Hws IH]; [done|].
  destruct ws as [|w' ws]; [by apply str_split_block|].
  cbn [str_join]. rewrite str_split_cons by done. f_equal. by apply IH.
Qed.

Lemma str_split_pieces sep s : Forall (fun w => sep ∉ w) (str_split sep s).
Proof.
  induction s as [|c r IH]; simpl; [repeat constructor; apply not_elem_of_nil|].
  destruct (str_split sep r) as [|w ws]; [repeat constructor; apply not_elem_of_nil|].
  apply Forall_cons in IH as [Hw Hws].
  case_bool_decide; repeat constructor; try done; [apply not_elem_of_nil|].
  by apply not_elem_of_cons.
Qed.

(** The pieces hold only bytes of the string. *)
Lemma str_split_Forall (P : Z -> Prop) sep s :
  Forall P s -> Forall (Forall P) (str_split sep s).
Proof.
  induction 1 as [|c r Hc Hr IH]; simpl; [repeat constructor|].
  destruct (str_split sep r) as [|w ws]; [repeat constructor|].
  apply Forall_cons in IH as [Hw Hws]. case_bool_decide; repeat constructor; auto.
Qed.

Lemma str_split_utf8 sep s :
  0 <= sep < 128 -> utf8_ok s = true -> Forall (fun w => utf8_ok w = true) (str_split sep s).
Proof.
  intros Hsep (cs & Hcs & ->)%utf8_chars.
  induction Hcs as [|c cs Hc Hcs IH]; simpl; [by repeat constructor|].
  destruct (uchar_ascii_or_high c Hc) as [(b & -> & Hb)|Hhigh].
  - destruct (decide (b = sep)) as [->|Hne].
    { cbn [app]. rewrite str_split_sep. by constructor. }
    destruct (str_split_app_l sep [b] (concat cs)) as (p & ps & E1 & ->).
    { by apply not_elem_of_cons; split; [done|apply not_elem_of_nil]. }
    rewrite E1 in IH. apply Forall_cons in IH as [Hp Hps].
    constructor; [|done]. by rewrite uchar_step.
  - destruct (str_split_app_l sep c (concat cs)) as (p & ps & E1 & ->).
    { intros Hin. rewrite Forall_forall in Hhigh. specialize (Hhigh _ Hin). lia. }
    rewrite E1 in IH. apply Forall_cons in IH as [Hp Hps].
    constructor; [|done]. by rewrite uchar_step.
Qed.

(** ** Lines *)

Lemma strip_last_id c s : last s <> Some c -> strip_last c s = s.
Proof. unfold strip_last. destruct (last s) as [d|]; [|done]. intros H. case_bool_decide; congruence. Qed.

Lemma str_split_lines ws :
  Forall (fun w => 10 ∉ w) ws ->
  str_split 10 (concat ((fun w => w ++ [10]) <$> ws)) = ws ++ [[]].
Proof.
  induction 1 as [|w ws Hw Hws IH]; [done|]. cbn [fmap list_fmap concat].
  rewrite <- app_assoc. cbn [app]. rewrite str_split_cons by done. by rewrite IH.
Qed.

Lemma lines_concat ws :
  Forall (fun w => (10 ∉ w) /\ last w <> Some 13) ws ->
  lines (concat ((fun w => w ++ [10]) <$> ws)) = ws.
Proof.
  intros Hws. unfold lines. rewrite str_split_lines by (eapply Forall_impl; [exact Hws|by intros w []]).
  rewrite last_snoc, removelast_last.
  induction Hws as [|w ws [Hw Hl] Hws IH]; [done|]. by rewrite fmap_cons, IH, strip_last_id.
Qed.

Lemma elem_of_removelast {A} (x : A) l : x ∈ removelast l -> x ∈ l.
Proof.
  destruct l as [|y l _] using rev_ind; [done|]. rewrite removelast_last.
  intros. apply elem_of_app. by left.
Qed.

Lemma removelast_utf8 c s :
  0 <= c < 128 -> last s = Some c -> utf8_ok s = true -> utf8_ok (removelast s) = true.
Proof.
  intros Hc Hl (cs & Hcs & ->)%utf8_chars.
  destruct cs as [|x cs _] using rev_ind; [done|].
  apply Forall_app in Hcs as [Hcs Hx]. apply Forall_cons in Hx as [Hx _].
  rewrite concat_app in *. simpl in *. rewrite app_nil_r in *.
  destruct (uchar_ascii_or_high x Hx) as [(b & -> & Hb)|Hhigh].
  - rewrite removelast_last. apply utf8_chars. by exists cs.
  - destruct x as [|y x _] using rev_ind; [done|].
    rewrite app_assoc, last_snoc in Hl. injection Hl as ->.
    apply Forall_app in Hhigh as [_ H]. apply Forall_cons in H as [H _]. lia.
Qed.

Lemma strip_last_utf8 c s :
  0 <= c < 128 -> utf8_ok s = true -> utf8_ok (strip_last c s) = true.
Proof.
  intros Hc Hs. unfold strip_last. destruct (last s) as [d|] eqn:E; [|done].
  case_bool_decide; subst; [|done]. by eapply removelast_utf8.
Qed.

Lemma strip_last_notin x c s : x ∉ s -> x ∉ strip_last c s.
Proof.
  unfold strip_last. intros Hx. destruct (last s); [|done]. case_bool_decide; [|done].
  intros ?%elem_of_removelast. done.
Qed.

Lemma elem_of_lines w s :
  w ∈ lines s -> exists p, p ∈ str_split 10 s /\ w = strip_last 13 p.
Proof.
  unfold lines. intros (p & -> & Hp)%list_elem_of_fmap. exists p. split; [|done].
  destruct (last (str_split 10 s)) as [[|]|]; try done. by apply elem_of_removelast.
Qed.

Lemma lines_utf8 s w : utf8_ok s = true -> w ∈ lines s -> utf8_ok w = true /\ (10 ∉ w).
Proof.
  intros Hs (p & Hp & ->)%elem_of_lines. split.
  - apply strip_last_utf8; [lia|].
    apply (proj1 (Forall_forall (fun w => utf8_ok w = true) _) (str_split_utf8 10 s ltac:(lia) Hs) _ Hp).
  - apply strip_last_notin. exact (proj1 (Forall_forall _ _) (str_split_pieces 10 s) _ Hp).
Qed.

(** ** Trimming one character *)

Lemma trim_start_matches_id c s : head s <> Some c -> trim_start_matches c s = s.
Proof. destruct s as [|d r]; [done|]. simpl. intros. case_bool_decide; congruence. Qed.
Lemma trim_end_matches_id c s : last s <> Some c -> trim_end_matches c s = s.
Proof.
  intros H. unfold trim_end_matches.
  rewrite trim_start_matches_id, reverse_involutive; [done|]. by rewrite head_reverse.
Qed.

Lemma trim_start_matches_suffix c s : exists k, s = replicate k c ++ trim_start_matches c s.
Proof.
  induction s as [|d r (k & IH)]; [by exists O|]. simpl. case_bool_decide as Hd; [|by exists O].
  exists (S k). simpl. by rewrite <- IH, Hd.
Qed.
Lemma trim_end_matches_prefix c s : exists k, s = trim_end_matches c s ++ replicate k c.
Proof.
  destruct (trim_start_matches_suffix c (reverse s)) as (k & H). exists k.
  unfold trim_end_matches. rewrite <- (reverse_replicate k c), <- reverse_app, <- H.
  by rewrite reverse_involutive.
Qed.
Lemma head_trim_start_matches c s : head (trim_start_matches c s) <> Some c.
Proof. induction s as [|d r IH]; [done|]. simpl. case_bool_decide; [done|]. simpl. congruence. Qed.
Lemma last_trim_end_matches c s : last (trim_end_matches c s) <> Some c.
Proof. unfold trim_end_matches. rewrite last_reverse. apply head_trim_start_matches. Qed.

Lemma trim_end_matches_utf8 c s :
  0 <= c < 128 -> utf8_ok s = true -> utf8_ok (trim_end_matches c s) = true.
Proof.
  intros Hc. destruct (trim_end_matches_prefix c s) as (k & Hk).
  set (t := trim_end_matches c s) in *. clearbody t. revert s Hk.
  induction k as [|k IH]; intros s Hk Hs; [rewrite Hk in Hs; simpl in Hs; by rewrite app_nil_r in Hs|].
  apply (IH (removelast s)).
  - rewrite Hk, replicate_S_end, app_assoc. by rewrite removelast_last.
  - eapply removelast_utf8; [done| |done].
    by rewrite Hk, replicate_S_end, app_assoc, last_snoc.
Qed.

(** ** Numbers *)

Lemma parse_digits_app w acc a b :
  parse_digits w acc (a ++ b) = parse_digits w acc a ≫= fun n => parse_digits w n b.
Proof.
  revert acc. induction a as [|x a IH]; intros acc; [done|]. simpl.
  destruct (digit x), (checked_mul w acc 10); try done. by destruct (checked_add w _ _).
Qed.

Lemma dec_digits_parse fuel n w :
  0 <= n < 10 ^ Z.of_nat fuel -> n < 2 ^ w -> parse_digits w 0 (dec_digits fuel n) = Some n.
Proof.
  revert n. induction fuel as [|f IH]; intros n Hn Hw; [simpl in *; f_equal; lia|].
  cbn [dec_digits]. case_bool_decide as H10.
  - simpl. unfold digit, checked_mul, checked_add. rewrite !bool_decide_eq_true_2 by lia. f_equal. lia.
  - rewrite parse_digits_app, IH; [| |pose proof (Z.div_mod n 10 ltac:(lia)); pose proof (Z.mod_pos_bound n 10 ltac:(lia)); lia].
    2:{ rewrite Nat2Z.inj_succ, Z.pow_succ_r in Hn by lia.
        split; [apply Z.div_pos; lia|apply Z.div_lt_upper_bound; lia]. }
    pose proof (Z.mod_pos_bound n 10 ltac:(lia)). pose proof (Z.div_mod n 10 ltac:(lia)).
    simpl. unfold digit, checked_mul, checked_add.
    rewrite !bool_decide_eq_true_2 by lia. f_equal. lia.
Qed.

Lemma dec_digits_range fuel n : 0 <= n -> Forall (fun b => 48 <= b <= 57) (dec_digits fuel n).
Proof.
  revert n. induction fuel as [|f IH]; intros n Hn; [constructor|]. cbn [dec_digits].
  case_bool_decide; [repeat constructor; lia|]. apply Forall_app. split.
  - apply IH, Z.div_pos; lia.
  - pose proof (Z.mod_pos_bound n 10). repeat constructor; lia.
Qed.

(** Printing a machine integer and parsing it gives it back. *)
Lemma parse_fmt_dec w n : w <= 64 -> fits w n -> parse_uint w (fmt_dec n) = Some n.
Proof.
  intros Hw [H0 Hn]. assert (Hpow : 2 ^ w <= 2 ^ 64) by (apply Z.pow_le_mono_r; lia).
  assert (Hp : parse_digits w 0 (fmt_dec n) = Some n).
  { apply dec_digits_parse; [|done]. split; [done|].
    assert (2 ^ 64 < 10 ^ Z.of_nat 20) by done. lia. }
  pose proof (dec_digits_range 20 n H0) as Hr. fold (fmt_dec n) in Hr.
  unfold parse_uint. destruct (fmt_dec n) as [|b r] eqn:E.
  { exfalso. unfold fmt_dec in E. cbn [dec_digits] in E. case_bool_decide; [done|].
    by apply app_eq_nil in E as [_ ?]. }
  apply Forall_cons in Hr as [Hb _].
  assert (b <> 43) by lia. clear E. repeat (case_match; try done); lia.
Qed.

Lemma fmt_dec_range n : 0 <= n -> Forall (fun b => 48 <= b <= 57) (fmt_dec n).
Proof. apply dec_digits_range. Qed.

Lemma fmt_dec_notin c n : 0 <= n -> ~ 48 <= c <= 57 -> c ∉ fmt_dec n.
Proof. intros Hn Hc Hin. eapply Forall_forall in Hin; [|by apply fmt_dec_range]. simpl in Hin. lia. Qed.

Lemma digits_ascii s : Forall (fun b => 48 <= b <= 57) s -> ascii s = true.
Proof. induction 1; [done|]. simpl. rewrite bool_decide_eq_true_2 by lia. done. Qed.

Lemma parse_digits_fits w acc s n : fits w acc -> parse_digits w acc s = Some n -> fits w n.
Proof.
  revert acc. induction s as [|b s IH]; simpl; intros acc Ha; [by intros [= <-]|].
  unfold digit, checked_mul, checked_add, fits in *. repeat case_bool_decide; try done.
  apply IH. lia.
Qed.
Lemma parse_uint_fits w s n : 0 <= w -> parse_uint w s = Some n -> fits w n.
Proof.
  intros Hw H. apply (parse_digits_fits w 0 (if decide (head s = Some 43) then tail s else s)).
  { unfold fits. lia. }
  revert H. unfold parse_uint. repeat case_match; subst; try done;
    simpl in *; naive_solver.
Qed.

#[export] Hint Resolve str_split_nonempty str_split_pieces utf8_app ascii_utf8 : kernel.

(** ** Ends of split strings *)

Lemma str_join_split sep s : str_join sep (str_split sep s) = s.
Proof.
  induction s as [|c r IH]; [done|]. simpl. pose proof (str_split_nonempty sep r) as Hne.
  destruct (str_split sep r) as [|w ws] eqn:E; [done|]. case_bool_decide as Hc.
  - cbn [str_join app] in *. rewrite IH. by subst.
  - destruct ws as [|w' ws]; cbn [str_join app] in *; by rewrite IH.
Qed.

Lemma last_join sep ws w c :
  last w = Some c -> last (str_join sep (ws ++ [w])) = Some c.
Proof.
  intros Hw. induction ws as [|x ws IH]; [done|].
  destruct ws as [|y ws]; cbn [app str_join] in *; rewrite last_app_cons, last_cons; rewrite ?IH, ?Hw; done.
Qed.

Lemma head_join sep w ws c : head w = Some c -> head (str_join sep (w :: ws)) = Some c.
Proof. destruct w as [|d w]; [done|]. intros [= ->]. by destruct ws. Qed.

Lemma last_join_ne sep ws w c :
  sep <> c -> last w <> Some c -> ws <> [] -> last (str_join sep (ws ++ [w])) <> Some c.
Proof.
  intros Hsc Hw Hne. induction ws as [|x ws IH]; [done|].
  destruct ws as [|y ws]; cbn [app str_join] in *; rewrite last_app_cons, last_cons.
  - destruct (last w); congruence.
  - specialize (IH ltac:(done)). match goal with |- match last ?t with _ => _ end <> _ => destruct (last t) end; congruence.
Qed.

Lemma str_join_Forall (P : Z -> Prop) sep ws :
  P sep -> Forall (Forall P) ws -> Forall P (str_join sep ws).
Proof.
  intros Hs. induction 1 as [|w ws Hw Hws IH]; [constructor|].
  destruct ws as [|w' ws]; [done|]. cbn [str_join] in *. apply Forall_app. split; [done|]. by constructor.
Qed.

Lemma str_join_utf8 sep ws :
  0 <= sep < 128 -> Forall (fun w => utf8_ok w = true) ws -> utf8_ok (str_join sep ws) = true.
Proof.
  intros Hs. induction 1 as [|w ws Hw Hws IH]; [done|].
  destruct ws as [|w' ws]; [done|]. cbn [str_join] in *. rewrite utf8_app by done.
  cbn [utf8_ok]. by rewrite bool_decide_eq_true_2.
Qed.

Lemma starts_with_head c s : starts_with [c] s = true <-> head s = Some c.
Proof.
  unfold starts_with. rewrite bool_decide_eq_true.
  destruct s as [|d r]; simpl; [split; [by intros []|done]|].
  case_bool_decide; split; [congruence|eauto|by intros []|congruence].
Qed.

(** ** Characters and words *)

(** The first character of a valid string, decoded and encoded again. *)
Lemma chars_uchar c s :
  uchar c = true -> exists ch, chars (c ++ s) = ch :: chars s /\ encode_char ch = c /\ 0 <= ch.
Proof.
  destruct c as [|b [|c1 [|c2 [|c3 [|]]]]]; simpl; intros H; try done.
  - andb_hyps. rewrite bool_decide_eq_true_2 by lia. exists b. split; [done|]. split; [|lia].
    unfold encode_char. by rewrite bool_decide_eq_true_2 by lia.
  - andb_hyps. rewrite bool_decide_eq_false_2, bool_decide_eq_true_2 by lia. eexists. split; [done|].
    unfold encode_char. rewrite bool_decide_eq_false_2, bool_decide_eq_true_2 by (Z.div_mod_to_equations; lia).
    split; [f_equal; [|f_equal]|]; Z.div_mod_to_equations; lia.
  - apply andb_prop in H as [[H1 H2]%andb_prop H3]. andb_hyps.
    assert (128 <= c1 <= 191 /\ (b = 224 -> 160 <= c1)).
    { revert H2. unfold second3, cont. repeat case_bool_decide; intros; andb_hyps; try done; lia. }
    rewrite bool_decide_eq_false_2, bool_decide_eq_false_2, bool_decide_eq_true_2 by lia. eexists. split; [done|].
    unfold encode_char. rewrite bool_decide_eq_false_2, bool_decide_eq_false_2, bool_decide_eq_true_2 by (Z.div_mod_to_equations; lia).
    split; [f_equal; [|f_equal; [|f_equal]]|]; Z.div_mod_to_equations; lia.
  - apply andb_prop in H as [[H1 H2]%andb_prop H3]. andb_hyps.
    assert (240 <= b <= 244 /\ 128 <= c1 <= 191 /\ (b = 240 -> 144 <= c1)).
    { revert H1. unfold second4, cont. repeat case_bool_decide; intros; andb_hyps; try done; lia. }
    rewrite !bool_decide_eq_false_2 by lia. eexists. split; [done|].
    unfold encode_char. rewrite !bool_decide_eq_false_2 by (Z.div_mod_to_equations; lia).
    split; [f_equal; [|f_equal; [|f_equal; [|f_equal]]]|]; Z.div_mod_to_equations; lia.
Qed.

Lemma encode_chars s : utf8_ok s = true -> concat (encode_char <$> chars s) = s.
Proof.
  intros (cs & Hcs & ->)%utf8_chars. induction Hcs as [|c cs Hc Hcs IH]; [done|]. cbn [concat].
  destruct (chars_uchar c (concat cs) Hc) as (ch & -> & He & _). cbn [fmap list_fmap concat]. by rewrite He, IH.
Qed.

(** The maximal runs of characters outside [sep], the empty ones dropped:
    [split_ascii_whitespace] when [sep] is the ASCII white space. *)
Fixpoint str_words (sep : Z -> bool) (s : str) : list str :=
  match s with
  | [] => []
  | c :: r =>
      if sep c then str_words sep r else
      let ws := str_words sep r in
      match head r, ws with
      | Some d, w :: ws' => if sep d then [c] :: ws else (c :: w) :: ws'
      | _, _ => [c] :: ws
      end
  end.
Definition ascii_white (c : Z) : bool :=
  bool_decide (c = 32) || bool_decide (c = 9) || bool_decide (c = 10) || bool_decide (c = 12) || bool_decide (c = 13).

(** A word without separators stands before a separator. *)
Lemma str_words_word sep w s c :
  w <> [] -> forallb (fun b => negb (sep b)) w = true -> sep c = true ->
  str_words sep (w ++ c :: s) = w :: str_words sep s.
Proof.
  intros Hne Hw Hc. induction w as [|b w IH]; [done|]. cbn [forallb app] in *. apply andb_prop in Hw as [Hb Hw].
  cbn [str_words]. apply negb_true_iff in Hb. rewrite Hb. destruct w as [|d w].
  - cbn [app str_words head]. rewrite !Hc. by destruct (str_words sep s).
  - cbn [app head]. cbn [app] in IH. rewrite (IH ltac:(done) Hw). cbn [forallb] in Hw. apply andb_prop in Hw as [Hd%negb_true_iff _]. by rewrite Hd.
Qed.
