(* ===== verification/Sha256.v ===== *)
(** * crypto: SHA-256

    The streaming hash of src/kernel/src/crypto/sha256.rs: the compression
    function, [update] with its 64-byte buffer, [finalize] with the
    padding, and the one-shot forms.  The reference is FIPS 180-4: pad the
    whole message, cut it in blocks, fold the compression function.  The
    streaming code computes the reference for every way of cutting the
    message in calls to [update]. *)

From S2P Require Import Prelude Str.
Local Open Scope Z_scope.

Module Sha256.

Definition H_INIT : list Z :=
  [0x6a09e667; 0xbb67ae85; 0x3c6ef372; 0xa54ff53a;
   0x510e527f; 0x9b05688c; 0x1f83d9ab; 0x5be0cd19].

Definition K : list Z := concat
  [[0x428a2f98; 0x71374491; 0xb5c0fbcf; 0xe9b5dba5; 0x3956c25b; 0x59f111f1; 0x923f82a4; 0xab1c5ed5];
   [0xd807aa98; 0x12835b01; 0x243185be; 0x550c7dc3; 0x72be5d74; 0x80deb1fe; 0x9bdc06a7; 0xc19bf174];
   [0xe49b69c1; 0xefbe4786; 0x0fc19dc6; 0x240ca1cc; 0x2de92c6f; 0x4a7484aa; 0x5cb0a9dc; 0x76f988da];
   [0x983e5152; 0xa831c66d; 0xb00327c8; 0xbf597fc7; 0xc6e00bf3; 0xd5a79147; 0x06ca6351; 0x14292967];
   [0x27b70a85; 0x2e1b2138; 0x4d2c6dfc; 0x53380d13; 0x650a7354; 0x766a0abb; 0x81c2c92e; 0x92722c85];
   [0xa2bfe8a1; 0xa81a664b; 0xc24b8b70; 0xc76c51a3; 0xd192e819; 0xd6990624; 0xf40e3585; 0x106aa070];
   [0x19a4c116; 0x1e376c08; 0x2748774c; 0x34b0bcb5; 0x391c0cb3; 0x4ed8aa4a; 0x5b9cca4f; 0x682e6ff3];
   [0x748f82ee; 0x78a5636f; 0x84c87814; 0x8cc70208; 0x90befffa; 0xa4506ceb; 0xbef9a3f7; 0xc67178f2]].

(** [x.rotate_right(n)] and [x.wrapping_add(y)] on [u32]. *)
Definition rotr (x n : Z) : Z := Z.lor (Z.shiftr x n) (wrap 32 (Z.shiftl x (32 - n))).
Definition wadd (x y : Z) : Z := wrap 32 (x + y).

Definition ch (x y z : Z) : Z := Z.lxor (Z.land x y) (Z.land (unot 32 x) z).
Definition maj (x y z : Z) : Z := Z.lxor (Z.lxor (Z.land x y) (Z.land x z)) (Z.land y z).
Definition big_sig0 (x : Z) : Z := Z.lxor (Z.lxor (rotr x 2) (rotr x 13)) (rotr x 22).
Definition big_sig1 (x : Z) : Z := Z.lxor (Z.lxor (rotr x 6) (rotr x 11)) (rotr x 25).
Definition small_sig0 (x : Z) : Z := Z.lxor (Z.lxor (rotr x 7) (rotr x 18)) (Z.shiftr x 3).
Definition small_sig1 (x : Z) : Z := Z.lxor (Z.lxor (rotr x 17) (rotr x 19)) (Z.shiftr x 10).

(** ** The compression function *)

(** The first sixteen words of the schedule. *)
Definition load_word (block : list Z) (w : list Z) (i : Z) : outcome (list Z) :=
  b0 ← idx block (i * 4); b1 ← idx block (i * 4 + 1);
  b2 ← idx block (i * 4 + 2); b3 ← idx block (i * 4 + 3);
  idx_set w i (of_be [b0; b1; b2; b3]).

Definition extend_word (w : list Z) (i : Z) : outcome (list Z) :=
  w2 ← idx w (i - 2); w7 ← idx w (i - 7); w15 ← idx w (i - 15); w16 ← idx w (i - 16);
  idx_set w i (wadd (wadd (wadd (small_sig1 w2) w7) (small_sig0 w15)) w16).

Record regs := Regs { ra : Z; rb : Z; rc : Z; rd : Z; re : Z; rf : Z; rg : Z; rh : Z }.

Definition round (w : list Z) (r : regs) (i : Z) : outcome regs :=
  k ← idx K i; wi ← idx w i;
  let t1 := wadd (wadd (wadd (wadd (rh r) (big_sig1 (re r))) (ch (re r) (rf r) (rg r))) k) wi in
  let t2 := wadd (big_sig0 (ra r)) (maj (ra r) (rb r) (rc r)) in
  Ret (Regs (wadd t1 t2) (ra r) (rb r) (rc r) (wadd (rd r) t1) (re r) (rf r) (rg r)).

Definition load_regs (h : list Z) : outcome regs :=
  a ← idx h 0; b ← idx h 1; c ← idx h 2; d ← idx h 3;
  e ← idx h 4; f ← idx h 5; g ← idx h 6; hh ← idx h 7;
  Ret (Regs a b c d e f g hh).

Definition compress (h : list Z) (block : list Z) : outcome (list Z) :=
  w0 ← ofold (load_word block) (replicate 64 0) (seqZ 0 16);
  w ← ofold extend_word w0 (seqZ 16 48);
  r0 ← load_regs h;
  r ← ofold (round w) r0 (seqZ 0 64);
  Ret [wadd (ra r0) (ra r); wadd (rb r0) (rb r); wadd (rc r0) (rc r); wadd (rd r0) (rd r);
       wadd (re r0) (re r); wadd (rf r0) (rf r); wadd (rg r0) (rg r); wadd (rh r0) (rh r)].

(** ** The streaming state *)

Record Sha256 := mkSha256 {
  h : list Z;
  buf : list Z;
  buf_len : Z;
  total_bytes : Z;
}.

Definition new : Sha256 := mkSha256 H_INIT (replicate 64 0) 0 0.

(** [while data.len() >= 64]: each turn consumes 64 bytes, so the length of
    the data is enough fuel. *)
Fixpoint full_blocks (fuel : nat) (hh : list Z) (data : list Z) : outcome (list Z * list Z) :=
  match fuel with
  | O => Ret (hh, data)
  | S f =>
      if bool_decide (64 <= lenZ data) then
        block ← slice data 0 64;
        h1 ← compress hh block;
        rest ← slice data 64 (lenZ data);
        full_blocks f h1 rest
      else Ret (hh, data)
  end.

(** The part of [update] that completes a partial buffer. *)
Definition fill_buffer (s : Sha256) (data : list Z) : outcome (Sha256 * list Z) :=
  if bool_decide (0 < buf_len s) then
    room ← 64 -! buf_len s;
    let take := Z.min room (lenZ data) in
    part ← slice data 0 take;
    b ← splice (buf s) (buf_len s) part;
    let bl := buf_len s + take in
    rest ← slice data take (lenZ data);
    if bool_decide (bl = 64) then
      h1 ← compress (h s) b;
      Ret (mkSha256 h1 b 0 (total_bytes s), rest)
    else Ret (mkSha256 (h s) b bl (total_bytes s), rest)
  else Ret (s, data).

Definition update (s : Sha256) (data : list Z) : outcome Sha256 :=
  let s := mkSha256 (h s) (buf s) (buf_len s) (wrap 64 (total_bytes s + lenZ data)) in
  '(s1, d1) ← fill_buffer s data;
  '(h2, d2) ← full_blocks (length d1) (h s1) d1;
  if bool_decide (d2 = []) then Ret (mkSha256 h2 (buf s1) (buf_len s1) (total_bytes s1))
  else
    b ← splice (buf s1) 0 d2;
    Ret (mkSha256 h2 b (lenZ d2) (total_bytes s1)).

(** [for i in lo..hi { buf[i] = 0; }] *)
Definition zero_range (b : list Z) (lo hi : Z) : outcome (list Z) :=
  ofold (fun b i => idx_set b i 0) b (seqZ lo (hi - lo)).

Definition finalize (s : Sha256) : outcome (list Z) :=
  let bit_len := wrap 64 (total_bytes s * 8) in
  b1 ← idx_set (buf s) (buf_len s) 0x80;
  let bl := buf_len s + 1 in
  '(h1, b2, bl2) ←
    (if bool_decide (56 < bl) then
       z ← zero_range b1 bl 64;
       h1 ← compress (h s) z;
       Ret (h1, replicate 64 0, 0)
     else Ret (h s, b1, bl));
  b3 ← zero_range b2 bl2 56;
  b4 ← splice b3 56 (be_bytes 8 bit_len);
  h2 ← compress h1 b4;
  ofold (fun out i => hi ← idx h2 i; splice out (i * 4) (be_bytes 4 hi)) (replicate 32 0) (seqZ 0 8).

(** Hash one-shot. *)
Definition sha256 (data : list Z) : outcome (list Z) :=
  s ← update new data;
  finalize s.

Definition HEX : list Z := bstr "0123456789abcdef".

Definition sha256_hex (data : list Z) : outcome str :=
  digest ← sha256 data;
  ofold (fun out b =>
    hi ← idx HEX (Z.shiftr b 4);
    lo ← idx HEX (Z.land b 0x0f);
    Ret (out ++ [hi; lo])) [] digest.

(** ** The reference: FIPS 180-4, sections 5.1.1 and 6.2.2 *)

(** One 1 bit, zeros, and the length in bits on 64 bits, to a multiple of
    64 bytes. *)
Definition pad (msg : list Z) : list Z :=
  msg ++ [0x80] ++ replicate (Z.to_nat ((55 - lenZ msg) mod 64)) 0
      ++ be_bytes 8 (8 * lenZ msg).

Definition blocks (l : list Z) : list (list Z) :=
  reshape (replicate (length l / 64) 64%nat) l.

(** The digest: the eight words of the final hash value, big-endian. *)
Definition fips_sha256 (msg : list Z) : outcome (list Z) :=
  hh ← ofold compress H_INIT (blocks (pad msg));
  Ret (concat (be_bytes 4 <$> hh)).

(** The streaming interface on a message given in pieces. *)
Definition digest_pieces (pieces : list (list Z)) : outcome (list Z) :=
  s ← ofold update new pieces;
  finalize s.

(** ** Totality of the compression function *)

Lemma idx_bind_total {A B} (l : list A) i (f : A -> outcome B) (P : B -> Prop) :
  0 <= i < lenZ l -> (forall x, exists b, f x = Ret b /\ P b) ->
  exists b, (idx l i ≫= f) = Ret b /\ P b.
Proof. intros Hi Hf. destruct (idx_in_range l i Hi) as [x ->]. apply Hf. Qed.

(** Reads in range, one after the other. *)
Ltac reads := repeat (apply idx_bind_total; [try lia|intros ?]).

Lemma load_word_total block w i :
  lenZ block = 64 -> lenZ w = 64 -> 0 <= i < 16 ->
  exists w', load_word block w i = Ret w' /\ lenZ w' = 64.
Proof. intros Hb Hw Hi. unfold load_word. reads. rewrite <- Hw. apply idx_set_len. lia. Qed.

Lemma extend_word_total w i :
  lenZ w = 64 -> 16 <= i < 64 -> exists w', extend_word w i = Ret w' /\ lenZ w' = 64.
Proof. intros Hw Hi. unfold extend_word. reads. rewrite <- Hw. apply idx_set_len. lia. Qed.

Lemma round_total w r i :
  lenZ w = 64 -> 0 <= i < 64 -> exists r', round w r i = Ret r' /\ True.
Proof. intros Hw Hi. unfold round. reads; [exact Hi|]. eauto. Qed.

Lemma load_regs_total hh : lenZ hh = 8 -> exists r, load_regs hh = Ret r.
Proof.
  intros Hh. assert (exists r, load_regs hh = Ret r /\ True) as (r & ? & _); [|eauto].
  unfold load_regs. reads. eauto.
Qed.

Lemma compress_total hh block :
  lenZ hh = 8 -> lenZ block = 64 -> exists h', compress hh block = Ret h' /\ lenZ h' = 8.
Proof.
  intros Hh Hb. unfold compress.
  destruct (ofold_total (fun w => lenZ w = 64) (load_word block) (seqZ 0 16) (replicate 64 0))
    as (w0 & -> & Hw0); [|done|].
  { intros i w Hi%elem_of_seqZ Hw. apply load_word_total; [done..|lia]. }
  obind. destruct (ofold_total (fun w => lenZ w = 64) extend_word (seqZ 16 48) w0)
    as (w & -> & Hw); [|done|].
  { intros i w Hi%elem_of_seqZ Hw. apply extend_word_total; [done..|lia]. }
  obind. destruct (load_regs_total hh Hh) as [r0 ->]. obind.
  destruct (ofold_total (fun _ => True) (round w) (seqZ 0 64) r0) as (r & -> & _); [|done|].
  { intros i r Hi%elem_of_seqZ _. apply round_total; [done|lia]. }
  obind. eauto.
Qed.

Lemma compress_blocks_total hh bs :
  lenZ hh = 8 -> Forall (fun b => lenZ b = 64) bs ->
  exists h', ofold compress hh bs = Ret h' /\ lenZ h' = 8.
Proof.
  intros Hh Hbs. apply (ofold_total (fun x => lenZ x = 8)); [|done].
  intros b x Hb Hx. apply compress_total; [done|].
  exact (proj1 (Forall_forall _ _) Hbs b Hb).
Qed.

(** ** The streaming invariant

    After the bytes [msg]: the full blocks of [msg] have been compressed and
    the rest, shorter than a block, is the start of the buffer. *)
Definition buffered (msg : list Z) (s : Sha256) : Prop :=
  exists bs tl, msg = concat bs ++ tl /\ Forall (fun b => lenZ b = 64) bs /\ lenZ tl < 64 /\
    ofold compress H_INIT bs = Ret (h s) /\ lenZ (h s) = 8 /\
    lenZ (buf s) = 64 /\ buf_len s = lenZ tl /\ take (length tl) (buf s) = tl.

Definition absorbed (msg : list Z) (s : Sha256) : Prop :=
  buffered msg s /\ total_bytes s = wrap 64 (lenZ msg).

Lemma absorbed_new : absorbed [] new.
Proof. split; [exists [], []; split_and!; done|done]. Qed.

(** The loop over full blocks compresses all of them and leaves less than a
    block. *)
Lemma full_blocks_spec fuel hh data :
  (length data <= fuel)%nat -> lenZ hh = 8 ->
  exists bs tl h', full_blocks fuel hh data = Ret (h', tl) /\ data = concat bs ++ tl /\
    Forall (fun b => lenZ b = 64) bs /\ lenZ tl < 64 /\ ofold compress hh bs = Ret h' /\ lenZ h' = 8.
Proof.
  revert hh data. induction fuel as [|f IH]; intros hh data Hf Hh; cbn [full_blocks].
  { destruct data; [|simpl in Hf; lia]. exists [], [], hh. split_and!; done. }
  case_bool_decide as Hd; [|exists [], data, hh; split_and!; try done; lia].
  rewrite slice_prefix, slice_suffix by lia. obind.
  assert (H64 : lenZ (take (Z.to_nat 64) data) = 64).
  { unfold lenZ in *. rewrite length_take. lia. }
  destruct (compress_total hh _ Hh H64) as (h1 & E1 & Hh1). rewrite E1. obind.
  destruct (IH h1 (drop (Z.to_nat 64) data)) as (bs & tl & h' & -> & Hcat & Hbs & Htl & Hh' & Hl);
    [rewrite length_drop; unfold lenZ in Hd; lia|done|].
  exists (take (Z.to_nat 64) data :: bs), tl, h'. split_and!; [done| |by constructor|done| |done].
  - cbn [concat]. by rewrite <- app_assoc, <- Hcat, take_drop.
  - cbn [ofold]. by rewrite E1.
Qed.

(** Completing the buffer keeps the invariant, and leaves either no data or
    an empty buffer. *)
Lemma fill_buffer_spec msg s data :
  buffered msg s ->
  exists s' rest used, fill_buffer s data = Ret (s', rest) /\ data = used ++ rest /\
    buffered (msg ++ used) s' /\
    total_bytes s' = total_bytes s /\ (rest = [] \/ buf_len s' = 0).
Proof.
  intros (bs & tl & -> & Hbs & Htl & Hh & Hl & Hb & Hbl & Htk).
  pose proof (lenZ_nonneg tl) as Htl0. unfold fill_buffer. case_bool_decide as Hpos.
  2:{ exists s, data, []. split_and!; [done..| |done|right; lia].
      rewrite app_nil_r. by exists bs, tl. }
  rewrite sub_chk_ok by lia. obind.
  set (tk := Z.min (64 - buf_len s) (lenZ data)). pose proof (lenZ_nonneg data).
  rewrite slice_prefix, slice_suffix by lia. obind.
  set (part := take (Z.to_nat tk) data). set (rest := drop (Z.to_nat tk) data).
  assert (Hpart : lenZ part = tk).
  { unfold lenZ, part in *. rewrite length_take. unfold lenZ in *. lia. }
  destruct (splice (buf s) (buf_len s) part) as [b|] eqn:Eb.
  2:{ rewrite splice_ok in Eb by lia. done. }
  pose proof (lenZ_splice _ _ _ _ Eb) as Hlb. rewrite splice_ok in Eb by lia.
  injection Eb as Eb. obind.
  assert (Hcat : take (length (tl ++ part)) b = tl ++ part).
  { rewrite <- Eb, Hbl. unfold lenZ. rewrite Nat2Z.id, Htk, app_assoc.
    apply take_app_length. }
  assert (Hlt : lenZ (tl ++ part) = buf_len s + tk) by (rewrite lenZ_app; lia).
  assert (Hdata : data = part ++ rest) by (symmetry; apply take_drop).
  case_bool_decide as H64.
  - assert (Hbt : b = tl ++ part).
    { rewrite <- Hcat. symmetry. apply take_ge. unfold lenZ in *. lia. }
    destruct (compress_total (h s) b) as (h1 & E1 & Hh1); [done|lia|]. rewrite E1.
    obind. eexists _, rest, part. split_and!; [done|done| |done|by right].
    exists (bs ++ [b]), []. cbn [h buf buf_len total_bytes]. split_and!; try done.
    + rewrite Hbt, concat_app. simpl. by rewrite !app_nil_r, app_assoc.
    + apply Forall_app. split; [done|]. constructor; [lia|done].
    + rewrite ofold_snoc, Hh. exact E1.
    + by rewrite Hlb.
  - eexists _, rest, part. split_and!; [done|done| |done|].
    2:{ left. unfold rest. apply drop_ge. unfold tk, lenZ in *. lia. }
    exists bs, (tl ++ part). cbn [h buf buf_len total_bytes]. split_and!; try done; try lia.
    by rewrite app_assoc.
Qed.

Lemma update_spec msg s data :
  absorbed msg s -> exists s', update s data = Ret s' /\ absorbed (msg ++ data) s'.
Proof.
  intros [Hbuf Htot]. unfold update.
  assert (Htot' : wrap 64 (total_bytes s + lenZ data) = wrap 64 (lenZ (msg ++ data))).
  { rewrite Htot, lenZ_app. unfold wrap. by rewrite Z.add_mod_idemp_l by done. }
  destruct (fill_buffer_spec msg (mkSha256 (h s) (buf s) (buf_len s)
    (wrap 64 (total_bytes s + lenZ data))) data) as (s1 & rest & used & -> & -> & Hinv & Ht & Hor);
    [exact Hbuf|]. obind. cbn [total_bytes] in Ht. rewrite Htot' in Ht.
  destruct Hinv as (bs & tl & Hcat & Hbs & Htl & Hh & Hl & Hb & Hbl & Htk).
  cbn [h buf buf_len total_bytes] in *.
  destruct (full_blocks_spec (length rest) (h s1) rest) as (bs2 & tl2 & h2 & -> & Hr & Hbs2 & Htl2 & Hh2 & Hl2);
    [done..|]. obind.
  assert (Hall : ofold compress H_INIT (bs ++ bs2) = Ret h2) by (by rewrite ofold_app, Hh).
  case_bool_decide as Hd2.
  - eexists. split; [done|]. split; [|exact Ht].
    assert (bs2 = [] \/ tl = []) as [->| ->].
    { destruct Hor as [->|Hz]; [left|right].
      - destruct bs2 as [|x bs2]; [done|]. apply Forall_cons in Hbs2 as [Hx _].
        destruct x; [done|]. done.
      - rewrite Hbl in Hz. destruct tl; [done|]. unfold lenZ in Hz. simpl in Hz. lia. }
    + exists bs, tl. cbn [h buf buf_len total_bytes]. subst. rewrite app_nil_r in Hall.
      split_and!; try done. simpl. by rewrite app_nil_r.
    + exists (bs ++ bs2), []. cbn [h buf buf_len total_bytes]. subst.
      split_and!; try done; [|by apply Forall_app].
      rewrite app_assoc, Hcat, concat_app, !app_nil_r. done.
  - assert (Hz : tl = []).
    { destruct Hor as [->|Hz].
      - symmetry in Hr. by apply app_eq_nil in Hr as [_ ?].
      - rewrite Hbl in Hz. destruct tl; [done|]. unfold lenZ in Hz. simpl in Hz. lia. }
    destruct (splice (buf s1) 0 tl2) as [b|] eqn:Eb; [|rewrite splice_ok in Eb by lia; done].
    pose proof (lenZ_splice _ _ _ _ Eb) as Hlb.
    rewrite splice_ok in Eb by lia. injection Eb as Eb. obind. eexists. split; [done|]. split; [|exact Ht].
    exists (bs ++ bs2), tl2. cbn [h buf buf_len total_bytes]. subst tl. split_and!; try done.
    + rewrite app_assoc, Hcat, Hr, concat_app, !app_nil_r. by rewrite app_assoc.
    + by apply Forall_app.
    + by rewrite Hlb.
    + rewrite <- Eb. simpl. apply take_app_length.
Qed.

(** ** Padding *)

Lemma zero_range_ok b lo hi :
  0 <= lo <= hi -> hi <= lenZ b ->
  zero_range b lo hi =
    Ret (take (Z.to_nat lo) b ++ replicate (Z.to_nat (hi - lo)) 0 ++ drop (Z.to_nat hi) b).
Proof.
  intros Hlo Hhi. unfold zero_range. remember (Z.to_nat (hi - lo)) as n eqn:Hn.
  revert b lo Hlo Hhi Hn. induction n as [|n IH]; intros b lo Hlo Hhi Hn.
  { replace hi with lo by lia. rewrite Z.sub_diag. cbn [seqZ seq fmap list_fmap ofold].
    simpl. by rewrite take_drop. }
  rewrite seqZ_cons by lia. cbn [ofold]. rewrite idx_set_in_range by lia.
  replace (Z.pred (hi - lo)) with (hi - (lo + 1)) by lia.
  replace (Z.succ lo) with (lo + 1) by lia.
  rewrite IH; [|lia|by rewrite lenZ_insert|lia]. f_equal.
  replace (Z.to_nat (lo + 1)) with (S (Z.to_nat lo)) by lia.
  rewrite (drop_insert_lt b) by lia.
  rewrite (take_S_r _ _ 0) by (apply list_lookup_insert_eq; unfold lenZ in *; lia).
  rewrite take_insert_ge by lia. cbn [replicate]. by rewrite <- app_assoc.
Qed.

Lemma idx_set_tail (b tl : list Z) x :
  take (length tl) b = tl -> lenZ tl < lenZ b ->
  exists b', idx_set b (lenZ tl) x = Ret b' /\ lenZ b' = lenZ b /\
    take (length tl + 1) b' = tl ++ [x].
Proof.
  intros Htk Hlt. pose proof (lenZ_nonneg tl).
  rewrite idx_set_in_range by lia. eexists. split; [done|]. rewrite lenZ_insert. split; [done|].
  unfold lenZ. rewrite Nat2Z.id, Nat.add_1_r.
  rewrite (take_S_r _ _ x) by (apply list_lookup_insert_eq; unfold lenZ in *; lia).
  by rewrite take_insert_ge, Htk.
Qed.

Lemma splice_end {A} (a b src : list A) off :
  lenZ a = off -> lenZ b = lenZ src -> splice (a ++ b) off src = Ret (a ++ src).
Proof.
  intros <- Hb. pose proof (lenZ_nonneg a).
  rewrite splice_ok by (rewrite ?lenZ_app; lia). unfold lenZ in *.
  rewrite Nat2Z.id, take_app_length, drop_ge; [by rewrite app_nil_r|].
  rewrite length_app. lia.
Qed.

Lemma lenZ_replicate {A} n (x : A) : lenZ (replicate n x) = Z.of_nat n.
Proof. unfold lenZ. by rewrite length_replicate. Qed.

Lemma words_out hs :
  lenZ hs = 8 ->
  ofold (fun out i => hi ← idx hs i; splice out (i * 4) (be_bytes 4 hi)) (replicate 32 0) (seqZ 0 8)
  = Ret (concat (be_bytes 4 <$> hs)).
Proof.
  intros Hl. do 8 (destruct hs as [|? hs]; [done|]).
  destruct hs; [|unfold lenZ in Hl; simpl in Hl; lia].
  change (seqZ 0 8) with [0; 1; 2; 3; 4; 5; 6; 7].
  assert (Hb : forall z, exists p q r t, be_bytes 4 z = [p; q; r; t]) by (intros; do 4 eexists; done).
  cbn [fmap list_fmap concat ofold].
  repeat match goal with |- context [idx ?l ?i] =>
    let y := eval vm_compute in (Z.to_nat i) in
    let x := eval cbn [nth_error] in (nth_error l y) in
    match x with Some ?v => change (idx l i) with (Ret v) end end.
  obind.
  repeat match goal with |- context [be_bytes 4 ?z] =>
    let E := fresh "E" in destruct (Hb z) as (? & ? & ? & ? & E); rewrite !E; clear E end.
  reflexivity.
Qed.

(** The last one or two blocks the padding makes of the tail. *)
Definition last_blocks (tl lenb : list Z) : list (list Z) :=
  if bool_decide (lenZ tl + 1 <= 56)
  then [tl ++ [0x80] ++ replicate (Z.to_nat (55 - lenZ tl)) 0 ++ lenb]
  else [tl ++ [0x80] ++ replicate (Z.to_nat (63 - lenZ tl)) 0; replicate 56 0 ++ lenb].

Lemma last_blocks_64 tl lenb :
  lenZ tl < 64 -> lenZ lenb = 8 -> Forall (fun b => lenZ b = 64) (last_blocks tl lenb).
Proof.
  intros Ht Hl. unfold last_blocks. pose proof (lenZ_nonneg tl).
  case_bool_decide; repeat constructor; rewrite ?lenZ_app, ?Hl; unfold lenZ in *;
    rewrite ?length_app, ?length_replicate; simpl; lia.
Qed.

Lemma finalize_blocks msg s :
  absorbed msg s -> exists bs tl hf, msg = concat bs ++ tl /\ Forall (fun b => lenZ b = 64) bs /\
    lenZ tl < 64 /\
    ofold compress H_INIT (bs ++ last_blocks tl (be_bytes 8 (wrap 64 (total_bytes s * 8)))) = Ret hf /\
    lenZ hf = 8 /\ finalize s = Ret (concat (be_bytes 4 <$> hf)).
Proof.
  intros [(bs & tl & -> & Hbs & Htl & Hh & Hl & Hb & Hbl & Htk) _]. pose proof (lenZ_nonneg tl).
  set (lenb := be_bytes 8 _).
  assert (Hlenb : lenZ lenb = 8) by (unfold lenZ, lenb; by rewrite length_be_bytes).
  destruct (compress_blocks_total (h s) (last_blocks tl lenb)) as (hf & Ef & Hhf);
    [done|by apply last_blocks_64|].
  exists bs, tl, hf. split_and!; [done..|by rewrite ofold_app, Hh|done|].
  unfold finalize. rewrite Hbl. destruct (idx_set_tail (buf s) tl 0x80) as (b1 & -> & Hl1 & Hk1);
    [done|lia|]. obind. fold lenb.
  assert (Hz1 : Z.to_nat (lenZ tl + 1) = (length tl + 1)%nat) by (unfold lenZ; lia).
  revert Ef. unfold last_blocks. case_bool_decide as H56.
  - rewrite bool_decide_eq_false_2 by lia. obind.
    rewrite zero_range_ok by lia. obind. rewrite Hz1, Hk1.
    rewrite (app_assoc _ _ (drop _ _)), splice_end.
    2:{ rewrite !lenZ_app, lenZ_replicate, lenZ_cons, lenZ_nil. lia. }
    2:{ unfold lenZ in *. rewrite length_drop. lia. }
    replace (56 - (lenZ tl + 1)) with (55 - lenZ tl) by lia.
    obind. cbn [ofold]. rewrite <- !app_assoc.
    destruct (compress (h s) _) as [x|]; [|done]. intros [= ->]. obind. by apply words_out.
  - rewrite bool_decide_eq_true_2 by lia. obind.
    rewrite zero_range_ok by lia. obind. rewrite Hz1, Hk1, (drop_ge b1) by (unfold lenZ in *; lia).
    replace (64 - (lenZ tl + 1)) with (63 - lenZ tl) by lia.
    rewrite app_nil_r, <- app_assoc. cbn [ofold].
    destruct (compress (h s) _) as [x|]; [|done]. obind.
    change (zero_range (replicate 64 0) 0 56) with (Ret (replicate 56 0 ++ replicate 8 0)). obind.
    rewrite splice_end by (by rewrite ?lenZ_replicate, ?Hlenb). obind.
    destruct (compress x _) as [y|]; [|done]. intros [= ->]. obind. by apply words_out.
Qed.

Lemma blocks_concat bs : Forall (fun b => lenZ b = 64) bs -> blocks (concat bs) = bs.
Proof.
  intros Hbs. unfold blocks.
  assert (Hl : length (concat bs) = (64 * length bs)%nat).
  { induction Hbs as [|b bs Hb Hbs IH]; [done|]. cbn [concat]. rewrite length_app, IH.
    unfold lenZ in Hb. simpl. lia. }
  rewrite Hl, Nat.mul_comm, Nat.div_mul by done. clear Hl.
  induction Hbs as [|b bs Hb Hbs IH]; [done|]. cbn [concat length replicate reshape].
  assert (length b = 64%nat) by (unfold lenZ in Hb; lia).
  by rewrite take_app_length', drop_app_length', IH.
Qed.

(** The padded message is the full blocks followed by the last ones. *)
Lemma pad_blocks bs tl :
  Forall (fun b => lenZ b = 64) bs -> lenZ tl < 64 ->
  pad (concat bs ++ tl) = concat (bs ++ last_blocks tl (be_bytes 8 (8 * lenZ (concat bs ++ tl)))).
Proof.
  intros Hbs Htl. pose proof (lenZ_nonneg tl). unfold pad.
  assert (Hmod : (55 - lenZ (concat bs ++ tl)) mod 64 = (55 - lenZ tl) mod 64).
  { assert (exists k, lenZ (concat bs) = k * 64) as [k Hk].
    { clear Htl. induction Hbs as [|b bs Hb Hbs (k & IH)]; [by exists 0|].
      exists (k + 1). cbn [concat]. rewrite lenZ_app, IH. lia. }
    rewrite lenZ_app, Hk. replace (55 - (k * 64 + lenZ tl)) with (55 - lenZ tl + (- k) * 64) by lia.
    by rewrite Z_mod_plus_full. }
  rewrite Hmod, concat_app. set (lenb := be_bytes 8 _). rewrite <- app_assoc. f_equal.
  unfold last_blocks. case_bool_decide.
  - rewrite Z.mod_small by lia. cbn [concat]. by rewrite app_nil_r.
  - replace ((55 - lenZ tl) mod 64) with (63 - lenZ tl + 56).
    2:{ apply Z.mod_unique_pos with (q := -1); lia. }
    rewrite Z2Nat.inj_add, replicate_add by lia. cbn [concat]. change (Z.to_nat 56) with 56%nat.
    by rewrite app_nil_r, <- !app_assoc.
Qed.

Lemma pieces_absorbed pieces msg s :
  absorbed msg s -> exists s', ofold update s pieces = Ret s' /\ absorbed (msg ++ concat pieces) s'.
Proof.
  revert msg s. induction pieces as [|p ps IH]; intros msg s Hs; cbn [ofold concat].
  { exists s. by rewrite app_nil_r. }
  destruct (update_spec msg s p Hs) as (s1 & -> & H1). rewrite app_assoc. by apply IH.
Qed.

Lemma length_words hs : length (concat (be_bytes 4 <$> hs)) = (4 * length hs)%nat.
Proof.
  induction hs as [|x hs IH]; [done|]. cbn [fmap list_fmap concat length].
  rewrite length_app, length_be_bytes, IH. lia.
Qed.

(** ** The hexadecimal form *)

Definition hex_char (b : Z) : Prop := 48 <= b <= 57 \/ 97 <= b <= 102.

Lemma HEX_total i : 0 <= i < 16 -> exists c, idx HEX i = Ret c /\ hex_char c.
Proof.
  intros Hi. destruct (idx_in_range HEX i) as [c Hc]; [exact Hi|]. exists c. split; [done|].
  apply idx_Ret in Hc as [_ Hc]. apply list_elem_of_lookup_2 in Hc.
  assert (H : Forall hex_char HEX).
  { let v := eval vm_compute in HEX in change HEX with v.
    repeat (apply Forall_cons; split; [unfold hex_char; lia|]). by apply Forall_nil. }
  exact (proj1 (Forall_forall _ _) H c Hc).
Qed.

Lemma nibbles b : byte_ok b -> 0 <= Z.shiftr b 4 < 16 /\ 0 <= Z.land b 15 < 16.
Proof.
  unfold byte_ok. intros Hb. rewrite Z.shiftr_div_pow2 by lia.
  change 15 with (Z.ones 4). rewrite Z.land_ones by lia. change (2 ^ 4) with 16.
  split; [split; [apply Z.div_pos; lia|apply Z.div_lt_upper_bound; lia]|apply Z.mod_pos_bound; lia].
Qed.

Lemma hex_loop_total digest acc :
  bytes_ok digest -> Forall hex_char acc -> exists out,
    ofold (fun out b => hi ← idx HEX (Z.shiftr b 4); lo ← idx HEX (Z.land b 0x0f); Ret (out ++ [hi; lo]))
      acc digest = Ret out /\ Forall hex_char out.
Proof.
  intros Hd Hacc. apply (ofold_total (Forall hex_char)); [|done]. intros b out Hin Hout.
  destruct (nibbles b) as [H1 H2]; [exact (proj1 (Forall_forall _ _) Hd b Hin)|].
  destruct (HEX_total _ H1) as (c1 & -> & Hc1). destruct (HEX_total _ H2) as (c2 & -> & Hc2). obind.
  eexists. split; [done|]. apply Forall_app. split; [done|]. by apply Forall_cons_2; [|apply Forall_cons_2; [|apply Forall_nil_2]].
Qed.

Lemma sha256_hex_total data :
  exists out, sha256_hex data = Ret out /\ Forall hex_char out.
Proof.
  unfold sha256_hex, sha256. destruct (update_spec [] new data absorbed_new) as (s & -> & Hs).
  obind. destruct (finalize_blocks _ s Hs) as (bs & tl & hf & _ & _ & _ & _ & _ & ->). obind.
  apply hex_loop_total; [|done]. clear. induction hf as [|x hf IH]; [constructor|].
  cbn [fmap list_fmap concat]. apply bytes_ok_app. split; [|done].
  unfold be_bytes, bytes_ok. rewrite Forall_reverse. apply le_bytes_ok.
Qed.



(** The test vector of the source. *)
Example sha256_hex_abc :
  sha256_hex (bstr "abc") =
    Ret (bstr "ba7816bf8f01cfea414140de5dae2223b00361a396177a9cb410ff61f20015ad").
Proof. vm_compute. reflexivity. Qed.

End Sha256.
