(* ===== verification/Phys.v ===== *)
(** * Physical memory

    The kernel accesses RAM through the identity map (PHYS_OFFSET = 0 in
    kernel/src/memory/paging.rs), so a physical memory is a map from byte
    addresses to bytes.  These are the primitives of [core::ptr] that the
    memory modules use. *)
From S2P Require Import Prelude.
Local Open Scope Z_scope.

Abbreviation phys := (Z -> Z).

(** [core::ptr::write_bytes(a, v, n)] *)
Definition write_bytes (m : phys) (a v n : Z) : phys :=
  fun x => if bool_decide (a <= x < a + n) then v else m x.

(** [core::ptr::copy_nonoverlapping(src, dst, n)] between two addresses. *)
Definition copy_mem (m : phys) (src dst n : Z) : phys :=
  fun x => if bool_decide (dst <= x < dst + n) then m (src + (x - dst)) else m x.

(** [core::ptr::copy_nonoverlapping(data.as_ptr(), dst, data.len())] *)
Definition store_bytes (m : phys) (dst : Z) (data : list Z) : phys :=
  fun x => if bool_decide (dst <= x < dst + lenZ data)
           then data !!! Z.to_nat (x - dst) else m x.

(** The [n] bytes at [a]. *)
Definition load_bytes (m : phys) (a : Z) (n : nat) : list Z :=
  (fun i => m (a + Z.of_nat i)) <$> seq 0 n.

Definition load_u64 (m : phys) (a : Z) : Z := of_le (load_bytes m a 8).
Definition store_u64 (m : phys) (a v : Z) : phys := store_bytes m a (le_bytes 8 v).

Lemma load_store_bytes m a data :
  load_bytes (store_bytes m a data) a (length data) = data.
Proof.
  apply list_eq. intros i. unfold load_bytes. rewrite list_lookup_fmap.
  destruct (decide (i < length data)%nat) as [Hi|Hi].
  - rewrite lookup_seq_lt by done. simpl. unfold store_bytes.
    rewrite bool_decide_eq_true_2 by (unfold lenZ; lia).
    replace (Z.to_nat _) with i by lia.
    by rewrite list_lookup_lookup_total_lt.
  - rewrite lookup_seq_ge by lia. simpl. symmetry. apply lookup_ge_None. lia.
Qed.

Lemma load_store_u64 m a v : fits 64 v -> load_u64 (store_u64 m a v) a = v.
Proof.
  intros Hv. unfold load_u64, store_u64.
  pose proof (load_store_bytes m a (le_bytes 8 v)) as H.
  rewrite length_le_bytes in H. rewrite H. by apply of_le_bytes_id.
Qed.

(** A store leaves a disjoint load alone. *)
Lemma load_bytes_ext m m' a n :
  (forall x, a <= x < a + Z.of_nat n -> m x = m' x) ->
  load_bytes m a n = load_bytes m' a n.
Proof.
  intros Hm. unfold load_bytes. apply list_fmap_ext. intros i x Hx.
  apply lookup_seq in Hx as [-> Hi]. apply Hm. lia.
Qed.

Lemma load_store_u64_ne m a b v :
  a + 8 <= b \/ b + 8 <= a -> load_u64 (store_u64 m a v) b = load_u64 m b.
Proof.
  intros Hab. unfold load_u64. f_equal. apply load_bytes_ext. intros x Hx.
  unfold store_u64, store_bytes. rewrite bool_decide_eq_false_2; [done|].
  rewrite lenZ_le_bytes. lia.
Qed.

Lemma write_bytes_in m a v n x : a <= x < a + n -> write_bytes m a v n x = v.
Proof. intros. unfold write_bytes. by rewrite bool_decide_eq_true_2. Qed.
Lemma write_bytes_out m a v n x :
  ~ (a <= x < a + n) -> write_bytes m a v n x = m x.
Proof. intros. unfold write_bytes. by rewrite bool_decide_eq_false_2. Qed.
