(* ===== verification/FrameAllocator.v ===== *)
(** * The bitmap frame allocator

    kernel/src/memory/frame_allocator.rs: one bit per 4 KiB frame, 1 = used.
    [BitmapFrameAllocator] is the struct, [new], [mark_range_used],
    [find_free], [allocate_frame] and [deallocate_frame] its operations, in
    the order of the source.  The abstract view is [is_free]: which frames
    are free.  The theorems show that the allocator refines "take the least
    free frame", and that every frame it hands out is outside the reserved
    ranges and not already owned. *)
From S2P Require Import Prelude Phys.
Local Open Scope Z_scope.

Definition FRAME_SIZE : Z := 4096.
Definition BITMAP_ADDR : Z := 0x00F00000.
Definition BITMAP_SIZE : Z := 64 * 1024.
Definition BITMAP_BITS : Z := BITMAP_SIZE * 8.

(** kernel/src/memory/heap.rs *)
Definition HEAP_START : Z := 0x01000000.
Definition HEAP_SIZE : Z := 32 * 1024 * 1024.

(** The memory areas and modules [BootInfo] yields (boot_info.rs). *)
Record MemoryArea := mkArea { base_addr : Z; length_ : Z; typ : Z }.
Definition is_usable (ar : MemoryArea) : bool := typ ar =? 1.
Definition end_addr (ar : MemoryArea) : outcome Z := base_addr ar +! length_ ar @ 64.

Record BootInfo := mkBootInfo {
  memory_areas : option (list MemoryArea);
  modules : list (Z * Z)  (* start address and length of each module *)
}.

Record BitmapFrameAllocator := mkFA {
  bitmap : list Z;
  num_frames : Z;
  next_free : Z;
  used : Z
}.

(** ** Bitmap helpers *)

Definition bit_get (bm : list Z) (i : Z) : outcome bool :=
  b ← idx bm (i / 8);
  Ret (negb (Z.land b (Z.shiftl 1 (i mod 8)) =? 0)).

Definition bit_set (bm : list Z) (i : Z) : outcome (list Z) :=
  b ← idx bm (i / 8);
  idx_set bm (i / 8) (Z.lor b (Z.shiftl 1 (i mod 8))).

Definition bit_clear (bm : list Z) (i : Z) : outcome (list Z) :=
  b ← idx bm (i / 8);
  idx_set bm (i / 8) (Z.land b (unot 8 (Z.shiftl 1 (i mod 8)))).

Definition align_up (addr align : Z) : outcome Z :=
  s ← addr +! align @ 64;
  s' ← s -! 1;
  Ret (Z.land s' (unot 64 (align - 1))).

Definition boot_info_range (bi : BootInfo) : Z * Z := (0, 0).

(** ** Operations *)

(** The frames of one area, freed: the body of the loop over the areas. *)
Definition free_area (st : list Z * Z) (area : MemoryArea) : outcome (list Z * Z) :=
  if negb (is_usable area) then Ret st else
  start ← align_up (base_addr area) FRAME_SIZE;
  ea ← end_addr area;
  let end_ := Z.land ea (unot 64 (FRAME_SIZE - 1)) in
  let first := start / FRAME_SIZE in
  let last := Z.min (end_ / FRAME_SIZE) BITMAP_BITS in
  if bool_decide (BITMAP_BITS <= first) then Ret st else
  ofold (fun '(bm, n) f => bm' ← bit_clear bm f; Ret (bm', Z.max n (f + 1)))
        st (seqZ first (last - first)).

Definition mark_range_used (a : BitmapFrameAllocator) (rng : Z * Z)
  : outcome BitmapFrameAllocator :=
  let first := rng.1 / FRAME_SIZE in
  e ← align_up rng.2 FRAME_SIZE;
  let last := e / FRAME_SIZE in
  ofold (fun (a : BitmapFrameAllocator) (f : Z) =>
           b ← bit_get (bitmap a) f;
           if b : bool then Ret a else
           bm ← bit_set (bitmap a) f;
           u ← used a +! 1 @ 64;
           Ret (mkFA bm (num_frames a) (next_free a) u))
        a (seqZ first (Z.min last BITMAP_BITS - first)).

Definition new (bi : BootInfo) : outcome BitmapFrameAllocator :=
  let bm := replicate (Z.to_nat BITMAP_SIZE) 255 in
  '(bm, n) ← match memory_areas bi with
             | Some areas => ofold free_area (bm, 0) areas
             | None => Ret (bm, 0)
             end;
  let a := mkFA bm n 0 0 in
  a ← mark_range_used a (0, BITMAP_ADDR);
  a ← mark_range_used a (BITMAP_ADDR, BITMAP_ADDR + BITMAP_SIZE);
  a ← mark_range_used a (HEAP_START, HEAP_START + HEAP_SIZE);
  a ← mark_range_used a (boot_info_range bi);
  ofold (fun (a : BitmapFrameAllocator) '((start, len) : Z * Z) => e ← start +! len @ 64; mark_range_used a (start, e))
        a (modules bi).

(** The first clear bit of the candidates [l]. *)
Fixpoint scan_free (bm : list Z) (l : list Z) : outcome (option Z) :=
  match l with
  | [] => Ret None
  | f :: l' => b ← bit_get bm f; if b : bool then scan_free bm l' else Ret (Some f)
  end.

Definition find_free (a : BitmapFrameAllocator)
  : outcome (option Z * BitmapFrameAllocator) :=
  r ← scan_free (bitmap a) (seqZ (next_free a) (num_frames a - next_free a));
  match r with
  | Some f => Ret (Some f, mkFA (bitmap a) (num_frames a) (f + 1) (used a))
  | None => Ret (None, a)
  end.

Definition stats (a : BitmapFrameAllocator) : Z * Z := (used a, num_frames a).

(** Returns the physical address of the frame, zeroed. *)
Definition allocate_frame (a : BitmapFrameAllocator) (m : phys)
  : outcome (option Z * (BitmapFrameAllocator * phys)) :=
  '(r, a) ← find_free a;
  match r with
  | None => Ret (None, (a, m))
  | Some f =>
      bm ← bit_set (bitmap a) f;
      u ← used a +! 1 @ 64;
      p ← f *! FRAME_SIZE @ 64;
      Ret (Some p, (mkFA bm (num_frames a) (next_free a) u,
                    write_bytes m p 0 FRAME_SIZE))
  end.

Definition deallocate_frame (a : BitmapFrameAllocator) (frame : Z)
  : outcome BitmapFrameAllocator :=
  let f := frame / FRAME_SIZE in
  b ← bit_get (bitmap a) f;
  if b : bool then
    bm ← bit_clear (bitmap a) f;
    u ← used a -! 1;
    Ret (mkFA bm (num_frames a) (if bool_decide (f < next_free a) then f else next_free a) u)
  else Ret a.

(** ** The abstract view *)

(** Bit [i] of the bitmap; frame [i] is free when it is clear. *)
Definition bit (bm : list Z) (i : Z) : bool :=
  Z.testbit (bm !!! Z.to_nat (i / 8)) (i mod 8).

Definition is_free (a : BitmapFrameAllocator) (f : Z) : Prop :=
  0 <= f < BITMAP_BITS /\ bit (bitmap a) f = false.

Definition free_count (bm : list Z) : Z :=
  count_if (fun i => negb (bit bm i)) (seqZ 0 BITMAP_BITS).

Definition bm_ok (bm : list Z) : Prop := lenZ bm = BITMAP_SIZE /\ bytes_ok bm.

(** The invariant: the hint never skips a free frame, and the frames counted
    as used and the free ones add up to the constant [total]. *)
Record wf (total : Z) (a : BitmapFrameAllocator) : Prop := mkWf {
  wf_bm : bm_ok (bitmap a);
  wf_num : 0 <= num_frames a <= BITMAP_BITS;
  wf_next : 0 <= next_free a <= BITMAP_BITS;
  wf_hint : forall f, is_free a f -> next_free a <= f;
  wf_used : 0 <= used a;
  wf_total : used a + free_count (bitmap a) = total
}.

Definition least_free (a : BitmapFrameAllocator) (f : Z) : Prop :=
  is_free a f /\ f < num_frames a /\ forall g, is_free a g -> f <= g.

(** ** Bit lemmas *)

Lemma land_pow2_testbit b k : 0 <= k ->
  negb (Z.land b (Z.shiftl 1 k) =? 0) = Z.testbit b k.
Proof.
  intros Hk. rewrite Z.shiftl_1_l.
  destruct (Z.testbit b k) eqn:E.
  - apply negb_true_iff, Z.eqb_neq. intros H0.
    assert (Z.testbit (Z.land b (2 ^ k)) k = false) as H by (by rewrite H0, Z.bits_0).
    rewrite Z.land_spec, E, Z.pow2_bits_true in H by done. done.
  - apply negb_false_iff, Z.eqb_eq. apply Z.bits_inj'. intros n Hn.
    rewrite Z.land_spec, Z.pow2_bits_eqb, Z.bits_0 by done.
    destruct (Z.eqb_spec k n) as [<-|]; [by rewrite E|by rewrite andb_false_r].
Qed.

Lemma byte_testbit_high b n : byte_ok b -> 8 <= n -> Z.testbit b n = false.
Proof.
  intros [Hb1 Hb2] Hn. destruct (decide (b = 0)) as [->|]; [apply Z.bits_0|].
  apply Z.bits_above_log2; [done|]. apply Z.lt_le_trans with 8; [|done].
  apply Z.log2_lt_pow2; [lia|done].
Qed.

Lemma byte_ok_testbit b :
  0 <= b -> (forall n, 8 <= n -> Z.testbit b n = false) -> byte_ok b.
Proof.
  intros Hb Hhigh. split; [done|]. destruct (decide (b < 256)); [done|].
  exfalso. assert (Z.log2 b < 8) as Hlog.
  { destruct (decide (Z.log2 b < 8)) as [|Hge]; [done|].
    pose proof (Z.bit_log2 b ltac:(lia)) as H1. rewrite Hhigh in H1 by lia. done. }
  apply Z.log2_lt_pow2 in Hlog; [|lia]. lia.
Qed.

Lemma lor_byte_ok b c : byte_ok b -> byte_ok c -> byte_ok (Z.lor b c).
Proof.
  intros Hb Hc. apply byte_ok_testbit.
  - apply Z.lor_nonneg. unfold byte_ok in *. lia.
  - intros n Hn. rewrite Z.lor_spec, !byte_testbit_high by done. done.
Qed.

Lemma land_byte_ok b c : byte_ok b -> byte_ok (Z.land b c).
Proof.
  intros Hb. apply byte_ok_testbit.
  - apply Z.land_nonneg. unfold byte_ok in *. lia.
  - intros n Hn. rewrite Z.land_spec, byte_testbit_high by done. done.
Qed.

Lemma unot8_testbit k n : 0 <= k < 8 -> 0 <= n < 8 ->
  Z.testbit (unot 8 (Z.shiftl 1 k)) n = negb (n =? k).
Proof.
  intros Hk Hn.
  assert (k = 0 \/ k = 1 \/ k = 2 \/ k = 3 \/ k = 4 \/ k = 5 \/ k = 6 \/ k = 7) by lia.
  assert (n = 0 \/ n = 1 \/ n = 2 \/ n = 3 \/ n = 4 \/ n = 5 \/ n = 6 \/ n = 7) by lia.
  destruct_or!; subst; reflexivity.
Qed.

(** What a bitmap operation does at frame [i], as seen by [bit]. *)
Lemma bit_get_spec bm i :
  bm_ok bm -> 0 <= i < BITMAP_BITS -> bit_get bm i = Ret (bit bm i).
Proof.
  intros [Hlen _] Hi. unfold bit_get, bit, BITMAP_BITS in *.
  destruct (idx_in_range bm (i / 8)) as [b Hb].
  { rewrite Hlen. split; [apply Z.div_pos; lia|apply Z.div_lt_upper_bound; lia]. }
  rewrite Hb. apply idx_Ret in Hb as [_ Hb].
  rewrite (list_lookup_total_correct _ _ _ Hb). simpl.
  rewrite land_pow2_testbit by (apply Z.mod_pos_bound; lia). done.
Qed.

(** Shared by [bit_set] and [bit_clear]: rewriting byte [i/8] with a value
    that agrees with the old one except at bit [i mod 8]. *)
Lemma bit_update_spec bm i (v : bool) (g : Z -> Z) :
  bm_ok bm -> 0 <= i < BITMAP_BITS ->
  (forall b, byte_ok b -> byte_ok (g b)) ->
  (forall b n, byte_ok b -> 0 <= n < 8 ->
     Z.testbit (g b) n = if bool_decide (n = i mod 8) then v else Z.testbit b n) ->
  exists bm', (b ← idx bm (i / 8); idx_set bm (i / 8) (g b)) = Ret bm' /\ bm_ok bm' /\
    forall j, 0 <= j < BITMAP_BITS ->
      bit bm' j = if bool_decide (j = i) then v else bit bm j.
Proof.
  intros [Hlen Hbytes] Hi Hg Hbit. unfold BITMAP_BITS in Hi.
  assert (0 <= i / 8 < lenZ bm) as Hr.
  { rewrite Hlen. split; [apply Z.div_pos; lia|apply Z.div_lt_upper_bound; lia]. }
  destruct (idx_in_range bm (i / 8) Hr) as [b Hb].
  rewrite Hb. simpl. rewrite idx_set_in_range by done. apply idx_Ret in Hb as [_ Hb].
  assert (byte_ok b) as Hbok by (eapply Forall_lookup_1; done).
  eexists. split; [done|]. split.
  - split; [unfold lenZ; by rewrite length_insert|].
    by apply Forall_insert; [|apply Hg].
  - intros j Hj. unfold bit.
    assert (j = 8 * (j / 8) + j mod 8) as Hjd by (apply Z.div_mod; lia).
    assert (i = 8 * (i / 8) + i mod 8) as Hid by (apply Z.div_mod; lia).
    pose proof (Z.mod_pos_bound j 8 ltac:(lia)).
    pose proof (Z.div_pos j 8 ltac:(lia) ltac:(lia)).
    destruct (decide (j / 8 = i / 8)) as [Hd|Hd].
    + rewrite Hd, list_lookup_total_insert_eq by (unfold lenZ in Hr; lia).
      rewrite Hbit by done.
      rewrite (list_lookup_total_correct _ _ _ Hb).
      assert (j mod 8 = i mod 8 <-> j = i) by lia.
      by rewrite (bool_decide_ext _ (j = i)).
    + rewrite list_lookup_total_insert_ne by lia.
      rewrite bool_decide_eq_false_2; [done|]. by intros ->.
Qed.

Lemma bit_set_spec bm i :
  bm_ok bm -> 0 <= i < BITMAP_BITS ->
  exists bm', bit_set bm i = Ret bm' /\ bm_ok bm' /\
    forall j, 0 <= j < BITMAP_BITS ->
      bit bm' j = if bool_decide (j = i) then true else bit bm j.
Proof.
  intros Hbm Hi. pose proof (Z.mod_pos_bound i 8 ltac:(lia)).
  apply (bit_update_spec bm i true); [done..| |].
  - intros b Hb. apply lor_byte_ok; [done|]. rewrite Z.shiftl_1_l. split; [lia|].
    change 256 with (2 ^ 8). apply Z.pow_lt_mono_r; lia.
  - intros b n Hb Hn. rewrite Z.lor_spec, Z.shiftl_1_l, Z.pow2_bits_eqb by lia.
    case_bool_decide as E; [subst n|].
    + by rewrite Z.eqb_refl, orb_true_r.
    + rewrite (proj2 (Z.eqb_neq _ _)) by congruence. by rewrite orb_false_r.
Qed.

Lemma bit_clear_spec bm i :
  bm_ok bm -> 0 <= i < BITMAP_BITS ->
  exists bm', bit_clear bm i = Ret bm' /\ bm_ok bm' /\
    forall j, 0 <= j < BITMAP_BITS ->
      bit bm' j = if bool_decide (j = i) then false else bit bm j.
Proof.
  intros Hbm Hi. pose proof (Z.mod_pos_bound i 8 ltac:(lia)).
  apply (bit_update_spec bm i false); [done..| |].
  - intros b Hb. by apply land_byte_ok.
  - intros b n Hb Hn. rewrite Z.land_spec, unot8_testbit by lia.
    case_bool_decide as E; [subst n|].
    + by rewrite Z.eqb_refl, andb_false_r.
    + rewrite (proj2 (Z.eqb_neq _ _)) by done. by rewrite andb_true_r.
Qed.

(** Setting a clear bit removes one free frame, clearing a set one adds it. *)
Lemma free_count_flip bm bm' i :
  0 <= i < BITMAP_BITS -> bit bm i = false -> bit bm' i = true ->
  (forall j, 0 <= j < BITMAP_BITS -> j <> i -> bit bm j = bit bm' j) ->
  free_count bm = free_count bm' + 1.
Proof.
  intros Hi Hb Hb' Hj. unfold free_count. apply (count_if_flip _ _ _ i).
  - apply NoDup_seqZ.
  - apply elem_of_seqZ. lia.
  - by rewrite Hb.
  - by rewrite Hb'.
  - intros y Hy Hne. apply elem_of_seqZ in Hy. f_equal. apply Hj; [lia|done].
Qed.

Lemma free_count_nonneg bm : 0 <= free_count bm.
Proof. apply count_if_nonneg. Qed.
Lemma free_count_bound bm : free_count bm <= BITMAP_BITS.
Proof.
  unfold free_count, count_if.
  assert (forall (P : Z -> Prop) `{forall x, Decision (P x)} (l : list Z),
    lenZ (filter P l) <= lenZ l) as H.
  { intros P ? l. unfold lenZ. pose proof (length_filter P l). lia. }
  etrans; [apply H|]. unfold lenZ. rewrite length_seqZ.
  rewrite Z2Nat.id; [lia|]. unfold BITMAP_BITS, BITMAP_SIZE. lia.
Qed.

Lemma align_up_frame x :
  0 <= x -> x + 4096 < 2 ^ 64 ->
  align_up x FRAME_SIZE = Ret ((x + 4095) / 4096 * 4096).
Proof.
  intros Hx Hb. unfold align_up, FRAME_SIZE, add_chk.
  rewrite bool_decide_eq_true_2 by done. simpl. unfold sub_chk.
  rewrite bool_decide_eq_true_2 by lia. simpl.
  replace (x + 4096 - 1) with (x + 4095) by lia.
  rewrite land_page_mask by (unfold fits; lia). done.
Qed.

(** ** Allocation *)

Lemma scan_free_spec bm n :
  bm_ok bm ->
  forall k, 0 <= k <= n -> n <= BITMAP_BITS ->
  match scan_free bm (seqZ k (n - k)) with
  | Ret (Some f) => k <= f < n /\ bit bm f = false /\
                    forall g, k <= g < f -> bit bm g = true
  | Ret None => forall g, k <= g < n -> bit bm g = true
  | Panic => False
  end.
Proof.
  intros Hbm k Hk Hn. remember (Z.to_nat (n - k)) as len eqn:Hlen.
  revert k Hk Hlen. induction len as [|len IH]; intros k Hk Hlen.
  { rewrite seqZ_nil by lia. simpl. lia. }
  rewrite seqZ_cons by lia. simpl. rewrite bit_get_spec by (done || lia). simpl.
  destruct (bit bm k) eqn:Eb; [|split_and!; [lia|lia|done|lia]].
  replace (Z.pred (n - k)) with (n - Z.succ k) by lia.
  specialize (IH (Z.succ k) ltac:(lia) ltac:(lia)).
  assert (forall g, k <= g -> g = k \/ Z.succ k <= g) as Hcase by lia.
  destruct (scan_free bm _) as [[f|]|]; [| |done].
  - destruct IH as (? & ? & IH). split_and!; [lia|lia|done|].
    intros g Hg. destruct (Hcase g); [lia|by subst|apply IH; lia].
  - intros g Hg. destruct (Hcase g); [lia|by subst|apply IH; lia].
Qed.

Lemma wf_used_bound total a : wf total a -> used a <= total.
Proof. intros []. pose proof (free_count_nonneg (bitmap a)). lia. Qed.

(** Setting the bit of the least free frame, with the hint moved past it,
    keeps the invariant. *)
Lemma wf_take total a bm' f :
  wf total a -> is_free a f -> (forall g, is_free a g -> f <= g) ->
  bm_ok bm' ->
  (forall j, 0 <= j < BITMAP_BITS ->
     bit bm' j = if bool_decide (j = f) then true else bit (bitmap a) j) ->
  wf total (mkFA bm' (num_frames a) (f + 1) (used a + 1)).
Proof.
  intros [] [Hf Hbf] Hleast Hbm' Hbit. constructor; simpl; try done; try lia.
  - intros g [Hg Hbg]. simpl in Hbg. rewrite Hbit in Hbg by done.
    case_bool_decide; [done|]. assert (f <= g); [|lia]. by apply Hleast.
  - rewrite (free_count_flip (bitmap a) bm' f) in wf_total0; [lia|done|done| |].
    + rewrite Hbit by done. by rewrite bool_decide_eq_true_2.
    + intros j Hj Hne. rewrite Hbit by done. by rewrite bool_decide_eq_false_2.
Qed.

Lemma find_free_spec total a :
  wf total a ->
  (exists f, find_free a = Ret (Some f, mkFA (bitmap a) (num_frames a) (f + 1) (used a)) /\
             least_free a f) \/
  (find_free a = Ret (None, a) /\ forall f, is_free a f -> num_frames a <= f).
Proof.
  intros Hwf. pose proof Hwf as []. unfold find_free.
  destruct (decide (next_free a <= num_frames a)) as [Hle|Hgt].
  - pose proof (scan_free_spec (bitmap a) (num_frames a) wf_bm0 (next_free a)
      ltac:(lia) ltac:(lia)) as Hs.
    destruct (scan_free _ _) as [[f|]|]; simpl; [| |done].
    + left. exists f. split; [done|]. destruct Hs as (? & ? & Hs).
      split; [by split; [lia|]|]. split; [lia|]. intros g Hg.
      destruct (decide (f <= g)); [done|]. exfalso.
      destruct Hg as [? Hb]. rewrite Hs in Hb; [done|].
      split; [|lia]. apply wf_hint0. done.
    + right. split; [done|]. intros f Hf. destruct (decide (num_frames a <= f)); [done|].
      pose proof (wf_hint0 f Hf). destruct Hf as [? Hb]. rewrite Hs in Hb; [done|lia].
  - right. rewrite seqZ_nil by lia. simpl. split; [done|].
    intros f Hf. apply wf_hint0 in Hf. lia.
Qed.

Lemma allocate_frame_spec total a m :
  wf total a -> total <= BITMAP_BITS ->
  (exists f a', allocate_frame a m =
       Ret (Some (f * FRAME_SIZE), (a', write_bytes m (f * FRAME_SIZE) 0 FRAME_SIZE)) /\
     least_free a f /\ wf total a' /\
     used a' = used a + 1 /\ num_frames a' = num_frames a /\
     (forall g, is_free a' g <-> is_free a g /\ g <> f)) \/
  (allocate_frame a m = Ret (None, (a, m)) /\
   forall f, is_free a f -> num_frames a <= f).
Proof.
  intros Hwf Htot. pose proof Hwf as [].
  pose proof (wf_used_bound _ _ Hwf) as Hub.
  unfold allocate_frame, BITMAP_BITS, BITMAP_SIZE in *.
  destruct (find_free_spec total a Hwf) as [(f & -> & Hf & Hfn & Hleast)|[-> Hnone]];
    simpl; [left|right; done].
  pose proof Hf as [Hfr Hbf].
  destruct (bit_set_spec (bitmap a) f wf_bm0 Hfr) as (bm' & -> & Hbm' & Hbit). simpl.
  rewrite add_chk_ok by lia. simpl.
  unfold FRAME_SIZE, BITMAP_BITS, BITMAP_SIZE in *.
  rewrite mul_chk_ok by lia. simpl.
  eexists f, _. split; [done|]. split_and!; try done.
  - apply wf_take; done.
  - intros g. unfold is_free. simpl. split.
    + intros [Hg Hb]. rewrite Hbit in Hb by done. case_bool_decide; [done|]. done.
    + intros [[Hg Hb] Hne]. split; [done|]. rewrite Hbit by done.
      by rewrite bool_decide_eq_false_2.
Qed.

Lemma deallocate_frame_used total a f :
  wf total a -> 0 <= f < BITMAP_BITS -> ~ is_free a f -> 0 < used a ->
  exists a', deallocate_frame a (f * FRAME_SIZE) = Ret a' /\ wf total a' /\
    used a' = used a - 1 /\ num_frames a' = num_frames a /\
    (forall g, is_free a' g <-> is_free a g \/ g = f).
Proof.
  intros [] Hf Hnf Hu. unfold deallocate_frame, FRAME_SIZE.
  rewrite Z.div_mul by lia. rewrite bit_get_spec by done. simpl.
  assert (bit (bitmap a) f = true) as Hb.
  { destruct (bit (bitmap a) f) eqn:E; [done|]. by destruct Hnf. }
  rewrite Hb.
  destruct (bit_clear_spec (bitmap a) f wf_bm0 Hf) as (bm' & -> & Hbm' & Hbit). simpl.
  rewrite sub_chk_ok by lia. simpl.
  assert (forall g, 0 <= g < BITMAP_BITS /\ bit bm' g = false <-> is_free a g \/ g = f) as Hfree.
  { intros g. unfold is_free. split.
    - intros [Hg Hbg]. rewrite Hbit in Hbg by done. case_bool_decide; naive_solver.
    - intros [[Hg Hbg]| ->]; (split; [done|]); rewrite Hbit by done; by case_bool_decide. }
  eexists. split; [done|]. split_and!; [|done|done|exact Hfree].
  constructor; simpl; try done; try lia.
  - case_bool_decide; lia.
  - intros g Hg. apply Hfree in Hg as [Hg| ->]; [apply wf_hint0 in Hg|]; case_bool_decide; lia.
  - rewrite (free_count_flip bm' (bitmap a) f); [lia|done| |done|].
    + rewrite Hbit by done. by rewrite bool_decide_eq_true_2.
    + intros j Hj Hne. rewrite Hbit by done. by rewrite bool_decide_eq_false_2.
Qed.

(** Freeing a frame that is already free changes nothing. *)
Lemma deallocate_frame_free total a f :
  wf total a -> is_free a f -> deallocate_frame a (f * FRAME_SIZE) = Ret a.
Proof.
  intros [] [Hf Hb]. unfold deallocate_frame, FRAME_SIZE.
  rewrite Z.div_mul by lia. rewrite bit_get_spec by done. simpl. by rewrite Hb.
Qed.

(** ** Boot *)

(** Frame [f] lies entirely inside a usable area. *)
Definition area_frame (ar : MemoryArea) (f : Z) : Prop :=
  is_usable ar = true /\
  base_addr ar <= f * FRAME_SIZE /\ (f + 1) * FRAME_SIZE <= base_addr ar + length_ ar.

(** Frame [f] holds a byte of the address range [rng]. *)
Definition range_frame (rng : Z * Z) (f : Z) : Prop :=
  rng.1 / FRAME_SIZE <= f < (rng.2 + 4095) / FRAME_SIZE.

Definition reserved (bi : BootInfo) (f : Z) : Prop :=
  range_frame (0, BITMAP_ADDR) f \/
  range_frame (BITMAP_ADDR, BITMAP_ADDR + BITMAP_SIZE) f \/
  range_frame (HEAP_START, HEAP_START + HEAP_SIZE) f \/
  exists md, md ∈ modules bi /\ range_frame (md.1, md.1 + md.2) f.

(** What the boot loader must report for [new] not to overflow. *)
Definition area_sane (ar : MemoryArea) : Prop :=
  0 <= base_addr ar /\ 0 <= length_ ar /\ base_addr ar + length_ ar + 4096 < 2 ^ 64.
Definition module_sane (md : Z * Z) : Prop :=
  0 <= md.1 /\ 0 <= md.2 /\ md.1 + md.2 + 4096 < 2 ^ 64.
Definition boot_sane (bi : BootInfo) : Prop :=
  match memory_areas bi with Some areas => Forall area_sane areas | None => True end /\
  Forall module_sane (modules bi).

Definition areas_of (bi : BootInfo) : list MemoryArea :=
  match memory_areas bi with Some areas => areas | None => [] end.

Lemma clear_frames_spec l bm n :
  bm_ok bm -> 0 <= n <= BITMAP_BITS -> Forall (fun f => 0 <= f < BITMAP_BITS) l ->
  exists bm' n',
    ofold (fun '(bm, n) f => bm' ← bit_clear bm f; Ret (bm', Z.max n (f + 1)))
          (bm, n) l = Ret (bm', n') /\
    bm_ok bm' /\ n <= n' <= BITMAP_BITS /\ (forall f, f ∈ l -> f < n') /\
    forall f, 0 <= f < BITMAP_BITS -> bit bm' f = false <-> bit bm f = false \/ f ∈ l.
Proof.
  intros Hbm Hn Hl. revert bm n Hbm Hn. induction Hl as [|x l Hx Hl IH]; intros bm n Hbm Hn.
  { exists bm, n. simpl. split_and!; try done; try lia.
    - intros f Hf. by apply not_elem_of_nil in Hf.
    - intros f Hf. rewrite elem_of_nil. tauto. }
  simpl. destruct (bit_clear_spec bm x Hbm Hx) as (bm1 & -> & Hbm1 & Hbit). simpl.
  destruct (IH bm1 (Z.max n (x + 1)) Hbm1) as (bm' & n' & -> & ? & ? & Hlt & Hfr); [lia|].
  exists bm', n'. split_and!; try done; try lia.
  - intros f [->|Hf]%elem_of_cons; [lia|by apply Hlt].
  - intros f Hf. rewrite Hfr, Hbit, elem_of_cons by done. case_bool_decide; naive_solver.
Qed.

Lemma free_area_spec bm n ar :
  bm_ok bm -> 0 <= n <= BITMAP_BITS -> area_sane ar ->
  exists bm' n', free_area (bm, n) ar = Ret (bm', n') /\
    bm_ok bm' /\ n <= n' <= BITMAP_BITS /\
    (forall f, 0 <= f < BITMAP_BITS -> area_frame ar f -> f < n') /\
    forall f, 0 <= f < BITMAP_BITS ->
      bit bm' f = false <-> bit bm f = false \/ area_frame ar f.
Proof.
  intros Hbm Hn (Hb & Hl & Hs). unfold free_area, area_frame.
  destruct (is_usable ar); simpl.
  2:{ exists bm, n. split_and!; try done; try lia. naive_solver. }
  rewrite align_up_frame by lia. simpl. unfold end_addr. rewrite add_chk_ok by lia. simpl.
  change (FRAME_SIZE - 1) with 4095. rewrite land_page_mask by (unfold fits; lia).
  unfold FRAME_SIZE. rewrite !Z.div_mul by lia.
  set (s := base_addr ar) in *. set (e := s + length_ ar) in *.
  assert (forall f, (s + 4095) / 4096 <= f <-> s <= f * 4096) as Hfirst.
  { intros f. pose proof (Z.div_mod (s + 4095) 4096). pose proof (Z.mod_pos_bound (s + 4095) 4096). lia. }
  assert (forall f, f < e / 4096 <-> (f + 1) * 4096 <= e) as Hlast.
  { intros f. pose proof (Z.div_mod e 4096). pose proof (Z.mod_pos_bound e 4096). lia. }
  case_bool_decide as Hbig.
  { exists bm, n. split_and!; try done; try lia.
    - intros f Hf (_ & Hf1 & _). apply Hfirst in Hf1. lia.
    - intros f Hf. split; [tauto|]. intros [?|(_ & Hf1 & _)]; [done|].
      apply Hfirst in Hf1. lia. }
  pose proof (Z.div_pos (s + 4095) 4096 ltac:(lia) ltac:(lia)).
  destruct (clear_frames_spec
    (seqZ ((s + 4095) / 4096) (Z.min (e / 4096) BITMAP_BITS - (s + 4095) / 4096)) bm n)
    as (bm' & n' & -> & ? & ? & Hlt & Hfr); [done..| |].
  { apply Forall_seqZ. intros f Hf. lia. }
  exists bm', n'. split_and!; try done; try lia.
  - intros f Hf (_ & Hf1 & Hf2). apply Hlt, elem_of_seqZ. apply Hfirst in Hf1.
    apply Hlast in Hf2. lia.
  - intros f Hf. rewrite Hfr by done. rewrite <- Hfirst, <- Hlast.
    assert (f ∈ seqZ ((s + 4095) / 4096) (Z.min (e / 4096) BITMAP_BITS - (s + 4095) / 4096)
            <-> (s + 4095) / 4096 <= f /\ f < e / 4096) by (rewrite elem_of_seqZ; lia).
    tauto.
Qed.

Lemma free_areas_spec areas bm n :
  bm_ok bm -> 0 <= n <= BITMAP_BITS -> Forall area_sane areas ->
  exists bm' n', ofold free_area (bm, n) areas = Ret (bm', n') /\
    bm_ok bm' /\ n <= n' <= BITMAP_BITS /\
    (forall f ar, 0 <= f < BITMAP_BITS -> ar ∈ areas -> area_frame ar f -> f < n') /\
    forall f, 0 <= f < BITMAP_BITS ->
      bit bm' f = false <-> bit bm f = false \/ exists ar, ar ∈ areas /\ area_frame ar f.
Proof.
  intros Hbm Hn Hl. revert bm n Hbm Hn. induction Hl as [|x l Hx Hl IH]; intros bm n Hbm Hn.
  { exists bm, n. simpl. split_and!; try done; try lia.
    - intros f ar _ Hf. by apply not_elem_of_nil in Hf.
    - setoid_rewrite elem_of_nil. naive_solver. }
  destruct (free_area_spec bm n x) as (bm1 & n1 & E1 & Hbm1 & Hn1 & Hlt1 & Hfr1); [done..|].
  destruct (IH bm1 n1) as (bm' & n' & E2 & ? & ? & Hlt & Hfr); [done|lia|].
  exists bm', n'. cbn [ofold]. rewrite E1, E2. split_and!; try done; try lia.
  - intros f ar Hf [->|Har]%elem_of_cons Haf; [|by eapply Hlt].
    specialize (Hlt1 f Hf Haf). lia.
  - intros f Hf. rewrite Hfr, Hfr1 by done. setoid_rewrite elem_of_cons. naive_solver.
Qed.

(** One iteration of [mark_range_used]. *)
Definition mark_one (a : BitmapFrameAllocator) (f : Z) : outcome BitmapFrameAllocator :=
  b ← bit_get (bitmap a) f;
  if b : bool then Ret a else
  bm ← bit_set (bitmap a) f;
  u ← used a +! 1 @ 64;
  Ret (mkFA bm (num_frames a) (next_free a) u).

Lemma mark_one_spec total a f :
  wf total a -> total <= BITMAP_BITS -> 0 <= f < BITMAP_BITS ->
  exists a', mark_one a f = Ret a' /\ wf total a' /\
    num_frames a' = num_frames a /\
    forall g, is_free a' g <-> is_free a g /\ g <> f.
Proof.
  intros Hwf Htot Hf. pose proof (wf_used_bound _ _ Hwf) as Hub. pose proof Hwf as [].
  unfold mark_one. rewrite bit_get_spec by done. simpl.
  destruct (bit (bitmap a) f) eqn:Eb.
  { exists a. split_and!; try done. intros g. split; [|tauto]. intros Hg. split; [done|].
    intros ->. by destruct Hg as [_ Hg]; rewrite Eb in Hg. }
  destruct (bit_set_spec (bitmap a) f wf_bm0 Hf) as (bm' & -> & Hbm' & Hbit). simpl.
  unfold BITMAP_BITS, BITMAP_SIZE in Htot. rewrite add_chk_ok by lia. simpl.
  assert (forall g, 0 <= g < BITMAP_BITS /\ bit bm' g = false <-> is_free a g /\ g <> f) as Hfree.
  { intros g. unfold is_free. split.
    - intros [Hg Hb]. rewrite Hbit in Hb by done. by case_bool_decide.
    - intros [[Hg Hb] Hne]. split; [done|]. rewrite Hbit by done.
      by rewrite bool_decide_eq_false_2. }
  eexists. split; [done|]. split_and!; [|done|exact Hfree].
  constructor; simpl; try done; try lia.
  - intros g [Hg _]%Hfree. by apply wf_hint0.
  - rewrite (free_count_flip (bitmap a) bm' f) in wf_total0; [lia|done|done| |].
    + rewrite Hbit by done. by rewrite bool_decide_eq_true_2.
    + intros j Hj Hne. rewrite Hbit by done. by rewrite bool_decide_eq_false_2.
Qed.

Lemma mark_frames_spec total l a :
  wf total a -> total <= BITMAP_BITS -> Forall (fun f => 0 <= f < BITMAP_BITS) l ->
  exists a', ofold mark_one a l = Ret a' /\ wf total a' /\
    num_frames a' = num_frames a /\
    forall g, is_free a' g <-> is_free a g /\ g ∉ l.
Proof.
  intros Hwf Htot Hl. revert a Hwf. induction Hl as [|x l Hx Hl IH]; intros a Hwf.
  { exists a. split_and!; try done. intros g. rewrite elem_of_nil. tauto. }
  destruct (mark_one_spec total a x) as (a1 & E1 & Hwf1 & Hn1 & Hfr1); [done..|].
  destruct (IH a1 Hwf1) as (a' & E2 & ? & Hn2 & Hfr).
  exists a'. cbn [ofold]. rewrite E1, E2. split_and!; [done|done|congruence|].
  intros g. rewrite Hfr, Hfr1, elem_of_cons. naive_solver.
Qed.

Lemma mark_range_used_spec total a rng :
  wf total a -> total <= BITMAP_BITS -> 0 <= rng.1 -> 0 <= rng.2 -> rng.2 + 4096 < 2 ^ 64 ->
  exists a', mark_range_used a rng = Ret a' /\ wf total a' /\
    num_frames a' = num_frames a /\
    forall g, is_free a' g <-> is_free a g /\ ~ range_frame rng g.
Proof.
  intros Hwf Htot Hs He Hb. unfold mark_range_used, range_frame.
  rewrite align_up_frame by done. simpl. unfold FRAME_SIZE. rewrite Z.div_mul by lia.
  set (first := rng.1 / 4096). set (last := (rng.2 + 4095) / 4096).
  assert (0 <= first) by (apply Z.div_pos; lia).
  destruct (mark_frames_spec total (seqZ first (Z.min last BITMAP_BITS - first)) a)
    as (a' & E & ? & ? & Hfr); [done|done| |].
  { apply Forall_seqZ. intros f Hf. lia. }
  unfold mark_one in E. rewrite E. exists a'. split_and!; try done.
  intros g. rewrite Hfr, elem_of_seqZ. split; [|naive_solver lia].
  intros [[Hg Hbg] Hn]. split; [done|]. lia.
Qed.

Lemma mark_modules_spec total l a :
  wf total a -> total <= BITMAP_BITS -> Forall module_sane l ->
  exists a',
    ofold (fun (a : BitmapFrameAllocator) '((start, len) : Z * Z) =>
             e ← start +! len @ 64; mark_range_used a (start, e)) a l = Ret a' /\
    wf total a' /\ num_frames a' = num_frames a /\
    forall g, is_free a' g <->
      is_free a g /\ ~ exists md, md ∈ l /\ range_frame (md.1, md.1 + md.2) g.
Proof.
  intros Hwf Htot Hl. revert a Hwf. induction Hl as [|[s n] l (Hs & Hn & Hb) Hl IH]; intros a Hwf.
  { exists a. split_and!; try done. setoid_rewrite elem_of_nil. naive_solver. }
  simpl in Hs, Hn, Hb.
  destruct (mark_range_used_spec total a (s, s + n)) as (a1 & E1 & Hwf1 & Hn1 & Hfr1);
    [done|done|done|simpl; lia|simpl; lia|].
  destruct (IH a1 Hwf1) as (a' & E2 & ? & Hn2 & Hfr).
  exists a'. cbn [ofold]. rewrite add_chk_ok by lia. simpl. rewrite E1, E2.
  split_and!; [done|done|congruence|].
  intros g. rewrite Hfr, Hfr1. setoid_rewrite elem_of_cons. naive_solver.
Qed.

Lemma bit_initial f : 0 <= f < BITMAP_BITS ->
  bit (replicate (Z.to_nat BITMAP_SIZE) 255) f = true.
Proof.
  intros Hf. unfold bit, BITMAP_BITS in *.
  assert (0 <= f / 8 < BITMAP_SIZE).
  { split; [apply Z.div_pos; lia|apply Z.div_lt_upper_bound; lia]. }
  rewrite lookup_total_replicate_2 by lia.
  pose proof (Z.mod_pos_bound f 8 ltac:(lia)).
  assert (f mod 8 = 0 \/ f mod 8 = 1 \/ f mod 8 = 2 \/ f mod 8 = 3 \/
          f mod 8 = 4 \/ f mod 8 = 5 \/ f mod 8 = 6 \/ f mod 8 = 7) by lia.
  destruct_or!; match goal with E : f mod 8 = _ |- _ => rewrite E end; reflexivity.
Qed.

Lemma boot_info_range_empty bi f : ~ range_frame (boot_info_range bi) f.
Proof.
  unfold range_frame, boot_info_range, FRAME_SIZE. cbn [fst snd].
  change (0 / 4096) with 0. change ((0 + 4095) / 4096) with 0. lia.
Qed.

Lemma new_spec bi :
  boot_sane bi ->
  exists a total, new bi = Ret a /\ wf total a /\ total <= BITMAP_BITS /\
    (forall f, is_free a f <->
       0 <= f < BITMAP_BITS /\ (exists ar, ar ∈ areas_of bi /\ area_frame ar f) /\
       ~ reserved bi f) /\
    (forall f, is_free a f -> f < num_frames a).
Proof.
  intros [Hareas Hmods]. unfold new.
  set (bm0 := replicate (Z.to_nat BITMAP_SIZE) 255).
  assert (bm_ok bm0) as Hbm0.
  { split; [|by apply Forall_replicate].
    unfold lenZ, bm0. rewrite length_replicate, Z2Nat.id; [done|]. unfold BITMAP_SIZE. lia. }
  pose proof bit_initial as Hinit. fold bm0 in Hinit. clearbody bm0.
  assert (exists bm n, match memory_areas bi with
             | Some areas => ofold free_area (bm0, 0) areas
             | None => Ret (bm0, 0) end = Ret (bm, n) /\ bm_ok bm /\ 0 <= n <= BITMAP_BITS /\
     (forall f ar, 0 <= f < BITMAP_BITS -> ar ∈ areas_of bi -> area_frame ar f -> f < n) /\
     forall f, 0 <= f < BITMAP_BITS ->
       bit bm f = false <-> exists ar, ar ∈ areas_of bi /\ area_frame ar f)
    as (bm & n & E & Hbm & Hn & Hlt & Hfr).
  { unfold areas_of. destruct (memory_areas bi) as [areas|].
    - destruct (free_areas_spec areas bm0 0) as (bm & n & ? & ? & ? & Hlt & Hfr);
        [done|by unfold BITMAP_BITS, BITMAP_SIZE|done|].
      exists bm, n. split_and!; try done; try lia. intros f Hf. rewrite Hfr by done.
      rewrite Hinit by done. naive_solver.
    - exists bm0, 0. split_and!; try done.
      + intros f ar _ Hf. by apply not_elem_of_nil in Hf.
      + intros f Hf. rewrite Hinit by done. setoid_rewrite elem_of_nil. naive_solver. }
  rewrite E. cbn [mbind outcome_bind].
  assert (wf (free_count bm) (mkFA bm n 0 0)) as Hwf0.
  { constructor; simpl; try done; try lia. intros f [? _]. lia. }
  pose proof (free_count_bound bm) as Htot.
  destruct (mark_range_used_spec _ _ (0, BITMAP_ADDR) Hwf0 Htot) as (a1 & -> & Hw1 & Hn1 & Hf1);
    [by unfold BITMAP_ADDR..|]. cbn [mbind outcome_bind].
  destruct (mark_range_used_spec _ _ (BITMAP_ADDR, BITMAP_ADDR + BITMAP_SIZE) Hw1 Htot)
    as (a2 & -> & Hw2 & Hn2 & Hf2); [by unfold BITMAP_ADDR, BITMAP_SIZE..|]. cbn [mbind outcome_bind].
  destruct (mark_range_used_spec _ _ (HEAP_START, HEAP_START + HEAP_SIZE) Hw2 Htot)
    as (a3 & -> & Hw3 & Hn3 & Hf3); [by unfold HEAP_START, HEAP_SIZE..|]. cbn [mbind outcome_bind].
  destruct (mark_range_used_spec _ _ (boot_info_range bi) Hw3 Htot)
    as (a4 & -> & Hw4 & Hn4 & Hf4); [done..|]. cbn [mbind outcome_bind].
  destruct (mark_modules_spec _ (modules bi) a4 Hw4 Htot Hmods) as (a5 & -> & Hw5 & Hn5 & Hf5).
  exists a5, (free_count bm). split_and!; try done.
  - intros f. rewrite Hf5, Hf4, Hf3, Hf2, Hf1. unfold is_free at 1, reserved. simpl.
    assert (~ range_frame (boot_info_range bi) f) by apply boot_info_range_empty.
    split; [|intros (? & ? & ?); split_and!; try tauto; by apply Hfr].
    intros [[[[[[Hr Hb] ?] ?] ?] ?] ?]. rewrite Hfr in Hb by done. tauto.
  - intros f. rewrite Hf5, Hf4, Hf3, Hf2, Hf1. unfold is_free at 1. simpl.
    intros [[[[[[Hr Hb] ?] ?] ?] ?] ?]. apply Hfr in Hb as (ar & Har & Haf); [|done].
    rewrite Hn5, Hn4, Hn3, Hn2, Hn1. simpl. by eapply Hlt.
Qed.

(** ** Histories of the allocator

    The frames a kernel holds, next to the allocator: [alloc_step] takes a
    frame or finds none, gives back a frame that is held, or writes to
    memory. *)

Record alloc_state := mkAS {
  as_fa : BitmapFrameAllocator;
  as_mem : phys;
  as_owned : gset Z
}.

Inductive alloc_step : alloc_state -> alloc_state -> Prop :=
| step_alloc a m owned p a' m' :
    allocate_frame a m = Ret (Some p, (a', m')) ->
    alloc_step (mkAS a m owned) (mkAS a' m' ({[p / FRAME_SIZE]} ∪ owned))
| step_alloc_none a m owned a' m' :
    allocate_frame a m = Ret (None, (a', m')) ->
    alloc_step (mkAS a m owned) (mkAS a' m' owned)
| step_free a m owned f a' :
    f ∈ owned -> deallocate_frame a (f * FRAME_SIZE) = Ret a' ->
    alloc_step (mkAS a m owned) (mkAS a' m (owned ∖ {[f]}))
| step_write a m owned m' :
    alloc_step (mkAS a m owned) (mkAS a m' owned).

Inductive alloc_reach (bi : BootInfo) : alloc_state -> Prop :=
| reach_new a m : new bi = Ret a -> alloc_reach bi (mkAS a m ∅)
| reach_step s s' : alloc_reach bi s -> alloc_step s s' -> alloc_reach bi s'.

(** The frames the allocator manages: in a usable area, not reserved. *)
Definition managed (bi : BootInfo) (f : Z) : Prop :=
  0 <= f < BITMAP_BITS /\ (exists ar, ar ∈ areas_of bi /\ area_frame ar f) /\
  ~ reserved bi f.

Record alloc_inv (bi : BootInfo) (s : alloc_state) : Prop := mkInv {
  inv_wf : exists total, wf total (as_fa s) /\ total <= BITMAP_BITS;
  inv_part : forall f, managed bi f <-> is_free (as_fa s) f \/ f ∈ as_owned s;
  inv_disj : forall f, is_free (as_fa s) f -> f ∉ as_owned s;
  inv_num : forall f, managed bi f -> f < num_frames (as_fa s);
  inv_used : Z.of_nat (size (as_owned s)) <= used (as_fa s)
}.

Lemma alloc_inv_new bi a m :
  boot_sane bi -> new bi = Ret a -> alloc_inv bi (mkAS a m ∅).
Proof.
  intros Hbi Hnew. destruct (new_spec bi Hbi) as (a' & total & E & Hwf & Htot & Hfree & Hnum).
  rewrite Hnew in E. injection E as <-. constructor; simpl.
  - eauto.
  - intros f. rewrite Hfree. unfold managed. set_solver.
  - set_solver.
  - intros f Hf. apply Hnum, Hfree, Hf.
  - apply (wf_used _ _ Hwf).
Qed.

Lemma alloc_inv_step bi s s' : alloc_inv bi s -> alloc_step s s' -> alloc_inv bi s'.
Proof.
  intros [(total & Hwf & Htot) Hpart Hdisj Hnum Hused] Hstep.
  destruct Hstep as [a m owned p a' m' E|a m owned a' m' E|a m owned f a' Hf E|a m owned m'];
    simpl in *.
  - destruct (allocate_frame_spec total a m Hwf Htot)
      as [(f & a1 & E1 & [Hff _] & Hwf' & Hu & Hn & Hfr)|[E1 _]]; rewrite E in E1; [|done].
    injection E1 as -> -> ->. rewrite Z.div_mul by done. pose proof (Hdisj f Hff).
    constructor; simpl.
    + eauto.
    + intros g. rewrite Hpart, Hfr, elem_of_union, elem_of_singleton.
      destruct (decide (g = f)) as [->|]; tauto.
    + intros g [Hg Hne]%Hfr. apply Hdisj in Hg. set_solver.
    + intros g Hg. rewrite Hn. by apply Hnum.
    + rewrite size_union, size_singleton by set_solver. lia.
  - destruct (allocate_frame_spec total a m Hwf Htot) as [(f & a1 & E1 & _)|[E1 _]];
      rewrite E in E1; [done|]. injection E1 as -> ->. constructor; simpl; eauto.
  - assert (~ is_free a f) as Hnf by (intros Hff; by apply (Hdisj f)).
    assert (managed bi f) as [Hr _] by (apply Hpart; by right).
    assert (size owned = 1 + size (owned ∖ {[f]}))%nat as Hsz.
    { rewrite <- (size_singleton (C:=gset Z) f), <- size_union by set_solver.
      f_equal. apply set_eq. intros g. rewrite elem_of_union, elem_of_difference, elem_of_singleton.
      destruct (decide (g = f)) as [->|]; tauto. }
    destruct (deallocate_frame_used total a f Hwf Hr Hnf ltac:(lia))
      as (a1 & E1 & Hwf' & Hu & Hn & Hfr). rewrite E in E1. injection E1 as ->.
    constructor; simpl.
    + eauto.
    + intros g. rewrite Hpart, Hfr, elem_of_difference, elem_of_singleton.
      destruct (decide (g = f)) as [->|]; tauto.
    + intros g [Hg| ->]%Hfr; [apply Hdisj in Hg|]; set_solver.
    + intros g Hg. rewrite Hn. by apply Hnum.
    + lia.
  - constructor; simpl; eauto.
Qed.

Lemma alloc_reach_inv bi s : boot_sane bi -> alloc_reach bi s -> alloc_inv bi s.
Proof.
  intros Hbi. induction 1; [by apply alloc_inv_new|by eapply alloc_inv_step].
Qed.


(** Property.  Giving back a held frame never panics, makes exactly that frame
    available again, and giving it back a second time changes nothing. *)
Theorem deallocate_frame_safe bi s f :
  boot_sane bi -> alloc_reach bi s -> f ∈ as_owned s ->
  exists a', deallocate_frame (as_fa s) (f * FRAME_SIZE) = Ret a' /\
    (forall g, is_free a' g <-> is_free (as_fa s) g \/ g = f) /\
    deallocate_frame a' (f * FRAME_SIZE) = Ret a'.
Proof.
  intros Hbi [(total & Hwf & Htot) Hpart Hdisj Hnum Hused]%alloc_reach_inv Hf; [|done].
  assert (managed bi f) as [Hr _] by (apply Hpart; by right).
  assert (0 < size (as_owned s))%nat.
  { apply Nat.neq_0_lt_0. intros Hz. apply size_empty_inv in Hz. set_solver. }
  destruct (deallocate_frame_used total (as_fa s) f Hwf Hr) as (a' & E & Hwf' & _ & _ & Hfr).
  { intros Hff. by apply (Hdisj f). }
  { lia. }
  exists a'. split_and!; [done|done|]. eapply deallocate_frame_free; [done|].
  apply Hfr. by right.
Qed.

(** Property.  On any memory map whose areas and modules do not wrap, [new] does
    not panic, and the frames it leaves free are exactly those that lie
    entirely in a usable area and overlap neither the first 15 MiB, the
    bitmap, the heap nor a module. *)
Theorem new_free_frames bi :
  boot_sane bi ->
  exists a, new bi = Ret a /\ forall f, is_free a f <-> managed bi f.
Proof.
  intros Hbi. destruct (new_spec bi Hbi) as (a & total & E & _ & _ & Hfree & _).
  exists a. split; [done|]. apply Hfree.
Qed.

(** ** A concrete boot: 256 KiB of usable memory at 64 MiB. *)

Definition demo_boot : BootInfo :=
  mkBootInfo (Some [mkArea 0 0x9fc00 1; mkArea 0xf0000 0x10000 2; mkArea 0x4000000 0x40000 1])
             [(0x4000000, 5000)].

Lemma demo_boot_sane : boot_sane demo_boot.
Proof. split; repeat constructor; by vm_compute. Qed.

(** The module takes the first two frames of the usable area. *)
Lemma demo_managed f : managed demo_boot f <-> 0x4002 <= f < 0x4040.
Proof.
  unfold managed, reserved, area_frame, range_frame, areas_of. cbn [memory_areas modules demo_boot].
  unfold BITMAP_BITS, BITMAP_ADDR, BITMAP_SIZE, HEAP_START, HEAP_SIZE, FRAME_SIZE. split.
  - intros (Hf & (ar & Har & Hu & Hb & He) & Hr).
    assert (~ (0 <= f < 3840)) as H1.
    { intros Hlt. apply Hr. left. vm_compute (0 / 4096). cbn [fst snd].
      by change ((15728640 + 4095) / 4096) with 3840. }
    assert (~ (16384 <= f < 16386)) as H2.
    { intros Hlt. apply Hr. do 3 right. exists (0x4000000, 5000). split; [by left|].
      cbn [fst snd]. change (67108864 / 4096) with 16384.
      by change ((67108864 + 5000 + 4095) / 4096) with 16386. }
    rewrite !elem_of_cons, elem_of_nil in Har.
    destruct Har as [->|[->|[->|[]]]]; cbn [base_addr length_] in *; [lia|done|lia].
  - intros Hf. split_and!; [lia|lia| |].
    + exists (mkArea 0x4000000 0x40000 1). split; [by do 2 right; left|].
      split; [done|]. cbn [base_addr length_]. lia.
    + cbn [fst snd].
      change ((15728640 + 4095) / 4096) with 3840.
      change ((15728640 + 64 * 1024 + 4095) / 4096) with 3856.
      change ((16777216 + 32 * 1024 * 1024 + 4095) / 4096) with 12288.
      intros [?|[?|[?|(md & Hmd & Hr)]]]; [lia..|].
      apply list_elem_of_singleton in Hmd as ->. cbn [fst snd] in Hr.
      change ((67108864 + 5000 + 4095) / 4096) with 16386 in Hr. lia.
Qed.

(** After boot the first request gets frame 0x4002. *)
Lemma demo_reach : exists s, alloc_reach demo_boot s /\ 0x4002 ∈ as_owned s.
Proof.
  destruct (new_spec demo_boot demo_boot_sane) as (a & total & E & Hwf & Htot & Hfree & Hnum).
  change (forall f, is_free a f <-> managed demo_boot f) in Hfree.
  setoid_rewrite demo_managed in Hfree.
  assert (is_free a 0x4002) as H2 by (apply Hfree; lia).
  destruct (allocate_frame_spec total a (fun _ => 7) Hwf Htot)
    as [(f & a' & E' & (Hf & _ & Hleast) & _)|[_ Hnone]].
  - apply Hfree in Hf. apply Hleast in H2. assert (f = 0x4002) as -> by lia.
    eexists. split.
    + eapply reach_step; [by apply reach_new|]. exact (step_alloc _ _ ∅ _ _ _ E').
    + simpl. rewrite Z.div_mul by done. by apply elem_of_union_l, elem_of_singleton.
  - pose proof (Hnum _ H2). apply Hnone in H2. lia.
Qed.


Lemma deallocate_frame_safe_witness :
  exists s, alloc_reach demo_boot s /\
  exists a', deallocate_frame (as_fa s) (0x4002 * FRAME_SIZE) = Ret a' /\
    (forall g, is_free a' g <-> is_free (as_fa s) g \/ g = 0x4002) /\
    deallocate_frame a' (0x4002 * FRAME_SIZE) = Ret a'.
Proof.
  destruct demo_reach as (s & Hs & Ho). exists s. split; [done|].
  apply (deallocate_frame_safe demo_boot s 0x4002 demo_boot_sane Hs Ho).
Defined.

Lemma new_free_frames_witness :
  exists a, new demo_boot = Ret a /\ forall f, is_free a f <-> managed demo_boot f.
Proof. apply (new_free_frames demo_boot demo_boot_sane). Defined.
