(* ===== verification/FrameRefcount.v ===== *)
(** * Reference counts of frames

    kernel/src/memory/frame_refcount.rs: a growing vector of bytes indexed
    by frame number.  A frame is given by its physical start address, as
    [PhysFrame] is.  The theorems show that the counter follows the number
    of address spaces that hold a frame as long as it stays within a byte,
    and what saturation does past 255 holders. *)
From S2P Require Import Prelude.
Local Open Scope Z_scope.

Record FrameRefcount := mkRC { counts : list Z }.

Definition rc_new : FrameRefcount := mkRC [].

(** [(frame.start_address().as_u64() >> 12) as usize] *)
Definition frame_idx (frame : Z) : Z := Z.shiftr frame 12.

Definition ensure_index (rc : FrameRefcount) (i : Z) : FrameRefcount :=
  if bool_decide (lenZ (counts rc) <= i)
  then mkRC (counts rc ++ replicate (Z.to_nat (i + 1 - lenZ (counts rc))) 0)
  else rc.

Definition rc_set (rc : FrameRefcount) (frame n : Z) : outcome FrameRefcount :=
  let i := frame_idx frame in
  let rc := ensure_index rc i in
  c ← idx_set (counts rc) i n;
  Ret (mkRC c).

Definition rc_inc (rc : FrameRefcount) (frame : Z) : outcome (FrameRefcount * Z) :=
  let i := frame_idx frame in
  let rc := ensure_index rc i in
  v ← idx (counts rc) i;
  c ← (if bool_decide (v < 255) then idx_set (counts rc) i (Z.min 255 (v + 1))
       else Ret (counts rc));
  v' ← idx c i;
  Ret (mkRC c, v').

Definition rc_dec (rc : FrameRefcount) (frame : Z) : outcome (FrameRefcount * Z) :=
  let i := frame_idx frame in
  if bool_decide (lenZ (counts rc) <= i) then Ret (rc, 0) else
  v ← idx (counts rc) i;
  c ← (if bool_decide (0 < v) then v' ← v -! 1; idx_set (counts rc) i v'
       else Ret (counts rc));
  v' ← idx c i;
  Ret (mkRC c, v').

Definition rc_get (rc : FrameRefcount) (frame : Z) : Z :=
  default 0 (counts rc !! Z.to_nat (frame_idx frame)).

(** ** Specifications *)

Definition rc_ok (rc : FrameRefcount) : Prop := bytes_ok (counts rc).

(** A frame as [PhysFrame] has it: aligned, not negative. *)
Definition frame_ok (frame : Z) : Prop := 0 <= frame /\ frame mod 4096 = 0.

Lemma frame_idx_div frame : frame_idx frame = frame / 4096.
Proof. unfold frame_idx. by rewrite Z.shiftr_div_pow2. Qed.

Lemma frame_idx_inj f g :
  frame_ok f -> frame_ok g -> frame_idx f = frame_idx g -> f = g.
Proof.
  rewrite !frame_idx_div. intros [_ Hf] [_ Hg] Hd.
  rewrite (Z.div_mod f 4096), (Z.div_mod g 4096) by done. lia.
Qed.

Lemma frame_idx_nonneg f : frame_ok f -> 0 <= frame_idx f.
Proof. rewrite frame_idx_div. intros [? _]. apply Z.div_pos; lia. Qed.

Lemma rc_get_range rc f : rc_ok rc -> 0 <= rc_get rc f < 256.
Proof.
  intros Hok. unfold rc_get. destruct (_ !! _) as [v|] eqn:E; simpl; [|lia].
  eapply Forall_lookup_1 in Hok; [|done]. apply Hok.
Qed.

Lemma ensure_index_spec rc i :
  0 <= i -> rc_ok rc ->
  rc_ok (ensure_index rc i) /\ i < lenZ (counts (ensure_index rc i)) /\
  (forall k, default 0 (counts (ensure_index rc i) !! k) = default 0 (counts rc !! k)).
Proof.
  intros Hi Hok. unfold ensure_index. case_bool_decide as Hlen; [|by split_and!; [|lia|]].
  simpl. split_and!.
  - apply Forall_app. split; [done|]. apply Forall_replicate. done.
  - rewrite lenZ_app. unfold lenZ at 2. rewrite length_replicate. lia.
  - intros k. destruct (decide (k < length (counts rc))%nat).
    + by rewrite lookup_app_l.
    + rewrite lookup_app_r by lia. rewrite (lookup_ge_None_2 (counts rc)) by lia. simpl.
      destruct (replicate _ _ !! _) as [v|] eqn:E; [|done].
      by apply lookup_replicate in E as [-> _].
Qed.

(** The three writers all store one byte at the index of a frame. *)
Lemma rc_store_get c i v frame :
  0 <= i < lenZ c -> frame_ok frame ->
  rc_get (mkRC (<[Z.to_nat i := v]> c)) frame =
  if bool_decide (frame_idx frame = i) then v else rc_get (mkRC c) frame.
Proof.
  intros Hi Hf. pose proof (frame_idx_nonneg _ Hf). unfold rc_get. simpl.
  unfold lenZ in Hi. case_bool_decide as E.
  - rewrite E, list_lookup_insert_eq by lia. done.
  - rewrite list_lookup_insert_ne by lia. done.
Qed.

Lemma rc_set_spec rc frame n :
  rc_ok rc -> frame_ok frame -> byte_ok n ->
  exists rc', rc_set rc frame n = Ret rc' /\ rc_ok rc' /\
    forall g, frame_ok g ->
      rc_get rc' g = if bool_decide (g = frame) then n else rc_get rc g.
Proof.
  intros Hok Hf Hn. pose proof (frame_idx_nonneg _ Hf) as Hi.
  destruct (ensure_index_spec rc (frame_idx frame) Hi Hok) as (Hok' & Hlt & Hget).
  unfold rc_set. rewrite idx_set_in_range by done. simpl.
  eexists. split; [done|]. split; [by apply Forall_insert|].
  intros g Hg. rewrite rc_store_get by done.
  rewrite (bool_decide_ext _ (g = frame))
    by (split; [by apply frame_idx_inj|by intros ->]).
  unfold rc_get at 1. simpl. rewrite Hget. done.
Qed.

Lemma rc_get_idx rc frame :
  frame_ok frame -> frame_idx frame < lenZ (counts rc) ->
  idx (counts rc) (frame_idx frame) = Ret (rc_get rc frame).
Proof.
  intros Hf Hlt. pose proof (frame_idx_nonneg _ Hf).
  destruct (idx_in_range (counts rc) (frame_idx frame)) as [v Hv]; [done|].
  rewrite Hv. apply idx_Ret in Hv as [_ Hv]. unfold rc_get. by rewrite Hv.
Qed.

Lemma rc_insert_idx (c : list Z) frame (i : nat) v :
  frame_ok frame -> frame_idx frame < lenZ c ->
  idx (<[i := v]> c) (frame_idx frame) = Ret (rc_get (mkRC (<[i := v]> c)) frame).
Proof.
  intros Hf Hlt. apply (rc_get_idx (mkRC (<[i := v]> c))); [done|].
  by rewrite <- (lenZ_insert c i v) in Hlt.
Qed.

Lemma rc_inc_spec rc frame :
  rc_ok rc -> frame_ok frame ->
  exists rc', rc_inc rc frame = Ret (rc', Z.min 255 (rc_get rc frame + 1)) /\ rc_ok rc' /\
    forall g, frame_ok g -> rc_get rc' g =
      if bool_decide (g = frame) then Z.min 255 (rc_get rc frame + 1) else rc_get rc g.
Proof.
  intros Hok Hf. pose proof (frame_idx_nonneg _ Hf) as Hi.
  pose proof (rc_get_range rc frame Hok) as Hr.
  destruct (ensure_index_spec rc (frame_idx frame) Hi Hok) as (Hok' & Hlt & Hget).
  assert (rc_get (ensure_index rc (frame_idx frame)) frame = rc_get rc frame) as Hsame
    by apply Hget.
  unfold rc_inc. rewrite rc_get_idx by done. simpl. rewrite Hsame.
  set (e := ensure_index rc (frame_idx frame)) in *.
  case_bool_decide as Hv; simpl.
  - rewrite idx_set_in_range by done. simpl.
    set (w := Z.min 255 (rc_get rc frame + 1)).
    assert (forall g, frame_ok g -> rc_get (mkRC (<[Z.to_nat (frame_idx frame):=w]> (counts e))) g =
      if bool_decide (g = frame) then w else rc_get rc g) as Hg.
    { intros g Hg. rewrite rc_store_get by done.
      rewrite (bool_decide_ext _ (g = frame))
        by (split; [by apply frame_idx_inj|by intros ->]).
      unfold rc_get at 1. simpl. rewrite Hget. done. }
    rewrite rc_insert_idx by done. simpl. rewrite Hg, bool_decide_eq_true_2 by done.
    eexists. split; [done|]. split; [|done].
    apply Forall_insert; [done|]. unfold byte_ok, w. lia.
  - rewrite rc_get_idx by done. simpl. rewrite Hsame.
    replace (Z.min 255 (rc_get rc frame + 1)) with (rc_get rc frame) by lia.
    exists (mkRC (counts e)). split; [done|]. split; [done|]. intros g Hg. unfold rc_get at 1. simpl.
    rewrite Hget. case_bool_decide; [by subst|done].
Qed.

Lemma rc_dec_spec rc frame :
  rc_ok rc -> frame_ok frame ->
  exists rc', rc_dec rc frame = Ret (rc', Z.max 0 (rc_get rc frame - 1)) /\ rc_ok rc' /\
    forall g, frame_ok g -> rc_get rc' g =
      if bool_decide (g = frame) then Z.max 0 (rc_get rc frame - 1) else rc_get rc g.
Proof.
  intros Hok Hf. pose proof (frame_idx_nonneg _ Hf) as Hi.
  pose proof (rc_get_range rc frame Hok) as Hr. unfold rc_dec.
  case_bool_decide as Hlen.
  { assert (rc_get rc frame = 0) as E.
    { unfold rc_get. rewrite lookup_ge_None_2; [done|]. unfold lenZ in Hlen. lia. }
    rewrite E. exists rc. split_and!; [done|done|]. intros g Hg.
    case_bool_decide; [by subst|done]. }
  assert (frame_idx frame < lenZ (counts rc)) as Hlt by lia.
  rewrite rc_get_idx by done. simpl. case_bool_decide as Hv; simpl.
  - rewrite sub_chk_ok by lia. simpl. rewrite idx_set_in_range by done. simpl.
    replace (Z.max 0 (rc_get rc frame - 1)) with (rc_get rc frame - 1) by lia.
    set (w := rc_get rc frame - 1).
    assert (forall g, frame_ok g -> rc_get (mkRC (<[Z.to_nat (frame_idx frame):=w]> (counts rc))) g =
      if bool_decide (g = frame) then w else rc_get rc g) as Hg.
    { intros g Hg. rewrite rc_store_get by done.
      by rewrite (bool_decide_ext _ (g = frame))
        by (split; [by apply frame_idx_inj|by intros ->]). }
    rewrite rc_insert_idx by done. simpl. rewrite Hg, bool_decide_eq_true_2 by done.
    eexists. split; [done|]. split; [|done].
    apply Forall_insert; [done|]. unfold byte_ok, w. lia.
  - rewrite rc_get_idx by done. simpl.
    replace (Z.max 0 (rc_get rc frame - 1)) with (rc_get rc frame) by lia.
    exists (mkRC (counts rc)). split_and!; [done|done|]. intros g Hg.
    case_bool_decide; [by subst|done].
Qed.

(** ** Sharing

    One frame's life: [Share] when a fork maps it once more, [Leave] when an
    address space is torn down. *)
Inductive rc_op := Share | Leave.

(** Runs the operations and collects what [dec] answered at each [Leave]. *)
Fixpoint rc_run (rc : FrameRefcount) (frame : Z) (ops : list rc_op)
  : outcome (FrameRefcount * list Z) :=
  match ops with
  | [] => Ret (rc, [])
  | Share :: ops' => '(rc, _) ← rc_inc rc frame; rc_run rc frame ops'
  | Leave :: ops' =>
      '(rc, n) ← rc_dec rc frame;
      '(rc, ns) ← rc_run rc frame ops';
      Ret (rc, n :: ns)
  end.

(** The number of holders after each [Leave], and at the end. *)
Fixpoint holders (n : Z) (ops : list rc_op) : Z * list Z :=
  match ops with
  | [] => (n, [])
  | Share :: ops' => holders (n + 1) ops'
  | Leave :: ops' => let '(k, ns) := holders (n - 1) ops' in (k, n - 1 :: ns)
  end.

(** Every prefix keeps the number of holders between 0 and 255. *)
Fixpoint holders_fit (n : Z) (ops : list rc_op) : bool :=
  match ops with
  | [] => true
  | Share :: ops' => bool_decide (n + 1 <= 255) && holders_fit (n + 1) ops'
  | Leave :: ops' => bool_decide (0 <= n - 1) && holders_fit (n - 1) ops'
  end.

(** Property.  While a frame has at most 255 holders the count is the number of
    holders: each release reports how many are left, so it reports 0, and
    the frame is freed, exactly when the last holder leaves. *)
Theorem refcount_tracks_holders ops rc frame n :
  rc_ok rc -> frame_ok frame -> rc_get rc frame = n -> holders_fit n ops = true ->
  exists rc', rc_run rc frame ops = Ret (rc', (holders n ops).2) /\
    rc_get rc' frame = (holders n ops).1 /\
    forall g, frame_ok g -> g <> frame -> rc_get rc' g = rc_get rc g.
Proof.
  intros Hok Hf. revert rc n Hok.
  induction ops as [|[] ops IH]; intros rc n Hok Hn Hfit.
  { by exists rc. }
  - simpl in Hfit. apply andb_prop in Hfit as [Hle%bool_decide_eq_true_1 Hfit].
    destruct (rc_inc_spec rc frame Hok Hf) as (rc1 & E & Hok1 & Hget1).
    destruct (IH rc1 (n + 1) Hok1) as (rc' & E' & Hlast & Hother); [|done|].
    { rewrite Hget1, bool_decide_eq_true_2 by done. lia. }
    exists rc'. cbn [rc_run holders]. rewrite E. cbn. rewrite E'. split_and!; [done|done|].
    intros g Hg Hne. rewrite Hother, Hget1, bool_decide_eq_false_2 by done. done.
  - simpl in Hfit. apply andb_prop in Hfit as [Hle%bool_decide_eq_true_1 Hfit].
    destruct (rc_dec_spec rc frame Hok Hf) as (rc1 & E & Hok1 & Hget1).
    destruct (IH rc1 (n - 1) Hok1) as (rc' & E' & Hlast & Hother); [|done|].
    { rewrite Hget1, bool_decide_eq_true_2 by done. lia. }
    exists rc'. cbn [rc_run holders]. rewrite E. cbn. rewrite E'. cbn.
    destruct (holders (n - 1) ops) as [k ns]. simpl in *.
    replace (Z.max 0 (rc_get rc frame - 1)) with (n - 1) by lia. split_and!; [done|done|].
    intros g Hg Hne. rewrite Hother, Hget1, bool_decide_eq_false_2 by done. done.
Qed.

Lemma refcount_tracks_holders_witness :
  exists rc', rc_run (mkRC [0; 1; 7]) 4096 [Share; Share; Leave; Leave; Leave]
                = Ret (rc', [2; 1; 0]) /\
    rc_get rc' 4096 = 0 /\
    forall g, frame_ok g -> g <> 4096 -> rc_get rc' g = rc_get (mkRC [0; 1; 7]) g.
Proof.
  apply (refcount_tracks_holders [Share; Share; Leave; Leave; Leave] (mkRC [0; 1; 7]) 4096 1).
  - by repeat constructor.
  - by split.
  - reflexivity.
  - reflexivity.
Defined.

(** Property.  Past 255 holders the count saturates: with 256 holders, the release
    of the 255th already reports 0, and its frame is freed while one address
    space still maps it. *)
Theorem refcount_saturation :
  let ops := replicate 255 Share ++ replicate 255 Leave in
  (holders 1 ops).1 = 1 /\
  exists rc ns, rc_run (mkRC [1]) 0 ops = Ret (rc, ns) /\ last ns = Some 0.
Proof.
  split; [vm_compute; reflexivity|].
  set (r := rc_run _ _ _).
  exists (fst (ret_or (mkRC [], []) r)), (snd (ret_or (mkRC [], []) r)).
  subst r. split; vm_compute; reflexivity.
Qed.
