(* ===== verification/Paging.v ===== *)
(** * Page tables

    kernel/src/memory/paging.rs, and the two parts of the machine below it:
    the 4-level walk that the processor does (entries of 8 bytes, as
    boot.asm and the kernel's own [PageTable] accesses use them) and the
    mapper of the x86_64 crate, which is not part of the repository and is
    the class [X86Paging] with its documented behaviour as [PagingLaws].

    [kmem] gathers the globals of the memory modules: FRAME_ALLOCATOR, RAM,
    FRAME_REFCOUNT, CR3, MAPPER and MAPPER_SLOTS.  The TLB is not modelled:
    flushes have no effect on this state. *)
From S2P Require Import Prelude Phys FrameAllocator FrameRefcount.
Local Open Scope Z_scope.

(** ** Flags of a page table entry *)

Definition PRESENT : Z := 1.
Definition WRITABLE : Z := 2.
Definition USER_ACCESSIBLE : Z := 4.
Definition WRITE_THROUGH : Z := 8.
Definition NO_CACHE : Z := 16.
Definition HUGE_PAGE : Z := 128.

Definition PHYS_OFFSET : Z := 0.
Definition KERNEL_RW : Z := Z.lor PRESENT WRITABLE.
Definition USER_RW : Z := Z.lor (Z.lor PRESENT WRITABLE) USER_ACCESSIBLE.
Definition USER_RX : Z := Z.lor PRESENT USER_ACCESSIBLE.
Definition COW_MARKER : Z := 512.

(** [flags.contains(f)], [flags - f]; the union is [Z.lor]. *)
Definition contains (flags f : Z) : bool := Z.land flags f =? f.
Definition flags_minus (flags f : Z) : Z := Z.ldiff flags f.

(** ** The walk *)

Definition ADDR_MASK : Z := 0x000ffffffffff000.
Definition entry_addr (e : Z) : Z := Z.land e ADDR_MASK.
Definition entry_flags (e : Z) : Z := Z.ldiff e ADDR_MASK.
Definition entry_slot (table i : Z) : Z := table + 8 * i.
Definition entry (m : phys) (table i : Z) : Z := load_u64 m (entry_slot table i).

Definition p4_index (va : Z) : Z := Z.shiftr va 39 mod 512.
Definition p3_index (va : Z) : Z := Z.shiftr va 30 mod 512.
Definition p2_index (va : Z) : Z := Z.shiftr va 21 mod 512.
Definition p1_index (va : Z) : Z := Z.shiftr va 12 mod 512.

(** The next table, when the entry is present and not a huge page. *)
Definition next_table (m : phys) (table i : Z) : option Z :=
  let e := entry m table i in
  if contains e PRESENT && negb (contains e HUGE_PAGE)
  then Some (entry_addr e) else None.

(** Follows the entries [l] from [table]. *)
Fixpoint descend (m : phys) (table : Z) (l : list Z) : option Z :=
  match l with
  | [] => Some table
  | i :: l' => t ← next_table m table i; descend m t l'
  end.

(** The P1 table that holds the leaf of [va]. *)
Definition leaf_path (va : Z) : list Z := [p4_index va; p3_index va; p2_index va].
Definition leaf_table (m : phys) (p4 va : Z) : option Z := descend m p4 (leaf_path va).

(** The address of the 4 KiB leaf entry of [va], and the mapping it holds:
    frame and flags. *)
Definition leaf_slot (m : phys) (p4 va : Z) : option Z :=
  p1 ← leaf_table m p4 va;
  Some (entry_slot p1 (p1_index va)).
Definition walk (m : phys) (p4 va : Z) : option (Z * Z) :=
  slot ← leaf_slot m p4 va;
  let e := load_u64 m slot in
  if contains e PRESENT then Some (entry_addr e, entry_flags e) else None.

(** ** The x86_64 crate *)

Inductive MapToError :=
| FrameAllocationFailed
| ParentEntryHugePage
| PageAlreadyMapped (frame : Z).

(** [Mapped] of a 4 KiB, 2 MiB or 1 GiB frame. *)
Inductive TranslateResult :=
| Mapped (size frame offset flags : Z)
| NotMapped
| InvalidFrameAddress (addr : Z).

Class X86Paging := {
  (* VirtAddr::new, PhysAddr::new; both panic on a bad address *)
  virt_new : Z -> outcome Z;
  phys_new : Z -> outcome Z;
  (* align_down(4096), Page and PhysFrame::containing_address *)
  containing : Z -> Z;
  (* OffsetPageTable over the P4 at the first argument *)
  mapper_map_to : Z -> Z -> Z -> Z -> BitmapFrameAllocator * phys ->
    outcome ((BitmapFrameAllocator * phys) * result unit MapToError);
  mapper_unmap : Z -> Z -> phys -> phys * result Z unit;
  mapper_update_flags : Z -> Z -> Z -> phys -> phys * result unit unit;
  mapper_translate : Z -> Z -> phys -> TranslateResult
}.

(** [translate_addr] *)
Definition translate_addr `{X86Paging} (p4 va : Z) (m : phys) : option Z :=
  match mapper_translate p4 va m with
  | Mapped _ frame offset _ => Some (frame + offset)
  | _ => None
  end.

(** ** State *)

Record kmem := mkKmem {
  km_fa : option BitmapFrameAllocator;
  km_mem : phys;
  km_rc : FrameRefcount;
  km_cr3 : Z;
  km_mapper : option Z;
  km_slots : option (Z * Z)
}.

Abbreviation K := (M kmem string).

Definition set_fa_mem (fm : BitmapFrameAllocator * phys) (k : kmem) : kmem :=
  mkKmem (Some fm.1) fm.2 (km_rc k) (km_cr3 k) (km_mapper k) (km_slots k).
Definition set_mem (m : phys) (k : kmem) : kmem :=
  mkKmem (km_fa k) m (km_rc k) (km_cr3 k) (km_mapper k) (km_slots k).
Definition set_rc (rc : FrameRefcount) (k : kmem) : kmem :=
  mkKmem (km_fa k) (km_mem k) rc (km_cr3 k) (km_mapper k) (km_slots k).
Definition set_slots (s : option (Z * Z)) (k : kmem) : kmem :=
  mkKmem (km_fa k) (km_mem k) (km_rc k) (km_cr3 k) (km_mapper k) s.

Definition modify_mem (f : phys -> phys) : K unit :=
  fun k => Ret (set_mem (f (km_mem k)) k, Ok tt).

(** [opt.ok_or(e)?] *)
Definition ok_or {S A} (o : option A) (e : string) : M S string A :=
  match o with Some a => mok a | None => mfail e end.

Section paging.
Context `{X86Paging}.

(** ** Operations *)

Definition paging_init : K unit :=
  k ← mget;
  virt ← mlift (x ← km_cr3 k +! PHYS_OFFSET @ 64; virt_new x);
  _ ← mlift (virt_new PHYS_OFFSET);
  mput (mkKmem (km_fa k) (km_mem k) (km_rc k) (km_cr3 k) (Some virt) (km_slots k)).

(** [mapper.map_to(page, frame, flags, fa)] on the allocator and the RAM. *)
Definition do_map_to (p4 page frame flags : Z) (fa : BitmapFrameAllocator)
  : K (result unit MapToError) := fun k =>
  match mapper_map_to p4 page frame flags (fa, km_mem k) with
  | Ret (fm, r) => Ret (set_fa_mem fm k, Ok r)
  | Panic => Panic
  end.

Definition map_to (page frame flags : Z) : K unit :=
  k ← mget;
  mapper ← ok_or (km_mapper k) "paging non initialisé";
  fa ← ok_or (km_fa k) "frame alloc non initialisé";
  r ← do_map_to mapper page frame flags fa;
  match r with Ok _ => mok tt | Err _ => mfail "map_to failed" end.

Definition alloc_frame : K Z :=
  k ← mget;
  fa ← ok_or (km_fa k) "frame alloc non init";
  '(r, fm) ← mlift (allocate_frame fa (km_mem k));
  _ ← mput (set_fa_mem fm k);
  ok_or r "plus de frames libres".

Definition alloc_and_map (page flags : Z) : K unit :=
  frame ← alloc_frame;
  map_to page frame flags.

Definition translate (addr : Z) (k : kmem) : option Z :=
  mapper ← km_mapper k;
  translate_addr mapper addr (km_mem k).

(** The pages from [start] up to [end_], by 4 KiB. *)
Definition page_range (start end_ : Z) : list Z :=
  (fun i => start + 4096 * i) <$> seqZ 0 ((end_ - start + 4095) / 4096).

Definition map_mmio (phys_addr size : Z) : K Z :=
  let flags := Z.lor (Z.lor (Z.lor PRESENT WRITABLE) NO_CACHE) WRITE_THROUGH in
  let start := Z.land phys_addr (unot 64 0xfff) in
  e ← mlift (s ← phys_addr +! size @ 64; s ← s +! 0xfff @ 64; Ret (Z.land s (unot 64 0xfff)));
  k ← mget;
  mapper ← ok_or (km_mapper k) "paging non initialisé";
  _ ← ok_or (km_fa k) "frame alloc non init";
  _ ← mfor (page_range start e) (fun cur =>
        frame ← mlift (p ← phys_new cur; Ret (containing p));
        page ← mlift (v ← virt_new cur; Ret (containing v));
        k ← mget;
        fa ← ok_or (km_fa k) "frame alloc non init";
        r ← do_map_to mapper page frame flags fa;
        match r with
        | Ok _ => mok tt
        | Err (PageAlreadyMapped _) => mok tt
        | Err _ => mfail "map_mmio: map_to a échoué"
        end);
  mok phys_addr.

(** The P4 the mapper works on. *)
Definition new_offset_mapper (p4_frame : Z) : outcome Z :=
  virt ← (x ← p4_frame +! PHYS_OFFSET @ 64; virt_new x);
  _ ← virt_new PHYS_OFFSET;
  Ret virt.

Definition free_frame (frame : Z) : K unit :=
  k ← mget;
  match km_fa k with
  | Some a =>
      a ← mlift (deallocate_frame a frame);
      mput (set_fa_mem (a, km_mem k) k)
  | None => mok tt
  end.

Definition alloc_zeroed_frame : K Z :=
  frame ← alloc_frame;
  virt ← mlift (x ← frame +! PHYS_OFFSET @ 64; virt_new x);
  _ ← modify_mem (fun m => write_bytes m virt 0 4096);
  mok frame.

Definition current_cr3 (k : kmem) : Z := km_cr3 k.

Definition switch_cr3 (frame : Z) (k : kmem) : kmem :=
  mkKmem (km_fa k) (km_mem k) (km_rc k) frame (km_mapper k) (km_slots k).

End paging.

(** ** What a page table promises *)

(** The tables under [p4] form a tree: a table is reached by one path.  An
    entry is zero or present. *)
Definition path_ok (l : list Z) : Prop := Forall (fun i => 0 <= i < 512) l /\ (length l <= 3)%nat.
Definition is_table (m : phys) (p4 t : Z) : Prop :=
  exists l, path_ok l /\ descend m p4 l = Some t.
Definition entry_ok (e : Z) : Prop := e = 0 \/ contains e PRESENT = true.
Record pt_ok (m : phys) (p4 : Z) : Prop := mkPtOk {
  pt_frame : frame_ok p4;
  pt_tree : forall l l' t, path_ok l -> path_ok l' ->
    descend m p4 l = Some t -> descend m p4 l' = Some t -> l = l';
  pt_used : forall t i, is_table m p4 t -> 0 <= i < 512 -> entry_ok (entry m t i)
}.

(** The entries of a page, P4 to P1; the page is vacant when one of them is
    reached and is zero, so that nothing, not even a huge page, is there. *)
Definition full_path (va : Z) : list Z := leaf_path va ++ [p1_index va].
Definition vacant (m : phys) (p4 va : Z) : Prop :=
  exists l i r t, full_path va = l ++ i :: r /\ descend m p4 l = Some t /\ entry m t i = 0.

(** The allocator has no frame to give. *)
Definition exhausted (fa : BitmapFrameAllocator) : Prop := forall g, is_free fa g -> num_frames fa <= g.

(** Every cell of the RAM is a byte. *)
Definition mem_ok (m : phys) : Prop := forall x, byte_ok (m x).

(** The frames [fs] taken one after the other from an allocator. *)
Inductive took : BitmapFrameAllocator -> BitmapFrameAllocator -> list Z -> Prop :=
| took_nil fa : took fa fa []
| took_cons fa m f fa1 m1 fa' fs :
    allocate_frame fa m = Ret (Some f, (fa1, m1)) -> took fa1 fa' fs ->
    took fa fa' (f :: fs).

(** The frame that holds address [x]. *)
Definition frame_of (x : Z) : Z := x / 4096 * 4096.

Definition low_page (page : Z) : Prop := 0 <= page < 2 ^ 47 /\ page mod 4096 = 0.
Definition leaf_flags_ok (flags : Z) : Prop :=
  0 <= flags < 2 ^ 64 /\ Z.land flags ADDR_MASK = 0 /\
  contains flags PRESENT = true /\ contains flags HUGE_PAGE = false.
Definition leaf_frame_ok (frame : Z) : Prop := frame_ok frame /\ frame < 2 ^ 52.

(** The documented behaviour of the crate.  [map_to] takes the tables it
    lacks from the allocator, changes nothing but tables, and either creates
    the mapping of a page that had none or leaves every mapping alone; a
    vacant page is mapped unless the allocator runs out.
    [unmap] clears the leaf entry and [update_flags] rewrites its flags. *)
Class PagingLaws `{X86Paging} := {
  virt_new_low a : 0 <= a < 2 ^ 47 -> virt_new a = Ret a;
  phys_new_low a : 0 <= a < 2 ^ 52 -> phys_new a = Ret a;
  containing_spec a : 0 <= a < 2 ^ 64 -> containing a = frame_of a;
  translate_walk m p4 va f flags :
    0 <= va < 2 ^ 47 -> walk m p4 va = Some (f, flags) ->
    mapper_translate p4 va m = Mapped 4096 f (va mod 4096) flags;
  update_flags_spec m p4 page f flags s flags' :
    low_page page -> leaf_slot m p4 page = Some s -> walk m p4 page = Some (f, flags) ->
    mapper_update_flags p4 page flags' m = (store_u64 m s (Z.lor f flags'), Ok tt);
  unmap_spec m p4 page f flags s :
    low_page page -> leaf_slot m p4 page = Some s -> walk m p4 page = Some (f, flags) ->
    contains flags HUGE_PAGE = false ->
    mapper_unmap p4 page m = (store_u64 m s 0, Ok f);
  map_to_spec m p4 page frame flags fa total :
    mem_ok m -> pt_ok m p4 -> wf total fa -> total <= BITMAP_BITS ->
    (forall t, is_table m p4 t -> ~ is_free fa (t / 4096)) ->
    low_page page -> leaf_frame_ok frame -> leaf_flags_ok flags ->
    exists fa' m' r fs,
      mapper_map_to p4 page frame flags (fa, m) = Ret ((fa', m'), r) /\
      took fa fa' fs /\ mem_ok m' /\ pt_ok m' p4 /\
      (forall t, is_table m' p4 t -> is_table m p4 t \/ t ∈ fs) /\
      (forall x, frame_of x ∉ fs -> ~ is_table m p4 (frame_of x) -> m' x = m x) /\
      (forall va, 0 <= va < 2 ^ 47 -> frame_of va <> page -> walk m' p4 va = walk m p4 va) /\
      (forall va, 0 <= va < 2 ^ 47 -> frame_of va <> page \/ is_ok r = false -> vacant m p4 va -> vacant m' p4 va) /\
      (vacant m p4 page -> r = Ok tt \/ r = Err FrameAllocationFailed /\ exhausted fa') /\
      match r with
      | Ok _ => walk m p4 page = None /\ walk m' p4 page = Some (frame, flags)
      | Err _ => walk m' p4 page = walk m p4 page
      end;
  map_to_mapped m p4 page frame flags fa f0 fl0 :
    mem_ok m -> frame_ok p4 -> low_page page -> walk m p4 page = Some (f0, fl0) ->
    exists m', mapper_map_to p4 page frame flags (fa, m) = Ret ((fa, m'), Err (PageAlreadyMapped f0)) /\
      mem_ok m' /\
      (forall q l, frame_ok q -> descend m' q l = descend m q l) /\
      (forall q i, frame_ok q -> entry_ok (entry m q i) -> entry_ok (entry m' q i)) /\
      (forall x, m' x = m x \/
         exists l i t, l ++ [i] `prefix_of` leaf_path page /\ descend m p4 l = Some t /\
           entry_slot t i <= x < entry_slot t i + 8)
}.

(** ** Lemmas on the walk *)

Lemma entry_addr_frame_ok e : 0 <= e -> frame_ok (entry_addr e).
Proof.
  intros He. unfold entry_addr. split; [by apply Z.land_nonneg; right|].
  change 4096 with (2 ^ 12). rewrite <- Z.land_ones, <- Z.land_assoc by done.
  change (Z.land ADDR_MASK (Z.ones 12)) with 0. apply Z.land_0_r.
Qed.

Lemma load_u64_nonneg m a : (forall x, 0 <= m x) -> 0 <= load_u64 m a.
Proof.
  intros Hm. unfold load_u64, load_bytes. generalize (seq 0 8). intros l.
  induction l as [|i l IH]; [done|]. rewrite fmap_cons. cbn [of_le].
  specialize (Hm (a + Z.of_nat i)). lia.
Qed.

Lemma p4_index_range va : 0 <= p4_index va < 512.
Proof. by apply Z.mod_pos_bound. Qed.
Lemma p3_index_range va : 0 <= p3_index va < 512.
Proof. by apply Z.mod_pos_bound. Qed.
Lemma p2_index_range va : 0 <= p2_index va < 512.
Proof. by apply Z.mod_pos_bound. Qed.
Lemma p1_index_range va : 0 <= p1_index va < 512.
Proof. by apply Z.mod_pos_bound. Qed.

Lemma leaf_path_ok va : path_ok (leaf_path va).
Proof.
  split; [|done]. unfold leaf_path.
  pose proof (p4_index_range va). pose proof (p3_index_range va). pose proof (p2_index_range va).
  rewrite !Forall_cons, Forall_nil. done.
Qed.

(** The four indices determine the page of a low address. *)
Lemma indices_page va va' :
  0 <= va < 2 ^ 48 -> 0 <= va' < 2 ^ 48 ->
  leaf_path va = leaf_path va' -> p1_index va = p1_index va' -> va / 4096 = va' / 4096.
Proof.
  unfold leaf_path, p4_index, p3_index, p2_index, p1_index.
  rewrite !Z.shiftr_div_pow2 by done. intros Hva Hva' [= H4 H3 H2] H1.
  assert (forall v, 0 <= v < 2 ^ 48 ->
    v / 2 ^ 12 = ((v / 2 ^ 39 mod 512 * 512 + v / 2 ^ 30 mod 512) * 512
                  + v / 2 ^ 21 mod 512) * 512 + v / 2 ^ 12 mod 512) as Hd.
  { intros v Hv.
    change (2 ^ 39) with (2 ^ 12 * 512 * 512 * 512). change (2 ^ 30) with (2 ^ 12 * 512 * 512).
    change (2 ^ 21) with (2 ^ 12 * 512). rewrite <- !Z.div_div by done.
    set (a := v / 2 ^ 12). set (b := a / 512). set (c := b / 512). set (d := c / 512).
    pose proof (Z.div_mod a 512 ltac:(done)). fold b in H.
    pose proof (Z.div_mod b 512 ltac:(done)). fold c in H0.
    pose proof (Z.div_mod c 512 ltac:(done)). fold d in H5.
    assert (d < 512) as Hd.
    { unfold d, c, b, a. rewrite !Z.div_div by done. apply Z.div_lt_upper_bound; [done|].
      lia. }
    assert (0 <= d).
    { unfold d, c, b, a. rewrite !Z.div_div by done. apply Z.div_pos; lia. }
    rewrite (Z.mod_small d) by lia. lia. }
  change 4096 with (2 ^ 12). rewrite (Hd va Hva), (Hd va' Hva'), H4, H3, H2, H1. done.
Qed.

Lemma descend_app m t l k :
  descend m t (l ++ k) = (u ← descend m t l; descend m u k).
Proof.
  revert t. induction l as [|i l IH]; intros t; [done|]. simpl.
  destruct (next_table m t i); simpl; [apply IH|done].
Qed.

Lemma descend_frame_ok m p4 l t :
  frame_ok p4 -> (forall x, 0 <= m x) -> descend m p4 l = Some t -> frame_ok t.
Proof.
  intros Hp Hm. revert p4 Hp. induction l as [|i l IH]; intros p4 Hp; simpl.
  { by intros [= <-]. }
  unfold next_table. case_match; simpl; [|done].
  apply IH, entry_addr_frame_ok, load_u64_nonneg, Hm.
Qed.

(** Slots of different tables, or of different indices, do not overlap. *)
Lemma slots_disjoint t t' i i' :
  frame_ok t -> frame_ok t' -> 0 <= i < 512 -> 0 <= i' < 512 -> (t <> t' \/ i <> i') ->
  entry_slot t i + 8 <= entry_slot t' i' \/ entry_slot t' i' + 8 <= entry_slot t i.
Proof.
  unfold entry_slot. intros [_ Ht] [_ Ht'] Hi Hi' Hne.
  pose proof (Z.div_mod t 4096 ltac:(done)). pose proof (Z.div_mod t' 4096 ltac:(done)). lia.
Qed.

Lemma entry_slot_frame t i : frame_ok t -> 0 <= i < 512 -> forall k, 0 <= k < 8 ->
  frame_of (entry_slot t i + k) = t.
Proof.
  unfold frame_of, entry_slot. intros [_ Ht] Hi k Hk.
  pose proof (Z.div_mod t 4096 ltac:(done)) as Hd.
  replace (t + 8 * i + k) with (t / 4096 * 4096 + (8 * i + k)) by lia.
  rewrite Z.div_add_l by done. rewrite (Z.div_small (8 * i + k)) by lia. lia.
Qed.

Lemma mem_ok_nonneg m : mem_ok m -> forall x, 0 <= m x.
Proof. intros H x. apply H. Qed.

Section leaf_store.
Context (m : phys) (p4 page t1 : Z).
Hypothesis Hm : mem_ok m.
Hypothesis Hpt : pt_ok m p4.
Hypothesis Ht1 : leaf_table m p4 page = Some t1.

Let s := entry_slot t1 (p1_index page).

Lemma leaf_table_frame_ok : frame_ok t1.
Proof.
  eapply descend_frame_ok; [apply Hpt|apply mem_ok_nonneg, Hm|apply Ht1].
Qed.

(** Rewriting the leaf entry of a page leaves every table where it was. *)
Lemma descend_store_leaf v l :
  path_ok l -> descend (store_u64 m s v) p4 l = descend m p4 l.
Proof.
  induction l as [|i l IH] using rev_ind; intros [Hl Hlen]; [done|].
  rewrite Forall_app in Hl. destruct Hl as [Hl Hi]. apply Forall_inv in Hi.
  rewrite length_app in Hlen. simpl in Hlen.
  assert (path_ok l) as Hpl by (split; [done|lia]).
  rewrite !descend_app, IH by done. destruct (descend m p4 l) as [t|] eqn:Et; [|done].
  simpl. unfold next_table, entry. rewrite load_store_u64_ne; [done|].
  apply slots_disjoint.
  - apply leaf_table_frame_ok.
  - eapply descend_frame_ok; [apply Hpt|apply mem_ok_nonneg, Hm|done].
  - apply p1_index_range.
  - exact Hi.
  - left. intros ->. pose proof (pt_tree _ _ Hpt _ _ _ Hpl (leaf_path_ok page) Et Ht1) as ->.
    simpl in Hlen. lia.
Qed.

Lemma leaf_slot_store v va :
  leaf_slot (store_u64 m s v) p4 va = leaf_slot m p4 va.
Proof.
  unfold leaf_slot, leaf_table. rewrite descend_store_leaf by apply leaf_path_ok. done.
Qed.

Lemma walk_store_leaf v :
  fits 64 v -> walk (store_u64 m s v) p4 page =
    if contains v PRESENT then Some (entry_addr v, entry_flags v) else None.
Proof.
  intros Hv. unfold walk. rewrite leaf_slot_store. unfold leaf_slot. rewrite Ht1. simpl.
  unfold s. rewrite load_store_u64 by done. done.
Qed.

Lemma walk_store_other v va :
  0 <= va < 2 ^ 48 -> 0 <= page < 2 ^ 48 -> va / 4096 <> page / 4096 ->
  walk (store_u64 m s v) p4 va = walk m p4 va.
Proof.
  intros Hva Hpage Hne. unfold walk. rewrite leaf_slot_store. unfold leaf_slot, leaf_table.
  destruct (descend m p4 (leaf_path va)) as [t|] eqn:Et; [|done]. simpl.
  rewrite load_store_u64_ne; [done|]. apply slots_disjoint.
  - apply leaf_table_frame_ok.
  - eapply descend_frame_ok; [apply Hpt|apply mem_ok_nonneg, Hm|done].
  - apply p1_index_range.
  - apply p1_index_range.
  - destruct (decide (t1 = t)) as [->|]; [|by left]. right. intros E. apply Hne.
    apply indices_page; [done|done| |done].
    apply (pt_tree _ _ Hpt _ _ t); [apply leaf_path_ok..|done|apply Ht1].
Qed.

Lemma is_table_store_leaf v t : is_table (store_u64 m s v) p4 t <-> is_table m p4 t.
Proof.
  unfold is_table. split; intros (l & Hl & Hd); exists l; split; try done;
    by rewrite descend_store_leaf in *.
Qed.

Lemma entry_store_leaf v t i :
  fits 64 v -> is_table m p4 t -> 0 <= i < 512 ->
  entry (store_u64 m s v) t i = if decide (t = t1 /\ i = p1_index page) then v else entry m t i.
Proof.
  intros Hv (l & Hl & Hd) Hi. unfold entry. case_decide as Hd'.
  - destruct Hd' as [-> ->]. by apply load_store_u64.
  - apply load_store_u64_ne. apply slots_disjoint; [apply leaf_table_frame_ok| |apply p1_index_range|done|].
    + eapply descend_frame_ok; [apply Hpt|apply mem_ok_nonneg, Hm|done].
    + destruct (decide (t1 = t)) as [<-|]; [right; intros E; apply Hd'; by rewrite E|by left].
Qed.

Lemma pt_ok_store_leaf v :
  fits 64 v -> entry_ok v -> pt_ok (store_u64 m s v) p4.
Proof.
  intros Hv Hu. constructor; [apply Hpt| |].
  - intros l l' t Hl Hl'. rewrite !descend_store_leaf by done. by apply Hpt.
  - intros t i Ht Hi. rewrite is_table_store_leaf in Ht. rewrite entry_store_leaf by done.
    case_decide; [done|]. by apply Hpt.
Qed.

Lemma store_leaf_frame v x : frame_of x <> t1 -> store_u64 m s v x = m x.
Proof.
  intros Hne. unfold store_u64, store_bytes. rewrite lenZ_le_bytes.
  rewrite bool_decide_eq_false_2; [done|]. intros Hx. apply Hne.
  replace x with (s + (x - s)) by lia.
  apply entry_slot_frame; [apply leaf_table_frame_ok|apply p1_index_range|lia].
Qed.

End leaf_store.

Lemma mem_ok_store m s v : mem_ok m -> mem_ok (store_u64 m s v).
Proof.
  intros Hm x. unfold store_u64, store_bytes. case_bool_decide as Hx; [|apply Hm].
  rewrite lenZ_le_bytes in Hx.
  pose proof (le_bytes_ok 8 v) as Hb. unfold bytes_ok in Hb. rewrite Forall_lookup in Hb.
  apply (Hb (Z.to_nat (x - s))). apply list_lookup_lookup_total_lt.
  rewrite length_le_bytes. lia.
Qed.

(** A leaf entry gives back the frame and the flags it was built from. *)
Lemma addr_mask_frame frame : leaf_frame_ok frame -> Z.land frame ADDR_MASK = frame.
Proof.
  intros [[Hf Ha] Hb]. change ADDR_MASK with (Z.shiftl (Z.ones 40) 12).
  change 4096 with (2 ^ 12) in Ha.
  rewrite (Z.div_mod frame (2 ^ 12)) by done. rewrite Ha, Z.add_0_r, Z.mul_comm.
  rewrite <- Z.shiftl_mul_pow2, <- Z.shiftl_land by done.
  rewrite Z.land_ones by done. rewrite Z.mod_small; [done|].
  split; [by apply Z.div_pos|]. apply Z.div_lt_upper_bound; [done|]. lia.
Qed.

Lemma leaf_entry_fields frame flags :
  leaf_frame_ok frame -> leaf_flags_ok flags ->
  fits 64 (Z.lor frame flags) /\ contains (Z.lor frame flags) PRESENT = true /\
  entry_addr (Z.lor frame flags) = frame /\ entry_flags (Z.lor frame flags) = flags.
Proof.
  intros Hfr (Hfl & Hmask & Hpres & _). pose proof (addr_mask_frame _ Hfr) as Hfm.
  destruct Hfr as [[Hf Ha] Hb]. split_and!.
  - split; [apply Z.lor_nonneg; lia|].
    destruct (decide (Z.lor frame flags = 0)) as [->|Hne]; [done|].
    apply Z.log2_lt_cancel. rewrite Z.log2_lor, Z.log2_pow2 by lia.
    assert (forall x, 0 <= x < 2 ^ 64 -> Z.log2 x < 64) as Hlog.
    { intros x Hx. destruct (decide (x = 0)) as [->|]; [done|]. apply Z.log2_lt_pow2; lia. }
    apply Z.max_lub_lt; apply Hlog; lia.
  - unfold contains in *. rewrite Z.eqb_eq in *. rewrite Z.land_lor_distr_l, Hpres.
    apply Z.bits_inj'. intros n Hn. rewrite Z.lor_spec, Z.land_spec.
    unfold PRESENT. destruct (Z.testbit 1 n); by rewrite ?andb_false_r, ?orb_true_r.
  - unfold entry_addr. by rewrite Z.land_lor_distr_l, Hfm, Hmask, Z.lor_0_r.
  - unfold entry_flags. apply Z.bits_inj'. intros n Hn.
    rewrite Z.ldiff_spec, Z.lor_spec.
    assert (Z.testbit (Z.land flags ADDR_MASK) n = false) as H1 by (by rewrite Hmask, Z.bits_0).
    assert (Z.testbit (Z.land frame ADDR_MASK) n = Z.testbit frame n) as H2 by (by rewrite Hfm).
    rewrite Z.land_spec in H1, H2.
    destruct (Z.testbit frame n), (Z.testbit flags n), (Z.testbit ADDR_MASK n); done.
Qed.

(** So writing a leaf entry maps the page. *)
Lemma walk_map_leaf m p4 page t1 frame flags :
  mem_ok m -> pt_ok m p4 -> leaf_table m p4 page = Some t1 ->
  leaf_frame_ok frame -> leaf_flags_ok flags ->
  walk (store_u64 m (entry_slot t1 (p1_index page)) (Z.lor frame flags)) p4 page
  = Some (frame, flags).
Proof.
  intros Hm Hpt Ht Hfr Hfl. destruct (leaf_entry_fields _ _ Hfr Hfl) as (Hfit & Hp & Ha & Hf).
  rewrite (walk_store_leaf m p4 page t1) by done. by rewrite Hp, Ha, Hf.
Qed.

(** ** Memory that leaves the tables alone *)

Lemma path_ok_app l k : path_ok (l ++ k) -> path_ok l.
Proof.
  intros [Hf Hl]. rewrite Forall_app in Hf. rewrite length_app in Hl. split; [apply Hf|lia].
Qed.

Lemma path_ok_0 : path_ok [0].
Proof. split; [by apply Forall_singleton|simpl; lia]. Qed.
Lemma is_table_root m p4 : is_table m p4 p4.
Proof. exists []. split; [split; [done|simpl; lia]|done]. Qed.

Lemma full_path_ok va l i r : full_path va = l ++ i :: r -> path_ok l /\ 0 <= i < 512.
Proof.
  intros Hp. assert (Hf : Forall (fun i => 0 <= i < 512) (full_path va)).
  { unfold full_path. apply Forall_app. split; [apply leaf_path_ok|]. apply Forall_singleton, p1_index_range. }
  apply (f_equal length) in Hp as Hlen. rewrite length_app in Hlen. cbn in Hlen.
  rewrite Hp in Hf. apply Forall_app in Hf as [Hl [Hi _]%Forall_cons]. split; [split; [done|lia]|done].
Qed.

Section table_ext.
Context (m m' : phys) (p4 : Z).
Hypothesis Hm : mem_ok m.
Hypothesis Hp4 : frame_ok p4.
Hypothesis Hsame : forall x, is_table m p4 (frame_of x) -> m' x = m x.

Lemma entry_ext t i : is_table m p4 t -> 0 <= i < 512 -> entry m' t i = entry m t i.
Proof.
  intros Ht Hi. unfold entry, load_u64. f_equal. apply load_bytes_ext. intros x Hx.
  apply Hsame. replace x with (entry_slot t i + (x - entry_slot t i)) by lia.
  rewrite entry_slot_frame; [done| |done|lia].
  destruct Ht as (l & _ & Hd). eapply descend_frame_ok; [done|by apply mem_ok_nonneg|done].
Qed.

Lemma descend_ext l : path_ok l -> descend m' p4 l = descend m p4 l.
Proof.
  induction l as [|i l IH] using rev_ind; intros Hl; [done|].
  pose proof (path_ok_app _ _ Hl) as Hl0. rewrite !descend_app, IH by done.
  destruct (descend m p4 l) as [t|] eqn:Et; [|done]. simpl. unfold next_table.
  destruct Hl as [Hl _]. rewrite Forall_app in Hl. destruct Hl as [_ Hi%Forall_inv].
  rewrite entry_ext; [done|by exists l|done].
Qed.

Lemma is_table_ext t : is_table m' p4 t <-> is_table m p4 t.
Proof.
  unfold is_table. split; intros (l & Hl & Hd); exists l; split; try done;
    by rewrite descend_ext in *.
Qed.

Lemma pt_ok_ext : pt_ok m p4 -> pt_ok m' p4.
Proof.
  intros [Hf Ht Hu]. constructor; [done| |].
  - intros l l' t Hl Hl'. rewrite !descend_ext by done. by apply Ht.
  - intros t i Hti Hi. rewrite is_table_ext in Hti. rewrite entry_ext by done. by apply Hu.
Qed.

Lemma vacant_ext va : vacant m p4 va -> vacant m' p4 va.
Proof.
  intros (l & i & r & t & Hp & Hd & He). pose proof (full_path_ok va l i r Hp) as [Hl Hi].
  exists l, i, r, t. rewrite descend_ext, entry_ext by (try done; by exists l). done.
Qed.

Lemma leaf_slot_ext va : leaf_slot m' p4 va = leaf_slot m p4 va.
Proof.
  unfold leaf_slot, leaf_table. by rewrite descend_ext by apply leaf_path_ok.
Qed.

Lemma walk_ext va : walk m' p4 va = walk m p4 va.
Proof.
  unfold walk. rewrite leaf_slot_ext. unfold leaf_slot.
  destruct (leaf_table m p4 va) as [t|] eqn:Et; [|done]. simpl.
  assert (entry m' t (p1_index va) = entry m t (p1_index va)) as E.
  { apply entry_ext; [|apply p1_index_range]. exists (leaf_path va). split; [|done].
    apply leaf_path_ok. }
  unfold entry in E. by rewrite E.
Qed.

End table_ext.

(** An address and its page have the same leaf. *)
Lemma full_path_frame_of va : leaf_path (frame_of va) = leaf_path va /\ p1_index (frame_of va) = p1_index va.
Proof.
  assert (forall k, 12 <= k -> Z.shiftr (frame_of va) k = Z.shiftr va k) as Hsh.
  { intros k Hk. unfold frame_of. rewrite !Z.shiftr_div_pow2 by lia.
    replace (2 ^ k) with (4096 * 2 ^ (k - 12)).
    - rewrite <- !Z.div_div by (try done; lia). by rewrite Z.div_mul.
    - change 4096 with (2 ^ 12). rewrite <- Z.pow_add_r by lia. f_equal. lia. }
  unfold leaf_path, p4_index, p3_index, p2_index, p1_index. by rewrite !Hsh by done.
Qed.
Lemma walk_frame_of m p4 va : walk m p4 (frame_of va) = walk m p4 va.
Proof.
  unfold walk, leaf_slot, leaf_table. by destruct (full_path_frame_of va) as [-> ->].
Qed.
Lemma vacant_frame_of m p4 va : vacant m p4 (frame_of va) <-> vacant m p4 va.
Proof. unfold vacant, full_path. by destruct (full_path_frame_of va) as [-> ->]. Qed.

Lemma frame_of_ok x : 0 <= x -> frame_ok (frame_of x).
Proof.
  intros Hx. unfold frame_of. split.
  - pose proof (Z.div_pos x 4096). lia.
  - by rewrite Z.mod_mul.
Qed.
Lemma frame_of_le x : frame_of x <= x < frame_of x + 4096.
Proof.
  unfold frame_of. pose proof (Z.div_mod x 4096 ltac:(done)).
  pose proof (Z.mod_pos_bound x 4096 ltac:(done)). lia.
Qed.
Lemma frame_of_unique f x : frame_ok f -> f <= x < f + 4096 -> frame_of x = f.
Proof.
  intros [_ Hf] Hx. unfold frame_of.
  pose proof (Z.div_mod f 4096 ltac:(done)) as Hd.
  replace x with (f / 4096 * 4096 + (x - f)) by lia.
  rewrite Z.div_add_l by done. rewrite (Z.div_small (x - f)) by lia. lia.
Qed.
Lemma frame_of_mod x : x mod 4096 = x - frame_of x.
Proof. unfold frame_of. pose proof (Z.div_mod x 4096 ltac:(done)). lia. Qed.
Lemma frame_of_id f : frame_ok f -> frame_of f = f.
Proof. intros Hf. apply frame_of_unique; [done|]. lia. Qed.
Lemma frame_ok_mul g : 0 <= g -> frame_ok (g * 4096).
Proof. intros Hg. split; [lia|]. by rewrite Z.mod_mul. Qed.
Lemma frame_ok_div f : frame_ok f -> f = f / 4096 * 4096.
Proof. intros [_ Hf]. pose proof (Z.div_mod f 4096 ltac:(done)). lia. Qed.

(** The frames taken were free and no longer are. *)
Lemma took_spec total fa fa' fs :
  wf total fa -> total <= BITMAP_BITS -> took fa fa' fs ->
  wf total fa' /\ num_frames fa' = num_frames fa /\
  (forall g, is_free fa' g <-> is_free fa g /\ g * 4096 ∉ fs) /\
  (forall f, f ∈ fs -> frame_ok f /\ is_free fa (f / 4096)).
Proof.
  intros Hwf Htot Ht. induction Ht as [fa|fa m f fa1 m1 fa' fs E Ht IH].
  { split_and!; [done|done| |].
    - intros g. rewrite elem_of_nil. tauto.
    - intros f Hf. by apply not_elem_of_nil in Hf. }
  destruct (allocate_frame_spec total fa m Hwf Htot)
    as [(g0 & a1 & E1 & [Hg0 _] & Hwf1 & _ & Hn1 & Hfr1)|[E1 _]];
    rewrite E in E1; [|done]. injection E1 as -> -> ->.
  destruct (IH Hwf1) as (Hwf' & Hn' & Hfr' & Hfs). change FRAME_SIZE with 4096.
  split_and!; [done|congruence| |].
  - intros g. rewrite Hfr', Hfr1, elem_of_cons. split.
    + intros [[Hg Hne] Hnot]. split; [done|]. intros [?|?]; [lia|done].
    + intros [Hg Hnot]. split; [|tauto]. split; [done|]. intros ->. tauto.
  - intros f [->|Hf]%elem_of_cons.
    + destruct Hg0 as [Hr Hb]. split; [apply frame_ok_mul; lia|]. rewrite Z.div_mul by done.
      by split.
    + destruct (Hfs f Hf) as [? [? _]%Hfr1]. done.
Qed.
