(* ===== verification/AddressSpaceCorrect.v ===== *)
(** * Correctness of address spaces

    The invariant [as_ok] of an address space, relative to the behaviour of
    the mapper ([PagingLaws]), and the theorems about [write_data],
    [try_resolve_cow], [clone_cow] and [destroy]. *)
From S2P Require Import Prelude Phys FrameAllocator FrameRefcount Paging AddressSpace.
Local Open Scope Z_scope.

(** A byte of user memory, as the processor finds it. *)
Definition user_read (m : phys) (p4 va : Z) : option Z :=
  match walk m p4 va with
  | Some (f, _) => Some (m (f + va mod 4096))
  | None => None
  end.

(** The globals: an allocator that keeps its books, bytes in RAM, bytes in
    the reference counts, and a cached mapper that is the one of its P4. *)
Record kmem_ok (total : Z) (fa : BitmapFrameAllocator) (k : kmem) : Prop := mkKmemOk {
  kmem_fa : km_fa k = Some fa;
  kmem_wf : wf total fa;
  kmem_total : total <= BITMAP_BITS;
  kmem_mem : mem_ok (km_mem k);
  kmem_rc : rc_ok (km_rc k);
  kmem_slots : forall f mp, km_slots k = Some (f, mp) -> mp = f
}.

(** A frame that holds data of [p4]: neither a table nor free. *)
Record data_frame (fa : BitmapFrameAllocator) (m : phys) (p4 f : Z) : Prop := mkDF {
  df_ok : leaf_frame_ok f;
  df_low : f < 2 ^ 46;
  df_table : ~ is_table m p4 f;
  df_free : ~ is_free fa (f / 4096)
}.

(** The page of [va] is mapped on [f] by a 4 KiB entry. *)
Definition maps (m : phys) (p4 va f : Z) : Prop :=
  exists flags, walk m p4 va = Some (f, flags) /\ contains flags HUGE_PAGE = false.

Record as_ok (total : Z) (fa : BitmapFrameAllocator) (k : kmem) (s : AddressSpace) : Prop := mkAsOk {
  as_kmem : kmem_ok total fa k;
  as_low : 0 <= p4 s < 2 ^ 46;
  as_pt : pt_ok (km_mem k) (p4 s);
  as_tables : forall t, is_table (km_mem k) (p4 s) t -> ~ is_free fa (t / 4096);
  as_pages : forall va f, mapped_pages s !! va = Some f ->
    low_page va /\ data_frame fa (km_mem k) (p4 s) f /\
    maps (km_mem k) (p4 s) va f
}.

(** No frame is mapped twice. *)
Definition inj_pages (s : AddressSpace) : Prop :=
  forall va va' f, mapped_pages s !! va = Some f -> mapped_pages s !! va' = Some f -> va = va'.

(** The memory outside the tables of [p4] and the free frames. *)
Definition data_same (fa : BitmapFrameAllocator) (p4 : Z) (m m' : phys) : Prop :=
  forall x, ~ is_table m p4 (frame_of x) -> ~ is_free fa (frame_of x / 4096) -> m' x = m x.

Section correct.
Context `{PagingLaws}.

Lemma bind_ok {S E A B} (c : M S E A) (f : A -> M S E B) s s' a :
  c s = Ret (s', Ok a) -> (c ≫= f) s = f a s'.
Proof. intros E1. unfold mbind, M_bind, mbindM. by rewrite E1. Qed.
Lemma bind_err {S E A B} (c : M S E A) (f : A -> M S E B) s s' e :
  c s = Ret (s', Err e) -> (c ≫= f) s = Ret (s', Err e).
Proof. intros E1. unfold mbind, M_bind, mbindM. by rewrite E1. Qed.

Lemma liftK_ok {S A} (c : K A) k (s : S) k' r :
  c k = Ret (k', r) -> liftK c (k, s) = Ret ((k', s), r).
Proof. intros E1. unfold liftK. by rewrite E1. Qed.

Lemma virt_phys_offset x : 0 <= x < 2 ^ 47 -> (y ← x +! PHYS_OFFSET @ 64; virt_new y) = Ret x.
Proof.
  intros Hx. rewrite add_chk_ok by (unfold PHYS_OFFSET; lia). simpl.
  unfold PHYS_OFFSET. rewrite Z.add_0_r. by apply virt_new_low.
Qed.

Lemma new_offset_mapper_ok p4 : 0 <= p4 < 2 ^ 47 -> new_offset_mapper p4 = Ret p4.
Proof.
  intros Hp. unfold new_offset_mapper. rewrite virt_phys_offset by done. simpl.
  by rewrite virt_new_low.
Qed.

(** The cache always answers the mapper of the P4 it is asked for. *)
Lemma get_or_init_ok total fa k p4 :
  kmem_ok total fa k -> 0 <= p4 < 2 ^ 47 ->
  exists k', get_or_init p4 k = Ret (k', Ok p4) /\ kmem_ok total fa k' /\
    km_mem k' = km_mem k /\ km_rc k' = km_rc k.
Proof.
  intros Hk Hp. unfold get_or_init. erewrite bind_ok by reflexivity.
  assert (exists k', ((m ← mlift (new_offset_mapper p4); k0 ← mget;
    _ ← mput (set_slots (Some (p4, m)) k0); mok m) : K Z) k = Ret (k', Ok p4) /\
    kmem_ok total fa k' /\ km_mem k' = km_mem k /\ km_rc k' = km_rc k) as Hfresh.
  { rewrite new_offset_mapper_ok by done. exists (set_slots (Some (p4, p4)) k).
    split; [reflexivity|]. split; [|done]. destruct Hk. constructor; try done.
    simpl. by intros f mp [= <- <-]. }
  destruct (km_slots k) as [[f mp]|] eqn:Es; [|done].
  case_bool_decide; [|done]. subst f. exists k. split_and!; try done.
  by rewrite (kmem_slots _ _ _ Hk _ _ Es).
Qed.

(** [as_ok] when the memory changed in data frames only. *)
Lemma as_ok_data total fa k s m' :
  as_ok total fa k s -> mem_ok m' ->
  (forall x, is_table (km_mem k) (p4 s) (frame_of x) -> m' x = km_mem k x) ->
  as_ok total fa (set_mem m' k) s.
Proof.
  intros [Hk Hlow Hpt Ht Hp] Hm Hsame. pose proof (kmem_mem _ _ _ Hk) as Hmk.
  pose proof (pt_frame _ _ Hpt) as Hf4.
  pose proof (is_table_ext _ _ _ Hmk Hf4 Hsame) as Hte.
  constructor; simpl; try done.
  - destruct Hk. by constructor.
  - by eapply pt_ok_ext.
  - intros t Htt%Hte. by apply Ht.
  - intros va f Hva. destruct (Hp va f Hva) as (? & [] & flags & Hw & Hhp). split_and!; [done| |].
    + constructor; try done. by intros Htt%Hte.
    + exists flags. by rewrite (walk_ext _ _ _ Hmk Hf4 Hsame).
Qed.

Lemma as_ok_kmem total fa fa' k k' s :
  as_ok total fa k s -> kmem_ok total fa' k' ->
  (forall x, is_table (km_mem k) (p4 s) (frame_of x) -> km_mem k' x = km_mem k x) ->
  (forall g, is_free fa' g -> is_free fa g) ->
  as_ok total fa' k' s.
Proof.
  intros [Hk Hlow Hpt Ht Hp] Hk' Hsame Hfr. pose proof (kmem_mem _ _ _ Hk) as Hmk.
  pose proof (pt_frame _ _ Hpt) as Hf4.
  pose proof (is_table_ext _ _ _ Hmk Hf4 Hsame) as Hte.
  constructor; try done.
  - by eapply pt_ok_ext.
  - intros t Htt%Hte Hf. by apply (Ht t), Hfr.
  - intros va f Hva. destruct (Hp va f Hva) as (? & [] & flags & Hw & Hhp). split_and!; [done| |].
    + constructor; try done; [by intros Htt%Hte|]. intros Hf. by apply df_free0, Hfr.
    + exists flags. by rewrite (walk_ext _ _ _ Hmk Hf4 Hsame).
Qed.

(** The pages of an address space after a call of the mapper that may have
    taken frames from the allocator. *)
Lemma as_ok_tables total fa fa' k m' s (fs : list Z) pages :
  as_ok total fa k s -> wf total fa' -> mem_ok m' -> pt_ok m' (p4 s) ->
  (forall g, is_free fa' g <-> is_free fa g /\ g * 4096 ∉ fs) ->
  (forall f, f ∈ fs -> frame_ok f /\ is_free fa (f / 4096)) ->
  (forall t, is_table m' (p4 s) t -> is_table (km_mem k) (p4 s) t \/ t ∈ fs) ->
  (forall va f, pages !! va = Some f ->
     low_page va /\ data_frame fa (km_mem k) (p4 s) f /\
     maps m' (p4 s) va f) ->
  as_ok total fa' (set_fa_mem (fa', m') k) (mkAS_ (p4 s) pages).
Proof.
  intros [Hk Hlow Hpt Ht Hp] Hwf' Hm' Hpt' Hfree' Hfs Htab Hpages.
  constructor; simpl; try done.
  - destruct Hk. by constructor.
  - intros t [Hold|Hnew]%Htab; rewrite Hfree'; [by intros [Hf _]; apply (Ht t)|].
    intros [_ Hn]. apply Hn. destruct (Hfs t Hnew) as [Hft _]. by rewrite <- frame_ok_div.
  - intros va f Hva. destruct (Hpages va f Hva) as (? & [] & ?). split_and!; [done| |done].
    constructor; try done.
    + intros [?|Hnew]%Htab; [done|]. by destruct (Hfs f Hnew).
    + rewrite Hfree'. tauto.
Qed.

Lemma do_map_to_spec total fa k s page frame flags :
  as_ok total fa k s -> low_page page -> leaf_flags_ok flags ->
  data_frame fa (km_mem k) (p4 s) frame ->
  exists fa' m' r, do_map_to (p4 s) page frame flags fa k = Ret (set_fa_mem (fa', m') k, Ok r) /\
    as_ok total fa' (set_fa_mem (fa', m') k)
      (mkAS_ (p4 s) (if is_ok r then <[page := frame]> (mapped_pages s) else mapped_pages s)) /\
    data_same fa (p4 s) (km_mem k) m' /\
    (forall g, is_free fa' g -> is_free fa g) /\
    (is_ok r = true -> walk m' (p4 s) page = Some (frame, flags)) /\
    (forall va, 0 <= va < 2 ^ 47 -> frame_of va <> page \/ is_ok r = false ->
       vacant (km_mem k) (p4 s) va -> vacant m' (p4 s) va) /\
    (vacant (km_mem k) (p4 s) page -> is_ok r = true \/ exhausted fa').
Proof.
  intros Has Hpage Hflags Hframe. pose proof Has as [Hk Hlow Hpt Ht Hp].
  destruct (map_to_spec (km_mem k) (p4 s) page frame flags fa total)
    as (fa' & m' & r & fs & E & Htook & Hm' & Hpt' & Htab & Hout & Hother & Hvac & Hprog & Hr);
    try done; [apply Hk|apply Hk|apply Hk|apply Hframe|].
  destruct (took_spec total fa fa' fs) as (Hwf' & Hn' & Hfree' & Hfs); [apply Hk|apply Hk|done|].
  exists fa', m', r. split; [unfold do_map_to; by rewrite E|].
  assert (forall va f, mapped_pages s !! va = Some f -> va <> page ->
      low_page va /\ data_frame fa (km_mem k) (p4 s) f /\
      maps m' (p4 s) va f) as Hold.
  { intros va f Hva Hne. destruct (Hp va f Hva) as (Hlp & ? & fl & Hw & Hhp). split_and!; [done|done|].
    exists fl. rewrite Hother; [done|apply Hlp|].
    rewrite frame_of_id; [done|]. destruct Hlp; split; [lia|done]. }
  split_and!.
  - eapply as_ok_tables; [done..|]. intros va f Hva. destruct r as [[]|e]; simpl in Hva.
    + destruct (decide (va = page)) as [->|Hne].
      * rewrite lookup_insert_eq in Hva. injection Hva as <-. destruct Hr as [_ Hr]. split_and!; [done|done|].
        exists flags. split; [done|]. apply Hflags.
      * rewrite lookup_insert_ne in Hva by done. by apply Hold.
    + destruct (decide (va = page)) as [->|Hne]; [|by apply Hold].
      destruct (Hp page f Hva) as (? & ? & fl & Hw & Hhp). split_and!; [done|done|].
      exists fl. by rewrite Hr.
  - intros x Hx1 Hx2. apply Hout; [|done]. intros Hin. apply Hx2. apply Hfs, Hin.
  - intros g [? _]%Hfree'. done.
  - intros Hok. destruct r; [by destruct Hr|done].
  - done.
  - intros [->|[_ ?]]%Hprog; [by left|by right].
Qed.

Lemma as_map_to_spec total fa k s page frame flags :
  as_ok total fa k s -> low_page page -> leaf_flags_ok flags ->
  data_frame fa (km_mem k) (p4 s) frame ->
  exists fa' k' s' r, as_map_to page frame flags (k, s) = Ret ((k', s'), r) /\
    as_ok total fa' k' s' /\ p4 s' = p4 s /\ km_rc k' = km_rc k /\
    data_same fa (p4 s) (km_mem k) (km_mem k') /\
    (forall g, is_free fa' g -> is_free fa g) /\
    mapped_pages s' = (if is_ok r then <[page := frame]> (mapped_pages s) else mapped_pages s) /\
    (forall va, 0 <= va < 2 ^ 47 -> frame_of va <> page \/ is_ok r = false ->
       vacant (km_mem k) (p4 s) va -> vacant (km_mem k') (p4 s') va) /\
    (vacant (km_mem k) (p4 s) page -> is_ok r = true \/ exhausted fa').
Proof.
  intros Has Hpage Hflags Hframe. pose proof Has as [Hk Hlow Hpt Ht Hp].
  unfold as_map_to. erewrite bind_ok by reflexivity. cbn beta iota.
  destruct (get_or_init_ok total fa k (p4 s) Hk ltac:(lia)) as (k1 & E1 & Hk1 & Hm1 & Hrc1).
  erewrite bind_ok by (by apply liftK_ok). erewrite bind_ok by reflexivity. cbn beta iota.
  rewrite (kmem_fa _ _ _ Hk1). erewrite bind_ok by reflexivity.
  assert (as_ok total fa k1 s) as Has1.
  { eapply as_ok_kmem; [done|done|by rewrite Hm1|done]. }
  destruct (do_map_to_spec total fa k1 s page frame flags)
    as (fa' & m' & r & E & Has' & Hds & Hfr & _ & Hvac & Hprog); [done..|by rewrite Hm1|].
  rewrite Hm1 in Hds, Hvac, Hprog. erewrite bind_ok by (by apply liftK_ok). destruct s as [p pages].
  destruct r as [[]|[]]; eexists fa', _, _, _; (split; [reflexivity|]); split_and!; try done.
Qed.

Lemma write_bytes_mem_ok m a v n : mem_ok m -> byte_ok v -> mem_ok (write_bytes m a v n).
Proof. intros Hm Hv x. unfold write_bytes. by case_bool_decide. Qed.
Lemma store_bytes_mem_ok m a data : mem_ok m -> bytes_ok data -> mem_ok (store_bytes m a data).
Proof.
  intros Hm Hd x. unfold store_bytes. case_bool_decide; [|done].
  unfold bytes_ok in Hd. rewrite Forall_lookup in Hd. eapply Hd.
  apply list_lookup_lookup_total_lt. unfold lenZ in *. lia.
Qed.

(** A zeroed frame: fresh, or the allocator has none. *)
Lemma alloc_zeroed_frame_spec total fa k :
  kmem_ok total fa k ->
  (exists f fa' k', alloc_zeroed_frame k = Ret (k', Ok f) /\ kmem_ok total fa' k' /\
     frame_ok f /\ f < 2 ^ 31 /\ is_free fa (f / 4096) /\
     (forall g, is_free fa' g <-> is_free fa g /\ g <> f / 4096) /\
     km_rc k' = km_rc k /\ num_frames fa' = num_frames fa /\
     (forall x, frame_of x = f -> km_mem k' x = 0) /\
     (forall x, frame_of x <> f -> km_mem k' x = km_mem k x)) \/
  (alloc_zeroed_frame k = Ret (k, Err "plus de frames libres"%string) /\
   forall g, is_free fa g -> num_frames fa <= g).
Proof.
  intros Hk. pose proof Hk as []. unfold alloc_zeroed_frame, alloc_frame.
  destruct (allocate_frame_spec total fa (km_mem k) kmem_wf0 kmem_total0)
    as [(f & fa' & E & ([Hr Hb] & _) & Hwf' & _ & Hnum & Hfr)|[E Hnone]].
  - left. change FRAME_SIZE with 4096 in *.
    unfold BITMAP_BITS, BITMAP_SIZE in Hr.
    pose proof (frame_ok_mul f ltac:(lia)) as Hok.
    set (m' := write_bytes (write_bytes (km_mem k) (f * 4096) 0 4096) (f * 4096) 0 4096).
    exists (f * 4096), fa', (set_fa_mem (fa', m') k). split.
    { erewrite bind_ok.
      2:{ erewrite bind_ok by reflexivity. rewrite kmem_fa0. erewrite bind_ok by reflexivity.
          rewrite E. reflexivity. }
      rewrite virt_phys_offset by lia. reflexivity. }
    rewrite Z.div_mul by done. split_and!; try done; try lia.
    + constructor; try done. simpl. by repeat apply write_bytes_mem_ok.
    + intros x Hx. simpl. apply write_bytes_in. pose proof (frame_of_le x). lia.
    + intros x Hx. simpl. unfold m'.
      rewrite !write_bytes_out; [done|..]; intros Hin; by apply Hx, frame_of_unique.
  - right. split; [|done]. erewrite bind_err; [reflexivity|]. erewrite bind_ok by reflexivity.
    rewrite kmem_fa0. erewrite bind_ok by reflexivity. rewrite E.
    destruct k; simpl in *. by subst.
Qed.

Lemma refcount_set_ok total fa k frame n :
  kmem_ok total fa k -> frame_ok frame -> byte_ok n ->
  exists rc', refcount_set frame n k = Ret (set_rc rc' k, Ok tt) /\
    kmem_ok total fa (set_rc rc' k) /\
    (forall g, frame_ok g -> rc_get rc' g = if bool_decide (g = frame) then n else rc_get (km_rc k) g).
Proof.
  intros Hk Hf Hn. destruct (rc_set_spec (km_rc k) frame n) as (rc' & E & Hok & Hget);
    [apply Hk|done..|].
  exists rc'. split_and!; [|destruct Hk; by constructor|done].
  unfold refcount_set. erewrite bind_ok by reflexivity. rewrite E. reflexivity.
Qed.

(** The frame that [alloc_zeroed_frame] took is a data frame of [p4]. *)
Lemma fresh_data_frame fa fa' m m' p4 f :
  mem_ok m -> frame_ok p4 ->
  (forall t, is_table m p4 t -> ~ is_free fa (t / 4096)) ->
  frame_ok f -> f < 2 ^ 31 -> is_free fa (f / 4096) -> ~ is_free fa' (f / 4096) ->
  (forall x, frame_of x <> f -> m' x = m x) ->
  data_frame fa' m' p4 f /\ (forall x, is_table m p4 (frame_of x) -> m' x = m x) /\
  (forall t, is_table m' p4 t <-> is_table m p4 t).
Proof.
  intros Hm Hp Ht Hf Hlt Hfree Hnf Hout.
  assert (~ is_table m p4 f) as Hnt by (intros Htt; by apply (Ht f)).
  assert (forall x, is_table m p4 (frame_of x) -> m' x = m x) as Hsame.
  { intros x Hx. apply Hout. by intros <-. }
  pose proof (is_table_ext _ _ _ Hm Hp Hsame) as Hte.
  split_and!; [|done|done]. constructor; [split; [done|lia]|lia| |done]. by rewrite Hte.
Qed.

Lemma map_alloc_spec total fa k s page flags :
  as_ok total fa k s -> low_page page -> leaf_flags_ok flags ->
  exists fa' k' s' r, map_alloc page flags (k, s) = Ret ((k', s'), r) /\
    as_ok total fa' k' s' /\ p4 s' = p4 s /\
    data_same fa (p4 s) (km_mem k) (km_mem k') /\
    (forall g, is_free fa' g -> is_free fa g) /\
    (forall va, 0 <= va < 2 ^ 47 -> frame_of va <> page \/ is_ok r = false ->
       vacant (km_mem k) (p4 s) va -> vacant (km_mem k') (p4 s') va) /\
    (vacant (km_mem k) (p4 s) page -> is_ok r = true \/ exhausted fa') /\
    match r with
    | Ok f => mapped_pages s' = <[page := f]> (mapped_pages s) /\ is_free fa (f / 4096) /\
              (forall x, frame_of x = f -> km_mem k' x = 0) /\ rc_get (km_rc k') f = 1
    | Err _ => mapped_pages s' = mapped_pages s
    end.
Proof.
  intros Has Hpage Hflags. pose proof Has as [Hk Hlow Hpt Ht Hp].
  unfold map_alloc.
  destruct (alloc_zeroed_frame_spec total fa k Hk)
    as [(f & fa1 & k1 & E1 & Hk1 & Hf & Hlt & Hff & Hfr1 & _ & _ & Hz & Hout)|[E1 Hnone]].
  2:{ erewrite bind_err by (by apply liftK_ok).
      exists fa, k, s, (Err "plus de frames libres"%string). split_and!; try done. intros _. by right. }
  erewrite bind_ok by (by apply liftK_ok).
  destruct (refcount_set_ok total fa1 k1 f 1 Hk1 Hf ltac:(done)) as (rc' & E2 & Hk2 & Hget).
  erewrite bind_ok by (by apply liftK_ok).
  destruct (fresh_data_frame fa fa1 (km_mem k) (km_mem k1) (p4 s) f)
    as (Hdf & Hsame & Hte); try done; [apply Hk|apply Hpt|rewrite Hfr1; tauto|].
  assert (as_ok total fa1 (set_rc rc' k1) s) as Has1.
  { eapply as_ok_kmem; [done|done|done|]. by intros g [? _]%Hfr1. }
  destruct (as_map_to_spec total fa1 (set_rc rc' k1) s page f flags)
    as (fa' & k' & s' & r & E3 & Has' & Hp4 & Hrc & Hds & Hfr & Hpages & Hvac & Hprog); try done.
  assert (forall va, vacant (km_mem k) (p4 s) va -> vacant (km_mem (set_rc rc' k1)) (p4 s) va) as Hv1.
  { intros va. apply vacant_ext; [apply Hk|apply Hpt|done]. }
  assert (data_same fa (p4 s) (km_mem k) (km_mem k')) as Hds'.
  { intros x Hx1 Hx2. rewrite Hds; simpl.
    - apply Hout. intros <-. done.
    - by rewrite Hte.
    - rewrite Hfr1. tauto. }
  assert (forall g, is_free fa' g -> is_free fa g) as Hfr' by (intros g [? _]%Hfr%Hfr1; done).
  destruct r as [[]|e].
  - erewrite bind_ok by done. exists fa', k', s', (Ok f). split_and!; try done.
    + intros va Hva Hne Hv. apply Hvac; [done|done|by apply Hv1].
    + by left.
    + intros x Hx. rewrite Hds; simpl; [by apply Hz|rewrite Hx; apply Hdf|rewrite Hx; apply Hdf].
    + rewrite Hrc. simpl. rewrite Hget, bool_decide_eq_true_2 by done. done.
  - erewrite bind_err by done. exists fa', k', s', (Err e). split_and!; try done.
    + intros va Hva Hne Hv. apply Hvac; [done|done|by apply Hv1].
    + intros Hv. by apply Hprog, Hv1.
Qed.

(** ** Writing user memory *)

Lemma user_read_mapped total fa k s va f :
  as_ok total fa k s -> mapped_pages s !! frame_of va = Some f ->
  user_read (km_mem k) (p4 s) va = Some (km_mem k (f + va mod 4096)).
Proof.
  intros [_ _ _ _ Hp] Hva. destruct (Hp _ _ Hva) as (_ & _ & fl & Hw & _).
  unfold user_read. rewrite <- walk_frame_of, Hw. done.
Qed.

(** An address of a data frame is not in a table. *)
Lemma data_frame_addr fa m p4 f o :
  data_frame fa m p4 f -> 0 <= o < 4096 ->
  frame_of (f + o) = f /\ ~ is_table m p4 (frame_of (f + o)) /\ ~ is_free fa (frame_of (f + o) / 4096).
Proof.
  intros [[Hf _] _ Ht Hfr] Ho. assert (frame_of (f + o) = f) as -> by (apply frame_of_unique; [done|lia]).
  done.
Qed.

(** What changed between two states of an address space when only the user
    bytes of [lo, hi) were written. *)
Record wrote (lo hi : Z) (k : kmem) (s : AddressSpace) (k' : kmem) (s' : AddressSpace) : Prop := mkWrote {
  wr_p4 : p4 s' = p4 s;
  wr_pages : mapped_pages s ⊆ mapped_pages s';
  wr_same : forall va, is_Some (mapped_pages s !! frame_of va) -> ~ (lo <= va < hi) ->
    user_read (km_mem k') (p4 s') va = user_read (km_mem k) (p4 s) va;
  wr_vacant : forall va, 0 <= va < 2 ^ 47 -> mapped_pages s' !! frame_of va = None ->
    vacant (km_mem k) (p4 s) va -> vacant (km_mem k') (p4 s') va
}.

(** Where nothing is mapped by the space, nothing is mapped at all. *)
Definition clear_pages (k : kmem) (s : AddressSpace) (lo hi : Z) : Prop :=
  forall va, lo <= va < hi -> mapped_pages s !! frame_of va = None -> vacant (km_mem k) (p4 s) va.

Lemma wrote_trans lo mid hi k1 s1 k2 s2 k3 s3 :
  lo <= mid <= hi -> wrote lo mid k1 s1 k2 s2 -> wrote mid hi k2 s2 k3 s3 -> wrote lo hi k1 s1 k3 s3.
Proof.
  intros Hm [] []. constructor; [congruence|by etrans| |].
  - intros va Hva Hn. rewrite wr_same1, wr_same0; [done|done|lia| |lia].
    destruct Hva as [f Hf]. exists f. by eapply lookup_weaken.
  - intros va Hva Hnone Hv. apply wr_vacant1; [done|done|]. apply wr_vacant0; [done| |done].
    by eapply lookup_weaken_None.
Qed.

Lemma map_alloc_wrote total fa k s page fa' k' s' (r : result Z string) lo :
  as_ok total fa k s -> as_ok total fa' k' s' -> p4 s' = p4 s ->
  data_same fa (p4 s) (km_mem k) (km_mem k') ->
  mapped_pages s !! page = None ->
  mapped_pages s' = match r with Ok f => <[page := f]> (mapped_pages s) | Err _ => mapped_pages s end ->
  (forall va, 0 <= va < 2 ^ 47 -> frame_of va <> page \/ is_ok r = false ->
     vacant (km_mem k) (p4 s) va -> vacant (km_mem k') (p4 s') va) ->
  wrote lo lo k s k' s'.
Proof.
  intros Has Has' Hp4 Hds Hnone Hpages Hvac.
  assert (mapped_pages s ⊆ mapped_pages s') as Hsub.
  { rewrite Hpages. destruct r; [by apply insert_subseteq|done]. }
  constructor; [done|done| |].
  - intros va [f Hf] _. rewrite (user_read_mapped _ _ _ _ _ f Has') by (by eapply lookup_weaken).
    rewrite (user_read_mapped _ _ _ _ _ f Has) by done. f_equal.
    destruct (as_pages _ _ _ _ Has _ _ Hf) as (_ & Hdf & _).
    destruct (data_frame_addr _ _ _ _ (va mod 4096) Hdf) as (_ & ? & ?);
      [by apply Z.mod_pos_bound|]. by apply Hds.
  - intros va Hva Hn. apply Hvac; [done|]. destruct r as [f|e]; [left|by right].
    intros E. by rewrite Hpages, E, lookup_insert_eq in Hn.
Qed.

(** Storing a chunk that stays in the page of [cur]. *)
Lemma store_chunk_wrote total fa k s cur f chunk :
  as_ok total fa k s -> inj_pages s -> 0 <= cur -> bytes_ok chunk ->
  mapped_pages s !! frame_of cur = Some f -> cur mod 4096 + lenZ chunk <= 4096 ->
  let k' := set_mem (store_bytes (km_mem k) (f + cur mod 4096) chunk) k in
  as_ok total fa k' s /\ wrote cur (cur + lenZ chunk) k s k' s /\
  forall i, 0 <= i < lenZ chunk ->
    user_read (km_mem k') (p4 s) (cur + i) = Some (chunk !!! Z.to_nat i).
Proof.
  intros Has Hinj Hcur Hb Hf Hfit k'.
  pose proof (Z.mod_pos_bound cur 4096 ltac:(done)) as Hmod.
  destruct (as_pages _ _ _ _ Has _ _ Hf) as (_ & Hdf & _).
  assert (forall x, is_table (km_mem k) (p4 s) (frame_of x) -> km_mem k' x = km_mem k x) as Htab.
  { intros x Hx. cbn [k' set_mem km_mem]. unfold store_bytes. rewrite bool_decide_eq_false_2; [done|]. intros Hin.
    destruct (data_frame_addr _ _ _ _ (x - f) Hdf) as (_ & Hnt & _); [lia|].
    apply Hnt. by replace (f + (x - f)) with x by lia. }
  assert (as_ok total fa k' s) as Has'.
  { apply as_ok_data; [done|apply store_bytes_mem_ok; [apply Has|done]|done]. }
  split; [done|]. split; [constructor; [done|done| |]|].
  - intros va [g Hg] Hn.
    rewrite !(user_read_mapped _ _ _ _ _ g) by done. f_equal. simpl. unfold store_bytes.
    rewrite bool_decide_eq_false_2; [done|]. intros Hin.
    pose proof (Z.mod_pos_bound va 4096 ltac:(done)) as Hmv.
    destruct (as_pages _ _ _ _ Has _ _ Hg) as (_ & Hdg & _).
    assert (f = g) as <-.
    { destruct (data_frame_addr _ _ _ _ (va mod 4096) Hdg) as (<- & _); [done|].
      destruct (data_frame_addr _ _ _ _ (g + va mod 4096 - f) Hdf) as (E & _); [lia|].
      rewrite <- E at 1. f_equal. lia. }
    pose proof (Hinj _ _ _ Hf Hg) as Hfr.
    rewrite !frame_of_mod in Hin. lia.
  - intros va _ _. apply vacant_ext; [apply Has|apply Has|done].
  - intros i Hi.
    assert (frame_of (cur + i) = frame_of cur) as Hfo.
    { apply frame_of_unique; [by apply frame_of_ok|]. pose proof (frame_of_le cur).
      rewrite frame_of_mod in *. lia. }
    rewrite (user_read_mapped _ _ _ _ _ f Has') by (by rewrite Hfo). f_equal. simpl.
    unfold store_bytes. rewrite !frame_of_mod, Hfo.
    rewrite bool_decide_eq_true_2 by (rewrite frame_of_mod in *; lia).
    f_equal. lia.
Qed.

Lemma inj_pages_insert total fa k s page f :
  as_ok total fa k s -> inj_pages s -> is_free fa (f / 4096) ->
  forall s', mapped_pages s' = <[page := f]> (mapped_pages s) -> inj_pages s'.
Proof.
  intros Has Hinj Hf s' Hp va va' g. rewrite Hp.
  assert (forall v, mapped_pages s !! v = Some f -> False) as Hno.
  { intros v Hv. by destruct (as_pages _ _ _ _ Has _ _ Hv) as (_ & [] & _). }
  destruct (decide (va = page)) as [->|]; destruct (decide (va' = page)) as [->|]; [done|..];
    rewrite ?lookup_insert_eq, ?lookup_insert_ne by done; intros; simplify_eq;
    [exfalso; eauto|exfalso; eauto|by eapply Hinj].
Qed.

Lemma low_page_frame_of x : 0 <= x < 2 ^ 47 -> low_page (frame_of x).
Proof.
  intros Hx. destruct (frame_of_ok x) as [? ?]; [lia|]. split; [|done].
  pose proof (frame_of_le x). lia.
Qed.

(** The store of [write_chunk], once the frame is known. *)
Lemma store_part_spec total fa k s cur f data :
  as_ok total fa k s -> inj_pages s -> 0 <= cur -> cur + lenZ data < 2 ^ 47 ->
  data <> [] -> bytes_ok data -> mapped_pages s !! frame_of cur = Some f ->
  let n := Z.min (4096 - cur mod 4096) (lenZ data) in
  exists k',
    (phys ← mlift (f +! PHYS_OFFSET @ 64); dst ← mlift (phys +! cur mod 4096 @ 64);
     _ ← liftK (modify_mem (fun m => store_bytes m dst (take (Z.to_nat n) data))); mok n) (k, s)
      = Ret ((k', s), Ok n) /\
    as_ok total fa k' s /\ 0 < n <= lenZ data /\ wrote cur (cur + n) k s k' s /\
    forall i, 0 <= i < n -> is_Some (mapped_pages s !! frame_of (cur + i)) /\
      user_read (km_mem k') (p4 s) (cur + i) = Some (data !!! Z.to_nat i).
Proof.
  intros Has Hinj Hcur Hend Hne Hb Hf n.
  assert (0 < lenZ data) as Hlen by (destruct data; [done|rewrite lenZ_cons; pose proof (lenZ_nonneg data); lia]).
  pose proof (Z.mod_pos_bound cur 4096 ltac:(done)) as Hmod. pose proof (frame_of_mod cur) as Hfm.
  set (chunk := take (Z.to_nat n) data).
  assert (lenZ chunk = n) as Hchunk by (unfold chunk, lenZ; rewrite length_take; unfold lenZ in *; lia).
  destruct (as_pages _ _ _ _ Has _ _ Hf) as (_ & [[[Hf0 _] _] Hflow _ _] & _).
  destruct (store_chunk_wrote total fa k s cur f chunk) as (Has2 & Hwr2 & Hread);
    [done..|by apply Forall_take|done|lia|].
  eexists. split.
  { unfold PHYS_OFFSET. rewrite add_chk_ok by lia. erewrite bind_ok by reflexivity.
    rewrite Z.add_0_r, add_chk_ok by lia. erewrite bind_ok by reflexivity. reflexivity. }
  split; [done|]. rewrite Hchunk in *. split; [lia|]. split; [done|]. intros i Hi. split.
  - replace (frame_of (cur + i)) with (frame_of cur); [by exists f|]. symmetry.
    apply frame_of_unique; [by apply frame_of_ok|]. lia.
  - rewrite Hread by done. f_equal. unfold chunk.
    rewrite list_lookup_total_alt, lookup_take_lt, <- list_lookup_total_alt by lia. done.
Qed.

(** Up to the lookup of the page. *)
Lemma write_chunk_unfold k s cur data flags :
  0 <= cur < 2 ^ 47 ->
  write_chunk cur data flags (k, s) =
    (frame ← match mapped_pages s !! frame_of cur with Some f => mok f | None => map_alloc (frame_of cur) flags end;
     phys ← mlift (frame +! PHYS_OFFSET @ 64); dst ← mlift (phys +! cur mod 4096 @ 64);
     _ ← liftK (modify_mem (fun m =>
           store_bytes m dst (take (Z.to_nat (Z.min (4096 - cur mod 4096) (lenZ data))) data)));
     mok (Z.min (4096 - cur mod 4096) (lenZ data))) (k, s).
Proof.
  intros Hcur. pose proof (Z.mod_pos_bound cur 4096 ltac:(done)) as Hmod. pose proof (frame_of_mod cur) as Hfm.
  unfold write_chunk. rewrite containing_spec by lia.
  rewrite (sub_chk_ok cur) by lia. erewrite bind_ok by reflexivity.
  rewrite sub_chk_ok by lia. erewrite bind_ok by reflexivity.
  erewrite bind_ok by reflexivity. cbn beta iota. by rewrite <- Hfm.
Qed.

Lemma write_chunk_spec total fa k s cur data flags :
  as_ok total fa k s -> inj_pages s -> 0 <= cur -> cur + lenZ data < 2 ^ 47 ->
  data <> [] -> bytes_ok data -> leaf_flags_ok flags ->
  exists fa' k' s' r, write_chunk cur data flags (k, s) = Ret ((k', s'), r) /\
    as_ok total fa' k' s' /\ inj_pages s' /\
    match r with
    | Ok n => 0 < n <= lenZ data /\ wrote cur (cur + n) k s k' s' /\
        (is_Some (mapped_pages s !! frame_of cur) -> s' = s) /\
        forall i, 0 <= i < n -> is_Some (mapped_pages s' !! frame_of (cur + i)) /\
          user_read (km_mem k') (p4 s') (cur + i) = Some (data !!! Z.to_nat i)
    | Err _ => wrote cur cur k s k' s' /\ mapped_pages s !! frame_of cur = None /\
        (clear_pages k s cur (cur + lenZ data) -> exhausted fa')
    end.
Proof.
  intros Has Hinj Hcur Hend Hne Hb Hfl.
  assert (0 < lenZ data) as Hlen by (destruct data; [done|rewrite lenZ_cons; pose proof (lenZ_nonneg data); lia]).
  rewrite write_chunk_unfold by lia.
  destruct (mapped_pages s !! frame_of cur) as [f|] eqn:Ef.
  - erewrite bind_ok by reflexivity.
    destruct (store_part_spec total fa k s cur f data) as (k' & E & Has' & Hn & Hwr & Hread); [done..|].
    exists fa, k', s, (Ok (Z.min (4096 - cur mod 4096) (lenZ data))). split_and!; try done; lia.
  - destruct (map_alloc_spec total fa k s (frame_of cur) flags)
      as (fa1 & k1 & s1 & r & E & Has1 & Hp4 & Hds & Hfr & Hvac & Hprog & Hr);
      [done|apply low_page_frame_of; lia|done|].
    assert (wrote cur cur k s k1 s1) as Hwr.
    { eapply (map_alloc_wrote total fa _ _ (frame_of cur) fa1 _ _ r); try done.
      by destruct r as [f|e]; [destruct Hr|]. }
    destruct r as [f|e].
    + destruct Hr as (Hpages & Hff & _). erewrite bind_ok by done.
      assert (inj_pages s1) as Hinj1 by (by eapply (inj_pages_insert total fa k s)).
      destruct (store_part_spec total fa1 k1 s1 cur f data) as (k' & E' & Has' & Hn & Hwr' & Hread);
        [done..|rewrite Hpages; apply lookup_insert_eq|].
      exists fa1, k', s1, (Ok (Z.min (4096 - cur mod 4096) (lenZ data))). split_and!; try done; try lia.
      eapply (wrote_trans cur cur); [lia|done|done].
    + erewrite bind_err by done. exists fa1, k1, s1, (Err e). split_and!; try done.
      { intros va va' g. rewrite Hr. apply Hinj. }
      intros Hclear. destruct Hprog as [?|?]; [|done|done]. apply vacant_frame_of, Hclear; [lia|done].
Qed.

Lemma write_loop_spec total flags fuel : forall fa k s cur data,
  as_ok total fa k s -> inj_pages s -> 0 <= cur -> cur + lenZ data < 2 ^ 47 ->
  (length data <= fuel)%nat -> bytes_ok data -> leaf_flags_ok flags ->
  exists fa' k' s' r, write_loop fuel cur data flags (k, s) = Ret ((k', s'), r) /\
    as_ok total fa' k' s' /\ inj_pages s' /\ wrote cur (cur + lenZ data) k s k' s' /\
    (r = Ok tt -> forall i, 0 <= i < lenZ data ->
       is_Some (mapped_pages s' !! frame_of (cur + i)) /\
       user_read (km_mem k') (p4 s') (cur + i) = Some (data !!! Z.to_nat i)) /\
    (clear_pages k s cur (cur + lenZ data) -> r = Ok tt \/ exhausted fa') /\
    ((forall i, 0 <= i < lenZ data -> is_Some (mapped_pages s !! frame_of (cur + i))) -> r = Ok tt /\ s' = s).
Proof.
  induction fuel as [|fuel IH]; intros fa k s cur data Has Hinj Hcur Hend Hfuel Hb Hfl.
  all: destruct data as [|d ds] eqn:Ed.
  1,3: exists fa, k, s, (Ok tt); rewrite lenZ_nil, Z.add_0_r in *;
       split_and!; [done|done|done|by constructor|intros _ i Hi; lia|by left|done].
  { simpl in Hfuel. lia. }
  rewrite <- Ed in *. assert (data <> []) as Hne by (by rewrite Ed).
  assert (forall F : M (kmem * AddressSpace) string unit, F = F) as _ by done.
  replace (write_loop (S fuel) cur data flags) with
    (n ← write_chunk cur data flags;
     cur ← mlift (x ← cur +! n @ 64; virt_new x);
     write_loop fuel cur (drop (Z.to_nat n) data) flags) by (by rewrite Ed).
  clear d ds Ed.
  destruct (write_chunk_spec total fa k s cur data flags)
    as (fa1 & k1 & s1 & [n|e] & E & Has1 & Hinj1 & Hr); try done.
  2:{ destruct Hr as (Hwr & Hnone & Hex). erewrite bind_err by done. exists fa1, k1, s1, (Err e). split_and!; try done.
      - eapply (wrote_trans cur cur); [pose proof (lenZ_nonneg data); lia|done|]. constructor; done.
      - intros Hc. right. by apply Hex.
      - intros Hall. destruct (Hall 0) as [f Hf]; [|by rewrite Z.add_0_r, Hnone in Hf].
        destruct data; [done|]. rewrite lenZ_cons. pose proof (lenZ_nonneg data). lia. }
  destruct Hr as (Hn & Hwr & Hsame & Hread). erewrite bind_ok by done.
  rewrite add_chk_ok by lia. cbn [mbind outcome_bind]. rewrite virt_new_low by lia.
  erewrite bind_ok by reflexivity.
  assert (lenZ (drop (Z.to_nat n) data) = lenZ data - n) as Hdrop.
  { unfold lenZ in *. rewrite length_drop. lia. }
  destruct (IH fa1 k1 s1 (cur + n) (drop (Z.to_nat n) data))
    as (fa2 & k2 & s2 & r & E2 & Has2 & Hinj2 & Hwr2 & Hread2 & Hprog2 & Hall2); try done; try lia.
  { unfold lenZ in *. rewrite length_drop. lia. }
  { by apply Forall_drop. }
  rewrite E2. exists fa2, k2, s2, r. split_and!; try done.
  { eapply (wrote_trans cur (cur + n)); [lia|done|]. rewrite Hdrop in Hwr2.
    by replace (cur + n + (lenZ data - n)) with (cur + lenZ data) in Hwr2 by lia. }
  - intros Hok i Hi. destruct (decide (i < n)) as [Hlt|Hge].
    + destruct (Hread i) as [Hs Hu]; [lia|]. split.
      * destruct Hs as [f Hf]. exists f. eapply lookup_weaken; [done|apply Hwr2].
      * rewrite (wr_same _ _ _ _ _ _ Hwr2) by (done || lia). done.
    + destruct (Hread2 Hok (i - n)) as [Hs Hu]; [lia|].
      replace (cur + n + (i - n)) with (cur + i) in * by lia. split; [done|].
      rewrite Hu. f_equal. rewrite !list_lookup_total_alt, lookup_drop. do 2 f_equal. lia.
  - intros Hc. apply Hprog2. intros va Hva Hnone. apply (wr_vacant _ _ _ _ _ _ Hwr); [lia|done|].
    apply Hc; [lia|]. eapply lookup_weaken_None; [done|apply Hwr].
  - intros Hall. assert (s1 = s) as ->. { apply Hsame. rewrite <- (Z.add_0_r cur). apply Hall. lia. }
    apply Hall2. intros i Hi. rewrite <- Z.add_assoc. apply Hall. lia.
Qed.

End correct.

(** C1.  Writing into an address space (the ELF loader's [write_data]) never
    panics on addresses of the lower half.  Where no foreign mapping is in the
    way it succeeds unless the frame allocator is left with nothing.  When it
    succeeds, every byte is found at its virtual address by the processor's
    page walk; in either case every other byte of a mapped page, and every
    mapping, is as before. *)
Theorem write_data_correct `{PagingLaws} total fa k s vaddr data flags :
  as_ok total fa k s -> inj_pages s -> 0 <= vaddr -> vaddr + lenZ data < 2 ^ 47 ->
  bytes_ok data -> leaf_flags_ok flags ->
  exists fa' k' s' r, write_data vaddr data flags (k, s) = Ret ((k', s'), r) /\
    as_ok total fa' k' s' /\ inj_pages s' /\
    mapped_pages s ⊆ mapped_pages s' /\
    (forall va, is_Some (mapped_pages s !! frame_of va) -> ~ (vaddr <= va < vaddr + lenZ data) ->
       user_read (km_mem k') (p4 s') va = user_read (km_mem k) (p4 s) va) /\
    (r = Ok tt -> forall i, 0 <= i < lenZ data ->
       user_read (km_mem k') (p4 s') (vaddr + i) = Some (data !!! Z.to_nat i)) /\
    (clear_pages k s vaddr (vaddr + lenZ data) -> r = Ok tt \/ exhausted fa').
Proof.
  intros Has Hinj Hv Hend Hb Hfl.
  destruct (write_loop_spec total flags (length data) fa k s vaddr data)
    as (fa' & k' & s' & r & E & Has' & Hinj' & Hwr & Hread & Hprog & _); try done.
  exists fa', k', s', r. split_and!; try done; [apply Hwr|apply Hwr|].
  intros Hr i Hi. by apply Hread.
Qed.
