(* ===== verification/CowCorrect.v ===== *)
(** * Copy on write

    The page-fault resolution of kernel/src/memory/cow.rs and the sharing
    set up by [clone_cow] (address_space.rs): what a fault gives the faulting
    address space, and which tables a fork leaves shared. *)
From S2P Require Import Prelude Phys FrameAllocator FrameRefcount Paging AddressSpace.
From S2P Require Import AddressSpaceCorrect.
Local Open Scope Z_scope.

(** The flags of a page after its fault is resolved. *)
Definition private_flags (flags : Z) : Z := flags_minus (Z.lor flags WRITABLE) COW_MARKER.

Lemma walk_leaf m p4 va f flags :
  walk m p4 va = Some (f, flags) ->
  exists t1, leaf_table m p4 va = Some t1 /\
    leaf_slot m p4 va = Some (entry_slot t1 (p1_index va)).
Proof.
  unfold walk, leaf_slot. destruct (leaf_table m p4 va) as [t1|]; simpl; [|done]. eauto.
Qed.

Lemma contains_testbit x k : 0 <= k -> contains x (2 ^ k) = Z.testbit x k.
Proof.
  intros Hk. unfold contains. destruct (Z.testbit x k) eqn:E.
  - apply Z.eqb_eq, Z.bits_inj'. intros n Hn.
    rewrite Z.land_spec, Z.pow2_bits_eqb by done.
    destruct (Z.eqb_spec k n) as [<-|]; [by rewrite E|by rewrite andb_false_r].
  - apply Z.eqb_neq. intros H0.
    assert (Z.testbit (Z.land x (2 ^ k)) k = true) as H1 by (by rewrite H0, Z.pow2_bits_true).
    by rewrite Z.land_spec, E in H1.
Qed.

Lemma private_flags_testbit flags n :
  0 <= n -> Z.testbit (private_flags flags) n =
    (Z.testbit flags n || (n =? 1)) && negb (n =? 9).
Proof.
  intros Hn. unfold private_flags, flags_minus.
  rewrite Z.ldiff_spec, Z.lor_spec.
  change WRITABLE with (2 ^ 1). change COW_MARKER with (2 ^ 9).
  rewrite !Z.pow2_bits_eqb by done. by rewrite (Z.eqb_sym 1), (Z.eqb_sym 9).
Qed.

(** The page becomes writable and loses its marker. *)
Lemma private_flags_writable flags :
  contains (private_flags flags) WRITABLE = true /\
  contains (private_flags flags) COW_MARKER = false.
Proof.
  change WRITABLE with (2 ^ 1). change COW_MARKER with (2 ^ 9).
  rewrite !contains_testbit, !private_flags_testbit by done. simpl.
  by rewrite orb_true_r, andb_false_r.
Qed.

Lemma testbit_lt x n k : 0 <= x < 2 ^ k -> k <= n -> Z.testbit x n = false.
Proof.
  intros Hx Hn. destruct (decide (x = 0)) as [->|]; [apply Z.bits_0|].
  apply Z.bits_above_log2; [lia|]. apply Z.lt_le_trans with k; [|done].
  apply Z.log2_lt_pow2; lia.
Qed.

Lemma lt_testbit x k : 0 <= k -> 0 <= x -> (forall n, k <= n -> Z.testbit x n = false) -> x < 2 ^ k.
Proof.
  intros Hk Hx Hhigh. destruct (decide (x = 0)) as [->|]; [lia|].
  apply Z.log2_lt_pow2; [lia|]. destruct (decide (Z.log2 x < k)); [done|].
  pose proof (Z.bit_log2 x ltac:(lia)) as H1. rewrite Hhigh in H1 by lia. done.
Qed.

Lemma load_u64_fits m a : mem_ok m -> fits 64 (load_u64 m a).
Proof.
  intros Hm. unfold load_u64, load_bytes.
  pose proof (of_le_range ((fun i => m (a + Z.of_nat i)) <$> seq 0 8)) as Hr.
  apply Hr. apply Forall_fmap, Forall_forall. intros i _. apply Hm.
Qed.

(** Flags that differ in the writable bit and the marker only. *)
Lemma leaf_flags_bits fl fl' :
  leaf_flags_ok fl -> 0 <= fl' ->
  (forall n, 0 <= n -> n <> 1 -> n <> 9 -> Z.testbit fl' n = Z.testbit fl n) ->
  leaf_flags_ok fl'.
Proof.
  intros (Hfl & Hmask & Hp & Hh) Hpos Hb. unfold leaf_flags_ok.
  change PRESENT with (2 ^ 0) in *. change HUGE_PAGE with (2 ^ 7) in *.
  rewrite !contains_testbit in * by done. rewrite !Hb by done. split_and!; try done.
  - apply lt_testbit; [done..|]. intros n Hn. rewrite Hb by lia. by apply (testbit_lt fl n 64).
  - apply Z.bits_inj'. intros n Hn. rewrite Z.land_spec, Z.bits_0.
    destruct (Z.testbit ADDR_MASK n) eqn:Ea; [|by rewrite andb_false_r].
    rewrite Hb; [|done|by intros ->|by intros ->].
    assert (Z.testbit (Z.land fl ADDR_MASK) n = false) as H1 by (by rewrite Hmask, Z.bits_0).
    by rewrite Z.land_spec, Ea in H1.
Qed.

Lemma private_flags_ok flags : leaf_flags_ok flags -> leaf_flags_ok (private_flags flags).
Proof.
  intros Hfl. eapply leaf_flags_bits; [done| |].
  - unfold private_flags, flags_minus. apply Z.ldiff_nonneg. left. apply Z.lor_nonneg.
    split; [apply Hfl|done].
  - intros n Hn H1 H9. rewrite private_flags_testbit by done.
    rewrite (proj2 (Z.eqb_neq _ _) H1), (proj2 (Z.eqb_neq _ _) H9).
    by rewrite orb_false_r, andb_true_r.
Qed.

(** The flags a walk answers have the form of flags. *)
Lemma walk_flags_ok m p4 va f flags :
  mem_ok m -> walk m p4 va = Some (f, flags) -> contains flags HUGE_PAGE = false ->
  leaf_flags_ok flags.
Proof.
  intros Hm Hw Hh. destruct (walk_leaf _ _ _ _ _ Hw) as (t1 & Ht & Hs).
  unfold walk in Hw. rewrite Hs in Hw. simpl in Hw. set (e := load_u64 m _) in Hw.
  pose proof (load_u64_fits m (entry_slot t1 (p1_index va)) Hm) as He. fold e in He.
  destruct (contains e PRESENT) eqn:Ep; [|done]. injection Hw as _ <-.
  assert (forall n, Z.testbit (entry_flags e) n = Z.testbit e n && negb (Z.testbit ADDR_MASK n)) as Hb
    by (intros n; apply Z.ldiff_spec).
  assert (0 <= entry_flags e) as Hpos by (apply Z.ldiff_nonneg; left; apply He).
  split_and!; [done| | | |done].
  - apply lt_testbit; [done..|]. intros n Hn. rewrite Hb, (testbit_lt e n 64) by done. done.
  - apply Z.bits_inj'. intros n Hn. rewrite Z.land_spec, Hb, Z.bits_0.
    by destruct (Z.testbit e n), (Z.testbit ADDR_MASK n).
  - change PRESENT with (2 ^ 0) in *. rewrite contains_testbit in * by done.
    by rewrite Hb, Ep.
Qed.

Section cow.
Context `{PagingLaws}.

(** Rewriting one leaf entry. *)
Lemma as_ok_leaf_store total fa k s page t1 v pages :
  as_ok total fa k s -> low_page page -> leaf_table (km_mem k) (p4 s) page = Some t1 ->
  fits 64 v -> entry_ok v ->
  let m' := store_u64 (km_mem k) (entry_slot t1 (p1_index page)) v in
  (forall va f, pages !! va = Some f ->
     va <> page /\ mapped_pages s !! va = Some f \/
     va = page /\ data_frame fa (km_mem k) (p4 s) f /\
       maps m' (p4 s) page f) ->
  as_ok total fa (set_mem m' k) (mkAS_ (p4 s) pages).
Proof.
  intros [Hk Hlow Hpt Ht Hp] Hpage Ht1 Hv64 Hv m' Hpages.
  pose proof (kmem_mem _ _ _ Hk) as Hm. destruct Hpage as [Hplo Hpal].
  assert (forall t, is_table m' (p4 s) t <-> is_table (km_mem k) (p4 s) t) as Hte
    by (intros t; by apply is_table_store_leaf).
  assert (forall f, data_frame fa (km_mem k) (p4 s) f -> data_frame fa m' (p4 s) f) as Hdf.
  { intros f []. constructor; try done. by rewrite Hte. }
  constructor; simpl; try done.
  - destruct Hk. constructor; try done. by apply mem_ok_store.
  - by apply pt_ok_store_leaf.
  - intros t Htt%Hte. by apply Ht.
  - intros va f Hva. destruct (Hpages va f Hva) as [[Hne Hold]|(-> & Hd & Hw)].
    + destruct (Hp va f Hold) as (Hlp & Hd & fl & Hw & Hhp). split_and!; [done|by apply Hdf|].
      exists fl. unfold m'. rewrite walk_store_other; [done|done|done|done| |lia|].
      * destruct Hlp. lia.
      * destruct Hlp as [Hlv Hla]. intros E. apply Hne.
        rewrite (Z.div_mod va 4096), (Z.div_mod page 4096) by done. lia.
    + split_and!; [done|by apply Hdf|done].
Qed.

(** A leaf store does not touch user data. *)
Lemma leaf_store_data total fa k s page t1 v x :
  as_ok total fa k s -> leaf_table (km_mem k) (p4 s) page = Some t1 ->
  ~ is_table (km_mem k) (p4 s) (frame_of x) ->
  store_u64 (km_mem k) (entry_slot t1 (p1_index page)) v x = km_mem k x.
Proof.
  intros [Hk _ Hpt _ _] Ht1 Hx. apply (store_leaf_frame (km_mem k) (p4 s)); [apply Hk|done..|].
  intros E. apply Hx. rewrite E. exists (leaf_path page). split; [apply leaf_path_ok|done].
Qed.

Definition set_page (s : AddressSpace) (page f : Z) : AddressSpace :=
  mkAS_ (p4 s) (<[page := f]> (mapped_pages s)).

(** What the fault handler promises for the page of [va], mapped on [f]
    with [flags] before and on [f'] after. *)
Record cow_resolved (fa : BitmapFrameAllocator) (k : kmem) (s : AddressSpace) (va f flags : Z)
    (k' : kmem) (f' : Z) : Prop := mkResolved {
  cr_walk : walk (km_mem k') (p4 s) va = Some (f', private_flags flags);
  cr_alone : rc_get (km_rc k) f <= 1 -> f' = f /\ km_rc k' = km_rc k;
  cr_shared : 1 < rc_get (km_rc k) f ->
    is_free fa (f' / 4096) /\ rc_get (km_rc k') f' = 1 /\
    rc_get (km_rc k') f = rc_get (km_rc k) f - 1;
  cr_view : forall va', is_Some (mapped_pages s !! frame_of va') ->
    user_read (km_mem k') (p4 s) va' = user_read (km_mem k) (p4 s) va';
  cr_old : forall x, frame_of x = f -> km_mem k' x = km_mem k x
}.

Lemma resolve_alone total fa k s va f flags :
  as_ok total fa k s -> 0 <= va < 2 ^ 47 -> mapped_pages s !! frame_of va = Some f ->
  walk (km_mem k) (p4 s) va = Some (f, flags) -> contains flags HUGE_PAGE = false ->
  rc_get (km_rc k) f <= 1 ->
  exists m', mapper_update_flags (p4 s) (frame_of va) (private_flags flags) (km_mem k) = (m', Ok tt) /\
    as_ok total fa (set_mem m' k) s /\ cow_resolved fa k s va f flags (set_mem m' k) f.
Proof.
  intros Has Hva Hf Hw Hh Hrc. pose proof (low_page_frame_of va Hva) as Hpage.
  pose proof (as_kmem _ _ _ _ Has) as Hk. pose proof (kmem_mem _ _ _ Hk) as Hm.
  pose proof (private_flags_ok _ (walk_flags_ok _ _ _ _ _ Hm Hw Hh)) as Hpf.
  rewrite <- walk_frame_of in Hw. destruct (walk_leaf _ _ _ _ _ Hw) as (t1 & Ht1 & Hs).
  destruct (as_pages _ _ _ _ Has _ _ Hf) as (_ & Hdf & _).
  eexists. split; [by eapply update_flags_spec|].
  set (m' := store_u64 _ _ _).
  assert (walk m' (p4 s) (frame_of va) = Some (f, private_flags flags)) as Hw'.
  { apply walk_map_leaf; [done|apply Has|done|apply Hdf|done]. }
  assert (as_ok total fa (set_mem m' k) s) as Has'.
  { destruct (leaf_entry_fields f (private_flags flags)) as (Hv64 & Hvp & _); [apply Hdf|done|].
    destruct s as [p pages].
    apply (as_ok_leaf_store total fa k (mkAS_ p pages)); [done..|by right|]. intros va' g Hg.
    destruct (decide (va' = frame_of va)) as [->|]; [right|by left].
    simpl in *. rewrite Hf in Hg. injection Hg as <-. split_and!; [done|done|].
    exists (private_flags flags). split; [done|]. apply Hpf. }
  split; [done|]. constructor; try done; simpl; try lia.
  - by rewrite <- walk_frame_of.
  - intros va' [g Hg]. rewrite (user_read_mapped _ _ _ _ _ g Has) by done.
    rewrite (user_read_mapped _ _ _ _ _ g Has') by done. f_equal. simpl.
    destruct (as_pages _ _ _ _ Has _ _ Hg) as (_ & Hdg & _).
    destruct (data_frame_addr _ _ _ _ (va' mod 4096) Hdg) as (_ & ? & _);
      [by apply Z.mod_pos_bound|]. by eapply leaf_store_data.
  - intros x Hx. eapply leaf_store_data; [done|done|]. rewrite Hx. apply Hdf.
Qed.

(** The state in which the copy has been made and the counts updated. *)
Lemma copy_stage total fa k s f :
  as_ok total fa k s -> data_frame fa (km_mem k) (p4 s) f ->
  1 < rc_get (km_rc k) f ->
  (exists f' fa' k1 rc1 rc2, alloc_zeroed_frame k = Ret (k1, Ok f') /\
     let k2 := set_mem (copy_mem (km_mem k1) f f' 4096) k1 in
     refcount_dec f k2 = Ret (set_rc rc1 k2, Ok (rc_get (km_rc k) f - 1)) /\
     refcount_set f' 1 (set_rc rc1 k2) = Ret (set_rc rc2 k2, Ok tt) /\
     as_ok total fa' (set_rc rc2 k2) s /\ data_frame fa' (km_mem k2) (p4 s) f' /\
     is_free fa (f' / 4096) /\ (forall g, is_free fa' g -> is_free fa g) /\
     rc_get rc2 f' = 1 /\ rc_get rc2 f = rc_get (km_rc k) f - 1 /\
     (forall va, walk (km_mem k2) (p4 s) va = walk (km_mem k) (p4 s) va) /\
     (forall o, 0 <= o < 4096 -> km_mem k2 (f' + o) = km_mem k (f + o)) /\
     (forall g, data_frame fa (km_mem k) (p4 s) g ->
        data_frame fa' (km_mem k2) (p4 s) g /\
        forall o, 0 <= o < 4096 -> km_mem k2 (g + o) = km_mem k (g + o))) \/
  alloc_zeroed_frame k = Ret (k, Err "plus de frames libres"%string) /\ exhausted fa.
Proof.
  intros Has Hdf Hrc. pose proof Has as [Hk Hlow Hpt Ht Hp].
  destruct (alloc_zeroed_frame_spec total fa k Hk)
    as [(f' & fa' & k1 & E1 & Hk1 & Hf' & Hlt & Hff & Hfr1 & Hrc1 & _ & Hz & Hout)|[E1 Hnone]];
    [left|by right].
  assert (f <> f') as Hne by (intros ->; by destruct Hdf).
  destruct Hdf as [[Hf Hf52] Hflow Hftab Hffree].
  set (m2 := copy_mem (km_mem k1) f f' 4096).
  assert (forall o, 0 <= o < 4096 -> m2 (f' + o) = km_mem k (f + o)) as Hcopy.
  { intros o Ho. unfold m2, copy_mem. rewrite bool_decide_eq_true_2 by lia.
    replace (f + (f' + o - f')) with (f + o) by lia. apply Hout.
    by rewrite (frame_of_unique f) by (done || lia). }
  assert (forall x, frame_of x <> f' -> m2 x = km_mem k x) as Hsame2.
  { intros x Hx. unfold m2, copy_mem. rewrite bool_decide_eq_false_2; [by apply Hout|].
    intros Hin. apply Hx. by apply frame_of_unique. }
  assert (mem_ok m2) as Hm2.
  { intros x. unfold m2, copy_mem. case_bool_decide; apply Hk1. }
  set (k2 := set_mem m2 k1).
  assert (kmem_ok total fa' k2) as Hk2 by (destruct Hk1; by constructor).
  destruct (rc_dec_spec (km_rc k1) f) as (rc1 & Edec & Hrc1ok & Hget1); [apply Hk1|done|].
  assert (kmem_ok total fa' (set_rc rc1 k2)) as Hk3 by (destruct Hk2; by constructor).
  destruct (refcount_set_ok total fa' (set_rc rc1 k2) f' 1 Hk3 Hf' ltac:(done))
    as (rc2 & Eset & Hk4 & Hget2).
  destruct (fresh_data_frame fa fa' (km_mem k) m2 (p4 s) f') as (Hdf' & Hsame & Hte);
    try done; [apply Hk|apply Hpt|rewrite Hfr1; tauto|].
  assert (forall g, is_free fa' g -> is_free fa g) as Hfr by (by intros g [? _]%Hfr1).
  exists f', fa', k1, rc1, rc2. split; [done|]. split_and!; try done.
  - unfold refcount_dec. erewrite bind_ok by reflexivity. simpl. rewrite Edec.
    rewrite Hrc1. replace (Z.max 0 (rc_get (km_rc k) f - 1)) with (rc_get (km_rc k) f - 1) by lia.
    reflexivity.
  - eapply as_ok_kmem; [done|done|done|done].
  - rewrite Hget2, bool_decide_eq_true_2 by done. done.
  - rewrite Hget2, bool_decide_eq_false_2 by done. simpl.
    rewrite Hget1, bool_decide_eq_true_2 by done. rewrite Hrc1. lia.
  - intros va. apply walk_ext; [apply Hk|apply Hpt|done].
  - intros g Hg. split.
    + destruct Hg as [? ? ? Hgf]. constructor; try done; [by intros Htt%Hte|].
      intros Hf1. by apply Hgf, Hfr.
    + intros o Ho. apply Hsame2. destruct (data_frame_addr _ _ _ _ o Hg Ho) as (-> & _).
      intros ->. by destruct Hg.
Qed.

(** The faulting page moved to its copy: leaf cleared, then mapped again. *)
Lemma remap_stage total fa k s va f f' flags :
  as_ok total fa k s -> 0 <= va < 2 ^ 47 -> mapped_pages s !! frame_of va = Some f ->
  walk (km_mem k) (p4 s) va = Some (f, flags) -> contains flags HUGE_PAGE = false ->
  data_frame fa (km_mem k) (p4 s) f' ->
  exists k1 fa' m' r, do_unmap (p4 s) (frame_of va) k = Ret (k1, Ok (Ok f)) /\
    km_fa k1 = Some fa /\ km_rc k1 = km_rc k /\
    do_map_to (p4 s) (frame_of va) f' (private_flags flags) fa k1 = Ret (set_fa_mem (fa', m') k1, Ok r) /\
    (forall g, is_free fa' g -> is_free fa g) /\
    (forall x, ~ is_table (km_mem k) (p4 s) (frame_of x) -> ~ is_free fa (frame_of x / 4096) ->
       m' x = km_mem k x) /\
    (is_ok r = true ->
       as_ok total fa' (set_fa_mem (fa', m') k1) (set_page s (frame_of va) f') /\
       walk m' (p4 s) va = Some (f', private_flags flags)) /\
    (is_ok r = true \/ exhausted fa').
Proof.
  intros Has Hva Hf Hw Hh Hdf'. pose proof (low_page_frame_of va Hva) as Hpage.
  pose proof (as_kmem _ _ _ _ Has) as Hk. pose proof (kmem_mem _ _ _ Hk) as Hm.
  pose proof (private_flags_ok _ (walk_flags_ok _ _ _ _ _ Hm Hw Hh)) as Hpf.
  rewrite <- walk_frame_of in Hw. destruct (walk_leaf _ _ _ _ _ Hw) as (t1 & Ht1 & Hs).
  set (m1 := store_u64 (km_mem k) (entry_slot t1 (p1_index (frame_of va))) 0).
  assert (mapper_unmap (p4 s) (frame_of va) (km_mem k) = (m1, Ok f)) as Eun
    by (by eapply unmap_spec).
  set (s0 := mkAS_ (p4 s) (delete (frame_of va) (mapped_pages s))).
  assert (as_ok total fa (set_mem m1 k) s0) as Has0.
  { apply as_ok_leaf_store; [done..|by left|]. intros va' g Hg. left.
    by apply lookup_delete_Some in Hg as [? ?]. }
  assert (forall t, is_table m1 (p4 s) t <-> is_table (km_mem k) (p4 s) t) as Hte.
  { intros t. apply is_table_store_leaf; [done|apply Has|done]. }
  assert (data_frame fa m1 (p4 s) f') as Hdf1.
  { destruct Hdf'. constructor; try done. by rewrite Hte. }
  destruct (do_map_to_spec total fa (set_mem m1 k) s0 (frame_of va) f' (private_flags flags))
    as (fa' & m' & r & E & Has' & Hds & Hfr & Hw' & _ & Hprog); try done.
  assert (vacant m1 (p4 s) (frame_of va)) as Hvac.
  { exists (leaf_path (frame_of va)), (p1_index (frame_of va)), [], t1. split; [done|].
    pose proof (as_pt _ _ _ _ Has) as Hpt. unfold m1. split.
    - rewrite (descend_store_leaf (km_mem k) (p4 s)); [done..|apply leaf_path_ok].
    - rewrite (entry_store_leaf (km_mem k) (p4 s)); [by rewrite decide_True|done..| |apply p1_index_range].
      exists (leaf_path (frame_of va)). split; [apply leaf_path_ok|done]. }
  exists (set_mem m1 k), fa', m', r. split_and!; try done.
  - unfold do_unmap. by rewrite Eun.
  - apply Hk.
  - intros x Hx1 Hx2. rewrite Hds; [by eapply leaf_store_data|simpl|done].
    by rewrite Hte.
  - intros Hr. rewrite Hr in Has'. simpl in Has'. rewrite insert_delete_eq in Has'.
    split; [done|]. rewrite <- walk_frame_of. by apply Hw'.
  - by apply Hprog.
Qed.

(** The promise of the handler from what its stages established. *)
Lemma resolved_intro total fa fa' k s va f flags k' f' :
  as_ok total fa k s -> mapped_pages s !! frame_of va = Some f ->
  as_ok total fa' k' (set_page s (frame_of va) f') ->
  walk (km_mem k') (p4 s) va = Some (f', private_flags flags) ->
  1 < rc_get (km_rc k) f -> is_free fa (f' / 4096) ->
  rc_get (km_rc k') f' = 1 -> rc_get (km_rc k') f = rc_get (km_rc k) f - 1 ->
  (forall o, 0 <= o < 4096 -> km_mem k' (f' + o) = km_mem k (f + o)) ->
  (forall g o, data_frame fa (km_mem k) (p4 s) g -> 0 <= o < 4096 ->
     km_mem k' (g + o) = km_mem k (g + o)) ->
  cow_resolved fa k s va f flags k' f'.
Proof.
  intros Has Hf Has' Hw Hrc Hfree Hr1 Hr2 Hcopy Hdata.
  constructor; try done; [lia| |].
  - intros va' [g Hg]. pose proof (Z.mod_pos_bound va' 4096 ltac:(done)) as Hmod.
    rewrite (user_read_mapped _ _ _ _ _ g Has) by done.
    destruct (as_pages _ _ _ _ Has _ _ Hg) as (_ & Hdg & _).
    destruct (decide (frame_of va' = frame_of va)) as [E|E].
    + rewrite E, Hf in Hg. injection Hg as <-.
      rewrite (user_read_mapped _ _ _ _ _ f' Has') by (rewrite E; apply lookup_insert_eq).
      by rewrite Hcopy.
    + rewrite (user_read_mapped _ _ _ _ _ g Has')
        by (simpl; by rewrite lookup_insert_ne by done). by rewrite Hdata.
  - intros x Hx. destruct (as_pages _ _ _ _ Has _ _ Hf) as (_ & Hdf & _).
    replace x with (f + (x - f)) by lia. apply Hdata; [done|]. pose proof (frame_of_le x). lia.
Qed.

(** The page moved to a private copy. *)
Lemma resolve_shared total fa k s va f flags {St} (replace : Z -> Z -> St -> St) (st : St) :
  as_ok total fa k s -> km_cr3 k = p4 s -> 0 <= va < 2 ^ 47 ->
  mapped_pages s !! frame_of va = Some f ->
  walk (km_mem k) (p4 s) va = Some (f, flags) -> contains flags HUGE_PAGE = false ->
  contains flags COW_MARKER = true -> contains flags USER_ACCESSIBLE = true ->
  1 < rc_get (km_rc k) f ->
  exists k' st' r, try_resolve_cow replace va (k, st) = Ret ((k', st'), r) /\
    (r = Ok tt \/ exists fa', km_fa k' = Some fa' /\ exhausted fa') /\
    (r = Ok tt -> exists fa' f', as_ok total fa' k' (set_page s (frame_of va) f') /\
       st' = replace (frame_of va) f' st /\ cow_resolved fa k s va f flags k' f').
Proof.
  intros Has Hcr3 Hva Hf Hw Hh Hcow Huser Hrc. pose proof (as_low _ _ _ _ Has) as Hlow.
  destruct (as_pages _ _ _ _ Has _ _ Hf) as (_ & Hdf & _).
  pose proof (df_ok _ _ _ _ Hdf) as [Hfok Hf52].
  unfold try_resolve_cow. erewrite bind_ok by reflexivity. cbn beta iota. unfold current_cr3.
  rewrite Hcr3, new_offset_mapper_ok by lia. erewrite bind_ok by reflexivity.
  rewrite (translate_walk _ _ _ _ _ Hva Hw). rewrite !containing_spec by (destruct Hfok; lia).
  rewrite (frame_of_id f) by done. erewrite bind_ok by reflexivity. cbn beta iota.
  rewrite Hcow, Huser. cbn [negb]. rewrite bool_decide_eq_false_2 by lia.
  fold (private_flags flags).
  destruct (copy_stage total fa k s f Has Hdf Hrc)
    as [(f' & fa1 & k1 & rc1 & rc2 & E1 & Edec & Eset & Has2 & Hdf' & Hfree & Hfr1 & Hr1 & Hr2
         & Hwalk & Hcopy & Hkeep)|[E1 Hex]].
  2:{ erewrite bind_err by (by apply liftK_ok). eexists k, st, (Err _). split_and!; try done. right.
      exists fa. split; [apply (as_kmem _ _ _ _ Has)|done]. }
  set (k2 := set_mem (copy_mem (km_mem k1) f f' 4096) k1) in *.
  erewrite bind_ok by (by apply liftK_ok).
  pose proof (df_low _ _ _ _ Hdf'). pose proof (df_low _ _ _ _ Hdf).
  unfold PHYS_OFFSET. rewrite !add_chk_ok by lia. rewrite !Z.add_0_r.
  do 3 erewrite bind_ok by reflexivity. fold k2.
  do 2 erewrite bind_ok by (by apply liftK_ok).
  destruct (remap_stage total fa1 (set_rc rc2 k2) s va f f' flags)
    as (k3 & fa' & m' & r & Eun & Hfa3 & Hrc3 & Emap & Hfr & Hds & Hok & Hprog);
    [done|done|done|by rewrite Hwalk|done|done|].
  erewrite bind_ok by (by apply liftK_ok). do 2 erewrite bind_ok by reflexivity.
  cbn beta iota. rewrite Hfa3.
  erewrite bind_ok by reflexivity. erewrite bind_ok by (by apply liftK_ok).
  destruct r as [[]|e].
  2:{ destruct Hprog as [?|Hex]; [done|]. eexists _, _, (Err _). split_and!; [done| |done].
      right. by exists fa'. }
  eexists _, _, (Ok tt). split; [reflexivity|]. split; [by left|]. intros _. destruct Hok as [Has' Hw']; [done|].
  assert (forall g o, data_frame fa1 (km_mem k2) (p4 s) g -> 0 <= o < 4096 ->
     m' (g + o) = km_mem k2 (g + o)) as Hm'.
  { intros g o Hg Ho. destruct (data_frame_addr _ _ _ _ o Hg Ho) as (_ & ? & ?). by apply Hds. }
  exists fa', f'. split_and!; [done|done|].
  eapply resolved_intro; try done; simpl; [by rewrite Hrc3..| |].
  - intros o Ho. rewrite Hm' by done. by apply Hcopy.
  - intros g o Hg Ho. destruct (Hkeep g Hg) as [Hg2 Hk]. rewrite Hm' by done. by apply Hk.
Qed.

End cow.

(** [try_resolve_cow] on a marked page of the current address space. *)
Lemma try_resolve_cow_spec `{PagingLaws} {St} (replace : Z -> Z -> St -> St) total fa k s st va f flags :
  as_ok total fa k s -> km_cr3 k = p4 s -> 0 <= va < 2 ^ 47 ->
  mapped_pages s !! frame_of va = Some f ->
  walk (km_mem k) (p4 s) va = Some (f, flags) ->
  contains flags COW_MARKER = true -> contains flags USER_ACCESSIBLE = true ->
  contains (private_flags flags) WRITABLE = true /\
  contains (private_flags flags) COW_MARKER = false /\
  exists k' st' r, try_resolve_cow replace va (k, st) = Ret ((k', st'), r) /\
    (rc_get (km_rc k) f <= 1 -> r = Ok tt) /\
    (r = Ok tt \/ exists fa', km_fa k' = Some fa' /\ exhausted fa') /\
    (r = Ok tt -> exists fa' f', as_ok total fa' k' (set_page s (frame_of va) f') /\
       cow_resolved fa k s va f flags k' f' /\
       st' = if bool_decide (rc_get (km_rc k) f <= 1) then st else replace (frame_of va) f' st).
Proof.
  intros Has Hcr3 Hva Hf Hw Hcow Huser.
  assert (contains flags HUGE_PAGE = false) as Hh.
  { destruct (as_pages _ _ _ _ Has _ _ Hf) as (_ & _ & fl & Hw' & Hh).
    rewrite walk_frame_of, Hw in Hw'. by injection Hw' as <-. }
  destruct (private_flags_writable flags) as [Hpw Hpc]. split; [done|]. split; [done|].
  destruct (decide (rc_get (km_rc k) f <= 1)) as [Hrc|Hrc].
  2:{ destruct (resolve_shared total fa k s va f flags replace st)
        as (k' & st' & r & E & Hprog & Hr); [done..|lia|].
      exists k', st', r. split; [done|]. split; [lia|]. split; [done|]. intros Hok.
      destruct (Hr Hok) as (fa' & f' & Has' & Hst & Hres). exists fa', f'.
      by rewrite bool_decide_eq_false_2. }
  destruct (resolve_alone total fa k s va f flags) as (m' & E & Has' & Hres); [done..|].
  pose proof (as_low _ _ _ _ Has) as Hlow.
  destruct (as_pages _ _ _ _ Has _ _ Hf) as (_ & Hdf & _).
  pose proof (df_ok _ _ _ _ Hdf) as [Hfok Hf52].
  exists (set_mem m' k), st, (Ok tt). split_and!; [|done|by left|].
  - unfold try_resolve_cow. erewrite bind_ok by reflexivity. cbn beta iota. unfold current_cr3.
    rewrite Hcr3, new_offset_mapper_ok by lia. erewrite bind_ok by reflexivity.
    rewrite (translate_walk _ _ _ _ _ Hva Hw). rewrite !containing_spec by (destruct Hfok; lia).
    rewrite (frame_of_id f) by done. erewrite bind_ok by reflexivity. cbn beta iota.
    rewrite Hcow, Huser. cbn [negb]. rewrite bool_decide_eq_true_2 by done.
    fold (private_flags flags). erewrite bind_ok.
    2:{ apply liftK_ok. unfold do_update_flags. rewrite E. reflexivity. }
    reflexivity.
  - intros _. exists fa, f. rewrite bool_decide_eq_true_2 by done. split_and!; try done.
    unfold set_page. rewrite insert_id by done. by destruct s.
Qed.
