(* ===== verification/CloneCorrect.v ===== *)
(** * Forking an address space

    [clone_cow] (kernel/src/memory/address_space.rs): what the new P4 and P3
    hold, that every writable user page of the parent becomes read-only,
    and that parent and child go on using the same P2 and P1 tables. *)
From S2P Require Import Prelude Phys FrameAllocator FrameRefcount Paging AddressSpace.
From S2P Require Import AddressSpaceCorrect CowCorrect.
Local Open Scope Z_scope.

(** ** Copying entries *)

Lemma entry_same m m' t i :
  frame_ok t -> 0 <= i < 512 -> (forall x, frame_of x = t -> m' x = m x) ->
  entry m' t i = entry m t i.
Proof.
  intros Ht Hi Hsame. unfold entry, load_u64. f_equal. apply load_bytes_ext. intros x Hx.
  apply Hsame. replace x with (entry_slot t i + (x - entry_slot t i)) by lia.
  by apply entry_slot_frame; [| |lia].
Qed.

Lemma store_entry m t i j v :
  frame_ok t -> 0 <= i < 512 -> 0 <= j < 512 -> fits 64 v ->
  entry (store_u64 m (entry_slot t i) v) t j = if bool_decide (j = i) then v else entry m t j.
Proof.
  intros Ht Hi Hj Hv. unfold entry. case_bool_decide as E.
  - subst j. by apply load_store_u64.
  - apply load_store_u64_ne. apply slots_disjoint; [done..|]. right. congruence.
Qed.

Lemma store_entry_out m t i v x :
  frame_ok t -> 0 <= i < 512 -> frame_of x <> t -> store_u64 m (entry_slot t i) v x = m x.
Proof.
  intros Ht Hi Hx. unfold store_u64, store_bytes. rewrite lenZ_le_bytes.
  rewrite bool_decide_eq_false_2; [done|]. intros Hin. apply Hx.
  replace x with (entry_slot t i + (x - entry_slot t i)) by lia.
  by apply entry_slot_frame; [| |lia].
Qed.

Lemma entry_fits m t i : mem_ok m -> fits 64 (entry m t i).
Proof. apply load_u64_fits. Qed.

Lemma copy_fold_spec dst src l m :
  frame_ok dst -> frame_ok src -> dst <> src -> mem_ok m -> NoDup l ->
  Forall (fun i => 0 <= i < 512) l ->
  let m' := fold_left (fun m i => store_u64 m (entry_slot dst i) (entry m src i)) l m in
  mem_ok m' /\ (forall x, frame_of x <> dst -> m' x = m x) /\
  (forall j, 0 <= j < 512 ->
     entry m' dst j = if bool_decide (j ∈ l) then entry m src j else entry m dst j).
Proof.
  intros Hd Hs Hne Hm Hnd Hl. revert m Hm. induction Hl as [|i l Hi Hl IH]; intros m Hm; simpl.
  { split_and!; try done. }
  apply NoDup_cons in Hnd as [Hil Hnd].
  set (m1 := store_u64 m (entry_slot dst i) (entry m src i)).
  destruct (IH Hnd m1) as (Hm' & Hout & Hin); [by apply mem_ok_store|].
  split_and!; [done| |].
  - intros x Hx. rewrite Hout by done. by apply store_entry_out.
  - intros j Hj. rewrite Hin by done.
    assert (entry m1 src j = entry m src j) as ->.
    { apply entry_same; [done..|]. intros x Hx. apply store_entry_out; [done..|congruence]. }
    unfold m1. rewrite store_entry by (done || by apply entry_fits).
    destruct (decide (j = i)) as [->|Hji].
    + rewrite (bool_decide_eq_false_2 (i ∈ l)), (bool_decide_eq_true_2 (i ∈ i :: l)),
        (bool_decide_eq_true_2 (i = i)) by (done || by left). done.
    + rewrite (bool_decide_eq_false_2 (j = i)) by done.
      rewrite (bool_decide_ext (j ∈ i :: l) (j ∈ l)); [done|]. rewrite elem_of_cons. tauto.
Qed.

Lemma copy_entries_spec m dst src lo :
  frame_ok dst -> frame_ok src -> dst <> src -> mem_ok m -> 0 <= lo <= 512 ->
  let m' := copy_entries m dst src lo in
  mem_ok m' /\ (forall x, frame_of x <> dst -> m' x = m x) /\
  (forall j, 0 <= j < 512 ->
     entry m' dst j = if bool_decide (lo <= j) then entry m src j else entry m dst j).
Proof.
  intros Hd Hs Hne Hm Hlo. unfold copy_entries.
  destruct (copy_fold_spec dst src (seqZ lo (512 - lo)) m) as (? & ? & Hin); try done.
  { apply NoDup_seqZ. }
  { apply Forall_seqZ. intros. lia. }
  split_and!; [done..|]. intros j Hj. rewrite Hin by done.
  rewrite (bool_decide_ext (j ∈ seqZ lo (512 - lo)) (lo <= j)); [done|].
  rewrite elem_of_seqZ. lia.
Qed.

(** ** The tables of the child *)

(** Below their first two tables, the trees under [p] and [n4] are one. *)
Record cloned (m : phys) (p n4 n3 : Z) : Prop := mkCloned {
  cl_n3 : descend m n4 [0] = Some n3;
  cl_below : forall l, path_ok l -> l <> [] -> l <> [0] -> descend m n4 l = descend m p l;
  cl_n4_new : ~ is_table m p n4;
  cl_n3_new : ~ is_table m p n3;
  cl_n4_ok : frame_ok n4;
  cl_ne : n4 <> n3;
  cl_used : forall i, 0 <= i < 512 -> entry_ok (entry m n4 i) /\ entry_ok (entry m n3 i)
}.

Lemma cloned_pt_ok m p n4 n3 : pt_ok m p -> cloned m p n4 n3 -> pt_ok m n4.
Proof.
  intros Hpt [H3 Hb Hn4 Hn3 Hok Hne Hu].
  assert (forall l t, path_ok l -> descend m n4 l = Some t ->
    l = [] /\ t = n4 \/ l = [0] /\ t = n3 \/
    l <> [] /\ l <> [0] /\ descend m p l = Some t) as Hcase.
  { intros l t Hl Hd. destruct (decide (l = [])) as [->|H0]; [left; by injection Hd as <-|].
    destruct (decide (l = [0])) as [->|H1]; [right; left; split; congruence|].
    right. right. rewrite Hb in Hd by done. done. }
  assert (forall l, path_ok l -> descend m p l <> Some n4 /\ descend m p l <> Some n3) as Hno.
  { intros l Hl. split; intros E; [apply Hn4|apply Hn3]; by exists l. }
  constructor; [done| |].
  - intros l l' t Hl Hl' Hd Hd'.
    destruct (Hcase _ _ Hl Hd) as [[-> ->]|[[-> ->]|(Hl0 & Hl1 & Hp)]];
    destruct (Hcase _ _ Hl' Hd') as [[-> ?]|[[-> ?]|(Hl0' & Hl1' & Hp')]]; subst; try done;
    try (by destruct (Hno _ Hl)); try (by destruct (Hno _ Hl')).
    by eapply (pt_tree _ _ Hpt).
  - intros t i (l & Hl & Hd) Hi. destruct (Hcase _ _ Hl Hd) as [[_ ->]|[[_ ->]|(_ & _ & Hp)]]; [by apply Hu..|].
    apply Hpt; [by exists l|done].
Qed.

Lemma cloned_leaf m p n4 n3 va :
  cloned m p n4 n3 ->
  leaf_table m n4 va = leaf_table m p va /\ leaf_slot m n4 va = leaf_slot m p va /\
  walk m n4 va = walk m p va.
Proof.
  intros Hc. assert (leaf_table m n4 va = leaf_table m p va) as E.
  { apply (cl_below _ _ _ _ Hc); [apply leaf_path_ok|done|done]. }
  split; [done|]. unfold walk, leaf_slot. by rewrite E.
Qed.

(** A leaf store through the parent keeps the two trees together. *)
Lemma cloned_store_leaf m p n4 n3 page t1 v :
  mem_ok m -> pt_ok m p -> cloned m p n4 n3 -> leaf_table m p page = Some t1 ->
  cloned (store_u64 m (entry_slot t1 (p1_index page)) v) p n4 n3.
Proof.
  intros Hm Hpt Hc Ht1. pose proof (cloned_pt_ok _ _ _ _ Hpt Hc) as Hptc.
  destruct (cloned_leaf _ _ _ _ page Hc) as (Htc & _).
  assert (leaf_table m n4 page = Some t1) as Ht1c by congruence.
  pose proof Hc as [H3 Hb Hn4 Hn3 Hok Hne Hu]. constructor; try done.
  - rewrite descend_store_leaf; [done..|]. apply path_ok_0.
  - intros l Hl H0 H1. rewrite !descend_store_leaf by done. by apply Hb.
  - by rewrite is_table_store_leaf.
  - by rewrite is_table_store_leaf.
  - assert (is_table m p t1) as Ht1t by (exists (leaf_path page); split; [apply leaf_path_ok|done]).
    assert (frame_ok n3) as Hn3ok by (by eapply (descend_frame_ok m n4 [0]); [|apply mem_ok_nonneg|]).
    assert (forall n, frame_ok n -> ~ is_table m p n -> forall i, 0 <= i < 512 ->
      entry (store_u64 m (entry_slot t1 (p1_index page)) v) n i = entry m n i) as Hsame.
    { intros n Hn Hnt i Hi. apply entry_same; [done..|]. intros x Hx. apply (store_leaf_frame m p); [done..|].
      intros E. apply Hnt. by rewrite <- Hx, E. }
    intros i Hi. rewrite !Hsame by done. by apply Hu.
Qed.

Lemma entry_flags_low e k :
  0 <= k < 12 -> contains (entry_flags e) (2 ^ k) = contains e (2 ^ k).
Proof.
  intros Hk. rewrite !contains_testbit by lia. unfold entry_flags. rewrite Z.ldiff_spec.
  assert (Z.testbit ADDR_MASK k = false) as ->; [|by rewrite andb_true_r].
  change ADDR_MASK with (Z.shiftl (Z.ones 40) 12). rewrite Z.shiftl_spec by lia.
  apply Z.testbit_neg_r. lia.
Qed.

Definition TABLE_FLAGS : Z := Z.lor (Z.lor PRESENT WRITABLE) USER_ACCESSIBLE.

Lemma table_entry_next m t i n :
  leaf_frame_ok n -> entry m t i = Z.lor n TABLE_FLAGS -> next_table m t i = Some n.
Proof.
  intros Hn He. assert (leaf_flags_ok TABLE_FLAGS) as Hfl by (by vm_compute).
  destruct (leaf_entry_fields n TABLE_FLAGS Hn Hfl) as (_ & Hp & Ha & Hf).
  unfold next_table. rewrite He, Hp, Ha. change HUGE_PAGE with (2 ^ 7).
  rewrite <- entry_flags_low by lia. by rewrite Hf.
Qed.

(** What [fill_tables] leaves in the fresh tables. *)
Lemma fill_tables_entries m p n4 n3 :
  mem_ok m -> pt_ok m p -> leaf_frame_ok n4 -> leaf_frame_ok n3 -> n4 <> n3 ->
  ~ is_table m p n4 -> ~ is_table m p n3 ->
  (forall x, frame_of x = n3 -> m x = 0) ->
  contains (entry m p 0) HUGE_PAGE = false ->
  forall m', m' = fill_tables p n4 n3 m ->
  mem_ok m' /\ (forall x, frame_of x <> n4 -> frame_of x <> n3 -> m' x = m x) /\
  entry m' n4 0 = Z.lor n3 TABLE_FLAGS /\
  (forall j, 1 <= j < 512 -> entry m' n4 j = entry m p j) /\
  (forall j, 0 <= j < 512 -> entry m' n3 j =
     match next_table m p 0 with Some p3 => entry m p3 j | None => 0 end).
Proof.
  intros Hm Hpt [Hn4 _] Hn3f Hne Ht4 Ht3 Hz Hh. pose proof (pt_frame _ _ Hpt) as Hp.
  pose proof (proj1 Hn3f) as Hn3.
  assert (p <> n4 /\ p <> n3) as [Hp4 Hp3].
  { split; intros <-; [apply Ht4|apply Ht3]; apply is_table_root. }
  assert (contains (entry_flags (entry m p 0)) PRESENT = contains (entry m p 0) PRESENT) as Hpres
    by (by apply (entry_flags_low _ 0)).
  intros m' ->. unfold fill_tables. rewrite Hpres. cbv zeta. fold TABLE_FLAGS.
  set (m1 := if contains (entry m p 0) PRESENT then _ else m).
  assert (mem_ok m1 /\ (forall x, frame_of x <> n3 -> m1 x = m x) /\
    forall j, 0 <= j < 512 -> entry m1 n3 j =
      match next_table m p 0 with Some p3 => entry m p3 j | None => 0 end) as (Hm1 & Hout1 & Hn3e).
  { unfold m1, next_table. rewrite Hh. destruct (contains (entry m p 0) PRESENT) eqn:Epr; simpl.
    - destruct (copy_entries_spec m n3 (entry_addr (entry m p 0)) 0) as (? & ? & Hin); try done.
      + apply entry_addr_frame_ok, entry_fits, Hm.
      + intros E. apply Ht3. exists [0]. split; [apply path_ok_0|].
        simpl. unfold next_table. rewrite Epr, Hh. simpl. by rewrite <- E.
      + split_and!; [done..|]. intros j Hj. rewrite Hin by done.
        by rewrite bool_decide_eq_true_2 by lia.
    - split_and!; [done..|]. intros j Hj. rewrite (entry_same (fun _ => 0)); [|done..].
      unfold entry, load_u64, load_bytes. reflexivity. }
  clearbody m1. set (m2 := store_u64 m1 (entry_slot n4 0) (Z.lor n3 TABLE_FLAGS)).
  assert (mem_ok m2) as Hm2 by (by apply mem_ok_store).
  destruct (copy_entries_spec m2 n4 p 1) as (Hm' & Hout & Hin); [done..|].
  assert (forall x, frame_of x <> n4 -> m2 x = m1 x) as Hout2.
  { intros x Hx. by apply store_entry_out. }
  split_and!; [done| | | |].
  - intros x Hx4 Hx3. by rewrite Hout, Hout2, Hout1.
  - rewrite Hin by done. simpl. unfold m2. rewrite store_entry; [done|done|done|done|].
    apply leaf_entry_fields; [done|by vm_compute].
  - intros j Hj. rewrite Hin, bool_decide_eq_true_2 by lia. apply entry_same; [done|lia|].
    intros x Hx. rewrite Hout2, Hout1 by congruence. done.
  - intros j Hj. rewrite <- Hn3e by done. apply entry_same; [done|done|].
    intros x Hx. rewrite Hout, Hout2 by congruence. done.
Qed.

Lemma fill_tables_cloned m p n4 n3 :
  mem_ok m -> pt_ok m p -> leaf_frame_ok n4 -> leaf_frame_ok n3 -> n4 <> n3 ->
  ~ is_table m p n4 -> ~ is_table m p n3 ->
  (forall x, frame_of x = n3 -> m x = 0) ->
  contains (entry m p 0) HUGE_PAGE = false ->
  forall m', m' = fill_tables p n4 n3 m ->
  mem_ok m' /\ (forall x, frame_of x <> n4 -> frame_of x <> n3 -> m' x = m x) /\
  cloned m' p n4 n3.
Proof.
  intros Hm Hpt Hn4 Hn3 Hne Ht4 Ht3 Hz Hh m' E. pose proof (pt_frame _ _ Hpt) as Hp.
  destruct (fill_tables_entries m p n4 n3 Hm Hpt Hn4 Hn3 Hne Ht4 Ht3 Hz Hh m' E)
    as (Hm' & Hout & He0 & He4 & He3). clear E. split; [done|]. split; [done|].
  assert (forall x, is_table m p (frame_of x) -> m' x = m x) as Hsame.
  { intros x Hx. apply Hout; intros E; rewrite E in Hx; done. }
  pose proof (is_table_ext _ _ _ Hm Hp Hsame) as Hte.
  assert (forall t i, is_table m p t -> 0 <= i < 512 -> next_table m' t i = next_table m t i) as Hnt.
  { intros t i Ht Hi. unfold next_table. by rewrite (entry_ext m m' p). }
  pose proof (is_table_root m p) as Hpp.
  pose proof (table_entry_next m' n4 0 n3 Hn3 He0) as Hn0.
  constructor; try (by rewrite Hte); try done; [by simpl; rewrite Hn0| |apply Hn4|].
  2:{ intros i Hi. split.
      - destruct (decide (i = 0)) as [->|].
        + right. rewrite He0. apply (leaf_entry_fields n3 TABLE_FLAGS); [done|by vm_compute].
        + rewrite He4 by lia. by apply Hpt.
      - rewrite He3 by done. destruct (next_table m p 0) as [p3|] eqn:E3; [|by left].
        apply Hpt; [|done]. exists [0]. split; [apply path_ok_0|]. simpl. by rewrite E3. }
  intros l [Hl Hlen] H0 H1. destruct l as [|i l]; [done|]. apply Forall_cons in Hl as [Hi Hl].
  destruct (decide (i = 0)) as [->|Hi0].
  - destruct l as [|j l]; [done|]. apply Forall_cons in Hl as [Hj Hl].
    cbn [descend]. rewrite Hn0, Hnt by done. cbn [mbind option_bind].
    unfold next_table at 1. rewrite He3 by done.
    destruct (next_table m p 0) as [p3|] eqn:E3; [|done]. cbn [mbind option_bind descend].
    rewrite (Hnt p3); [done| |done]. exists [0]. split; [apply path_ok_0|].
    simpl. by rewrite E3.
  - cbn [descend]. rewrite (Hnt p) by done. unfold next_table at 1. rewrite He4 by lia. done.
Qed.

(** ** The loops of [clone_cow] *)

Definition cow_flags (flags : Z) : Z := Z.lor (flags_minus flags WRITABLE) COW_MARKER.

Lemma cow_flags_testbit flags n :
  0 <= n -> Z.testbit (cow_flags flags) n = (Z.testbit flags n && negb (n =? 1)) || (n =? 9).
Proof.
  intros Hn. unfold cow_flags, flags_minus. rewrite Z.lor_spec, Z.ldiff_spec.
  change WRITABLE with (2 ^ 1). change COW_MARKER with (2 ^ 9).
  rewrite !Z.pow2_bits_eqb by done. by rewrite (Z.eqb_sym 1), (Z.eqb_sym 9).
Qed.

Lemma cow_flags_ok flags : leaf_flags_ok flags -> leaf_flags_ok (cow_flags flags).
Proof.
  intros Hfl. eapply leaf_flags_bits; [done| |].
  - unfold cow_flags, flags_minus. apply Z.lor_nonneg. split; [|done].
    apply Z.ldiff_nonneg. left. apply Hfl.
  - intros n Hn H1 H9. rewrite cow_flags_testbit by done.
    rewrite (proj2 (Z.eqb_neq _ _) H1), (proj2 (Z.eqb_neq _ _) H9).
    by rewrite orb_false_r, andb_true_r.
Qed.

Lemma cow_flags_writable flags : contains (cow_flags flags) WRITABLE = false.
Proof.
  change WRITABLE with (2 ^ 1). rewrite contains_testbit, cow_flags_testbit by done.
  by rewrite andb_false_r.
Qed.

(** User code cannot write the page of [va]. *)
Definition read_only (m : phys) (p4 va : Z) : Prop :=
  exists f flags, walk m p4 va = Some (f, flags) /\
    contains flags USER_ACCESSIBLE && contains flags WRITABLE = false.

(** The parent is in order and the child shares its lower tables. *)
Definition forking (total : Z) (fa : BitmapFrameAllocator) (s : AddressSpace) (n4 n3 : Z) (k : kmem) : Prop :=
  as_ok total fa k s /\ cloned (km_mem k) (p4 s) n4 n3.

Section clone.
Context `{PagingLaws}.
Context (total : Z) (fa : BitmapFrameAllocator) (s : AddressSpace) (n4 n3 : Z).

Lemma virt_page va : low_page va -> (v ← virt_new va; Ret (containing v)) = Ret va.
Proof.
  intros [Hlo Hal]. rewrite virt_new_low by done. simpl.
  rewrite containing_spec by lia. f_equal. apply frame_of_id. by split; [lia|].
Qed.

Lemma downgrade_spec k va f :
  forking total fa s n4 n3 k -> mapped_pages s !! va = Some f ->
  exists m', downgrade (p4 s) va k = Ret (set_mem m' k, Ok tt) /\
    forking total fa s n4 n3 (set_mem m' k) /\ read_only m' (p4 s) va /\
    (forall va', is_Some (mapped_pages s !! va') ->
       read_only (km_mem k) (p4 s) va' -> read_only m' (p4 s) va').
Proof.
  intros [Has Hcl] Hva. destruct (as_pages _ _ _ _ Has _ _ Hva) as (Hlp & Hdf & flags & Hw & Hh).
  pose proof (as_kmem _ _ _ _ Has) as Hk. pose proof (kmem_mem _ _ _ Hk) as Hm.
  assert (set_mem (km_mem k) k = k) as Hset by (by destruct k).
  unfold downgrade. rewrite virt_page by done. erewrite bind_ok by reflexivity.
  erewrite bind_ok by reflexivity. rewrite (translate_walk _ _ _ _ _ (proj1 Hlp) Hw).
  destruct (contains flags USER_ACCESSIBLE && contains flags WRITABLE) eqn:Erw.
  2:{ exists (km_mem k). rewrite Hset. split_and!; try done. by exists f, flags. }
  destruct (walk_leaf _ _ _ _ _ Hw) as (t1 & Ht1 & Hs). fold (cow_flags flags).
  pose proof (cow_flags_ok _ (walk_flags_ok _ _ _ _ _ Hm Hw Hh)) as Hcf.
  set (m' := store_u64 (km_mem k) (entry_slot t1 (p1_index va)) (Z.lor f (cow_flags flags))).
  assert (walk m' (p4 s) va = Some (f, cow_flags flags)) as Hw'.
  { apply walk_map_leaf; [done|apply Has|done|apply Hdf|done]. }
  assert (read_only m' (p4 s) va) as Hro.
  { exists f, (cow_flags flags). split; [done|]. by rewrite cow_flags_writable, andb_false_r. }
  exists m'. split_and!; [|split|done|].
  - erewrite bind_ok; [reflexivity|]. unfold do_update_flags.
    by rewrite (update_flags_spec _ _ _ _ _ _ _ Hlp Hs Hw).
  - destruct (leaf_entry_fields f (cow_flags flags)) as (Hv64 & Hvp & _); [apply Hdf|done|].
    destruct s as [p pages]. apply (as_ok_leaf_store total fa k (mkAS_ p pages)); [done..|by right|].
    intros va' g Hg. destruct (decide (va' = va)) as [->|]; [right|by left].
    simpl in *. rewrite Hva in Hg. injection Hg as <-. split_and!; [done|done|].
    exists (cow_flags flags). split; [done|]. apply Hcf.
  - apply cloned_store_leaf; [done|apply Has|done|done].
  - intros va' [g Hg] Hro'. destruct (decide (va' = va)) as [->|Hne]; [done|].
    destruct Hro' as (f1 & fl1 & Hw1 & Hfl1). exists f1, fl1. split; [|done].
    destruct (as_pages _ _ _ _ Has _ _ Hg) as ([Hlo' Hal'] & _). destruct Hlp as [Hlo Hal].
    unfold m'. rewrite walk_store_other; [done|done|apply Has|done|lia|lia|].
    rewrite (Z.div_mod va 4096), (Z.div_mod va' 4096) in Hne by done. lia.
Qed.

Lemma downgrade_all l k :
  forking total fa s n4 n3 k -> (forall va f, (va, f) ∈ l -> mapped_pages s !! va = Some f) ->
  exists m', mfor l (fun '(va, _) => downgrade (p4 s) va) k = Ret (set_mem m' k, Ok tt) /\
    forking total fa s n4 n3 (set_mem m' k) /\
    (forall va f, (va, f) ∈ l -> read_only m' (p4 s) va) /\
    (forall va', is_Some (mapped_pages s !! va') ->
       read_only (km_mem k) (p4 s) va' -> read_only m' (p4 s) va').
Proof.
  revert k. induction l as [|[va f] l IH]; intros k Hfk Hl.
  { exists (km_mem k). assert (set_mem (km_mem k) k = k) as -> by (by destruct k).
    split_and!; try done. intros va f Hin. by apply not_elem_of_nil in Hin. }
  destruct (downgrade_spec k va f) as (m1 & E1 & Hf1 & Hro1 & Hkeep1); [done|apply Hl; by left|].
  destruct (IH (set_mem m1 k) Hf1) as (m2 & E2 & Hf2 & Hro2 & Hkeep2).
  { intros. apply Hl. by right. }
  exists m2. cbn [mfor]. unfold mbindM. rewrite E1, E2. split_and!; try done.
  - intros va' f' [[= -> ->]|Hin]%elem_of_cons; [|by eapply Hro2].
    apply Hkeep2; [|done]. exists f. apply Hl. by left.
  - intros va' Hs Hro. by apply Hkeep2, Hkeep1.
Qed.

Lemma child_flags_all (l : list (Z * Z)) k :
  (forall va f, (va, f) ∈ l -> low_page va) ->
  exists fl, mmap (fun '(v, _) => f ← child_flags (p4 s) v; mok (v, f)) l k = Ret (k, Ok fl) /\
    fl.*1 = l.*1.
Proof.
  induction l as [|[va f] l IH]; intros Hl; [by exists []|].
  destruct IH as (fl & E & Hfl); [intros; eapply Hl; by right|].
  assert (exists x, child_flags (p4 s) va k = Ret (k, Ok x)) as [x Ex].
  { unfold child_flags. rewrite virt_new_low by (eapply Hl; by left).
    do 2 erewrite bind_ok by reflexivity.
    destruct (mapper_translate (p4 s) va (km_mem k)); by eexists. }
  exists ((va, x) :: fl). cbn [mmap]. erewrite bind_ok.
  2:{ erewrite bind_ok by done. reflexivity. }
  erewrite bind_ok by done. split; [done|]. by rewrite !fmap_cons, Hfl.
Qed.

(** A failed [map_to] of a page that is already mapped in the child. *)
Lemma forking_map_mapped k va f frame flags :
  forking total fa s n4 n3 k -> mapped_pages s !! va = Some f ->
  exists m', do_map_to n4 va frame flags fa k
      = Ret (set_fa_mem (fa, m') k, Ok (Err (PageAlreadyMapped f))) /\
    forking total fa s n4 n3 (set_fa_mem (fa, m') k) /\
    (forall va', is_Some (mapped_pages s !! va') -> walk m' (p4 s) va' = walk (km_mem k) (p4 s) va').
Proof.
  intros [Has Hcl] Hva. destruct (as_pages _ _ _ _ Has _ _ Hva) as (Hlp & _ & fl & Hw & _).
  pose proof Has as [Hk Hlow Hpt Ht Hp]. pose proof (kmem_mem _ _ _ Hk) as Hm.
  destruct (cloned_leaf _ _ _ _ va Hcl) as (_ & _ & Hwc).
  pose proof (cloned_pt_ok _ _ _ _ Hpt Hcl) as Hptc. pose proof (pt_frame _ _ Hpt) as Hp4.
  destruct (map_to_mapped (km_mem k) n4 va frame flags fa f fl)
    as (m' & E & Hm' & Hdesc & Hent & Hchg); [done|apply Hptc|done|congruence|].
  assert (forall va', walk m' (p4 s) va' = walk (km_mem k) (p4 s) va') as Hwalk.
  { intros va'. unfold walk, leaf_slot, leaf_table. rewrite Hdesc by done.
    destruct (descend (km_mem k) (p4 s) (leaf_path va')) as [t1|] eqn:Et; [|done]. simpl.
    assert (entry m' t1 (p1_index va') = entry (km_mem k) t1 (p1_index va')) as Ee;
      [|unfold entry in Ee; by rewrite Ee].
    assert (frame_ok t1) as Ht1.
    { eapply descend_frame_ok; [apply Hp4|apply mem_ok_nonneg, Hm|done]. }
    apply entry_same; [done|apply p1_index_range|]. intros x Hx.
    destruct (Hchg x) as [?|(l & i & t & Hpre & Hd & Hin)]; [done|exfalso].
    assert (path_ok (l ++ [i]) /\ (length l <= 2)%nat) as [Hli Hlen].
    { destruct (leaf_path_ok va) as [Hf3 _]. destruct Hpre as [r Hr].
      rewrite Hr, Forall_app in Hf3. pose proof (f_equal length Hr) as Hlr.
      rewrite !length_app in Hlr. simpl in Hlr. split; [split; [apply Hf3|rewrite length_app; simpl; lia]|lia]. }
    assert (0 <= i < 512) as Hi.
    { destruct Hli as [Hli _]. rewrite Forall_app in Hli. by destruct Hli as [_ Hi%Forall_inv]. }
    assert (frame_of x = t) as Hxt.
    { replace x with (entry_slot t i + (x - entry_slot t i)) by lia.
      apply entry_slot_frame; [|done|lia].
      eapply descend_frame_ok; [apply Hptc|apply mem_ok_nonneg, Hm|done]. }
    assert (l = leaf_path va') as ->; [|simpl in Hlen; lia].
    apply (pt_tree _ _ Hptc _ _ t); [by eapply path_ok_app|apply leaf_path_ok|done|].
    destruct (cloned_leaf _ _ _ _ va' Hcl) as (Htc & _). unfold leaf_table in Htc. congruence. }
  assert (forall t, is_table m' (p4 s) t <-> is_table (km_mem k) (p4 s) t) as Hte.
  { intros t. unfold is_table. by setoid_rewrite Hdesc; [|done]. }
  exists m'. split_and!; [unfold do_map_to; by rewrite E| |done].
  split.
  - constructor; simpl; try done.
    + destruct Hk. by constructor.
    + constructor; [done|intros l l' t; rewrite !Hdesc by done; by apply Hpt|].
      intros t i Htt%Hte Hi. apply Hent; [|by apply Hpt]. destruct Htt as (l & _ & Hd).
      eapply descend_frame_ok; [exact Hp4|apply mem_ok_nonneg, Hm|exact Hd].
    + intros t Htt%Hte. by apply Ht.
    + intros va' g Hg. destruct (Hp va' g Hg) as (? & [] & fl' & Hw' & Hh'). split_and!; [done| |].
      * constructor; try done. by intros Htt%Hte.
      * exists fl'. by rewrite Hwalk.
  - destruct Hcl as [H3 Hb Hn4 Hn3 Hok Hne Hu]. constructor; cbn [km_mem set_fa_mem snd]; try done.
    + by rewrite Hdesc.
    + intros l Hl Hl0 Hl1. rewrite !Hdesc by done. by apply Hb.
    + by intros Htt%Hte.
    + by intros Htt%Hte.
    + assert (frame_ok n3) by (eapply (descend_frame_ok (km_mem k) n4 [0]); [exact Hok|apply mem_ok_nonneg, Hm|exact H3]).
      intros i Hi. destruct (Hu i Hi). split; by apply Hent.
Qed.

Lemma share_page_spec k nm va f flags :
  forking total fa s n4 n3 k -> mapped_pages s !! va = Some f ->
  exists k', share_page n4 va f flags (k, nm) = Ret ((k', <[va := f]> nm), Ok tt) /\
    forking total fa s n4 n3 k' /\
    (forall va', is_Some (mapped_pages s !! va') ->
       walk (km_mem k') (p4 s) va' = walk (km_mem k) (p4 s) va') /\
    rc_get (km_rc k') f = Z.min 255 (rc_get (km_rc k) f + 1).
Proof.
  intros Hfk Hva. pose proof Hfk as [Has _].
  destruct (as_pages _ _ _ _ Has _ _ Hva) as (Hlp & [[Hfok _] _ _ _] & _).
  destruct (forking_map_mapped k va f f flags Hfk Hva) as (m' & E & Hfk' & Hwalk).
  unfold share_page. rewrite virt_page by done. erewrite bind_ok by reflexivity.
  erewrite bind_ok by reflexivity. cbn beta iota. rewrite (kmem_fa _ _ _ (as_kmem _ _ _ _ Has)).
  erewrite bind_ok by reflexivity. erewrite bind_ok by (by apply liftK_ok).
  erewrite bind_ok by reflexivity. cbn beta iota. erewrite bind_ok by reflexivity.
  set (k1 := set_fa_mem (fa, m') k) in *. destruct Hfk' as [Has1 Hcl1].
  destruct (rc_inc_spec (km_rc k1) f) as (rc' & Erc & Hrcok & Hget); [apply Has1|done|].
  exists (set_rc rc' k1). split_and!.
  - unfold refcount_inc. erewrite bind_ok.
    2:{ apply liftK_ok. erewrite bind_ok by reflexivity. rewrite Erc. reflexivity. }
    reflexivity.
  - split; [|done]. destruct Has1 as [Hk1 ? ? ? ?]. constructor; try done.
    destruct Hk1. by constructor.
  - done.
  - simpl. rewrite Hget, bool_decide_eq_true_2 by done. done.
Qed.

(** The loop over the pages: the child ends with the same pages. *)
Lemma share_all (l fl : list (Z * Z)) k nm :
  forking total fa s n4 n3 k -> length fl = length l -> nm ⊆ mapped_pages s ->
  (forall va f, (va, f) ∈ l -> mapped_pages s !! va = Some f) ->
  exists k' nm',
    mfor (zip l fl) (fun '((vaddr, frame), (_, flags)) => share_page n4 vaddr frame flags) (k, nm)
      = Ret ((k', nm'), Ok tt) /\
    forking total fa s n4 n3 k' /\ nm ⊆ nm' /\ nm' ⊆ mapped_pages s /\
    (forall va f, (va, f) ∈ l -> nm' !! va = Some f) /\
    (forall va', is_Some (mapped_pages s !! va') ->
       walk (km_mem k') (p4 s) va' = walk (km_mem k) (p4 s) va').
Proof.
  revert fl k nm. induction l as [|[va f] l IH]; intros [|[v0 x] fl] k nm Hfk Hlen Hnm Hl; try done.
  { exists k, nm. split_and!; try done. intros va f Hin. by apply not_elem_of_nil in Hin. }
  assert (mapped_pages s !! va = Some f) as Hva by (apply Hl; by left).
  destruct (share_page_spec k nm va f x Hfk Hva) as (k1 & E1 & Hfk1 & Hw1 & _).
  destruct (IH fl k1 (<[va := f]> nm) Hfk1) as (k2 & nm2 & E2 & Hfk2 & Hsub & Hnm2 & Hin2 & Hw2).
  { simpl in Hlen. congruence. }
  { by apply insert_subseteq_l. }
  { intros. apply Hl. by right. }
  exists k2, nm2. cbn [zip zip_with mfor]. unfold mbindM. rewrite E1, E2. split_and!; try done.
  - transitivity (<[va := f]> nm); [|done]. apply map_subseteq_spec. intros i y Hi.
    destruct (decide (i = va)) as [->|]; [|by rewrite lookup_insert_ne].
    rewrite lookup_insert_eq. rewrite <- Hva. by eapply lookup_weaken.
  - intros va' f' [[= -> ->]|Hin]%elem_of_cons; [|by apply Hin2].
    eapply lookup_weaken; [|done]. apply lookup_insert_eq.
  - intros va' Hs. rewrite Hw2, Hw1 by done. done.
Qed.

End clone.

(** Fewer than two frames are left. *)
Definition few_frames (fa : BitmapFrameAllocator) : Prop :=
  forall f g, is_free fa f -> f < num_frames fa -> is_free fa g -> g < num_frames fa -> f = g.

Section clone_cow.
Context `{PagingLaws}.

(** The two fresh tables of the child, filled. *)
Lemma clone_tables total fa k s :
  as_ok total fa k s -> contains (entry (km_mem k) (p4 s) 0) HUGE_PAGE = false ->
  (exists n4 n3 fa' k1 k2 k', alloc_zeroed_frame k = Ret (k1, Ok n4) /\
     alloc_zeroed_frame k1 = Ret (k2, Ok n3) /\
     k' = set_mem (fill_tables (p4 s) n4 n3 (km_mem k2)) k2 /\
     0 <= n4 < 2 ^ 47 /\ forking total fa' s n4 n3 k' /\ km_rc k' = km_rc k) \/
  ((exists k', (n4 ← alloc_zeroed_frame; n3 ← alloc_zeroed_frame; mok (n4, n3)) k
     = Ret (k', Err "plus de frames libres"%string)) /\ few_frames fa).
Proof.
  intros Has Hh. pose proof Has as [Hk Hlow Hpt Ht Hp]. pose proof (kmem_mem _ _ _ Hk) as Hm.
  destruct (alloc_zeroed_frame_spec total fa k Hk)
    as [(n4 & fa1 & k1 & E1 & Hk1 & Hok4 & Hlt4 & Hf4 & Hfr1 & Hrc1 & Hn1 & Hz1 & Hout1)|[E1 Hnone]].
  2:{ right. split; [exists k; by erewrite bind_err|]. intros f g Hf Hlt. apply Hnone in Hf. lia. }
  destruct (fresh_data_frame fa fa1 (km_mem k) (km_mem k1) (p4 s) n4) as (Hdf4 & Hs1 & Hte1);
    try done; [apply Hpt|rewrite Hfr1; tauto|].
  assert (as_ok total fa1 k1 s) as Has1.
  { eapply as_ok_kmem; [done|done|done|]. by intros g [? _]%Hfr1. }
  destruct (alloc_zeroed_frame_spec total fa1 k1 Hk1)
    as [(n3 & fa2 & k2 & E2 & Hk2 & Hok3 & Hlt3 & Hf3 & Hfr2 & Hrc2 & _ & Hz2 & Hout2)|[E2 Hnone]].
  2:{ right. split; [exists k1; erewrite bind_ok by done; by erewrite bind_err|].
      assert (forall f, is_free fa f -> f < num_frames fa -> f = n4 / 4096) as Hone.
      { intros f Hf Hlt. destruct (decide (f = n4 / 4096)); [done|].
        assert (is_free fa1 f) as Hf1 by (by apply Hfr1). apply Hnone in Hf1. lia. }
      intros f g Hf Hlf Hg Hlg. by rewrite (Hone f), (Hone g). }
  left. destruct (fresh_data_frame fa1 fa2 (km_mem k1) (km_mem k2) (p4 s) n3) as (Hdf3 & Hs2 & Hte2);
    try done; [apply Hk1|apply Hpt|apply Has1|rewrite Hfr2; tauto|].
  assert (as_ok total fa2 k2 s) as Has2.
  { eapply as_ok_kmem; [done|done|done|]. by intros g [? _]%Hfr2. }
  assert (n4 <> n3) as Hne by (intros ->; apply Hfr1 in Hf3; tauto).
  destruct (fill_tables_cloned (km_mem k2) (p4 s) n4 n3) with (m' := fill_tables (p4 s) n4 n3 (km_mem k2))
    as (Hm' & Hout & Hcl); try done.
  { apply Has2. }
  { apply Has2. }
  { split; [done|lia]. }
  { split; [done|lia]. }
  { rewrite Hte2. apply Hdf4. }
  { apply Hdf3. }
  { rewrite <- Hh. f_equal. symmetry. pose proof (is_table_root (km_mem k) (p4 s)) as Hr.
    apply entry_same; [apply Hpt|done|]. intros x Hx.
    rewrite Hs2, Hs1; [done|by rewrite Hx|]. rewrite Hx. apply is_table_root. }
  exists n4, n3, fa2, k1, k2. eexists. split_and!; try done; try lia.
  - destruct Hok4. lia.
  - split; [|done]. apply as_ok_data; [done|done|]. intros x Hx.
    apply Hout; intros E; rewrite E in Hx; [|by apply (df_table _ _ _ _ Hdf3)].
    apply Hte2 in Hx. by apply (df_table _ _ _ _ Hdf4).
  - simpl. congruence.
Qed.

(** The state a successful [clone_cow] leaves. *)
Lemma clone_cow_forking total fa k s :
  as_ok total fa k s -> contains (entry (km_mem k) (p4 s) 0) HUGE_PAGE = false ->
  ((exists k', clone_cow s k = Ret (k', Err "plus de frames libres"%string)) /\ few_frames fa) \/
  exists fa' k' n4 n3, clone_cow s k = Ret (k', Ok (mkAS_ n4 (mapped_pages s))) /\
    forking total fa' s n4 n3 k' /\
    forall va, is_Some (mapped_pages s !! va) -> read_only (km_mem k') (p4 s) va.
Proof.
  intros Has Hh.
  destruct (clone_tables total fa k s Has Hh)
    as [(n4 & n3 & fa1 & k1 & k2 & k3 & E1 & E2 & Ek3 & Hn4 & Hfk & Hrc)|[(k' & E) Hfew]].
  2:{ left. split; [|done]. exists k'. unfold clone_cow. revert E. unfold mbind, M_bind, mbindM, mok.
      destruct (alloc_zeroed_frame k) as [[k1 [n4|e]]|]; [|intros [= -> ->]; done|done].
      destruct (alloc_zeroed_frame k1) as [[k2 [n3|e]]|]; [done|intros [= -> ->]; done|done]. }
  right. unfold clone_cow. erewrite bind_ok by done. erewrite bind_ok by done.
  erewrite bind_ok by reflexivity. rewrite <- Ek3. clear Ek3.
  assert (forall va f, (va, f) ∈ btree_iter (mapped_pages s) -> mapped_pages s !! va = Some f) as Hiter
    by (intros; by apply elem_of_btree_iter).
  pose proof Hfk as [Has3 Hcl3]. pose proof (as_low _ _ _ _ Has3) as Hlow.
  destruct (get_or_init_ok total fa1 k3 (p4 s)) as (k4 & E4 & Hk4 & Hm4 & _); [apply Has3|lia|].
  erewrite bind_ok by done.
  assert (forking total fa1 s n4 n3 k4) as Hfk4.
  { split; [|by rewrite Hm4]. eapply as_ok_kmem; [done|done|by rewrite Hm4|done]. }
  destruct (downgrade_all total fa1 s n4 n3 (btree_iter (mapped_pages s)) k4 Hfk4 Hiter)
    as (m5 & E5 & Hfk5 & Hro5 & _). erewrite bind_ok by done.
  set (k5 := set_mem m5 k4) in *. pose proof Hfk5 as [Has5 Hcl5].
  destruct (get_or_init_ok total fa1 k5 (p4 s)) as (k6 & E6 & Hk6 & Hm6 & _); [apply Has5|lia|].
  erewrite bind_ok by done.
  assert (forking total fa1 s n4 n3 k6) as Hfk6.
  { split; [|by rewrite Hm6]. eapply as_ok_kmem; [done|done|by rewrite Hm6|done]. }
  destruct (child_flags_all s (btree_iter (mapped_pages s)) k6) as (fl & E7 & Hfl).
  { intros va f Hin%Hiter. eapply as_pages; [apply Has3|done]. }
  erewrite bind_ok by done. erewrite bind_ok by reflexivity. rewrite (kmem_fa _ _ _ Hk6).
  erewrite bind_ok by reflexivity. rewrite new_offset_mapper_ok by done.
  erewrite bind_ok by reflexivity.
  destruct (share_all total fa1 s n4 n3 (btree_iter (mapped_pages s)) fl k6 ∅)
    as (k8 & nm & E8 & Hfk8 & _ & Hsub & Hall & Hw); [done| |apply map_empty_subseteq|done|].
  { by rewrite <- (length_fmap fst fl), Hfl, length_fmap. }
  erewrite bind_ok.
  2:{ unfold run_on. rewrite E8. reflexivity. }
  assert (nm = mapped_pages s) as ->.
  { apply (anti_symm (⊆)); [done|]. apply map_subseteq_spec. intros va f Hva.
    apply Hall. by apply elem_of_btree_iter. }
  exists fa1, k8, n4, n3. split_and!; [reflexivity|done|].
  intros va Hva. pose proof Hva as [f Hf].
  destruct (Hro5 va f) as (g & fl' & Hwg & Hfl'); [by apply elem_of_btree_iter|].
  exists g, fl'. split; [|done]. rewrite Hw by done. by rewrite Hm6.
Qed.

End clone_cow.


(** Property.  A fork copies only the P4 and the first P3: parent and child keep the
    same leaf entry for every page.  So the mapping of a page cannot be
    changed in one alone: when the parent's page is unmapped, as the
    copy-on-write handler does before it maps the private copy, the child's
    is gone too. *)
Theorem clone_cow_shares_leaves `{PagingLaws} total fa k s k' child va :
  as_ok total fa k s -> contains (entry (km_mem k) (p4 s) 0) HUGE_PAGE = false ->
  clone_cow s k = Ret (k', Ok child) -> is_Some (mapped_pages s !! va) ->
  is_Some (leaf_slot (km_mem k') (p4 s) va) /\
  leaf_slot (km_mem k') (p4 child) va = leaf_slot (km_mem k') (p4 s) va /\
  p4 child <> p4 s /\
  exists m' f, mapper_unmap (p4 s) va (km_mem k') = (m', Ok f) /\
    walk m' (p4 s) va = None /\ walk m' (p4 child) va = None.
Proof.
  intros Has Hh E [f Hf]. destruct (clone_cow_forking total fa k s Has Hh)
    as [[[k0 E0] _]|(fa' & k0 & n4 & n3 & E0 & [Has' Hcl] & Hro)]; [congruence|].
  rewrite E in E0. injection E0 as -> ->. simpl.
  destruct (as_pages _ _ _ _ Has' _ _ Hf) as (Hlp & _ & fl & Hw & Hhp).
  pose proof (kmem_mem _ _ _ (as_kmem _ _ _ _ Has')) as Hm.
  pose proof (as_pt _ _ _ _ Has') as Hpt. pose proof (cloned_pt_ok _ _ _ _ Hpt Hcl) as Hptc.
  destruct (walk_leaf _ _ _ _ _ Hw) as (t1 & Ht1 & Hs).
  destruct (cloned_leaf _ _ _ _ va Hcl) as (Htc & Hsc & Hwc).
  split; [by rewrite Hs|]. split; [done|]. split.
  { intros ->. apply (cl_n4_new _ _ _ _ Hcl). apply is_table_root. }
  eexists _, f. split; [by eapply unmap_spec|].
  split; (rewrite (walk_store_leaf _ _ _ t1); [done|done|done|congruence|done]).
Qed.

(** ** A fresh space *)

Lemma alloc_zeroed_frame_cr3 `{X86Paging} k k' r :
  alloc_zeroed_frame k = Ret (k', r) -> km_cr3 k' = km_cr3 k.
Proof.
  revert k' r. change (wp alloc_zeroed_frame (fun k' _ => km_cr3 k' = km_cr3 k) k).
  unfold alloc_zeroed_frame, alloc_frame, ok_or, modify_mem.
  wp_steps; try done. intros k' r [= <- <-]. by wp_steps.
Qed.

(** Property.  A fresh user space is filled from the page table that is active.
    While a process runs (as in its exec system call) that is the process's
    own: the new space then has every page of the caller mapped, on the
    caller's frames and with its rights, although its own record of mapped
    pages is empty. *)
Theorem new_user_inherits_mappings `{PagingLaws} total fa k s k' new :
  as_ok total fa k s -> km_cr3 k = p4 s -> contains (entry (km_mem k) (p4 s) 0) HUGE_PAGE = false ->
  new_user k = Ret (k', Ok new) ->
  mapped_pages new = ∅ /\ p4 new <> p4 s /\
  (forall va, leaf_slot (km_mem k') (p4 new) va = leaf_slot (km_mem k') (p4 s) va) /\
  forall va f, mapped_pages s !! va = Some f ->
    exists flags, walk (km_mem k') (p4 new) va = Some (f, flags).
Proof.
  intros Has Hcr3 Hh. unfold new_user.
  destruct (clone_tables total fa k s Has Hh)
    as [(n4 & n3 & fa1 & k1 & k2 & k3 & E1 & E2 & Ek3 & Hn4 & [Has3 Hcl] & Hrc)|[(k0 & E) _]].
  2:{ revert E. unfold mbind, M_bind, mbindM, mok.
      destruct (alloc_zeroed_frame k) as [[k1 [n4|e]]|]; [|done|done].
      destruct (alloc_zeroed_frame k1) as [[k2 [n3|e]]|]; done. }
  erewrite bind_ok by done. erewrite bind_ok by done. erewrite bind_ok by reflexivity.
  apply alloc_zeroed_frame_cr3 in E1, E2. unfold current_cr3. rewrite E2, E1, Hcr3.
  erewrite bind_ok by reflexivity. rewrite <- Ek3. clear Ek3.
  unfold mok. intros [= <- <-]. simpl. split_and!; [done| |intros va; apply (cloned_leaf _ _ _ _ va Hcl)|].
  - intros ->. apply (cl_n4_new _ _ _ _ Hcl). apply is_table_root.
  - intros va f Hf. destruct (as_pages _ _ _ _ Has3 _ _ Hf) as (_ & _ & fl & Hw & _).
    exists fl. rewrite <- Hw. apply (cloned_leaf _ _ _ _ va Hcl).
Qed.
