(* ===== verification/DestroyCorrect.v ===== *)
(** * Tearing down an address space

    [AddressSpace::destroy] (kernel/src/memory/address_space.rs): one
    reference of every mapped frame is dropped, and the frames whose count
    reaches zero go back to the allocator, with the P4. *)
From S2P Require Import Prelude Phys FrameAllocator FrameRefcount Paging AddressSpace.
From S2P Require Import AddressSpaceCorrect.
Local Open Scope Z_scope.

(** A frame the allocator could take back. *)
Definition held (fa : BitmapFrameAllocator) (f : Z) : Prop :=
  frame_ok f /\ 0 <= f / 4096 < BITMAP_BITS /\ ~ is_free fa (f / 4096).

(** What [destroy] does to the frames [fs]: freed when the count was at most
    one, one reference less otherwise. *)
Definition released (fs : list Z) (fa : BitmapFrameAllocator) (k : kmem)
    (fa' : BitmapFrameAllocator) (k' : kmem) : Prop :=
  (forall g, is_free fa' g <->
     is_free fa g \/ exists f, f ∈ fs /\ g = f / 4096 /\ rc_get (km_rc k) f <= 1) /\
  (forall f, frame_ok f -> rc_get (km_rc k') f =
     if bool_decide (f ∈ fs) then Z.max 0 (rc_get (km_rc k) f - 1) else rc_get (km_rc k) f) /\
  km_mem k' = km_mem k.

Lemma free_frame_ok total fa k f :
  kmem_ok total fa k -> held fa f -> 0 < used fa ->
  exists fa', free_frame f k = Ret (set_fa_mem (fa', km_mem k) k, Ok tt) /\
    kmem_ok total fa' (set_fa_mem (fa', km_mem k) k) /\ used fa' = used fa - 1 /\
    forall g, is_free fa' g <-> is_free fa g \/ g = f / 4096.
Proof.
  intros Hk (Hf & Hr & Hnf) Hu.
  destruct (deallocate_frame_used total fa (f / 4096)) as (fa' & E & Hwf & Hu' & _ & Hfr);
    [apply Hk|done..|].
  exists fa'. change FRAME_SIZE with 4096 in E. rewrite <- (frame_ok_div f Hf) in E.
  split_and!; [|destruct Hk; by constructor|done|done].
  unfold free_frame. erewrite bind_ok by reflexivity. rewrite (kmem_fa _ _ _ Hk), E. reflexivity.
Qed.

Lemma release_frame_ok total fa k f :
  kmem_ok total fa k -> held fa f -> 0 < used fa ->
  exists fa' k', release_frame f k = Ret (k', Ok tt) /\ kmem_ok total fa' k' /\
    used fa - 1 <= used fa' /\ released [f] fa k fa' k'.
Proof.
  intros Hk Hh Hu. pose proof Hh as (Hf & Hr & Hnf).
  destruct (rc_dec_spec (km_rc k) f) as (rc' & Erc & Hok & Hget); [apply Hk|done|].
  pose proof (rc_get_range (km_rc k) f (kmem_rc _ _ _ Hk)) as Hrange.
  assert (refcount_dec f k = Ret (set_rc rc' k, Ok (Z.max 0 (rc_get (km_rc k) f - 1)))) as Edec.
  { unfold refcount_dec. erewrite bind_ok by reflexivity. by rewrite Erc. }
  assert (kmem_ok total fa (set_rc rc' k)) as Hk1 by (destruct Hk; by constructor).
  assert (forall g, frame_ok g -> rc_get rc' g =
    if bool_decide (g ∈ [f]) then Z.max 0 (rc_get (km_rc k) g - 1) else rc_get (km_rc k) g) as Hrc.
  { intros g Hg. rewrite Hget by done.
    rewrite (bool_decide_ext (g ∈ [f]) (g = f)) by (by rewrite list_elem_of_singleton).
    case_bool_decide; [by subst|done]. }
  unfold release_frame. erewrite bind_ok by done.
  destruct (Z.eqb_spec (Z.max 0 (rc_get (km_rc k) f - 1)) 0) as [Hz|Hz].
  - destruct (free_frame_ok total fa (set_rc rc' k) f Hk1 Hh Hu) as (fa' & E & Hk2 & Hu' & Hfr).
    exists fa'. eexists. split_and!; [done|done|lia|]. split_and!; [|done|done].
    intros g. rewrite Hfr. setoid_rewrite list_elem_of_singleton. split.
    + intros [?| ->]; [by left|right]. exists f. split_and!; [done|done|lia].
    + intros [?|(f' & -> & -> & _)]; [by left|by right].
  - exists fa, (set_rc rc' k). split_and!; [done|done|lia|]. split_and!; [|done|done].
    intros g. setoid_rewrite list_elem_of_singleton. split; [by left|].
    intros [?|(f' & -> & _ & ?)]; [done|lia].
Qed.

Lemma release_all total fs : forall fa k,
  kmem_ok total fa k -> NoDup fs -> Forall (held fa) fs -> lenZ fs <= used fa ->
  exists fa' k', mfor fs release_frame k = Ret (k', Ok tt) /\ kmem_ok total fa' k' /\
    used fa - lenZ fs <= used fa' /\ released fs fa k fa' k'.
Proof.
  induction fs as [|f fs IH]; intros fa k Hk Hnd Hh Hu.
  { exists fa, k. split_and!; try done; [rewrite lenZ_nil; lia|]. split_and!; [| |done].
    - intros g. setoid_rewrite elem_of_nil. naive_solver.
    - intros f Hf. rewrite bool_decide_eq_false_2; [done|]. apply not_elem_of_nil. }
  apply NoDup_cons in Hnd as [Hnf Hnd]. apply Forall_cons in Hh as [Hf Hfs].
  rewrite lenZ_cons in Hu. pose proof (lenZ_nonneg fs).
  destruct (release_frame_ok total fa k f Hk Hf) as (fa1 & k1 & E1 & Hk1 & Hu1 & Hfr1 & Hrc1 & Hm1);
    [lia|].
  assert (forall f', f' ∈ fs -> f' <> f) as Hne by (by intros f' Hin ->).
  rewrite Forall_forall in Hfs. setoid_rewrite list_elem_of_singleton in Hfr1.
  assert (Forall (held fa1) fs) as Hfs1.
  { apply Forall_forall. intros f' Hin. destruct (Hfs f' Hin) as (Hok & Hr & Hn).
    split_and!; [done|lia|lia|]. rewrite Hfr1. intros [?|(g & -> & E & _)]; [done|].
    apply (Hne f' Hin). rewrite (frame_ok_div f'), (frame_ok_div f), E by (done || apply Hf). done. }
  destruct (IH fa1 k1 Hk1 Hnd Hfs1) as (fa2 & k2 & E2 & Hk2 & Hu2 & Hfr2 & Hrc2 & Hm2); [lia|].
  assert (forall g, frame_ok g -> g <> f -> rc_get (km_rc k1) g = rc_get (km_rc k) g) as Hsame.
  { intros g Hg Hgf. rewrite Hrc1 by done. rewrite bool_decide_eq_false_2; [done|].
    by rewrite list_elem_of_singleton. }
  exists fa2, k2. cbn [mfor]. unfold mbindM. rewrite E1, E2, lenZ_cons.
  split_and!; [done|done|lia|]. split_and!; [| |congruence].
  - intros g. rewrite Hfr2, Hfr1. setoid_rewrite elem_of_cons. split.
    + intros [[?|(x & -> & -> & ?)]|(x & Hin & -> & Hle)]; [by left|eauto 10|].
      right. exists x. rewrite <- Hsame by (by apply Hne || apply Hfs). eauto.
    + intros [?|(x & [-> |Hin] & -> & Hle)]; [eauto|eauto 10|].
      right. exists x. rewrite Hsame by (by apply Hne || apply Hfs). eauto.
  - intros g Hg. rewrite Hrc2 by done. destruct (decide (g = f)) as [->|Hgf].
    + rewrite bool_decide_eq_false_2, bool_decide_eq_true_2 by (done || by left).
      rewrite Hrc1 by done. by rewrite bool_decide_eq_true_2 by (by left).
    + rewrite Hsame by done. rewrite (bool_decide_ext (g ∈ f :: fs) (g ∈ fs)); [done|].
      rewrite elem_of_cons. tauto.
Qed.

(** The frames a teardown walks over. *)
Definition as_frames (s : AddressSpace) : list Z := (btree_iter (mapped_pages s)).*2.

Lemma elem_of_as_frames s f :
  f ∈ as_frames s <-> exists va, mapped_pages s !! va = Some f.
Proof.
  unfold as_frames. rewrite list_elem_of_fmap. split.
  - intros ([va g] & -> & Hin). exists va. by apply elem_of_btree_iter.
  - intros [va Hva]. exists (va, f). split; [done|]. by apply elem_of_btree_iter.
Qed.

Lemma NoDup_as_frames s : inj_pages s -> NoDup (as_frames s).
Proof.
  intros Hinj. unfold as_frames, btree_iter. apply NoDup_fmap_2_strong.
  - intros [v f] [v' f'] Hin Hin'. cbn. intros ->.
    rewrite (merge_sort_Permutation key_le) in Hin, Hin'.
    apply elem_of_map_to_list in Hin, Hin'. by rewrite (Hinj _ _ _ Hin Hin').
  - rewrite (merge_sort_Permutation key_le). apply NoDup_map_to_list.
Qed.

Lemma lenZ_as_frames s : lenZ (as_frames s) = Z.of_nat (size (mapped_pages s)).
Proof.
  unfold lenZ, as_frames, btree_iter. rewrite length_fmap.
  rewrite (merge_sort_Permutation key_le). by rewrite length_map_to_list.
Qed.

