(* ===== verification/PagingModel.v ===== *)
(** * The mapper of the x86_64 crate

    An instance of [X86Paging]: the algorithm that the crate documents for
    [OffsetPageTable].  [map_to] goes down the tables, takes a zeroed frame
    for each table that is missing, adds the parent flags to the entries it
    passes, refuses to go through a huge page, and fills the leaf entry if it
    is unused.  It keeps [PagingLaws]. *)
From S2P Require Import Prelude Phys FrameAllocator FrameRefcount Paging.
Local Open Scope Z_scope.

Definition FM : Type := BitmapFrameAllocator * phys.

(** The flags given to parent entries. *)
Definition parent_flags (flags : Z) : Z := Z.land flags (Z.lor (Z.lor PRESENT WRITABLE) USER_ACCESSIBLE).

Definition create_next_table (t i pf : Z) (fm : FM) : outcome (FM * result Z MapToError) :=
  let '(fa, m) := fm in
  let e := entry m t i in
  if e =? 0 then
    '(r, (fa, m)) ← allocate_frame fa m;
    match r with
    | None => Ret ((fa, m), Err FrameAllocationFailed)
    | Some f =>
        let m := store_u64 m (entry_slot t i) (Z.lor f pf) in
        Ret ((fa, write_bytes m f 0 4096), Ok f)
    end
  else
    let m := store_u64 m (entry_slot t i) (Z.lor e pf) in
    if contains e HUGE_PAGE then Ret ((fa, m), Err ParentEntryHugePage)
    else Ret ((fa, m), Ok (entry_addr e)).

Fixpoint create_path (t : Z) (l : list Z) (pf : Z) (fm : FM) : outcome (FM * result Z MapToError) :=
  match l with
  | [] => Ret (fm, Ok t)
  | i :: l' =>
      '(fm, r) ← create_next_table t i pf fm;
      match r with
      | Ok t' => create_path t' l' pf fm
      | Err e => Ret (fm, Err e)
      end
  end.

Definition crate_map_to (p4 page frame flags : Z) (fm : FM) : outcome (FM * result unit MapToError) :=
  '(fm, r) ← create_path p4 (leaf_path page) (parent_flags flags) fm;
  match r with
  | Err e => Ret (fm, Err e)
  | Ok t1 =>
      let '(fa, m) := fm in
      let e := entry m t1 (p1_index page) in
      if e =? 0 then Ret ((fa, store_u64 m (entry_slot t1 (p1_index page)) (Z.lor frame flags)), Ok tt)
      else Ret (fm, Err (PageAlreadyMapped (entry_addr e)))
  end.

Definition on_leaf {A} (p4 page : Z) (m : phys) (v : Z -> Z) (r : Z -> A) : phys * result A unit :=
  match leaf_slot m p4 page, walk m p4 page with
  | Some s, Some (f, _) => (store_u64 m s (v f), Ok (r f))
  | _, _ => (m, Err tt)
  end.

#[export] Instance crate_paging : X86Paging := {|
  virt_new a := if bool_decide (0 <= a < 2 ^ 47 \/ 2 ^ 64 - 2 ^ 47 <= a < 2 ^ 64) then Ret a
                else if bool_decide (2 ^ 47 <= a < 2 ^ 48) then Ret (a + 2 ^ 64 - 2 ^ 48)
                else Panic;
  phys_new a := if bool_decide (0 <= a < 2 ^ 52) then Ret a else Panic;
  containing a := frame_of a;
  mapper_map_to := crate_map_to;
  mapper_unmap p4 page m := on_leaf p4 page m (fun _ => 0) (fun f => f);
  mapper_update_flags p4 page flags m := on_leaf p4 page m (fun f => Z.lor f flags) (fun _ => tt);
  mapper_translate p4 va m :=
    match walk m p4 va with
    | Some (f, flags) => Mapped 4096 f (va mod 4096) flags
    | None => NotMapped
    end
|}.

(** ** Entries *)

Lemma contains_0_present : contains 0 PRESENT = false.
Proof. done. Qed.

Lemma parent_flags_spec flags :
  Z.land (parent_flags flags) ADDR_MASK = 0 /\ Z.land (parent_flags flags) HUGE_PAGE = 0 /\
  (contains flags PRESENT = true -> contains (parent_flags flags) PRESENT = true) /\ 0 <= parent_flags flags < 8.
Proof.
  unfold parent_flags. change (Z.lor (Z.lor PRESENT WRITABLE) USER_ACCESSIBLE) with 7.
  rewrite <- !Z.land_assoc. change (Z.land 7 ADDR_MASK) with 0. change (Z.land 7 HUGE_PAGE) with 0.
  rewrite !Z.land_0_r. unfold contains. rewrite <- Z.land_assoc. change (Z.land 7 PRESENT) with PRESENT.
  split_and!; try done; change 7 with (Z.ones 3); rewrite Z.land_ones by done; apply Z.mod_pos_bound; lia.
Qed.

(** Adding parent flags to a present entry keeps what the walk reads of it. *)
Lemma or_entry e flags :
  fits 64 e -> contains e PRESENT = true ->
  let e' := Z.lor e (parent_flags flags) in
  fits 64 e' /\ entry_addr e' = entry_addr e /\ contains e' PRESENT = true /\
  contains e' HUGE_PAGE = contains e HUGE_PAGE /\ e' <> 0.
Proof.
  intros He Hp e'. destruct (parent_flags_spec flags) as (Ha & Hh & _ & Hr). unfold fits in *.
  assert (Hpres : contains e' PRESENT = true).
  { unfold contains, e' in *. apply Z.eqb_eq in Hp. apply Z.eqb_eq. rewrite Z.land_lor_distr_l, Hp.
    apply Z.bits_inj'. intros n Hn. rewrite Z.lor_spec, Z.land_spec.
    destruct (Z.testbit PRESENT n); [done|]. by rewrite andb_false_r. }
  split_and!; try done.
  - apply Z.lor_nonneg. lia.
  - unfold e'. destruct (decide (e = 0)) as [->|]; [rewrite Z.lor_0_l; lia|].
    destruct (decide (parent_flags flags = 0)) as [->|]; [rewrite Z.lor_0_r; lia|].
    apply Z.log2_lt_cancel. rewrite Z.log2_pow2, Z.log2_lor by lia.
    apply Z.max_lub_lt; apply Z.log2_lt_pow2; lia.
  - unfold e', entry_addr. by rewrite Z.land_lor_distr_l, Ha, Z.lor_0_r.
  - unfold e', contains. by rewrite Z.land_lor_distr_l, Hh, Z.lor_0_r.
  - intros E. by rewrite E in Hpres.
Qed.

(** ** Adding flags on the way down

    [ored m m']: every 8-byte word reads as the same next table, or none. *)
Definition ored (m m' : phys) : Prop :=
  mem_ok m' /\ forall q j, frame_ok q ->
    entry_addr (entry m' q j) = entry_addr (entry m q j) /\
    contains (entry m' q j) PRESENT = contains (entry m q j) PRESENT /\
    contains (entry m' q j) HUGE_PAGE = contains (entry m q j) HUGE_PAGE /\
    (entry m' q j = 0 <-> entry m q j = 0).

Lemma ored_refl m : mem_ok m -> ored m m.
Proof. by split. Qed.
Lemma ored_trans m1 m2 m3 : ored m1 m2 -> ored m2 m3 -> ored m1 m3.
Proof.
  intros [_ H1] [Hm H2]. split; [done|]. intros q j Hq.
  destruct (H2 q j Hq) as (-> & -> & -> & ->). apply (H1 q j Hq).
Qed.
Lemma ored_next m m' q j : ored m m' -> frame_ok q -> next_table m' q j = next_table m q j.
Proof. intros [_ Ho] Hq. unfold next_table. by destruct (Ho q j Hq) as (-> & -> & -> & _). Qed.
Lemma ored_descend m m' q l : mem_ok m -> ored m m' -> frame_ok q -> descend m' q l = descend m q l.
Proof.
  intros Hm Ho. revert q. induction l as [|i l IH]; intros q Hq; [done|]. cbn.
  rewrite (ored_next m m') by done. destruct (next_table m q i) as [t|] eqn:Et; [|done]. cbn. apply IH.
  apply (descend_frame_ok m q [i]); [done|by apply mem_ok_nonneg|cbn; by rewrite Et].
Qed.

Lemma table_entry_fits m t i : mem_ok m -> fits 64 (entry m t i).
Proof.
  intros Hm. unfold entry, load_u64. apply (of_le_range (load_bytes m (entry_slot t i) 8)).
  apply Forall_forall. intros x Hx. unfold load_bytes in Hx. apply list_elem_of_fmap in Hx as (j & -> & _). apply Hm.
Qed.

(** Two slots are the same word or disjoint. *)
Lemma entry_store m t i v q j :
  frame_ok t -> frame_ok q -> fits 64 v ->
  entry (store_u64 m (entry_slot t i) v) q j =
    if decide (entry_slot q j = entry_slot t i) then v else entry m q j.
Proof.
  intros [_ Ht] [_ Hq] Hv. unfold entry. case_decide as E; [rewrite E; by apply load_store_u64|].
  apply load_store_u64_ne. unfold entry_slot in *.
  pose proof (Z.div_mod t 4096 ltac:(done)). pose proof (Z.div_mod q 4096 ltac:(done)). lia.
Qed.

Lemma or_ored m t i flags :
  mem_ok m -> frame_ok t -> contains (entry m t i) PRESENT = true ->
  ored m (store_u64 m (entry_slot t i) (Z.lor (entry m t i) (parent_flags flags))).
Proof.
  intros Hm Ht Hp. destruct (or_entry (entry m t i) flags (table_entry_fits m t i Hm) Hp) as (Hf & Ha & Hp' & Hh & Hn).
  split; [by apply mem_ok_store|]. intros q j Hq. rewrite entry_store by done. case_decide as E; [|done].
  assert (entry m q j = entry m t i) as -> by (unfold entry; by rewrite E). split_and!; try done.
  - by rewrite Hp, Hp'.
  - split; [done|]. intros E0. by rewrite E0 in Hp.
Qed.

(** ** Growing a tree of tables *)

Section grow.
Context (p4 : Z).

(** From [m] to [m'] the tree under [p4] has the frames [fs] more, as empty
    tables; every mapping and every vacant page is still there. *)
Record grown (m m' : phys) (fs : list Z) : Prop := {
  g_mem : mem_ok m';
  g_pt : pt_ok m' p4;
  g_tab : forall t, is_table m' p4 t -> is_table m p4 t \/ t ∈ fs;
  g_out : forall x, frame_of x ∉ fs -> ~ is_table m p4 (frame_of x) -> m' x = m x;
  g_walk : forall va, walk m' p4 va = walk m p4 va;
  g_vac : forall va, vacant m p4 va -> vacant m' p4 va;
}.

Lemma grown_refl m : mem_ok m -> pt_ok m p4 -> grown m m [].
Proof. intros Hm Hpt. split; try done. by left. Qed.
Lemma grown_trans m1 m2 m3 fs gs : grown m1 m2 fs -> grown m2 m3 gs -> grown m1 m3 (fs ++ gs).
Proof.
  intros [M1 P1 T1 O1 W1 V1] [M2 P2 T2 O2 W2 V2]. split; try done.
  - intros t Ht. rewrite elem_of_app. destruct (T2 t Ht) as [Ht2|]; [|tauto]. destruct (T1 t Ht2); tauto.
  - intros x Hx Hn. rewrite elem_of_app in Hx. rewrite O2, O1 by tauto || (intros Ht; destruct (T1 _ Ht); tauto). done.
  - intros va. by rewrite W2, W1.
  - intros va Hv. by apply V2, V1.
Qed.

(** The table of a parent entry is no leaf table. *)
Lemma parent_not_leaf m l i t va :
  pt_ok m p4 -> path_ok (l ++ [i]) -> descend m p4 l = Some t -> leaf_table m p4 va <> Some t.
Proof.
  intros Hpt Hl Hd Hlt. assert (l = leaf_path va) as ->.
  { eapply (pt_tree _ _ Hpt); [by eapply path_ok_app|apply leaf_path_ok|done|done]. }
  destruct Hl as [_ Hl]. cbn in Hl. lia.
Qed.

Lemma table_frame m t : mem_ok m -> pt_ok m p4 -> is_table m p4 t -> frame_ok t.
Proof. intros Hm Hpt (l & _ & Hd). exact (descend_frame_ok m p4 l t (pt_frame _ _ Hpt) (mem_ok_nonneg m Hm) Hd). Qed.
Lemma path_table m l t : path_ok l -> descend m p4 l = Some t -> is_table m p4 t.
Proof. intros Hl Hd. by exists l. Qed.
Lemma leaf_table_table m va t : leaf_table m p4 va = Some t -> is_table m p4 t.
Proof. intros Ht. exists (leaf_path va). split; [apply leaf_path_ok|done]. Qed.

Lemma or_grown m l i t flags :
  mem_ok m -> pt_ok m p4 -> path_ok (l ++ [i]) -> descend m p4 l = Some t ->
  entry m t i <> 0 ->
  let m' := store_u64 m (entry_slot t i) (Z.lor (entry m t i) (parent_flags flags)) in
  grown m m' [] /\ ored m m'.
Proof.
  intros Hm Hpt Hl Hd Hne m'. pose proof (pt_frame _ _ Hpt) as Hp4.
  assert (Hlt : is_table m p4 t) by (eapply path_table; [by eapply path_ok_app|done]).
  assert (Hi : 0 <= i < 512). { destruct Hl as [Hl _]. apply Forall_app in Hl as [_ Hl]. exact (Forall_inv Hl). }
  assert (Ht : frame_ok t) by (by eapply table_frame).
  assert (Hpr : contains (entry m t i) PRESENT = true) by (by destruct (pt_used _ _ Hpt t i Hlt Hi)).
  assert (Ho : ored m m') by (by apply or_ored).
  assert (Hdesc : forall k, descend m' p4 k = descend m p4 k) by (intros; by apply ored_descend).
  assert (Htab : forall u, is_table m' p4 u <-> is_table m p4 u).
  { intros u. unfold is_table. split; intros (k & Hk & E); exists k; by rewrite Hdesc in *. }
  split; [|done]. split.
  - apply Ho.
  - split; [done| |]. { intros k k' u. rewrite !Hdesc. apply Hpt. }
    intros u j Hu Hj. rewrite Htab in Hu. unfold entry_ok. destruct (proj2 Ho u j) as (_ & -> & _ & ->); [|by apply Hpt].
    by apply (table_frame m).
  - intros u Hu. left. by apply Htab.
  - intros x _ Hx. unfold m', store_u64, store_bytes. rewrite lenZ_le_bytes, bool_decide_eq_false_2; [done|].
    intros Hin. apply Hx. replace x with (entry_slot t i + (x - entry_slot t i)) by lia.
    rewrite entry_slot_frame; [done|done|done|lia].
  - intros va. unfold walk, leaf_slot, leaf_table. rewrite Hdesc.
    destruct (descend m p4 (leaf_path va)) as [u|] eqn:Eu; [|done]. cbn [mbind option_bind].
    assert (Hu : u <> t) by (intros ->; by eapply (parent_not_leaf m l i t va)).
    unfold m'. rewrite load_store_u64_ne; [done|]. apply slots_disjoint; try done; [|apply p1_index_range|by left].
    apply (table_frame m); [done..|]. by apply (leaf_table_table m va).
  - intros va (k & j & r & u & Hp & Ek & Ee). exists k, j, r, u. rewrite Hdesc. split_and!; try done.
    apply (proj2 Ho u j); [|done]. apply (table_frame m); [done..|]. exists k. split; [by apply (full_path_ok va k j r)|done].
Qed.

(** *** A new table *)

Section create.
Context (m : phys) (l : list Z) (i t f pf : Z).
Hypothesis Hm : mem_ok m.
Hypothesis Hpt : pt_ok m p4.
Hypothesis Hl : path_ok (l ++ [i]).
Hypothesis Hd : descend m p4 l = Some t.
Hypothesis He : entry m t i = 0.
Hypothesis Hf : leaf_frame_ok f.
Hypothesis Hnew : ~ is_table m p4 f.
Hypothesis Hpf : leaf_flags_ok pf.

Let m' : phys := write_bytes (store_u64 (write_bytes m f 0 4096) (entry_slot t i) (Z.lor f pf)) f 0 4096.

Lemma create_index : 0 <= i < 512.
Proof. destruct Hl as [Hl' _]. apply Forall_app in Hl' as [_ Hl']. exact (Forall_inv Hl'). Qed.
Lemma create_parent : is_table m p4 t.
Proof. eapply path_table; [by eapply path_ok_app|done]. Qed.

Lemma create_out x : frame_of x <> f -> frame_of x <> t -> m' x = m x.
Proof.
  intros Hxf Hxt. assert (Ht : frame_ok t) by (apply (table_frame m); [done|done|apply create_parent]).
  assert (~ f <= x < f + 4096) by (intros Hin; apply Hxf, frame_of_unique; [apply Hf|done]).
  unfold m'. rewrite write_bytes_out by done. unfold store_u64, store_bytes.
  rewrite lenZ_le_bytes, bool_decide_eq_false_2, write_bytes_out; [done|done|].
  intros Hin. apply Hxt. replace x with (entry_slot t i + (x - entry_slot t i)) by lia.
  apply entry_slot_frame; [done|apply create_index|lia].
Qed.

Lemma create_mem : mem_ok m'.
Proof.
  intros x. unfold m', write_bytes at 1. case_bool_decide; [unfold byte_ok; lia|]. apply mem_ok_store.
  intros y. unfold write_bytes. case_bool_decide; [unfold byte_ok; lia|]. apply Hm.
Qed.

Lemma create_entry_new j : 0 <= j < 512 -> entry m' f j = 0.
Proof.
  intros Hj. unfold entry, load_u64.
  replace (load_bytes m' (entry_slot f j) 8) with (replicate 8 0); [done|].
  apply list_eq. intros k. unfold load_bytes. rewrite list_lookup_fmap.
  destruct (decide (k < 8)%nat) as [Hk|Hk].
  - rewrite lookup_replicate_2, lookup_seq_lt by done. cbn [fmap option_fmap option_map]. unfold m'.
    rewrite write_bytes_in; [done|]. unfold entry_slot. lia.
  - rewrite lookup_ge_None_2 by (rewrite length_replicate; lia). by rewrite lookup_seq_ge by lia.
Qed.

Lemma create_entry u j : is_table m p4 u -> 0 <= j < 512 ->
  entry m' u j = if decide (u = t /\ j = i) then Z.lor f pf else entry m u j.
Proof.
  intros Hu Hj. assert (Huf : frame_ok u) by (by apply (table_frame m)).
  assert (Htf : frame_ok t) by (apply (table_frame m); [done|done|apply create_parent]).
  assert (Hne : u <> f) by (by intros ->).
  assert (Hrd : forall mm x, (forall y, frame_of y = u -> x y = mm y) -> entry x u j = entry mm u j).
  { intros mm x Hx. unfold entry, load_u64. f_equal. apply load_bytes_ext. intros y Hy. apply Hx.
    replace y with (entry_slot u j + (y - entry_slot u j)) by lia. apply entry_slot_frame; [done|done|lia]. }
  assert (Hw : forall mm y, frame_of y = u -> write_bytes mm f 0 4096 y = mm y).
  { intros mm y Hy. apply write_bytes_out. intros Hin. apply Hne. rewrite <- Hy. by apply frame_of_unique; [apply Hf|]. }
  unfold m'. rewrite (Hrd (store_u64 (write_bytes m f 0 4096) (entry_slot t i) (Z.lor f pf))) by (intros; by apply Hw).
  rewrite entry_store by (try done; apply (leaf_entry_fields f pf); done).
  rewrite (Hrd m) by (intros; by apply Hw). pose proof create_index as Hi.
  destruct (decide (u = t /\ j = i)) as [[-> ->]|Hn]; [by rewrite decide_True|]. rewrite decide_False; [done|].
  intros E. destruct (slots_disjoint u t j i); try done; [|lia|lia].
  destruct (decide (u = t)); [right; intros ->; by apply Hn|by left].
Qed.

Lemma create_next u j : is_table m p4 u -> 0 <= j < 512 ->
  next_table m' u j = if decide (u = t /\ j = i) then Some f else next_table m u j.
Proof.
  intros Hu Hj. unfold next_table. rewrite create_entry by done. case_decide; [|done].
  destruct (leaf_entry_fields f pf Hf Hpf) as (_ & -> & -> & Hfl). cbn [andb].
  assert (contains (Z.lor f pf) HUGE_PAGE = false) as ->; [|done]. unfold contains.
  rewrite Z.land_lor_distr_l. replace (Z.land f HUGE_PAGE) with 0.
  - destruct Hpf as (_ & _ & _ & Hh). by rewrite Z.lor_0_l.
  - destruct Hf as [[_ Hal] _]. symmetry. change HUGE_PAGE with (Z.land (Z.ones 12) 128).
    rewrite Z.land_assoc, Z.land_ones by done. change (2 ^ 12) with 4096. by rewrite Hal.
Qed.

Lemma create_descend k : path_ok k ->
  descend m' p4 k = if decide (k = l ++ [i]) then Some f else descend m p4 k.
Proof.
  induction k as [|j k IH] using rev_ind; intros Hk.
  { rewrite decide_False; [done|]. by destruct l. }
  pose proof (path_ok_app _ _ Hk) as Hk0. assert (Hj : 0 <= j < 512).
  { destruct Hk as [Hk _]. apply Forall_app in Hk as [_ Hk]. exact (Forall_inv Hk). }
  rewrite !descend_app, IH by done. clear IH. destruct (decide (k = l ++ [i])) as [->|Hne].
  - rewrite decide_False by (intros [E _]%app_inj_tail; apply (f_equal length) in E; rewrite length_app in E; cbn in E; lia).
    rewrite descend_app, Hd. cbn [mbind option_bind descend]. unfold next_table at 1. rewrite create_entry_new by done.
    unfold next_table. by rewrite He.
  - destruct (descend m p4 k) as [u|] eqn:Eu; cbn [mbind option_bind].
    2:{ rewrite decide_False; [done|]. intros [-> ->]%app_inj_tail. by rewrite Hd in Eu. }
    cbn [descend]. rewrite create_next by (done || by eapply path_table).
    destruct (decide (u = t /\ j = i)) as [[-> ->]|Hn].
    + assert (k = l) as -> by (eapply (pt_tree _ _ Hpt); [done|by eapply path_ok_app|done|done]). by rewrite decide_True.
    + rewrite decide_False; [done|]. intros [-> ->]%app_inj_tail. apply Hn. split; [congruence|done].
Qed.
End create.

Lemma create_grown m l i t f pf :
  mem_ok m -> pt_ok m p4 -> path_ok (l ++ [i]) -> descend m p4 l = Some t -> entry m t i = 0 ->
  leaf_frame_ok f -> ~ is_table m p4 f -> leaf_flags_ok pf ->
  let m' := write_bytes (store_u64 (write_bytes m f 0 4096) (entry_slot t i) (Z.lor f pf)) f 0 4096 in
  grown m m' [f] /\ descend m' p4 (l ++ [i]) = Some f.
Proof.
  intros Hm Hpt Hl Hd He Hf Hnew Hpf m'.
  pose proof (create_descend m l i t f pf Hm Hpt Hl Hd He Hf Hnew Hpf) as Hdesc. fold m' in Hdesc.
  pose proof (create_entry m l i t f pf Hm Hpt Hl Hd Hf Hnew Hpf) as Hent. fold m' in Hent.
  assert (Hnewe : forall j, 0 <= j < 512 -> entry m' f j = 0) by (intros; by apply create_entry_new).
  assert (Htp : is_table m p4 t) by (by eapply create_parent).
  assert (Htab : forall u, is_table m' p4 u -> is_table m p4 u \/ u = f).
  { intros u (k & Hk & Eu). rewrite Hdesc in Eu by done. case_decide; [right; congruence|left; by exists k]. }
  assert (Hold : descend m p4 (l ++ [i]) = None).
  { rewrite descend_app, Hd. cbn [mbind option_bind descend]. unfold next_table. by rewrite He. }
  split; [|by rewrite Hdesc, decide_True]. split.
  - by apply create_mem.
  - split; [apply Hpt| |].
    + intros k k' u Hk Hk'. rewrite !Hdesc by done. intros E E'. destruct (decide (k = l ++ [i])), (decide (k' = l ++ [i])); [congruence|..].
      * assert (u = f) as -> by congruence. destruct Hnew. by exists k'.
      * assert (u = f) as -> by congruence. destruct Hnew. by exists k.
      * by eapply (pt_tree _ _ Hpt).
    + intros u j Hu Hj. destruct (Htab u Hu) as [Hu'| ->]; [|left; by apply Hnewe].
      rewrite Hent by done. case_decide; [|by apply Hpt]. right. by apply (leaf_entry_fields f pf).
  - intros u Hu. destruct (Htab u Hu) as [?| ->]; [by left|right; constructor].
  - intros x Hx Hnt. apply (create_out m l i t f pf); try done.
    + intros E. apply Hx. rewrite E. constructor.
    + intros E. apply Hnt. by rewrite E.
  - intros va. unfold walk, leaf_slot, leaf_table. rewrite Hdesc by apply leaf_path_ok.
    destruct (decide (leaf_path va = l ++ [i])) as [E|Hne].
    + rewrite E, Hold. cbn [mbind option_bind]. change (load_u64 m' ?s) with (load_u64 m' s).
      pose proof (Hnewe (p1_index va) (p1_index_range va)) as Hz. unfold entry in Hz. by rewrite Hz.
    + destruct (descend m p4 (leaf_path va)) as [u|] eqn:Eu; [|done]. cbn [mbind option_bind].
      assert (Hu : u <> t) by (intros ->; by eapply (parent_not_leaf m l i t va)).
      pose proof (Hent u (p1_index va) ltac:(by eapply leaf_table_table) (p1_index_range va)) as Hz.
      rewrite decide_False in Hz by tauto. unfold entry in Hz. by rewrite Hz.
  - intros va (k & j & r & u & Hp & Ek & Ee). destruct (full_path_ok va k j r Hp) as [Hk Hj].
    assert (Hu : is_table m p4 u) by (by exists k).
    destruct (decide (u = t /\ j = i)) as [[-> ->]|Hn].
    + assert (k = l) as -> by (eapply (pt_tree _ _ Hpt); [done|by eapply path_ok_app|done|done]).
      destruct r as [|j r].
      { apply (f_equal length) in Hp. rewrite length_app in Hp. cbn in Hp. destruct Hl as [_ Hl].
        rewrite length_app in Hl. cbn in Hl. lia. }
      rewrite (cons_middle i), app_assoc in Hp. destruct (full_path_ok va (l ++ [i]) j r Hp) as [_ Hj2].
      exists (l ++ [i]), j, r, f. split_and!; [done|by rewrite Hdesc, decide_True|by apply Hnewe].
    + exists k, j, r, u. split_and!; [done| |by rewrite Hent, decide_False].
      rewrite Hdesc by done. case_decide as Ekl; [|done]. by rewrite Ekl, Hold in Ek.
Qed.

(** On the way to a vacant page an entry in use leads to a table. *)
Lemma vacant_next m page l i r t :
  vacant m p4 page -> full_path page = l ++ i :: r -> descend m p4 l = Some t -> entry m t i <> 0 ->
  r <> [] /\ exists t', next_table m t i = Some t'.
Proof.
  intros (k & j & r' & u & Hp & Ek & Ee) Hp' Hd He.
  assert (HA : (l ++ [i]) `prefix_of` full_path page) by (exists r; by rewrite Hp', <- app_assoc).
  assert (HB : (k ++ [j]) `prefix_of` full_path page) by (exists r'; by rewrite Hp, <- app_assoc).
  destruct (prefix_weak_total _ _ _ HA HB) as [[z Hz]|[z Hz]].
  - destruct z as [|z0 z].
    { rewrite app_nil_r in Hz. apply app_inj_tail in Hz as [-> ->]. congruence. }
    assert (exists w, k = (l ++ [i]) ++ w) as [w ->].
    { exists (removelast (z0 :: z)). destruct (exists_last (l := z0 :: z) ltac:(done)) as (w & y & Hw).
      rewrite Hw in *. rewrite removelast_last. rewrite app_assoc in Hz. by apply app_inj_tail in Hz as [-> _]. }
    split.
    + intros ->. rewrite Hp' in Hp. apply (f_equal length) in Hp. rewrite !length_app in Hp. cbn in Hp. lia.
    + rewrite <- app_assoc, descend_app, Hd in Ek. cbn in Ek. destruct (next_table m t i); [by eexists|done].
  - destruct z as [|z0 z].
    { rewrite app_nil_r in Hz. apply app_inj_tail in Hz as [-> ->]. congruence. }
    assert (exists w, l = (k ++ [j]) ++ w) as [w ->].
    { exists (removelast (z0 :: z)). destruct (exists_last (l := z0 :: z) ltac:(done)) as (w & y & Hw).
      rewrite Hw in *. rewrite removelast_last. rewrite app_assoc in Hz. by apply app_inj_tail in Hz as [-> _]. }
    rewrite <- app_assoc, descend_app, Ek in Hd. cbn in Hd. unfold next_table in Hd. by rewrite Ee in Hd.
Qed.

Lemma parent_leaf_flags flags : contains flags PRESENT = true -> leaf_flags_ok (parent_flags flags).
Proof.
  intros Hp. destruct (parent_flags_spec flags) as (Ha & Hh & Hpr & Hr). split_and!; [lia|lia|done|by apply Hpr|].
  unfold contains. by rewrite Hh.
Qed.

Lemma create_path_spec total page flags r : forall l t fa m,
  leaf_path page = l ++ r -> wf total fa -> total <= BITMAP_BITS -> mem_ok m -> pt_ok m p4 ->
  (forall u, is_table m p4 u -> ~ is_free fa (u / 4096)) ->
  descend m p4 l = Some t -> contains flags PRESENT = true ->
  exists fa' m' res fs, create_path t r (parent_flags flags) (fa, m) = Ret ((fa', m'), res) /\
    took fa fa' fs /\ grown m m' fs /\
    match res with
    | Ok t1 => descend m' p4 (leaf_path page) = Some t1
    | Err e => vacant m p4 page -> e = FrameAllocationFailed /\ exhausted fa'
    end.
Proof.
  induction r as [|i r IH]; intros l t fa m Hp Hwf Htot Hm Hpt Hfree Hd Hpr.
  { exists fa, m, (Ok t), []. rewrite app_nil_r in Hp. rewrite Hp. split_and!; [done|constructor|by apply grown_refl|done]. }
  assert (Hl : path_ok (l ++ [i])).
  { apply (path_ok_app _ r). rewrite <- app_assoc. cbn [app]. rewrite <- Hp. apply leaf_path_ok. }
  assert (Htt : is_table m p4 t) by (eapply path_table; [by eapply path_ok_app|done]).
  assert (Hp' : leaf_path page = (l ++ [i]) ++ r) by (by rewrite <- app_assoc).
  cbn [create_path]. unfold create_next_table. destruct (entry m t i =? 0) eqn:Ez.
  - apply Z.eqb_eq in Ez. destruct (allocate_frame_spec total fa m Hwf Htot)
      as [(g & fa1 & E1 & [[Hg Hbit] _] & Hwf1 & _ & Hnum & Hfr)|[E1 Hnone]]; rewrite E1; obind.
    2:{ exists fa, m, (Err FrameAllocationFailed), []. split_and!; [done|constructor|by apply grown_refl|done]. }
    change FRAME_SIZE with 4096 in *. unfold BITMAP_BITS, BITMAP_SIZE in Hg.
    assert (Hfok : leaf_frame_ok (g * 4096)) by (split; [apply frame_ok_mul|]; lia).
    assert (Hnew : ~ is_table m p4 (g * 4096)).
    { intros Ht. apply (Hfree _ Ht). rewrite Z.div_mul by done. split; [unfold BITMAP_BITS, BITMAP_SIZE; lia|done]. }
    destruct (create_grown m l i t (g * 4096) (parent_flags flags)) as [Hgr Hd1]; try done; [by apply parent_leaf_flags|].
    set (m1 := write_bytes (store_u64 _ _ _) _ _ _) in *.
    destruct (IH (l ++ [i]) (g * 4096) fa1 m1) as (fa' & m' & res & fs & E & Htk & Hgr' & Hres);
      [done|done|done|apply Hgr|apply Hgr| |done|done|].
    { intros u Hu Hfu. apply Hfr in Hfu as [Hfu Hne]. destruct (g_tab _ _ _ Hgr u Hu) as [Hu'|Hu'%list_elem_of_singleton].
      - by apply (Hfree u).
      - apply Hne. by rewrite Hu', Z.div_mul. }
    rewrite E. exists fa', m', res, (g * 4096 :: fs). split_and!; [done|by econstructor|by apply (grown_trans m m1 m' [_])|].
    destruct res; [done|]. intros Hv. apply Hres. by apply (g_vac _ _ _ Hgr).
  - apply Z.eqb_neq in Ez. destruct (or_grown m l i t flags) as [Hgr Ho]; [done..|]. set (m1 := store_u64 _ _ _) in *.
    destruct (contains (entry m t i) HUGE_PAGE) eqn:Eh; obind.
    + exists fa, m1, (Err ParentEntryHugePage), []. split_and!; [done|constructor|done|]. intros Hv.
      destruct (vacant_next m page l i (r ++ [p1_index page]) t) as (_ & t' & Hn); [done| |done|done|].
      { unfold full_path. rewrite Hp, <- app_assoc. done. }
      unfold next_table in Hn. rewrite Eh, andb_false_r in Hn. done.
    + assert (Hpre : contains (entry m t i) PRESENT = true).
      { destruct (pt_used _ _ Hpt t i Htt) as [?|?]; [|done|done]. destruct Hl as [Hl _].
        apply Forall_app in Hl as [_ Hl]. exact (Forall_inv Hl). }
      assert (Hd1 : descend m1 p4 (l ++ [i]) = Some (entry_addr (entry m t i))).
      { rewrite (ored_descend m m1) by (try done; apply Hpt). rewrite descend_app, Hd. cbn [mbind option_bind descend].
        unfold next_table. by rewrite Hpre, Eh. }
      destruct (IH (l ++ [i]) (entry_addr (entry m t i)) fa m1) as (fa' & m' & res & fs & E & Htk & Hgr' & Hres);
        [done|done|done|apply Hgr|apply Hgr| |done|done|].
      { intros u Hu. destruct (g_tab _ _ _ Hgr u Hu) as [Hu'|Hu'%elem_of_nil]; [by apply Hfree|done]. }
      rewrite E. exists fa', m', res, fs. split_and!; [done|done|by apply (grown_trans m m1 m' [])|].
      destruct res; [done|]. intros Hv. apply Hres. by apply (g_vac _ _ _ Hgr).
Qed.
End grow.

(** ** Going down existing tables *)

Lemma create_path_mapped p4 flags fa r : forall l t m t1,
  mem_ok m -> frame_ok p4 -> descend m p4 l = Some t -> descend m t r = Some t1 ->
  exists m', create_path t r (parent_flags flags) (fa, m) = Ret ((fa, m'), Ok t1) /\ ored m m' /\
    (forall x, m' x = m x \/ exists k i u, k ++ [i] `prefix_of` l ++ r /\ descend m p4 k = Some u /\
       entry_slot u i <= x < entry_slot u i + 8).
Proof.
  induction r as [|i r IH]; intros l t m t1 Hm Hp4 Hd Hr.
  { injection Hr as ->. exists m. split_and!; [done|by apply ored_refl|]. intros x. by left. }
  assert (Ht : frame_ok t) by (eapply descend_frame_ok; [exact Hp4|apply mem_ok_nonneg, Hm|exact Hd]).
  cbn in Hr. destruct (next_table m t i) as [t2|] eqn:En; [|done]. cbn in Hr.
  unfold next_table in En. destruct (contains (entry m t i) PRESENT) eqn:Epr; [|done].
  destruct (contains (entry m t i) HUGE_PAGE) eqn:Eh; [done|]. injection En as <-.
  assert (Hne : (entry m t i =? 0) = false) by (apply Z.eqb_neq; intros E; by rewrite E in Epr).
  cbn [create_path]. unfold create_next_table. rewrite Hne, Eh. obind.
  pose proof (or_ored m t i flags Hm Ht Epr) as Ho. set (m1 := store_u64 _ _ _) in *.
  assert (Hnx : next_table m t i = Some (entry_addr (entry m t i))) by (unfold next_table; by rewrite Epr, Eh).
  destruct (IH (l ++ [i]) (entry_addr (entry m t i)) m1 t1) as (m' & E & Ho' & Hx).
  - apply Ho.
  - done.
  - rewrite (ored_descend m m1), descend_app, Hd by done. cbn. by rewrite Hnx.
  - rewrite (ored_descend m m1); [done|done|done|]. apply (descend_frame_ok m t [i]); [done|by apply mem_ok_nonneg|].
    cbn. by rewrite Hnx.
  - exists m'. split_and!; [done|by eapply ored_trans|]. intros x. rewrite <- app_assoc in Hx.
    destruct (Hx x) as [->|(k & j & u & Hpre & Hk & Hin)].
    + unfold m1, store_u64, store_bytes. rewrite lenZ_le_bytes. case_bool_decide as Hin; [|by left]. right.
      exists l, i, t. split_and!; [|done|lia|lia]. exists r. by rewrite <- app_assoc.
    + right. exists k, j, u. rewrite (ored_descend m m1) in Hk by done. done.
Qed.

Lemma crate_map_to_mapped m p4 page frame flags fa f0 fl0 :
  mem_ok m -> frame_ok p4 -> walk m p4 page = Some (f0, fl0) ->
  exists m', crate_map_to p4 page frame flags (fa, m) = Ret ((fa, m'), Err (PageAlreadyMapped f0)) /\
    mem_ok m' /\ (forall q l, frame_ok q -> descend m' q l = descend m q l) /\
    (forall q i, frame_ok q -> entry_ok (entry m q i) -> entry_ok (entry m' q i)) /\
    (forall x, m' x = m x \/ exists l i t, l ++ [i] `prefix_of` leaf_path page /\ descend m p4 l = Some t /\
       entry_slot t i <= x < entry_slot t i + 8).
Proof.
  intros Hm Hp4 Hw. unfold walk, leaf_slot, leaf_table in Hw.
  destruct (descend m p4 (leaf_path page)) as [t1|] eqn:Et; [|done]. cbn [mbind option_bind] in Hw.
  change (load_u64 m (entry_slot t1 (p1_index page))) with (entry m t1 (p1_index page)) in Hw.
  destruct (contains (entry m t1 (p1_index page)) PRESENT) eqn:Epr; [|done]. injection Hw as <- <-.
  destruct (create_path_mapped p4 flags fa (leaf_path page) [] p4 m t1) as (m' & E & Ho & Hx); [done..|].
  exists m'. assert (Ht1 : frame_ok t1) by (eapply descend_frame_ok; [exact Hp4|apply mem_ok_nonneg, Hm|exact Et]).
  assert (Hok : forall q i, frame_ok q -> entry_ok (entry m q i) -> entry_ok (entry m' q i)).
  { intros q i Hq. unfold entry_ok. by destruct (proj2 Ho q i Hq) as (_ & -> & _ & ->). }
  split_and!; [|apply Ho|intros; by apply ored_descend|done|done]. unfold crate_map_to. rewrite E. obind.
  destruct (proj2 Ho t1 (p1_index page) Ht1) as (Ha & _ & _ & Hz). rewrite Ha.
  assert ((entry m' t1 (p1_index page) =? 0) = false) as ->; [|done].
  apply Z.eqb_neq. rewrite Hz. intros E0. by rewrite E0 in Epr.
Qed.

(** ** The laws *)

Lemma crate_map_to_spec m p4 page frame flags fa total :
  mem_ok m -> pt_ok m p4 -> wf total fa -> total <= BITMAP_BITS ->
  (forall t, is_table m p4 t -> ~ is_free fa (t / 4096)) ->
  low_page page -> leaf_frame_ok frame -> leaf_flags_ok flags ->
  exists fa' m' r fs,
    crate_map_to p4 page frame flags (fa, m) = Ret ((fa', m'), r) /\
    took fa fa' fs /\ mem_ok m' /\ pt_ok m' p4 /\
    (forall t, is_table m' p4 t -> is_table m p4 t \/ t ∈ fs) /\
    (forall x, frame_of x ∉ fs -> ~ is_table m p4 (frame_of x) -> m' x = m x) /\
    (forall va, 0 <= va < 2 ^ 47 -> frame_of va <> page -> walk m' p4 va = walk m p4 va) /\
    (forall va, 0 <= va < 2 ^ 47 -> frame_of va <> page \/ is_ok r = false -> vacant m p4 va -> vacant m' p4 va) /\
    (vacant m p4 page -> r = Ok tt \/ r = Err FrameAllocationFailed /\ exhausted fa') /\
    match r with
    | Ok _ => walk m p4 page = None /\ walk m' p4 page = Some (frame, flags)
    | Err _ => walk m' p4 page = walk m p4 page
    end.
Proof.
  intros Hm Hpt Hwf Htot Hfree [Hlow Hal] Hfr Hfl. unfold crate_map_to.
  destruct (create_path_spec p4 total page flags (leaf_path page) [] p4 fa m)
    as (fa' & m1 & res & fs & E & Htk & [M1 P1 T1 O1 W1 V1] & Hres); try done; [apply Hfl|].
  rewrite E. obind. destruct res as [t1|e].
  2:{ exists fa', m1, (Err e), fs. split_and!; try done; intros; try by apply W1.
      - by apply V1.
      - right. by destruct Hres as [-> ?]. }
  destruct (entry m1 t1 (p1_index page) =? 0) eqn:Ez.
  2:{ apply Z.eqb_neq in Ez. eexists fa', m1, _, fs. split_and!; try done; intros; try by apply W1.
      - by apply V1.
      - destruct (vacant_next p4 m1 page (leaf_path page) (p1_index page) [] t1); try done. by apply V1. }
  apply Z.eqb_eq in Ez. assert (frame_of page = page) as Hpage by (apply frame_of_id; split; [lia|done]).
  pose proof (leaf_entry_fields frame flags Hfr Hfl) as (Hfits & Hpres & _ & _).
  assert (Ht1 : is_table m1 p4 t1) by (by eapply leaf_table_table).
  exists fa', (store_u64 m1 (entry_slot t1 (p1_index page)) (Z.lor frame flags)), (Ok tt), fs. split_and!; try done.
  - by apply mem_ok_store.
  - apply pt_ok_store_leaf; [done..|by right].
  - intros t Ht. apply T1. by apply (is_table_store_leaf m1 p4 page t1 M1 P1 Hres (Z.lor frame flags)).
  - intros x Hx Hn. rewrite <- O1 by done. apply (store_leaf_frame m1 p4 page t1); [done..|]. intros Exl.
    destruct (T1 t1 Ht1); rewrite <- Exl in *; done.
  - intros va Hva Hne. rewrite <- W1. apply walk_store_other; [done..|lia|lia|].
    intros Eq. apply Hne. rewrite <- Hpage. unfold frame_of. by rewrite Eq.
  - intros va Hva [Hne|?] (l & i & r & t & Hp & Hd & He)%V1; [|done]. pose proof (full_path_ok va l i r Hp) as [Hl Hi].
    exists l, i, r, t. rewrite (descend_store_leaf m1 p4 page t1), (entry_store_leaf m1 p4 page t1) by (try done; by exists l).
    split_and!; [done|done|]. case_decide as Heq; [|done]. destruct Heq as [-> ->]. exfalso. apply Hne.
    assert (l = leaf_path page) as -> by (eapply (pt_tree _ _ P1); [done|apply leaf_path_ok|done|done]).
    unfold full_path in Hp. apply app_inj_1 in Hp as [Hp1 Hp2]; [|done]. injection Hp2 as Hp2 _.
    rewrite <- Hpage. unfold frame_of. f_equal. apply indices_page; try done; lia.
  - auto.
  - rewrite <- W1. unfold walk, leaf_slot, leaf_table. rewrite Hres. cbn [mbind option_bind].
    change (load_u64 m1 (entry_slot t1 (p1_index page))) with (entry m1 t1 (p1_index page)). by rewrite Ez.
  - by apply walk_map_leaf.
Qed.

#[export] Instance crate_paging_laws : PagingLaws.
Proof.
  constructor.
  - intros a Ha. simpl. rewrite bool_decide_eq_true_2; [done|]. by left.
  - intros a Ha. simpl. by rewrite bool_decide_eq_true_2.
  - done.
  - intros m p4 va f flags Hva Hw. simpl. by rewrite Hw.
  - intros m p4 page f flags s flags' Hp Hs Hw. simpl. unfold on_leaf. by rewrite Hs, Hw.
  - intros m p4 page f flags s Hp Hs Hw _. simpl. unfold on_leaf. by rewrite Hs, Hw.
  - intros. by apply (crate_map_to_spec m p4 page frame flags fa total).
  - intros m p4 page frame flags fa f0 fl0 Hm Hp4 Hp Hw. by apply (crate_map_to_mapped m p4 page frame flags fa f0 fl0).
Qed.
