(* ===== verification/Elf.v ===== *)
(** * ELF loading

    kernel/src/fs/elf.rs: the header checks, the program headers and the
    mapping of the loadable segments into an address space. *)
From S2P Require Import Prelude Phys FrameAllocator FrameRefcount Paging AddressSpace.
From S2P Require Import AddressSpaceCorrect.
Local Open Scope Z_scope.

Definition EI_CLASS : Z := 4.
Definition EI_DATA : Z := 5.
Definition ELFCLASS64 : Z := 2.
Definition ELFDATA2LSB : Z := 1.
Definition ET_EXEC : Z := 2.
Definition ET_DYN : Z := 3.
Definition EM_X86_64 : Z := 62.
Definition PT_LOAD : Z := 1.
Definition PF_W : Z := 2.
Definition EHDR_SIZE : Z := 64.
Definition PHDR_SIZE : Z := 56.

Record Ehdr := mkEhdr {
  e_ident : list Z; e_type : Z; e_machine : Z; e_version : Z; e_entry : Z; e_phoff : Z;
  e_shoff : Z; e_flags : Z; e_ehsize : Z; e_phentsize : Z; e_phnum : Z; e_shentsize : Z;
  e_shnum : Z; e_shstrndx : Z
}.

Record Phdr := mkPhdr {
  p_type : Z; p_flags : Z; p_offset : Z; p_vaddr : Z; p_paddr : Z; p_filesz : Z; p_memsz : Z;
  p_align : Z
}.

Record LoadedElf := mkLoaded { entry_point : Z; highest_vaddr : Z }.

(** The little-endian field of [n] bytes at [off]. *)
Definition fld (b : list Z) (off n : Z) : Z := of_le (take (Z.to_nat n) (drop (Z.to_nat off) b)).

(** [read_unaligned] of the two [repr(C)] structs. *)
Definition read_ehdr (b : list Z) : Ehdr :=
  mkEhdr (take 16 b) (fld b 16 2) (fld b 18 2) (fld b 20 4) (fld b 24 8) (fld b 32 8) (fld b 40 8)
    (fld b 48 4) (fld b 52 2) (fld b 54 2) (fld b 56 2) (fld b 58 2) (fld b 60 2) (fld b 62 2).
Definition read_phdr (b : list Z) (off : Z) : Phdr :=
  mkPhdr (fld b off 4) (fld b (off + 4) 4) (fld b (off + 8) 8) (fld b (off + 16) 8)
    (fld b (off + 24) 8) (fld b (off + 32) 8) (fld b (off + 40) 8) (fld b (off + 48) 8).

Definition ident (h : Ehdr) (i : Z) : Z := nth (Z.to_nat i) (e_ident h) 0.

(** The tests of [load] before the program headers. *)
Definition check_ehdr (h : Ehdr) : result unit string :=
  if negb (ident h 0 =? 0x7f) || negb (ident h 1 =? 69) || negb (ident h 2 =? 76) ||
     negb (ident h 3 =? 70) then Err "ELF: magic invalide" else
  if negb (ident h EI_CLASS =? ELFCLASS64) then Err "ELF: pas ELF64" else
  if negb (ident h EI_DATA =? ELFDATA2LSB) then Err "ELF: pas little-endian" else
  if negb (e_machine h =? EM_X86_64) then Err "ELF: pas x86_64" else
  if negb (e_type h =? ET_EXEC) && negb (e_type h =? ET_DYN)
  then Err "ELF: type non supporté (EXEC/DYN requis)" else
  if negb (e_phentsize h =? PHDR_SIZE) then Err "ELF: e_phentsize inattendu" else Ok tt.

Definition mresult {S A} (r : result A string) : M S string A :=
  match r with Ok a => mok a | Err e => mfail e end.

Section elf.
Context `{X86Paging}.

Definition seg_flags (ph : Phdr) : Z :=
  let flags := Z.lor PRESENT USER_ACCESSIBLE in
  if negb (Z.land (p_flags ph) PF_W =? 0) then Z.lor flags WRITABLE else flags.

(** One loadable segment; the new highest address. *)
Definition load_segment (bin : list Z) (ph : Phdr) (highest : Z) : KA Z :=
  let flags := seg_flags ph in
  seg_end ← mlift (p_vaddr ph +! p_memsz ph @ 64);
  va ← mlift (virt_new (p_vaddr ph));
  _ ← ensure_mapped va (p_memsz ph) flags;
  _ ← (if bool_decide (0 < p_filesz ph) then
         let src_start := p_offset ph in
         src_end ← mlift (src_start +! p_filesz ph @ 64);
         if bool_decide (lenZ bin < src_end) then mfail "ELF: segment hors fichier" else
         src ← mlift (slice bin src_start src_end);
         va ← mlift (virt_new (p_vaddr ph));
         write_data va src flags
       else mok tt);
  mok (if bool_decide (highest < seg_end) then seg_end else highest).

(** The rounds of the loop from program header [i] on, [n] of them. *)
Fixpoint load_loop (bin : list Z) (h : Ehdr) (n : nat) (i highest : Z) : KA Z :=
  match n with
  | O => mok highest
  | S n' =>
      off ← mlift (o ← i *! e_phentsize h @ 64; e_phoff h +! o @ 64);
      let ph := read_phdr bin off in
      if negb (p_type ph =? PT_LOAD) then load_loop bin h n' (i + 1) highest else
      if bool_decide (p_memsz ph < p_filesz ph) then mfail "ELF: p_filesz > p_memsz" else
      if p_memsz ph =? 0 then load_loop bin h n' (i + 1) highest else
      highest ← load_segment bin ph highest;
      load_loop bin h n' (i + 1) highest
  end.

Definition elf_load (bin : list Z) : KA LoadedElf :=
  if bool_decide (lenZ bin < EHDR_SIZE) then mfail "ELF: fichier tronqué" else
  let ehdr := read_ehdr bin in
  _ ← mresult (check_ehdr ehdr);
  ph_total ← mlift (e_phentsize ehdr *! e_phnum ehdr @ 64);
  ph_end ← mlift (e_phoff ehdr +! ph_total @ 64);
  if bool_decide (lenZ bin < ph_end) then mfail "ELF: program headers hors fichier" else
  highest ← load_loop bin ehdr (Z.to_nat (e_phnum ehdr)) 0 0;
  if e_entry ehdr =? 0 then mfail "ELF: e_entry = 0" else
  entry ← mlift (virt_new (e_entry ehdr));
  mok (mkLoaded entry highest).

Definition map_user_stack (stack_top pages : Z) : KA Z :=
  let flags := Z.lor (Z.lor PRESENT WRITABLE) USER_ACCESSIBLE in
  base ← mlift (o ← pages *! 4096 @ 64; stack_top -! o);
  _ ← mfor (seqZ 0 pages) (fun i =>
        page ← mlift (o ← i *! 4096 @ 64; addr ← base +! o @ 64; v ← virt_new addr; Ret (containing v));
        _ ← map_alloc page flags;
        mok tt);
  mlift (x ← stack_top -! 16; virt_new x).

End elf.

(** * Correctness of the ELF loader

    The memory image a binary describes, and the theorem that [elf_load]
    builds it in an empty address space. *)

(** ** The image of a binary *)

Definition phdrs (bin : list Z) : list Phdr :=
  (fun i => read_phdr bin (e_phoff (read_ehdr bin) + i * PHDR_SIZE)) <$> seqZ 0 (e_phnum (read_ehdr bin)).

Definition loadable (ph : Phdr) : bool := (p_type ph =? PT_LOAD) && negb (p_memsz ph =? 0).

(** The segments to load, in the order of their headers. *)
Definition segments (bin : list Z) : list Phdr := List.filter loadable (phdrs bin).

Definition covers (ph : Phdr) (va : Z) : Prop := p_vaddr ph <= va < p_vaddr ph + p_memsz ph.
Definition in_file (ph : Phdr) (va : Z) : Prop := p_vaddr ph <= va < p_vaddr ph + p_filesz ph.

(** The byte at [va]: the file byte of the last segment that has one there,
    or zero. *)
Definition image (bin : list Z) (segs : list Phdr) (va : Z) : Z :=
  fold_left (fun b ph => if bool_decide (p_vaddr ph <= va < p_vaddr ph + p_filesz ph)
                         then bin !!! Z.to_nat (p_offset ph + (va - p_vaddr ph)) else b) segs 0.

Definition segs_end (segs : list Phdr) : Z :=
  fold_left (fun h ph => Z.max h (p_vaddr ph + p_memsz ph)) segs 0.

(** What the loader needs of a segment: the file part inside the segment and
    inside the file, and addresses of the lower half. *)
Definition seg_ok (bin : list Z) (ph : Phdr) : Prop :=
  p_filesz ph <= p_memsz ph /\ p_vaddr ph + p_memsz ph + 4096 < 2 ^ 47 /\
  p_offset ph + p_filesz ph <= lenZ bin.

Record elf_ok (bin : list Z) : Prop := mkElfOk {
  eo_bytes : bytes_ok bin;
  eo_len : EHDR_SIZE <= lenZ bin < 2 ^ 63;
  eo_check : check_ehdr (read_ehdr bin) = Ok tt;
  eo_phdrs : e_phoff (read_ehdr bin) + e_phnum (read_ehdr bin) * PHDR_SIZE <= lenZ bin;
  eo_entry : 0 < e_entry (read_ehdr bin) < 2 ^ 47;
  eo_segs : forall ph, ph ∈ phdrs bin -> p_type ph = PT_LOAD -> seg_ok bin ph
}.

Lemma image_snoc bin segs ph va :
  image bin (segs ++ [ph]) va =
    if bool_decide (in_file ph va) then bin !!! Z.to_nat (p_offset ph + (va - p_vaddr ph))
    else image bin segs va.
Proof. unfold image. by rewrite fold_left_app. Qed.

Lemma segs_end_snoc segs ph : segs_end (segs ++ [ph]) = Z.max (segs_end segs) (p_vaddr ph + p_memsz ph).
Proof. unfold segs_end. by rewrite fold_left_app. Qed.

Lemma fld_nonneg b off n : bytes_ok b -> 0 <= fld b off n.
Proof. intros Hb. unfold fld. apply of_le_range. by apply Forall_take, Forall_drop. Qed.

(** The fields of a program header are unsigned. *)
Record phdr_pos (ph : Phdr) : Prop := mkPos {
  pos_offset : 0 <= p_offset ph;
  pos_vaddr : 0 <= p_vaddr ph;
  pos_filesz : 0 <= p_filesz ph;
  pos_memsz : 0 <= p_memsz ph
}.
Lemma read_phdr_pos b off : bytes_ok b -> phdr_pos (read_phdr b off).
Proof. intros Hb. constructor; by apply fld_nonneg. Qed.

Lemma seg_flags_ok ph : leaf_flags_ok (seg_flags ph).
Proof. unfold seg_flags. case_match; by vm_compute. Qed.

(** The range of a slice that is inside. *)
Lemma slice_inside {A} (l : list A) lo hi :
  0 <= lo <= hi -> hi <= lenZ l ->
  slice l lo hi = Ret (take (Z.to_nat (hi - lo)) (drop (Z.to_nat lo) l)).
Proof. intros Hlo Hhi. unfold slice. rewrite bool_decide_eq_true_2 by lia. done. Qed.

Lemma page_range_elem start e p :
  p ∈ page_range start e <-> exists i, p = start + 4096 * i /\ 0 <= i < (e - start + 4095) / 4096.
Proof.
  unfold page_range. rewrite list_elem_of_fmap. setoid_rewrite elem_of_seqZ. naive_solver lia.
Qed.

(** The pages of a range of addresses. *)
Lemma page_range_covers lo len p :
  0 < len ->
  p ∈ page_range (frame_of lo) (frame_of (lo + len + 4095)) <->
    exists va, lo <= va < lo + len /\ frame_of va = p.
Proof.
  intros Hlen. rewrite page_range_elem. unfold frame_of.
  set (a := lo / 4096). set (e := (lo + len + 4095) / 4096).
  replace ((e * 4096 - a * 4096 + 4095) / 4096) with (e - a).
  2:{ rewrite <- Z.mul_sub_distr_r, Z.div_add_l by done. change (4095 / 4096) with 0. lia. }
  pose proof (Z.div_mod lo 4096 ltac:(done)) as Ha. pose proof (Z.mod_pos_bound lo 4096 ltac:(done)).
  pose proof (Z.div_mod (lo + len + 4095) 4096 ltac:(done)) as He.
  pose proof (Z.mod_pos_bound (lo + len + 4095) 4096 ltac:(done)). fold a in Ha. fold e in He.
  split.
  - intros (i & -> & Hi). exists (Z.max lo (4096 * (a + i))). split; [lia|].
    rewrite <- (Z.div_unique (Z.max lo (4096 * (a + i))) 4096 (a + i) (Z.max lo (4096 * (a + i)) - 4096 * (a + i)));
      lia.
  - intros (va & Hva & <-). exists (va / 4096 - a).
    pose proof (Z.div_mod va 4096 ltac:(done)). pose proof (Z.mod_pos_bound va 4096 ltac:(done)). lia.
Qed.

Section load.
Context `{PagingLaws}.

(** ** Mapping a range *)

(** The pages a call added are blank. *)
Definition blank (k' : kmem) (s s' : AddressSpace) : Prop :=
  forall va, mapped_pages s !! frame_of va = None -> is_Some (mapped_pages s' !! frame_of va) ->
    user_read (km_mem k') (p4 s') va = Some 0.

(** The pages a call added are among those of [P]. *)
Definition added (P : Z -> Prop) (s s' : AddressSpace) : Prop :=
  forall p, is_Some (mapped_pages s' !! p) -> is_Some (mapped_pages s !! p) \/ P p.

Definition ensure_page (flags cur : Z) : KA unit :=
  page ← mlift (v ← virt_new cur; Ret (containing v));
  '(_, s) ← mget;
  match mapped_pages s !! cur with
  | Some _ => mok tt
  | None => _ ← map_alloc page flags; mok tt
  end.

Lemma wrote_refl lo k s : wrote lo lo k s k s.
Proof. by constructor. Qed.

Lemma ensure_page_spec total fa k s flags cur :
  as_ok total fa k s -> inj_pages s -> low_page cur -> leaf_flags_ok flags ->
  exists fa' k' s' r, ensure_page flags cur (k, s) = Ret ((k', s'), r) /\
    as_ok total fa' k' s' /\ inj_pages s' /\ wrote 0 0 k s k' s' /\ blank k' s s' /\ added (eq cur) s s' /\
    (r = Ok tt -> is_Some (mapped_pages s' !! cur)) /\
    ((mapped_pages s !! cur = None -> vacant (km_mem k) (p4 s) cur) -> r = Ok tt \/ exhausted fa').
Proof.
  intros Has Hinj Hlow Hfl. unfold ensure_page. pose proof Hlow as [Hc _].
  assert (frame_of cur = cur) as Hfc by (apply frame_of_id; destruct Hlow; split; [lia|done]).
  rewrite virt_new_low by done. cbn [mbind outcome_bind]. rewrite containing_spec, Hfc by lia.
  erewrite bind_ok by reflexivity. erewrite bind_ok by reflexivity. cbn beta iota.
  destruct (mapped_pages s !! cur) as [f|] eqn:Ef.
  { exists fa, k, s, (Ok tt). split_and!; [done..|by apply wrote_refl| |by left|intros _; by exists f|intros _; by left].
    intros va Hn [? ?]. congruence. }
  destruct (map_alloc_spec total fa k s cur flags)
    as (fa1 & k1 & s1 & r & E & Has1 & Hp4 & Hds & Hfr & Hvac & Hprog & Hr); [done..|].
  assert (wrote 0 0 k s k1 s1) as Hwr.
  { eapply (map_alloc_wrote total fa _ _ cur fa1 _ _ r); try done. by destruct r as [f|e]; [destruct Hr|]. }
  destruct r as [f|e].
  - destruct Hr as (Hpages & Hff & Hz & _). erewrite bind_ok by done.
    exists fa1, k1, s1, (Ok tt). split_and!; try done; [by eapply (inj_pages_insert total fa k s)| | | |by left].
    + intros va Hn Hs. assert (mapped_pages s1 !! frame_of va = Some f) as Hf.
      { rewrite Hpages in *. destruct (decide (frame_of va = cur)) as [->|Hne]; [apply lookup_insert_eq|].
        rewrite lookup_insert_ne, Hn in Hs by done. by destruct Hs. }
      rewrite (user_read_mapped _ _ _ _ _ _ Has1 Hf). f_equal. apply Hz.
      destruct (as_pages _ _ _ _ Has1 _ _ Hf) as (_ & Hdf & _).
      by apply (data_frame_addr _ _ _ _ _ Hdf), Z.mod_pos_bound.
    + intros q. rewrite Hpages. destruct (decide (q = cur)) as [->|Hne]; [by right|].
      rewrite lookup_insert_ne by done. by left.
    + intros _. rewrite Hpages, lookup_insert_eq. by eexists.
  - erewrite bind_err by done. exists fa1, k1, s1, (Err e). split_and!; try done.
    + intros va va' g. rewrite Hr. apply Hinj.
    + intros va Hn [? ?]. congruence.
    + intros q. rewrite Hr. by left.
    + intros Hv. destruct Hprog as [?|?]; [by apply Hv|done|by right].
Qed.

Lemma blank_trans k' k'' s s' s'' lo :
  wrote lo lo k' s' k'' s'' -> blank k' s s' -> blank k'' s' s'' -> blank k'' s s''.
Proof.
  intros Hwr Hb1 Hb2 va Hn Hs. destruct (mapped_pages s' !! frame_of va) as [f|] eqn:Ef.
  - rewrite (wr_same _ _ _ _ _ _ Hwr) by (by eexists || lia). apply Hb1; [done|]. by eexists.
  - by apply Hb2.
Qed.

Lemma ensure_pages_spec total flags l : forall fa k s,
  as_ok total fa k s -> inj_pages s -> Forall low_page l -> leaf_flags_ok flags ->
  exists fa' k' s' r, mfor l (ensure_page flags) (k, s) = Ret ((k', s'), r) /\
    as_ok total fa' k' s' /\ inj_pages s' /\ wrote 0 0 k s k' s' /\ blank k' s s' /\ added (fun p => p ∈ l) s s' /\
    (r = Ok tt -> forall p, p ∈ l -> is_Some (mapped_pages s' !! p)) /\
    ((forall p, p ∈ l -> mapped_pages s !! p = None -> vacant (km_mem k) (p4 s) p) ->
       r = Ok tt \/ exhausted fa').
Proof.
  induction l as [|p l IH]; intros fa k s Has Hinj Hl Hfl.
  { exists fa, k, s, (Ok tt). split_and!; [done..|by apply wrote_refl| |by left| |intros _; by left].
    - intros va Hn [? ?]. congruence.
    - intros _ p Hp. by apply not_elem_of_nil in Hp. }
  apply Forall_cons in Hl as [Hp Hl].
  destruct (ensure_page_spec total fa k s flags p)
    as (fa1 & k1 & s1 & r1 & E1 & Has1 & Hinj1 & Hwr1 & Hb1 & Ha1 & Hm1 & Hv1); [done..|].
  cbn [mfor]. unfold mbindM at 1. rewrite E1. destruct r1 as [[]|e].
  2:{ exists fa1, k1, s1, (Err e). split_and!; try done.
      { intros q [?| ->]%Ha1; [by left|right; by left]. }
      intros Hv. right. destruct Hv1 as [?|?]; [|done|done]. apply Hv. by left. }
  destruct (IH fa1 k1 s1) as (fa2 & k2 & s2 & r2 & E2 & Has2 & Hinj2 & Hwr2 & Hb2 & Ha2 & Hm2 & Hv2); [done..|].
  exists fa2, k2, s2, r2. split_and!; try done.
  - by eapply (wrote_trans 0 0).
  - by eapply blank_trans.
  - intros q [[?| ->]%Ha1|?]%Ha2; [by left|right; by left|right; by right].
  - intros Hr q [->|Hq]%elem_of_cons; [|by apply Hm2].
    destruct (Hm1 eq_refl) as [f Hf]. exists f. eapply lookup_weaken; [done|apply Hwr2].
  - intros Hv. apply Hv2. intros q Hq Hn.
    pose proof (proj1 (Forall_forall _ _) Hl q Hq) as Hlq.
    assert (frame_of q = q) as Eq by (apply frame_of_id; destruct Hlq; split; [lia|done]).
    apply (wr_vacant _ _ _ _ _ _ Hwr1); [apply Hlq|by rewrite Eq|].
    apply Hv; [by right|]. eapply lookup_weaken_None; [done|apply Hwr1].
Qed.

(** Every address of the range gets a page; new pages are blank. *)
Lemma ensure_mapped_spec total fa k s vaddr len flags :
  as_ok total fa k s -> inj_pages s -> 0 <= vaddr -> 0 < len -> vaddr + len + 4096 < 2 ^ 47 ->
  leaf_flags_ok flags ->
  exists fa' k' s' r, ensure_mapped vaddr len flags (k, s) = Ret ((k', s'), r) /\
    as_ok total fa' k' s' /\ inj_pages s' /\ wrote 0 0 k s k' s' /\ blank k' s s' /\
    added (fun p => exists va, vaddr <= va < vaddr + len /\ frame_of va = p) s s' /\
    (r = Ok tt -> forall va, vaddr <= va < vaddr + len -> is_Some (mapped_pages s' !! frame_of va)) /\
    (clear_pages k s vaddr (vaddr + len) -> r = Ok tt \/ exhausted fa').
Proof.
  intros Has Hinj Hv Hlen Hend Hfl. unfold ensure_mapped.
  rewrite containing_spec by lia. rewrite add_chk_ok by lia. cbn [mbind outcome_bind].
  rewrite add_chk_ok by lia. cbn [mbind outcome_bind].
  rewrite land_page_mask by (unfold fits; lia). erewrite bind_ok by reflexivity.
  change ((vaddr + len + 4095) / 4096 * 4096) with (frame_of (vaddr + len + 4095)).
  destruct (ensure_pages_spec total flags (page_range (frame_of vaddr) (frame_of (vaddr + len + 4095))) fa k s)
    as (fa' & k' & s' & r & E & Has' & Hinj' & Hwr & Hb & Ha & Hm & Hprog); [done|done| |done|].
  { apply Forall_forall. intros p (va & Hva & <-)%page_range_covers; [|done].
    apply low_page_frame_of. lia. }
  exists fa', k', s', r. split_and!; try done.
  - intros p [?|Hp]%Ha; [by left|]. right. by apply page_range_covers.
  - intros Hr va Hva. apply Hm; [done|]. apply page_range_covers; [done|]. by exists va.
  - intros Hc. apply Hprog. intros p (va & Hva & <-)%page_range_covers Hn; [|done].
    by apply vacant_frame_of, Hc.
Qed.

(** ** Loading the segments *)

Lemma wrote_seq lo hi lo1 hi1 lo2 hi2 k1 s1 k2 s2 k3 s3 :
  lo <= lo1 -> hi1 <= hi -> lo <= lo2 -> hi2 <= hi ->
  wrote lo1 hi1 k1 s1 k2 s2 -> wrote lo2 hi2 k2 s2 k3 s3 -> wrote lo hi k1 s1 k3 s3.
Proof.
  intros ???? [P1 G1 S1 V1] [P2 G2 S2 V2]. constructor; [congruence|by etrans| |].
  - intros va [f Hf] Hn. rewrite S2, S1; [done|by eexists|lia| |lia].
    exists f. by eapply lookup_weaken.
  - intros va Hva Hnone Hv. apply V2; [done|done|]. apply V1; [done| |done].
    by eapply lookup_weaken_None.
Qed.

Lemma clear_wrote lo hi k s k' s' a b :
  0 <= a -> b <= 2 ^ 47 -> wrote lo hi k s k' s' -> clear_pages k s a b -> clear_pages k' s' a b.
Proof.
  intros Ha Hb Hwr Hc va Hva Hn. apply (wr_vacant _ _ _ _ _ _ Hwr); [lia|done|].
  apply Hc; [done|]. eapply lookup_weaken_None; [done|apply Hwr].
Qed.

(** The space holds the image of [segs] and nothing else. *)
Record loaded (bin : list Z) (segs : list Phdr) (k : kmem) (s : AddressSpace) : Prop := mkLd {
  ld_read : forall va, is_Some (mapped_pages s !! frame_of va) ->
    user_read (km_mem k) (p4 s) va = Some (image bin segs va);
  ld_covers : forall ph va, ph ∈ segs -> covers ph va -> is_Some (mapped_pages s !! frame_of va);
  ld_only : forall p, is_Some (mapped_pages s !! p) -> exists ph va, ph ∈ segs /\ covers ph va /\ frame_of va = p
}.
Definition seg_clear (k : kmem) (s : AddressSpace) (ph : Phdr) : Prop :=
  clear_pages k s (p_vaddr ph) (p_vaddr ph + p_memsz ph).

(** After the pages of the segment are there. *)
Lemma loaded_ensure bin segs ph k s k' s' :
  loaded bin segs k s -> wrote 0 0 k s k' s' -> blank k' s s' ->
  added (fun p => exists va, covers ph va /\ frame_of va = p) s s' ->
  (forall va, covers ph va -> is_Some (mapped_pages s' !! frame_of va)) ->
  (forall va, image bin segs va <> 0 -> is_Some (mapped_pages s !! frame_of va)) ->
  (forall va, is_Some (mapped_pages s' !! frame_of va) ->
     user_read (km_mem k') (p4 s') va = Some (image bin segs va)) /\
  (forall ph' va, ph' ∈ segs ++ [ph] -> covers ph' va -> is_Some (mapped_pages s' !! frame_of va)) /\
  (forall p, is_Some (mapped_pages s' !! p) -> exists ph' va, ph' ∈ segs ++ [ph] /\ covers ph' va /\ frame_of va = p).
Proof.
  intros [Hr Hc Ho] Hwr Hb Ha Hm Hz. split_and!.
  - intros va Hs. destruct (mapped_pages s !! frame_of va) as [f|] eqn:Ef.
    + rewrite (wr_same _ _ _ _ _ _ Hwr) by (by eexists || lia). apply Hr. by eexists.
    + rewrite Hb by done. f_equal. destruct (decide (image bin segs va = 0)) as [->|Hne]; [done|].
      destruct (Hz va Hne). congruence.
  - intros ph' va [Hin| ->%list_elem_of_singleton]%elem_of_app Hcov; [|by apply Hm].
    destruct (Hc ph' va Hin Hcov) as [f Hf]. exists f. eapply lookup_weaken; [done|apply Hwr].
  - intros p [Hs|(va & Hcov & <-)]%Ha.
    + destruct (Ho p Hs) as (ph' & va & Hin & ?). exists ph', va. rewrite elem_of_app. naive_solver.
    + exists ph, va. rewrite elem_of_app, list_elem_of_singleton. naive_solver.
Qed.

(** The image is zero outside the segments. *)
Lemma image_covers bin segs va :
  (forall ph, ph ∈ segs -> p_filesz ph <= p_memsz ph) ->
  image bin segs va <> 0 -> exists ph, ph ∈ segs /\ covers ph va.
Proof.
  induction segs as [|ph segs IH] using rev_ind; intros Hsz Hne; [done|].
  rewrite image_snoc in Hne. case_bool_decide as Hin.
  - exists ph. rewrite elem_of_app, list_elem_of_singleton. split; [by right|].
    assert (p_filesz ph <= p_memsz ph) by (apply Hsz; rewrite elem_of_app, list_elem_of_singleton; by right).
    unfold covers, in_file in *. lia.
  - destruct IH as (ph' & ? & ?); [|done|].
    + intros ph' Hph. apply Hsz. rewrite elem_of_app. by left.
    + exists ph'. rewrite elem_of_app. naive_solver.
Qed.

(** The bytes of the file part. *)
Lemma file_part_lookup (bin : list Z) ph i :
  phdr_pos ph -> p_offset ph + p_filesz ph <= lenZ bin -> 0 <= i < p_filesz ph ->
  let src := take (Z.to_nat (p_offset ph + p_filesz ph - p_offset ph)) (drop (Z.to_nat (p_offset ph)) bin) in
  lenZ src = p_filesz ph /\ src !!! Z.to_nat i = bin !!! Z.to_nat (p_offset ph + i).
Proof.
  intros [] Hlen Hi src. unfold src, lenZ in *. split.
  - rewrite length_take, length_drop. lia.
  - rewrite !list_lookup_total_alt, lookup_take_lt, lookup_drop by lia. do 2 f_equal. lia.
Qed.

(** The copy of the file part into pages that are there. *)
Definition copy_part (bin : list Z) (ph : Phdr) : KA unit :=
  if bool_decide (0 < p_filesz ph) then
    src_end ← mlift (p_offset ph +! p_filesz ph @ 64);
    if bool_decide (lenZ bin < src_end) then mfail "ELF: segment hors fichier" else
    src ← mlift (slice bin (p_offset ph) src_end);
    va ← mlift (virt_new (p_vaddr ph));
    write_data va src (seg_flags ph)
  else mok tt.

Lemma copy_part_spec total bin segs ph fa k s :
  as_ok total fa k s -> inj_pages s -> bytes_ok bin -> lenZ bin < 2 ^ 63 -> phdr_pos ph -> seg_ok bin ph ->
  (forall va, is_Some (mapped_pages s !! frame_of va) -> user_read (km_mem k) (p4 s) va = Some (image bin segs va)) ->
  (forall va, covers ph va -> is_Some (mapped_pages s !! frame_of va)) ->
  exists fa' k', copy_part bin ph (k, s) = Ret ((k', s), Ok tt) /\
    as_ok total fa' k' s /\ wrote 0 (2 ^ 47) k s k' s /\
    (forall va, is_Some (mapped_pages s !! frame_of va) ->
       user_read (km_mem k') (p4 s) va = Some (image bin (segs ++ [ph]) va)).
Proof.
  intros Has Hinj Hb Hlen Hpos (Hfm & Hend & Hoff) Hr Hm. pose proof Hpos as [].
  unfold copy_part. case_bool_decide as Hfs.
  2:{ exists fa, k. split_and!; try done. intros va Hs.
      rewrite image_snoc, bool_decide_eq_false_2; [by apply Hr|]. unfold in_file. lia. }
  rewrite add_chk_ok by lia. erewrite bind_ok by reflexivity. rewrite bool_decide_eq_false_2 by lia.
  rewrite slice_inside by lia. erewrite bind_ok by reflexivity.
  rewrite virt_new_low by lia. erewrite bind_ok by reflexivity.
  pose proof (fun i Hi => file_part_lookup bin ph i Hpos Hoff Hi) as Hsrc. cbv zeta in Hsrc.
  set (src := take _ _) in *. destruct (Hsrc 0 ltac:(lia)) as [Hl _].
  destruct (write_loop_spec total (seg_flags ph) (length src) fa k s (p_vaddr ph) src)
    as (fa' & k' & s' & r & E & Has' & Hinj' & Hwr & Hread & _ & Hall);
    [done|done|lia|lia|done|by apply Forall_take, Forall_drop|apply seg_flags_ok|].
  destruct Hall as [-> ->]. { intros i Hi. apply Hm. unfold covers. lia. }
  exists fa', k'. split_and!; [done|done| |].
  - eapply (wrote_seq 0 (2 ^ 47) (p_vaddr ph) (p_vaddr ph + lenZ src) 0 0); [lia..|done|apply wrote_refl].
  - intros va Hs. rewrite image_snoc. case_bool_decide as Hin; unfold in_file in Hin.
    + destruct (Hread eq_refl (va - p_vaddr ph)) as [_ Hu]; [lia|].
      replace (p_vaddr ph + (va - p_vaddr ph)) with va in Hu by lia.
      rewrite Hu. f_equal. apply Hsrc. lia.
    + rewrite (wr_same _ _ _ _ _ _ Hwr) by (done || lia). by apply Hr.
Qed.

Lemma load_segment_spec total bin segs ph highest fa k s :
  as_ok total fa k s -> inj_pages s -> loaded bin segs k s ->
  bytes_ok bin -> lenZ bin < 2 ^ 63 -> phdr_pos ph -> seg_ok bin ph -> p_memsz ph <> 0 ->
  (forall ph, ph ∈ segs -> p_filesz ph <= p_memsz ph) ->
  exists fa' k' s' r, load_segment bin ph highest (k, s) = Ret ((k', s'), r) /\
    as_ok total fa' k' s' /\ inj_pages s' /\ wrote 0 (2 ^ 47) k s k' s' /\
    (seg_clear k s ph -> is_ok r = true \/ exhausted fa') /\
    match r with
    | Ok h => h = Z.max highest (p_vaddr ph + p_memsz ph) /\ loaded bin (segs ++ [ph]) k' s'
    | Err _ => True
    end.
Proof.
  intros Has Hinj Hld Hb Hlen Hpos Hseg Hm0 Hsz. pose proof Hpos as []. pose proof Hseg as (Hfm & Hend & Hoff).
  change (load_segment bin ph highest) with
    (seg_end ← mlift (p_vaddr ph +! p_memsz ph @ 64); va ← mlift (virt_new (p_vaddr ph));
     _ ← ensure_mapped va (p_memsz ph) (seg_flags ph); _ ← copy_part bin ph;
     mok (if bool_decide (highest < seg_end) then seg_end else highest)).
  rewrite add_chk_ok by lia. erewrite bind_ok by reflexivity.
  rewrite virt_new_low by lia. erewrite bind_ok by reflexivity.
  destruct (ensure_mapped_spec total fa k s (p_vaddr ph) (p_memsz ph) (seg_flags ph))
    as (fa1 & k1 & s1 & [[]|e] & E1 & Has1 & Hinj1 & Hwr1 & Hb1 & Ha1 & Hm1 & Hp1);
    [done|done|lia|lia|lia|apply seg_flags_ok| |].
  2:{ erewrite bind_err by done. exists fa1, k1, s1, (Err e). split_and!; try done.
      - by eapply (wrote_seq 0 (2 ^ 47) 0 0 0 0); [..|apply wrote_refl].
      - intros [?|?]%Hp1; [done|by right]. }
  erewrite bind_ok by done.
  destruct (loaded_ensure bin segs ph k s k1 s1) as (Hr & Hc & Ho); [done..|by apply Hm1| |].
  { intros va (ph' & Hin & Hcov)%image_covers; [|done]. by apply (ld_covers _ _ _ _ Hld ph'). }
  destruct (copy_part_spec total bin segs ph fa1 k1 s1) as (fa2 & k2 & E2 & Has2 & Hwr2 & Hr2);
    [done..|by apply Hm1|].
  erewrite bind_ok by done.
  exists fa2, k2, s1, (Ok (Z.max highest (p_vaddr ph + p_memsz ph))). split_and!; try done.
  - unfold mok. do 3 f_equal. case_bool_decide; lia.
  - by eapply (wrote_seq 0 (2 ^ 47) 0 0 0 (2 ^ 47)).
  - by left.
Qed.

(** The headers the loop still has to read. *)
Definition phdrs_from (bin : list Z) (n : nat) (i : Z) : list Phdr :=
  (fun j => read_phdr bin (e_phoff (read_ehdr bin) + j * PHDR_SIZE)) <$> seqZ i (Z.of_nat n).

Lemma phdrs_from_S bin n i :
  phdrs_from bin (S n) i =
    read_phdr bin (e_phoff (read_ehdr bin) + i * PHDR_SIZE) :: phdrs_from bin n (i + 1).
Proof.
  unfold phdrs_from. rewrite seqZ_cons by lia. simpl. do 3 f_equal; lia.
Qed.

Lemma check_phentsize h : check_ehdr h = Ok tt -> e_phentsize h = PHDR_SIZE.
Proof.
  unfold check_ehdr. repeat (destruct (_ || _); [done|]). do 3 (destruct (negb (_ =? _)); [done|]).
  destruct (_ && _); [done|]. destruct (Z.eqb_spec (e_phentsize h) PHDR_SIZE); done.
Qed.

Lemma ehdr_nonneg bin :
  bytes_ok bin -> 0 <= e_phoff (read_ehdr bin) /\ 0 <= e_phnum (read_ehdr bin).
Proof. intros Hb. split; by apply fld_nonneg. Qed.

Lemma load_loop_S bin n i highest :
  elf_ok bin -> 0 <= i -> i + Z.of_nat (S n) <= e_phnum (read_ehdr bin) ->
  load_loop bin (read_ehdr bin) (S n) i highest =
    mbind (fun off => let ph := read_phdr bin off in
      if negb (p_type ph =? PT_LOAD) then load_loop bin (read_ehdr bin) n (i + 1) highest else
      if bool_decide (p_memsz ph < p_filesz ph) then mfail "ELF: p_filesz > p_memsz" else
      if p_memsz ph =? 0 then load_loop bin (read_ehdr bin) n (i + 1) highest else
      highest ← load_segment bin ph highest; load_loop bin (read_ehdr bin) n (i + 1) highest)
    (mok (e_phoff (read_ehdr bin) + i * PHDR_SIZE)).
Proof.
  intros [Hb Hlen Hchk Hph _ _] Hi Hn. destruct (ehdr_nonneg bin Hb).
  cbn [load_loop]. rewrite (check_phentsize _ Hchk). unfold PHDR_SIZE in *.
  rewrite mul_chk_ok by lia. cbn [mbind outcome_bind]. rewrite add_chk_ok by lia. done.
Qed.

Lemma load_loop_spec total bin n : forall i highest segs fa k s,
  elf_ok bin -> 0 <= i -> i + Z.of_nat n <= e_phnum (read_ehdr bin) ->
  as_ok total fa k s -> inj_pages s -> loaded bin segs k s ->
  (forall ph, ph ∈ segs -> p_filesz ph <= p_memsz ph) ->
  (forall ph, ph ∈ phdrs_from bin n i -> p_type ph = PT_LOAD -> seg_ok bin ph) ->
  let rest := List.filter loadable (phdrs_from bin n i) in
  exists fa' k' s' r, load_loop bin (read_ehdr bin) n i highest (k, s) = Ret ((k', s'), r) /\
    as_ok total fa' k' s' /\ inj_pages s' /\
    ((forall ph, ph ∈ rest -> seg_clear k s ph) -> is_ok r = true \/ exhausted fa') /\
    match r with
    | Ok h => h = fold_left (fun h ph => Z.max h (p_vaddr ph + p_memsz ph)) rest highest /\
        loaded bin (segs ++ rest) k' s'
    | Err _ => True
    end.
Proof.
  induction n as [|n IH]; intros i highest segs fa k s Hok Hi Hn Has Hinj Hld Hsz Hsegs rest.
  { exists fa, k, s, (Ok highest). unfold rest, phdrs_from. simpl. rewrite app_nil_r. split_and!; try done. by left. }
  pose proof (eo_bytes _ Hok) as Hb. rewrite load_loop_S by done.
  rewrite (bind_ok _ _ _ (k, s) (e_phoff (read_ehdr bin) + i * PHDR_SIZE)) by reflexivity. cbv zeta.
  unfold rest. rewrite phdrs_from_S in *. set (ph := read_phdr bin _) in *.
  assert (forall ph', ph' ∈ phdrs_from bin n (i + 1) -> p_type ph' = PT_LOAD -> seg_ok bin ph') as Hsegs'.
  { intros ph' Hin. apply Hsegs. by right. }
  cbn [List.filter]. change (loadable ph) with ((p_type ph =? PT_LOAD) && negb (p_memsz ph =? 0)).
  destruct (Z.eqb_spec (p_type ph) PT_LOAD) as [Hty|]; cbn [negb andb].
  2:{ apply (IH (i + 1) highest segs fa); (done || lia). }
  assert (seg_ok bin ph) as Hseg by (apply Hsegs; [by left|done]). pose proof Hseg as (Hfm & Hend & _).
  rewrite bool_decide_eq_false_2 by lia. destruct (Z.eqb_spec (p_memsz ph) 0) as [|Hm0]; cbn [negb].
  { apply (IH (i + 1) highest segs fa); (done || lia). }
  destruct (load_segment_spec total bin segs ph highest fa k s)
    as (fa1 & k1 & s1 & r & E & Has1 & Hinj1 & Hwr & Hp & Hr); try done; [apply Hok|by apply read_phdr_pos|].
  destruct r as [h|e].
  2:{ erewrite bind_err by done. exists fa1, k1, s1, (Err e). split_and!; try done.
      intros Hc. destruct Hp; [apply Hc; by left|done|by right]. }
  destruct Hr as [-> Hld1]. erewrite bind_ok by done.
  destruct (IH (i + 1) (Z.max highest (p_vaddr ph + p_memsz ph)) (segs ++ [ph]) fa1 k1 s1)
    as (fa2 & k2 & s2 & r & E2 & Has2 & Hinj2 & Hp2 & Hr2); try done; [lia|lia| |].
  { intros ph' [?| ->%list_elem_of_singleton]%elem_of_app; [by apply Hsz|done]. }
  exists fa2, k2, s2, r. rewrite <- app_assoc in Hr2. split_and!; try done.
  intros Hc. apply Hp2. intros ph' Hin. assert (phdr_pos ph' /\ seg_ok bin ph') as [[] (? & ? & ?)].
  { apply list_elem_of_In, filter_In in Hin as [Hin Hl]. apply list_elem_of_In in Hin.
    split; [apply list_elem_of_fmap in Hin as (j & -> & _); by apply read_phdr_pos|].
    apply Hsegs'; [done|]. unfold loadable in Hl. lia. }
  eapply clear_wrote; [lia| |done|apply Hc; by right]. lia.
Qed.

End load.

