(* ===== verification/MemoryDemo.v ===== *)
(** * A concrete address space

    A small page table with one copy-on-write page, over the mapper of
    PagingModel, at which the theorems on address spaces are applied. *)
From S2P Require Import Prelude Phys FrameAllocator FrameRefcount Paging AddressSpace.
From S2P Require Import AddressSpaceCorrect CowCorrect CloneCorrect DestroyCorrect PagingModel Elf.
Local Open Scope Z_scope.

(** P4, P3, P2 and P1 at 0x1000 to 0x4000; the page 0x5000 on frame 0x6000,
    user-readable and marked. *)
Definition demo_flags : Z := Z.lor (Z.lor PRESENT USER_ACCESSIBLE) COW_MARKER.
Definition demo_mem : phys :=
  store_u64 (store_u64 (store_u64 (store_u64 (fun _ => 0)
    0x1000 0x2007) 0x2000 0x3007) 0x3000 0x4007) 0x4028 (Z.lor 0x6000 demo_flags).
Definition demo_as : AddressSpace := mkAS_ 0x1000 {[0x5000 := 0x6000]}.
Definition demo_kmem (fa : BitmapFrameAllocator) (count : Z) : kmem :=
  mkKmem (Some fa) demo_mem (mkRC [0; 0; 0; 0; 0; 0; count]) 0x1000 None None.

Lemma demo_mem_ok : mem_ok demo_mem.
Proof. repeat apply mem_ok_store. done. Qed.

Lemma demo_entry t i :
  t ∈ [0x1000; 0x2000; 0x3000] -> 0 <= i < 512 ->
  entry demo_mem t i = if bool_decide (i = 0) then t + 0x1007 else 0.
Proof.
  intros Ht Hi. unfold entry, demo_mem, entry_slot.
  repeat (apply elem_of_cons in Ht as [->|Ht]); [..|by apply not_elem_of_nil in Ht].
  all: case_bool_decide as E; [subst i; vm_compute; reflexivity|].
  all: rewrite !load_store_u64_ne by lia; vm_compute; reflexivity.
Qed.

Lemma demo_next t i :
  t ∈ [0x1000; 0x2000; 0x3000] -> 0 <= i < 512 ->
  next_table demo_mem t i = if bool_decide (i = 0) then Some (t + 0x1000) else None.
Proof.
  intros Ht Hi. unfold next_table. rewrite demo_entry by done.
  case_bool_decide; [|done].
  repeat (apply elem_of_cons in Ht as [->|Ht]); [reflexivity..|by apply not_elem_of_nil in Ht].
Qed.

Lemma demo_descend l t :
  path_ok l -> descend demo_mem 0x1000 l = Some t ->
  l = replicate (length l) 0 /\ t = 0x1000 * (1 + lenZ l).
Proof.
  intros [Hl Hlen]. destruct l as [|i1 [|i2 [|i3 [|]]]]; simpl in Hlen; [..|lia].
  { by intros [= <-]. }
  all: repeat (apply Forall_cons in Hl as [? Hl]).
  all: cbn [descend]; rewrite demo_next by (done || set_solver); case_bool_decide; [|done];
    subst i1; cbn [mbind option_bind].
  { by intros [= <-]. }
  all: change (0x1000 + 0x1000) with 0x2000; rewrite demo_next by (done || set_solver);
    case_bool_decide; [|done]; subst i2; cbn [mbind option_bind].
  { by intros [= <-]. }
  change (0x2000 + 0x1000) with 0x3000. rewrite demo_next by (done || set_solver).
  case_bool_decide; [|done]. subst i3. by intros [= <-].
Qed.

Lemma demo_table t : is_table demo_mem 0x1000 t -> 0x1000 <= t <= 0x4000.
Proof.
  intros (l & [Hl Hlen] & Hd). destruct (demo_descend l t) as [_ ->]; [done|done|].
  unfold lenZ. lia.
Qed.

Lemma demo_pt_ok : pt_ok demo_mem 0x1000.
Proof.
  constructor; [done| |].
  - intros l l' t Hl Hl' Hd Hd'. destruct (demo_descend l t Hl Hd) as [-> ->].
    destruct (demo_descend l' _ Hl' Hd') as [El' Et]. unfold lenZ in Et. rewrite length_replicate in Et.
    rewrite El'. f_equal. lia.
  - intros t i (l & Hl & Hd) Hi. destruct (demo_descend l t Hl Hd) as [_ ->]. destruct Hl as [_ Hlen].
    destruct l as [|? [|? [|? [|]]]]; cbn in Hlen; try lia; unfold lenZ; cbn [length].
    4: { change (0x1000 * (1 + Z.of_nat 3)) with 0x4000. unfold entry, demo_mem, entry_slot.
         destruct (decide (i = 5)) as [->|]; [by right; vm_compute|]. left.
         rewrite !load_store_u64_ne by lia. vm_compute. reflexivity. }
    all: rewrite demo_entry by (done || set_solver); case_bool_decide; [by right|by left].
Qed.

Lemma demo_walk : walk demo_mem 0x1000 0x5000 = Some (0x6000, demo_flags).
Proof. vm_compute. reflexivity. Qed.

Lemma demo_as_ok count :
  byte_ok count ->
  exists total fa, as_ok total fa (demo_kmem fa count) demo_as /\ ~ few_frames fa.
Proof.
  intros Hc.
  destruct (new_spec demo_boot demo_boot_sane) as (fa & total & _ & Hwf & Htot & Hfree & Hnum).
  change (forall f, is_free fa f <-> managed demo_boot f) in Hfree.
  setoid_rewrite demo_managed in Hfree.
  exists total, fa. split.
  2:{ intros Hfew. assert (is_free fa 0x4002 /\ is_free fa 0x4003) as [H2 H3] by (rewrite !Hfree; lia).
      by specialize (Hfew _ _ H2 (Hnum _ H2) H3 (Hnum _ H3)). }
  constructor; simpl.
  - constructor; simpl; try done; [apply demo_mem_ok|].
    unfold rc_ok, bytes_ok. simpl. rewrite !Forall_cons, Forall_nil. done.
  - done.
  - apply demo_pt_ok.
  - intros t Ht%demo_table. rewrite Hfree.
    pose proof (Z.div_le_upper_bound t 4096 4 ltac:(lia) ltac:(lia)). lia.
  - intros va f [<- <-]%lookup_singleton_Some. split_and!; [by vm_compute| |].
    + constructor; [by vm_compute|done| |].
      * intros Ht%demo_table. lia.
      * rewrite Hfree. change (0x6000 / 4096) with 6. lia.
    + exists demo_flags. split; [apply demo_walk|done].
Qed.

Lemma demo_inj : inj_pages demo_as.
Proof.
  intros va va' f. cbn [mapped_pages demo_as]. rewrite !lookup_singleton_Some. intros [<- _] [<- _]. done.
Qed.

(** Five bytes across the end of the mapped page: a page is allocated. *)
Lemma write_data_correct_witness :
  exists total fa, as_ok total fa (demo_kmem fa 1) demo_as /\
  exists fa' k' s' r, write_data 0x5ffd [1; 2; 3; 4; 5] USER_RW (demo_kmem fa 1, demo_as)
      = Ret ((k', s'), r) /\
    as_ok total fa' k' s' /\ inj_pages s' /\
    mapped_pages demo_as ⊆ mapped_pages s' /\
    (forall va, is_Some (mapped_pages demo_as !! frame_of va) -> ~ (0x5ffd <= va < 0x5ffd + 5) ->
       user_read (km_mem k') (p4 s') va = user_read demo_mem 0x1000 va) /\
    (r = Ok tt -> forall i, 0 <= i < 5 ->
       user_read (km_mem k') (p4 s') (0x5ffd + i) = Some ([1; 2; 3; 4; 5] !!! Z.to_nat i)) /\
    (clear_pages (demo_kmem fa 1) demo_as 0x5ffd (0x5ffd + 5) -> r = Ok tt \/ exhausted fa').
Proof.
  destruct (demo_as_ok 1) as (total & fa & Has & _); [done|]. exists total, fa. split; [done|].
  apply (write_data_correct total fa (demo_kmem fa 1) demo_as 0x5ffd [1; 2; 3; 4; 5] USER_RW).
  - done.
  - apply demo_inj.
  - done.
  - done.
  - unfold bytes_ok. rewrite !Forall_cons, Forall_nil. done.
  - by vm_compute.
Defined.


Lemma clone_cow_shares_leaves_witness :
  exists total fa k' child, as_ok total fa (demo_kmem fa 1) demo_as /\
  clone_cow demo_as (demo_kmem fa 1) = Ret (k', Ok child) /\
  is_Some (leaf_slot (km_mem k') (p4 demo_as) 0x5000) /\
  leaf_slot (km_mem k') (p4 child) 0x5000 = leaf_slot (km_mem k') (p4 demo_as) 0x5000 /\
  p4 child <> p4 demo_as /\
  exists m' f, mapper_unmap (p4 demo_as) 0x5000 (km_mem k') = (m', Ok f) /\
    walk m' (p4 demo_as) 0x5000 = None /\ walk m' (p4 child) 0x5000 = None.
Proof.
  destruct (demo_as_ok 1) as (total & fa & Has & Hmany); [done|].
  assert (contains (entry demo_mem (p4 demo_as) 0) HUGE_PAGE = false) as Hh by (by vm_compute).
  destruct (clone_cow_forking total fa (demo_kmem fa 1) demo_as Has Hh)
    as [[_ Hfew]|(fa' & k' & n4 & n3 & E & _)]; [done|].
  exists total, fa, k', (mkAS_ n4 (mapped_pages demo_as)). split; [done|]. split; [done|].
  apply (clone_cow_shares_leaves total fa (demo_kmem fa 1) demo_as k' _ 0x5000 Has Hh E).
  by exists 0x6000.
Defined.

(** The allocator after two requests. *)
Lemma demo_used :
  exists total fa, wf total fa /\ total <= BITMAP_BITS /\ 2 <= used fa /\
    forall f, is_free fa f -> 0x4002 <= f < 0x4040.
Proof.
  destruct (new_spec demo_boot demo_boot_sane) as (fa & total & _ & Hwf & Htot & Hfree & Hnum).
  change (forall f, is_free fa f <-> managed demo_boot f) in Hfree.
  setoid_rewrite demo_managed in Hfree. pose proof (wf_used _ _ Hwf).
  destruct (allocate_frame_spec total fa (fun _ => 0) Hwf Htot)
    as [(f1 & fa1 & _ & _ & Hwf1 & Hu1 & Hn1 & Hfr1)|[_ Hnone]].
  2:{ assert (is_free fa 0x4002) as H2 by (apply Hfree; lia).
      pose proof (Hnum _ H2). apply Hnone in H2. lia. }
  destruct (allocate_frame_spec total fa1 (fun _ => 0) Hwf1 Htot)
    as [(f2 & fa2 & _ & _ & Hwf2 & Hu2 & _ & Hfr2)|[_ Hnone]].
  - exists total, fa2. split_and!; [done|done|lia|]. intros f [[Hf _]%Hfr1 _]%Hfr2.
    by apply Hfree.
  - assert (exists f, is_free fa1 f /\ f < num_frames fa) as (f & Hf & Hlt).
    { destruct (decide (f1 = 0x4002)) as [->|Hne].
      - exists 0x4003. assert (is_free fa 0x4003) as H3 by (apply Hfree; lia).
        split; [by apply Hfr1|by apply Hnum].
      - exists 0x4002. assert (is_free fa 0x4002) as H2 by (apply Hfree; lia).
        split; [by apply Hfr1|by apply Hnum]. }
    apply Hnone in Hf. lia.
Qed.


Lemma new_user_inherits_mappings_witness :
  exists total fa k' new, as_ok total fa (demo_kmem fa 1) demo_as /\
    new_user (demo_kmem fa 1) = Ret (k', Ok new) /\
    exists flags, walk (km_mem k') (p4 new) 0x5000 = Some (0x6000, flags).
Proof.
  destruct (demo_as_ok 1) as (total & fa & Has & Hmany); [done|].
  assert (contains (entry demo_mem (p4 demo_as) 0) HUGE_PAGE = false) as Hh by (by vm_compute).
  assert (exists k' new, new_user (demo_kmem fa 1) = Ret (k', Ok new)) as (k' & new & E).
  { destruct (clone_tables total fa (demo_kmem fa 1) demo_as Has Hh)
      as [(n4 & n3 & fa1 & k1 & k2 & k3 & E1 & E2 & _)|[_ Hfew]]; [|done].
    unfold new_user. erewrite bind_ok by done. erewrite bind_ok by done.
    erewrite bind_ok by reflexivity. erewrite bind_ok by reflexivity. by eexists _, _. }
  exists total, fa, k', new. split; [done|]. split; [done|].
  destruct (new_user_inherits_mappings total fa (demo_kmem fa 1) demo_as k' new Has eq_refl Hh E)
    as (_ & _ & _ & Hw). by apply Hw.
Defined.

(** ** A binary of one segment: four file bytes, then zeroes up to 0x2000 *)

Definition demo_elf : list Z :=
  [0x7f; 69; 76; 70; 2; 1; 1; 0; 0; 0; 0; 0; 0; 0; 0; 0] ++
  le_bytes 2 2 ++ le_bytes 2 62 ++ le_bytes 4 1 ++ le_bytes 8 0x401000 ++ le_bytes 8 64 ++
  le_bytes 8 0 ++ le_bytes 4 0 ++ le_bytes 2 64 ++ le_bytes 2 56 ++ le_bytes 2 1 ++ le_bytes 6 0 ++
  le_bytes 4 1 ++ le_bytes 4 5 ++ le_bytes 8 120 ++ le_bytes 8 0x401000 ++ le_bytes 8 0x401000 ++
  le_bytes 8 4 ++ le_bytes 8 0x2000 ++ le_bytes 8 4096 ++ [0xf3; 0x90; 0xeb; 0xfc].

Lemma demo_elf_ok : elf_ok demo_elf.
Proof.
  constructor.
  - unfold demo_elf, bytes_ok. repeat (apply Forall_app; split); try apply le_bytes_ok.
    all: rewrite ?Forall_cons; split_and!; try done; by apply Forall_nil.
  - split; by vm_compute.
  - by vm_compute.
  - by vm_compute.
  - split; by vm_compute.
  - intros ph Hin _. assert (phdrs demo_elf = [mkPhdr 1 5 120 0x401000 0x401000 4 0x2000 4096]) as E
      by (by vm_compute).
    rewrite E in Hin. apply list_elem_of_singleton in Hin as ->. by vm_compute.
Qed.

Definition demo_empty_as : AddressSpace := mkAS_ 0x1000 ∅.

