(* ===== verification/Signal.v ===== *)
(** * Signals

    kernel/src/task/signal.rs: the six signals, their numbers and the queue
    of pending ones.  [deliver_pending] is with the processes (Process.v). *)
From S2P Require Import Prelude.
Local Open Scope Z_scope.

Inductive Signal := Int | Kill | Term | Segv | Ill | Bus.

#[export] Instance Signal_eq_dec : EqDecision Signal.
Proof. solve_decision. Defined.

Definition from_num (n : Z) : option Signal :=
  if n =? 2 then Some Int else
  if n =? 7 then Some Bus else
  if n =? 9 then Some Kill else
  if n =? 11 then Some Segv else
  if n =? 4 then Some Ill else
  if n =? 15 then Some Term else None.

Definition num (s : Signal) : Z :=
  match s with
  | Int => 2 | Ill => 4 | Bus => 7 | Kill => 9 | Segv => 11 | Term => 15
  end.

(** The exit code of a process that the signal terminates (an [i32]). *)
Definition exit_code (s : Signal) : Z := 128 + num s.

(** [SignalQueue] *)
Definition sig_push (q : list Signal) (s : Signal) : list Signal := q ++ [s].
Definition sig_pop (q : list Signal) : option Signal * list Signal :=
  match q with
  | [] => (None, [])
  | s :: q' => (Some s, q')
  end.
Definition sig_is_empty (q : list Signal) : bool :=
  match q with [] => true | _ => false end.

(** Property.  The numbers and the signals correspond: a signal is what its number
    names, and a number that names a signal is that signal's number. *)
Theorem signal_numbers n s : from_num n = Some s <-> n = num s.
Proof.
  split.
  - unfold from_num.
    repeat match goal with |- context [?a =? ?b] => destruct (Z.eqb_spec a b) end;
      intros [= <-]; done.
  - intros ->. by destruct s.
Qed.
