(* ===== verification/ProcessTable.v ===== *)
(** * The process table

    kernel/src/task/process.rs (the [Process] and [ProcessTable] structs and
    the table's methods) and the [TrapFrame] of task/preempt.rs.  A [Box] of
    the heap is its address; names are byte strings. *)
From S2P Require Import Prelude Phys FrameAllocator FrameRefcount Paging AddressSpace Signal.
Local Open Scope Z_scope.

Record TrapFrame := mkTF {
  gs_base : Z; fs_base : Z;
  r15 : Z; r14 : Z; r13 : Z; r12 : Z; r11 : Z; r10 : Z; r9 : Z; r8 : Z;
  rbp : Z; rdi : Z; rsi : Z; rdx : Z; rcx : Z; rbx : Z; rax : Z;
  pad_ : Z;
  rip : Z; cs : Z; rflags : Z; rsp : Z; ss : Z
}.

(** [TrapFrame::default()] *)
Definition tf_default : TrapFrame :=
  mkTF 0 0 0 0 0 0 0 0 0 0 0 0 0 0 0 0 0 0 0 0 0 0 0.

Definition set_rax (v : Z) (f : TrapFrame) : TrapFrame :=
  mkTF (gs_base f) (fs_base f) (r15 f) (r14 f) (r13 f) (r12 f) (r11 f) (r10 f) (r9 f) (r8 f)
    (rbp f) (rdi f) (rsi f) (rdx f) (rcx f) (rbx f) v (pad_ f)
    (rip f) (cs f) (rflags f) (rsp f) (ss f).

Definition set_iret (rip' rsp' rflags' cs' ss' : Z) (f : TrapFrame) : TrapFrame :=
  mkTF (gs_base f) (fs_base f) (r15 f) (r14 f) (r13 f) (r12 f) (r11 f) (r10 f) (r9 f) (r8 f)
    (rbp f) (rdi f) (rsi f) (rdx f) (rcx f) (rbx f) (rax f) (pad_ f)
    rip' cs' rflags' rsp' ss'.

(** The general registers of [src] into [f]. *)
Definition copy_gprs (src f : TrapFrame) : TrapFrame :=
  mkTF (gs_base f) (fs_base f) (r15 src) (r14 src) (r13 src) (r12 src) (r11 src) (r10 src)
    (r9 src) (r8 src) (rbp src) (rdi src) (rsi src) (rdx src) (rcx src) (rbx src) (rax src)
    (pad_ f) (rip f) (cs f) (rflags f) (rsp f) (ss f).

(** What a program sees of a frame: everything but the FS and GS stubs and
    the padding, which the timer stub fills with zeros. *)
Definition user_regs (f : TrapFrame) : list Z :=
  [rax f; rbx f; rcx f; rdx f; rsi f; rdi f; rbp f; r8 f; r9 f; r10 f; r11 f; r12 f; r13 f;
   r14 f; r15 f; rip f; cs f; rflags f; rsp f; ss f].

Inductive ProcessState :=
| Runnable
| Sleeping
| Zombie (code : Z).

#[export] Instance ProcessState_eq_dec : EqDecision ProcessState.
Proof. solve_decision. Defined.

Definition ROOT_UID : Z := 0.
Definition ROOT_GID : Z := 0.
Definition USER_STACK_TOP : Z := 0x00007ffffffff000.
Definition USER_STACK_PAGES : Z := 16.
Definition KERNEL_STACK_SIZE : Z := 16 * 1024.

Record Process := mkProcess {
  pid : Z;
  parent : Z;
  name : list Z;
  state : ProcessState;
  address_space : AddressSpace;
  kernel_stack : Z;
  trap_frame : TrapFrame;
  signals : list Signal;
  children_exited : list (Z * Z);
  uid : Z; gid : Z; euid : Z; egid : Z
}.

Definition set_state (st : ProcessState) (p : Process) : Process :=
  mkProcess (pid p) (parent p) (name p) st (address_space p) (kernel_stack p) (trap_frame p)
    (signals p) (children_exited p) (uid p) (gid p) (euid p) (egid p).
Definition set_as (s : AddressSpace) (p : Process) : Process :=
  mkProcess (pid p) (parent p) (name p) (state p) s (kernel_stack p) (trap_frame p)
    (signals p) (children_exited p) (uid p) (gid p) (euid p) (egid p).
Definition set_tf (f : TrapFrame) (p : Process) : Process :=
  mkProcess (pid p) (parent p) (name p) (state p) (address_space p) (kernel_stack p) f
    (signals p) (children_exited p) (uid p) (gid p) (euid p) (egid p).
Definition set_signals (q : list Signal) (p : Process) : Process :=
  mkProcess (pid p) (parent p) (name p) (state p) (address_space p) (kernel_stack p)
    (trap_frame p) q (children_exited p) (uid p) (gid p) (euid p) (egid p).
Definition set_children (q : list (Z * Z)) (p : Process) : Process :=
  mkProcess (pid p) (parent p) (name p) (state p) (address_space p) (kernel_stack p)
    (trap_frame p) (signals p) q (uid p) (gid p) (euid p) (egid p).
Definition set_ids (u g eu eg : Z) (p : Process) : Process :=
  mkProcess (pid p) (parent p) (name p) (state p) (address_space p) (kernel_stack p)
    (trap_frame p) (signals p) (children_exited p) u g eu eg.

Definition kernel_stack_top `{X86Paging} (p : Process) : outcome Z :=
  addr ← kernel_stack p +! KERNEL_STACK_SIZE @ 64;
  virt_new (Z.land addr (unot 64 0xf)).

Definition is_runnable (p : Process) : bool :=
  match state p with Runnable => true | _ => false end.
Definition is_zombie (p : Process) : bool :=
  match state p with Zombie _ => true | _ => false end.
Definition is_sleeping (p : Process) : bool :=
  match state p with Sleeping => true | _ => false end.

Record ProcessTable := mkTable {
  procs : gmap Z Process;
  runnable : list Z;
  current : Z
}.

Definition table_new : ProcessTable := mkTable ∅ [] 0.

Definition current_pid (t : ProcessTable) : Z := current t.
Definition table_current (t : ProcessTable) : option Process := procs t !! current t.
Definition iter_current (t : ProcessTable) : option (Z * Z * Z) :=
  p ← procs t !! current t;
  Some (pid p, uid p, euid p).
Definition get_mut (t : ProcessTable) (i : Z) : option Process := procs t !! i.
Definition table_list (t : ProcessTable) : list (Z * Z * list Z * ProcessState) :=
  (fun '(_, p) => (pid p, parent p, name p, state p)) <$> btree_iter (procs t).

(** Overwrites the entry of [i], as a [&mut Process] does. *)
Definition put_proc (t : ProcessTable) (i : Z) (p : Process) : ProcessTable :=
  mkTable (<[i := p]> (procs t)) (runnable t) (current t).
Definition enqueue (t : ProcessTable) (i : Z) : ProcessTable :=
  mkTable (procs t) (runnable t ++ [i]) (current t).

Definition table_insert (t : ProcessTable) (p : Process) : ProcessTable :=
  let t := if is_runnable p then enqueue t (pid p) else t in
  put_proc t (pid p) p.

Definition make_runnable (t : ProcessTable) (i : Z) : ProcessTable :=
  match procs t !! i with
  | Some p => if negb (is_zombie p) then enqueue (put_proc t i (set_state Runnable p)) i else t
  | None => t
  end.

(** Pops until a runnable process is found. *)
Fixpoint pick_from (m : gmap Z Process) (q : list Z) : option Z * list Z :=
  match q with
  | [] => (None, [])
  | i :: q' =>
      match m !! i with
      | Some p => if is_runnable p then (Some i, q') else pick_from m q'
      | None => pick_from m q'
      end
  end.
Definition pick_next (t : ProcessTable) : option Z * ProcessTable :=
  let '(r, q) := pick_from (procs t) (runnable t) in
  (r, mkTable (procs t) q (current t)).

(** [process::replace_mapping], the hook of the copy-on-write handler. *)
Definition proc_replace_mapping `{X86Paging} (vaddr new_frame : Z) (t : ProcessTable) : ProcessTable :=
  match table_current t with
  | Some p => put_proc t (current t) (set_as (replace_mapping vaddr new_frame (address_space p)) p)
  | None => t
  end.

(** ** Well-formed tables *)

(** Every process sits under its own pid, and every runnable process is the
    current one or waits in the queue. *)
Record table_ok (t : ProcessTable) : Prop := mkTableOk {
  ok_pid : forall i p, procs t !! i = Some p -> pid p = i;
  ok_queued : forall i p, procs t !! i = Some p -> is_runnable p = true ->
    i = current t \/ i ∈ runnable t
}.

Lemma table_ok_new : table_ok table_new.
Proof. by constructor. Qed.

Lemma put_proc_ok t i p :
  table_ok t -> pid p = i -> (is_runnable p = true -> i = current t \/ i ∈ runnable t) ->
  table_ok (put_proc t i p).
Proof.
  intros [Hp Hq] Hpid Hr. constructor; simpl; intros j q Hj.
  - destruct (decide (j = i)) as [->|]; [rewrite lookup_insert_eq in Hj; by injection Hj as <-|].
    rewrite lookup_insert_ne in Hj by done. by apply Hp.
  - destruct (decide (j = i)) as [->|]; [rewrite lookup_insert_eq in Hj; injection Hj as <-; done|].
    rewrite lookup_insert_ne in Hj by done. by apply Hq.
Qed.

Lemma enqueue_ok t i : table_ok t -> table_ok (enqueue t i).
Proof.
  intros [Hp Hq]. constructor; simpl; [done|]. intros j q Hj Hr.
  destruct (Hq j q Hj Hr); [by left|right]. apply elem_of_app. by left.
Qed.

(** What the election finds: a runnable process, and nothing runnable is
    skipped. *)
Lemma pick_from_spec m q :
  match pick_from m q with
  | (Some i, q') => exists skipped p, q = skipped ++ i :: q' /\ m !! i = Some p /\
      is_runnable p = true /\
      Forall (fun j => forall p, m !! j = Some p -> is_runnable p = false) skipped
  | (None, q') => q' = [] /\
      Forall (fun j => forall p, m !! j = Some p -> is_runnable p = false) q
  end.
Proof.
  induction q as [|i q IH]; simpl; [by split|].
  destruct (m !! i) as [p|] eqn:Ei; [destruct (is_runnable p) eqn:Er|].
  { by exists [], p. }
  all: destruct (pick_from m q) as [[j|] q'].
  all: try (destruct IH as (sk & p' & -> & Hj & Hr & Hs); exists (i :: sk), p'; split_and!; try done;
            constructor; [|done]; intros p0 Hp0; congruence).
  all: destruct IH as [-> Hs]; split; [done|]; constructor; [|done]; intros p0 Hp0; congruence.
Qed.

Lemma pick_next_ok t i t' :
  table_ok t -> pick_next t = (Some i, t') ->
  exists p, procs t !! i = Some p /\ is_runnable p = true /\ procs t' = procs t /\
    current t' = current t /\ i ∈ runnable t /\
    forall j q, procs t !! j = Some q -> is_runnable q = true ->
      j = current t \/ j = i \/ j ∈ runnable t'.
Proof.
  intros [Hp Hq] Hpick. unfold pick_next in Hpick.
  pose proof (pick_from_spec (procs t) (runnable t)) as Hs.
  destruct (pick_from (procs t) (runnable t)) as [[k|] q']; [|done].
  injection Hpick as -> <-. destruct Hs as (sk & p & Eq & Hi & Hr & Hsk).
  exists p. split_and!; try done; simpl.
  - rewrite Eq. set_solver.
  - intros j q Hj Hjr. destruct (Hq j q Hj Hjr) as [?|Hin]; [by left|right].
    rewrite Eq, elem_of_app, elem_of_cons in Hin. destruct Hin as [Hin|[?|?]]; [|by left|by right].
    rewrite Forall_forall in Hsk. specialize (Hsk j Hin q Hj). congruence.
Qed.

Lemma pick_next_none t t' :
  table_ok t -> pick_next t = (None, t') ->
  t' = mkTable (procs t) [] (current t) /\
  forall j q, procs t !! j = Some q -> is_runnable q = true -> j = current t.
Proof.
  intros [Hp Hq] Hpick. unfold pick_next in Hpick.
  pose proof (pick_from_spec (procs t) (runnable t)) as Hs.
  destruct (pick_from (procs t) (runnable t)) as [[k|] q']; [done|].
  injection Hpick as <-. destruct Hs as [-> Hs]. split; [done|].
  intros j q Hj Hjr. destruct (Hq j q Hj Hjr) as [?|Hin]; [done|].
  rewrite Forall_forall in Hs. specialize (Hs j Hin q Hj). congruence.
Qed.
