(* ===== verification/Ipc.v ===== *)
(** * Shared memory and mailboxes

    kernel/src/ipc/mod.rs.  [ipc] is the module's statics; the handlers also
    use the frame allocator and page tables ([kmem]) and the process table.
    A handler returns a [u64]; [return v] is [mfail v].  Accesses to user
    memory go through [UserMem], the processor's view of the current page
    table, and the pointer checks of kernel/src/syscall/mod.rs. *)
From S2P Require Import Prelude Phys FrameAllocator FrameRefcount Paging AddressSpace Signal.
From S2P Require Import ProcessTable.
Local Open Scope Z_scope.

(** ** User pointers *)

Definition USER_SPACE_MAX : Z := 0x0000800000000000.

(** [user_slice] and [user_slice_mut]: the range that is handed out. *)
Definition user_slice (ptr len : Z) : option (Z * Z) :=
  if (ptr =? 0) || (len =? 0) then None else
  e ← checked_add 64 ptr len;
  if bool_decide (USER_SPACE_MAX <= e) then None else Some (ptr, len).
Definition user_slice_mut (ptr len : Z) : option (Z * Z) :=
  if (ptr =? 0) || (len =? 0) then None else
  e ← checked_add 64 ptr len;
  if bool_decide (USER_SPACE_MAX <= e) then None else Some (ptr, len).

(** The processor's accesses at virtual addresses; a page fault that the
    kernel cannot resolve in ring 0 stops it, as a panic does. *)
Class UserMem := {
  uread : kmem -> Z -> Z -> outcome (list Z);
  uwrite : kmem -> Z -> list Z -> outcome kmem
}.

(** ** State *)

Definition PAGE_SIZE : Z := 4096.
Definition SHM_MAX_SIZE : Z := 64 * 1024 * 1024.
Definition SHM_VA_BASE : Z := 0x0000600000000000.
Definition SHM_MODE_READ : Z := Z.shiftl 1 0.
Definition SHM_MODE_WRITE : Z := Z.shiftl 1 1.
Definition MAX_MSG : Z := 4096.
Definition MAX_QUEUED_PER_PID : Z := 64.

Record ShmRegion := mkRegion { frames : list Z; size_ : Z; creator : Z; refs : Z }.
Record ShmMapping := mkMapping { sm_pid : Z; sm_handle : Z; base_va : Z; pages : Z }.
Record IpcFrame := mkFrame { sender : Z; bytes : list Z }.

Record ipc := mkIpc {
  shm_table : gmap Z ShmRegion;
  shm_mappings : list ShmMapping;
  shm_va_next : gmap Z Z;
  next_handle : Z;
  mailboxes : gmap Z (list IpcFrame)
}.

Definition ipc_new : ipc := mkIpc ∅ [] ∅ 1 ∅.

Record istate := mkI { i_mem : kmem; i_table : ProcessTable; i_ipc : ipc }.

Definition set_i_mem (k : kmem) (s : istate) : istate := mkI k (i_table s) (i_ipc s).
Definition set_i_table (t : ProcessTable) (s : istate) : istate := mkI (i_mem s) t (i_ipc s).
Definition set_i_ipc (x : ipc) (s : istate) : istate := mkI (i_mem s) (i_table s) x.
Definition set_shm (t : gmap Z ShmRegion) (x : ipc) : ipc :=
  mkIpc t (shm_mappings x) (shm_va_next x) (next_handle x) (mailboxes x).
Definition set_mappings (l : list ShmMapping) (x : ipc) : ipc :=
  mkIpc (shm_table x) l (shm_va_next x) (next_handle x) (mailboxes x).
Definition set_va_next (v : gmap Z Z) (x : ipc) : ipc :=
  mkIpc (shm_table x) (shm_mappings x) v (next_handle x) (mailboxes x).
Definition set_handle (h : Z) (x : ipc) : ipc :=
  mkIpc (shm_table x) (shm_mappings x) (shm_va_next x) h (mailboxes x).
Definition set_mail (b : gmap Z (list IpcFrame)) (x : ipc) : ipc :=
  mkIpc (shm_table x) (shm_mappings x) (shm_va_next x) (next_handle x) b.
Definition set_refs (n : Z) (r : ShmRegion) : ShmRegion :=
  mkRegion (frames r) (size_ r) (creator r) n.

(** A handler: early returns carry the value. *)
Abbreviation I := (M istate Z).

Definition on_mem {A} (c : K A) : I (result A string) :=
  zoom i_mem set_i_mem (try_ c).
Definition on_ipc {E} (f : ipc -> ipc) : M istate E unit :=
  modify (fun s => set_i_ipc (f (i_ipc s)) s).

(** A method of the address space of the current process, which exists. *)
Definition on_current {A} (c : KA A) : I (result A string) := fun s =>
  match table_current (i_table s) with
  | None => Panic
  | Some p =>
      match c (i_mem s, address_space p) with
      | Ret ((k, a), r) =>
          Ret (mkI k (put_proc (i_table s) (current (i_table s)) (set_as a p)) (i_ipc s), Ok r)
      | Panic => Panic
      end
  end.

(** [v.swap_remove(i)] *)
Definition swap_remove {A} (l : list A) (i : nat) : list A :=
  match last l with
  | Some z => if bool_decide (S i = length l) then take i l
              else <[i := z]> (take (length l - 1) l)
  | None => l
  end.

(** [iter().position(p)] *)
Fixpoint position {A} (p : A -> bool) (l : list A) : option nat :=
  match l with
  | [] => None
  | x :: l' => if p x then Some O else S <$> position p l'
  end.

(** [PhysFrame::from_start_address(PhysAddr::new(pa))] *)
Definition frame_from_start `{X86Paging} (pa : Z) : outcome (option Z) :=
  a ← phys_new pa;
  Ret (if a mod 4096 =? 0 then Some a else None).

(** [if let Some(pf) = from_start_address(pa) { free_frame(pf) }] *)
Definition free_pa `{X86Paging} (pa : Z) : I unit :=
  o ← mlift (frame_from_start pa);
  match o with
  | Some pf => _ ← on_mem (free_frame pf); mok tt
  | None => mok tt
  end.

Section handlers.
Context `{X86Paging} `{UserMem}.

(** ** Shared memory *)

(** The allocation loop of [sys_shm_create]: [n] more frames after [acc]. *)
Fixpoint shm_alloc (n : nat) (acc : list Z) : I (list Z) :=
  match n with
  | O => mok acc
  | S n' =>
      r ← on_mem alloc_zeroed_frame;
      match r with
      | Ok pf => shm_alloc n' (acc ++ [pf])
      | Err _ => _ ← mfor acc free_pa; mfail U64_MAX
      end
  end.

Definition sys_shm_create (size : Z) : istate -> outcome (istate * Z) := fn_ret (
  if (size =? 0) || bool_decide (SHM_MAX_SIZE < size) then mfail U64_MAX else
  pages ← mlift (x ← size +! PAGE_SIZE @ 64; x ← x -! 1; Ret (x / PAGE_SIZE));
  frames ← shm_alloc (Z.to_nat pages) [];
  s ← mget;
  let handle := next_handle (i_ipc s) in
  _ ← on_ipc (set_handle (wrap 64 (handle + 1)));
  let creator := current_pid (i_table s) in
  _ ← on_ipc (fun x => set_shm (<[handle := mkRegion frames size creator 0]> (shm_table x)) x);
  mok handle).

(** [if let Some(r) = SHM_TABLE.lock().get_mut(&handle) { r.refs -= 1; }] *)
Definition rollback_refs (handle : Z) : I unit :=
  s ← mget;
  match shm_table (i_ipc s) !! handle with
  | Some r =>
      n ← mlift (refs r -! 1);
      on_ipc (fun x => set_shm (<[handle := set_refs n r]> (shm_table x)) x)
  | None => mok tt
  end.

(** [for j in 0..i { let _ = unmap_page(proc, base_va + j * PAGE_SIZE); }] *)
Definition unmap_pages (base n : Z) : I unit :=
  mfor (seqZ 0 n) (fun j =>
    va ← mlift (o ← j *! PAGE_SIZE @ 64; base +! o @ 64);
    _ ← on_current (unmap_va va);
    mok tt).

(** Page [i] of the mapping loop. *)
Definition shm_map_page (handle base : Z) (fl : list Z) (flags i : Z) : I unit :=
  va ← mlift (o ← i *! PAGE_SIZE @ 64; base +! o @ 64);
  page ← mlift (v ← virt_new va; Ret (containing v));
  frame_pa ← mlift (idx fl i);
  o ← mlift (frame_from_start frame_pa);
  match o with
  | None => _ ← unmap_pages base i; _ ← rollback_refs handle; mfail U64_MAX
  | Some frame =>
      r ← on_current (as_map_to page frame flags);
      match r with
      | Ok _ => mok tt
      | Err _ => _ ← unmap_pages base i; _ ← rollback_refs handle; mfail U64_MAX
      end
  end.

Definition sys_shm_map (handle mode : Z) : istate -> outcome (istate * Z) := fn_ret (
  s ← mget;
  match shm_table (i_ipc s) !! handle with
  | None => mfail U64_MAX
  | Some region =>
      let pages := lenZ (frames region) in
      let frames_copy := frames region in
      n ← mlift (refs region +! 1 @ 32);
      _ ← on_ipc (fun x => set_shm (<[handle := set_refs n region]> (shm_table x)) x);
      let pid := current_pid (i_table s) in
      let next := default 0 (shm_va_next (i_ipc s) !! pid) in
      base ← mlift (o ← next *! PAGE_SIZE @ 64; SHM_VA_BASE +! o @ 64);
      next' ← mlift (next +! pages @ 64);
      _ ← on_ipc (fun x => set_va_next (<[pid := next']> (shm_va_next x)) x);
      let flags := if negb (Z.land mode SHM_MODE_WRITE =? 0)
                   then Z.lor (Z.lor PRESENT WRITABLE) USER_ACCESSIBLE
                   else Z.lor PRESENT USER_ACCESSIBLE in
      match table_current (i_table s) with
      | None => _ ← rollback_refs handle; mfail U64_MAX
      | Some _ =>
          _ ← mfor (seqZ 0 pages) (shm_map_page handle base frames_copy flags);
          _ ← on_ipc (fun x => set_mappings (shm_mappings x ++ [mkMapping pid handle base pages]) x);
          mok base
      end
  end).

(** The reference of one mapping given up; the last one frees the region. *)
Definition drop_ref (handle : Z) : I unit :=
  s ← mget;
  match shm_table (i_ipc s) !! handle with
  | None => mok tt
  | Some region =>
      let n := if bool_decide (0 < refs region) then refs region - 1 else refs region in
      _ ← on_ipc (fun x => set_shm (<[handle := set_refs n region]> (shm_table x)) x);
      if n =? 0 then
        _ ← mfor (frames region) free_pa;
        on_ipc (fun x => set_shm (delete handle (shm_table x)) x)
      else mok tt
  end.

Definition sys_shm_unmap (ptr : Z) : istate -> outcome (istate * Z) := fn_ret (
  s ← mget;
  let pid := current_pid (i_table s) in
  let maps := shm_mappings (i_ipc s) in
  match position (fun m => (sm_pid m =? pid) && (base_va m =? ptr)) maps with
  | None => mfail U64_MAX
  | Some i =>
      mapping ← mlift (expect (maps !! i));
      _ ← on_ipc (set_mappings (swap_remove maps i));
      _ ← match table_current (i_table s) with
          | Some _ => unmap_pages (base_va mapping) (pages mapping)
          | None => mok tt
          end;
      _ ← drop_ref (sm_handle mapping);
      mok 0
  end).

(** ** Mailboxes *)

Definition sys_ipc_send (target_pid msg_ptr msg_len : Z) : istate -> outcome (istate * Z) := fn_ret (
  if (msg_len =? 0) || bool_decide (MAX_MSG < msg_len) then mfail U64_MAX else
  match user_slice msg_ptr msg_len with
  | None => mfail U64_MAX
  | Some (p, n) =>
      s ← mget;
      let sender := current_pid (i_table s) in
      let target := wrap 32 target_pid in
      let q := default [] (mailboxes (i_ipc s) !! target) in
      if bool_decide (MAX_QUEUED_PER_PID <= lenZ q) then mfail U64_MAX else
      src ← mlift (uread (i_mem s) p n);
      _ ← on_ipc (fun x => set_mail (<[target := q ++ [mkFrame sender src]]> (mailboxes x)) x);
      mok 0
  end).

(** One round of the loop of [sys_ipc_recv]: a value to return, or nothing
    was there and the thread yields. *)
Definition recv_round (me buf_ptr max out_sender_ptr : Z) : I (option Z) :=
  s ← mget;
  match mailboxes (i_ipc s) !! me with
  | Some (frame :: q) =>
      _ ← on_ipc (fun x => set_mail (<[me := q]> (mailboxes x)) x);
      let n := Z.min (lenZ (bytes frame)) max in
      match user_slice_mut buf_ptr n with
      | None => mfail U64_MAX
      | Some (p, _) =>
          src ← mlift (slice (bytes frame) 0 n);
          s ← mget;
          k ← mlift (uwrite (i_mem s) p src);
          _ ← modify (set_i_mem k);
          if out_sender_ptr =? 0 then mok (Some n) else
          match user_slice_mut out_sender_ptr 8 with
          | None => mfail U64_MAX
          | Some (p, _) =>
              s ← mget;
              k ← mlift (uwrite (i_mem s) p (le_bytes 8 (sender frame)));
              _ ← modify (set_i_mem k);
              mok (Some n)
          end
      end
  | _ => mok None
  end.

(** [others] says what the other threads do each time this one yields; the
    call is still waiting when they are exhausted ([None]). *)
Fixpoint recv_loop (others : list (istate -> istate)) (me buf_ptr max out_sender_ptr : Z)
  : I (option Z) :=
  r ← recv_round me buf_ptr max out_sender_ptr;
  match r with
  | Some n => mok (Some n)
  | None =>
      match others with
      | [] => mok None
      | f :: others' => _ ← modify f; recv_loop others' me buf_ptr max out_sender_ptr
      end
  end.

Definition sys_ipc_recv (others : list (istate -> istate)) (buf_ptr max out_sender_ptr : Z)
  : istate -> outcome (istate * option Z) := fun s =>
  if max =? 0 then Ret (s, Some U64_MAX) else
  match recv_loop others (current_pid (i_table s)) buf_ptr max out_sender_ptr s with
  | Ret (s', Ok r) => Ret (s', r)
  | Ret (s', Err v) => Ret (s', Some v)
  | Panic => Panic
  end.

(** ** The exit hook *)

Definition cleanup_pid (pid : Z) : istate -> outcome istate := fun s =>
  let s := set_i_ipc (set_mail (delete pid (mailboxes (i_ipc s))) (i_ipc s)) s in
  let owned := filter (fun m => sm_pid m = pid) (shm_mappings (i_ipc s)) in
  let keep := filter (fun m => sm_pid m <> pid) (shm_mappings (i_ipc s)) in
  let s := set_i_ipc (set_mappings keep (i_ipc s)) s in
  match mfor owned (fun m => drop_ref (sm_handle m)) s with
  | Ret (s, _) => Ret (set_i_ipc (set_va_next (delete pid (shm_va_next (i_ipc s))) (i_ipc s)) s)
  | Panic => Panic
  end.

End handlers.
