(* ===== verification/IpcCorrect.v ===== *)
(** * Correctness of shared memory and mailboxes

    The invariant of the IPC tables ([ipc_ok]): a region's reference count is
    the number of its live mappings, every mapping is of a live region, the
    mappings of a process never overlap, and the mailboxes respect their
    bounds.  Every handler keeps it. *)
From S2P Require Import Prelude Phys FrameAllocator FrameRefcount Paging AddressSpace Signal.
From S2P Require Import ProcessTable Ipc PagingModel.
Local Open Scope Z_scope.

(** ** Vec::swap_remove *)

Lemma swap_remove_perm {A} (l : list A) i x :
  l !! i = Some x -> x :: swap_remove l i ≡ₚ l.
Proof.
  intros Hi. unfold swap_remove. destruct (last l) as [z|] eqn:El.
  2: { by apply last_None in El as ->. }
  apply last_Some in El as [l' ->]. rewrite length_app. simpl.
  case_bool_decide as Hlen.
  - rewrite take_app_le by lia. rewrite lookup_app_r in Hi by lia.
    replace (i - length l')%nat with O in Hi by lia. injection Hi as <-.
    rewrite firstn_all2 by lia. by rewrite Permutation_app_comm.
  - assert (i < length l')%nat.
    { apply lookup_lt_Some in Hi. rewrite length_app in Hi. simpl in Hi. lia. }
    rewrite take_app_le, firstn_all2 by lia. rewrite lookup_app_l in Hi by lia.
    rewrite <- (take_drop_middle l' i x Hi) at 2.
    rewrite insert_take_drop by lia. rewrite <- !app_assoc. simpl.
    rewrite Permutation_middle. f_equiv. constructor.
    apply Permutation_cons_append.
Qed.

Lemma position_Some {A} (p : A -> bool) l i :
  position p l = Some i -> exists x, l !! i = Some x /\ p x = true.
Proof.
  revert i. induction l as [|y l IH]; intros i; [done|]. simpl.
  destruct (p y) eqn:Ey; [intros [= <-]; eauto|].
  destruct (position p l) as [j|]; [|done]. intros [= <-]. by apply IH.
Qed.

Lemma count_if_perm {A} (p : A -> bool) (l k : list A) : l ≡ₚ k -> count_if p l = count_if p k.
Proof. intros Hlk. unfold count_if, lenZ. by rewrite Hlk. Qed.

(** ** The invariant *)

Definition of_handle (h : Z) (m : ShmMapping) : bool := sm_handle m =? h.

Definition disjoint_maps (m1 m2 : ShmMapping) : Prop :=
  base_va m1 + pages m1 * PAGE_SIZE <= base_va m2 \/
  base_va m2 + pages m2 * PAGE_SIZE <= base_va m1.

Definition va_top (x : ipc) (p : Z) : Z :=
  SHM_VA_BASE + default 0 (shm_va_next x !! p) * PAGE_SIZE.

(** [pend] are references held by a call in progress: counted by their
    region, but not (or no longer) in the list of mappings. *)
Record ipc_inv (pend : list ShmMapping) (x : ipc) : Prop := mkIpcOk {
  ok_fresh : 0 < next_handle x;
  ok_handles : forall h r, shm_table x !! h = Some r -> 0 < h < next_handle x;
  ok_refs : forall h r, shm_table x !! h = Some r ->
    refs r = count_if (of_handle h) (shm_mappings x ++ pend) /\ 0 < lenZ (frames r);
  ok_live : forall m, m ∈ shm_mappings x ++ pend -> exists r,
    shm_table x !! sm_handle m = Some r /\ pages m = lenZ (frames r);
  ok_va : forall m, m ∈ shm_mappings x -> SHM_VA_BASE <= base_va m /\
    base_va m + pages m * PAGE_SIZE <= va_top x (sm_pid m);
  ok_next : forall p n, shm_va_next x !! p = Some n -> 0 <= n;
  ok_nodup : NoDup (shm_mappings x);
  ok_disjoint : forall m1 m2, m1 ∈ shm_mappings x -> m2 ∈ shm_mappings x -> m1 <> m2 ->
    sm_pid m1 = sm_pid m2 -> disjoint_maps m1 m2;
  ok_mail : forall p q, mailboxes x !! p = Some q -> lenZ q <= MAX_QUEUED_PER_PID
}.
Abbreviation ipc_ok := (ipc_inv []).

Lemma ipc_ok_new : ipc_ok ipc_new.
Proof.
  constructor; simpl; try done; try (intros ? ? E; by rewrite ?lookup_empty in E);
    try (intros ? E; by apply not_elem_of_nil in E); [constructor|].
  intros m1 m2 E. by apply not_elem_of_nil in E.
Qed.

Lemma of_handle_self m : of_handle (sm_handle m) m = true.
Proof. apply Z.eqb_refl. Qed.

Lemma count_handle_absent h l :
  (forall m, m ∈ l -> sm_handle m <> h) -> count_if (of_handle h) l = 0.
Proof.
  induction l as [|m l IH]; intros Hl; [done|]. rewrite count_if_cons, IH.
  - unfold of_handle. rewrite (proj2 (Z.eqb_neq _ _)); [done|]. apply Hl. by left.
  - intros. apply Hl. by right.
Qed.

Lemma count_handle_zero h l m :
  count_if (of_handle h) l = 0 -> m ∈ l -> sm_handle m <> h.
Proof.
  intros H0 Hm <-. pose proof (count_if_pos _ l m Hm (of_handle_self m)). lia.
Qed.

(** A count of [m :: l] for [h]. *)
Lemma count_handle_cons h m l :
  count_if (of_handle h) (m :: l) =
  (if decide (sm_handle m = h) then 1 else 0) + count_if (of_handle h) l.
Proof.
  rewrite count_if_cons. unfold of_handle. case_decide as E.
  - by rewrite (proj2 (Z.eqb_eq _ _) E).
  - by rewrite (proj2 (Z.eqb_neq _ _) E).
Qed.

Lemma count_pend h l m k :
  count_if (of_handle h) (l ++ m :: k) =
  (if decide (sm_handle m = h) then 1 else 0) + count_if (of_handle h) (l ++ k).
Proof. rewrite !count_if_app, count_handle_cons. lia. Qed.

(** *** Moves of the invariant *)

(** The count of a region follows a pending reference given up... *)
Lemma inv_drop pend m x r :
  ipc_inv (m :: pend) x -> shm_table x !! sm_handle m = Some r ->
  ipc_inv pend (set_shm (<[sm_handle m := set_refs (refs r - 1) r]> (shm_table x)) x).
Proof.
  intros [Hf Hh Hr Hl Hv Hn Hnd Hd Hm] Er. constructor; simpl; try done.
  - intros h r'. destruct (decide (h = sm_handle m)) as [->|].
    + rewrite lookup_insert_eq. intros _. by eapply Hh.
    + rewrite lookup_insert_ne by done. apply Hh.
  - intros h r'. destruct (decide (h = sm_handle m)) as [->|].
    + rewrite lookup_insert_eq. intros [= <-]. simpl.
      destruct (Hr _ _ Er) as [E ?]. rewrite count_pend, decide_True in E by done. lia.
    + rewrite lookup_insert_ne by done. intros E'. destruct (Hr _ _ E') as [E ?].
      rewrite count_pend, decide_False in E by done. split; lia.
  - intros m' Hm'. destruct (Hl m') as (r' & E' & Hp).
    { rewrite elem_of_app, elem_of_cons. apply elem_of_app in Hm' as [?|?]; auto. }
    destruct (decide (sm_handle m' = sm_handle m)) as [E|].
    + rewrite E, lookup_insert_eq. rewrite E, Er in E'. injection E' as <-. eauto.
    + rewrite lookup_insert_ne by done. eauto.
Qed.

(** ... and a reference taken. *)
Lemma inv_take pend m x r :
  ipc_inv pend x -> shm_table x !! sm_handle m = Some r -> pages m = lenZ (frames r) ->
  ipc_inv (m :: pend) (set_shm (<[sm_handle m := set_refs (refs r + 1) r]> (shm_table x)) x).
Proof.
  intros [Hf Hh Hr Hl Hv Hn Hnd Hd Hm] Er Hpg. constructor; simpl; try done.
  - intros h r'. destruct (decide (h = sm_handle m)) as [->|].
    + rewrite lookup_insert_eq. intros _. by eapply Hh.
    + rewrite lookup_insert_ne by done. apply Hh.
  - intros h r'. rewrite count_pend. destruct (decide (h = sm_handle m)) as [->|].
    + rewrite lookup_insert_eq, decide_True by done. intros [= <-]. simpl.
      destruct (Hr _ _ Er) as [E ?]. lia.
    + rewrite lookup_insert_ne, decide_False by done. intros E'.
      destruct (Hr _ _ E') as [E ?]. split; lia.
  - intros m'. rewrite elem_of_app, elem_of_cons. intros Hm'.
    destruct (decide (sm_handle m' = sm_handle m)) as [E|].
    + rewrite E, lookup_insert_eq. eexists. split; [done|]. simpl.
      destruct Hm' as [Hm'|[->|Hm']]; [| done |].
      all: destruct (Hl m') as (r' & E' & ->); [rewrite elem_of_app; auto|].
      all: by rewrite E, Er in E'; injection E' as <-.
    + rewrite lookup_insert_ne by done. destruct Hm' as [Hm'|[->|Hm']]; [|done|].
      all: apply Hl; rewrite elem_of_app; auto.
Qed.

(** A region nobody refers to can be removed. *)
Lemma inv_delete pend x h r :
  ipc_inv pend x -> shm_table x !! h = Some r -> refs r = 0 ->
  ipc_inv pend (set_shm (delete h (shm_table x)) x).
Proof.
  intros [Hf Hh Hr Hl Hv Hn Hnd Hd Hm] Er H0. constructor; simpl; try done.
  - intros h' r'. rewrite lookup_delete_Some. intros [_ ?]. by eapply Hh.
  - intros h' r'. rewrite lookup_delete_Some. intros [_ ?]. by eapply Hr.
  - intros m Hm'. destruct (Hl m Hm') as (r' & E' & Hp). exists r'.
    rewrite lookup_delete_ne; [done|]. destruct (Hr _ _ Er) as [E _].
    intros E2. symmetry in E2. revert E2. eapply count_handle_zero; [|done]. congruence.
Qed.

(** A fresh region. *)
Lemma inv_create x fs n c :
  ipc_ok x -> next_handle x < U64_MAX -> 0 < lenZ fs ->
  ipc_ok (set_shm (<[next_handle x := mkRegion fs n c 0]> (shm_table x))
            (set_handle (wrap 64 (next_handle x + 1)) x)).
Proof.
  intros [Hf Hh Hr Hl Hv Hn Hnd Hd Hm] Hlt Hfs.
  rewrite wrap_id by (unfold fits, U64_MAX in *; lia). constructor; simpl; try done.
  - lia.
  - intros h r'. destruct (decide (h = next_handle x)) as [->|]; [lia|].
    rewrite lookup_insert_ne by done. intros E. specialize (Hh _ _ E). lia.
  - intros h r'. destruct (decide (h = next_handle x)) as [->|].
    + rewrite lookup_insert_eq. intros [= <-]. simpl. split; [|done].
      symmetry. apply count_handle_absent. intros m Hm'.
      destruct (Hl m Hm') as (r & Er & _). specialize (Hh _ _ Er). lia.
    + rewrite lookup_insert_ne by done. apply Hr.
  - intros m Hm'. destruct (Hl m Hm') as (r & Er & Hp). exists r.
    rewrite lookup_insert_ne; [done|]. specialize (Hh _ _ Er). lia.
Qed.

(** The bump pointer of a process only grows. *)
Lemma inv_bump pend x p n :
  ipc_inv pend x -> default 0 (shm_va_next x !! p) <= n -> 0 <= n ->
  ipc_inv pend (set_va_next (<[p := n]> (shm_va_next x)) x).
Proof.
  intros [Hf Hh Hr Hl Hv Hn Hnd Hd Hm] Hle H0. constructor; simpl; try done.
  - intros m Hm'. destruct (Hv m Hm') as [? Htop]. split; [done|].
    etrans; [exact Htop|]. unfold va_top; simpl.
    destruct (decide (sm_pid m = p)) as [->|]; [rewrite lookup_insert_eq|by rewrite lookup_insert_ne].
    simpl. unfold PAGE_SIZE. lia.
  - intros q k. destruct (decide (q = p)) as [->|]; [rewrite lookup_insert_eq; congruence|].
    rewrite lookup_insert_ne by done. apply Hn.
Qed.

(** A pending mapping above everything the process has mapped is recorded. *)
Lemma inv_record m pend x :
  ipc_inv (m :: pend) x -> SHM_VA_BASE <= base_va m ->
  base_va m + pages m * PAGE_SIZE <= va_top x (sm_pid m) ->
  (forall m', m' ∈ shm_mappings x -> sm_pid m' = sm_pid m ->
    base_va m' + pages m' * PAGE_SIZE <= base_va m) ->
  ipc_inv pend (set_mappings (shm_mappings x ++ [m]) x).
Proof.
  intros [Hf Hh Hr Hl Hv Hn Hnd Hd Hm] Hb Ht Habove.
  assert (Hpos : forall m', m' ∈ shm_mappings x ++ m :: pend -> 0 < pages m').
  { intros m' Hm'. destruct (Hl m' Hm') as (r & Er & ->). by apply (Hr _ _ Er). }
  constructor; simpl; try done; rewrite <- ?app_assoc; simpl; try done.
  - intros m'. rewrite elem_of_app, list_elem_of_singleton. intros [?| ->]; [by apply Hv|done].
  - apply NoDup_app. split_and!; [done| |apply NoDup_singleton].
    intros m' Hm' ->%list_elem_of_singleton. specialize (Habove m Hm' eq_refl).
    specialize (Hpos m). rewrite elem_of_app in Hpos. specialize (Hpos (or_introl Hm')).
    unfold PAGE_SIZE in *. lia.
  - intros m1 m2. rewrite !elem_of_app, !list_elem_of_singleton.
    intros [H1| ->] [H2| ->] Hne Hp; [by apply Hd| | |done].
    + left. by apply Habove.
    + right. by apply Habove.
Qed.

(** The tables while a mapping is being made, and once it is recorded. *)
Lemma inv_map x h r p n :
  ipc_ok x -> shm_table x !! h = Some r -> n = default 0 (shm_va_next x !! p) ->
  let m := mkMapping p h (SHM_VA_BASE + n * PAGE_SIZE) (lenZ (frames r)) in
  let x1 := set_va_next (<[p := n + lenZ (frames r)]> (shm_va_next x))
              (set_shm (<[h := set_refs (refs r + 1) r]> (shm_table x)) x) in
  ipc_inv [m] x1 /\ ipc_ok (set_mappings (shm_mappings x1 ++ [m]) x1).
Proof.
  intros Hok Er Hn m x1. assert (0 <= n).
  { destruct (shm_va_next x !! p) eqn:E; [|simpl in Hn; lia]. subst n. by eapply ok_next. }
  destruct (ok_refs _ _ Hok _ _ Er) as [_ Hpos].
  assert (Hinv : ipc_inv [m] x1).
  { apply (inv_bump [m] (set_shm _ x)); simpl; [|lia|lia]. by apply (inv_take [] m). }
  split; [done|]. apply inv_record; [done|..]; simpl.
  - unfold PAGE_SIZE. lia.
  - unfold va_top. simpl. rewrite lookup_insert_eq. simpl. lia.
  - intros m' Hm' Hp. destruct (ok_va _ _ Hok m' Hm') as [_ Ht].
    unfold va_top in Ht. rewrite Hp, <- Hn in Ht. exact Ht.
Qed.

(** Mappings taken out of the list are pending until their references are
    given up. *)
Lemma inv_unrecord ms l x :
  ipc_ok x -> ms ++ l ≡ₚ shm_mappings x -> ipc_inv ms (set_mappings l x).
Proof.
  intros [Hf Hh Hr Hl Hv Hn Hnd Hd Hm] Hp.
  assert (Hsub : forall m', m' ∈ l -> m' ∈ shm_mappings x).
  { intros. rewrite <- Hp. rewrite elem_of_app. by right. }
  assert (Hp2 : l ++ ms ≡ₚ shm_mappings x ++ []).
  { by rewrite app_nil_r, <- Hp, Permutation_app_comm. }
  constructor; simpl; try done.
  - intros h r E. rewrite (count_if_perm _ _ _ Hp2). by apply Hr.
  - intros m' Hm'. apply Hl. by rewrite <- Hp2.
  - intros m' Hm'. by apply Hv, Hsub.
  - rewrite <- Hp in Hnd. by apply NoDup_app in Hnd as (_ & _ & ?).
  - intros. apply Hd; auto.
Qed.

(** The bump pointer of a process without mappings can be dropped. *)
Lemma inv_unbump x p :
  ipc_ok x -> (forall m, m ∈ shm_mappings x -> sm_pid m <> p) ->
  ipc_ok (set_va_next (delete p (shm_va_next x)) x).
Proof.
  intros [Hf Hh Hr Hl Hv Hn Hnd Hd Hm] Hp. constructor; simpl; try done.
  - intros m Hm'. destruct (Hv m Hm') as [? Ht]. split; [done|].
    unfold va_top in *. simpl. rewrite lookup_delete_ne; [done|]. symmetry. by apply Hp.
  - intros q n. rewrite lookup_delete_Some. intros [_ ?]. by eapply Hn.
Qed.

Lemma inv_mail x b :
  ipc_ok x -> (forall p q, b !! p = Some q -> lenZ q <= MAX_QUEUED_PER_PID) ->
  ipc_ok (set_mail b x).
Proof. intros [] Hb. by constructor. Qed.

(** ** What a handler leaves of the tables

    The memory and process-table calls of the handlers do not touch the IPC
    tables. *)
Section frame.
Context `{X86Paging} `{UserMem}.

Definition keeps {E A} (c : M istate E A) : Prop :=
  forall s, wp c (fun s' r => i_ipc s' = i_ipc s /\ is_ok r = true) s.

Lemma keeps_wp {E A} (c : M istate E A) (Q : istate -> result A E -> Prop) s :
  keeps c -> (forall s' a, i_ipc s' = i_ipc s -> Q s' (Ok a)) -> wp c Q s.
Proof.
  intros Hc HQ. eapply wp_mono; [apply Hc|]. intros s' [a|e] [E1 E2]; [by apply HQ|done].
Qed.

Lemma keeps_on_mem {A} (c : K A) : keeps (on_mem c).
Proof. intros s. unfold on_mem. repeat wp_step. by intros k r _. Qed.

Lemma keeps_on_current {A} (c : KA A) : keeps (on_current c).
Proof.
  intros s s' r. unfold on_current. destruct (table_current (i_table s)); [|done].
  destruct (c _) as [[[k a] r']|]; [|done]. by intros [= <- <-].
Qed.

Lemma keeps_free_pa pa : keeps (free_pa pa).
Proof.
  intros s. unfold free_pa. wp_step. wp_step. wp_step; [|by wp_step].
  wp_step. apply keeps_wp; [apply keeps_on_mem|]. intros. by wp_step.
Qed.

Lemma keeps_mfor {A} (l : list A) f : (forall x, keeps (f x)) -> keeps (mfor l f : I unit).
Proof.
  intros Hf s. eapply wp_mono.
  { apply (wp_mfor (fun s' => i_ipc s' = i_ipc s) (fun _ _ => False)); [done|].
    intros x s1 _ H1. eapply keeps_wp; [apply Hf|]. simpl. congruence. }
  by intros s' [?|?].
Qed.

Lemma keeps_unmap_pages base n : keeps (unmap_pages base n).
Proof.
  apply keeps_mfor. intros j s. wp_step. wp_step. wp_step.
  apply keeps_wp; [apply keeps_on_current|]. intros. by wp_step.
Qed.

Lemma shm_alloc_keeps n acc s : wp (shm_alloc n acc) (fun s' _ => i_ipc s' = i_ipc s) s.
Proof.
  revert acc s. induction n as [|n IH]; intros acc s; [by apply wp_mok|]. simpl.
  wp_step. apply keeps_wp; [apply keeps_on_mem|]. intros s1 [pf|e] E1.
  - eapply wp_mono; [apply IH|]. simpl. congruence.
  - wp_step. apply keeps_wp; [apply keeps_mfor, keeps_free_pa|].
    intros s2 ? ?. wp_step. congruence.
Qed.

End frame.

(** ** The handlers *)

Lemma wp_on_ipc {E} f Q s :
  Q (set_i_ipc (f (i_ipc s)) s) (Ok tt) -> wp (on_ipc f : M istate E unit) Q s.
Proof. intros HQ. by apply wp_modify. Qed.
Ltac wp_extra ::= lazymatch goal with |- wp (on_ipc _) _ _ => apply wp_on_ipc end.

Section handlers_ok.
Context `{X86Paging} `{UserMem}.

(** Whatever the call returns, the invariant holds afterwards. *)
Abbreviation ends_ok := (fun (s : istate) (_ : result _ Z) => ipc_ok (i_ipc s)).

Lemma shm_alloc_length n acc s :
  wp (shm_alloc n acc) (fun _ r => match r with
    | Ok l => length l = (length acc + n)%nat | Err _ => True end) s.
Proof.
  revert acc s. induction n as [|n IH]; intros acc s; simpl.
  { apply wp_mok. lia. }
  wp_step. intros s1 [[pf|e]|e] _; [| |done].
  - eapply wp_mono; [apply IH|]. intros s2 [l|e] Hl; [|done]. rewrite Hl, length_app. simpl. lia.
  - wp_step. intros s2 [?|?] _; [by wp_step|done].
Qed.

Lemma sys_shm_create_ok size s s' v :
  fits 64 size -> ipc_ok (i_ipc s) -> next_handle (i_ipc s) < U64_MAX ->
  sys_shm_create size s = Ret (s', v) -> ipc_ok (i_ipc s').
Proof.
  intros [Hsz _] Hok Hn. apply (wp_fn_ret _ (fun s _ => ipc_ok (i_ipc s))).
  wp_step; [by wp_step|]. wp_step. wp_step. wp_step.
  intros s1 r Hr. pose proof (shm_alloc_keeps _ _ _ _ _ Hr) as E1.
  pose proof (shm_alloc_length _ _ _ _ _ Hr) as Hlen. simpl in E1.
  destruct r as [l|]; [|by rewrite E1]. simpl in Hlen.
  wp_steps. simpl. rewrite E1. apply inv_create; [done|done|].
  apply orb_false_iff in Heqb as [E0%Z.eqb_neq _]. inv_chk. unfold lenZ, PAGE_SIZE in *. rewrite Hlen.
  assert (0 < (size + 4096 - 1) / 4096); [|lia]. apply Z.div_str_pos. lia.
Qed.

Lemma rollback_refs_ok pend m s :
  ipc_inv (m :: pend) (i_ipc s) ->
  wp (rollback_refs (sm_handle m)) (fun s' r => ipc_inv pend (i_ipc s')) s.
Proof.
  intros Hok. unfold rollback_refs. wp_step. wp_step. cbn beta.
  destruct (ok_live _ _ Hok m) as (r & Er & _).
  { rewrite elem_of_app, elem_of_cons. auto. }
  rewrite Er. wp_steps. inv_chk. by apply inv_drop.
Qed.

Lemma shm_map_page_ok m fl flags i x s :
  ipc_inv [m] x -> i_ipc s = x ->
  wp (shm_map_page (sm_handle m) (base_va m) fl flags i)
    (fun s' r => match r with Ok _ => i_ipc s' = x | Err _ => ipc_ok (i_ipc s') end) s.
Proof.
  intros Hinv Hs. subst x. unfold shm_map_page.
  assert (Hback : forall s1, i_ipc s1 = i_ipc s ->
    wp (_ ← unmap_pages (base_va m) i; _ ← rollback_refs (sm_handle m); mfail U64_MAX : I unit)
      (fun s' r => match r with Ok _ => i_ipc s' = i_ipc s | Err _ => ipc_ok (i_ipc s') end) s1).
  { intros s1 E1. wp_step. apply keeps_wp; [apply keeps_unmap_pages|]. intros s2 _ E2.
    wp_step. eapply wp_mono; [eapply (rollback_refs_ok []); by rewrite E2, E1|].
    intros s3 [?|?] ?; [|done]. by wp_step. }
  do 9 (wp_step; cbn beta); [|by apply Hback]. wp_step. apply keeps_wp; [apply keeps_on_current|].
  intros s1 [?|?] E1; [by wp_step|by apply Hback].
Qed.

Lemma sys_shm_map_ok handle mode s s' v :
  ipc_ok (i_ipc s) -> sys_shm_map handle mode s = Ret (s', v) -> ipc_ok (i_ipc s').
Proof.
  intros Hok. apply (wp_fn_ret _ (fun s _ => ipc_ok (i_ipc s))).
  wp_step. wp_step. wp_step; [|by wp_step].
  do 10 wp_step. inv_chk. cbn [i_ipc i_table set_i_ipc].
  destruct (inv_map _ _ _ (current_pid (i_table s)) _ Hok Heqo eq_refl) as [Hmid Hend].
  wp_step; wp_step.
  - set (m := mkMapping _ _ _ _) in *. set (x1 := set_va_next _ _) in *.
    eapply wp_mono.
    { apply (wp_mfor (fun s => i_ipc s = x1) (fun s _ => ipc_ok (i_ipc s))); [done|].
      intros i s2 _ E2. by apply (shm_map_page_ok m). }
    intros s2 [?|?] E2; [|done]. wp_steps. simpl. by rewrite E2.
  - eapply wp_mono; [by eapply (rollback_refs_ok [] (mkMapping _ handle _ _))|].
    intros s2 [?|?] E2; [by wp_step|done].
Qed.

Lemma drop_ref_ok pend m s :
  ipc_inv (m :: pend) (i_ipc s) ->
  wp (drop_ref (sm_handle m)) (fun s' r => ipc_inv pend (i_ipc s') /\
    shm_mappings (i_ipc s') = shm_mappings (i_ipc s) /\ is_ok r = true) s.
Proof.
  intros Hok. unfold drop_ref. wp_step. wp_step. cbn beta.
  destruct (ok_live _ _ Hok m) as (r & Er & _).
  { rewrite elem_of_app, elem_of_cons. auto. }
  assert (Hpos : 0 < refs r).
  { destruct (ok_refs _ _ Hok _ _ Er) as [-> _]. apply count_if_pos with m.
    - rewrite elem_of_app, elem_of_cons. auto.
    - apply of_handle_self. }
  rewrite Er, bool_decide_eq_true_2 by done. wp_step. wp_step.
  pose proof (inv_drop _ _ _ _ Hok Er) as Hinv. wp_step; [|by wp_step].
  apply Z.eqb_eq in Heqb. wp_step.
  apply keeps_wp; [apply keeps_mfor, keeps_free_pa|]. intros s1 _ E1. wp_step.
  cbn [i_ipc set_i_ipc].
  rewrite E1. cbn [i_ipc set_i_ipc]. split; [|done].
  eapply inv_delete; [exact Hinv|simpl; by rewrite lookup_insert_eq|exact Heqb].
Qed.

Lemma sys_shm_unmap_ok ptr s s' v :
  ipc_ok (i_ipc s) -> sys_shm_unmap ptr s = Ret (s', v) -> ipc_ok (i_ipc s').
Proof.
  intros Hok. apply (wp_fn_ret _ (fun s _ => ipc_ok (i_ipc s))).
  wp_step. wp_step. wp_step; [|by wp_step].
  destruct (position_Some _ _ _ Heqo) as (m & Em & _). rewrite Em.
  do 5 wp_step. inv_chk.
  pose proof (inv_unrecord [m] _ _ Hok (swap_remove_perm _ _ _ Em)) as Hinv.
  assert (Hrest : forall s1,
    i_ipc s1 = set_mappings (swap_remove (shm_mappings (i_ipc s)) n) (i_ipc s) ->
    wp (_ ← drop_ref (sm_handle m); mok 0 : I Z)
      (fun s' r => match r with Ok _ | Err _ => ipc_ok (i_ipc s') end) s1).
  { intros s1 E1. wp_step. eapply wp_mono; [eapply (drop_ref_ok []); by rewrite E1|].
    intros s2 [?|?] (? & ? & ?); [by wp_step|done]. }
  injection H1 as <-. wp_step; [|wp_step; by apply Hrest].
  apply keeps_wp; [apply keeps_unmap_pages|]. intros s1 _ E1. by apply Hrest.
Qed.

Lemma sys_ipc_send_ok target ptr len s s' v :
  ipc_ok (i_ipc s) -> sys_ipc_send target ptr len s = Ret (s', v) -> ipc_ok (i_ipc s').
Proof.
  intros Hok. apply (wp_fn_ret _ (fun s _ => ipc_ok (i_ipc s))).
  wp_step; [by wp_step|]. wp_step; [|by wp_step]. wp_step. wp_step. wp_step.
  wp_step; [by wp_step|]. wp_steps. simpl. apply bool_decide_eq_false_1 in Heqb0.
  apply inv_mail; [done|]. intros p' q. destruct (decide (p' = wrap 32 target)) as [->|].
  - rewrite lookup_insert_eq. intros [= <-]. rewrite lenZ_app.
    change (lenZ [_]) with 1. lia.
  - rewrite lookup_insert_ne by done. by apply (ok_mail _ _ Hok).
Qed.

Lemma recv_round_ok me buf max out s :
  ipc_ok (i_ipc s) -> wp (recv_round me buf max out) ends_ok s.
Proof.
  intros Hok. unfold recv_round. wp_step. wp_step. wp_step; [|by wp_step].
  destruct l as [|f q]; [by wp_step|].
  assert (Hok' : ipc_ok (set_mail (<[me := q]> (mailboxes (i_ipc s))) (i_ipc s))).
  { apply inv_mail; [done|]. intros p' q'. destruct (decide (p' = me)) as [->|].
    - rewrite lookup_insert_eq. intros [= <-]. pose proof (ok_mail _ _ Hok _ _ Heqo) as Hq.
      rewrite lenZ_cons in Hq. lia.
    - rewrite lookup_insert_ne by done. by apply (ok_mail _ _ Hok). }
  wp_steps; done.
Qed.

Lemma drop_refs_ok ms s :
  ipc_inv ms (i_ipc s) ->
  wp (mfor ms (fun m => drop_ref (sm_handle m))) (fun s' r => ipc_ok (i_ipc s') /\
    shm_mappings (i_ipc s') = shm_mappings (i_ipc s)) s.
Proof.
  revert s. induction ms as [|m ms IH]; intros s Hinv; simpl; [by wp_step|].
  apply wp_bind. eapply wp_mono; [by apply drop_ref_ok|].
  intros s1 [[]|e] (H1 & E1 & Hr); [|done]. eapply wp_mono; [by apply IH|].
  intros s2 r [? ?]. split; [done|congruence].
Qed.

Lemma filter_split {A} (P : A -> Prop) `{!forall x, Decision (P x)} (l : list A) :
  filter P l ++ filter (fun x => ~ P x) l ≡ₚ l.
Proof.
  induction l as [|x l IH]; [done|]. rewrite !filter_cons.
  destruct (decide (P x)) as [HP|HP].
  - rewrite decide_False by (by intros ?). simpl. by constructor.
  - rewrite decide_True by done. rewrite <- Permutation_middle. by constructor.
Qed.

Lemma cleanup_pid_ok pid s s' :
  ipc_ok (i_ipc s) -> cleanup_pid pid s = Ret s' -> ipc_ok (i_ipc s').
Proof.
  intros Hok. unfold cleanup_pid. cbn [i_ipc set_i_ipc shm_mappings set_mail].
  set (s1 := set_i_ipc (set_mappings _ _) _).
  assert (Hinv : ipc_inv (filter (fun m => sm_pid m = pid) (shm_mappings (i_ipc s))) (i_ipc s1)).
  { apply inv_unrecord; [|apply filter_split]. apply inv_mail; [done|].
    intros p q. rewrite lookup_delete_Some. intros [_ ?]. by eapply ok_mail. }
  pose proof (drop_refs_ok _ _ Hinv) as Hd. unfold wp in Hd.
  destruct (mfor _ _ s1) as [[s2 r]|]; [|done]. intros [= <-].
  destruct (Hd s2 r eq_refl) as [H2 E2]. cbn [i_ipc set_i_ipc].
  apply inv_unbump; [done|]. rewrite E2. simpl. intros m Hm.
  by apply list_elem_of_filter in Hm as [? _].
Qed.

End handlers_ok.

(** ** Claims *)

(** A user range is accepted exactly when it is not empty, does not start at
    null and ends below the user half. *)
Lemma user_slice_Some ptr len r :
  fits 64 ptr -> fits 64 len ->
  user_slice ptr len = Some r <->
  r = (ptr, len) /\ ptr <> 0 /\ len <> 0 /\ ptr + len < USER_SPACE_MAX.
Proof.
  intros [Hp1 Hp2] [Hl1 Hl2]. unfold user_slice, checked_add, USER_SPACE_MAX.
  destruct (Z.eqb_spec ptr 0), (Z.eqb_spec len 0); simpl; [naive_solver..|].
  case_bool_decide as E1; simpl.
  - case_bool_decide; naive_solver lia.
  - split; [done|]. intros (_ & _ & _ & ?). lia.
Qed.

Lemma user_slice_mut_eq ptr len : user_slice_mut ptr len = user_slice ptr len.
Proof. reflexivity. Qed.

Section claims.
Context `{X86Paging} `{UserMem}.

(** The calls that touch the IPC tables, and everything else the kernel
    does, which leaves them alone.  A handle is a 64-bit counter that starts
    at 1. *)
Inductive ipc_step : istate -> istate -> Prop :=
  | step_create s s' size v :
      fits 64 size -> next_handle (i_ipc s) < U64_MAX ->
      sys_shm_create size s = Ret (s', v) -> ipc_step s s'
  | step_map s s' h mode v : sys_shm_map h mode s = Ret (s', v) -> ipc_step s s'
  | step_unmap s s' ptr v : sys_shm_unmap ptr s = Ret (s', v) -> ipc_step s s'
  | step_send s s' t ptr len v : sys_ipc_send t ptr len s = Ret (s', v) -> ipc_step s s'
  | step_recv s s' me buf max out r :
      recv_round me buf max out s = Ret (s', r) -> ipc_step s s'
  | step_cleanup s s' pid : cleanup_pid pid s = Ret s' -> ipc_step s s'
  | step_other s s' : i_ipc s' = i_ipc s -> ipc_step s s'.

Lemma ipc_step_ok s s' : ipc_step s s' -> ipc_ok (i_ipc s) -> ipc_ok (i_ipc s').
Proof.
  destruct 1 as [? ? ? ? Hs Hn E|? ? ? ? ? E|? ? ? ? E|? ? ? ? ? ? E|? ? ? ? ? ? ? E|? ? ? E|? ? E];
    intros Hok.
  - by eapply sys_shm_create_ok.
  - by eapply sys_shm_map_ok.
  - by eapply sys_shm_unmap_ok.
  - by eapply sys_ipc_send_ok.
  - exact (recv_round_ok _ _ _ _ _ Hok _ _ E).
  - by eapply cleanup_pid_ok.
  - by rewrite E.
Qed.

(** C13.  Whatever sequence of shared-memory and mailbox calls the processes
    make, failed and rolled-back calls included, the tables stay consistent:
    the reference count of a region is the number of its live mappings, a
    mapping refers to a live region and has its size, two mappings of one
    process never overlap, and no mailbox holds more than 64 messages. *)
Theorem ipc_tables_invariant s s' :
  i_ipc s = ipc_new -> rtc ipc_step s s' ->
  (forall h r, shm_table (i_ipc s') !! h = Some r ->
    refs r = count_if (of_handle h) (shm_mappings (i_ipc s'))) /\
  (forall m, m ∈ shm_mappings (i_ipc s') -> exists r,
    shm_table (i_ipc s') !! sm_handle m = Some r /\ pages m = lenZ (frames r)) /\
  NoDup (shm_mappings (i_ipc s')) /\
  (forall m1 m2, m1 ∈ shm_mappings (i_ipc s') -> m2 ∈ shm_mappings (i_ipc s') -> m1 <> m2 ->
    sm_pid m1 = sm_pid m2 -> disjoint_maps m1 m2) /\
  (forall p q, mailboxes (i_ipc s') !! p = Some q -> lenZ q <= MAX_QUEUED_PER_PID).
Proof.
  intros Hs Hrun. assert (Hok : ipc_ok (i_ipc s')).
  { assert (ipc_ok (i_ipc s)) as Hok by (rewrite Hs; apply ipc_ok_new). clear Hs.
    induction Hrun; [done|]. by eapply IHHrun, ipc_step_ok. }
  destruct Hok as [_ _ Hr Hl _ _ Hnd Hd Hm]. rewrite app_nil_r in Hl.
  split_and!; try done. intros h r E. destruct (Hr h r E) as [Hc _]. by rewrite app_nil_r in Hc.
Qed.

(** What happens to the mailboxes, as seen from outside. *)
Inductive mail_event :=
  | Sent (target : Z) (f : IpcFrame)
  | Received (me : Z) (f : IpcFrame).

Definition mbox (s : istate) (p : Z) : list IpcFrame := default [] (mailboxes (i_ipc s) !! p).

Definition sent_to (p : Z) (tr : list mail_event) : list IpcFrame :=
  omap (fun e => match e with Sent t f => if decide (t = p) then Some f else None | _ => None end) tr.
Definition received_by (p : Z) (tr : list mail_event) : list IpcFrame :=
  omap (fun e => match e with Received t f => if decide (t = p) then Some f else None | _ => None end) tr.

(** A send that returns 0 is an event; a receive round that takes a message
    is one; nothing else is. *)
Inductive mail_step : istate -> list mail_event -> istate -> Prop :=
  | mail_send s s' t ptr len src :
      sys_ipc_send t ptr len s = Ret (s', 0) -> uread (i_mem s) ptr len = Ret src ->
      mail_step s [Sent (wrap 32 t) (mkFrame (current_pid (i_table s)) src)] s'
  | mail_refused s s' t ptr len v :
      sys_ipc_send t ptr len s = Ret (s', v) -> v <> 0 -> mail_step s [] s'
  | mail_recv s s' me buf max out f q r :
      recv_round me buf max out s = Ret (s', r) -> mbox s me = f :: q ->
      mail_step s [Received me f] s'
  | mail_empty s s' me buf max out :
      recv_round me buf max out s = Ret (s', Ok None) -> mail_step s [] s'
  | mail_other s s' : mailboxes (i_ipc s') = mailboxes (i_ipc s) -> mail_step s [] s'.

Inductive mail_run : istate -> list mail_event -> istate -> Prop :=
  | run_nil s : mail_run s [] s
  | run_step s s1 s2 tr tr' : mail_step s tr s1 -> mail_run s1 tr' s2 -> mail_run s (tr ++ tr') s2.

Lemma sys_ipc_send_spec t ptr len s s' v :
  sys_ipc_send t ptr len s = Ret (s', v) ->
  (v = U64_MAX /\ s' = s) \/
  (v = 0 /\ exists src, uread (i_mem s) ptr len = Ret src /\
    s' = set_i_ipc (set_mail (<[wrap 32 t := mbox s (wrap 32 t) ++
           [mkFrame (current_pid (i_table s)) src]]> (mailboxes (i_ipc s))) (i_ipc s)) s).
Proof.
  intros E. pattern s', v. eapply wp_fn_ret; [|exact E].
  wp_step; [wp_step; by left|]. wp_step; [|wp_step; by left]. wp_step. wp_step. wp_step.
  wp_step; [wp_step; by left|]. wp_steps. right. split; [done|]. exists a.
  unfold user_slice in Heqo. destruct (_ || _) in Heqo; [done|]. simpl in Heqo.
  destruct (checked_add _ _ _); [simpl in Heqo|done]. destruct (bool_decide _) in Heqo; [done|].
  injection Heqo as -> ->. by split.
Qed.

Lemma recv_round_pops me buf max out s s' r f q :
  mbox s me = f :: q -> recv_round me buf max out s = Ret (s', r) ->
  mailboxes (i_ipc s') = <[me := q]> (mailboxes (i_ipc s)).
Proof.
  intros Hq. revert s' r. change (wp (recv_round me buf max out)
    (fun s' _ => mailboxes (i_ipc s') = <[me := q]> (mailboxes (i_ipc s))) s).
  unfold recv_round. wp_step. wp_step. cbv beta. unfold mbox in Hq.
  destruct (mailboxes (i_ipc s) !! me) as [l|]; [|done]. simpl in Hq. subst l.
  wp_steps; done.
Qed.

Lemma recv_round_none me buf max out s s' :
  recv_round me buf max out s = Ret (s', Ok None) -> s' = s.
Proof.
  intros E. assert (Hw : wp (recv_round me buf max out) (fun s' r => r = Ok None -> s' = s) s).
  { unfold recv_round. wp_step. wp_step. wp_step; [|by wp_step]. destruct l; wp_steps; done. }
  by apply (Hw _ _ E).
Qed.

Lemma mail_step_fifo s tr s' p :
  mail_step s tr s' -> mbox s p ++ sent_to p tr = received_by p tr ++ mbox s' p.
Proof.
  destruct 1 as [s s' t ptr len src E Eu|s s' t ptr len v E Hv|s s' me buf max out f q r E Hq
                |s s' me buf max out E|s s' E]; simpl.
  - apply sys_ipc_send_spec in E as [[? _]|(_ & src' & Eu' & ->)]; [done|].
    rewrite Eu in Eu'. injection Eu' as <-. unfold mbox at 2. simpl.
    destruct (decide (wrap 32 t = p)) as [<-|]; [by rewrite lookup_insert_eq|].
    by rewrite lookup_insert_ne, app_nil_r.
  - apply sys_ipc_send_spec in E as [[_ ->]|[? _]]; [by rewrite app_nil_r|done].
  - apply (recv_round_pops _ _ _ _ _ _ _ _ _ Hq) in E. unfold mbox at 2. rewrite E, app_nil_r.
    destruct (decide (me = p)) as [<-|]; [by rewrite lookup_insert_eq, Hq|].
    by rewrite lookup_insert_ne.
  - apply recv_round_none in E as ->. by rewrite app_nil_r.
  - unfold mbox. by rewrite E, app_nil_r.
Qed.


(** One round with a message waiting. *)
Lemma recv_round_takes me s f q buf max out k1 k2 :
  let n := Z.min (lenZ (bytes f)) max in
  0 <= n -> mailboxes (i_ipc s) !! me = Some (f :: q) ->
  user_slice_mut buf n = Some (buf, n) ->
  uwrite (i_mem s) buf (take (Z.to_nat n) (bytes f)) = Ret k1 ->
  (if out =? 0 then k2 = k1 else user_slice_mut out 8 = Some (out, 8) /\
    uwrite k1 out (le_bytes 8 (sender f)) = Ret k2) ->
  recv_round me buf max out s =
  Ret (mkI k2 (i_table s) (set_mail (<[me := q]> (mailboxes (i_ipc s))) (i_ipc s)), Ok (Some n)).
Proof.
  intros n Hn Hbox Hs1 Hw1 Hout.
  assert (Hsl : slice (bytes f) 0 n = Ret (take (Z.to_nat n) (bytes f))).
  { unfold slice. rewrite bool_decide_eq_true_2 by lia. by rewrite Z.sub_0_r, drop_0. }
  unfold recv_round, mbind, M_bind, mbindM, mget, mlift, on_ipc, modify. cbv beta iota.
  rewrite Hbox. cbv beta iota zeta. fold n. rewrite Hs1. cbv beta iota. rewrite Hsl.
  cbv beta iota. cbn [i_mem set_i_ipc]. rewrite Hw1. cbv beta iota.
  destruct (out =? 0); [by subst k2|]. destruct Hout as [-> Hw2]. cbv beta iota.
  cbn [i_mem set_i_mem]. by rewrite Hw2.
Qed.

(** Property.  A receive with a message waiting takes the oldest one, copies its
    first [max] bytes to the buffer, stores the sender's pid as a u64 when
    asked for, and returns the number of bytes copied.  With nothing waiting
    it yields, and goes on the same way once the other threads have run. *)
Theorem ipc_recv_delivers s f q buf max out k1 k2 others waits :
  let me := current_pid (i_table s) in
  let n := Z.min (lenZ (bytes f)) max in
  0 < max -> 0 < lenZ (bytes f) ->
  Forall (fun g => mbox g me = []) (s :: waits) ->
  user_slice_mut buf n = Some (buf, n) ->
  (if out =? 0 then k2 = k1 else user_slice_mut out 8 = Some (out, 8) /\
    uwrite k1 out (le_bytes 8 (sender f)) = Ret k2) ->
  forall s1, mailboxes (i_ipc s1) !! me = Some (f :: q) ->
  uwrite (i_mem s1) buf (take (Z.to_nat n) (bytes f)) = Ret k1 ->
  let s2 := mkI k2 (i_table s1) (set_mail (<[me := q]> (mailboxes (i_ipc s1))) (i_ipc s1)) in
  sys_ipc_recv (((fun g _ => g) <$> waits) ++ (fun _ => s1) :: others) buf max out s = Ret (s2, Some n)
  /\ (current_pid (i_table s1) = me -> sys_ipc_recv others buf max out s1 = Ret (s2, Some n)).
Proof.
  intros me n Hmax Hlen Hwait Hs1 Hout s1 Hbox Hw1 s2.
  pose proof (recv_round_takes me s1 f q buf max out k1 k2 ltac:(lia) Hbox Hs1 Hw1 Hout) as Hround.
  assert (Hloop : forall o, recv_loop o me buf max out s1 = Ret (s2, Ok (Some n))).
  { intros [|g o]; simpl; unfold mbind, M_bind, mbindM; by rewrite Hround. }
  unfold sys_ipc_recv. rewrite (proj2 (Z.eqb_neq max 0)) by lia. split; [|by intros ->; rewrite Hloop].
  fold me. enough (recv_loop (((fun g _ => g) <$> waits) ++ (fun _ => s1) :: others) me buf max out s
    = Ret (s2, Ok (Some n))) as -> by done.
  clearbody me. clear Hw1 Hround. revert s Hwait.
  induction waits as [|g waits IH]; intros s [Hs Hw]%Forall_cons.
  all: assert (Hnone : recv_round me buf max out s = Ret (s, Ok None));
    [unfold recv_round, mbind, M_bind, mbindM, mget; cbv beta iota; unfold mbox in Hs;
     destruct (mailboxes (i_ipc s) !! me) as [[|]|]; done|].
  all: simpl; unfold mbind at 1, M_bind at 1, mbindM at 1; rewrite Hnone.
  - apply Hloop.
  - by apply IH.
Qed.

End claims.

(** * A concrete IPC run

    Two processes on a small memory: pid 3 makes a one-page region and maps
    it, and sends pid 4 a message, which pid 4 receives.  The claims on
    kernel/src/ipc/mod.rs are applied along this run. *)

(** User addresses seen as physical ones. *)
#[export] Instance flat_user : UserMem := {|
  uread k a n := Ret (load_bytes (km_mem k) a (Z.to_nat n));
  uwrite k a l := Ret (mkKmem (km_fa k) (store_bytes (km_mem k) a l) (km_rc k) (km_cr3 k)
                    (km_mapper k) (km_slots k))
|}.

(** P4 to P1 at 0x1000 to 0x4000 for [SHM_VA_BASE]; frames 8 to 15 free; the
    bytes 72 105 at 0x5000. *)
Definition ipc_mem : phys :=
  store_bytes (store_u64 (store_u64 (store_u64 (fun _ => 0)
    0x1600 0x2007) 0x2000 0x3007) 0x3000 0x4007) 0x5000 [72; 105].
Definition ipc_kmem : kmem :=
  mkKmem (Some (mkFA [0xFF; 0x00] 16 0 8)) ipc_mem (mkRC []) 0x1000 None None.
Definition ipc_proc (i : Z) : Process :=
  mkProcess i 1 [] Runnable (mkAS_ 0x1000 ∅) 0 tf_default [] [] 0 0 0 0.
Definition ipc_table (cur : Z) : ProcessTable :=
  mkTable {[3 := ipc_proc 3; 4 := ipc_proc 4]} [] cur.

Definition ipc0 : istate := mkI ipc_kmem (ipc_table 3) ipc_new.
Definition ipc1 : istate := (ret_or (ipc0, 0) (sys_shm_create 100 ipc0)).1.
Definition ipc2 : istate := (ret_or (ipc0, 0) (sys_shm_map 1 SHM_MODE_WRITE ipc1)).1.
Definition ipc3 : istate := (ret_or (ipc0, 0) (sys_ipc_send 4 0x5000 2 ipc2)).1.
Definition ipc4 : istate := set_i_table (ipc_table 4) ipc3.
Definition ipc5 : istate := (ret_or (ipc0, Ok None) (recv_round 4 0x5100 16 0x5200 ipc4)).1.

Lemma run_create : sys_shm_create 100 ipc0 = Ret (ipc1, 1).
Proof. apply ret_or_snd; vm_compute; reflexivity. Qed.
Lemma run_map : sys_shm_map 1 SHM_MODE_WRITE ipc1 = Ret (ipc2, SHM_VA_BASE).
Proof. apply ret_or_snd; vm_compute; reflexivity. Qed.
Lemma run_send : sys_ipc_send 4 0x5000 2 ipc2 = Ret (ipc3, 0).
Proof. apply ret_or_snd; vm_compute; reflexivity. Qed.
Lemma run_recv : recv_round 4 0x5100 16 0x5200 ipc4 = Ret (ipc5, Ok (Some 2)).
Proof. apply ret_or_snd; vm_compute; reflexivity. Qed.

Lemma ipc_run : rtc ipc_step ipc0 ipc5.
Proof.
  eapply rtc_l; [eapply step_create, run_create; done|].
  eapply rtc_l; [eapply step_map, run_map|].
  eapply rtc_l; [eapply step_send, run_send|].
  eapply rtc_l; [eapply (step_other _ ipc4); done|].
  eapply rtc_once, step_recv, run_recv.
Qed.

Lemma ipc_tables_invariant_witness :
  exists r, shm_table (i_ipc ipc5) !! 1 = Some r /\ refs r = 1 /\
    refs r = count_if (of_handle 1) (shm_mappings (i_ipc ipc5)).
Proof.
  eexists. split; [vm_compute; reflexivity|]. split; [reflexivity|].
  apply (proj1 (ipc_tables_invariant ipc0 ipc5 eq_refl ipc_run)). vm_compute. reflexivity.
Defined.


Definition ipc_k1 : kmem := ret_or ipc_kmem (uwrite (i_mem ipc4) 0x5100 [72; 105]).
Definition ipc_k2 : kmem := ret_or ipc_kmem (uwrite ipc_k1 0x5200 (le_bytes 8 3)).

Lemma ipc_recv_delivers_witness :
  exists s', sys_ipc_recv [fun _ => ipc4] 0x5100 16 0x5200 (set_i_table (ipc_table 4) ipc2)
    = Ret (s', Some 2).
Proof.
  eexists.
  refine (proj1 (ipc_recv_delivers (set_i_table (ipc_table 4) ipc2)
    (mkFrame 3 [72; 105]) [] 0x5100 16 0x5200 ipc_k1 ipc_k2 [] [] _ _ _ _ _ ipc4 _ _)).
  - done.
  - done.
  - constructor; [vm_compute; reflexivity|constructor].
  - reflexivity.
  - split; reflexivity.
  - vm_compute. reflexivity.
  - reflexivity.
Defined.
