(* ===== verification/Queue.v ===== *)
(** * Bounded queues

    The interface of [crossbeam_queue::ArrayQueue], which the kernel uses for
    its input events and its executor: [ArrayQueue] has the operations,
    [ArrayQueueLaws] what the crate documents of them, against the list of
    the queued elements.  [list_queue] satisfies the laws. *)
From S2P Require Import Prelude.
Local Open Scope Z_scope.

Class ArrayQueue (A : Type) := {
  aq : Type;
  aq_new : Z -> aq;
  aq_push : A -> aq -> aq * result unit A;
  aq_pop : aq -> aq * option A
}.
#[global] Arguments aq A {_}.

Class ArrayQueueLaws (A : Type) `{ArrayQueue A} := {
  aq_items : aq A -> list A;
  aq_capacity : aq A -> Z;
  aq_new_items n : 0 < n -> aq_items (aq_new n) = [] /\ aq_capacity (aq_new n) = n;
  (** an element is added at the back, unless the queue is full *)
  aq_push_items x q : exists q' r, aq_push x q = (q', r) /\ aq_capacity q' = aq_capacity q /\
    if bool_decide (lenZ (aq_items q) < aq_capacity q)
    then aq_items q' = aq_items q ++ [x] /\ r = Ok tt
    else aq_items q' = aq_items q /\ r = Err x;
  (** the front element is taken *)
  aq_pop_items q : exists q' r, aq_pop q = (q', r) /\ aq_capacity q' = aq_capacity q /\
    match aq_items q with
    | [] => aq_items q' = [] /\ r = None
    | x :: l => aq_items q' = l /\ r = Some x
    end
}.

#[export] Instance list_queue A : ArrayQueue A := {|
  aq := (Z * list A);
  aq_new n := (n, []);
  aq_push x q := if bool_decide (lenZ q.2 < q.1) then ((q.1, q.2 ++ [x]), Ok tt) else (q, Err x);
  aq_pop q := match q.2 with [] => (q, None) | x :: l => ((q.1, l), Some x) end
|}.

#[export] Instance list_queue_laws A : ArrayQueueLaws A.
Proof.
  refine {| aq_items q := q.2; aq_capacity q := q.1 |}.
  - done.
  - intros x [n l]. simpl. case_bool_decide; eauto 10.
  - intros [n [|x l]]; simpl; eauto 10.
Defined.

(** A queue built by the interface never holds more than its capacity. *)
Definition aq_ok `{ArrayQueueLaws A} (q : aq A) : Prop := lenZ (aq_items q) <= aq_capacity q.
