(* ===== verification/Gfx.v ===== *)
(** * Framebuffer ownership and input events

    kernel/src/gfx/mod.rs, fb_info.rs and input_queue.rs: the exclusive owner
    of the framebuffer, the persistent back buffer mapped into its space, and
    the bounded queue of raw input events. *)
From S2P Require Import Prelude Phys FrameAllocator FrameRefcount Paging AddressSpace Signal.
From S2P Require Import ProcessTable Ipc Queue.
Local Open Scope Z_scope.

(** ** Input events *)

Record InputEventAbi := mkEvent {
  ev_kind : Z; ev_pad0 : Z; timestamp_ms : Z; scancode : Z; keysym : Z; mods : Z; ev_pad1 : Z;
  mouse_x : Z; mouse_y : Z; mouse_dx : Z; mouse_dy : Z; mouse_buttons : Z; wheel : Z
}.

(** The 56 bytes of the [repr(C)] struct. *)
Definition event_bytes (e : InputEventAbi) : list Z :=
  le_bytes 4 (ev_kind e) ++ le_bytes 4 (ev_pad0 e) ++ le_bytes 8 (timestamp_ms e) ++
  le_bytes 4 (scancode e) ++ le_bytes 4 (keysym e) ++ le_bytes 4 (mods e) ++ le_bytes 4 (ev_pad1 e) ++
  le_bytes 4 (mouse_x e) ++ le_bytes 4 (mouse_y e) ++ le_bytes 4 (mouse_dx e) ++
  le_bytes 4 (mouse_dy e) ++ le_bytes 4 (mouse_buttons e) ++ le_bytes 4 (wheel e).
Definition EVENT_SIZE : Z := 56.

Definition QUEUE_CAP : Z := 256.

(** ** State *)

Record FbInfoAbi := mkFbInfo {
  buffer_ptr : Z; buffer_len : Z; fi_width : Z; fi_height : Z; fi_pitch : Z; fi_format : Z;
  fi_caps : Z; fi_reserved : Z
}.
Definition info_bytes (i : FbInfoAbi) : list Z :=
  le_bytes 8 (buffer_ptr i) ++ le_bytes 8 (buffer_len i) ++ le_bytes 4 (fi_width i) ++
  le_bytes 4 (fi_height i) ++ le_bytes 4 (fi_pitch i) ++ le_bytes 4 (fi_format i) ++
  le_bytes 4 (fi_caps i) ++ le_bytes 4 (fi_reserved i).

Definition PIXEL_FORMAT_BGRA8888 : Z := 0.
Definition CAP_DOUBLE_BUF : Z := Z.shiftl 1 3.
Definition FB_USER_VA : Z := 0x0000500000000000.

(** [fb_dims]: width, height and pitch of the driver's framebuffer, if there
    is one. *)
Record gfx `{ArrayQueue InputEventAbi} := mkGfx {
  fb_owner : Z;
  fb_backbuf_frames : list Z;
  fb_backbuf_va : Z;
  fb_backbuf_len : Z;
  in_queue : aq InputEventAbi;
  fb_dims : option (Z * Z * Z)
}.

Section gfx.
Context `{ArrayQueue InputEventAbi} `{X86Paging} `{UserMem}.

Definition gfx_new (dims : option (Z * Z * Z)) : gfx := mkGfx _ 0 [] 0 0 (aq_new QUEUE_CAP) dims.

Definition set_owner (p : Z) (g : gfx) : gfx :=
  mkGfx _ p (fb_backbuf_frames g) (fb_backbuf_va g) (fb_backbuf_len g) (in_queue g) (fb_dims g).
Definition set_frames (l : list Z) (g : gfx) : gfx :=
  mkGfx _ (fb_owner g) l (fb_backbuf_va g) (fb_backbuf_len g) (in_queue g) (fb_dims g).
Definition set_fb_va (v : Z) (g : gfx) : gfx :=
  mkGfx _ (fb_owner g) (fb_backbuf_frames g) v (fb_backbuf_len g) (in_queue g) (fb_dims g).
Definition set_fb_len (n : Z) (g : gfx) : gfx :=
  mkGfx _ (fb_owner g) (fb_backbuf_frames g) (fb_backbuf_va g) n (in_queue g) (fb_dims g).
Definition set_queue (q : aq InputEventAbi) (g : gfx) : gfx :=
  mkGfx _ (fb_owner g) (fb_backbuf_frames g) (fb_backbuf_va g) (fb_backbuf_len g) q (fb_dims g).

(** ** The event queue *)

Definition push_event (evt : InputEventAbi) (q : aq InputEventAbi) : aq InputEventAbi :=
  match aq_push evt q with
  | (q, Ok _) => q
  | (q, Err _) => let '(q, _) := aq_pop q in (aq_push evt q).1
  end.

Definition pop_event (q : aq InputEventAbi) : aq InputEventAbi * option InputEventAbi := aq_pop q.

(** ** Handlers, on the memory and process state and the gfx statics *)

Abbreviation gst := (istate * gfx)%type.
Abbreviation G := (M gst Z).

Definition on_gfx {E} (f : gfx -> gfx) : M gst E unit := modify (fun s => (s.1, f s.2)).
Definition on_i {A} (c : I A) : G A := zoom fst (fun i s => (i, s.2)) c.

(** The lazy allocation of the back buffer: [n] frames pushed one by one. *)
Fixpoint backbuf_alloc (n : nat) : G unit :=
  match n with
  | O => mok tt
  | S n' =>
      r ← on_i (on_mem alloc_zeroed_frame);
      match r with
      | Ok pf => _ ← on_gfx (fun g => set_frames (fb_backbuf_frames g ++ [pf]) g); backbuf_alloc n'
      | Err _ =>
          s ← mget;
          _ ← on_i (mfor (fb_backbuf_frames s.2) free_pa);
          _ ← on_gfx (set_frames []);
          _ ← on_gfx (set_owner 0);
          mfail U64_MAX
      end
  end.

Definition fb_map_page (flags : Z) (ipa : nat * Z) : G unit :=
  let '(i, pa) := ipa in
  va ← mlift (o ← Z.of_nat i *! 4096 @ 64; FB_USER_VA +! o @ 64);
  page ← mlift (v ← virt_new va; Ret (containing v));
  o ← mlift (frame_from_start pa);
  match o with
  | None => _ ← on_gfx (set_owner 0); mfail U64_MAX
  | Some frame => _ ← on_i (on_current (as_map_to page frame flags)); mok tt
  end.

(** [to_user p bytes]: [dst.copy_from_slice(bytes)] for a checked slice. *)
Definition to_user (p : Z) (l : list Z) : G unit :=
  s ← mget;
  k ← mlift (uwrite (i_mem s.1) p l);
  modify (fun s => (set_i_mem k s.1, s.2)).

Definition sys_fb_acquire (out_ptr : Z) : gst -> outcome (gst * Z) := fn_ret (
  s ← mget;
  let caller := current_pid (i_table s.1) in
  let prev := fb_owner s.2 in
  if negb (prev =? 0) && negb (prev =? caller) then mfail U64_MAX else
  _ ← on_gfx (set_owner caller);
  match fb_dims s.2 with
  | None => mfail U64_MAX
  | Some (width, height, pitch) =>
      buffer_len ← mlift (pitch *! height @ 64);
      pages ← mlift (x ← buffer_len +! 4095 @ 64; Ret (x / 4096));
      _ ← (if bool_decide (fb_backbuf_frames s.2 = []) then
             _ ← backbuf_alloc (Z.to_nat pages);
             on_gfx (set_fb_len buffer_len)
           else mok tt);
      s ← mget;
      let frames_copy := fb_backbuf_frames s.2 in
      match table_current (i_table s.1) with
      | None => _ ← on_gfx (set_owner 0); mfail U64_MAX
      | Some _ =>
          let flags := Z.lor (Z.lor PRESENT WRITABLE) USER_ACCESSIBLE in
          _ ← mfor (imap pair frames_copy) (fb_map_page flags);
          _ ← on_gfx (set_fb_va FB_USER_VA);
          let info := mkFbInfo FB_USER_VA buffer_len width height pitch PIXEL_FORMAT_BGRA8888
                        CAP_DOUBLE_BUF 0 in
          match user_slice_mut out_ptr 40 with
          | None => mfail U64_MAX
          | Some (p, _) => _ ← to_user p (info_bytes info); mok 0
          end
      end
  end).

(** The drain loop; at most [n] more events. *)
Fixpoint poll_loop (n : nat) (p written : Z) : G Z :=
  match n with
  | O => mok written
  | S n' =>
      s ← mget;
      let '(q, evt) := pop_event (in_queue s.2) in
      _ ← on_gfx (set_queue q);
      match evt with
      | None => mok written
      | Some evt =>
          _ ← to_user (p + written * EVENT_SIZE) (event_bytes evt);
          poll_loop n' p (written + 1)
      end
  end.

Definition sys_input_poll (buf_ptr max : Z) : gst -> outcome (gst * Z) := fn_ret (
  s ← mget;
  let caller := current_pid (i_table s.1) in
  if negb (fb_owner s.2 =? caller) then mfail U64_MAX else
  match checked_mul 64 max EVENT_SIZE with
  | None => mfail U64_MAX
  | Some total =>
      match user_slice_mut buf_ptr total with
      | None => mfail U64_MAX
      | Some (p, _) => poll_loop (Z.to_nat max) p 0
      end
  end).

Definition release_if_owner (p : Z) (g : gfx) : gfx :=
  if fb_owner g =? p then set_fb_va 0 (set_owner 0 g) else g.

End gfx.
