(* ===== verification/GfxCorrect.v ===== *)
(** * Correctness of framebuffer ownership and the input queue *)
From S2P Require Import Prelude Phys FrameAllocator FrameRefcount Paging AddressSpace Signal.
From S2P Require Import ProcessTable Ipc IpcCorrect Queue Gfx PagingModel.
Local Open Scope Z_scope.

Section queue.
Context `{ArrayQueueLaws InputEventAbi}.

Lemma push_event_items e q :
  0 < aq_capacity q -> aq_ok q ->
  aq_capacity (push_event e q) = aq_capacity q /\
  aq_items (push_event e q) =
    if bool_decide (lenZ (aq_items q) < aq_capacity q) then aq_items q ++ [e]
    else tail (aq_items q) ++ [e].
Proof.
  unfold aq_ok. intros Hcap Hok. unfold push_event.
  destruct (aq_push_items e q) as (q1 & r1 & -> & Hc1 & Hi1). case_bool_decide as Hfull.
  { by destruct Hi1 as [Hi1 ->]. }
  destruct Hi1 as [Hi1 ->]. destruct (aq_pop_items q1) as (q2 & r2 & -> & Hc2 & Hi2).
  rewrite Hi1 in Hi2. destruct (aq_items q) as [|x l] eqn:Eq; [rewrite lenZ_nil in Hfull; lia|].
  destruct Hi2 as [Hi2 _]. destruct (aq_push_items e q2) as (q3 & r3 & -> & Hc3 & Hi3). simpl.
  rewrite lenZ_cons in Hok. rewrite bool_decide_eq_true_2 in Hi3 by (rewrite Hi2, Hc2, Hc1; lia).
  destruct Hi3 as [-> _]. rewrite Hi2. split; [congruence|done].
Qed.

(** Property.  The input queue keeps the newest 256 events in order: after any
    sequence of events it holds exactly the last 256 of them, the older ones
    dropped. *)
Theorem input_queue_newest evs :
  aq_items (foldl (fun q e => push_event e q) (aq_new QUEUE_CAP) evs) =
  drop (length evs - 256) evs.
Proof.
  enough (Hc : aq_capacity (foldl (fun q e => push_event e q) (aq_new QUEUE_CAP) evs) = QUEUE_CAP /\
          aq_items (foldl (fun q e => push_event e q) (aq_new QUEUE_CAP) evs) =
          drop (length evs - 256) evs) by apply Hc.
  induction evs as [|e evs [IHc IHi]] using rev_ind.
  { simpl. destruct (aq_new_items QUEUE_CAP) as [-> ->]; done. }
  rewrite foldl_snoc. set (q := foldl _ _ evs) in *.
  assert (Hlen : lenZ (aq_items q) = Z.min (lenZ evs) 256).
  { rewrite IHi. unfold lenZ. rewrite length_drop. lia. }
  destruct (push_event_items e q) as [Hc Hi]; [rewrite IHc; done|unfold aq_ok; rewrite IHc, Hlen; unfold QUEUE_CAP; lia|].
  split; [congruence|]. rewrite Hi, IHc, Hlen, IHi, length_app. unfold QUEUE_CAP, lenZ in *. simpl.
  clear Hi. rewrite drop_app_le by lia. case_bool_decide as Hd; f_equal.
  - replace (length evs - 256)%nat with O by lia.
    by replace (length evs + 1 - 256)%nat with O by lia.
  - replace (length evs + 1 - 256)%nat with (length evs - 256 + 1)%nat by lia.
    by rewrite <- drop_drop; destruct (drop _ evs).
Qed.

End queue.

Lemma input_queue_newest_witness :
  aq_items (H := list_queue _) (foldl (fun q e => push_event e q) (aq_new QUEUE_CAP)
    ((fun t => mkEvent 1 0 t 30 0 0 0 0 0 0 0 0 0) <$> seqZ 0 300)) =
  (fun t => mkEvent 1 0 t 30 0 0 0 0 0 0 0 0 0) <$> seqZ 44 256.
Proof. rewrite input_queue_newest. vm_compute. reflexivity. Defined.

Section exclusive.
Context `{ArrayQueue InputEventAbi} `{X86Paging} `{UserMem}.

Lemma wp_on_gfx {E} f Q (s : istate * gfx) :
  Q (s.1, f s.2) (Ok tt) -> wp (on_gfx f : M (istate * gfx) E unit) Q s.
Proof. intros HQ. by apply wp_modify. Qed.
Lemma wp_on_i {A} (c : M istate Z A) Q (s : istate * gfx) :
  wp c (fun i r => Q (i, s.2) r) s.1 -> wp (on_i c) Q s.
Proof. exact (wp_zoom fst (fun i (t : istate * gfx) => (i, t.2)) c Q s). Qed.
Ltac wp_extra ::= lazymatch goal with
  | |- wp (on_ipc _) _ _ => apply wp_on_ipc
  | |- wp (on_gfx _) _ _ => apply wp_on_gfx
  | |- wp (on_i _) _ _ => apply wp_on_i
  end.

Lemma on_mem_ok {A} (c : K A) s :
  wp (on_mem c) (fun s' r => i_table s' = i_table s /\ is_ok r = true) s.
Proof. unfold on_mem. wp_step. wp_step. by intros k r _. Qed.

(** A failed allocation gives the framebuffer up; a successful one keeps the
    owner. *)
Lemma backbuf_alloc_owner n s :
  wp (backbuf_alloc n) (fun s' r => match r with
    | Ok _ => fb_owner s'.2 = fb_owner s.2 | Err v => v = U64_MAX end) s.
Proof.
  revert s. induction n as [|n IH]; intros s; [by apply wp_mok|]. simpl.
  wp_step. wp_step. eapply wp_mono; [apply on_mem_ok|].
  intros i1 [[pf|e]|e] [_ E1]; [| |done].
  - wp_step. wp_step. eapply wp_mono; [apply IH|]. by intros s2 [?|?].
  - wp_step. wp_step. wp_step. wp_step. eapply wp_mono.
    { apply (keeps_mfor _ _ keeps_free_pa). }
    intros i2 [?|?] [_ ?]; [|done]. wp_steps. done.
Qed.
Lemma fb_map_page_owner flags ipa s :
  wp (fb_map_page flags ipa) (fun s' r => match r with
    | Ok _ => fb_owner s'.2 = fb_owner s.2 | Err v => v = U64_MAX end) s.
Proof.
  unfold fb_map_page. destruct ipa as [i pa]. do 7 wp_step; [|by wp_steps].
  wp_step. wp_step. eapply wp_mono; [apply keeps_on_current|].
  intros i1 [?|?] [_ ?]; [by wp_step|done].
Qed.

Lemma to_user_owner p l s :
  wp (to_user p l) (fun s' r => match r with
    | Ok _ => fb_owner s'.2 = fb_owner s.2 | Err v => v = U64_MAX end) s.
Proof. unfold to_user. by wp_steps. Qed.

(** A successful acquire leaves the caller the owner. *)
Lemma acquire_owner p s s' :
  sys_fb_acquire p s = Ret (s', 0) -> fb_owner s'.2 = current_pid (i_table s.1).
Proof.
  intros E. set (caller := current_pid _).
  refine (wp_fn_ret _ (fun s' v => v = 0 -> fb_owner s'.2 = caller) s s' 0 _ E eq_refl).
  wp_step. wp_step. wp_step; [by wp_step|]. wp_step. wp_step. wp_step; [|by wp_step].
  do 7 wp_step. eapply (wp_mono _ (fun s1 r => match r with
    | Ok _ => fb_owner s1.2 = caller | Err v => v = U64_MAX end)).
  { wp_step; [|by wp_step]. wp_step. eapply wp_mono; [apply backbuf_alloc_owner|].
    intros s1 [?|?] ?; [by wp_step|done]. }
  intros s1 [?| ?] E1; [|by intros ->]. wp_step. wp_step. wp_step; [|by wp_steps]. wp_step.
  eapply wp_mono.
  { apply (wp_mfor (fun s2 => fb_owner s2.2 = caller) (fun _ v => v = U64_MAX)); [done|].
    intros x s2 _ E2. eapply wp_mono; [apply fb_map_page_owner|].
    intros s3 [?|?] E3; simpl in *; congruence. }
  intros s2 [?|?] E2; [|by intros ->]. wp_step. wp_step. wp_step; [|by wp_step]. wp_step. wp_step.
  eapply wp_mono; [apply to_user_owner|]. intros s3 [?|?] E3; [|by intros ->]. wp_step.
  intros _. simpl in *. congruence.
Qed.

(** Property.  The framebuffer has one owner.  While a process holds it, the
    acquire, the event poll and the exit hook of any other process fail or do
    nothing and change no state; an acquire that succeeds makes the caller
    the owner, and the owner's exit hook frees it. *)
Theorem fb_exclusive (s : istate * gfx) :
  let caller := current_pid (i_table s.1) in
  (fb_owner s.2 <> 0 -> fb_owner s.2 <> caller ->
    (forall p, sys_fb_acquire p s = Ret (s, U64_MAX)) /\
    (forall p max, sys_input_poll p max s = Ret (s, U64_MAX)) /\
    release_if_owner caller s.2 = s.2) /\
  (forall p s', sys_fb_acquire p s = Ret (s', 0) -> fb_owner s'.2 = caller) /\
  fb_owner (release_if_owner (fb_owner s.2) s.2) = 0.
Proof.
  intros caller. split_and!.
  - intros H0' Hc. apply Z.eqb_neq in H0', Hc. unfold caller in Hc. split_and!.
    + intros p. unfold sys_fb_acquire, fn_ret, mbind, M_bind, mbindM, mget. cbv beta iota zeta.
      by rewrite H0', Hc.
    + intros p max. unfold sys_input_poll, fn_ret, mbind, M_bind, mbindM, mget. cbv beta iota zeta.
      by rewrite Hc.
    + unfold release_if_owner, caller. by rewrite Hc.
  - intros p s'. apply acquire_owner.
  - unfold release_if_owner. by rewrite Z.eqb_refl.
Qed.

End exclusive.

Lemma fb_exclusive_witness :
  sys_fb_acquire (H := list_queue _) 0x5000 (ipc0, set_owner 9 (gfx_new None)) =
  Ret ((ipc0, set_owner 9 (gfx_new None)), U64_MAX).
Proof.
  apply (fb_exclusive (H := list_queue _) (ipc0, set_owner 9 (gfx_new None))); done.
Defined.

