(* ===== verification/Executor.v ===== *)
(** * The async executor

    kernel/src/task/executor.rs and the [Task] of task/mod.rs.  Futures are
    opaque values with a [poll] function; while it runs, a future may wake
    tasks, spawn new ones and change the rest of the kernel ([W]), which is
    what [xeffect] says. *)
From S2P Require Import Prelude Queue.
Local Open Scope Z_scope.

(** The queue of task ids to poll, shared with the wakers. *)
Record execq `{ArrayQueue Z} := mkQ { task_queue : aq Z; queued_tasks : gset Z }.

Section queue.
Context `{ArrayQueue Z}.

Definition queue_task (id : Z) (q : execq) : execq * result unit Z :=
  if bool_decide (id ∈ queued_tasks q) then (q, Ok tt) else
  let queued := {[id]} ∪ queued_tasks q in
  match aq_push id (task_queue q) with
  | (tq, Ok _) => (mkQ _ tq queued, Ok tt)
  | (tq, Err _) => (mkQ _ tq (queued ∖ {[id]}), Err id)
  end.

(** [TaskWaker::wake_task] *)
Definition wake_task (id : Z) (q : execq) : execq := (queue_task id q).1.

Definition execq_new : execq := mkQ _ (aq_new 256) ∅.

End queue.

(** What the executor shares with the running futures. *)
Record xshared `{ArrayQueue Z} (Fut W : Type) := mkX {
  xq : execq;
  spawn_queue : option (list (Z * Fut));
  next_task_id : Z;
  task_count : Z;
  xworld : W
}.
#[global] Arguments mkX {_ _ _}.
#[global] Arguments xq {_ _ _}.
#[global] Arguments spawn_queue {_ _ _}.
#[global] Arguments next_task_id {_ _ _}.
#[global] Arguments task_count {_ _ _}.
#[global] Arguments xworld {_ _ _}.

Record Executor `{ArrayQueue Z} (Fut W : Type) := mkExec {
  tasks : gmap Z Fut;
  waker_cache : gset Z;
  xsh : xshared Fut W
}.
#[global] Arguments mkExec {_ _ _}.
#[global] Arguments tasks {_ _ _}.
#[global] Arguments waker_cache {_ _ _}.
#[global] Arguments xsh {_ _ _}.

Section executor.
Context `{ArrayQueue Z} {Fut W : Type}.

(** [poll id f s]: one poll of a future with the waker of [id]: the new state,
    the future and whether it is ready. *)
Context (poll : Z -> Fut -> xshared Fut W -> outcome (xshared Fut W * (Fut * bool))).

Definition set_xq (q : execq) (s : xshared Fut W) : xshared Fut W :=
  mkX q (spawn_queue s) (next_task_id s) (task_count s) (xworld s).
Definition set_spawn (l : option (list (Z * Fut))) (s : xshared Fut W) : xshared Fut W :=
  mkX (xq s) l (next_task_id s) (task_count s) (xworld s).
Definition set_count (n : Z) (s : xshared Fut W) : xshared Fut W :=
  mkX (xq s) (spawn_queue s) (next_task_id s) n (xworld s).

(** [Task::new] and the global [spawn]. *)
Definition task_new (f : Fut) (s : xshared Fut W) : xshared Fut W * (Z * Fut) :=
  (mkX (xq s) (spawn_queue s) (wrap 64 (next_task_id s + 1)) (task_count s) (xworld s),
   (next_task_id s, f)).
Definition spawn (f : Fut) (s : xshared Fut W) : xshared Fut W :=
  let '(s, task) := task_new f s in
  match spawn_queue s with
  | Some q => set_spawn (Some (q ++ [task])) s
  | None => s
  end.

Definition executor_new (w : W) : Executor Fut W :=
  mkExec ∅ ∅ (mkX execq_new (Some []) 0 0 w).

(** [Executor::spawn] *)
Definition exec_spawn (task : Z * Fut) (e : Executor Fut W) : outcome (Executor Fut W) :=
  let '(id, f) := task in
  match tasks e !! id with
  | Some _ => Panic
  | None =>
      let s := set_count (wrap 64 (task_count (xsh e) + 1)) (xsh e) in
      match queue_task id (xq s) with
      | (q, Ok _) => Ret (mkExec (<[id := f]> (tasks e)) (waker_cache e) (set_xq q s))
      | (_, Err _) => Panic
      end
  end.

(** The tasks of the spawn queue enter one by one; a queue that is full is
    not reported. *)
Definition drain_one (e : Executor Fut W) (task : Z * Fut) : Executor Fut W :=
  let '(id, f) := task in
  let fresh := bool_decide (tasks e !! id = None) in
  let e := mkExec (<[id := f]> (tasks e)) (waker_cache e) (xsh e) in
  if fresh then
    let s := set_count (wrap 64 (task_count (xsh e) + 1)) (xsh e) in
    mkExec (tasks e) (waker_cache e) (set_xq (queue_task id (xq s)).1 s)
  else e.
Definition drain_spawn_queue (e : Executor Fut W) : Executor Fut W :=
  match spawn_queue (xsh e) with
  | Some q =>
      let e := foldl drain_one e q in
      mkExec (tasks e) (waker_cache e) (set_spawn (Some []) (xsh e))
  | None => e
  end.

(** One round of the loop of [run_ready_tasks]: nothing was queued, or the
    task whose turn it was, [Some (id, polled)]. *)
Definition run_one (e : Executor Fut W) : outcome (Executor Fut W * option (Z * bool)) :=
  let s := xsh e in
  match aq_pop (task_queue (xq s)) with
  | (_, None) => Ret (e, None)
  | (tq, Some id) =>
      let s := set_xq (mkQ _ tq (queued_tasks (xq s) ∖ {[id]})) s in
      match tasks e !! id with
      | None => Ret (mkExec (tasks e) (waker_cache e) s, Some (id, false))
      | Some f =>
          let cache := {[id]} ∪ waker_cache e in
          '(s, (f, ready)) ← poll id f s;
          if ready : bool then
            Ret (mkExec (delete id (tasks e)) (cache ∖ {[id]})
                   (set_count (wrap 64 (task_count s - 1)) s), Some (id, true))
          else Ret (mkExec (<[id := f]> (tasks e)) cache s, Some (id, true))
      end
  end.

(** The loop, with the ids polled in order; [None] when the fuel ran out. *)
Fixpoint run_ready_tasks (fuel : nat) (e : Executor Fut W)
  : outcome (option (Executor Fut W * list Z)) :=
  match fuel with
  | O => Ret None
  | S fuel' =>
      '(e, r) ← run_one e;
      match r with
      | None => Ret (Some (e, []))
      | Some (id, polled) =>
          r ← run_ready_tasks fuel' e;
          Ret (match r with
               | Some (e, l) => Some (e, if polled : bool then id :: l else l)
               | None => None
               end)
      end
  end.

(** ** What a running future may do to the executor *)

Inductive xeffect : xshared Fut W -> xshared Fut W -> Prop :=
  | effect_wake s id : xeffect s (set_xq (wake_task id (xq s)) s)
  | effect_spawn s f : xeffect s (spawn f s)
  | effect_world s w : xeffect s (mkX (xq s) (spawn_queue s) (next_task_id s) (task_count s) w).

End executor.

(** ** The queue and its set *)

Section correct.
Context `{ArrayQueueLaws Z} {Fut W : Type}.

(** The set mirrors the queue, no id is queued twice, and the queue is
    within its 256 slots. *)
Record execq_ok (q : execq) : Prop := mkQok {
  q_set : queued_tasks q = list_to_set (aq_items (task_queue q));
  q_nodup : NoDup (aq_items (task_queue q));
  q_cap : aq_capacity (task_queue q) = 256;
  q_len : lenZ (aq_items (task_queue q)) <= 256
}.

Lemma execq_ok_new : execq_ok execq_new.
Proof.
  destruct (aq_new_items 256) as [Hi Hc]; [done|].
  constructor; simpl; rewrite ?Hi, ?Hc; [set_solver|constructor|done|done].
Qed.

(** A wake-up puts the task in the queue unless it is there or there is no
    room, and changes nothing else. *)
Lemma queue_task_spec id q :
  execq_ok q ->
  execq_ok (queue_task id q).1 /\
  if bool_decide (id ∈ aq_items (task_queue q)) then queue_task id q = (q, Ok tt)
  else if bool_decide (lenZ (aq_items (task_queue q)) < 256)
  then (queue_task id q).2 = Ok tt /\
       aq_items (task_queue (queue_task id q).1) = aq_items (task_queue q) ++ [id]
  else (queue_task id q).2 = Err id /\
       aq_items (task_queue (queue_task id q).1) = aq_items (task_queue q).
Proof.
  intros [Hs Hnd Hc Hl]. unfold queue_task.
  destruct (bool_decide (id ∈ aq_items (task_queue q))) eqn:Ein.
  { apply bool_decide_eq_true_1 in Ein. rewrite bool_decide_eq_true_2 by (rewrite Hs; set_solver).
    done. }
  apply bool_decide_eq_false_1 in Ein. rewrite (bool_decide_eq_false_2 (id ∈ queued_tasks q))
    by (rewrite Hs; set_solver).
  destruct (aq_push_items id (task_queue q)) as (tq & r & -> & Hc' & Hi). rewrite Hc in Hi.
  case_bool_decide as Hroom; destruct Hi as [Hi ->]; simpl; (split; [|done]).
  - constructor; simpl; rewrite ?Hi, ?Hc'; [rewrite Hs, list_to_set_app_L; set_solver| |done|].
    + apply NoDup_app. split_and!; [done| |apply NoDup_singleton]. intros x Hx ->%list_elem_of_singleton. done.
    + rewrite lenZ_app. change (lenZ [id]) with 1. lia.
  - constructor; simpl; rewrite ?Hi, ?Hc'; [|done|done|done].
    rewrite Hs. set_solver.
Qed.

Lemma wake_task_ok id q : execq_ok q -> execq_ok (wake_task id q).
Proof. intros Hq. by apply queue_task_spec. Qed.

Lemma xeffect_ok (s s' : xshared Fut W) : xeffect s s' -> execq_ok (xq s) -> execq_ok (xq s').
Proof.
  destruct 1 as [s id|s f|s w]; simpl; intros Hok; [by apply wake_task_ok| |done].
  unfold spawn. simpl. by destruct (spawn_queue s).
Qed.

(** Popping keeps the mirror. *)
Lemma pop_ok q tq id :
  execq_ok q -> aq_pop (task_queue q) = (tq, Some id) ->
  exists l, aq_items (task_queue q) = id :: l /\ aq_items tq = l /\
    execq_ok (mkQ _ tq (queued_tasks q ∖ {[id]})).
Proof.
  intros [Hs Hnd Hc Hl] Hp. destruct (aq_pop_items (task_queue q)) as (q' & r & E & Hc' & Hi).
  rewrite Hp in E. injection E as <- <-. destruct (aq_items (task_queue q)) as [|x l]; [by destruct Hi|].
  destruct Hi as [Hi [= <-]]. exists l. split_and!; [done|done|].
  apply NoDup_cons in Hnd as [Hx Hnd]. rewrite lenZ_cons in Hl.
  constructor; simpl; rewrite ?Hi, ?Hc'; [|done|done|lia]. rewrite Hs. simpl.
  assert (id ∉ (list_to_set l : gset Z)) by set_solver. set_solver.
Qed.

Lemma pop_none q tq :
  aq_pop (task_queue q) = (tq, None) -> aq_items (task_queue q) = [].
Proof.
  intros Hp. destruct (aq_pop_items (task_queue q)) as (q' & r & E & _ & Hi).
  rewrite Hp in E. injection E as <- <-. by destruct (aq_items (task_queue q)) as [|x l]; [|destruct Hi].
Qed.

Section run.
Context (poll : Z -> Fut -> xshared Fut W -> outcome (xshared Fut W * (Fut * bool))).

(** A future reaches the executor only through its wakers and [spawn]. *)
Hypothesis poll_effect : forall id f s s' r, poll id f s = Ret (s', r) -> rtc xeffect s s'.

Lemma poll_ok id f s s' r :
  poll id f s = Ret (s', r) -> execq_ok (xq s) -> execq_ok (xq s').
Proof.
  intros Hp. apply poll_effect in Hp. induction Hp as [|s1 s2 s3 Hx _ IH]; [done|].
  intros Hok. by eapply IH, xeffect_ok.
Qed.

(** A queued task stays queued while other futures run. *)
Lemma xeffect_keeps (s s' : xshared Fut W) id :
  rtc xeffect s s' -> execq_ok (xq s) ->
  id ∈ aq_items (task_queue (xq s)) -> id ∈ aq_items (task_queue (xq s')).
Proof.
  induction 1 as [|s1 s2 s3 Hx _ IH]; [done|]. intros Hok Hin.
  apply IH; [by eapply xeffect_ok|]. destruct Hx as [s i|s f|s w]; simpl in *; [| |done].
  - unfold wake_task. destruct (queue_task_spec i (xq s) Hok) as [_ Hq].
    case_bool_decide; [by rewrite Hq|]. case_bool_decide; destruct Hq as [_ ->]; set_solver.
  - unfold spawn. simpl. by destruct (spawn_queue s).
Qed.

Lemma run_one_spec (e e' : Executor Fut W) r :
  execq_ok (xq (xsh e)) -> run_one poll e = Ret (e', r) ->
  execq_ok (xq (xsh e')) /\
  match r with
  | None => e' = e /\ aq_items (task_queue (xq (xsh e))) = []
  | Some (id, polled) => exists l,
      aq_items (task_queue (xq (xsh e))) = id :: l /\
      (forall i, i ∈ l -> i ∈ aq_items (task_queue (xq (xsh e')))) /\
      (polled = false <-> tasks e !! id = None) /\
      (forall i, i <> id -> tasks e' !! i = tasks e !! i)
  end.
Proof.
  intros Hok. unfold run_one. destruct (aq_pop (task_queue (xq (xsh e)))) as [tq [id|]] eqn:Ep.
  2:{ intros [= <- <-]. split; [done|]. split; [done|]. by eapply pop_none. }
  destruct (pop_ok _ _ _ Hok Ep) as (l & Hl & Hl' & Hok').
  destruct (tasks e !! id) as [f|] eqn:Ef.
  2:{ intros [= <- <-]. simpl. split; [done|]. exists l. rewrite Hl'. split_and!; done. }
  destruct (poll _ _ _) as [[s [f' ready]]|] eqn:Epoll; [|done]. simpl.
  assert (Hs : execq_ok (xq s)) by (by eapply poll_ok).
  assert (Hkeep : forall i, i ∈ l -> i ∈ aq_items (task_queue (xq s))).
  { intros i Hi. eapply xeffect_keeps; [by eapply poll_effect|done|]. simpl. by rewrite Hl'. }
  destruct ready; intros [= <- <-]; simpl; (split; [done|]); exists l; split_and!; try done.
  1,3: by rewrite Ef.
  - intros i Hi. by rewrite lookup_delete_ne.
  - intros i Hi. by rewrite lookup_insert_ne.
Qed.

(** The invariant is kept by the executor's loop and by spawning. *)
Lemma run_ready_ok fuel (e e' : Executor Fut W) l :
  execq_ok (xq (xsh e)) -> run_ready_tasks poll fuel e = Ret (Some (e', l)) ->
  execq_ok (xq (xsh e')) /\ aq_items (task_queue (xq (xsh e'))) = [] /\
  (forall id, id ∈ aq_items (task_queue (xq (xsh e))) -> is_Some (tasks e !! id) -> id ∈ l).
Proof.
  revert e e' l. induction fuel as [|fuel IH]; intros e e' l Hok; [done|]. simpl.
  destruct (run_one poll e) as [[e1 r]|] eqn:E1; [|done]. simpl.
  destruct (run_one_spec _ _ _ Hok E1) as [Hok1 Hr]. destruct r as [[id polled]|].
  2:{ intros [= <- <-]. destruct Hr as [-> Hnil]. split_and!; [done|done|]. rewrite Hnil.
      intros i Hi. by apply not_elem_of_nil in Hi. }
  destruct Hr as (q & Hq & Hkeep & Hpolled & Hsame).
  destruct (run_ready_tasks poll fuel e1) as [[[e2 l2]|]|] eqn:E2; [|done|done].
  simpl. intros [= <- <-]. destruct (IH _ _ _ Hok1 E2) as (Hok2 & Hempty & Hall).
  split_and!; [done|done|]. intros i Hi Hti. rewrite Hq in Hi.
  destruct (decide (i = id)) as [->|Hne].
  - destruct polled; [by left|]. destruct Hpolled as [Hp _]. rewrite Hp in Hti by done.
    by destruct Hti.
  - apply elem_of_cons in Hi as [?|Hi]; [done|]. assert (i ∈ l2).
    { apply Hall; [by apply Hkeep|by rewrite Hsame]. }
    destruct polled; [by right|done].
Qed.

(** No future wakes another task. *)
Definition quiet : Prop :=
  forall id f s, exists s' r, poll id f s = Ret (s', r) /\ xq s' = xq s.

Lemma run_one_quiet (e : Executor Fut W) :
  quiet -> execq_ok (xq (xsh e)) -> exists e1 r1, run_one poll e = Ret (e1, r1) /\
    forall id polled, r1 = Some (id, polled) ->
    length (aq_items (task_queue (xq (xsh e)))) = S (length (aq_items (task_queue (xq (xsh e1))))).
Proof.
  intros Hquiet Hok. unfold run_one.
  destruct (aq_pop (task_queue (xq (xsh e)))) as [tq [id|]] eqn:Ep; [|by eexists _, _].
  destruct (pop_ok _ _ _ Hok Ep) as (l & Hl & Hl' & _). rewrite Hl.
  destruct (tasks e !! id) as [f|]; [|eexists _, _; split; [done|]; simpl; by rewrite Hl'].
  destruct (Hquiet id f (set_xq (mkQ _ tq (queued_tasks (xq (xsh e)) ∖ {[id]})) (xsh e)))
    as (s' & [f' ready] & Hp & Hq). rewrite Hp. simpl.
  destruct ready; (eexists _, _; split; [done|]; simpl; rewrite Hq; simpl; by rewrite Hl').
Qed.

Lemma run_ready_terminates (e : Executor Fut W) :
  quiet -> execq_ok (xq (xsh e)) ->
  exists e' l, run_ready_tasks poll (S (length (aq_items (task_queue (xq (xsh e)))))) e =
    Ret (Some (e', l)).
Proof.
  intros Hquiet. remember (length (aq_items (task_queue (xq (xsh e))))) as n eqn:En.
  revert e En. induction n as [|n IH]; intros e En Hok.
  all: destruct (run_one_quiet e Hquiet Hok) as (e1 & r1 & E1 & Hlen).
  all: destruct (run_one_spec _ _ _ Hok E1) as [Hok1 _].
  all: remember (S n) as m eqn:Em || idtac; cbn [run_ready_tasks]; rewrite E1; simpl.
  all: destruct r1 as [[id polled]|]; [|by eauto].
  - specialize (Hlen _ _ eq_refl). congruence.
  - specialize (Hlen _ _ eq_refl). subst m. assert (n = length (aq_items (task_queue (xq (xsh e1))))) as En1 by congruence.
    destruct (IH e1 En1 Hok1) as (e2 & l2 & ->). simpl. eauto.
Qed.

(** Property.  One pass of the executor over its queue: when it ends the queue is
    empty, the set of queued ids mirrors it, and every live task that had
    been woken was polled, whatever the futures wake, spawn or change while
    they run.  If they wake nothing, the pass ends after one round per queued
    task. *)
Theorem executor_polls_woken (e : Executor Fut W) :
  execq_ok (xq (xsh e)) ->
  (forall fuel e' l, run_ready_tasks poll fuel e = Ret (Some (e', l)) ->
    execq_ok (xq (xsh e')) /\ aq_items (task_queue (xq (xsh e'))) = [] /\
    forall id, id ∈ aq_items (task_queue (xq (xsh e))) -> is_Some (tasks e !! id) -> id ∈ l) /\
  (quiet -> exists e' l, run_ready_tasks poll (S (length (aq_items (task_queue (xq (xsh e)))))) e =
      Ret (Some (e', l))).
Proof.
  intros Hok. split.
  - intros fuel e' l. by apply run_ready_ok.
  - intros Hquiet. by apply run_ready_terminates.
Qed.

End run.

(** Property.  A task spawned while 256 tasks are queued is accepted, counted and
    never queued: [drain_spawn_queue] drops the error of the full queue, so
    nothing polls the task (no waker of it exists yet). *)
Theorem full_queue_loses_task (e : Executor Fut W) id f :
  execq_ok (xq (xsh e)) -> lenZ (aq_items (task_queue (xq (xsh e)))) = 256 ->
  tasks e !! id = None -> id ∉ aq_items (task_queue (xq (xsh e))) ->
  spawn_queue (xsh e) = Some [(id, f)] ->
  let e' := drain_spawn_queue e in
  tasks e' !! id = Some f /\ spawn_queue (xsh e') = Some [] /\
  aq_items (task_queue (xq (xsh e'))) = aq_items (task_queue (xq (xsh e))) /\
  id ∉ aq_items (task_queue (xq (xsh e'))).
Proof.
  intros Hok Hfull Hnew Hnq Hsp. unfold drain_spawn_queue. rewrite Hsp. simpl.
  rewrite bool_decide_eq_true_2 by done. simpl. rewrite lookup_insert_eq.
  destruct (queue_task_spec id (xq (xsh e)) Hok) as [_ Hq].
  rewrite (bool_decide_eq_false_2 (id ∈ _)) in Hq by done.
  rewrite bool_decide_eq_false_2 in Hq by lia. destruct Hq as [_ Hq].
  by rewrite Hq.
Qed.

End correct.

(** ** Witnesses: futures that are ready at once, on a list queue *)

Definition demo_poll (id : Z) (f : unit) (s : xshared unit unit)
  : outcome (xshared unit unit * (unit * bool)) := Ret (s, (f, true)).
Definition demo_exec (n : Z) : Executor unit unit :=
  mkExec (list_to_map ((fun i => (i, tt)) <$> seqZ 0 n)) ∅
    (mkX (mkQ _ ((256, seqZ 0 n) : aq Z) (list_to_set (seqZ 0 n))) (Some [(1000, tt)]) 1001 n tt).

Lemma demo_exec_ok n : n <= 256 -> execq_ok (xq (xsh (demo_exec n))).
Proof.
  intros Hn. constructor; simpl; [done|apply NoDup_seqZ|done|]. unfold lenZ. rewrite length_seqZ. lia.
Qed.

Lemma executor_polls_woken_witness :
  exists e' l, run_ready_tasks demo_poll 4 (demo_exec 3) = Ret (Some (e', l)) /\ 2 ∈ l.
Proof.
  destruct (executor_polls_woken demo_poll ltac:(intros ? ? ? ? ? [= <- <-]; apply rtc_refl)
    (demo_exec 3) (demo_exec_ok 3 ltac:(lia))) as [Hall Hterm].
  destruct Hterm as (e' & l & E); [intros ? ? ?; by eexists _, (_, _)|].
  exists e', l. split; [exact E|]. apply (Hall _ _ _ E); [|by eexists]. change (2 ∈ seqZ 0 3). apply elem_of_seqZ. lia.
Defined.

Lemma full_queue_loses_task_witness :
  1000 ∉ aq_items (task_queue (xq (xsh (drain_spawn_queue (demo_exec 256))))).
Proof.
  apply (full_queue_loses_task (demo_exec 256) 1000 tt).
  - by apply demo_exec_ok.
  - reflexivity.
  - vm_compute. reflexivity.
  - simpl. rewrite elem_of_seqZ. lia.
  - reflexivity.
Defined.
