(* ===== verification/Time.v ===== *)
(** * The clock and the sleep timers

    kernel/src/time/mod.rs and time/sleep.rs.  A timer entry is shared
    between the list and its [Sleep] future ([Arc]): entries live in a store
    and both hold its key.  A waker is the id of its task; waking it queues
    the task in the executor. *)
From S2P Require Import Prelude Queue Executor.
Local Open Scope Z_scope.

Definition TICKS_PER_SEC : Z := 100.
Definition PIT_FREQ : Z := 1193182.

(** What [init] writes to the PIT data port. *)
Definition pit_divisor : Z := wrap 16 (PIT_FREQ / TICKS_PER_SEC).
Definition pit_bytes : list Z := [wrap 8 (Z.land pit_divisor 0xff); wrap 8 (Z.shiftr pit_divisor 8)].

Record TimerEntry := mkEntry { deadline : Z; waker : Z; fired : bool }.

Record clock := mkClock {
  TICKS : Z;
  NOW : Z;
  timers : list Z;
  entries : gmap Z TimerEntry;
  next_entry : Z
}.

Definition clock_new : clock := mkClock 0 0 [] ∅ 0.

Record Sleep := mkSleep { entry : option Z; sl_deadline : Z }.

Section time.
Context `{ArrayQueue Z}.

(** The closure of [retain] on one entry. *)
Definition expire (now : Z) (acc : list Z * gmap Z TimerEntry * execq) (id : Z)
  : list Z * gmap Z TimerEntry * execq :=
  let '(kept, es, q) := acc in
  match es !! id with
  | Some e =>
      if negb (fired e) && bool_decide (deadline e <= now)
      then (kept, <[id := mkEntry (deadline e) (waker e) true]> es, wake_task (waker e) q)
      else (kept ++ [id], es, q)
  | None => (kept ++ [id], es, q)
  end.

(** [busy]: the list is locked by someone else, so this tick is skipped. *)
Definition advance (busy : bool) (c : clock) (q : execq) : outcome (clock * execq) :=
  now ← NOW c +! 1 @ 64;
  let c := mkClock (TICKS c) (wrap 64 (NOW c + 1)) (timers c) (entries c) (next_entry c) in
  if busy then Ret (c, q) else
  let '(kept, es, q) := foldl (expire now) ([], entries c, q) (timers c) in
  Ret (mkClock (TICKS c) (NOW c) kept es (next_entry c), q).

Definition tick (busy : bool) (c : clock) (q : execq) : outcome (clock * execq) :=
  advance busy (mkClock (wrap 64 (TICKS c + 1)) (NOW c) (timers c) (entries c) (next_entry c)) q.

Definition uptime_ms (c : clock) : outcome Z :=
  x ← TICKS c *! 1000 @ 64;
  Ret (x / TICKS_PER_SEC).

Definition saturating_add (a b : Z) : Z := Z.min (a + b) U64_MAX.
Definition saturating_mul (a b : Z) : Z := Z.min (a * b) U64_MAX.

Definition sleep_ms (ms : Z) (c : clock) : Sleep :=
  let ticks := saturating_mul ms TICKS_PER_SEC / 1000 in
  mkSleep None (saturating_add (NOW c) (Z.max ticks 1)).

(** [Sleep::poll] with the waker of task [w]; whether it is ready. *)
Definition sleep_poll (w : Z) (s : Sleep) (c : clock) : clock * Sleep * bool :=
  if bool_decide (sl_deadline s <= NOW c) then (c, s, true) else
  match entry s with
  | None =>
      let id := next_entry c in
      (mkClock (TICKS c) (NOW c) (timers c ++ [id])
         (<[id := mkEntry (sl_deadline s) w false]> (entries c)) (id + 1),
       mkSleep (Some id) (sl_deadline s), false)
  | Some id =>
      (match entries c !! id with
       | Some e => mkClock (TICKS c) (NOW c) (timers c)
                     (<[id := mkEntry (deadline e) w (fired e)]> (entries c)) (next_entry c)
       | None => c
       end, s, false)
  end.

Fixpoint ticks (busy : list bool) (c : clock) (q : execq) : outcome (clock * execq) :=
  match busy with
  | [] => Ret (c, q)
  | b :: bs => '(c, q) ← tick b c q; ticks bs c q
  end.

(** ** Well-formed clocks *)

(** The listed entries are distinct, exist and have not fired. *)
Record clock_ok (c : clock) : Prop := mkClockOk {
  t_nodup : NoDup (timers c);
  t_live : forall id, id ∈ timers c -> exists e, entries c !! id = Some e /\ fired e = false;
  t_fresh : forall id, next_entry c <= id -> entries c !! id = None;
  t_now : fits 64 (NOW c)
}.

Lemma clock_ok_new : clock_ok clock_new.
Proof. constructor; simpl; [constructor| |done|done]. intros id Hid. by apply not_elem_of_nil in Hid. Qed.

End time.

Section correct.
Context `{ArrayQueueLaws Z}.

Abbreviation items q := (aq_items (task_queue q)).

Definition queued_or_full (w : Z) (q : execq) : Prop := (w ∈ items q) \/ lenZ (items q) = 256.

Lemma wake_task_grows w q i :
  execq_ok q -> execq_ok (wake_task w q) /\ queued_or_full w (wake_task w q) /\
  (queued_or_full i q -> queued_or_full i (wake_task w q)).
Proof.
  intros Hq. unfold wake_task, queued_or_full.
  pose proof (q_len _ Hq) as Hlen. destruct (queue_task_spec w q Hq) as [Hok Hs].
  destruct (bool_decide (w ∈ items q)) eqn:Ein.
  { apply bool_decide_eq_true_1 in Ein. rewrite Hs. simpl. auto. }
  case_bool_decide as Hroom; destruct Hs as [_ ->]; split_and!; try done.
  - left. set_solver.
  - intros [?|?]; [left; set_solver|lia].
  - right. lia.
Qed.

(** What a scan of [l] at time [now] did: expired entries are marked, woken
    and out of the list, the others are untouched. *)
Record scanned (now : Z) (l l' : list Z) (es es' : gmap Z TimerEntry) (q' : execq) : Prop := mkScan {
  sc_sub : forall id, id ∈ l' -> id ∈ l;
  sc_nodup : NoDup l';
  sc_ok : execq_ok q';
  sc_other : forall id, id ∉ l -> es' !! id = es !! id;
  sc_keep : forall id e, id ∈ l -> es !! id = Some e -> now < deadline e ->
    id ∈ l' /\ es' !! id = Some e;
  sc_fire : forall id e, id ∈ l -> es !! id = Some e -> deadline e <= now ->
    id ∉ l' /\ es' !! id = Some (mkEntry (deadline e) (waker e) true) /\
    queued_or_full (waker e) q'
}.

Lemma expire_grows now l : forall kept es q i,
  execq_ok q -> queued_or_full i q -> queued_or_full i (foldl (expire now) (kept, es, q) l).2.
Proof.
  induction l as [|id l IH]; intros kept es q i Hq Hi; [done|]. simpl.
  destruct (es !! id) as [e|]; [|by apply IH]. destruct (_ && _); [|by apply IH].
  destruct (wake_task_grows (waker e) q i Hq) as (Hok & _ & Hg). by apply IH, Hg.
Qed.

Lemma expire_all now l : forall kept es q,
  NoDup l -> (forall id, id ∈ l -> exists e, es !! id = Some e /\ fired e = false) ->
  execq_ok q ->
  exists l' es' q', foldl (expire now) (kept, es, q) l = (kept ++ l', es', q') /\
    scanned now l l' es es' q'.
Proof.
  induction l as [|id l IH]; intros kept es q Hnd Hl Hq.
  { exists [], es, q. rewrite app_nil_r. split; [done|].
    constructor; [done|constructor|done|done|intros ? ? Hin; by apply not_elem_of_nil in Hin..]. }
  apply NoDup_cons in Hnd as [Hid Hnd]. destruct (Hl id) as (e & Ee & Ef); [by left|].
  cbn [foldl expire]. rewrite Ee, Ef. simpl. case_bool_decide as Hd.
  - set (e1 := mkEntry _ _ _). destruct (wake_task_grows (waker e) q (waker e) Hq) as (Hq1 & Hw & _).
    pose proof (expire_grows now l kept (<[id := e1]> es) _ _ Hq1 Hw) as Hw'.
    destruct (IH kept (<[id := e1]> es) (wake_task (waker e) q) Hnd) as (l' & es' & q' & E & Hs);
      [|done|].
    { intros i Hi. destruct (Hl i) as (e' & Ee' & ?); [by right|]. exists e'.
      by rewrite lookup_insert_ne by (intros ->; done). }
    rewrite E in Hw'. simpl in Hw'. exists l', es', q'. split; [done|]. destruct Hs as [Hsub Hnd' Hok Ho Hk Hf].
    assert (Hl' : id ∉ l') by (intros Hin; by apply Hid, Hsub).
    constructor; [intros; right; auto|done|done|..].
    + intros i [? ?]%not_elem_of_cons. rewrite Ho by done. by rewrite lookup_insert_ne.
    + intros i e' [->|Hi]%elem_of_cons Ei Hlt; [rewrite Ee in Ei; injection Ei as <-; lia|].
      apply Hk; [done| |done]. by rewrite lookup_insert_ne by (intros ->; done).
    + intros i e' [->|Hi]%elem_of_cons Ei Hle.
      * rewrite Ee in Ei. injection Ei as <-. split_and!; [done| |done].
        rewrite Ho by done. by rewrite lookup_insert_eq.
      * apply Hf; [done| |done]. by rewrite lookup_insert_ne by (intros ->; done).
  - destruct (IH (kept ++ [id]) es q Hnd) as (l' & es' & q' & E & Hs); [|done|].
    { intros i Hi. apply Hl. by right. }
    exists (id :: l'), es', q'. rewrite E, <- app_assoc. split; [done|].
    destruct Hs as [Hsub Hnd' Hok Ho Hk Hf]. constructor; [set_solver| |done|..].
    + apply NoDup_cons. split; [|done]. intros Hin. by apply Hid, Hsub.
    + intros i [? ?]%not_elem_of_cons. by apply Ho.
    + intros i e' [->|Hi]%elem_of_cons Ei Hlt.
      * split; [by left|]. by rewrite Ho.
      * destruct (Hk i e' Hi Ei Hlt). split; [by right|done].
    + intros i e' [->|Hi]%elem_of_cons Ei Hle; [rewrite Ee in Ei; injection Ei as <-; lia|].
      destruct (Hf i e' Hi Ei Hle) as (? & ? & ?). split_and!; [|done|done].
      apply not_elem_of_cons. split; [intros ->; done|done].
Qed.

(** One tick. *)
Lemma tick_spec busy c q :
  clock_ok c -> execq_ok q -> NOW c + 1 < 2 ^ 64 ->
  exists c' q', tick busy c q = Ret (c', q') /\ clock_ok c' /\ execq_ok q' /\
    NOW c' = NOW c + 1 /\
    (forall id, id ∉ timers c -> (id ∉ timers c') /\ entries c' !! id = entries c !! id) /\
    forall id e, id ∈ timers c -> entries c !! id = Some e ->
      if busy || bool_decide (NOW c + 1 < deadline e)
      then id ∈ timers c' /\ entries c' !! id = Some e
      else id ∉ timers c' /\ entries c' !! id = Some (mkEntry (deadline e) (waker e) true) /\
           queued_or_full (waker e) q'.
Proof.
  intros [Hnd Hl Hfr [Hn0 Hn1]] Hq Hnow. unfold tick, advance. simpl.
  rewrite add_chk_ok by done. simpl. rewrite (wrap_id 64 (NOW c + 1)) by (unfold fits; lia).
  destruct busy; simpl.
  { eexists _, _. split; [done|]. split_and!; try done. constructor; try done. unfold fits; simpl; lia. }
  destruct (expire_all (NOW c + 1) (timers c) [] (entries c) q Hnd Hl Hq) as (l' & es' & q' & -> & Hs).
  destruct Hs as [Hsub Hnd' Hok Ho Hk Hf]. eexists _, _. split; [done|]. split_and!; [|done|done| |].
  - constructor; simpl.
    + done.
    + intros id Hid. assert (Hin : id ∈ timers c) by auto.
      destruct (Hl id Hin) as (e & Ee & Hfe). exists e.
      destruct (decide (NOW c + 1 < deadline e)) as [Hlt|Hge].
      * by destruct (Hk id e Hin Ee Hlt).
      * destruct (Hf id e Hin Ee) as [? _]; [lia|done].
    + intros id Hid. destruct (decide (id ∈ timers c)) as [Hin|Hin].
      * destruct (Hl id Hin) as (e & Ee & _). by rewrite Hfr in Ee.
      * rewrite Ho by done. by apply Hfr.
    + unfold fits; lia.
  - simpl. intros id Hid. split; [auto|by apply Ho].
  - simpl. intros id e Hin Ee. case_bool_decide as Hd.
    + by apply (Hk id e).
    + apply (Hf id e); [done|done|lia].
Qed.

Lemma ticks_out busy : forall c q id,
  clock_ok c -> execq_ok q -> NOW c + lenZ busy < 2 ^ 64 -> id ∉ timers c ->
  exists c' q', ticks busy c q = Ret (c', q') /\ (id ∉ timers c') /\ entries c' !! id = entries c !! id.
Proof.
  induction busy as [|b busy IH]; intros c q id Hc Hq Hn Hid; [by eexists _, _|].
  rewrite lenZ_cons in Hn. pose proof (lenZ_nonneg busy).
  destruct (tick_spec b c q Hc Hq) as (c1 & q1 & E1 & Hc1 & Hq1 & Hn1 & Ho1 & _); [lia|].
  destruct (Ho1 id Hid) as [Hid1 He1].
  destruct (IH c1 q1 id Hc1 Hq1) as (c2 & q2 & E2 & Hid2 & He2); [lia|done|].
  exists c2, q2. simpl. rewrite E1. simpl. rewrite E2. split_and!; [done|done|congruence].
Qed.

(** No tick of [busy] both finds the list free and reaches [d]. *)
Definition not_due (d now : Z) (busy : list bool) : Prop :=
  forall i b, busy !! i = Some b -> b = true \/ now + 1 + Z.of_nat i < d.

Lemma ticks_wait busy : forall c q id e,
  clock_ok c -> execq_ok q -> NOW c + lenZ busy < 2 ^ 64 ->
  id ∈ timers c -> entries c !! id = Some e -> not_due (deadline e) (NOW c) busy ->
  exists c' q', ticks busy c q = Ret (c', q') /\ clock_ok c' /\ execq_ok q' /\
    NOW c' = NOW c + lenZ busy /\ id ∈ timers c' /\ entries c' !! id = Some e.
Proof.
  induction busy as [|b busy IH]; intros c q id e Hc Hq Hn Hid He Hdue.
  { exists c, q. split_and!; try done. rewrite lenZ_nil. lia. }
  rewrite lenZ_cons in *. pose proof (lenZ_nonneg busy).
  destruct (tick_spec b c q Hc Hq) as (c1 & q1 & E1 & Hc1 & Hq1 & Hn1 & _ & Hs); [lia|].
  specialize (Hs id e Hid He).
  assert (b || bool_decide (NOW c + 1 < deadline e) = true) as Hkeep.
  { destruct (Hdue 0%nat b eq_refl) as [->|Hlt]; [done|]. rewrite (bool_decide_eq_true_2 (_ < _)) by lia.
    apply orb_true_r. }
  rewrite Hkeep in Hs. destruct Hs as [Hid1 He1].
  destruct (IH c1 q1 id e Hc1 Hq1) as (c2 & q2 & E2 & ?); [lia|done|done| |].
  { intros i b' Hb. destruct (Hdue (S i) b' Hb); [by left|right; lia]. }
  exists c2, q2. simpl. rewrite E1. simpl. rewrite E2. split; [done|]. by rewrite Z.add_assoc, <- Hn1.
Qed.

(** Property.  A registered sleep fires exactly once, at the first tick that is at
    or after its deadline and finds the timer list free: until then ([pre])
    it stays listed and untouched, at that tick it leaves the list, is marked
    fired and its task is queued (unless the executor's 256 slots are full),
    and later ticks ([post]) do not touch it again. *)
Theorem sleep_fires_once c q id e pre post :
  clock_ok c -> execq_ok q -> NOW c + lenZ pre + 1 + lenZ post < 2 ^ 64 ->
  id ∈ timers c -> entries c !! id = Some e ->
  not_due (deadline e) (NOW c) pre -> deadline e <= NOW c + lenZ pre + 1 ->
  exists c1 q1 c2 q2 c3 q3,
    ticks pre c q = Ret (c1, q1) /\ id ∈ timers c1 /\ entries c1 !! id = Some e /\
    tick false c1 q1 = Ret (c2, q2) /\
    entries c2 !! id = Some (mkEntry (deadline e) (waker e) true) /\ queued_or_full (waker e) q2 /\
    ticks post c2 q2 = Ret (c3, q3) /\ (id ∉ timers c3) /\ entries c3 !! id = entries c2 !! id.
Proof.
  intros Hc Hq Hn Hid He Hpre Hdue. pose proof (lenZ_nonneg pre). pose proof (lenZ_nonneg post).
  destruct (ticks_wait pre c q id e) as (c1 & q1 & E1 & Hc1 & Hq1 & Hn1 & Hid1 & He1); try done; [lia|].
  destruct (tick_spec false c1 q1 Hc1 Hq1) as (c2 & q2 & E2 & Hc2 & Hq2 & Hn2 & _ & Hs); [lia|].
  specialize (Hs id e Hid1 He1). rewrite orb_false_l, bool_decide_eq_false_2 in Hs by lia.
  destruct Hs as (Hid2 & He2 & Hw).
  destruct (ticks_out post c2 q2 id Hc2 Hq2) as (c3 & q3 & E3 & Hid3 & He3); [lia|done|].
  exists c1, q1, c2, q2, c3, q3. split_and!; done.
Qed.

(** Property.  [sleep_ms] counts whole ticks of 10 ms, rounded down but at least
    one: the deadline is [max(1, ms / 10)] ticks away (short of the end of
    the 64-bit clock), so a sleep whose length is not a multiple of 10 ms
    ends up to 9 ms before it should; polling it is ready exactly from the
    deadline on. *)
Theorem sleep_ms_deadline ms c w :
  fits 64 ms -> clock_ok c -> NOW c + ms < 2 ^ 63 -> ms * 100 < 2 ^ 64 ->
  sl_deadline (sleep_ms ms c) - NOW c = Z.max 1 (ms / 10) /\
  (10 <= ms -> ms mod 10 <> 0 -> (sl_deadline (sleep_ms ms c) - NOW c) * 10 < ms) /\
  forall s, (sleep_poll w s c).2 = true <-> sl_deadline s <= NOW c.
Proof.
  intros [Hm0 _] Hc Hn Hm. destruct (t_now _ Hc) as [Hn0 _].
  assert (Hd : sl_deadline (sleep_ms ms c) = NOW c + Z.max (ms / 10) 1).
  { unfold sleep_ms, saturating_add, saturating_mul, TICKS_PER_SEC, U64_MAX. simpl.
    rewrite (Z.min_l (ms * 100)) by lia.
    replace (ms * 100 / 1000) with (ms / 10) by (rewrite <- (Z.div_mul_cancel_r ms 10 100) by lia; done).
    assert (ms / 10 <= ms) by (apply Z.div_le_upper_bound; lia). lia. }
  rewrite Hd. split_and!.
  - lia.
  - intros H10 Hr. pose proof (Z.div_mod ms 10 ltac:(lia)). pose proof (Z.mod_pos_bound ms 10 ltac:(lia)).
    assert (1 <= ms / 10) by (apply Z.div_le_lower_bound; lia). lia.
  - intros s. unfold sleep_poll. case_bool_decide as E; [done|].
    split; [|lia]. by destruct (entry s).
Qed.

End correct.

(** ** Witnesses *)

Definition demo_clock : clock := mkClock 7 7 [0] {[0 := mkEntry 9 5 false]} 1.

Lemma demo_clock_ok : clock_ok demo_clock.
Proof.
  constructor; simpl; [apply NoDup_singleton| | |done].
  - intros id ->%list_elem_of_singleton. by eexists.
  - intros id Hid. apply lookup_singleton_ne. lia.
Qed.

Lemma sleep_fires_once_witness :
  exists c1 q1 c2 q2, ticks [false; true] demo_clock execq_new = Ret (c1, q1) /\
    tick false c1 q1 = Ret (c2, q2) /\ entries c2 !! 0 = Some (mkEntry 9 5 true).
Proof.
  destruct (sleep_fires_once demo_clock execq_new 0 (mkEntry 9 5 false) [false; true] [false])
    as (c1 & q1 & c2 & q2 & c3 & q3 & E1 & _ & _ & E2 & He & _); try done.
  - apply demo_clock_ok.
  - apply execq_ok_new.
  - by left.
  - intros [|[|i]] b Hb; simpl in *; [right; simpl; lia|left; congruence|done].
  - by exists c1, q1, c2, q2.
Defined.

Lemma sleep_ms_deadline_witness : (sl_deadline (sleep_ms 19 demo_clock) - NOW demo_clock) * 10 < 19.
Proof. apply (sleep_ms_deadline 19 demo_clock 5); [done|apply demo_clock_ok|done..]. Defined.
