(* ===== verification/Process.v ===== *)
(** * Processes and scheduling

    kernel/src/task/process.rs (spawn, fork, exit, wait, kill, schedule_next,
    reschedule), task/signal.rs (deliver_pending), task/preempt.rs (on_timer)
    and the timer hook of arch/x86_64/idt.rs.

    A function that does not return in the source answers where control goes
    ([control]): to ring 3 with a register file, back to the kernel context
    saved by [run_until_all_exit], or into the halt loop.  The address of a
    boxed kernel stack is an argument of the functions that allocate one. *)
From S2P Require Import Prelude Phys FrameAllocator FrameRefcount Paging AddressSpace Signal.
From S2P Require Import ProcessTable Ipc Queue Gfx Elf Executor Time.
Local Open Scope Z_scope.

(** [ps_eoi]: the timer interrupt is in service, its end not yet notified to
    the interrupt controller.  [ps_rsp0]: the kernel stack of the TSS and of
    the per-CPU block. *)
Record pstate `{ArrayQueue InputEventAbi} `{ArrayQueue Z} := mkP {
  ps_i : istate;
  ps_gfx : gfx;
  ps_next_pid : Z;
  ps_rsp0 : Z;
  ps_ret_ctx : bool;
  ps_eoi : bool;
  ps_clock : clock;
  ps_xq : execq
}.

Inductive control :=
| EnterUser (regs : TrapFrame)
| KernelReturn
| HltLoop.

Section process.
Context `{ArrayQueue InputEventAbi} `{ArrayQueue Z} `{X86Paging}.

Definition ps_table (s : pstate) : ProcessTable := i_table (ps_i s).
Definition ps_mem (s : pstate) : kmem := i_mem (ps_i s).

Definition set_ps_i (i : istate) (s : pstate) : pstate :=
  mkP _ _ i (ps_gfx s) (ps_next_pid s) (ps_rsp0 s) (ps_ret_ctx s) (ps_eoi s) (ps_clock s) (ps_xq s).
Definition set_ps_gfx (g : gfx) (s : pstate) : pstate :=
  mkP _ _ (ps_i s) g (ps_next_pid s) (ps_rsp0 s) (ps_ret_ctx s) (ps_eoi s) (ps_clock s) (ps_xq s).
Definition set_next_pid (n : Z) (s : pstate) : pstate :=
  mkP _ _ (ps_i s) (ps_gfx s) n (ps_rsp0 s) (ps_ret_ctx s) (ps_eoi s) (ps_clock s) (ps_xq s).
Definition set_rsp0 (v : Z) (s : pstate) : pstate :=
  mkP _ _ (ps_i s) (ps_gfx s) (ps_next_pid s) v (ps_ret_ctx s) (ps_eoi s) (ps_clock s) (ps_xq s).
Definition set_ret_ctx (b : bool) (s : pstate) : pstate :=
  mkP _ _ (ps_i s) (ps_gfx s) (ps_next_pid s) (ps_rsp0 s) b (ps_eoi s) (ps_clock s) (ps_xq s).
Definition set_eoi (b : bool) (s : pstate) : pstate :=
  mkP _ _ (ps_i s) (ps_gfx s) (ps_next_pid s) (ps_rsp0 s) (ps_ret_ctx s) b (ps_clock s) (ps_xq s).
Definition set_clock (c : clock) (x : execq) (s : pstate) : pstate :=
  mkP _ _ (ps_i s) (ps_gfx s) (ps_next_pid s) (ps_rsp0 s) (ps_ret_ctx s) (ps_eoi s) c x.
Definition set_table (t : ProcessTable) (s : pstate) : pstate := set_ps_i (set_i_table t (ps_i s)) s.
Definition set_kmem (k : kmem) (s : pstate) : pstate := set_ps_i (set_i_mem k (ps_i s)) s.

Abbreviation P := (M pstate string).

Definition onK {A} (c : K A) : P A := zoom ps_mem set_kmem c.
Definition on_table {E} (f : ProcessTable -> ProcessTable) : M pstate E unit :=
  modify (fun s => set_table (f (ps_table s)) s).

(** [NEXT_PID.fetch_add(1) as Pid]: a 64-bit counter, truncated. *)
Definition alloc_pid : P Z :=
  s ← mget;
  _ ← mput (set_next_pid (wrap 64 (ps_next_pid s + 1)) s);
  mok (wrap 32 (ps_next_pid s)).

(** A value of type [AddressSpace] goes out of scope. *)
Definition dropK (a : AddressSpace) : K unit :=
  r ← run_on a drop_as; mok tt.

(** [f(&mut space)?] on a local space, which is dropped on the error path. *)
Definition with_space {A} (a : AddressSpace) (c : KA A) : P (A * AddressSpace) := fun s =>
  match c (ps_mem s, a) with
  | Ret ((k, a'), Ok v) => Ret (set_kmem k s, Ok (v, a'))
  | Ret ((k, a'), Err e) =>
      match dropK a' k with
      | Ret (k', _) => Ret (set_kmem k' s, Err e)
      | Panic => Panic
      end
  | Panic => Panic
  end.

(** The selectors of the GDT are arguments. *)
Definition spawn_from_elf (user_code user_data kstack : Z) (name elf_bytes : list Z) (parent : Z)
  : P Z :=
  space ← onK new_user;
  '(loaded, space) ← with_space space (elf_load elf_bytes);
  top ← mlift (virt_new USER_STACK_TOP);
  '(rsp_user, space) ← with_space space (map_user_stack top USER_STACK_PAGES);
  let tf := set_iret (entry_point loaded) rsp_user 0x202 user_code user_data tf_default in
  s ← mget;
  let '(uid, gid, euid, egid) :=
    match procs (ps_table s) !! parent with
    | Some p => (uid p, gid p, euid p, egid p)
    | None => (ROOT_UID, ROOT_GID, ROOT_UID, ROOT_GID)
    end in
  pid ← alloc_pid;
  let proc := mkProcess pid parent name Runnable space kstack tf [] [] uid gid euid egid in
  _ ← on_table (fun t => table_insert t proc);
  mok pid.

Definition fork (kstack : Z) : P Z :=
  s ← mget;
  let cur_pid := current (ps_table s) in
  parent_proc ← ok_or (procs (ps_table s) !! cur_pid) "pas de process courant";
  child_space ← onK (clone_cow (address_space parent_proc));
  let child_tf := set_rax 0 (trap_frame parent_proc) in
  child_pid ← alloc_pid;
  let child_proc :=
    mkProcess child_pid cur_pid (name parent_proc) Runnable child_space kstack child_tf [] []
      (uid parent_proc) (gid parent_proc) (euid parent_proc) (egid parent_proc) in
  _ ← on_table (fun t => table_insert t child_proc);
  _ ← on_table (fun t =>
        match procs t !! cur_pid with
        | Some p => put_proc t cur_pid (set_tf (set_rax child_pid (trap_frame p)) p)
        | None => t
        end);
  mok child_pid.

(** The registers with which [enter_userspace] leaves the kernel. *)
Definition enter_userspace (rip rsp rflags cs ss : Z) : TrapFrame :=
  set_iret rip rsp rflags cs ss tf_default.

Definition schedule_next (s : pstate) : outcome (pstate * control) :=
  let '(next, t) := pick_next (ps_table s) in
  let s := set_table t s in
  match next with
  | None =>
      if ps_ret_ctx s then Ret (set_ret_ctx false s, KernelReturn) else Ret (s, HltLoop)
  | Some next =>
      let t := mkTable (procs t) (runnable t) next in
      let s := set_table t s in
      p ← expect (procs t !! next);
      let tf := trap_frame p in
      kstack ← kernel_stack_top p;
      let s := set_kmem (switch_cr3 (p4 (address_space p)) (ps_mem s)) s in
      let s := set_rsp0 kstack s in
      Ret (s, EnterUser (enter_userspace (rip tf) (rsp tf) (rflags tf) (cs tf) (ss tf)))
  end.

(** The part of [exit_current] under the table lock. *)
Definition exit_table (code : Z) (t : ProcessTable) : outcome ProcessTable :=
  let pid := current t in
  p ← expect (procs t !! pid);
  let t := put_proc t pid (set_state (Zombie code) p) in
  let parent_pid := parent p in
  Ret (match procs t !! parent_pid with
       | Some par =>
           let par := set_children (children_exited par ++ [(pid, code)]) par in
           if is_sleeping par
           then enqueue (put_proc t parent_pid (set_state Runnable par)) parent_pid
           else put_proc t parent_pid par
       | None => t
       end).

Definition exit_current (code : Z) (s : pstate) : outcome (pstate * control) :=
  let dying_pid := current (ps_table s) in
  let s := set_ps_gfx (release_if_owner dying_pid (ps_gfx s)) s in
  i ← cleanup_pid dying_pid (ps_i s);
  let s := set_ps_i i s in
  t ← exit_table code (ps_table s);
  schedule_next (set_table t s).

Definition current_fault_kill (s : pstate) : outcome (pstate * control) := exit_current (-1) s.

(** Reaping removes the child, and its address space is dropped with it. *)
Definition wait_any (caller : Z) (s : pstate) : outcome (pstate * option (Z * Z)) :=
  let t := ps_table s in
  match procs t !! caller with
  | None => Ret (s, None)
  | Some p =>
      match children_exited p with
      | (child_pid, code) :: rest =>
          let t := put_proc t caller (set_children rest p) in
          let child := procs t !! child_pid in
          let t := mkTable (delete child_pid (procs t)) (runnable t) (current t) in
          let s := set_table t s in
          match child with
          | Some c =>
              '(k, _) ← dropK (address_space c) (ps_mem s);
              Ret (set_kmem k s, Some (child_pid, code))
          | None => Ret (s, Some (child_pid, code))
          end
      | [] => Ret (set_table (put_proc t caller (set_state Sleeping p)) s, None)
      end
  end.

Definition kill (i : Z) (sig : Signal) (t : ProcessTable) : ProcessTable * result unit string :=
  match procs t !! i with
  | None => (t, Err "pid inconnu"%string)
  | Some p =>
      let p := set_signals (sig_push (signals p) sig) p in
      if is_sleeping p then (enqueue (put_proc t i (set_state Runnable p)) i, Ok tt)
      else (put_proc t i p, Ok tt)
  end.

(** [run_until_all_exit], up to the switch to the first process: the return
    context is recorded. *)
Definition run_until_all_exit (s : pstate) : outcome (pstate * control) :=
  schedule_next (set_ret_ctx true s).

Definition reschedule (frame : TrapFrame) (s : pstate) : outcome (pstate * TrapFrame) :=
  let t := ps_table s in
  let cur_pid := current t in
  let t :=
    if negb (cur_pid =? 0) then
      match procs t !! cur_pid with
      | Some cur =>
          let t := put_proc t cur_pid (set_tf frame cur) in
          if is_runnable cur then enqueue t cur_pid else t
      | None => t
      end
    else t in
  let '(next, t) := pick_next t in
  match next with
  | None => Ret (set_table t s, frame)
  | Some next =>
      if next =? current t then Ret (set_table t s, frame) else
      let t := mkTable (procs t) (runnable t) next in
      p ← expect (procs t !! next);
      kstack ← kernel_stack_top p;
      let tf := trap_frame p in
      let frame := set_iret (rip tf) (rsp tf) (rflags tf) (cs tf) (ss tf) frame in
      let frame := match procs t !! current t with
                   | Some p => copy_gprs (trap_frame p) frame
                   | None => frame
                   end in
      let s := set_table t s in
      let s := set_kmem (switch_cr3 (p4 (address_space p)) (ps_mem s)) s in
      Ret (set_rsp0 kstack s, frame)
  end.

(** ** Signals and the timer *)

(** [Some c]: the call did not return, control went to [c]. *)
Definition deliver_pending (s : pstate) : outcome (pstate * option control) :=
  let t := ps_table s in
  if current_pid t =? 0 then Ret (s, None) else
  match table_current t with
  | None => Ret (s, None)
  | Some cur =>
      match sig_pop (signals cur) with
      | (None, q) => Ret (set_table (put_proc t (current t) (set_signals q cur)) s, None)
      | (Some sg, q) =>
          let s := set_table (put_proc t (current t) (set_signals q cur)) s in
          '(s, c) ← exit_current (exit_code sg) s;
          Ret (s, Some c)
      end
  end.

Definition on_timer (frame : TrapFrame) (s : pstate) : outcome (pstate * (TrapFrame + control)) :=
  '(s, c) ← deliver_pending s;
  match c with
  | Some c => Ret (s, inr c)
  | None =>
      if Z.land (cs frame) 3 =? 3 then
        '(s, frame) ← reschedule frame s;
        Ret (s, inl frame)
      else Ret (s, inl frame)
  end.

(** The interrupt is in service on entry; [busy]: the timer list is locked
    by the code the interrupt stopped. *)
Definition timer_tick_rust (busy : bool) (frame : TrapFrame) (s : pstate)
  : outcome (pstate * (TrapFrame + control)) :=
  let s := set_eoi true s in
  '(c, x) ← tick busy (ps_clock s) (ps_xq s);
  '(s, r) ← on_timer frame (set_clock c x s);
  match r with
  | inl frame => Ret (set_eoi false s, inl frame)
  | inr c => Ret (s, inr c)
  end.

End process.
