(* ===== verification/ProcessCorrect.v ===== *)
(** * Correctness of processes and scheduling

    No operation loses a runnable process, a preempted program gets its
    registers back, the election is round-robin, exit and wait form a FIFO;
    and the places where the code does not do what it means to: a process
    resumed by [schedule_next] loses its registers, and a signal delivered by
    the timer leaves the interrupt in service. *)
From S2P Require Import Prelude Phys FrameAllocator FrameRefcount Paging AddressSpace Signal.
From S2P Require Import ProcessTable Ipc IpcCorrect Queue Gfx Elf Executor Time Process.
Local Open Scope Z_scope.

Section correct.
Context `{ArrayQueue InputEventAbi} `{ArrayQueue Z} `{X86Paging}.

(** ** The table under each operation *)

Lemma table_insert_ok t p : table_ok t -> table_ok (table_insert t p).
Proof.
  intros Hok. unfold table_insert. destruct (is_runnable p) eqn:Er.
  - apply put_proc_ok; [by apply enqueue_ok|done|]. intros _. right. simpl. set_solver.
  - apply put_proc_ok; [done|done|]. congruence.
Qed.

(** A change of [p] that keeps its pid and does not make it runnable. *)
Lemma put_same_ok t i p p' :
  table_ok t -> procs t !! i = Some p -> pid p' = pid p ->
  (is_runnable p' = true -> is_runnable p = true) -> table_ok (put_proc t i p').
Proof.
  intros Hok Hp Hpid Hr. apply put_proc_ok; [done|rewrite Hpid; by apply (ok_pid _ Hok)|].
  intros Hr'. by apply (ok_queued _ Hok i p), Hr.
Qed.

(** A process is made runnable and queued. *)
Lemma wake_ok t i p p' :
  table_ok t -> procs t !! i = Some p -> pid p' = pid p -> table_ok (enqueue (put_proc t i p') i).
Proof.
  intros Hok Hp Hpid. change (enqueue (put_proc t i p') i) with (put_proc (enqueue t i) i p').
  apply put_proc_ok; [by apply enqueue_ok|rewrite Hpid; by apply (ok_pid _ Hok)|].
  intros _. right. simpl. set_solver.
Qed.

Lemma kill_ok i sig t : table_ok t -> table_ok (kill i sig t).1.
Proof.
  intros Hok. unfold kill. destruct (procs t !! i) as [p|] eqn:Ep; [|done].
  destruct (is_sleeping _); simpl; [by eapply wake_ok|by eapply put_same_ok].
Qed.

Lemma exit_table_ok code t t' :
  table_ok t -> exit_table code t = Ret t' -> table_ok t'.
Proof.
  intros Hok. unfold exit_table. destruct (procs t !! current t) as [p|] eqn:Ep; [|done]. simpl.
  intros [= <-]. set (t1 := put_proc _ _ _).
  assert (Hok1 : table_ok t1) by (by eapply put_same_ok).
  destruct (<[_ := _]> (procs t) !! parent p) as [par|] eqn:Epar; [|done].
  destruct (is_sleeping _); [by eapply wake_ok|by eapply put_same_ok].
Qed.

(** After [exit_table] the current process is a zombie, unless it was its
    own parent's sleeping self, which the state excludes. *)
Lemma exit_table_current code t t' :
  exit_table code t = Ret t' ->
  current t' = current t /\ forall p, procs t' !! current t = Some p -> is_runnable p = false.
Proof.
  unfold exit_table. destruct (procs t !! current t) as [p|] eqn:Ep; [|done]. simpl.
  intros [= <-]. destruct (<[_ := _]> (procs t) !! parent p) as [par|] eqn:Epar.
  2:{ split; [done|]. intros p'. simpl. rewrite lookup_insert_eq. by intros [= <-]. }
  destruct (decide (parent p = current t)) as [Eself|Hne].
  - rewrite Eself, lookup_insert_eq in Epar. injection Epar as <-. simpl. split; [done|].
    intros p'. rewrite Eself, lookup_insert_eq. by intros [= <-].
  - destruct (is_sleeping _); simpl; (split; [done|]); intros p';
      rewrite lookup_insert_ne, lookup_insert_eq by done; by intros [= <-].
Qed.

(** Electing another process when the current one cannot run. *)
Lemma elect_ok t i t' :
  table_ok t -> (forall p, procs t !! current t = Some p -> is_runnable p = true -> current t ∈ runnable t) ->
  pick_next t = (Some i, t') -> table_ok (mkTable (procs t') (runnable t') i).
Proof.
  intros Hok Hcur Hp. pose proof (pick_from_spec (procs t) (runnable t)) as Hs.
  unfold pick_next in Hp. destruct (pick_from _ _) as [[k|] q]; [|done]. injection Hp as -> <-.
  destruct Hs as (sk & p & Eq & Hi & Hr & Hsk). constructor; simpl; [apply (ok_pid _ Hok)|].
  intros j pj Hj Hrj. assert (Hin : j ∈ runnable t).
  { destruct (ok_queued _ Hok j pj Hj Hrj) as [->|]; [by eapply Hcur|done]. }
  rewrite Eq, elem_of_app, elem_of_cons in Hin. destruct Hin as [Hin|[?|?]]; [|by left|by right].
  rewrite Forall_forall in Hsk. specialize (Hsk j Hin pj Hj). congruence.
Qed.

Lemma elect_none_ok t t' :
  table_ok t -> pick_next t = (None, t') -> table_ok t'.
Proof.
  intros Hok Hp. destruct (pick_next_none t t' Hok Hp) as [-> Hall].
  constructor; simpl; [apply (ok_pid _ Hok)|]. intros j q Hj Hr. left. by apply (Hall j q).
Qed.

(** No user process is running: the kernel's own context is. *)
Definition kernel_ctx (t : ProcessTable) : Prop :=
  forall p, procs t !! current t = Some p -> is_runnable p = false.

Lemma schedule_next_ok s s' c :
  table_ok (ps_table s) -> kernel_ctx (ps_table s) -> schedule_next s = Ret (s', c) ->
  table_ok (ps_table s') /\ (c = KernelReturn \/ c = HltLoop -> kernel_ctx (ps_table s')).
Proof.
  intros Hok Hctx. unfold schedule_next.
  destruct (pick_next (ps_table s)) as [[i|] t'] eqn:Ep.
  - cbv zeta. destruct (expect _) as [p|]; [|done]. cbn [mbind outcome_bind].
    destruct (kernel_stack_top p) as [ks|]; [|done]. cbn [mbind outcome_bind].
    intros [= <- <-]. split; [|by intros []]. eapply elect_ok; [done| |done].
    intros p' Hp' Hr. by rewrite (Hctx p' Hp') in Hr.
  - assert (Ht' : table_ok t') by (by eapply elect_none_ok).
    destruct (pick_next_none _ _ Hok Ep) as [Et' _].
    destruct (ps_ret_ctx _); intros [= <- <-]; (split; [done|]); intros _;
      unfold ps_table; simpl; subst t'; exact Hctx.
Qed.

(** The exit hooks do not touch the process table. *)
Definition keeps_table {E A} (c : M istate E A) : Prop :=
  forall s, wp c (fun s' _ => i_table s' = i_table s) s.

Lemma keeps_table_bind {E A B} (c : M istate E A) (f : A -> M istate E B) :
  keeps_table c -> (forall a, keeps_table (f a)) -> keeps_table (mbind (M := M istate E) f c).
Proof.
  intros Hc Hf s. wp_step. eapply wp_mono; [apply Hc|]. intros s1 [a|e] E1; [|done].
  eapply wp_mono; [apply Hf|]. simpl. congruence.
Qed.

Lemma keeps_table_mfor {E A} (l : list A) (f : A -> M istate E unit) :
  (forall x, keeps_table (f x)) -> keeps_table (mfor l f).
Proof.
  intros Hf. induction l as [|x l IH]; [by intros s; apply wp_mok|].
  apply keeps_table_bind; [done|]. by intros [].
Qed.

Lemma keeps_table_free_pa pa : keeps_table (free_pa pa).
Proof.
  intros s. unfold free_pa. wp_step. wp_step. wp_step; [|by wp_step]. wp_step.
  unfold on_mem. wp_step. wp_step. intros k r _. by wp_step.
Qed.

Lemma keeps_table_drop_ref h : keeps_table (drop_ref h).
Proof.
  intros s. unfold drop_ref. wp_step. wp_step. wp_step; [|by wp_step]. wp_step. wp_step.
  wp_step; [|by wp_step]. wp_step.
  eapply wp_mono; [apply (keeps_table_mfor _ _ keeps_table_free_pa)|].
  intros s1 [?|?] E1; [|done]. by wp_step.
Qed.

Lemma cleanup_pid_table i s s' : cleanup_pid i s = Ret s' -> i_table s' = i_table s.
Proof.
  unfold cleanup_pid. cbv zeta. set (l := filter _ _). set (s1 := set_i_ipc _ _).
  pose proof (keeps_table_mfor l _ (fun m => keeps_table_drop_ref (sm_handle m)) s1) as Hw.
  unfold wp in Hw. destruct (mfor l _ s1) as [[s2 r]|]; [|done].
  intros [= <-]. exact (Hw s2 r eq_refl).
Qed.

(** [exit_current], as its effect on the table and the election. *)
Lemma exit_current_table code s s' c :
  exit_current code s = Ret (s', c) ->
  exists s1 t1, exit_table code (ps_table s) = Ret t1 /\ ps_table s1 = t1 /\
    schedule_next s1 = Ret (s', c) /\ ps_eoi s1 = ps_eoi s /\ ps_next_pid s1 = ps_next_pid s.
Proof.
  unfold exit_current. cbv zeta.
  destruct (cleanup_pid _ _) as [i|] eqn:Ei; [|done]. cbn [mbind outcome_bind].
  apply cleanup_pid_table in Ei.
  match goal with |- context [exit_table code ?t] => replace t with (ps_table s) by (symmetry; exact Ei) end.
  destruct (exit_table code (ps_table s)) as [t1|]; [|done]. cbn [mbind outcome_bind].
  intros Hs. eexists _, t1. split; [done|]. split; [|split; [exact Hs|done]]. done.
Qed.

Lemma exit_current_ok code s s' c :
  table_ok (ps_table s) -> exit_current code s = Ret (s', c) ->
  table_ok (ps_table s') /\ (c = KernelReturn \/ c = HltLoop -> kernel_ctx (ps_table s')).
Proof.
  intros Hok (s1 & t1 & Et & E1 & Hs & _)%exit_current_table.
  eapply schedule_next_ok; [| |done]; rewrite E1.
  - by eapply exit_table_ok.
  - destruct (exit_table_current _ _ _ Et) as [Ec Hz]. intros p. rewrite Ec. apply Hz.
Qed.

Lemma reschedule_ok frame s s' f' :
  table_ok (ps_table s) -> procs (ps_table s) !! 0 = None -> reschedule frame s = Ret (s', f') ->
  table_ok (ps_table s').
Proof.
  intros Hok Hc0. unfold reschedule. cbv zeta.
  set (t1 := if negb _ then _ else _).
  assert (Ht1 : table_ok t1 /\ current t1 = current (ps_table s) /\
    forall p, procs t1 !! current t1 = Some p -> is_runnable p = true -> current t1 ∈ runnable t1).
  { unfold t1. destruct (Z.eqb_spec (current (ps_table s)) 0) as [E0|_]; simpl.
    { split_and!; [done|done|]. intros p. by rewrite E0, Hc0. }
    destruct (procs (ps_table s) !! current (ps_table s)) as [cur|] eqn:Ec.
    2:{ split_and!; [done|done|]. intros p Hp. by rewrite Ec in Hp. }
    assert (Hput : table_ok (put_proc (ps_table s) (current (ps_table s)) (set_tf frame cur)))
      by (by eapply put_same_ok).
    destruct (is_runnable cur) eqn:Er; split_and!; try done.
    - by apply enqueue_ok.
    - intros. simpl. set_solver.
    - simpl. intros p. rewrite lookup_insert_eq. intros [= <-]. unfold is_runnable in *. simpl. by rewrite Er. }
  destruct Ht1 as (Hok1 & Ec1 & Hq1). clearbody t1.
  destruct (pick_next t1) as [[i|] t'] eqn:Ep.
  - destruct (pick_next_ok _ _ _ Hok1 Ep) as (p & Hp & Hr & Eprocs & Ecur & _ & Hall).
    destruct (Z.eqb_spec i (current t')) as [->|Hne].
    + intros [= <- <-]. unfold ps_table; simpl. constructor.
      * rewrite Eprocs. apply (ok_pid _ Hok1).
      * rewrite Eprocs. intros j q Hj Hrj. rewrite Ecur. destruct (Hall j q Hj Hrj) as [?|[?|?]]; auto. left. congruence.
    + destruct (expect _) as [p'|]; [|done]. cbn [mbind outcome_bind].
      destruct (kernel_stack_top p') as [ks|]; [|done]. cbn [mbind outcome_bind].
      intros [= <- <-]. unfold ps_table; simpl. by eapply elect_ok.
  - intros [= <- <-]. unfold ps_table; simpl. by eapply elect_none_ok.
Qed.

Lemma deliver_pending_ok s s' c :
  table_ok (ps_table s) -> deliver_pending s = Ret (s', c) ->
  table_ok (ps_table s') /\
  (c = None -> current (ps_table s') = current (ps_table s)) /\
  (c = Some KernelReturn \/ c = Some HltLoop -> kernel_ctx (ps_table s')).
Proof.
  intros Hok. unfold deliver_pending. destruct (_ =? 0).
  { intros [= <- <-]. split_and!; [done|done|by intros []]. }
  unfold table_current. destruct (procs (ps_table s) !! current (ps_table s)) as [cur|] eqn:Ec.
  2:{ intros [= <- <-]. split_and!; [done|done|by intros []]. }
  destruct (sig_pop (signals cur)) as [[sg|] q].
  - cbv zeta. destruct (exit_current _ _) as [[s1 c1]|] eqn:Ee; [|done]. cbn [mbind outcome_bind].
    intros [= <- <-]. apply exit_current_ok in Ee as [? Hk]; [|by eapply put_same_ok].
    split_and!; [done|done|]. intros Hc. apply Hk. destruct Hc as [[= ->]|[= ->]]; auto.
  - intros [= <- <-]. split_and!; [by eapply put_same_ok|done|by intros []].
Qed.

(** ** Pids *)

(** Every process has a pid below the next one to be handed out. *)
Definition pids_ok (n : Z) (t : ProcessTable) : Prop :=
  forall i, is_Some (procs t !! i) -> 0 < i < n.

Lemma pids_put n t i p p' :
  pids_ok n t -> procs t !! i = Some p -> pids_ok n (put_proc t i p').
Proof.
  intros Hn Hp j. simpl. destruct (decide (j = i)) as [->|]; [intros _; apply Hn; eauto|].
  rewrite lookup_insert_ne by done. apply Hn.
Qed.

Lemma pids_weaken n n' t : pids_ok n t -> n <= n' -> pids_ok n' t.
Proof. intros Hn Hle i Hi. specialize (Hn i Hi). lia. Qed.

Lemma pids_exit n code t t' : pids_ok n t -> exit_table code t = Ret t' -> pids_ok n t'.
Proof.
  intros Hn. unfold exit_table. destruct (procs t !! current t) as [p|] eqn:Ep; [|done]. simpl.
  intros [= <-]. assert (Hn1 : pids_ok n (put_proc t (current t) (set_state (Zombie code) p)))
    by (by eapply pids_put).
  destruct (<[_ := _]> (procs t) !! parent p) as [par|] eqn:Epar; [|done].
  destruct (is_sleeping _); [|by eapply pids_put].
  intros i Hi. exact (pids_put _ _ _ _ _ Hn1 Epar i Hi).
Qed.

Lemma pids_kill n i sig t : pids_ok n t -> pids_ok n (kill i sig t).1.
Proof.
  intros Hn. unfold kill. destruct (procs t !! i) as [p|] eqn:Ep; [|done].
  destruct (is_sleeping _); simpl; intros j Hj; exact (pids_put _ _ _ _ _ Hn Ep j Hj).
Qed.

Lemma pick_next_procs t r t' : pick_next t = (r, t') -> procs t' = procs t.
Proof. unfold pick_next. destruct (pick_from _ _). by intros [= <- <-]. Qed.

Lemma pids_schedule n s s' c :
  pids_ok n (ps_table s) -> schedule_next s = Ret (s', c) ->
  pids_ok n (ps_table s') /\ ps_next_pid s' = ps_next_pid s.
Proof.
  intros Hn. unfold schedule_next. destruct (pick_next (ps_table s)) as [r t'] eqn:Ep.
  apply pick_next_procs in Ep. assert (Hn' : pids_ok n t') by (intros i; rewrite Ep; apply Hn).
  destruct r as [i|].
  - cbv zeta. destruct (expect _) as [p|]; [|done]. cbn [mbind outcome_bind].
    destruct (kernel_stack_top p) as [ks|]; [|done]. cbn [mbind outcome_bind].
    intros [= <- <-]. split; [exact Hn'|done].
  - destruct (ps_ret_ctx _); intros [= <- <-]; split; try exact Hn'; done.
Qed.

Lemma pids_exit_current n code s s' c :
  pids_ok n (ps_table s) -> exit_current code s = Ret (s', c) ->
  pids_ok n (ps_table s') /\ ps_next_pid s' = ps_next_pid s.
Proof.
  intros Hn (s1 & t1 & Et & E1 & Hs & _ & <-)%exit_current_table.
  eapply pids_schedule; [|done]. rewrite E1. by eapply pids_exit.
Qed.

Lemma pids_reschedule n f s s' f' :
  pids_ok n (ps_table s) -> reschedule f s = Ret (s', f') ->
  pids_ok n (ps_table s') /\ ps_next_pid s' = ps_next_pid s.
Proof.
  intros Hn. unfold reschedule. cbv zeta. set (t1 := if negb _ then _ else _).
  assert (Hn1 : pids_ok n t1).
  { unfold t1. destruct (negb _); [|done]. destruct (procs _ !! _) as [p|] eqn:Ep; [|done].
    destruct (is_runnable p); intros j Hj; exact (pids_put _ _ _ _ _ Hn Ep j Hj). }
  clearbody t1. destruct (pick_next t1) as [r t'] eqn:Ep. apply pick_next_procs in Ep.
  assert (Hn' : pids_ok n t') by (intros i; rewrite Ep; apply Hn1).
  destruct r as [i|]; [|intros [= <- <-]; split; [exact Hn'|done]].
  destruct (i =? current t'); [intros [= <- <-]; split; [exact Hn'|done]|].
  destruct (expect _) as [p'|]; [|done]. cbn [mbind outcome_bind].
  destruct (kernel_stack_top p') as [ks|]; [|done]. cbn [mbind outcome_bind].
  intros [= <- <-]. split; [exact Hn'|done].
Qed.

Lemma pids_deliver n s s' c :
  pids_ok n (ps_table s) -> deliver_pending s = Ret (s', c) ->
  pids_ok n (ps_table s') /\ ps_next_pid s' = ps_next_pid s.
Proof.
  intros Hn. unfold deliver_pending. destruct (_ =? 0); [by intros [= <- <-]|].
  unfold table_current. destruct (procs _ !! _) as [cur|] eqn:Ec; [|by intros [= <- <-]].
  destruct (sig_pop (signals cur)) as [[sg|] q].
  - cbv zeta. destruct (exit_current _ _) as [[s1 c1]|] eqn:Ee; [|done]. cbn [mbind outcome_bind].
    intros [= <- <-]. by eapply (pids_exit_current n) in Ee; [|eapply pids_put].
  - intros [= <- <-]. split; [by eapply pids_put|done].
Qed.

(** ** The invariant *)

Record proc_inv (s : pstate) : Prop := mkPInv {
  inv_table : table_ok (ps_table s);
  inv_pids : pids_ok (ps_next_pid s) (ps_table s);
  inv_next : 0 < ps_next_pid s
}.

Lemma inv_no_zero s : proc_inv s -> procs (ps_table s) !! 0 = None.
Proof.
  intros [_ Hp _]. destruct (procs (ps_table s) !! 0) eqn:E; [|done].
  specialize (Hp 0 ltac:(eauto)). lia.
Qed.

(** A table whose pids are those of [s]. *)
Lemma inv_set_table s t :
  proc_inv s -> table_ok t -> pids_ok (ps_next_pid s) t -> proc_inv (set_table t s).
Proof. intros [_ _ Hn] Ht Hp. by constructor. Qed.

Lemma wp_on_table {E} f Q (s : pstate) :
  Q (set_table (f (ps_table s)) s) (Ok tt) -> wp (on_table f : M pstate E unit) Q s.
Proof. intros HQ. by apply wp_modify. Qed.

Lemma wp_onK {A} (c : K A) Q (s : pstate) :
  (forall k r, c (ps_mem s) = Ret (k, r) -> Q (set_kmem k s) r) -> wp (onK c) Q s.
Proof. intros HQ. unfold onK. wp_step. intros k r Hc. by apply HQ. Qed.

(** A new process takes the next pid and is queued. *)
Lemma insert_inv (s : pstate) p :
  proc_inv s -> ps_next_pid s < 2 ^ 32 - 1 -> pid p = wrap 32 (ps_next_pid s) ->
  proc_inv (set_table (table_insert (ps_table s) p) (set_next_pid (wrap 64 (ps_next_pid s + 1)) s)).
Proof.
  intros [Ht Hp Hn] Hlt Hpid. rewrite wrap_id in Hpid by (unfold fits; lia).
  rewrite wrap_id by (unfold fits; lia). constructor; simpl.
  - by apply table_insert_ok.
  - intros i. unfold ps_table, table_insert; simpl. rewrite Hpid.
    intros Hi. assert (Hi' : is_Some (<[ps_next_pid s := p]> (procs (i_table (ps_i s))) !! i))
      by (destruct (is_runnable p); exact Hi).
    destruct (decide (i = ps_next_pid s)) as [->|Hne]; [lia|].
    rewrite lookup_insert_ne in Hi' by done. specialize (Hp i Hi'). lia.
  - lia.
Qed.

Lemma fork_inv kstack s s' r :
  proc_inv s -> ps_next_pid s < 2 ^ 32 - 1 -> fork kstack s = Ret (s', r) -> proc_inv s'.
Proof.
  intros Hinv Hlt. revert s' r. change (wp (fork kstack) (fun s' _ => proc_inv s') s).
  unfold fork. wp_step. wp_step. wp_step. unfold ok_or.
  destruct (procs (ps_table s) !! current (ps_table s)) as [p|] eqn:Ep; [|by wp_step].
  wp_step. wp_step. apply wp_onK. intros k [sp|e] _; [|by destruct Hinv; constructor].
  wp_step. unfold alloc_pid. wp_step. wp_step. wp_step. intros s1 r1 [= <- <-]. wp_step.
  wp_step. apply wp_on_table. wp_step. apply wp_on_table. wp_step.
  set (child := mkProcess _ _ _ _ _ _ _ _ _ _ _ _ _).
  pose proof (insert_inv (set_kmem k s) child ltac:(by destruct Hinv; constructor) Hlt eq_refl) as [Ht Hp Hn].
  apply inv_set_table; [constructor; [exact Ht|exact Hp|exact Hn]|..].
  - case_match eqn:Eq; [by eapply put_same_ok|exact Ht].
  - case_match eqn:Eq; [eapply pids_put; [exact Hp|exact Eq]|exact Hp].
Qed.

Lemma spawn_inv uc ud kstack nm elf par s s' r :
  proc_inv s -> ps_next_pid s < 2 ^ 32 - 1 ->
  spawn_from_elf uc ud kstack nm elf par s = Ret (s', r) -> proc_inv s'.
Proof.
  intros Hinv Hlt. revert s' r.
  change (wp (spawn_from_elf uc ud kstack nm elf par) (fun s' _ => proc_inv s') s).
  assert (Hk : forall k (s : pstate), proc_inv s -> proc_inv (set_kmem k s))
    by (intros k ? []; by constructor).
  assert (Hsp : forall A a (c : M (kmem * AddressSpace) string A) s,
    wp (with_space a c) (fun s' _ => exists k, s' = set_kmem k s) s).
  { intros A a c s1 s2 r. unfold with_space. destruct (c _) as [[[k a'] [v|e]]|]; [| |done].
    - intros [= <- <-]. eauto.
    - destruct (dropK a' k) as [[k' ?]|]; [|done]. intros [= <- <-]. eauto. }
  unfold spawn_from_elf. wp_step. apply wp_onK. intros k [sp|e] _; [|by apply Hk].
  wp_step. eapply wp_mono; [apply Hsp|]. intros s1 [[ld sp1]|e] [k1 ->]; [|by apply Hk, Hk].
  wp_step. wp_step. wp_step. eapply wp_mono; [apply Hsp|].
  intros s2 [[rsp sp2]|e] [k2 ->]; [|by apply Hk, Hk, Hk]. wp_step. wp_step.
  destruct (match procs _ !! par with Some p => _ | None => _ end) as [[[u g] eu] eg].
  wp_step. unfold alloc_pid. wp_step. wp_step. wp_step. intros s3 r3 [= <- <-]. wp_step.
  wp_step. apply wp_on_table. wp_step.
  apply (insert_inv (set_kmem k2 (set_kmem k1 (set_kmem k s)))); [by repeat apply Hk|done|done].
Qed.

Lemma wait_any_inv caller s s' r :
  proc_inv s -> wait_any caller s = Ret (s', r) -> proc_inv s'.
Proof.
  intros Hinv. pose proof Hinv as [Ht Hp Hn]. unfold wait_any.
  destruct (procs (ps_table s) !! caller) as [p|] eqn:Ep; [|by intros [= <- <-]].
  destruct (children_exited p) as [|[ch code] rest].
  { intros [= <- <-]. apply inv_set_table; [done|by eapply put_same_ok|by eapply pids_put]. }
  cbv zeta. set (t1 := put_proc _ _ _).
  assert (Ht1 : table_ok t1) by (by eapply put_same_ok).
  assert (Hp1 : pids_ok (ps_next_pid s) t1) by (by eapply pids_put).
  set (t2 := mkTable _ _ _). assert (Hinv2 : proc_inv (set_table t2 s)).
  { apply inv_set_table; [done| |].
    - destruct Ht1 as [Ha Hb]. constructor; simpl.
      + intros i q. rewrite lookup_delete_Some. intros [_ ?]. by apply Ha.
      + intros i q. rewrite lookup_delete_Some. intros [_ ?]. by apply Hb.
    - intros i [q Hq]. simpl in Hq. apply lookup_delete_Some in Hq as [_ Hq]. apply Hp1. eauto. }
  destruct (procs t1 !! ch) as [c|]; [|by intros [= <- <-]].
  destruct (dropK _ _) as [[k u]|]; [|done]. cbn [mbind outcome_bind]. intros [= <- <-].
  by destruct Hinv2; constructor.
Qed.

Lemma tick_inv busy frame s s' r :
  proc_inv s -> timer_tick_rust busy frame s = Ret (s', r) ->
  proc_inv s' /\ (r = inr KernelReturn \/ r = inr HltLoop -> kernel_ctx (ps_table s')).
Proof.
  intros Hinv. unfold timer_tick_rust. cbv zeta.
  destruct (tick _ _ _) as [[c x]|]; [|done]. cbn [mbind outcome_bind].
  set (s1 := set_clock c x (set_eoi true s)).
  assert (Hinv1 : proc_inv s1) by (by destruct Hinv; constructor). clearbody s1. unfold on_timer.
  destruct (deliver_pending s1) as [[s2 c2]|] eqn:Ed; [|done]. cbn [mbind outcome_bind].
  destruct (deliver_pending_ok _ _ _ (inv_table _ Hinv1) Ed) as (Ht2 & _ & Hk2).
  destruct (pids_deliver _ _ _ _ (inv_pids _ Hinv1) Ed) as [Hp2 Hn2].
  assert (Hinv2 : proc_inv s2).
  { constructor; [done|by rewrite Hn2|rewrite Hn2; apply (inv_next _ Hinv1)]. }
  destruct c2 as [c2|].
  { cbn [mbind outcome_bind]. intros [= <- <-]. split; [done|]. intros [[= ->]|[= ->]]; auto. }
  destruct (_ =? 3).
  - destruct (reschedule frame s2) as [[s3 f3]|] eqn:Er; [|done]. cbn [mbind outcome_bind].
    intros [= <- <-]. split; [|by intros []].
    pose proof (reschedule_ok _ _ _ _ (inv_table _ Hinv2) (inv_no_zero _ Hinv2) Er) as Ht3.
    destruct (pids_reschedule _ _ _ _ _ (inv_pids _ Hinv2) Er) as [Hp3 Hn3].
    constructor; simpl; [done|by rewrite Hn3|rewrite Hn3; apply (inv_next _ Hinv2)].
  - cbn [mbind outcome_bind]. intros [= <- <-]. split; [by destruct Hinv2; constructor|by intros []].
Qed.

(** ** Claims *)

(** What can happen to the processes.  Pids are 32-bit; the shell starts a
    run when no user process is running. *)
Inductive proc_step : pstate -> pstate -> Prop :=
  | do_spawn s s' uc ud kstack nm elf par r :
      ps_next_pid s < 2 ^ 32 - 1 ->
      spawn_from_elf uc ud kstack nm elf par s = Ret (s', r) -> proc_step s s'
  | do_fork s s' kstack r :
      ps_next_pid s < 2 ^ 32 - 1 -> fork kstack s = Ret (s', r) -> proc_step s s'
  | do_exit s s' code c : exit_current code s = Ret (s', c) -> proc_step s s'
  | do_wait s s' caller r : wait_any caller s = Ret (s', r) -> proc_step s s'
  | do_kill s i sig : proc_step s (set_table (kill i sig (ps_table s)).1 s)
  | do_tick s s' busy frame r : timer_tick_rust busy frame s = Ret (s', r) -> proc_step s s'
  | do_run s s' c :
      kernel_ctx (ps_table s) -> run_until_all_exit s = Ret (s', c) -> proc_step s s'
  | do_other s s' :
      ps_table s' = ps_table s -> ps_next_pid s' = ps_next_pid s -> proc_step s s'.

Lemma proc_step_inv s s' : proc_step s s' -> proc_inv s -> proc_inv s'.
Proof.
  destruct 1 as [s s' uc ud ks nm elf par r Hlt E|s s' ks r Hlt E|s s' code c E|s s' w r E
                |s i sig|s s' busy f r E|s s' c Hk E|s s' Et En]; intros Hinv.
  - by eapply spawn_inv.
  - by eapply fork_inv.
  - pose proof Hinv as [Ht Hp Hn]. destruct (exit_current_ok _ _ _ _ Ht E) as [Ht' _].
    destruct (pids_exit_current _ _ _ _ _ Hp E) as [Hp' En]. by constructor; rewrite ?En.
  - by eapply wait_any_inv.
  - pose proof Hinv as [Ht Hp Hn]. apply inv_set_table; [done|by apply kill_ok|by apply pids_kill].
  - by eapply tick_inv.
  - pose proof Hinv as [Ht Hp Hn]. destruct (schedule_next_ok (set_ret_ctx true s) _ _ Ht Hk E) as [Ht' _].
    destruct (pids_schedule _ (set_ret_ctx true s) _ _ Hp E) as [Hp' En]. by constructor; rewrite ?En.
  - destruct Hinv as [Ht Hp Hn]. constructor; by rewrite ?Et, ?En.
Qed.

(** C2.  No runnable process is ever lost: from the boot state, after any
    sequence of spawns, forks, exits, waits, kills, timer ticks (with signal
    delivery and preemption) and shell runs, a runnable process is the
    current one or waits in the queue, and every process sits under its own
    pid, which was handed out once. *)
Theorem no_runnable_lost s s' :
  ps_table s = table_new -> ps_next_pid s = 1 -> rtc proc_step s s' ->
  forall i p, procs (ps_table s') !! i = Some p ->
    pid p = i /\ 0 < i < ps_next_pid s' /\
    (is_runnable p = true -> i = current (ps_table s') \/ i ∈ runnable (ps_table s')).
Proof.
  intros Et En Hrun. assert (Hinv : proc_inv s').
  { assert (proc_inv s) as H0s.
    { constructor; rewrite ?Et, ?En; [apply table_ok_new| |lia]. intros i [p Hp]. simpl in Hp. by rewrite lookup_empty in Hp. }
    clear Et En. induction Hrun; [done|]. by eapply IHHrun, proc_step_inv. }
  destruct Hinv as [[Ha Hb] Hp _]. intros i p Hi. split_and!; [by apply Ha|apply Hp; eauto..|].
  by apply Hb.
Qed.

(** *** Preemption *)

(** The frame the timer returns to when it switches. *)
Lemma reschedule_switch frame s s' f' :
  reschedule frame s = Ret (s', f') -> current (ps_table s') <> current (ps_table s) ->
  exists p, procs (ps_table s') !! current (ps_table s') = Some p /\
    user_regs f' = user_regs (trap_frame p) /\
    km_cr3 (ps_mem s') = p4 (address_space p) /\ kernel_stack_top p = Ret (ps_rsp0 s') /\
    (forall j, j <> current (ps_table s) -> procs (ps_table s') !! j = procs (ps_table s) !! j) /\
    (current (ps_table s) <> 0 -> forall q, procs (ps_table s) !! current (ps_table s) = Some q ->
      exists q', procs (ps_table s') !! current (ps_table s) = Some q' /\ trap_frame q' = frame /\
        state q' = state q /\ address_space q' = address_space q).
Proof.
  unfold reschedule. cbv zeta. set (t1 := if negb _ then _ else _).
  assert (Ht1 : current t1 = current (ps_table s) /\
    (forall j, j <> current (ps_table s) -> procs t1 !! j = procs (ps_table s) !! j) /\
    (current (ps_table s) <> 0 -> forall q, procs (ps_table s) !! current (ps_table s) = Some q ->
    exists q', procs t1 !! current (ps_table s) = Some q' /\ trap_frame q' = frame /\
      state q' = state q /\ address_space q' = address_space q)).
  { unfold t1. destruct (Z.eqb_spec (current (ps_table s)) 0); simpl; [done|].
    destruct (procs _ !! _) as [q|] eqn:Eq; [|done].
    split; [by destruct (is_runnable q)|]. split.
    { intros j Hj. destruct (is_runnable q); simpl; by rewrite lookup_insert_ne. }
    intros _ q' [= <-]. exists (set_tf frame q).
    split; [|done]. destruct (is_runnable q); simpl; apply lookup_insert_eq. }
  destruct Ht1 as (Ec & Hother & Hsave). clearbody t1.
  destruct (pick_next t1) as [r t'] eqn:Ep. pose proof (pick_next_procs _ _ _ Ep) as Eprocs.
  assert (Ec' : current t' = current t1).
  { unfold pick_next in Ep. destruct (pick_from _ _). by injection Ep as <- <-. }
  assert (Hstay : current (ps_table (set_table t' s)) = current (ps_table s)).
  { change (current t' = current (ps_table s)). congruence. }
  destruct r as [i|]; [|by intros [= <- <-]].
  destruct (Z.eqb_spec i (current t')) as [->|Hne]; [by intros [= <- <-]|].
  cbn [procs]. destruct (procs t' !! i) as [p|] eqn:Epi; [|done]. cbn [expect mbind outcome_bind].
  destruct (kernel_stack_top p) as [ks|] eqn:Eks; [|done]. cbn [mbind outcome_bind current procs].
  rewrite Epi. intros [= <- <-] _. exists p. unfold ps_table at 1 2. simpl. split_and!; try done.
  - intros j Hj. rewrite Eprocs. by apply Hother.
  - intros Hc0 q Hq. rewrite Eprocs. exact (Hsave Hc0 q Hq).
Qed.

(** C15.  Preemption is transparent: when the timer switches away from a
    process, its registers are saved as they were; when it is switched to
    again, later and from any other process, every register, the instruction
    pointer, the flags, the stack pointer and the segments are the ones
    saved, its page table is the active one and its kernel stack is
    installed.  Switching away changes neither its state nor its memory. *)
Theorem preempt_round_trip f s s1 f1 a p :
  current (ps_table s) = a -> a <> 0 -> procs (ps_table s) !! a = Some p ->
  reschedule f s = Ret (s1, f1) -> current (ps_table s1) <> a ->
  exists p1, procs (ps_table s1) !! a = Some p1 /\ state p1 = state p /\
    address_space p1 = address_space p /\
    forall g s2 s3 g3, procs (ps_table s2) !! a = Some p1 -> current (ps_table s2) <> a ->
      reschedule g s2 = Ret (s3, g3) -> current (ps_table s3) = a ->
      user_regs g3 = user_regs f /\ km_cr3 (ps_mem s3) = p4 (address_space p) /\
      kernel_stack_top p1 = Ret (ps_rsp0 s3).
Proof.
  intros Ea Ha Hp E1 Hne.
  destruct (reschedule_switch _ _ _ _ E1) as (_ & _ & _ & _ & _ & _ & Hsave); [congruence|].
  rewrite Ea in Hsave. destruct (Hsave Ha p Hp) as (p1 & Hp1 & Etf & Est & Eas).
  exists p1. split_and!; [done..|]. intros g s2 s3 g3 Hp2 Hne2 E3 Ea3.
  destruct (reschedule_switch _ _ _ _ E3) as (p3 & Hp3 & Hregs & Hcr3 & Hks & Hother & _); [congruence|].
  rewrite Ea3, Hother, Hp2 in Hp3 by congruence. injection Hp3 as <-.
  rewrite Etf in Hregs. rewrite Eas in Hcr3. done.
Qed.

(** *** The election is round-robin *)

Definition rot1 (l : list Z) : list Z := match l with [] => [] | x :: l => l ++ [x] end.

Fixpoint reschedules (frames : list TrapFrame) (s : pstate) : outcome pstate :=
  match frames with
  | [] => Ret s
  | f :: fs => '(s, _) ← reschedule f s; reschedules fs s
  end.

(** The current process and the queue are distinct runnable processes. *)
Record ring_ok (l : list Z) (t : ProcessTable) : Prop := mkRing {
  ring_l : current t :: runnable t = l;
  ring_nz : 0 ∉ l;
  ring_live : forall i, i ∈ l -> exists p, procs t !! i = Some p /\ is_runnable p = true /\
    is_ret (kernel_stack_top p) = true
}.

Lemma reschedule_rotates l s f :
  ring_ok l (ps_table s) ->
  exists s' f', reschedule f s = Ret (s', f') /\ ring_ok (rot1 l) (ps_table s').
Proof.
  intros [El Hnz Hlive]. subst l. set (c := current (ps_table s)) in *.
  destruct (Hlive c) as (p & Hp & Hr & Hks); [by left|].
  unfold reschedule. cbv zeta. fold c.
  rewrite (proj2 (Z.eqb_neq c 0)) by (intros E; apply Hnz; rewrite E; by left). cbn [negb].
  rewrite Hp, Hr. set (m := <[c := set_tf f p]> (procs (ps_table s))).
  change (enqueue (put_proc _ c _) c) with (mkTable m (runnable (ps_table s) ++ [c]) c).
  assert (Hm : forall i, i ∈ c :: runnable (ps_table s) -> exists p, m !! i = Some p /\
    is_runnable p = true /\ is_ret (kernel_stack_top p) = true).
  { intros i Hi. destruct (decide (i = c)) as [->|Hne].
    - exists (set_tf f p). unfold m. by rewrite lookup_insert_eq.
    - unfold m. rewrite lookup_insert_ne by done. by apply Hlive. }
  assert (Hring : forall t, procs t = m -> current t :: runnable t = rot1 (c :: runnable (ps_table s)) ->
    ring_ok (rot1 (c :: runnable (ps_table s))) t).
  { intros t Et Eq. constructor; [done| |]; simpl.
    - rewrite elem_of_app, list_elem_of_singleton. rewrite elem_of_cons in Hnz. tauto.
    - rewrite Et. intros i Hi. apply Hm. rewrite elem_of_app, list_elem_of_singleton in Hi.
      rewrite elem_of_cons. tauto. }
  unfold pick_next. simpl. destruct (runnable (ps_table s)) as [|i q] eqn:Eq; simpl.
  - destruct (Hm c) as (p' & Hp' & Hr' & _); [by left|]. rewrite Hp', Hr'. simpl.
    rewrite Z.eqb_refl. eexists _, _. split; [done|]. by apply Hring.
  - destruct (Hm i) as (p' & Hp' & Hr' & Hks'); [by right; left|]. rewrite Hp', Hr'. simpl.
    destruct (Z.eqb_spec i c) as [->|Hne].
    + eexists _, _. split; [done|]. by apply Hring.
    + rewrite Hp'. cbn [expect mbind outcome_bind].
      destruct (kernel_stack_top p') as [ks|]; [|done]. cbn [mbind outcome_bind].
      eexists _, _. split; [done|]. by apply Hring.
Qed.

Lemma rot1_iter_lookup l k : (k < length l)%nat -> Nat.iter k rot1 l !! 0%nat = l !! k.
Proof.
  intros Hk. assert (Heq : Nat.iter k rot1 l = drop k l ++ take k l).
  { induction k as [|k IH]; [by rewrite drop_0, app_nil_r|]. simpl. rewrite IH by lia.
    destruct (lookup_lt_is_Some_2 l k) as [x Hx]; [lia|].
    rewrite (drop_S _ _ _ Hx), (take_S_r _ _ _ Hx). simpl. by rewrite <- app_assoc. }
  rewrite Heq, lookup_app_l by (rewrite length_drop; lia). by rewrite lookup_drop, Nat.add_0_r.
Qed.

(** C37.  Preemption is round-robin, so no runnable process starves: while the
    current process and the queued ones stay runnable, each timer election
    moves the current process to the back and runs the first of the queue,
    whatever registers the programs have; the process at position [k] runs
    after exactly [k] elections. *)
Theorem reschedule_round_robin l frames s :
  ring_ok l (ps_table s) ->
  exists s', reschedules frames s = Ret s' /\
    current (ps_table s') :: runnable (ps_table s') = Nat.iter (length frames) rot1 l /\
    ((length frames < length l)%nat -> l !! length frames = Some (current (ps_table s'))).
Proof.
  intros Hl. enough (exists s', reschedules frames s = Ret s' /\
    ring_ok (Nat.iter (length frames) rot1 l) (ps_table s')) as (s' & Es & [El _ _]).
  { exists s'. split_and!; [done|done|]. intros Hk. by rewrite <- rot1_iter_lookup, <- El. }
  revert l s Hl. induction frames as [|f fs IH]; intros l s Hl; [by exists s|].
  destruct (reschedule_rotates l s f Hl) as (s1 & f1 & E1 & H1l). cbn [reschedules]. rewrite E1. simpl.
  destruct (IH _ _ H1l) as (s2 & E2 & H2l). exists s2. split; [done|]. change (rot1 (Nat.iter (length fs) rot1 l)) with (Nat.iter (S (length fs)) rot1 l). by rewrite Nat.iter_succ_r.
Qed.

(** *** Resuming through [schedule_next] *)

(** Property.  A process that was preempted and is then resumed by [schedule_next]
    (because the running process exited) does not get its registers back: it
    continues at its saved instruction with every general register zero, so
    unless they all were zero its register file is not the one saved. *)
Theorem schedule_next_drops_registers s s' regs :
  schedule_next s = Ret (s', EnterUser regs) ->
  exists p, procs (ps_table s') !! current (ps_table s') = Some p /\
    rip regs = rip (trap_frame p) /\ rsp regs = rsp (trap_frame p) /\
    Forall (fun r => r = 0) (take 15 (user_regs regs)) /\
    (Exists (fun r => r <> 0) (take 15 (user_regs (trap_frame p))) ->
     user_regs regs <> user_regs (trap_frame p)).
Proof.
  unfold schedule_next. destruct (pick_next (ps_table s)) as [[i|] t'] eqn:Ep;
    [|by destruct (ps_ret_ctx _)].
  cbv zeta. cbn [procs]. destruct (procs t' !! i) as [p|] eqn:Ei; [|done]. cbn [expect mbind outcome_bind].
  destruct (kernel_stack_top p) as [ks|]; [|done]. cbn [mbind outcome_bind].
  intros [= <- <-]. exists p. split_and!; try done.
  - simpl. repeat constructor.
  - intros Hex Heq. rewrite <- Heq in Hex. simpl in Hex.
    repeat (apply Exists_cons in Hex as [Hex|Hex]; [done|]). by apply Exists_nil in Hex.
Qed.

(** *** Fork *)


(** *** Exit and wait *)

Lemma schedule_next_procs s s' c :
  schedule_next s = Ret (s', c) -> procs (ps_table s') = procs (ps_table s) /\ ps_eoi s' = ps_eoi s.
Proof.
  unfold schedule_next. destruct (pick_next (ps_table s)) as [r t'] eqn:Ep.
  apply pick_next_procs in Ep. destruct r as [i|].
  - cbv zeta. destruct (expect _) as [p|]; [|done]. cbn [mbind outcome_bind].
    destruct (kernel_stack_top p) as [ks|]; [|done]. cbn [mbind outcome_bind].
    intros [= <- <-]. by split.
  - destruct (ps_ret_ctx _); intros [= <- <-]; by split.
Qed.

(** What an exit leaves in the table. *)
Lemma exit_current_effect code s s' c p par :
  procs (ps_table s) !! current (ps_table s) = Some p ->
  procs (ps_table s) !! parent p = Some par -> parent p <> current (ps_table s) ->
  exit_current code s = Ret (s', c) ->
  procs (ps_table s') !! current (ps_table s) = Some (set_state (Zombie code) p) /\
  procs (ps_table s') !! parent p =
    Some (set_state (if is_sleeping par then Runnable else state par)
           (set_children (children_exited par ++ [(current (ps_table s), code)]) par)) /\
  ps_eoi s' = ps_eoi s.
Proof.
  intros Hp Hpar Hne (s1 & t1 & Et & E1 & Hs & Heoi & _)%exit_current_table.
  apply schedule_next_procs in Hs as [-> ->]. rewrite E1, Heoi. clear E1.
  unfold exit_table in Et. rewrite Hp in Et. simpl in Et. rewrite lookup_insert_ne in Et by done.
  rewrite Hpar in Et. injection Et as <-.
  change (is_sleeping (set_children _ par)) with (is_sleeping par).
  destruct (is_sleeping par) eqn:Es; simpl.
  - rewrite lookup_insert_ne, !lookup_insert_eq by done. by split_and!.
  - rewrite lookup_insert_ne, !lookup_insert_eq by done. split_and!; [done| |done]. by destruct par.
Qed.

(** C38.  Exit and wait: the exit of a process makes it a zombie with its code
    and puts (pid, code) behind the exits its parent has not collected yet,
    waking the parent if it sleeps; the parent's wait returns those in order,
    oldest first, and removes the child it returns from the table. *)
Theorem exit_then_wait code s s' c p par :
  procs (ps_table s) !! current (ps_table s) = Some p ->
  procs (ps_table s) !! parent p = Some par -> parent p <> current (ps_table s) ->
  exit_current code s = Ret (s', c) ->
  let ch := current (ps_table s) in
  exists par', procs (ps_table s') !! ch = Some (set_state (Zombie code) p) /\
    procs (ps_table s') !! parent p = Some par' /\ is_sleeping par' = false /\
    children_exited par' = children_exited par ++ [(ch, code)] /\
    (children_exited par = [] -> forall k u, dropK (address_space p) (ps_mem s') = Ret (k, u) ->
      exists s'', wait_any (parent p) s' = Ret (s'', Some (ch, code)) /\
        procs (ps_table s'') !! ch = None /\
        procs (ps_table s'') !! parent p = Some (set_children [] par')) /\
    (forall c1 v1 rest s'' r, children_exited par = (c1, v1) :: rest ->
      wait_any (parent p) s' = Ret (s'', r) -> c1 <> parent p ->
      r = Some (c1, v1) /\ procs (ps_table s'') !! c1 = None /\
      procs (ps_table s'') !! parent p = Some (set_children (rest ++ [(ch, code)]) par')).
Proof.
  intros Hp Hpar Hne Hexit. cbv zeta.
  destruct (exit_current_effect _ _ _ _ _ _ Hp Hpar Hne Hexit) as (Hz & Hpar' & _).
  eexists. split_and!; [exact Hz|exact Hpar'| |done| |].
  - unfold is_sleeping. simpl. by destruct (state par).
  - intros Hnil k u Hdrop. unfold wait_any. rewrite Hpar'. simpl. rewrite Hnil. simpl.
    rewrite lookup_insert_ne, Hz by done. change (address_space (set_state _ p)) with (address_space p).
    change (ps_mem (set_table _ s')) with (ps_mem s'). rewrite Hdrop. cbn [mbind outcome_bind].
    eexists. split; [done|]. unfold ps_table; simpl. rewrite lookup_delete_eq. split; [done|].
    rewrite lookup_delete_ne by done. by rewrite lookup_insert_eq.
  - intros c1 v1 rest s'' r Hl. unfold wait_any. rewrite Hpar'. simpl. rewrite Hl. simpl.
    intros Hw Hc1.
    destruct (<[parent p := _]> (procs (ps_table s')) !! c1) as [q|].
    + destruct (dropK _ _) as [[k u]|]; [|done]. cbn [mbind outcome_bind] in Hw. injection Hw as <- <-.
      unfold ps_table; simpl. rewrite lookup_delete_eq, lookup_delete_ne, lookup_insert_eq by done. done.
    + injection Hw as <- <-. unfold ps_table; simpl.
      rewrite lookup_delete_eq, lookup_delete_ne, lookup_insert_eq by done. done.
Qed.

(** *** Signals on the timer *)

Lemma reschedule_eoi f s s' f' : reschedule f s = Ret (s', f') -> ps_eoi s' = ps_eoi s.
Proof.
  unfold reschedule. cbv zeta. set (t1 := if negb _ then _ else _). clearbody t1.
  destruct (pick_next t1) as [[i|] t']; [|by intros [= <- <-]].
  destruct (i =? current t'); [by intros [= <- <-]|]. destruct (expect _) as [p'|]; [|done].
  cbn [mbind outcome_bind]. destruct (kernel_stack_top p') as [ks|]; [|done].
  cbn [mbind outcome_bind]. by intros [= <- <-].
Qed.

Lemma exit_current_eoi code s s' c : exit_current code s = Ret (s', c) -> ps_eoi s' = ps_eoi s.
Proof.
  intros (s1 & t1 & _ & _ & Hs & Heoi & _)%exit_current_table.
  apply schedule_next_procs in Hs as [_ ->]. done.
Qed.

(** Signal delivery leaves for good exactly when one is pending. *)
Lemma deliver_pending_spec s s' c :
  deliver_pending s = Ret (s', c) ->
  ps_eoi s' = ps_eoi s /\
  forall p, current (ps_table s) <> 0 -> procs (ps_table s) !! current (ps_table s) = Some p ->
    match signals p with
    | [] => c = None
    | sg :: q => exists c', c = Some c' /\
        exit_current (exit_code sg)
          (set_table (put_proc (ps_table s) (current (ps_table s)) (set_signals q p)) s) = Ret (s', c')
    end.
Proof.
  unfold deliver_pending, current_pid. destruct (Z.eqb_spec (current (ps_table s)) 0) as [E0|Hn].
  { intros [= <- <-]. split; [done|]. by intros p. }
  unfold table_current. destruct (procs (ps_table s) !! current (ps_table s)) as [cur|] eqn:Ec.
  2:{ intros [= <- <-]. split; [done|]. by intros p. }
  destruct (signals cur) as [|sg q] eqn:Esig; simpl.
  - intros [= <- <-]. split; [done|]. intros p _ [= <-]. by rewrite Esig.
  - destruct (exit_current _ _) as [[s1 c1]|] eqn:Ee; [|done]. cbn [mbind outcome_bind].
    intros [= <- <-]. split; [by apply exit_current_eoi in Ee|].
    intros p _ [= <-]. rewrite Esig. eauto.
Qed.

(** Property.  A signal delivered on a timer tick ends the current process, and
    then the end of the interrupt is never notified: the tick leaves for
    another context with the timer still in service, so no further tick
    comes.  A tick with no pending signal returns and notifies it. *)
Theorem timer_signal_keeps_irq busy frame s s' r :
  timer_tick_rust busy frame s = Ret (s', r) ->
  ps_eoi s' = (match r with inl _ => false | inr _ => true end) /\
  forall p, current (ps_table s) <> 0 -> procs (ps_table s) !! current (ps_table s) = Some p ->
    (signals p <> [] <-> exists c, r = inr c).
Proof.
  unfold timer_tick_rust. cbv zeta. destruct (tick _ _ _) as [[ck x]|]; [|done].
  cbn [mbind outcome_bind]. unfold on_timer.
  destruct (deliver_pending _) as [[s2 c2]|] eqn:Ed; [|done]. cbn [mbind outcome_bind].
  destruct (deliver_pending_spec _ _ _ Ed) as [Heoi Hsig].
  change (ps_eoi s2 = true) in Heoi. destruct c2 as [c2|].
  - cbn [mbind outcome_bind]. intros [= <- <-]. split; [done|]. intros p H0' Hp.
    specialize (Hsig p H0' Hp). split; [eauto|]. intros _ E. by rewrite E in Hsig.
  - assert (Hnone : forall p, current (ps_table s) <> 0 ->
      procs (ps_table s) !! current (ps_table s) = Some p -> signals p = []).
    { intros p H0' Hp. specialize (Hsig p H0' Hp). destruct (signals p); [done|].
      by destruct Hsig as (? & ? & _). }
    destruct (_ =? 3).
    + destruct (reschedule frame s2) as [[s3 f3]|]; [|done]. cbn [mbind outcome_bind].
      intros [= <- <-]. split; [done|]. intros p H0' Hp. rewrite (Hnone p H0' Hp). by split; [|intros []].
    + cbn [mbind outcome_bind]. intros [= <- <-]. split; [done|]. intros p H0' Hp.
      rewrite (Hnone p H0' Hp). by split; [|intros []].
Qed.

(** Property.  A process that has exited can exit again: the pid of the last
    process stays current when nothing else can run, so a signal sent to
    that zombie is delivered by a later timer tick, and its parent is told of
    a second exit of the same pid, with the code of the signal. *)
Theorem zombie_exits_again busy frame s s' r p par sg q code :
  current (ps_table s) <> 0 -> procs (ps_table s) !! current (ps_table s) = Some p ->
  state p = Zombie code -> signals p = sg :: q ->
  procs (ps_table s) !! parent p = Some par -> parent p <> current (ps_table s) ->
  children_exited par = [(current (ps_table s), code)] ->
  timer_tick_rust busy frame s = Ret (s', r) ->
  exists par', procs (ps_table s') !! parent p = Some par' /\
    children_exited par' = [(current (ps_table s), code); (current (ps_table s), exit_code sg)].
Proof.
  intros H0' Hp _ Hsig Hpar Hne Hch. unfold timer_tick_rust. cbv zeta.
  destruct (tick _ _ _) as [[ck x]|]; [|done]. cbn [mbind outcome_bind]. unfold on_timer.
  destruct (deliver_pending _) as [[s2 c2]|] eqn:Ed; [|done]. cbn [mbind outcome_bind].
  destruct (deliver_pending_spec _ _ _ Ed) as [_ Hd]. specialize (Hd p H0' Hp). rewrite Hsig in Hd.
  destruct Hd as (c & -> & Hexit). cbn [mbind outcome_bind]. intros [= <- <-].
  apply exit_current_effect with (p := set_signals q p) (par := par) in Hexit as (_ & Hpar' & _).
  - simpl in Hpar'. eexists. split; [exact Hpar'|]. simpl. by rewrite Hch.
  - unfold ps_table; simpl. apply lookup_insert_eq.
  - unfold ps_table; simpl. by rewrite lookup_insert_ne.
  - done.
Qed.

End correct.

(** * Concrete process runs

    Small process tables at which the theorems above are applied:
    pid 1 with two children, and a boot that spawns a first process from a
    minimal ELF image. *)

(** A mapper that accepts everything: the runs below do not depend on what
    the page tables hold. *)
#[local] Instance null_paging : X86Paging := {|
  virt_new a := Ret a;
  phys_new a := Ret a;
  containing a := a - a mod 4096;
  mapper_map_to _ _ _ _ fm := Ret (fm, Ok tt);
  mapper_unmap _ _ m := (m, Ok 0);
  mapper_update_flags _ _ _ m := (m, Ok tt);
  mapper_translate _ _ _ := NotMapped
|}.

(** Frames 0 to 31 free. *)
Definition pd_kmem : kmem :=
  mkKmem (Some (mkFA [0; 0; 0; 0] 32 0 0)) (fun _ => 0) (mkRC []) 0x1000 None None.

Definition pd_state (t : ProcessTable) (next : Z) : pstate :=
  mkP _ _ (mkI pd_kmem t ipc_new) (gfx_new None) next 0 false false clock_new execq_new.

(** ** Boot and the first process *)

(** An ELF header with no program header and an entry point. *)
Definition tiny_elf : list Z :=
  [0x7f; 69; 76; 70; 2; 1; 1; 0; 0; 0; 0; 0; 0; 0; 0; 0] ++ le_bytes 2 2 ++ le_bytes 2 62 ++
  le_bytes 4 1 ++ le_bytes 8 0x400000 ++ le_bytes 8 64 ++ le_bytes 8 0 ++ le_bytes 4 0 ++
  le_bytes 2 64 ++ le_bytes 2 56 ++ le_bytes 2 0 ++ le_bytes 2 0 ++ le_bytes 2 0 ++ le_bytes 2 0.

Definition pd_boot : pstate := pd_state table_new 1.
Definition pd1 : pstate :=
  (ret_or (pd_boot, Ok 0) (spawn_from_elf 0x33 0x2b 0x9000 [105] tiny_elf 0 pd_boot)).1.

Lemma pd_spawn : spawn_from_elf 0x33 0x2b 0x9000 [105] tiny_elf 0 pd_boot = Ret (pd1, Ok 1).
Proof. apply ret_or_snd; vm_compute; reflexivity. Qed.

Lemma pd_step : proc_step pd_boot pd1.
Proof. refine (do_spawn pd_boot pd1 _ _ _ _ _ _ (Ok 1) _ pd_spawn). simpl. lia. Qed.

Lemma pd1_proc : exists p, procs (ps_table pd1) !! 1 = Some p /\ is_runnable p = true.
Proof. vm_compute. eauto. Qed.

Lemma no_runnable_lost_witness :
  exists p, procs (ps_table pd1) !! 1 = Some p /\
    (1 = current (ps_table pd1) \/ 1 ∈ runnable (ps_table pd1)).
Proof.
  destruct pd1_proc as (p & Hp & Hr). exists p. split; [exact Hp|].
  refine (proj2 (proj2 (no_runnable_lost pd_boot pd1 eq_refl eq_refl _ 1 p Hp)) Hr).
  exact (rtc_once _ _ pd_step).
Defined.

(** ** A parent and two children *)

Definition pd_proc (i par : Z) (st : ProcessState) (sg : list Signal) (ch : list (Z * Z)) : Process :=
  mkProcess i par [] st (mkAS_ (0x10000 * i) ∅) 0x9000
    (set_rax (100 + i) (set_iret 0x400000 0x7000 0x202 0x33 0x2b tf_default)) sg ch 0 0 0 0.
Definition pd_table (cur : Z) (q : list Z) : ProcessTable :=
  mkTable {[1 := pd_proc 1 0 Runnable [] []; 2 := pd_proc 2 1 Runnable [] [];
            3 := pd_proc 3 1 Runnable [] []]} q cur.
Definition pd_s : pstate := pd_state (pd_table 2 [3; 1]) 4.
Definition pd_frame : TrapFrame :=
  set_rax 7 (set_iret 0x400010 0x6ff0 0x202 0x33 0x2b tf_default).

Definition pd_dummy : pstate * TrapFrame := (pd_s, pd_frame).
Definition pd_r1 : pstate * TrapFrame := ret_or pd_dummy (reschedule pd_frame pd_s).
Definition pd_r2 : pstate * TrapFrame := ret_or pd_dummy (reschedule pd_frame pd_r1.1).
Definition pd_r3 : pstate * TrapFrame := ret_or pd_dummy (reschedule pd_frame pd_r2.1).

Lemma pd_resched_ok f s : is_ret (reschedule f s) = true ->
  reschedule f s = Ret ((ret_or pd_dummy (reschedule f s)).1, (ret_or pd_dummy (reschedule f s)).2).
Proof. by destruct (reschedule f s) as [[]|]. Qed.

(** Two ticks bring pid 1 up, the third pid 2 again. *)
Lemma preempt_round_trip_witness : user_regs pd_r3.2 = user_regs pd_frame.
Proof.
  destruct (preempt_round_trip pd_frame pd_s pd_r1.1 pd_r1.2 2 (pd_proc 2 1 Runnable [] [])
    eq_refl ltac:(done) eq_refl (pd_resched_ok pd_frame pd_s ltac:(vm_compute; reflexivity))
    ltac:(vm_compute; done))
    as (p1 & Hp1 & _ & _ & Hback).
  apply (Hback pd_frame pd_r2.1 pd_r3.1 pd_r3.2).
  - rewrite <- Hp1. vm_compute. reflexivity.
  - vm_compute. done.
  - apply (pd_resched_ok pd_frame pd_r2.1). vm_compute. reflexivity.
  - vm_compute. reflexivity.
Defined.

Lemma reschedule_round_robin_witness :
  exists s', reschedules [pd_frame; pd_frame] pd_s = Ret s' /\ current (ps_table s') = 1.
Proof.
  destruct (reschedule_round_robin [2; 3; 1] [pd_frame; pd_frame] pd_s) as (s' & Es & _ & Hk).
  - constructor.
    + reflexivity.
    + set_solver.
    + intros i Hi. repeat (apply elem_of_cons in Hi as [->|Hi]); [..|by apply not_elem_of_nil in Hi].
      * exists (pd_proc 2 1 Runnable [] []). by vm_compute.
      * exists (pd_proc 3 1 Runnable [] []). by vm_compute.
      * exists (pd_proc 1 0 Runnable [] []). by vm_compute.
  - exists s'. split; [exact Es|]. specialize (Hk ltac:(simpl; lia)). by injection Hk.
Defined.

Definition pd_sched : pstate * control := ret_or (pd_s, HltLoop) (schedule_next pd_s).

(** Pid 3 is resumed with [rax = 0] although [rax = 103] was saved. *)
Lemma schedule_next_drops_registers_witness :
  exists regs, pd_sched.2 = EnterUser regs /\
    user_regs regs <> user_regs (trap_frame (pd_proc 3 1 Runnable [] [])).
Proof.
  assert (E : schedule_next pd_s = Ret (pd_sched.1, EnterUser
    (enter_userspace 0x400000 0x7000 0x202 0x33 0x2b))) by (apply ret_or_snd; vm_compute; reflexivity).
  eexists. split; [vm_compute; reflexivity|].
  destruct (schedule_next_drops_registers _ _ _ E) as (p & Hp & _ & _ & _ & Hne).
  assert (p = pd_proc 3 1 Runnable [] []) as ->; [|apply Hne; simpl; by left].
  vm_compute in Hp. injection Hp as <-. reflexivity.
Defined.

Definition pd_forked : pstate * result Z string := ret_or (pd_s, Ok 0) (fork 0xa000 pd_s).

Lemma pd_inv : proc_inv pd_s.
Proof.
  assert (Hdom : forall i p, procs (pd_table 2 [3; 1]) !! i = Some p ->
    pid p = i /\ i ∈ [2; 3; 1]).
  { intros i p. simpl. rewrite !lookup_insert_Some, lookup_singleton_Some.
    intros [[<- <-]|[? [[<- <-]|[? [<- <-]]]]]; (split; [done|set_solver]). }
  constructor; [|intros i [p Hp]; destruct (Hdom i p Hp) as [_ Hi]; simpl; set_solver by lia|done].
  constructor; intros i p Hp; destruct (Hdom i p Hp) as [Hpid Hi]; [done|].
  intros _. change (i = 2 \/ i ∈ [3; 1]). set_solver.
Qed.


(** ** Exit *)

Definition pd_exited : pstate * control := ret_or (pd_s, HltLoop) (exit_current 5 pd_s).

Lemma exit_then_wait_witness :
  exists s'', wait_any 1 pd_exited.1 = Ret (s'', Some (2, 5)) /\ procs (ps_table s'') !! 2 = None.
Proof.
  assert (E : exit_current 5 pd_s = Ret (pd_exited.1, EnterUser
    (enter_userspace 0x400000 0x7000 0x202 0x33 0x2b))) by (apply ret_or_snd; vm_compute; reflexivity).
  destruct (exit_then_wait 5 pd_s pd_exited.1 _ (pd_proc 2 1 Runnable [] []) (pd_proc 1 0 Runnable [] [])
    eq_refl eq_refl ltac:(done) E) as (par' & _ & _ & _ & _ & Hw & _).
  destruct (Hw eq_refl (ps_mem pd_exited.1) (Ok tt) eq_refl) as (s'' & Ew & Hn & _).
  exists s''. by split.
Defined.

(** ** Signals *)

(** Pid 2 has Term pending. *)
Definition pd_sig : pstate :=
  pd_state (mkTable {[1 := pd_proc 1 0 Runnable [] []; 2 := pd_proc 2 1 Runnable [Term] []]} [1] 2) 4.
Definition pd_ticked : pstate * (TrapFrame + control) :=
  ret_or (pd_s, inl pd_frame) (timer_tick_rust false pd_frame pd_sig).

Lemma timer_signal_keeps_irq_witness : ps_eoi pd_ticked.1 = true.
Proof.
  assert (E : timer_tick_rust false pd_frame pd_sig = Ret (pd_ticked.1, inr (EnterUser
    (enter_userspace 0x400000 0x7000 0x202 0x33 0x2b)))) by (apply ret_or_snd; vm_compute; reflexivity).
  exact (proj1 (timer_signal_keeps_irq _ _ _ _ _ E)).
Defined.

(** Pid 2 is a zombie, still current, and has Term pending. *)
Definition pd_zombie : pstate :=
  pd_state (mkTable {[1 := pd_proc 1 0 Sleeping [] [(2, 5)]; 2 := pd_proc 2 1 (Zombie 5) [Term] []]}
    [] 2) 4.
Definition pd_again : pstate * (TrapFrame + control) :=
  ret_or (pd_s, inl pd_frame) (timer_tick_rust false pd_frame pd_zombie).

Lemma zombie_exits_again_witness :
  exists par', procs (ps_table pd_again.1) !! 1 = Some par' /\
    children_exited par' = [(2, 5); (2, exit_code Term)].
Proof.
  assert (E : timer_tick_rust false pd_frame pd_zombie = Ret (pd_again.1, inr (EnterUser
    (enter_userspace 0x400000 0x7000 0x202 0x33 0x2b)))) by (apply ret_or_snd; vm_compute; reflexivity).
  apply (zombie_exits_again false pd_frame pd_zombie _ _ (pd_proc 2 1 (Zombie 5) [Term] [])
    (pd_proc 1 0 Sleeping [] [(2, 5)]) Term [] 5 ltac:(done) eq_refl eq_refl eq_refl eq_refl
    ltac:(done) eq_refl E).
Defined.
