(* ===== verification/Ports.v ===== *)
(** * I/O ports

    The [in] and [out] instructions, reached through the x86_64 crate's
    [Port]: what a device does with an access is the hardware's, so a
    machine is a class of four functions on a device state. *)

From S2P Require Import Prelude.
Local Open Scope Z_scope.

Class Ports (D : Type) := {
  p_in8 : Z -> D -> D * Z;
  p_out8 : Z -> Z -> D -> D;
  p_in16 : Z -> D -> D * Z;
  p_out16 : Z -> Z -> D -> D;
  p_in32 : Z -> D -> D * Z;
  p_out32 : Z -> Z -> D -> D;
}.

Section ports.
Context {D : Type} `{Ports D} {E : Type}.

Definition in8 (port : Z) : M D E Z := fun d => let '(d', v) := p_in8 port d in Ret (d', Ok v).
Definition in16 (port : Z) : M D E Z := fun d => let '(d', v) := p_in16 port d in Ret (d', Ok v).
Definition in32 (port : Z) : M D E Z := fun d => let '(d', v) := p_in32 port d in Ret (d', Ok v).
Definition out8 (port v : Z) : M D E unit := fun d => Ret (p_out8 port v d, Ok tt).
Definition out16 (port v : Z) : M D E unit := fun d => Ret (p_out16 port v d, Ok tt).
Definition out32 (port v : Z) : M D E unit := fun d => Ret (p_out32 port v d, Ok tt).

End ports.
