(* ===== verification/BlockDev.v ===== *)
(** * Block devices

    What the file systems and the persistent state ask of a disk: reads and
    writes of 512-byte sectors, as [ata::read] and [ata::write] offer them.
    The laws say what a successful call does; a call may always fail. *)

From S2P Require Import Prelude.
Local Open Scope Z_scope.

Class BlockDev (D : Type) := {
  bd_read : Z -> Z -> Z -> list Z -> M D string (list Z);
  bd_write : Z -> Z -> Z -> list Z -> M D string unit;
}.

(** The bytes of [n] sectors from [lba] on. *)
Definition sectors_of (disk : Z -> list Z) (lba : Z) (n : nat) : list Z :=
  concat ((fun k => disk (lba + k)) <$> seqZ 0 (Z.of_nat n)).

(** A transfer a [u8] count and a 28-bit address can express. *)
Definition lba_range (lba count : Z) : Prop := 0 < count < 256 /\ 0 <= lba /\ lba + count <= 2 ^ 28.

Class BlockDevLaws (D : Type) `{BlockDev D} := {
  (** the contents of disk [i], and the disks that answer *)
  bd_disk : D -> Z -> Z -> list Z;
  bd_ready : D -> Z -> Prop;
  bd_sector_ok : forall d i l, bd_ready d i -> lenZ (bd_disk d i l) = 512 /\ bytes_ok (bd_disk d i l);
  bd_read_ok : forall d i lba count buf,
    bd_ready d i -> lba_range lba count -> count * 512 <= lenZ buf ->
    exists d', bd_read i lba count buf d =
        Ret (d', Ok (sectors_of (bd_disk d i) lba (Z.to_nat count) ++ drop (Z.to_nat (count * 512)) buf)) /\
      (forall j l, bd_disk d' j l = bd_disk d j l) /\ (forall j, bd_ready d j -> bd_ready d' j);
  bd_write_ok : forall d i lba count buf,
    bd_ready d i -> lba_range lba count -> count * 512 <= lenZ buf -> bytes_ok buf ->
    exists d', bd_write i lba count buf d = Ret (d', Ok tt) /\
      (forall j l, bd_disk d' j l =
         if bool_decide (j = i /\ lba <= l < lba + count)
         then take 512 (drop (Z.to_nat ((l - lba) * 512)) buf) else bd_disk d j l) /\
      (forall j, bd_ready d j -> bd_ready d' j);
}.

Lemma length_sectors_of disk lba n :
  (forall l, lenZ (disk l) = 512) -> lenZ (sectors_of disk lba n) = Z.of_nat n * 512.
Proof.
  intros Hd. unfold sectors_of. generalize 0 at 1 as k.
  induction n as [|n IH]; intros k; [done|]. rewrite seqZ_cons by lia.
  cbn [fmap list_fmap concat]. rewrite lenZ_app, Hd.
  replace (Z.pred (Z.of_nat (S n))) with (Z.of_nat n) by lia. rewrite IH. lia.
Qed.

Lemma sectors_of_ok disk lba n :
  (forall l, bytes_ok (disk l)) -> bytes_ok (sectors_of disk lba n).
Proof.
  intros Hd. unfold sectors_of. generalize (seqZ 0 (Z.of_nat n)) as ks.
  induction ks as [|k ks IH]; [constructor|]. cbn [fmap list_fmap concat].
  apply bytes_ok_app. auto.
Qed.

(** The sectors that a buffer was written to hold the buffer. *)
Lemma sectors_of_written disk lba n buf :
  (forall k, 0 <= k < Z.of_nat n -> disk (lba + k) = take 512 (drop (Z.to_nat (k * 512)) buf)) ->
  lenZ buf = Z.of_nat n * 512 -> sectors_of disk lba n = buf.
Proof.
  intros Hd Hl. unfold sectors_of.
  assert (H : forall m k, 0 <= k -> k + Z.of_nat m = Z.of_nat n ->
    concat ((fun k => disk (lba + k)) <$> seqZ k (Z.of_nat m)) = drop (Z.to_nat (k * 512)) buf).
  { induction m as [|m IH]; intros k Hk Hm.
    - symmetry. apply drop_ge. unfold lenZ in Hl. lia.
    - rewrite seqZ_cons by lia. cbn [fmap list_fmap concat]. rewrite Hd by lia.
      replace (Z.pred (Z.of_nat (S m))) with (Z.of_nat m) by lia. unfold Z.succ.
      rewrite IH by lia. replace (Z.to_nat ((k + 1) * 512)) with (Z.to_nat (k * 512) + 512)%nat by lia.
      rewrite <- drop_drop. apply take_drop. }
  rewrite (H n 0) by lia. done.
Qed.
