(* ===== verification/Ata.v ===== *)
(** * drivers/ata.rs: ATA disks, programmed I/O

    The port protocol of src/kernel/src/drivers/ata.rs over a class of
    ports: drive selection, polling, IDENTIFY, reads and writes of sectors,
    and the table of detected disks.  A loop that polls without a bound
    takes a fuel; its error [tt] means that it still polls when the fuel
    ends. *)

From S2P Require Import Prelude Str Ports BlockDev.
Local Open Scope Z_scope.

Definition SECTOR_SIZE : Z := 512.
Definition CMD_IDENTIFY : Z := 0xEC.
Definition CMD_READ_SECTORS : Z := 0x20.
Definition CMD_WRITE_SECTORS : Z := 0x30.
Definition ST_ERR : Z := 1.
Definition ST_DRQ : Z := 8.
Definition ST_DF : Z := 32.
Definition ST_DRDY : Z := 64.
Definition ST_BSY : Z := 128.

Inductive Bus := Primary | Secondary.
Inductive Drive := Master | Slave.
#[export] Instance Bus_eq_dec : EqDecision Bus.
Proof. solve_decision. Defined.
#[export] Instance Drive_eq_dec : EqDecision Drive.
Proof. solve_decision. Defined.

Record AtaChannel := mkChannel { io_base : Z; ctrl_base : Z }.

Definition channel_new (bus : Bus) : AtaChannel :=
  match bus with
  | Primary => mkChannel 0x1F0 0x3F6
  | Secondary => mkChannel 0x170 0x376
  end.

(** The registers: offsets from the I/O base. *)
Definition r_data (c : AtaChannel) : Z := io_base c + 0.
Definition r_sector_cnt (c : AtaChannel) : Z := io_base c + 2.
Definition r_lba_lo (c : AtaChannel) : Z := io_base c + 3.
Definition r_lba_mid (c : AtaChannel) : Z := io_base c + 4.
Definition r_lba_hi (c : AtaChannel) : Z := io_base c + 5.
Definition r_drive_head (c : AtaChannel) : Z := io_base c + 6.
Definition r_status (c : AtaChannel) : Z := io_base c + 7.
Definition r_command (c : AtaChannel) : Z := io_base c + 7.

Record Disk := mkDisk { bus : Bus; drive : Drive; model : str; serial : str; sectors : Z }.

Section ata.
Context {D : Type} `{Ports D}.

Definition io_wait {E} (c : AtaChannel) : M D E unit :=
  _ ← in8 (ctrl_base c); _ ← in8 (ctrl_base c); _ ← in8 (ctrl_base c); _ ← in8 (ctrl_base c);
  mok tt.

(** The 100 000 polls of [wait_drq] and [wait_ready], which wait for a bit
    of the status once BSY, ERR and DF are clear. *)
Fixpoint wait_bit (c : AtaChannel) (bit : Z) (timeout : string) (n : nat) : M D string unit :=
  match n with
  | O => mfail timeout
  | S n' =>
      v ← in8 (r_status c);
      if bool_decide (Z.land v ST_BSY <> 0) then wait_bit c bit timeout n'
      else if bool_decide (Z.land v (Z.lor ST_ERR ST_DF) <> 0) then mfail "ATA: ERR/DF"%string
      else if bool_decide (Z.land v bit <> 0) then mok tt
      else wait_bit c bit timeout n'
  end.
Definition POLLS : nat := N.to_nat 100000.
Definition wait_drq (c : AtaChannel) : M D string unit :=
  wait_bit c ST_DRQ "ATA: timeout wait_drq" POLLS.
Definition wait_ready (c : AtaChannel) : M D string unit :=
  wait_bit c ST_DRDY "ATA: timeout wait_ready" POLLS.

Definition select_drive {E} (c : AtaChannel) (dr : Drive) (lba_high_nibble : Z) : M D E unit :=
  let sel := Z.lor (Z.lor 0xE0 (Z.shiftl (if decide (dr = Slave) then 1 else 0) 4))
                   (Z.land lba_high_nibble 0x0F) in
  _ ← out8 (r_drive_head c) sel;
  io_wait c.

(** IDENTIFY: the two unbounded polls. *)
Fixpoint while_busy (c : AtaChannel) (fuel : nat) : M D unit unit :=
  match fuel with
  | O => mfail tt
  | S f => v ← in8 (r_status c);
           if bool_decide (Z.land v ST_BSY <> 0) then while_busy c f else mok tt
  end.
Fixpoint until_drq (c : AtaChannel) (fuel : nat) : M D unit bool :=
  match fuel with
  | O => mfail tt
  | S f => v ← in8 (r_status c);
           if bool_decide (Z.land v ST_ERR <> 0) then mok false
           else if bool_decide (Z.land v ST_DRQ <> 0) then mok true
           else until_drq c f
  end.

Fixpoint read_words {E} (c : AtaChannel) (n : nat) : M D E (list Z) :=
  match n with
  | O => mok []
  | S n' => w ← in16 (r_data c); ws ← read_words c n'; mok (w :: ws)
  end.

Definition identify (fuel : nat) (c : AtaChannel) (dr : Drive) : M D unit (option (list Z)) :=
  _ ← select_drive c dr 0;
  _ ← out8 (r_sector_cnt c) 0; _ ← out8 (r_lba_lo c) 0;
  _ ← out8 (r_lba_mid c) 0; _ ← out8 (r_lba_hi c) 0;
  _ ← out8 (r_command c) CMD_IDENTIFY;
  _ ← io_wait c;
  v0 ← in8 (r_status c);
  if bool_decide (v0 = 0) then mok None else
  _ ← while_busy c fuel;
  mi ← in8 (r_lba_mid c);
  other ← (if bool_decide (mi <> 0) then mok true
           else hi ← in8 (r_lba_hi c); mok (bool_decide (hi <> 0)));
  if (other : bool) then mok None else
  ready ← until_drq c fuel;
  if (ready : bool) then ws ← read_words c 256; mok (Some ws) else mok None.

(** The register writes that [read_sectors] and [write_sectors] share. *)
Definition setup_transfer (c : AtaChannel) (dr : Drive) (lba count cmd : Z) : M D string unit :=
  _ ← select_drive c dr (Z.land (Z.shiftr lba 24) 0x0F);
  _ ← out8 (r_sector_cnt c) count;
  _ ← out8 (r_lba_lo c) (Z.land lba 0xFF);
  _ ← out8 (r_lba_mid c) (Z.land (Z.shiftr lba 8) 0xFF);
  _ ← out8 (r_lba_hi c) (Z.land (Z.shiftr lba 16) 0xFF);
  out8 (r_command c) cmd.

(** One word of a sector into the buffer, and out of it. *)
Definition read_word (c : AtaChannel) (off i : Z) (buf : list Z) : M D string (list Z) :=
  w ← in16 (r_data c);
  b1 ← mlift (idx_set buf (off + i * 2) (Z.land w 0xFF));
  mlift (idx_set b1 (off + i * 2 + 1) (Z.shiftr w 8)).
Definition write_word (c : AtaChannel) (off i : Z) (buf : list Z) : M D string unit :=
  lo ← mlift (idx buf (off + i * 2));
  hi ← mlift (idx buf (off + i * 2 + 1));
  out16 (r_data c) (Z.lor lo (Z.shiftl hi 8)).

(** A loop that carries a buffer. *)
Fixpoint loop_buf (f : Z -> list Z -> M D string (list Z)) (ks : list Z) (buf : list Z) : M D string (list Z) :=
  match ks with
  | [] => mok buf
  | i :: ks' => b ← f i buf; loop_buf f ks' b
  end.

Definition read_sector (c : AtaChannel) (s : Z) (buf : list Z) : M D string (list Z) :=
  _ ← wait_drq c;
  loop_buf (read_word c (s * SECTOR_SIZE)) (seqZ 0 256) buf.

Definition read_sectors (c : AtaChannel) (dr : Drive) (lba count : Z) (buf : list Z) :
    M D string (list Z) :=
  if bool_decide (count = 0) then mok buf else
  if bool_decide (lenZ buf < count * SECTOR_SIZE) then mfail "buf trop petit"%string else
  if bool_decide (Z.land lba 0xF0000000 <> 0) then mfail "LBA28 overflow"%string else
  _ ← setup_transfer c dr lba count CMD_READ_SECTORS;
  loop_buf (read_sector c) (seqZ 0 count) buf.

Definition write_sectors (c : AtaChannel) (dr : Drive) (lba count : Z) (buf : list Z) :
    M D string unit :=
  if bool_decide (count = 0) then mok tt else
  if bool_decide (lenZ buf < count * SECTOR_SIZE) then mfail "buf trop petit"%string else
  if bool_decide (Z.land lba 0xF0000000 <> 0) then mfail "LBA28 overflow"%string else
  _ ← setup_transfer c dr lba count CMD_WRITE_SECTORS;
  _ ← mfor (seqZ 0 count) (fun s =>
        _ ← wait_drq c;
        mfor (seqZ 0 256) (fun i => write_word c (s * SECTOR_SIZE) i buf));
  _ ← out8 (r_command c) 0xE7;
  wait_ready c.

(** Two characters per word, high byte first. *)
Definition words_to_string (words : list Z) : str :=
  trim (concat ((fun w => encode_char (Z.land (Z.shiftr w 8) 0xFF) ++ encode_char (Z.land w 0xFF)) <$> words)).

(** The disk that an IDENTIFY block describes. *)
Definition disk_of (b : Bus) (dr : Drive) (id : list Z) : outcome Disk :=
  se ← slice id 10 20;
  mo ← slice id 27 47;
  i60 ← idx id 60; i61 ← idx id 61;
  i100 ← idx id 100; i101 ← idx id 101; i102 ← idx id 102; i103 ← idx id 103;
  let lba28 := Z.lor i60 (Z.shiftl i61 16) in
  let lba48 := Z.lor (Z.lor (Z.lor i100 (Z.shiftl i101 16)) (Z.shiftl i102 32)) (Z.shiftl i103 48) in
  let secs := if bool_decide (lba48 <> 0) then lba48 else lba28 in
  _ ← secs *! 512 @ 64;
  Ret (mkDisk b dr (words_to_string mo) (words_to_string se) secs).

(** The driver's state: the machine and [DISKS]. *)
Record ata := mkAta { a_hw : D; a_disks : option (list Disk) }.

Definition on_hw {E A} (c : M D E A) : M ata E A :=
  zoom a_hw (fun d a => mkAta d (a_disks a)) c.

Fixpoint scan (fuel : nat) (l : list (Bus * Drive)) (found : list Disk) : M ata unit (list Disk) :=
  match l with
  | [] => mok found
  | (b, dr) :: l' =>
      r ← on_hw (identify fuel (channel_new b) dr);
      match r with
      | Some id => k ← mlift (disk_of b dr id); scan fuel l' (found ++ [k])
      | None => scan fuel l' found
      end
  end.

Definition ata_init (fuel : nat) : M ata unit unit :=
  found ← scan fuel [(Primary, Master); (Primary, Slave); (Secondary, Master); (Secondary, Slave)] [];
  modify (fun a => mkAta (a_hw a) (Some (default found (a_disks a)))).

(** The disk number [i], or the error of [read] and [write]. *)
Definition get_disk (i : Z) : M ata string Disk :=
  a ← mget;
  match a_disks a with
  | None => mfail "ata non initialisé"%string
  | Some l => match l !! Z.to_nat i with
              | Some k => mok k
              | None => mfail "disque introuvable"%string
              end
  end.

Definition ata_read (i lba count : Z) (buf : list Z) : M ata string (list Z) :=
  k ← get_disk i;
  on_hw (read_sectors (channel_new (bus k)) (drive k) lba count buf).

Definition ata_write (i lba count : Z) (buf : list Z) : M ata string unit :=
  k ← get_disk i;
  on_hw (write_sectors (channel_new (bus k)) (drive k) lba count buf).

End ata.
Arguments ata : clear implicits.

#[export] Instance ata_blockdev {D} `{Ports D} : BlockDev (ata D) := {|
  bd_read := ata_read;
  bd_write := ata_write;
|}.

(** * The ATA driver on a drive

    A drive that follows the PIO protocol of ATA/ATAPI-6 (READ SECTORS,
    WRITE SECTORS, FLUSH CACHE, IDENTIFY DEVICE) as the master of the
    primary channel: a machine for the driver above to run on.  The
    driver over this machine is a block device: what it reads is what the
    sectors hold, and what it writes is what they hold afterwards. *)


(** ** The machine *)

(** What the data register is transferring. *)
Inductive xfer :=
| Idle
| Rd (words : list Z)
| Wr (lba : Z) (left_ : nat) (acc : list Z).

Record ide := mkIde {
  media : Z -> list Z;
  sc : Z; lo : Z; mid : Z; hi : Z; dh : Z;
  xf : xfer;
}.

(** 16-bit little-endian words and bytes. *)
Fixpoint words_of (l : list Z) : list Z :=
  match l with
  | a :: b :: r => (a + 256 * b) :: words_of r
  | _ => []
  end.
Definition bytes_of (ws : list Z) : list Z := concat (le_bytes 2 <$> ws).

Definition slave_selected (d : ide) : bool := Z.testbit (dh d) 4.
Definition lba_regs (d : ide) : Z :=
  lo d + 2 ^ 8 * mid d + 2 ^ 16 * hi d + 2 ^ 24 * Z.land (dh d) 15.
Definition count_reg (d : ide) : Z := if bool_decide (sc d = 0) then 256 else sc d.

(** DRDY and DSC, with DRQ during a transfer; an absent slave reads 0. *)
Definition ide_status (d : ide) : Z :=
  if slave_selected d then 0 else match xf d with Idle => 0x50 | _ => 0x58 end.

Definition set_xf (x : xfer) (d : ide) : ide :=
  mkIde (media d) (sc d) (lo d) (mid d) (hi d) (dh d) x.

Definition rd_state (ws : list Z) : xfer := match ws with [] => Idle | _ => Rd ws end.

Definition ide_command (cmd : Z) (d : ide) : ide :=
  if slave_selected d then d
  else if bool_decide (cmd = 0x20)
  then set_xf (rd_state (words_of (sectors_of (media d) (lba_regs d) (Z.to_nat (count_reg d))))) d
  else if bool_decide (cmd = 0x30) then set_xf (Wr (lba_regs d) (Z.to_nat (count_reg d)) []) d
  else if bool_decide (cmd = 0xEC) then set_xf (Rd (replicate 256 0)) d
  else set_xf Idle d.

Definition ide_out16 (v : Z) (d : ide) : ide :=
  match xf d with
  | Wr lba (S n) acc =>
      let acc' := acc ++ [v] in
      if bool_decide (length acc' = 256%nat) then
        mkIde (fun l => if bool_decide (l = lba) then bytes_of acc' else media d l)
          (sc d) (lo d) (mid d) (hi d) (dh d)
          (match n with O => Idle | _ => Wr (lba + 1) n [] end)
      else set_xf (Wr lba (S n) acc') d
  | _ => d
  end.

Definition ide_out8 (port v : Z) (d : ide) : ide :=
  if bool_decide (port = 0x1F7) then ide_command v d
  else if bool_decide (port = 0x1F2) then mkIde (media d) v (lo d) (mid d) (hi d) (dh d) (xf d)
  else if bool_decide (port = 0x1F3) then mkIde (media d) (sc d) v (mid d) (hi d) (dh d) (xf d)
  else if bool_decide (port = 0x1F4) then mkIde (media d) (sc d) (lo d) v (hi d) (dh d) (xf d)
  else if bool_decide (port = 0x1F5) then mkIde (media d) (sc d) (lo d) (mid d) v (dh d) (xf d)
  else if bool_decide (port = 0x1F6) then mkIde (media d) (sc d) (lo d) (mid d) (hi d) v (xf d)
  else d.

Definition ide_in8 (port : Z) (d : ide) : Z :=
  if bool_decide (port = 0x1F7 \/ port = 0x3F6) then ide_status d
  else if bool_decide (port = 0x1F2) then sc d
  else if bool_decide (port = 0x1F3) then lo d
  else if bool_decide (port = 0x1F4) then mid d
  else if bool_decide (port = 0x1F5) then hi d
  else if bool_decide (port = 0x1F6) then dh d
  else 0.

Definition ide_in16 (d : ide) : ide * Z :=
  match xf d with
  | Rd (w :: ws) => (set_xf (rd_state ws) d, w)
  | _ => (d, 0)
  end.

#[export] Instance ide_ports : Ports ide := {|
  p_in8 port d := (d, ide_in8 port d);
  p_out8 := ide_out8;
  p_in16 port d := if bool_decide (port = 0x1F0) then ide_in16 d else (d, 0);
  p_out16 port v d := if bool_decide (port = 0x1F0) then ide_out16 v d else d;
  p_in32 port d := (d, 0);
  p_out32 port v d := d;
|}.

(** ** The driver's steps on it *)

Abbreviation chan := (channel_new Primary).

Lemma lba_recompose lba :
  fits 28 lba ->
  Z.land lba 255 + 2 ^ 8 * Z.land (Z.shiftr lba 8) 255 + 2 ^ 16 * Z.land (Z.shiftr lba 16) 255
    + 2 ^ 24 * Z.land (Z.shiftr lba 24) 15 = lba.
Proof.
  unfold fits. intros Hl. change 255 with (Z.ones 8). change 15 with (Z.ones 4).
  rewrite !Z.land_ones, !Z.shiftr_div_pow2 by lia.
  rewrite (Z.mod_small (lba / 2 ^ 24)).
  2:{ split; [apply Z.div_pos; lia|apply Z.div_lt_upper_bound; lia]. }
  change (2 ^ 16) with (2 ^ 8 * 2 ^ 8). change (2 ^ 24) with (2 ^ 8 * 2 ^ 8 * 2 ^ 8).
  rewrite <- !Z.div_div by lia.
  pose proof (Z.div_mod lba (2 ^ 8) ltac:(lia)).
  pose proof (Z.div_mod (lba / 2 ^ 8) (2 ^ 8) ltac:(lia)).
  pose proof (Z.div_mod (lba / 2 ^ 8 / 2 ^ 8) (2 ^ 8) ltac:(lia)). lia.
Qed.

Lemma sel_master n :
  let sel := Z.lor (Z.lor 0xE0 (Z.shiftl 0 4)) (Z.land n 15) in
  Z.testbit sel 4 = false /\ Z.land sel 15 = Z.land n 15.
Proof.
  cbv zeta. change (Z.lor 0xE0 (Z.shiftl 0 4)) with 224. split.
  - rewrite Z.lor_spec, Z.land_spec. change (Z.testbit 15 4) with false.
    change (Z.testbit 224 4) with false. by rewrite andb_false_r.
  - rewrite Z.land_lor_distr_l, <- Z.land_assoc. done.
Qed.

(** The registers of a transfer for the master. *)
Definition transfer_regs (lba count : Z) (d : ide) : ide :=
  mkIde (media d) count (Z.land lba 255) (Z.land (Z.shiftr lba 8) 255) (Z.land (Z.shiftr lba 16) 255)
    (Z.lor (Z.lor 0xE0 (Z.shiftl 0 4)) (Z.land (Z.land (Z.shiftr lba 24) 15) 15)) (xf d).

Lemma setup_transfer_ide lba count cmd d :
  setup_transfer chan Master lba count cmd d = Ret (ide_command cmd (transfer_regs lba count d), Ok tt).
Proof. destruct d. reflexivity. Qed.

Lemma transfer_regs_master lba count d : slave_selected (transfer_regs lba count d) = false.
Proof. apply (sel_master (Z.land (Z.shiftr lba 24) 15)). Qed.

Lemma transfer_regs_lba lba count d : fits 28 lba -> lba_regs (transfer_regs lba count d) = lba.
Proof.
  intros Hl. unfold lba_regs, transfer_regs. cbn [lo mid hi dh].
  destruct (sel_master (Z.land (Z.shiftr lba 24) 15)) as [_ ->].
  rewrite <- Z.land_assoc. by apply lba_recompose.
Qed.

Lemma POLLS_pos : exists n, POLLS = S n.
Proof. exists (pred POLLS). unfold POLLS. lia. Qed.

Lemma wait_drq_ide d :
  slave_selected d = false -> xf d <> Idle -> wait_drq chan d = Ret (d, Ok tt).
Proof.
  intros Hs Hx. unfold wait_drq. destruct POLLS_pos as [n ->].
  unfold wait_bit, mbind, M_bind, mbindM, in8, p_in8, ide_ports.
  change (ide_in8 (r_status chan) d) with (ide_status d).
  unfold ide_status. rewrite Hs. by destruct (xf d).
Qed.

Lemma wait_ready_ide d :
  slave_selected d = false -> wait_ready chan d = Ret (d, Ok tt).
Proof.
  intros Hs. unfold wait_ready. destruct POLLS_pos as [n ->].
  unfold wait_bit, mbind, M_bind, mbindM, in8, p_in8, ide_ports.
  change (ide_in8 (r_status chan) d) with (ide_status d).
  unfold ide_status. rewrite Hs. by destruct (xf d).
Qed.

(** ** Reading *)

Definition word_ok (w : Z) : Prop := 0 <= w < 65536.

Lemma word_low w : Z.land w 0xFF = w mod 256.
Proof. change 0xFF with (Z.ones 8). by rewrite Z.land_ones. Qed.
Lemma word_high w : word_ok w -> Z.shiftr w 8 = w / 256 mod 256.
Proof.
  unfold word_ok. intros. rewrite Z.shiftr_div_pow2 by lia. change (2 ^ 8) with 256.
  rewrite Z.mod_small; [done|]. split; [apply Z.div_pos; lia|apply Z.div_lt_upper_bound; lia].
Qed.

Lemma insert2 {A} (l : list A) n x y :
  (S n < length l)%nat -> <[S n := y]> (<[n := x]> l) = take n l ++ [x; y] ++ drop (n + 2) l.
Proof.
  intros Hn. rewrite (insert_take_drop l n) by lia.
  rewrite (insert_app_r_alt _ _ (S n)) by (rewrite length_take; lia).
  rewrite length_take, Nat.min_l by lia. replace (S n - n)%nat with 1%nat by lia. f_equal.
  destruct (drop (S n) l) as [|z r] eqn:E.
  { apply (f_equal length) in E. rewrite length_drop in E. simpl in E. lia. }
  simpl. do 2 f_equal. replace (n + 2)%nat with (S n + 1)%nat by lia.
  by rewrite <- drop_drop, E.
Qed.

Lemma read_word_ide d w ws off i b :
  xf d = Rd (w :: ws) -> word_ok w -> 0 <= off -> 0 <= i -> off + i * 2 + 1 < lenZ b ->
  read_word chan off i b d =
    Ret (set_xf (rd_state ws) d,
         Ok (take (Z.to_nat (off + i * 2)) b ++ le_bytes 2 w ++ drop (Z.to_nat (off + i * 2) + 2) b)).
Proof.
  intros Hx Hw Ho Hi Hl. unfold read_word.
  rewrite (mbindM_Ret _ _ d (set_xf (rd_state ws) d) w).
  2:{ unfold in16, p_in16, ide_ports. change (bool_decide (r_data chan = 0x1F0)) with true.
      unfold ide_in16. by rewrite Hx. }
  unfold mbind, M_bind, mbindM, mlift. rewrite idx_set_in_range by lia.
  rewrite idx_set_in_range by (rewrite lenZ_insert; lia).
  replace (Z.to_nat (off + i * 2 + 1)) with (S (Z.to_nat (off + i * 2))) by lia.
  rewrite insert2 by (unfold lenZ in Hl; lia). cbn [le_bytes].
  by rewrite word_low, word_high.
Qed.

(** The words of one sector, word by word, make a splice. *)
Lemma read_loop_ide ws rest off k b d :
  Forall word_ok ws -> xf d = rd_state (ws ++ rest) -> 0 <= off -> 0 <= k ->
  off + (k + lenZ ws) * 2 <= lenZ b ->
  loop_buf (read_word chan off) (seqZ k (lenZ ws)) b d =
    Ret (set_xf (rd_state rest) d,
         Ok (take (Z.to_nat (off + k * 2)) b ++ bytes_of ws ++ drop (Z.to_nat (off + (k + lenZ ws) * 2)) b)).
Proof.
  intros Hws. revert k b d. induction Hws as [|w ws Hw Hws IH]; intros k b d Hx Ho Hk Hl.
  { rewrite lenZ_nil, Z.add_0_r. cbn [seqZ Z.to_nat seq fmap list_fmap loop_buf].
    unfold bytes_of. simpl. rewrite take_drop. destruct d. simpl in *. by subst. }
  rewrite lenZ_cons in *. pose proof (lenZ_nonneg ws). rewrite seqZ_cons by lia.
  cbn [loop_buf]. erewrite mbindM_Ret; [|apply read_word_ide; [exact Hx|done|lia..]].
  replace (Z.pred (1 + lenZ ws)) with (lenZ ws) by lia. unfold Z.succ.
  rewrite IH; [|done|lia|lia|].
  2:{ rewrite !lenZ_app. unfold lenZ in *. rewrite length_take, length_le_bytes, length_drop. lia. }
  do 3 f_equal.
  set (n := Z.to_nat (off + k * 2)). replace (Z.to_nat (off + (k + 1) * 2)) with (n + 2)%nat by lia.
  rewrite (app_assoc (take n b)), take_app_length'.
  2:{ rewrite length_app, length_take, length_le_bytes. unfold lenZ in *. lia. }
  rewrite <- app_assoc. f_equal. unfold bytes_of. cbn [fmap list_fmap concat].
  rewrite <- (app_assoc (le_bytes 2 w)). do 2 f_equal.
  rewrite drop_app_ge by (rewrite length_app, length_take, length_le_bytes; unfold lenZ in *; lia).
  rewrite drop_drop, length_app, length_take, length_le_bytes. f_equal. unfold lenZ in *. lia.
Qed.

Lemma words_of_app a b : lenZ a mod 2 = 0 -> words_of (a ++ b) = words_of a ++ words_of b.
Proof.
  remember (length a) as n eqn:Hn. revert a Hn.
  induction n as [n IH] using lt_wf_ind. intros a -> Ha.
  destruct a as [|x [|y a]]; [done|done|]. simpl. f_equal. apply (IH (length a)); [simpl; lia|done|].
  rewrite !lenZ_cons in Ha. replace (1 + (1 + lenZ a)) with (lenZ a + 1 * 2) in Ha by lia.
  by rewrite Z_mod_plus_full in Ha.
Qed.

Lemma words_of_ok l : bytes_ok l -> Forall word_ok (words_of l).
Proof.
  remember (length l) as n eqn:Hn. revert l Hn.
  induction n as [n IH] using lt_wf_ind. intros l -> Hl.
  destruct l as [|x [|y l]]; [constructor..|].
  apply Forall_cons in Hl as [Hx [Hy Hl]%Forall_cons]. simpl. constructor.
  - unfold word_ok, byte_ok in *. lia.
  - apply (IH (length l)); [simpl; lia|done|done].
Qed.

Lemma bytes_words l : bytes_ok l -> lenZ l mod 2 = 0 -> bytes_of (words_of l) = l.
Proof.
  remember (length l) as n eqn:Hn. revert l Hn.
  induction n as [n IH] using lt_wf_ind. intros l -> Hl Hm.
  destruct l as [|x [|y l]]; [done|done|].
  apply Forall_cons in Hl as [Hx [Hy Hl]%Forall_cons]. cbn [words_of]. unfold bytes_of.
  cbn [fmap list_fmap concat]. fold (bytes_of (words_of l)). rewrite (IH (length l)); [|simpl; lia|done|done|].
  - cbn [le_bytes app]. unfold byte_ok in *. f_equal; [|f_equal].
    + rewrite Z.mul_comm, Z_mod_plus_full, Z.mod_small; lia.
    + rewrite Z.mul_comm, Z_div_plus_full, (Z.div_small x), Z.add_0_l, Z.mod_small; lia.
  - rewrite !lenZ_cons in Hm. replace (1 + (1 + lenZ l)) with (lenZ l + 1 * 2) in Hm by lia.
    by rewrite Z_mod_plus_full in Hm.
Qed.

Lemma length_words_of l : lenZ l = 512 -> lenZ (words_of l) = 256.
Proof.
  intros Hl. assert (H : forall n l, length l = (2 * n)%nat -> length (words_of l) = n).
  { induction n as [|n IH]; intros [|x [|y k]] Hk; simpl in *; try lia. f_equal. apply IH. lia. }
  unfold lenZ in *. rewrite (H 256%nat); lia.
Qed.

Definition sector_wf (l : list Z) : Prop := lenZ l = 512 /\ bytes_ok l.

Lemma read_sectors_loop ss k b d :
  Forall sector_wf ss -> xf d = rd_state (words_of (concat ss)) -> slave_selected d = false ->
  0 <= k -> (k + lenZ ss) * 512 <= lenZ b ->
  loop_buf (read_sector chan) (seqZ k (lenZ ss)) b d =
    Ret (set_xf Idle d,
         Ok (take (Z.to_nat (k * 512)) b ++ concat ss ++ drop (Z.to_nat ((k + lenZ ss) * 512)) b)).
Proof.
  intros Hss. revert k b d. induction Hss as [|s ss [Hs Hsb] Hss IH]; intros k b d Hx Hsl Hk Hl.
  { rewrite lenZ_nil, Z.add_0_r. cbn [seqZ Z.to_nat seq fmap list_fmap loop_buf concat].
    simpl. rewrite take_drop. destruct d. simpl in *. by subst. }
  rewrite lenZ_cons in *. pose proof (lenZ_nonneg ss). rewrite seqZ_cons by lia. cbn [loop_buf].
  cbn [concat] in Hx. rewrite words_of_app in Hx by (by rewrite Hs).
  pose proof (length_words_of s Hs) as H256.
  assert (E : read_sector chan k b d = Ret (set_xf (rd_state (words_of (concat ss))) d,
    Ok (take (Z.to_nat (k * 512)) b ++ s ++ drop (Z.to_nat ((k + 1) * 512)) b))).
  { unfold read_sector. erewrite mbindM_Ret.
    2:{ apply wait_drq_ide; [done|]. rewrite Hx. by destruct (words_of s). }
    unfold SECTOR_SIZE. rewrite <- H256.
    rewrite (read_loop_ide (words_of s) (words_of (concat ss))); [|by apply words_of_ok|done|lia..].
    rewrite bytes_words by (rewrite ?Hs; done). rewrite H256.
    replace (k * 512 + 0 * 2) with (k * 512) by lia.
    by replace (k * 512 + (0 + 256) * 2) with ((k + 1) * 512) by lia. }
  erewrite mbindM_Ret; [|exact E]. replace (Z.pred (1 + lenZ ss)) with (lenZ ss) by lia. unfold Z.succ.
  assert (Hlb : lenZ (take (Z.to_nat (k * 512)) b ++ s ++ drop (Z.to_nat ((k + 1) * 512)) b) = lenZ b).
  { rewrite !lenZ_app, Hs. unfold lenZ in *. rewrite length_take, length_drop. lia. }
  rewrite IH; [|done|done|lia|rewrite Hlb; lia]. do 3 f_equal.
  rewrite (app_assoc (take _ b) s), take_app_length'.
  2:{ rewrite length_app, length_take. unfold lenZ in *. lia. }
  rewrite <- !app_assoc. cbn [concat]. f_equal. rewrite <- app_assoc. do 2 f_equal.
  rewrite app_assoc, drop_app_ge by (rewrite length_app, length_take; unfold lenZ in *; lia).
  rewrite drop_drop, length_app, length_take. f_equal. unfold lenZ in *. lia.
Qed.

(** ** Writing *)

Lemma word_join a b : byte_ok a -> byte_ok b -> Z.lor a (Z.shiftl b 8) = a + 256 * b.
Proof.
  intros Ha Hb. rewrite Z.shiftl_mul_pow2 by lia. change (2 ^ 8) with 256.
  replace (256 * b) with (b * 256) by lia.
  rewrite <- Z.add_lor_land. replace (Z.land a (b * 256)) with 0; [lia|].
  symmetry. apply Z.bits_inj'. intros n Hn. rewrite Z.bits_0, Z.land_spec.
  change 256 with (2 ^ 8). rewrite <- Z.shiftl_mul_pow2, Z.shiftl_spec by lia.
  destruct (decide (n < 8)).
  - rewrite (Z.testbit_neg_r b) by lia. by rewrite andb_false_r.
  - rewrite Z.bits_above_log2; [done|unfold byte_ok in Ha; lia|].
    unfold byte_ok in Ha. destruct (decide (a = 0)) as [->|]; [simpl; lia|].
    apply Z.log2_lt_pow2; [lia|]. apply Z.lt_le_trans with (2 ^ 8); [lia|].
    apply Z.pow_le_mono_r; lia.
Qed.

(** The machine after a complete sector of words. *)
Definition store_sector (lba : Z) (ws : list Z) (n : nat) (d : ide) : ide :=
  mkIde (fun l => if bool_decide (l = lba) then bytes_of ws else media d l)
    (sc d) (lo d) (mid d) (hi d) (dh d) (match n with O => Idle | _ => Wr (lba + 1) n [] end).

Lemma write_word_ide buf off i lba n acc d :
  bytes_ok buf -> 0 <= off -> 0 <= i -> off + i * 2 + 1 < lenZ buf ->
  exists a b, buf !! Z.to_nat (off + i * 2) = Some a /\ buf !! Z.to_nat (off + i * 2 + 1) = Some b /\
    write_word chan off i buf (set_xf (Wr lba (S n) acc) d) =
      Ret (if bool_decide (length (acc ++ [a + 256 * b]) = 256%nat)
           then store_sector lba (acc ++ [a + 256 * b]) n d
           else set_xf (Wr lba (S n) (acc ++ [a + 256 * b])) d, Ok tt).
Proof.
  intros Hb Ho Hi Hl.
  destruct (idx_in_range buf (off + i * 2)) as [a Ea]; [lia|].
  destruct (idx_in_range buf (off + i * 2 + 1)) as [b Eb]; [lia|].
  exists a, b. pose proof Ea as Ea'. pose proof Eb as Eb'.
  apply idx_Ret in Ea' as [_ La], Eb' as [_ Lb]. split_and!; [done..|].
  unfold write_word, mbind, M_bind, mbindM, mlift. rewrite Ea, Eb.
  rewrite word_join by (eapply Forall_lookup_1; [exact Hb|done]).
  unfold out16, p_out16, ide_ports. change (bool_decide (r_data chan = 0x1F0)) with true.
  cbn iota. unfold ide_out16, set_xf at 1. cbn [xf].
  by case_bool_decide; destruct d.
Qed.

Lemma words_of_step (buf : list Z) x m a b :
  buf !! x = Some a -> buf !! S x = Some b ->
  words_of (take (2 * S m) (drop x buf)) = (a + 256 * b) :: words_of (take (2 * m) (drop (x + 2) buf)).
Proof.
  intros Ha Hb. rewrite (drop_S buf a x) by done. rewrite (drop_S buf b (S x)) by done.
  replace (2 * S m)%nat with (S (S (2 * m))) by lia. cbn [take words_of].
  by replace (x + 2)%nat with (S (S x)) by lia.
Qed.

Lemma write_loop_ide buf off lba n m k acc d :
  bytes_ok buf -> 0 <= off -> k = lenZ acc -> k + Z.of_nat m = 256 -> (0 < m)%nat ->
  off + 512 <= lenZ buf ->
  mfor (seqZ k (Z.of_nat m)) (fun i => write_word chan off i buf) (set_xf (Wr lba (S n) acc) d) =
    Ret (store_sector lba (acc ++ words_of (take (2 * m) (drop (Z.to_nat (off + k * 2)) buf))) n d, Ok tt).
Proof.
  intros Hb Ho. revert k acc. induction m as [|m IH]; intros k acc Hk Hkm Hm Hl; [lia|].
  pose proof (lenZ_nonneg acc). rewrite seqZ_cons by lia. cbn [mfor].
  destruct (write_word_ide buf off k lba n acc d) as (a & b & La & Lb & E); [done|lia..|].
  erewrite words_of_step; [|exact La|].
  2:{ rewrite <- Lb. f_equal. lia. }
  unfold mbindM. rewrite E. rewrite length_app. simpl length.
  destruct m as [|m'].
  - rewrite bool_decide_eq_true_2 by (unfold lenZ in *; lia).
    replace (Z.pred (Z.of_nat 1)) with 0 by lia. reflexivity.
  - rewrite bool_decide_eq_false_2 by (unfold lenZ in *; lia).
    replace (Z.pred (Z.of_nat (S (S m')))) with (Z.of_nat (S m')) by lia. unfold Z.succ.
    rewrite IH; [|rewrite lenZ_app, lenZ_cons, lenZ_nil; lia|lia..].
    rewrite <- app_assoc. cbn [app].
    by replace (Z.to_nat (off + k * 2) + 2)%nat with (Z.to_nat (off + (k + 1) * 2)) by lia.
Qed.

Lemma write_sectors_loop buf lba n k d :
  bytes_ok buf -> slave_selected d = false -> 0 <= k -> (k + Z.of_nat n) * 512 <= lenZ buf -> (0 < n)%nat ->
  exists d', mfor (seqZ k (Z.of_nat n)) (fun s =>
      _ ← wait_drq chan; mfor (seqZ 0 256) (fun i => write_word chan (s * SECTOR_SIZE) i buf))
      (set_xf (Wr lba n []) d) = Ret (d', Ok tt) /\ slave_selected d' = false /\
    forall l, media d' l = if bool_decide (lba <= l < lba + Z.of_nat n)
      then take 512 (drop (Z.to_nat ((k + (l - lba)) * 512)) buf) else media d l.
Proof.
  intros Hb. revert k lba d. induction n as [|n IH]; intros k lba d Hs Hk Hl Hn; [lia|].
  rewrite seqZ_cons by lia. cbn [mfor].
  set (w := words_of (take (2 * 256) (drop (Z.to_nat (k * 512 + 0 * 2)) buf))).
  assert (E : (_ ← wait_drq chan; mfor (seqZ 0 256) (fun i => write_word chan (k * SECTOR_SIZE) i buf))
    (set_xf (Wr lba (S n) []) d) = Ret (store_sector lba w n d, Ok tt)).
  { erewrite mbindM_Ret; [|by apply wait_drq_ide].
    apply (write_loop_ide buf (k * SECTOR_SIZE) lba n 256 0 []); try done; unfold SECTOR_SIZE; lia. }
  assert (Hw : bytes_of w = take 512 (drop (Z.to_nat (k * 512)) buf)).
  { unfold w. rewrite Z.add_0_r. apply bytes_words.
    - by apply Forall_take, Forall_drop.
    - unfold lenZ in *. rewrite length_take, length_drop. rewrite Nat.min_l by lia. done. }
  unfold mbindM at 1. setoid_rewrite E. destruct n as [|n'].
  - eexists. replace (Z.pred (Z.of_nat 1)) with 0 by lia. split; [reflexivity|]. split; [done|].
    intros l. cbn [media store_sector]. case_bool_decide; case_bool_decide; try lia; [|done].
    rewrite Hw. do 3 f_equal. lia.
  - destruct (IH (k + 1) (lba + 1) (store_sector lba w (S n') d)) as (d' & E' & Hs' & Hm); [done|lia..|].
    exists d'. replace (Z.pred (Z.of_nat (S (S n')))) with (Z.of_nat (S n')) by lia. unfold Z.succ.
    split; [exact E'|]. split; [done|]. intros l. rewrite Hm. cbn [media store_sector].
    repeat case_bool_decide; try lia; try done; [do 3 f_equal; lia|].
    rewrite Hw. do 3 f_equal. lia.
Qed.

(** ** The block device *)

Lemma land_hi_nibble lba : fits 28 lba -> Z.land lba 0xF0000000 = 0.
Proof.
  unfold fits. intros Hl. change 0xF0000000 with (Z.shiftl 15 28).
  apply Z.bits_inj'. intros n Hn. rewrite Z.bits_0, Z.land_spec, Z.shiftl_spec by lia.
  destruct (decide (n < 28)); [rewrite (Z.testbit_neg_r 15) by lia; by rewrite andb_false_r|].
  destruct (decide (lba = 0)) as [->|]; [by rewrite Z.bits_0|].
  rewrite Z.bits_above_log2; [done|lia|].
  apply Z.log2_lt_pow2; [lia|]. apply Z.lt_le_trans with (2 ^ 28); [lia|]. apply Z.pow_le_mono_r; lia.
Qed.

Lemma sectors_of_list disk lba n :
  sectors_of disk lba n = concat ((fun k => disk (lba + k)) <$> seqZ 0 (Z.of_nat n)).
Proof. done. Qed.

Lemma read_sectors_ide d lba count b :
  (forall l, sector_wf (media d l)) -> lba_range lba count -> count * 512 <= lenZ b ->
  read_sectors chan Master lba count b d =
    Ret (set_xf Idle (transfer_regs lba count d),
         Ok (sectors_of (media d) lba (Z.to_nat count) ++ drop (Z.to_nat (count * 512)) b)).
Proof.
  intros Hm (Hc & Hl & Hr) Hb. unfold read_sectors, SECTOR_SIZE.
  rewrite bool_decide_eq_false_2 by lia. rewrite bool_decide_eq_false_2 by lia.
  rewrite land_hi_nibble by (unfold fits; lia). rewrite bool_decide_eq_false_2 by lia.
  erewrite mbindM_Ret; [|apply setup_transfer_ide].
  unfold ide_command, CMD_READ_SECTORS. rewrite transfer_regs_master.
  rewrite transfer_regs_lba by (unfold fits; lia).
  change (bool_decide (32 = 32)) with true. cbn iota.
  change (media (transfer_regs lba count d)) with (media d).
  replace (count_reg (transfer_regs lba count d)) with count.
  2:{ unfold count_reg. cbn [sc transfer_regs]. rewrite bool_decide_eq_false_2; lia. }
  set (ss := (fun k => media d (lba + k)) <$> seqZ 0 (Z.of_nat (Z.to_nat count))).
  assert (Hlen : lenZ ss = count) by (unfold lenZ, ss; rewrite length_fmap, length_seqZ; lia).
  replace (seqZ 0 count) with (seqZ 0 (lenZ ss)) by (by rewrite Hlen).
  rewrite (read_sectors_loop ss 0 b); [|..|lia|rewrite Hlen; lia].
  - rewrite Hlen, sectors_of_list. fold ss. by rewrite Z.mul_0_l, Z.add_0_l, Z2Nat.inj_0.
  - apply Forall_fmap, Forall_forall. intros. apply Hm.
  - done.
  - apply transfer_regs_master.
Qed.

Lemma write_sectors_ide d lba count b :
  lba_range lba count -> count * 512 <= lenZ b -> bytes_ok b ->
  exists d', write_sectors chan Master lba count b d = Ret (d', Ok tt) /\
    forall l, media d' l = if bool_decide (lba <= l < lba + count)
      then take 512 (drop (Z.to_nat ((l - lba) * 512)) b) else media d l.
Proof.
  intros (Hc & Hl & Hr) Hb Hok. unfold write_sectors, SECTOR_SIZE.
  rewrite bool_decide_eq_false_2 by lia. rewrite bool_decide_eq_false_2 by lia.
  rewrite land_hi_nibble by (unfold fits; lia). rewrite bool_decide_eq_false_2 by lia.
  erewrite mbindM_Ret; [|apply setup_transfer_ide].
  unfold ide_command, CMD_WRITE_SECTORS. rewrite transfer_regs_master.
  rewrite transfer_regs_lba by (unfold fits; lia).
  change (bool_decide (48 = 32)) with false. change (bool_decide (48 = 48)) with true. cbn iota.
  replace (count_reg (transfer_regs lba count d)) with count.
  2:{ unfold count_reg. cbn [sc transfer_regs]. rewrite bool_decide_eq_false_2; lia. }
  destruct (write_sectors_loop b lba (Z.to_nat count) 0 (transfer_regs lba count d))
    as (d' & E & Hs & Hm); [done|apply transfer_regs_master|lia..|].
  rewrite Z2Nat.id in E, Hm by lia.
  exists (set_xf Idle d'). erewrite mbindM_Ret; [|exact E].
  erewrite mbindM_Ret; [|reflexivity].
  change (p_out8 (r_command chan) 231 d') with (ide_command 231 d').
  unfold ide_command. rewrite Hs. split; [by apply wait_ready_ide|].
  intros l. rewrite <- (Z.add_0_l (l - lba)). apply Hm.
Qed.

Definition ide_ready (a : ata ide) (i : Z) : Prop :=
  i = 0 /\ (exists k, a_disks a = Some [k] /\ bus k = Primary /\ drive k = Master) /\
  forall l, sector_wf (media (a_hw a) l).

Lemma ata_read_ide a i lba count b :
  ide_ready a i ->
  ata_read i lba count b a =
    match read_sectors chan Master lba count b (a_hw a) with
    | Ret (d, r) => Ret (mkAta d (a_disks a), r)
    | Panic => Panic
    end.
Proof.
  intros (-> & (k & Hk & Hb & Hd) & _). unfold ata_read.
  erewrite mbindM_Ret; [|unfold get_disk, mbind, M_bind, mbindM, mget; by rewrite Hk].
  by rewrite Hb, Hd.
Qed.

Lemma ata_write_ide a i lba count b :
  ide_ready a i ->
  ata_write i lba count b a =
    match write_sectors chan Master lba count b (a_hw a) with
    | Ret (d, r) => Ret (mkAta d (a_disks a), r)
    | Panic => Panic
    end.
Proof.
  intros (-> & (k & Hk & Hb & Hd) & _). unfold ata_write.
  erewrite mbindM_Ret; [|unfold get_disk, mbind, M_bind, mbindM, mget; by rewrite Hk].
  by rewrite Hb, Hd.
Qed.

Lemma ata_ide_read_ok a i lba count b :
  ide_ready a i -> lba_range lba count -> count * 512 <= lenZ b ->
  exists a', ata_read i lba count b a =
      Ret (a', Ok (sectors_of (media (a_hw a)) lba (Z.to_nat count) ++ drop (Z.to_nat (count * 512)) b)) /\
    media (a_hw a') = media (a_hw a) /\ ide_ready a' i.
Proof.
  intros Hr Hl Hb. rewrite ata_read_ide by done.
  destruct Hr as (-> & Hk & Hm). rewrite read_sectors_ide by done.
  eexists. split; [done|]. done.
Qed.

Lemma ata_ide_write_ok a i lba count b :
  ide_ready a i -> lba_range lba count -> count * 512 <= lenZ b -> bytes_ok b ->
  exists a', ata_write i lba count b a = Ret (a', Ok tt) /\
    (forall l, media (a_hw a') l = if bool_decide (lba <= l < lba + count)
       then take 512 (drop (Z.to_nat ((l - lba) * 512)) b) else media (a_hw a) l) /\ ide_ready a' i.
Proof.
  intros Hr Hl Hb Hok. rewrite ata_write_ide by done.
  destruct Hr as (-> & Hk & Hm). destruct (write_sectors_ide (a_hw a) lba count b) as (d' & -> & Hd);
    [done..|].
  eexists. split; [done|]. split; [done|]. split; [done|]. split; [done|].
  intros l. cbn [a_hw]. rewrite Hd. case_bool_decide as Hin; [|apply Hm].
  split; [|by apply Forall_take, Forall_drop].
  unfold lba_range, lenZ in *. rewrite length_take, length_drop. lia.
Qed.

(** The driver and the drive together keep the contract of a block device. *)
#[export] Program Instance ata_ide_laws : BlockDevLaws (ata ide) := {|
  bd_disk a i l := if bool_decide (i = 0) then media (a_hw a) l else [];
  bd_ready := ide_ready;
|}.
Next Obligation.
  intros a i l (-> & _ & Hm). apply Hm.
Qed.
Next Obligation.
  intros a i lba count b Hr Hl Hb.
  destruct (ata_ide_read_ok a i lba count b Hr Hl Hb) as (a' & E & Hm & Hr').
  pose proof Hr as (-> & _). exists a'. split; [exact E|]. split.
  - intros j l. by rewrite Hm.
  - intros j (-> & _). exact Hr'.
Qed.
Next Obligation.
  intros a i lba count b Hr Hl Hb Hok.
  destruct (ata_ide_write_ok a i lba count b Hr Hl Hb Hok) as (a' & E & Hm & Hr').
  pose proof Hr as (-> & _). exists a'. split; [exact E|]. split.
  - intros j l. rewrite Hm. repeat case_bool_decide; naive_solver.
  - intros j (-> & _). exact Hr'.
Qed.


(** A blank disk, found as the master of the primary channel. *)
Definition demo_ata : ata ide :=
  mkAta (mkIde (fun _ => replicate 512 0) 0 0 0 0 0 Idle) (Some [mkDisk Primary Master [] [] 4096]).

Lemma demo_ata_ready : ide_ready demo_ata 0.
Proof.
  split; [done|]. split; [eexists; split_and!; done|]. intros l. split; [done|].
  apply Forall_replicate. unfold byte_ok. lia.
Qed.

