(* ===== verification/Userprog.v ===== *)
(** * fs/userprog.rs: the generated user programs

    The two ELF images the kernel assembles byte by byte at boot. *)

From S2P Require Import Prelude Str.
Local Open Scope Z_scope.

Definition UP_EHDR_SIZE : Z := 64.
Definition UP_PHDR_SIZE : Z := 56.
Definition LOAD_ADDR : Z := 0x40000000.

(** [(x as i32).to_le_bytes()] of a difference: two's complement. *)
Definition i32_le (x : Z) : list Z := le_bytes 4 (wrap 32 x).

(** The ELF header and the single program header around the code, which the
    two programs share. *)
Definition elf_wrap (code : list Z) : list Z :=
  let ph_off := UP_EHDR_SIZE in
  let code_off := UP_EHDR_SIZE + UP_PHDR_SIZE in
  let entry_vaddr := LOAD_ADDR + code_off in
  let seg_vaddr := LOAD_ADDR in
  let seg_filesz := code_off + lenZ code in
  [0x7f; 69; 76; 70; 2; 1; 1; 0; 0] ++ replicate 7 0 ++
  le_bytes 2 2 ++ le_bytes 2 62 ++ le_bytes 4 1 ++
  le_bytes 8 entry_vaddr ++ le_bytes 8 ph_off ++ le_bytes 8 0 ++ le_bytes 4 0 ++
  le_bytes 2 UP_EHDR_SIZE ++ le_bytes 2 UP_PHDR_SIZE ++
  le_bytes 2 1 ++ le_bytes 2 0 ++ le_bytes 2 0 ++ le_bytes 2 0 ++
  le_bytes 4 1 ++ le_bytes 4 (Z.lor (Z.lor 4 2) 1) ++ le_bytes 8 0 ++
  le_bytes 8 seg_vaddr ++ le_bytes 8 seg_vaddr ++
  le_bytes 8 seg_filesz ++ le_bytes 8 seg_filesz ++ le_bytes 8 0x1000 ++
  code.

Definition hello_msg : list Z := bstr "Hello from ring 3!" ++ [10].

Definition hello_world_elf : outcome (list Z) :=
  let msg_len := lenZ hello_msg in
  let code := [0xB8; 0x01; 0x00; 0x00; 0x00] ++ [0xBF; 0x01; 0x00; 0x00; 0x00] in
  let lea_start := lenZ code in
  let code := code ++ [0x48; 0x8D; 0x35; 0; 0; 0; 0] in
  let lea_end := lenZ code in
  let lea_disp_offset := lea_start + 3 in
  let code := code ++ [0xBA] ++ le_bytes 4 msg_len ++ [0x0F; 0x05] ++
    [0xB8; 0x03; 0x00; 0x00; 0x00] ++ [0x31; 0xFF] ++ [0x0F; 0x05] ++ [0xEB; 0xFE] in
  let msg_offset_in_segment := lenZ code in
  let code := code ++ hello_msg in
  let disp := msg_offset_in_segment - lea_end in
  code ← splice code lea_disp_offset (i32_le disp);
  Ret (elf_wrap code).

Definition counter_elf : outcome (list Z) :=
  let code := [0x48; 0xC7; 0xC3; 0x14; 0x00; 0x00; 0x00] in
  let loop_start := lenZ code in
  let code := code ++ [0x48; 0xC7; 0xC1; 0x40; 0x4B; 0x4C; 0x00] in
  let busy_start := lenZ code in
  let code := code ++ [0x48; 0xFF; 0xC9] in
  let jmp_offset := busy_start - (lenZ code + 2) in
  let code := code ++ [0x75; wrap 8 jmp_offset] in
  let code := code ++ [0xB8; 0x01; 0x00; 0x00; 0x00] ++ [0xBF; 0x01; 0x00; 0x00; 0x00] in
  let lea_start := lenZ code in
  let code := code ++ [0x48; 0x8D; 0x35; 0; 0; 0; 0] in
  let lea_end := lenZ code in
  let code := code ++ [0xBA; 0x01; 0x00; 0x00; 0x00] ++ [0x0F; 0x05] ++ [0x48; 0xFF; 0xCB] in
  let jnz_end := lenZ code + 6 in
  let rel32 := loop_start - jnz_end in
  let code := code ++ [0x0F; 0x85] ++ i32_le rel32 in
  let code := code ++ [0xB8; 0x01; 0x00; 0x00; 0x00] ++ [0xBF; 0x01; 0x00; 0x00; 0x00] in
  let nl_lea_start := lenZ code in
  let code := code ++ [0x48; 0x8D; 0x35; 0; 0; 0; 0] in
  let nl_lea_end := lenZ code in
  let code := code ++ [0xBA; 0x01; 0x00; 0x00; 0x00] ++ [0x0F; 0x05] ++
    [0xB8; 0x03; 0x00; 0x00; 0x00] ++ [0x48; 0x31; 0xFF] ++ [0x0F; 0x05] ++ [0xEB; 0xFE] in
  let msg_off := lenZ code in
  let code := code ++ bstr "." in
  let nl_off := lenZ code in
  let code := code ++ [10] in
  code ← splice code (lea_start + 3) (i32_le (msg_off - lea_end));
  code ← splice code (nl_lea_start + 3) (i32_le (nl_off - nl_lea_end));
  Ret (elf_wrap code).
