(* ===== verification/Ramfs.v ===== *)
(** * The file system in memory and its archives

    src/kernel/src/fs/ramfs.rs (a map from paths to contents) and the
    archive loader of fs/mod.rs.  The files of [init] that the build
    embeds and the modules GRUB passes are arguments. *)

From S2P Require Import Prelude Str Sha256 Userprog.
Local Open Scope Z_scope.

(** A [BTreeMap<String, Vec<u8>>]: a finite map that iterates in the order
    of the bytes of its keys. *)
Abbreviation Ramfs := (gmap str (list Z)).

Inductive FsError := NotFound | AlreadyExists.

Definition fs_create (path : str) (data : list Z) (fs : Ramfs) : Ramfs := <[path := data]> fs.
Definition fs_write (path : str) (data : list Z) (fs : Ramfs) : Ramfs := <[path := data]> fs.
Definition fs_read (path : str) (fs : Ramfs) : result (list Z) FsError :=
  match fs !! path with Some d => Ok d | None => Err NotFound end.
Definition fs_remove (path : str) (fs : Ramfs) : Ramfs * result unit FsError :=
  match fs !! path with
  | Some _ => (delete path fs, Ok tt)
  | None => (fs, Err NotFound)
  end.

(** The order of [str]. *)
Fixpoint str_leb (a b : str) : bool :=
  match a, b with
  | [], _ => true
  | _ :: _, [] => false
  | x :: a', y :: b' => (x <? y) || ((x =? y) && str_leb a' b')
  end.
Definition str_le (a b : str) : Prop := str_leb a b = true.
#[export] Instance str_le_dec a b : Decision (str_le a b).
Proof. unfold str_le. apply _. Defined.

Definition fs_list (fs : Ramfs) : list str := merge_sort str_le (elements (dom fs)).
Definition fs_count (fs : Ramfs) : Z := Z.of_nat (size fs).
Definition fs_size (path : str) (fs : Ramfs) : option Z := lenZ <$> fs !! path.

(** ** Archives *)

(** Little-endian fields at an offset. *)
Definition u16_at (l : list Z) (off : Z) : outcome Z :=
  a ← idx l off; b ← idx l (off + 1); Ret (of_le [a; b]).
Definition u32_at (l : list Z) (off : Z) : outcome Z :=
  a ← idx l off; b ← idx l (off + 1); c ← idx l (off + 2); d ← idx l (off + 3);
  Ret (of_le [a; b; c; d]).

Definition slash : Z := 47.
Definition absolute (name : str) : str := if starts_with [slash] name then name else slash :: name.

(** The rounds of the loop; the offsets stay far below 2^64, so the sums do
    not overflow. *)
Fixpoint load_entries (n : nat) (data : list Z) (off : Z) (fs : Ramfs) : outcome (Ramfs * bool) :=
  match n with
  | O => Ret (fs, true)
  | S n' =>
      if bool_decide (lenZ data < off + 2) then Ret (fs, false) else
      name_len ← u16_at data off;
      let off := off + 2 in
      if bool_decide (lenZ data < off + name_len) then Ret (fs, false) else
      raw ← slice data off (off + name_len);
      match from_utf8 raw with
      | None => Ret (fs, false)
      | Some name =>
          let off := off + name_len in
          if bool_decide (lenZ data < off + 4) then Ret (fs, false) else
          data_len ← u32_at data off;
          let off := off + 4 in
          if bool_decide (lenZ data < off + data_len) then Ret (fs, false) else
          body ← slice data off (off + data_len);
          load_entries n' data (off + data_len) (fs_create (absolute name) body fs)
      end
  end.

Definition try_load_archive (data : list Z) (fs : Ramfs) : outcome (Ramfs * bool) :=
  if bool_decide (lenZ data < 4) then Ret (fs, false) else
  n ← u32_at data 0;
  if bool_decide (1024 < n) then Ret (fs, false) else
  load_entries (Z.to_nat n) data 4 fs.

(** ** The files present at boot *)

Definition nl : Z := 10.
Definition colon : Z := 58.

Definition welcome_txt : list Z :=
  bstr "Bienvenue sur Rust Kernel!" ++ [nl; nl] ++
  bstr "Tape 'help' pour voir les commandes." ++ [nl].
Definition motd : list Z := bstr "Le kernel le plus confortable du monde." ++ [nl].

Definition seed_passwd (root_hash luc_hash : str) : str :=
  bstr "root:" ++ root_hash ++ bstr ":0:0:root:/root:/bin/sh" ++ [nl] ++
  bstr "luc:" ++ luc_hash ++ bstr ":1000:1000:Luc:/home/luc:/bin/sh" ++ [nl].

Fixpoint load_modules (mods : list (list Z * str)) (fs : Ramfs) : outcome Ramfs :=
  match mods with
  | [] => Ret fs
  | (data, name) :: mods' =>
      '(fs, ok) ← try_load_archive data fs;
      if (ok : bool) then load_modules mods' fs
      else load_modules mods'
             (fs_create (slash :: (if bool_decide (name = []) then bstr "initrd.bin" else name)) data fs)
  end.

Definition fs_init (init_elf sh_elf : list Z) (mods : list (list Z * str)) (fs : Ramfs) : outcome Ramfs :=
  let fs := fs_create (bstr "/welcome.txt") welcome_txt fs in
  let fs := fs_create (bstr "/motd") motd fs in
  root_hash ← Sha256.sha256_hex (bstr "root");
  luc_hash ← Sha256.sha256_hex (bstr "luc");
  let fs := fs_create (bstr "/etc/passwd") (seed_passwd root_hash luc_hash) fs in
  hello ← hello_world_elf;
  let fs := fs_create (bstr "/hello_user") hello fs in
  counter ← counter_elf;
  let fs := fs_create (bstr "/counter") counter fs in
  let fs := fs_create (bstr "/sbin/init") init_elf fs in
  let fs := fs_create (bstr "/bin/sh") sh_elf fs in
  load_modules mods fs.
