(* ===== verification/Persist.v ===== *)
(** * persist.rs: the state kept on disk

    The blob of src/kernel/src/persist.rs: its serialisation, the parser,
    and the two operations that move the persisted files between the
    memory file system and the reserved sectors of disk 0. *)

From S2P Require Import Prelude Str Ramfs BlockDev.
Local Open Scope Z_scope.

Definition MAGIC : list Z := bstr "DOSSTATE".
Definition VERSION : Z := 1.
Definition PERSIST_LBA : Z := 2048.
Definition PERSIST_SECTORS : Z := 64.
Definition PERSIST_BYTES : Z := PERSIST_SECTORS * 512.
Definition PERSISTED_PATHS : list str := [bstr "/etc/passwd"; bstr "/etc/settings"].
Definition DISK_IDX : Z := 0.

Abbreviation Blob := (list (str * list Z)).

Definition entry_bytes (e : str * list Z) : list Z :=
  le_bytes 2 (wrap 16 (lenZ e.1)) ++ e.1 ++ le_bytes 4 (wrap 32 (lenZ e.2)) ++ e.2.

(** [buf.resize(PERSIST_BYTES, 0)] when the buffer is shorter. *)
Definition pad_blob (buf : list Z) : list Z :=
  if bool_decide (lenZ buf < PERSIST_BYTES)
  then buf ++ replicate (Z.to_nat (PERSIST_BYTES - lenZ buf)) 0 else buf.

Definition serialize (entries : Blob) : list Z :=
  pad_blob (MAGIC ++ le_bytes 4 VERSION ++ le_bytes 4 (wrap 32 (lenZ entries)) ++
            concat (entry_bytes <$> entries)).

(** The rounds of the parser's loop; [None] is the [None] it returns. *)
Fixpoint read_entries (n : nat) (raw : list Z) (off : Z) (entries : Blob) : outcome (option Blob) :=
  match n with
  | O => Ret (Some entries)
  | S n' =>
      if bool_decide (lenZ raw < off + 2) then Ret None else
      p ← slice raw off (off + 2);
      let plen := of_le p in
      let off := off + 2 in
      if bool_decide (lenZ raw < off + plen) then Ret None else
      pb ← slice raw off (off + plen);
      match from_utf8 pb with
      | None => Ret None
      | Some path =>
          let off := off + plen in
          if bool_decide (lenZ raw < off + 4) then Ret None else
          d ← slice raw off (off + 4);
          let dlen := of_le d in
          let off := off + 4 in
          if bool_decide (lenZ raw < off + dlen) then Ret None else
          data ← slice raw off (off + dlen);
          read_entries n' raw (off + dlen) (entries ++ [(path, data)])
      end
  end.

Definition deserialize (raw : list Z) : outcome (option Blob) :=
  if bool_decide (lenZ raw < 16) then Ret None else
  m ← slice raw 0 8;
  if bool_decide (m <> MAGIC) then Ret None else
  v ← slice raw 8 12;
  if bool_decide (of_le v <> VERSION) then Ret None else
  c ← slice raw 12 16;
  let n := of_le c in
  if bool_decide (1024 < n) then Ret None else
  read_entries (Z.to_nat n) raw 16 [].

(** The memory file system and the disk. *)
Record pst (D : Type) := mkPst { p_fs : Ramfs; p_disk : D }.
Arguments mkPst {D} _ _.
Arguments p_fs {D} _.
Arguments p_disk {D} _.

Section persist.
Context {D : Type} `{BlockDev D}.

Definition on_disk {E A} (c : M D E A) : M (pst D) E A :=
  zoom p_disk (fun d s => mkPst (p_fs s) d) c.
Definition on_fs {E : Type} (f : Ramfs -> Ramfs) : M (pst D) E unit :=
  modify (fun s => mkPst (f (p_fs s)) (p_disk s)).

(** [true] when a valid state was loaded. *)
Definition load_into_ramfs : M (pst D) unit bool :=
  r ← try_ (on_disk (bd_read DISK_IDX PERSIST_LBA PERSIST_SECTORS (replicate (Z.to_nat PERSIST_BYTES) 0)));
  match (r : result (list Z) string) with
  | Err _ => mok false
  | Ok buf =>
      b ← mlift (deserialize buf);
      match b with
      | None => mok false
      | Some entries =>
          _ ← on_fs (fun fs => foldl (fun fs e => fs_create e.1 e.2 fs) fs entries);
          mok true
      end
  end.

(** The persisted files that exist. *)
Definition blob_of (fs : Ramfs) : Blob :=
  omap (fun p => match fs_read p fs with Ok d => Some (p, d) | Err _ => None end) PERSISTED_PATHS.

Definition save_from_ramfs : M (pst D) string unit :=
  s ← mget;
  let buf := serialize (blob_of (p_fs s)) in
  if bool_decide (PERSIST_BYTES < lenZ buf) then mfail "persist: blob trop gros (>32 KiB)"%string else
  on_disk (bd_write DISK_IDX PERSIST_LBA PERSIST_SECTORS buf).

End persist.

(** ** The blob's round trip *)

(** An entry the format can hold: the path's length on 16 bits and valid
    UTF-8, the contents' length on 32 bits. *)
Definition entry_wf (e : str * list Z) : Prop :=
  fits 16 (lenZ e.1) /\ utf8_ok e.1 = true /\ fits 32 (lenZ e.2).

Lemma slice_at {A} (a b c : list A) lo hi :
  lo = lenZ a -> hi = lo + lenZ b -> slice (a ++ b ++ c) lo hi = Ret b.
Proof. intros -> ->. by apply slice_app_mid. Qed.

Lemma read_entry n raw off acc a e b :
  entry_wf e -> raw = a ++ entry_bytes e ++ b -> off = lenZ a ->
  read_entries (S n) raw off acc = read_entries n raw (off + lenZ (entry_bytes e)) (acc ++ [e]).
Proof.
  intros (Hp & Hu & Hd) Hraw Hoff. cbn [read_entries].
  assert (Hlen : lenZ (entry_bytes e) = 2 + lenZ e.1 + 4 + lenZ e.2).
  { unfold entry_bytes. rewrite !lenZ_app, !lenZ_le_bytes. lia. }
  pose proof (lenZ_nonneg a). pose proof (lenZ_nonneg b).
  pose proof (lenZ_nonneg e.1). pose proof (lenZ_nonneg e.2).
  assert (Hr : lenZ raw = lenZ a + (2 + lenZ e.1 + 4 + lenZ e.2) + lenZ b).
  { rewrite Hraw, !lenZ_app, Hlen. lia. }
  assert (H16 : wrap 16 (lenZ e.1) = lenZ e.1) by (by apply wrap_id).
  assert (H32 : wrap 32 (lenZ e.2) = lenZ e.2) by (by apply wrap_id).
  rewrite bool_decide_eq_false_2 by lia.
  set (l2 := le_bytes 2 (lenZ e.1)). set (l4 := le_bytes 4 (lenZ e.2)).
  assert (Hx : raw = a ++ l2 ++ e.1 ++ l4 ++ e.2 ++ b).
  { rewrite Hraw. unfold entry_bytes. rewrite H16, H32. by rewrite <- !app_assoc. }
  assert (Hl2 : lenZ l2 = 2) by apply lenZ_le_bytes. assert (Hl4 : lenZ l4 = 4) by apply lenZ_le_bytes.
  assert (S1 : slice raw off (off + 2) = Ret l2) by (rewrite Hx; apply slice_at; lia).
  assert (S2 : slice raw (off + 2) (off + 2 + lenZ e.1) = Ret e.1).
  { rewrite Hx, (app_assoc a l2). apply slice_at; rewrite ?lenZ_app; lia. }
  assert (S3 : slice raw (off + 2 + lenZ e.1) (off + 2 + lenZ e.1 + 4) = Ret l4).
  { rewrite Hx, (app_assoc a l2), (app_assoc _ e.1). apply slice_at; rewrite ?lenZ_app; lia. }
  assert (S4 : slice raw (off + 2 + lenZ e.1 + 4) (off + 2 + lenZ e.1 + 4 + lenZ e.2) = Ret e.2).
  { rewrite Hx, (app_assoc a l2), (app_assoc _ e.1), (app_assoc _ l4).
    apply slice_at; rewrite ?lenZ_app; lia. }
  assert (O2 : of_le l2 = lenZ e.1) by (by apply of_le_bytes_id).
  assert (O4 : of_le l4 = lenZ e.2) by (by apply of_le_bytes_id).
  rewrite S1. obind. rewrite O2, bool_decide_eq_false_2 by lia.
  rewrite S2. obind. unfold from_utf8. rewrite Hu, bool_decide_eq_false_2 by lia.
  rewrite S3. obind. rewrite O4, bool_decide_eq_false_2 by lia. rewrite S4. obind.
  rewrite Hlen. destruct e as [p d]. simpl. f_equal; lia.
Qed.

Lemma read_entries_all es raw off acc a b :
  Forall entry_wf es -> raw = a ++ concat (entry_bytes <$> es) ++ b -> off = lenZ a ->
  read_entries (length es) raw off acc = Ret (Some (acc ++ es)).
Proof.
  intros Hes. revert off acc a. induction Hes as [|e es He Hes IH]; intros off acc a Hraw Hoff.
  { simpl. by rewrite app_nil_r. }
  cbn [length fmap list_fmap concat] in *. rewrite <- app_assoc in Hraw.
  rewrite (read_entry (length es) raw off acc a e (concat (entry_bytes <$> es) ++ b)) by done.
  rewrite (IH _ _ (a ++ entry_bytes e)).
  - by rewrite <- app_assoc.
  - by rewrite <- app_assoc.
  - rewrite lenZ_app. lia.
Qed.

Lemma pad_blob_app l : exists z, pad_blob l = l ++ z /\ PERSIST_BYTES <= lenZ (pad_blob l).
Proof.
  unfold pad_blob. case_bool_decide.
  - eexists. split; [done|]. rewrite lenZ_app. unfold lenZ at 2. rewrite length_replicate. lia.
  - exists []. rewrite app_nil_r. split; [done|lia].
Qed.

(** Parsing what [serialize] writes gives the entries back. *)
Lemma deserialize_serialize es :
  Forall entry_wf es -> lenZ es <= 1024 -> deserialize (serialize es) = Ret (Some es).
Proof.
  intros Hes Hn. pose proof (lenZ_nonneg es). unfold serialize.
  destruct (pad_blob_app (MAGIC ++ le_bytes 4 VERSION ++ le_bytes 4 (wrap 32 (lenZ es)) ++
    concat (entry_bytes <$> es))) as (z & E & Hlen). rewrite E in *.
  rewrite (wrap_id 32) by (unfold fits; lia). rewrite <- !app_assoc.
  set (raw := MAGIC ++ _). unfold deserialize.
  rewrite (wrap_id 32), <- !app_assoc in Hlen by (unfold fits; lia). fold raw in Hlen.
  unfold PERSIST_BYTES, PERSIST_SECTORS in Hlen.
  rewrite bool_decide_eq_false_2 by lia.
  assert (S0 : slice raw 0 8 = Ret MAGIC) by (by apply (slice_at [] MAGIC)).
  assert (S1 : slice raw 8 12 = Ret (le_bytes 4 VERSION)) by (by apply (slice_at MAGIC)).
  assert (S2 : slice raw 12 16 = Ret (le_bytes 4 (lenZ es))).
  { unfold raw. rewrite (app_assoc MAGIC). apply slice_at; [done|]. by rewrite lenZ_le_bytes. }
  rewrite S0. obind. rewrite bool_decide_eq_false_2 by tauto.
  rewrite S1. obind. change (bool_decide (of_le (le_bytes 4 VERSION) <> VERSION)) with false.
  cbn iota. rewrite S2. obind.
  rewrite of_le_bytes_id by (unfold fits; simpl; lia).
  rewrite bool_decide_eq_false_2 by lia. unfold lenZ at 1. rewrite Nat2Z.id.
  rewrite (read_entries_all es _ 16 [] ((MAGIC ++ le_bytes 4 VERSION) ++ le_bytes 4 (lenZ es)) z);
    [done|done| |].
  - unfold raw. by rewrite <- !app_assoc.
  - rewrite lenZ_app, lenZ_le_bytes. done.
Qed.

(** ** Across a reboot *)

Lemma omap_paths_wf fs ps :
  Forall (fun p => fits 16 (lenZ p) /\ utf8_ok p = true) ps ->
  (forall p d, fs !! p = Some d -> fits 32 (lenZ d)) ->
  Forall entry_wf (omap (fun p => match fs_read p fs with Ok d => Some (p, d) | Err _ => None end) ps).
Proof.
  intros Hps Hfs. induction Hps as [|p ps [Hp Hu] Hps IH]; [constructor|].
  cbn [omap list_omap]. unfold fs_read at 1. destruct (fs !! p) as [d|] eqn:E; [|exact IH].
  constructor; [|exact IH]. split_and!; [done..|]. by eapply Hfs.
Qed.

Lemma lenZ_blob fs : lenZ (blob_of fs) <= 2.
Proof.
  unfold blob_of, PERSISTED_PATHS. cbn [omap list_omap].
  repeat case_match; unfold lenZ; simpl; lia.
Qed.

(** The files the restored blob writes over [fs2]. *)
Lemma restore_lookup fs fs2 p :
  foldl (fun fs e => fs_create e.1 e.2 fs) fs2 (blob_of fs) !! p =
    (if decide (p ∈ PERSISTED_PATHS) then match fs !! p with Some d => Some d | None => fs2 !! p end
     else fs2 !! p).
Proof.
  unfold blob_of, PERSISTED_PATHS, fs_read, fs_create. cbn [omap list_omap].
  set (a := bstr "/etc/passwd"). set (b := bstr "/etc/settings").
  assert (Hab : a <> b) by done.
  destruct (decide (p = a)) as [->|Ha]; [|destruct (decide (p = b)) as [->|Hb]].
  - rewrite decide_True by (by left).
    destruct (fs !! a), (fs !! b); cbn [foldl fst snd];
      by rewrite ?lookup_insert_ne, ?lookup_insert_eq by congruence.
  - rewrite decide_True by (by right; left).
    destruct (fs !! a), (fs !! b); cbn [foldl fst snd];
      by rewrite ?lookup_insert_eq, ?lookup_insert_ne by congruence.
  - rewrite decide_False by (rewrite !elem_of_cons, elem_of_nil; tauto).
    destruct (fs !! a), (fs !! b); cbn [foldl fst snd];
      by rewrite ?lookup_insert_ne by congruence.
Qed.

Lemma serialize_ok fs :
  (forall p d, fs !! p = Some d -> bytes_ok d) -> bytes_ok (serialize (blob_of fs)).
Proof.
  intros Hfs. unfold serialize.
  destruct (pad_blob_app (MAGIC ++ le_bytes 4 VERSION ++ le_bytes 4 (wrap 32 (lenZ (blob_of fs))) ++
    concat (entry_bytes <$> blob_of fs))) as (z & E & _).
  assert (Hz : bytes_ok z).
  { revert E. unfold pad_blob. case_bool_decide; intros E.
    - apply app_inv_head in E as <-. apply Forall_replicate. done.
    - rewrite <- (app_nil_r (_ ++ _)) in E at 1. apply app_inv_head in E as <-. constructor. }
  rewrite E, !bytes_ok_app. split_and!; [|apply le_bytes_ok|apply le_bytes_ok| |done].
  { apply bstr_ok. }
  unfold blob_of, PERSISTED_PATHS, fs_read. cbn [omap list_omap].
  destruct (fs !! bstr "/etc/passwd") as [da|] eqn:Ea, (fs !! bstr "/etc/settings") as [db|] eqn:Eb;
    cbn [fmap list_fmap concat]; unfold entry_bytes; rewrite ?bytes_ok_app;
    split_and?; try apply le_bytes_ok; try apply bstr_ok; try constructor; by eapply Hfs.
Qed.

Section reboot.
Context {D : Type} `{BlockDevLaws D}.

(** C14.  The persisted files survive a reboot: when the blob fits its
    sectors and the disk answers, saving succeeds, and loading afterwards,
    whatever the memory file system then holds, restores every persisted
    file that existed when it was saved and touches no other file. *)
Theorem persist_survives_reboot (s : pst D) (fs2 : Ramfs) :
  bd_ready (p_disk s) DISK_IDX ->
  (forall p d, p_fs s !! p = Some d -> bytes_ok d /\ fits 32 (lenZ d)) ->
  lenZ (serialize (blob_of (p_fs s))) <= PERSIST_BYTES ->
  exists d1 s2, save_from_ramfs s = Ret (mkPst (p_fs s) d1, Ok tt) /\
    load_into_ramfs (mkPst fs2 d1) = Ret (s2, Ok true) /\
    forall p, p_fs s2 !! p =
      if decide (p ∈ PERSISTED_PATHS)
      then match p_fs s !! p with Some d => Some d | None => fs2 !! p end
      else fs2 !! p.
Proof.
  intros Hready Hfs Hsize. set (es := blob_of (p_fs s)) in *.
  assert (Hes : Forall entry_wf es).
  { apply omap_paths_wf; [|intros; by eapply Hfs]. repeat constructor; done. }
  assert (Hlen : lenZ (serialize es) = PERSIST_BYTES).
  { unfold serialize in *. edestruct pad_blob_app as (z & _ & Hz). apply Z.le_antisymm; [exact Hsize|exact Hz]. }
  assert (Hok : bytes_ok (serialize es)) by (apply serialize_ok; intros p d Hp; by apply (Hfs p d)).
  destruct (bd_write_ok (p_disk s) DISK_IDX PERSIST_LBA PERSIST_SECTORS (serialize es))
    as (d1 & Ew & Hd1 & Hr1); [done|done|rewrite Hlen; done|done|].
  destruct (bd_read_ok d1 DISK_IDX PERSIST_LBA PERSIST_SECTORS (replicate (Z.to_nat PERSIST_BYTES) 0))
    as (d2 & Er & Hd2 & Hr2); [by apply Hr1|done|done|].
  rewrite (sectors_of_written _ _ _ (serialize es)) in Er; [|..|by rewrite Hlen].
  2:{ intros k Hk. rewrite Hd1, bool_decide_eq_true_2 by (split; [done|]; unfold PERSIST_SECTORS in *; lia).
      do 3 f_equal. lia. }
  exists d1, (mkPst (foldl (fun fs e => fs_create e.1 e.2 fs) fs2 es) d2). split_and!.
  - unfold save_from_ramfs. erewrite mbindM_Ret; [|done]. fold es.
    rewrite bool_decide_eq_false_2 by lia. unfold on_disk, zoom. by rewrite Ew.
  - unfold load_into_ramfs. erewrite mbindM_Ret.
    2:{ unfold try_, on_disk, zoom. cbn [p_disk]. by rewrite Er. }
    change (drop (Z.to_nat (PERSIST_SECTORS * 512)) _) with (@nil Z). rewrite app_nil_r.
    erewrite mbindM_Ret.
    2:{ unfold mlift. rewrite deserialize_serialize; [done|done|]. pose proof (lenZ_blob (p_fs s)) as Hb. unfold es. lia. }
    done.
  - apply restore_lookup.
Qed.

End reboot.

(** * Witnesses for the storage stack

    The persistent state on the ATA driver and a blank drive. *)

From S2P Require Import Ports Ata.

Definition demo_files : Ramfs := {[ bstr "/etc/passwd" := bstr "root:00:0:0:root:/root:/bin/sh" ]}.

Lemma persist_survives_reboot_witness :
  exists d1 s2, save_from_ramfs (mkPst demo_files demo_ata) = Ret (mkPst demo_files d1, Ok tt) /\
    load_into_ramfs (mkPst ∅ d1) = Ret (s2, Ok true) /\
    forall p, p_fs s2 !! p =
      if decide (p ∈ PERSISTED_PATHS)
      then match demo_files !! p with Some d => Some d | None => (∅ : Ramfs) !! p end
      else (∅ : Ramfs) !! p.
Proof.
  apply (persist_survives_reboot (mkPst demo_files demo_ata) ∅).
  - exact demo_ata_ready.
  - intros p d Hp. unfold p_fs, demo_files in Hp.
    apply lookup_singleton_Some in Hp as [_ <-]. split; [apply bstr_ok|]. unfold fits, lenZ. simpl. lia.
  - vm_compute. discriminate.
Defined.
