(* ===== verification/Users.v ===== *)
(** * users: local accounts

    src/kernel/src/users/mod.rs: the passwd parser and printer, password
    checks, and the operations that create an account, change a password
    and delete an account.  Every operation rewrites the file in memory and
    then the persistent state on disk. *)

From S2P Require Import Prelude Str Sha256 Ramfs BlockDev Persist.
Local Open Scope Z_scope.

Definition PASSWD_PATH : str := bstr "/etc/passwd".
Definition cr : Z := 13.
Definition hash_sign : Z := 35.

Record User := mkUser {
  u_name : str;
  u_hash : str;
  u_uid : Z;
  u_gid : Z;
  u_gecos : str;
  u_home : str;
  u_shell : str;
}.

(** ** Parsing and printing *)

(** One round of the loop of [parse_passwd]: the account of a line. *)
Definition parse_line (line : str) : option User :=
  let line := trim_end_matches cr line in
  if bool_decide (line = []) || starts_with [hash_sign] line then None else
  match str_split colon line with
  | [nm; hs; ui; gi; ge; ho; sh] =>
      match parse_uint 32 ui with
      | None => None
      | Some uid =>
          match parse_uint 32 gi with
          | None => None
          | Some gid => Some (mkUser nm hs uid gid ge ho sh)
          end
      end
  | _ => None
  end.

Definition parse_passwd (content : str) : list User := omap parse_line (lines content).

Definition format_user (u : User) : str :=
  u_name u ++ colon :: u_hash u ++ colon :: fmt_dec (u_uid u) ++ colon :: fmt_dec (u_gid u) ++
  colon :: u_gecos u ++ colon :: u_home u ++ colon :: u_shell u.

Definition serialize_users (users : list User) : str :=
  concat ((fun u => format_user u ++ [nl]) <$> users).

(** ** Looking up and authenticating *)

Definition load_users (fs : Ramfs) : result (list User) string :=
  match fs_read PASSWD_PATH fs with
  | Err _ => Err "users: /etc/passwd introuvable"%string
  | Ok bytes =>
      match from_utf8 bytes with
      | None => Err "users: /etc/passwd non-UTF8"%string
      | Some s => Ok (parse_passwd s)
      end
  end.

(** [load().unwrap_or_default()] *)
Definition users_or_default (fs : Ramfs) : list User :=
  match load_users fs with Ok us => us | Err _ => [] end.

Definition find_user (nm : str) (fs : Ramfs) : option User :=
  match load_users fs with
  | Err _ => None
  | Ok us => snd <$> list_find (fun u => u_name u = nm) us
  end.

Definition constant_time_eq (a b : list Z) : outcome bool :=
  if bool_decide (lenZ a <> lenZ b) then Ret false else
  diff ← ofold (fun diff i => x ← idx a i; y ← idx b i; Ret (Z.lor diff (Z.lxor x y)))
           0 (seqZ 0 (lenZ a));
  Ret (bool_decide (diff = 0)).

Definition hash_password (password : str) : outcome str := Sha256.sha256_hex password.

Definition authenticate (nm password : str) (fs : Ramfs) : outcome (option User) :=
  match find_user nm fs with
  | None => Ret None
  | Some user =>
      computed ← Sha256.sha256_hex password;
      ok ← constant_time_eq computed (u_hash user);
      Ret (if (ok : bool) then Some user else None)
  end.

(** ** Changing accounts *)

Inductive UserError :=
| NameTaken
| NameInvalid
| PasswordTooShort
| SaveFailed (e : string).

Definition name_char (c : Z) : bool :=
  bool_decide (48 <= c <= 57) || bool_decide (65 <= c <= 90) || bool_decide (97 <= c <= 122) ||
  bool_decide (c = 95) || bool_decide (c = 45).
Definition name_valid (nm : str) : bool :=
  negb (bool_decide (nm = []) || bool_decide (32 < lenZ nm)) && forallb name_char nm.

(** The largest uid of the ordinary accounts, plus one, or 1000. *)
Definition max_uid (users : list User) : option Z :=
  foldl (fun m u => if bool_decide (1000 <= u_uid u)
                    then Some (match m with Some x => Z.max x (u_uid u) | None => u_uid u end)
                    else m) None users.
Definition next_uid (users : list User) : outcome Z :=
  match max_uid users with Some m => m +! 1 @ 32 | None => Ret 1000 end.

Section users.
Context {D : Type} `{BlockDev D}.

Definition save_users (users : list User) : M (pst D) string unit :=
  _ ← on_fs (fs_write PASSWD_PATH (serialize_users users));
  save_from_ramfs.

(** [save(..).map_err(SaveFailed)?] *)
Definition save_or_fail (users : list User) : M (pst D) UserError unit :=
  r ← try_ (save_users users);
  match (r : result unit string) with Ok _ => mok tt | Err e => mfail (SaveFailed e) end.

Definition create_user (nm password : str) : M (pst D) UserError User :=
  if negb (name_valid nm) then mfail NameInvalid else
  if bool_decide (lenZ password < 4) then mfail PasswordTooShort else
  s ← mget;
  let users := users_or_default (p_fs s) in
  if bool_decide (Exists (fun u => u_name u = nm) users) then mfail NameTaken else
  uid ← mlift (next_uid users);
  hs ← mlift (hash_password password);
  let new_user := mkUser nm hs uid uid nm (bstr "/home/" ++ nm) (bstr "/bin/sh") in
  _ ← save_or_fail (users ++ [new_user]);
  mok new_user.

Definition set_hash (hs : str) (u : User) : User :=
  mkUser (u_name u) hs (u_uid u) (u_gid u) (u_gecos u) (u_home u) (u_shell u).

Definition set_password (uid : Z) (new_password : str) : M (pst D) UserError unit :=
  if bool_decide (lenZ new_password < 4) then mfail PasswordTooShort else
  s ← mget;
  let users := users_or_default (p_fs s) in
  match list_find (fun u => u_uid u = uid) users with
  | None => mfail NameInvalid
  | Some (i, u) =>
      hs ← mlift (hash_password new_password);
      save_or_fail (<[i := set_hash hs u]> users)
  end.

Definition delete_user (uid : Z) : M (pst D) UserError unit :=
  if bool_decide (uid = 0) then mfail NameInvalid else
  s ← mget;
  let users := users_or_default (p_fs s) in
  let kept := filter (fun u => u_uid u <> uid) users in
  if bool_decide (lenZ kept = lenZ users) then mfail NameInvalid else
  save_or_fail kept.

End users.

(** * Accounts: round trip and login

    Printing and parsing the passwd file are inverse on the accounts the
    kernel handles, because parsing only produces accounts that print back
    to themselves; so an account that [create_user] makes can log in with
    its password, and nobody else's login changes. *)


(** ** Well-formed accounts *)

Definition field_ok (f : str) : Prop := (colon ∉ f) /\ (nl ∉ f) /\ utf8_ok f = true.

Record user_wf (u : User) : Prop := {
  wf_name : field_ok (u_name u);
  wf_hash : field_ok (u_hash u);
  wf_uid : fits 32 (u_uid u);
  wf_gid : fits 32 (u_gid u);
  wf_gecos : field_ok (u_gecos u);
  wf_home : field_ok (u_home u);
  wf_shell : field_ok (u_shell u);
  wf_comment : head (u_name u) <> Some hash_sign;
  wf_cr : last (u_shell u) <> Some cr;
}.

Definition fields (u : User) : list str :=
  [u_name u; u_hash u; fmt_dec (u_uid u); fmt_dec (u_gid u); u_gecos u; u_home u; u_shell u].

Lemma format_join u : format_user u = str_join colon (fields u).
Proof. done. Qed.

Lemma dec_field n : 0 <= n -> field_ok (fmt_dec n).
Proof.
  intros Hn. unfold field_ok, colon, nl. split_and!; [apply fmt_dec_notin; lia..|].
  by apply ascii_utf8, digits_ascii, fmt_dec_range.
Qed.

Lemma fields_ok u : user_wf u -> Forall field_ok (fields u).
Proof.
  intros []. unfold fits in *. unfold fields.
  repeat (apply Forall_cons_2; [first [done|apply dec_field; lia]|]). apply Forall_nil_2.
Qed.

Lemma format_no_nl u : user_wf u -> nl ∉ format_user u.
Proof.
  intros Hu. rewrite format_join. pose proof (fields_ok u Hu) as Hf.
  assert (H : Forall (fun c => c <> nl) (str_join colon (fields u))).
  { apply str_join_Forall; [done|]. eapply Forall_impl; [exact Hf|].
    intros f (_ & Hnl & _). apply Forall_forall. intros c Hc ->. done. }
  intros Hin. by apply (proj1 (Forall_forall _ _) H _ Hin).
Qed.

Lemma format_last u : user_wf u -> last (format_user u) <> Some cr.
Proof.
  intros Hu. rewrite format_join.
  change (fields u) with ([u_name u; u_hash u; fmt_dec (u_uid u); fmt_dec (u_gid u); u_gecos u; u_home u]
    ++ [u_shell u]). apply last_join_ne; [done|apply (wf_cr u Hu)|done].
Qed.

Lemma parse_format u : user_wf u -> parse_line (format_user u) = Some u.
Proof.
  intros Hu. unfold parse_line. rewrite trim_end_matches_id by (by apply format_last).
  rewrite bool_decide_eq_false_2.
  2:{ unfold format_user. by destruct (u_name u). }
  replace (starts_with [hash_sign] (format_user u)) with false.
  2:{ symmetry. apply not_true_iff_false. rewrite starts_with_head. unfold format_user.
      pose proof (wf_comment u Hu). by destruct (u_name u). }
  cbn [orb]. rewrite format_join, str_split_join; [|done|].
  2:{ eapply Forall_impl; [by apply fields_ok|]. by intros f (? & _). }
  unfold fields. rewrite !parse_fmt_dec by (try lia; apply Hu). by destruct u.
Qed.

(** Parsing what is printed. *)
Lemma parse_serialize us : Forall user_wf us -> parse_passwd (serialize_users us) = us.
Proof.
  intros Hus. unfold parse_passwd, serialize_users.
  change (fun u => format_user u ++ [nl]) with ((fun l => l ++ [nl]) ∘ format_user).
  rewrite list_fmap_compose, lines_concat.
  - induction Hus as [|u us Hu Hus IH]; [done|]. cbn [fmap list_fmap omap list_omap].
    rewrite parse_format by done. by f_equal.
  - apply Forall_fmap. eapply Forall_impl; [exact Hus|]. intros u Hu.
    split; [by apply format_no_nl|by apply format_last].
Qed.

Lemma serialize_users_utf8 us : Forall user_wf us -> utf8_ok (serialize_users us) = true.
Proof.
  intros Hus. apply utf8_concat, Forall_fmap. eapply Forall_impl; [exact Hus|]. intros u Hu. simpl.
  rewrite utf8_app; [done|]. rewrite format_join. apply str_join_utf8; [done|].
  eapply Forall_impl; [by apply fields_ok|]. by intros f (_ & _ & ?).
Qed.

(** ** Parsing yields well-formed accounts *)

Lemma parse_line_wf line u :
  utf8_ok line = true -> (nl ∉ line) -> parse_line line = Some u -> user_wf u.
Proof.
  intros Hutf Hnl. unfold parse_line.
  pose proof (trim_end_matches_utf8 cr line ltac:(done) Hutf) as Hu'.
  assert (Hnl' : nl ∉ trim_end_matches cr line).
  { destruct (trim_end_matches_prefix cr line) as (k & Hk). rewrite Hk in Hnl.
    by apply not_elem_of_app in Hnl as [? _]. }
  pose proof (last_trim_end_matches cr line) as Hlast.
  set (t := trim_end_matches cr line) in *. clearbody t.
  destruct (_ || _) eqn:Eh; [done|]. apply orb_false_iff in Eh as [_ Hhash].
  assert (Hf : Forall field_ok (str_split colon t)).
  { unfold field_ok. rewrite !Forall_and. split_and!; [apply str_split_pieces| |by apply str_split_utf8].
    assert (H : Forall (fun c => c <> nl) t) by (apply Forall_forall; intros c Hc ->; done).
    apply (str_split_Forall _ colon) in H. eapply Forall_impl; [exact H|].
    intros w Hw Hin. by apply (proj1 (Forall_forall _ _) Hw _ Hin). }
  pose proof (str_join_split colon t) as Hj.
  destruct (str_split colon t) as [|nm [|hs [|ui [|gi [|ge [|ho [|sh [|]]]]]]]] eqn:Es; try done.
  destruct (parse_uint 32 ui) as [uid|] eqn:Eu; [|done].
  destruct (parse_uint 32 gi) as [gid|] eqn:Eg; [|done]. intros [= <-].
  rewrite !Forall_cons in Hf. destruct Hf as (H1 & H2 & _ & _ & H5 & H6 & H7 & _).
  split; cbn [u_name u_hash u_uid u_gid u_gecos u_home u_shell]; try done.
  - by apply (parse_uint_fits 32 ui).
  - by apply (parse_uint_fits 32 gi).
  - intros Hh. apply not_true_iff_false in Hhash. apply Hhash, starts_with_head.
    rewrite <- Hj. by apply head_join.
  - intros Hl. apply Hlast. rewrite <- Hj.
    by apply (last_join colon [nm; hs; ui; gi; ge; ho] sh).
Qed.

Lemma parse_passwd_wf content : utf8_ok content = true -> Forall user_wf (parse_passwd content).
Proof.
  intros Hutf. apply Forall_forall. intros u (line & Hline & Hu)%list_elem_of_omap.
  destruct (lines_utf8 content line Hutf Hline) as [Hl Hnl]. by eapply parse_line_wf.
Qed.

Lemma users_or_default_wf fs : Forall user_wf (users_or_default fs).
Proof.
  unfold users_or_default, load_users, from_utf8.
  destruct (fs_read _ _); [|constructor]. destruct (utf8_ok a) eqn:E; [|constructor].
  by apply parse_passwd_wf.
Qed.

(** What a file of well-formed accounts loads as. *)
Lemma load_saved us fs :
  Forall user_wf us -> load_users (fs_write PASSWD_PATH (serialize_users us) fs) = Ok us.
Proof.
  intros Hus. unfold load_users, fs_read, fs_write. rewrite lookup_insert_eq.
  unfold from_utf8. by rewrite serialize_users_utf8, parse_serialize.
Qed.

(** ** Passwords *)

Lemma lor_zero a b : 0 <= a -> 0 <= b -> Z.lor a b = 0 <-> a = 0 /\ b = 0.
Proof. intros. apply Z.lor_eq_0_iff. Qed.

Lemma diff_loop a b : forall n k diff,
  length a = length b -> (k + n = length a)%nat ->
  exists d, ofold (fun diff i => x ← idx a i; y ← idx b i; Ret (Z.lor diff (Z.lxor x y)))
      diff (seqZ (Z.of_nat k) (Z.of_nat n)) = Ret d /\
    (d = 0 <-> diff = 0 /\ drop k a = drop k b).
Proof.
  induction n as [|n IH]; intros k diff Hl Hk.
  { exists diff. split; [done|]. rewrite !drop_ge by lia. tauto. }
  rewrite seqZ_cons by lia. cbn [ofold].
  destruct (lookup_lt_is_Some_2 a k) as [x Hx]; [lia|].
  destruct (lookup_lt_is_Some_2 b k) as [y Hy]; [lia|].
  assert (Ex : idx a (Z.of_nat k) = Ret x) by (apply idx_Ret; rewrite Nat2Z.id; split; [lia|done]).
  assert (Ey : idx b (Z.of_nat k) = Ret y) by (apply idx_Ret; rewrite Nat2Z.id; split; [lia|done]).
  rewrite Ex, Ey. obind. replace (Z.succ (Z.of_nat k)) with (Z.of_nat (S k)) by lia.
  replace (Z.pred (Z.of_nat (S n))) with (Z.of_nat n) by lia.
  destruct (IH (S k) (Z.lor diff (Z.lxor x y))) as (d & -> & Hd); [done|lia|].
  exists d. split; [done|]. rewrite Hd, Z.lor_eq_0_iff, Z.lxor_eq_0_iff.
  rewrite (drop_S a x k), (drop_S b y k) by done. split; [intros [[-> ->] ->]; done|].
  intros [-> [= -> ->]]. done.
Qed.

(** The comparison decides equality. *)
Lemma constant_time_eq_spec a b : constant_time_eq a b = Ret (bool_decide (a = b)).
Proof.
  unfold constant_time_eq. case_bool_decide as Hl.
  - rewrite bool_decide_eq_false_2; [done|]. by intros ->.
  - assert (Hl' : length a = length b) by (unfold lenZ in Hl; lia).
    destruct (diff_loop a b (length a) 0 0 Hl' eq_refl) as (d & E & Hd).
    unfold lenZ. setoid_rewrite E. obind. f_equal. apply bool_decide_ext.
    rewrite Hd, !drop_0. tauto.
Qed.

Lemma hex_field s : Forall Sha256.hex_char s -> field_ok s.
Proof.
  intros Hs. unfold field_ok, colon, nl. unfold Sha256.hex_char in Hs.
  split_and!; [intros Hin; apply (proj1 (Forall_forall _ _) Hs) in Hin; lia..|].
  apply ascii_utf8. induction Hs; [done|]. simpl. by rewrite bool_decide_eq_true_2 by lia.
Qed.

Lemma name_char_range c : name_char c = true -> 45 <= c < 128 /\ c <> 58.
Proof.
  unfold name_char. intros H. repeat (apply orb_prop in H as [H|H]);
    apply bool_decide_eq_true in H; lia.
Qed.

Lemma name_valid_field nm :
  name_valid nm = true -> field_ok nm /\ head nm <> Some hash_sign /\ utf8_ok (bstr "/home/" ++ nm) = true.
Proof.
  unfold name_valid. intros [_ H]%andb_prop.
  assert (Hc : Forall (fun c => 45 <= c < 128 /\ c <> 58) nm).
  { induction nm as [|c nm IH]; [constructor|]. simpl in H. apply andb_prop in H as [Hc Hn].
    constructor; [by apply name_char_range|auto]. }
  assert (Ha : ascii nm = true).
  { clear H. induction Hc; [done|]. simpl. by rewrite bool_decide_eq_true_2 by lia. }
  unfold field_ok, colon, nl, hash_sign. split_and!.
  - intros Hin. apply (proj1 (Forall_forall _ _) Hc) in Hin. lia.
  - intros Hin. apply (proj1 (Forall_forall _ _) Hc) in Hin. lia.
  - by apply ascii_utf8.
  - destruct Hc; simpl; [done|]. intros [= ->]. lia.
  - rewrite utf8_app by done. by apply ascii_utf8.
Qed.

(** ** The operations *)

Lemma max_uid_spec us :
  match max_uid us with
  | Some m => 1000 <= m /\ Forall (fun u => u_uid u <= m) us \/ Forall (fun u => u_uid u < 1000) us
  | None => Forall (fun u => u_uid u < 1000) us
  end.
Proof.
  unfold max_uid. induction us as [|u us IH] using rev_ind; [constructor|].
  rewrite foldl_app. cbn [foldl]. set (m := foldl _ None us) in *. case_bool_decide as Hu.
  - left. destruct m as [m|].
    + split; [lia|]. apply Forall_app. split; [|constructor; [lia|constructor]].
      destruct IH as [[? IH]|IH]; (eapply Forall_impl; [exact IH|]); simpl; lia.
    + split; [lia|]. apply Forall_app. split; [|constructor; [lia|constructor]].
      eapply Forall_impl; [exact IH|]. simpl. lia.
  - destruct m as [m|].
    + destruct IH as [[? IH]|IH]; [left|right]; rewrite Forall_app; (split_and!; [try done..|]);
        constructor; [lia|constructor|lia|constructor].
    + apply Forall_app. split; [done|]. constructor; [lia|constructor].
Qed.

Lemma max_uid_ge us m : max_uid us = Some m -> 1000 <= m.
Proof.
  unfold max_uid. revert m. induction us as [|u us IH] using rev_ind; [done|]. intros m.
  rewrite foldl_app. cbn [foldl]. case_bool_decide; [|apply IH].
  intros [= <-]. case_match; lia.
Qed.

(** A new uid is an ordinary one that no account has. *)
Lemma next_uid_fresh us n :
  next_uid us = Ret n -> 1000 <= n < 2 ^ 32 /\ Forall (fun u => u_uid u <> n) us.
Proof.
  unfold next_uid. pose proof (max_uid_spec us) as Hs. pose proof (max_uid_ge us) as Hg.
  destruct (max_uid us) as [m|].
  - specialize (Hg m eq_refl). intros [? ->]%add_chk_Ret. split; [lia|].
    destruct Hs as [[_ Hs]|Hs]; (eapply Forall_impl; [exact Hs|]); simpl; lia.
  - intros [= <-]. split; [done|]. eapply Forall_impl; [exact Hs|]. simpl. lia.
Qed.

Section ops.
Context {D : Type} `{BlockDev D}.
Implicit Types s : pst D.

Lemma save_from_ramfs_fs s s' r : save_from_ramfs s = Ret (s', r) -> p_fs s' = p_fs s.
Proof.
  unfold save_from_ramfs, mbind, M_bind, mbindM, mget. case_bool_decide; [by intros [= <- <-]|].
  unfold on_disk, zoom. destruct (bd_write _ _ _ _ _) as [[d r']|]; [|done]. by intros [= <- <-].
Qed.

(** Whatever the disk answers, the file in memory is the new one. *)
Lemma save_or_fail_fs us s s' r :
  save_or_fail us s = Ret (s', r) ->
  p_fs s' = fs_write PASSWD_PATH (serialize_users us) (p_fs s).
Proof.
  unfold save_or_fail, save_users. unfold mbind, M_bind, mbindM, try_, on_fs, modify.
  destruct (save_from_ramfs _) as [[s1 r1]|] eqn:E; [|done].
  apply save_from_ramfs_fs in E. cbn [p_fs] in E.
  destruct r1; intros [= <- <-]; done.
Qed.

Lemma create_user_inv nm pw s s' r :
  create_user nm pw s = Ret (s', r) ->
  (exists e, r = Err e /\ s' = s /\ (e = NameInvalid \/ e = PasswordTooShort \/ e = NameTaken)) \/
  exists hs n, let us := users_or_default (p_fs s) in
    let u := mkUser nm hs n n nm (bstr "/home/" ++ nm) (bstr "/bin/sh") in
    name_valid nm = true /\ Forall (fun u => u_name u <> nm) us /\ next_uid us = Ret n /\
    Sha256.sha256_hex pw = Ret hs /\
    p_fs s' = fs_write PASSWD_PATH (serialize_users (us ++ [u])) (p_fs s) /\
    (r = Ok u \/ exists e, r = Err (SaveFailed e)).
Proof.
  unfold create_user. destruct (name_valid nm) eqn:En; cbn [negb].
  2:{ intros [= <- <-]. left. eauto 10. }
  case_bool_decide as Hp; [intros [= <- <-]; left; eauto 10|].
  unfold mbind, M_bind. unfold mbindM at 1. cbn [mget].
  case_bool_decide as Hx; [intros [= <- <-]; left; eauto 10|].
  unfold mbindM, mlift, hash_password.
  destruct (next_uid _) as [n|] eqn:Eu; [|done]. destruct (Sha256.sha256_hex pw) as [hs|] eqn:Eh; [|done].
  intros E. right. exists hs, n. cbv zeta. split_and!; [done|by apply Forall_Exists_neg|done..| |].
  - destruct (save_or_fail _ s) as [[s1 r1]|] eqn:Es; [|done]. apply save_or_fail_fs in Es.
    destruct r1; injection E as <- <-; exact Es.
  - revert E. unfold save_or_fail, mbind, M_bind, mbindM, try_.
    destruct (save_users _ s) as [[s1 [[]|e]]|]; [| |done]; intros [= <- <-]; eauto.
Qed.

Lemma notin_literal (c : Z) (l : str) : bool_decide (c ∉ l) = true -> c ∉ l.
Proof. apply bool_decide_eq_true_1. Qed.

Lemma new_user_wf nm hs n :
  name_valid nm = true -> Forall Sha256.hex_char hs -> 1000 <= n < 2 ^ 32 ->
  user_wf (mkUser nm hs n n nm (bstr "/home/" ++ nm) (bstr "/bin/sh")).
Proof.
  intros (Hf & Hh & Hu)%name_valid_field Hx Hn. pose proof (hex_field hs Hx).
  split; cbn [u_name u_hash u_uid u_gid u_gecos u_home u_shell]; try done;
    try (unfold fits; lia).
  - destruct Hf as (? & ? & ?). split_and!; [..|done]; apply not_elem_of_app; split; try done;
      by apply notin_literal.
  - split_and!; [by apply notin_literal..|done].
Qed.

Lemma find_saved us nm fs :
  Forall user_wf us ->
  find_user nm (fs_write PASSWD_PATH (serialize_users us) fs) =
    snd <$> list_find (fun u => u_name u = nm) us.
Proof. intros. unfold find_user. by rewrite load_saved. Qed.

Lemma find_default nm fs :
  find_user nm fs = snd <$> list_find (fun u => u_name u = nm) (users_or_default fs).
Proof. unfold find_user, users_or_default. by destruct (load_users fs). Qed.

Lemma authenticate_eq fs fs' nm pw :
  find_user nm fs = find_user nm fs' -> authenticate nm pw fs = authenticate nm pw fs'.
Proof. intros E. unfold authenticate. by rewrite E. Qed.

(** What the file that [create_user] leaves in memory means for logins. *)
Lemma created_logins nm pw hs n fs fs' :
  let us := users_or_default fs in
  let u := mkUser nm hs n n nm (bstr "/home/" ++ nm) (bstr "/bin/sh") in
  name_valid nm = true -> Forall (fun u => u_name u <> nm) us -> next_uid us = Ret n ->
  Sha256.sha256_hex pw = Ret hs -> fs' = fs_write PASSWD_PATH (serialize_users (us ++ [u])) fs ->
  authenticate nm pw fs' = Ret (Some u) /\
  forall nm' pw', nm' <> nm -> authenticate nm' pw' fs' = authenticate nm' pw' fs.
Proof.
  intros us u Hn Hus Huid Hhs ->.
  destruct (Sha256.sha256_hex_total pw) as (hs' & Ehs & Hx). rewrite Hhs in Ehs. injection Ehs as <-.
  destruct (next_uid_fresh us n Huid) as [Hr _].
  assert (Hwf : Forall user_wf (us ++ [u])).
  { apply Forall_app. split; [apply users_or_default_wf|].
    apply Forall_cons_2; [by apply new_user_wf|constructor]. }
  split.
  - unfold authenticate. rewrite find_saved by done. rewrite list_find_app_r.
    2:{ apply list_find_None. done. }
    cbn [list_find]. rewrite decide_True by done. simpl. rewrite Hhs. obind.
    rewrite constant_time_eq_spec. obind. by rewrite bool_decide_eq_true_2.
  - intros nm' pw' Hne. apply authenticate_eq. rewrite find_saved, find_default by done. fold us.
    destruct (list_find (fun u => u_name u = nm') us) as [[i v]|] eqn:E.
    + by rewrite (list_find_app_l _ _ _ _ _ E).
    + rewrite list_find_app_r by done. cbn [list_find]. by rewrite decide_False by (simpl; congruence).
Qed.

(** C20.  A created account can log in: when [create_user] succeeds, the
    name and the password authenticate as the account it returned, its uid
    is an ordinary one that no account had, and every other name
    authenticates with every password exactly as before, whatever the file
    held. *)
Theorem create_user_login (nm pw : str) s s' (u : User) :
  create_user nm pw s = Ret (s', Ok u) ->
  authenticate nm pw (p_fs s') = Ret (Some u) /\
  (1000 <= u_uid u < 2 ^ 32 /\ Forall (fun v => u_uid v <> u_uid u) (users_or_default (p_fs s))) /\
  forall nm' pw', nm' <> nm -> authenticate nm' pw' (p_fs s') = authenticate nm' pw' (p_fs s).
Proof.
  intros [(e & ? & _)|(hs & n & Hn & Hus & Huid & Hhs & Hfs & [[= ->]|(e & ?)])]%create_user_inv;
    [done| |done].
  destruct (created_logins nm pw hs n (p_fs s) (p_fs s') Hn Hus Huid Hhs Hfs) as [H1 H2].
  split; [exact H1|]. split; [by apply next_uid_fresh|exact H2].
Qed.

(** Property.  [create_user] can fail and still create the account: when the
    state cannot be written to disk it returns the error, but the account
    is in the passwd file in memory and can log in until the next reboot. *)
Theorem create_user_failed_save (nm pw : str) s s' (e : string) :
  create_user nm pw s = Ret (s', Err (SaveFailed e)) ->
  exists u, authenticate nm pw (p_fs s') = Ret (Some u) /\ u_name u = nm.
Proof.
  intros [(e' & [= <-] & _ & [?|[?|?]])|(hs & n & Hn & Hus & Huid & Hhs & Hfs & _)]%create_user_inv;
    try done.
  destruct (created_logins nm pw hs n (p_fs s) (p_fs s') Hn Hus Huid Hhs Hfs) as [H1 _].
  eexists. split; [exact H1|done].
Qed.

(** Deleting a uid leaves exactly the other accounts; uid 0 is refused. *)
Theorem delete_user_spec uid s s' :
  delete_user uid s = Ret (s', Ok tt) ->
  uid <> 0 /\ load_users (p_fs s') = Ok (filter (fun u => u_uid u <> uid) (users_or_default (p_fs s))).
Proof.
  unfold delete_user. case_bool_decide; [done|]. unfold mbind, M_bind. unfold mbindM at 1. cbn [mget].
  case_bool_decide; [done|]. intros E%save_or_fail_fs. split; [done|]. rewrite E.
  apply load_saved, Forall_forall. intros u [_ Hu]%list_elem_of_filter.
  exact (proj1 (Forall_forall _ _) (users_or_default_wf _) u Hu).
Qed.

Lemma set_hash_wf hs u : field_ok hs -> user_wf u -> user_wf (set_hash hs u).
Proof. intros Hh []. by split. Qed.

(** A changed password is the hash of the first account with the uid, and
    no other field of any account changes. *)
Theorem set_password_spec uid pw s s' :
  set_password uid pw s = Ret (s', Ok tt) ->
  exists i u hs, list_find (fun u => u_uid u = uid) (users_or_default (p_fs s)) = Some (i, u) /\
    Sha256.sha256_hex pw = Ret hs /\
    load_users (p_fs s') = Ok (<[i := set_hash hs u]> (users_or_default (p_fs s))).
Proof.
  unfold set_password. case_bool_decide; [done|]. unfold mbind, M_bind. unfold mbindM at 1. cbn [mget].
  destruct (list_find _ _) as [[i u]|] eqn:Ef; [|done].
  unfold mbindM, mlift, hash_password. destruct (Sha256.sha256_hex_total pw) as (hs & Ehs & Hx).
  rewrite Ehs. intros E%save_or_fail_fs. exists i, u, hs. split_and!; [done..|]. rewrite E.
  pose proof (users_or_default_wf (p_fs s)) as Hwf.
  apply load_saved, Forall_insert; [done|]. apply set_hash_wf; [by apply hex_field|].
  apply list_find_Some in Ef as (Hl & _ & _). by eapply Forall_lookup_1.
Qed.

End ops.

(** Property.  Reading the passwd file and writing it back loses nothing:
    whatever valid text the file holds, the accounts parsed from it print
    to a text that parses to the same accounts. *)
Theorem passwd_roundtrip (content : str) :
  utf8_ok content = true ->
  parse_passwd (serialize_users (parse_passwd content)) = parse_passwd content /\
  utf8_ok (serialize_users (parse_passwd content)) = true.
Proof.
  intros Hc. pose proof (parse_passwd_wf content Hc).
  split; [by apply parse_serialize|by apply serialize_users_utf8].
Qed.

(** ** Witnesses *)

Definition demo_passwd : str :=
  bstr "# accounts" ++ [nl; nl] ++ bstr "root:00:0:0:root:/root:/bin/sh" ++ [cr; nl] ++ bstr "broken" ++ [nl].

Lemma passwd_roundtrip_witness :
  parse_passwd (serialize_users (parse_passwd demo_passwd)) = parse_passwd demo_passwd /\
  utf8_ok (serialize_users (parse_passwd demo_passwd)) = true.
Proof. apply (passwd_roundtrip demo_passwd). reflexivity. Defined.

(** A disk that takes every write, and one that refuses. *)
Definition yes_disk : BlockDev unit := {|
  bd_read _ _ _ buf := mok buf;
  bd_write _ _ _ _ := mok tt;
|}.
Definition no_disk : BlockDev unit := {|
  bd_read _ _ _ _ := mfail "disque introuvable"%string;
  bd_write _ _ _ _ := mfail "disque introuvable"%string;
|}.

Definition demo_pst : pst unit := mkPst {[ PASSWD_PATH := demo_passwd ]} tt.
Definition demo_create (b : BlockDev unit) : outcome (pst unit * result User UserError) :=
  @create_user unit b (bstr "ann") (bstr "secret") demo_pst.
Definition demo_default : pst unit * result User UserError := (mkPst ∅ tt, Err NameTaken).

Definition demo_user : User :=
  mkUser (bstr "ann") (ret_or [] (Sha256.sha256_hex (bstr "secret"))) 1000 1000 (bstr "ann")
    (bstr "/home/ann") (bstr "/bin/sh").

Lemma create_user_login_witness :
  let s' := (ret_or demo_default (demo_create yes_disk)).1 in
  authenticate (bstr "ann") (bstr "secret") (p_fs s') = Ret (Some demo_user) /\
  (1000 <= u_uid demo_user < 2 ^ 32 /\
   Forall (fun v => u_uid v <> u_uid demo_user) (users_or_default (p_fs demo_pst))) /\
  forall nm' pw', nm' <> bstr "ann" ->
    authenticate nm' pw' (p_fs s') = authenticate nm' pw' (p_fs demo_pst).
Proof.
  cbv zeta. assert (H : demo_create yes_disk =
    Ret ((ret_or demo_default (demo_create yes_disk)).1, Ok demo_user))
    by (apply ret_or_snd; vm_compute; reflexivity).
  exact (@create_user_login unit yes_disk (bstr "ann") (bstr "secret") demo_pst _ _ H).
Defined.

Lemma create_user_failed_save_witness :
  let s' := (ret_or demo_default (demo_create no_disk)).1 in
  exists u, authenticate (bstr "ann") (bstr "secret") (p_fs s') = Ret (Some u) /\ u_name u = bstr "ann".
Proof.
  cbv zeta. assert (H : demo_create no_disk =
    Ret ((ret_or demo_default (demo_create no_disk)).1, Err (SaveFailed "disque introuvable"%string)))
    by (apply ret_or_snd; vm_compute; reflexivity).
  exact (@create_user_failed_save unit no_disk (bstr "ann") (bstr "secret") demo_pst _ _ H).
Defined.
