(* ===== verification/Part.v ===== *)
(** * drivers/part.rs: the partition table

    The MBR scan of src/kernel/src/drivers/part.rs and the searches for the
    first FAT32 and the first Linux partition. *)

From S2P Require Import Prelude Str Ramfs BlockDev.
Local Open Scope Z_scope.

Inductive PartitionType :=
| Empty | Fat12 | Fat16 | PFat32 | Fat32Lba | Fat16Lba | Ntfs | Linux | LinuxSwap | GptProtective
| Unknown (t : Z).
#[export] Instance PartitionType_eq_dec : EqDecision PartitionType.
Proof. solve_decision. Defined.

Definition from_mbr_type (t : Z) : PartitionType :=
  if bool_decide (t = 0x00) then Empty
  else if bool_decide (t = 0x01) then Fat12
  else if bool_decide (t = 0x04 \/ t = 0x06) then Fat16
  else if bool_decide (t = 0x0B) then PFat32
  else if bool_decide (t = 0x0C) then Fat32Lba
  else if bool_decide (t = 0x0E) then Fat16Lba
  else if bool_decide (t = 0x07) then Ntfs
  else if bool_decide (t = 0x83) then Linux
  else if bool_decide (t = 0x82) then LinuxSwap
  else if bool_decide (t = 0xEE) then GptProtective
  else Unknown t.

Definition is_fat32 (t : PartitionType) : bool :=
  match t with PFat32 | Fat32Lba => true | _ => false end.

Record Partition := mkPartition {
  pt_disk_idx : Z;
  pt_index : Z;
  part_type : PartitionType;
  start_lba : Z;
  pt_sectors : Z;
  bootable : bool;
  label : str;
}.

(** Entry [i] of the table at 0x1BE. *)
Definition mbr_entry (disk_idx : Z) (buf : list Z) (i : Z) : outcome (option Partition) :=
  let base := 0x1BE + i * 16 in
  status ← idx buf base;
  ptype ← idx buf (base + 4);
  start ← u32_at buf (base + 8);
  secs ← u32_at buf (base + 12);
  let pt := from_mbr_type ptype in
  if bool_decide (pt = Empty) then Ret None else
  Ret (Some (mkPartition disk_idx i pt start secs (bool_decide (status = 0x80)) [])).

Definition mbr_parts (disk_idx : Z) (buf : list Z) : outcome (list Partition) :=
  ofold (fun parts i => e ← mbr_entry disk_idx buf i;
                        Ret (match e with Some p => parts ++ [p] | None => parts end))
    [] (seqZ 0 4).

(** The disk and the [Once] cell of the detected partitions. *)
Record parts_state (D : Type) := mkParts { pa_disk : D; pa_parts : option (list Partition) }.
Arguments mkParts {D} _ _.
Arguments pa_disk {D} _.
Arguments pa_parts {D} _.

Section part.
Context {D : Type} `{BlockDev D}.

Definition call_once_parts (l : list Partition) : M (parts_state D) unit unit :=
  modify (fun s => mkParts (pa_disk s) (Some (default l (pa_parts s)))).

Definition part_init (disk_idx : Z) : M (parts_state D) unit unit :=
  r ← try_ (zoom pa_disk (fun d s => mkParts d (pa_parts s)) (bd_read disk_idx 0 1 (replicate 512 0)));
  match (r : result (list Z) string) with
  | Err _ => call_once_parts []
  | Ok buf =>
      b510 ← mlift (idx buf 510); b511 ← mlift (idx buf 511);
      if bool_decide (b510 <> 0x55) || bool_decide (b511 <> 0xAA) then call_once_parts []
      else parts ← mlift (mbr_parts disk_idx buf); call_once_parts parts
  end.

End part.

Definition find_part (p : PartitionType -> bool) (parts : option (list Partition)) : option (Z * Z * Z) :=
  match parts with
  | None => None
  | Some l =>
      match list_find (fun e => p (part_type e) = true) l with
      | Some (_, e) => Some (pt_disk_idx e, start_lba e, pt_sectors e)
      | None => None
      end
  end.

Definition find_first_fat32 : option (list Partition) -> option (Z * Z * Z) := find_part is_fat32.
Definition find_first_linux : option (list Partition) -> option (Z * Z * Z) :=
  find_part (fun t => bool_decide (t = Linux)).
