(* ===== verification/Fat32.v ===== *)
(** * drivers/fat32.rs: the FAT32 file system

    The driver of src/kernel/src/drivers/fat32.rs over a block device:
    mounting, cluster chains, directories with long names, path
    resolution, and the write path (allocation in the FAT copies, cluster
    writes, root directory entries).

    Reads take their error as a string.  The loops of the write path have
    no bound of their own, so they take a fuel, and their error [None]
    means that the loop is still running when the fuel ends. *)

From S2P Require Import Prelude Str Ramfs BlockDev Part.
Local Open Scope Z_scope.

Definition SECTOR : Z := 512.

Record Bpb := mkBpb {
  bytes_per_sector : Z;
  sectors_per_cluster : Z;
  reserved_sectors : Z;
  num_fats : Z;
  total_sectors : Z;
  sectors_per_fat : Z;
  root_cluster : Z;
  fs_info_sector : Z;
  volume_label : str;
}.

Record DirEntry := mkDirEntry { de_name : str; is_dir : bool; de_size : Z; cluster : Z }.

Record Fat32 := mkFat32 {
  disk_idx : Z;
  part_start_lba : Z;
  bpb : Bpb;
  data_start_lba : Z;
  fat_start_lba : Z;
}.

(** ** Directory entries *)

(** Byte [j] and the 16-bit field at [j] of a 32-byte entry. *)
Definition at_ (entry : list Z) (j : nat) : Z := nth j entry 0.
Definition u16e (entry : list Z) (j : nat) : Z := of_le [at_ entry j; at_ entry (j + 1)].
Definition u32e (entry : list Z) (j : nat) : Z :=
  of_le [at_ entry j; at_ entry (j + 1); at_ entry (j + 2); at_ entry (j + 3)].

(** One group of characters of a long-name entry, up to its terminator. *)
Fixpoint lfn_chars (entry : list Z) (js : list nat) (acc : str) : str :=
  match js with
  | [] => acc
  | j :: js' =>
      let c := u16e entry j in
      if bool_decide (c = 0 \/ c = 0xFFFF) then acc
      else lfn_chars entry js' (match char_from_u32 c with Some ch => acc ++ encode_char ch | None => acc end)
  end.
Definition lfn_part (entry : list Z) : str :=
  let n := lfn_chars entry [1; 3; 5; 7; 9]%nat [] in
  let n := lfn_chars entry [14; 16; 18; 20; 22; 24]%nat n in
  lfn_chars entry [28; 30]%nat n.

(** [sort_by_key(|(seq, _)| *seq)], a stable sort. *)
Fixpoint insert_seq (x : Z * str) (l : list (Z * str)) : list (Z * str) :=
  match l with
  | [] => [x]
  | y :: l' => if bool_decide (x.1 < y.1) then x :: l else y :: insert_seq x l'
  end.
Definition sort_seq (l : list (Z * str)) : list (Z * str) := foldl (fun acc x => insert_seq x acc) [] l.

Definition short_name (entry : list Z) : str :=
  let base := trim (default (bstr "?") (from_utf8 (take 8 entry))) in
  let ext := trim (default [] (from_utf8 (take 3 (drop 8 entry)))) in
  if bool_decide (ext = []) then base else base ++ [46] ++ ext.

(** One round of the loop on a 32-byte entry: [None] ends the directory. *)
Definition dir_step (entry : list Z) (lfn : list (Z * str)) (entries : list DirEntry) :
    option (list (Z * str) * list DirEntry) :=
  if bool_decide (at_ entry 0 = 0x00) then None
  else if bool_decide (at_ entry 0 = 0xE5) then Some (lfn, entries)
  else
    let attrs := at_ entry 11 in
    if bool_decide (attrs = 0x0F) then
      Some (lfn ++ [(Z.land (at_ entry 0) 0x3F, lfn_part entry)], entries)
    else if bool_decide (Z.land attrs 0x08 <> 0 /\ Z.land attrs 0x10 = 0) then Some ([], entries)
    else
      let name := if bool_decide (lfn <> []) then concat (snd <$> sort_seq lfn) else short_name entry in
      if bool_decide (name = [46] \/ name = [46; 46]) then Some ([], entries)
      else
        let isd := bool_decide (Z.land attrs 0x10 <> 0) in
        let cl := Z.lor (Z.shiftl (u16e entry 20) 16) (u16e entry 26) in
        Some ([], entries ++ [mkDirEntry name isd (u32e entry 28) cl]).

(** [while i + 32 <= raw.len()]: a round per 32 bytes. *)
Fixpoint dir_loop (fuel : nat) (raw : list Z) (lfn : list (Z * str)) (entries : list DirEntry) : list DirEntry :=
  match fuel with
  | O => entries
  | S f =>
      if bool_decide (32 <= lenZ raw) then
        match dir_step (take 32 raw) lfn entries with
        | Some (lfn', entries') => dir_loop f (drop 32 raw) lfn' entries'
        | None => entries
        end
      else entries
  end.
Definition parse_dir_entries (raw : list Z) : list DirEntry := dir_loop (length raw) raw [] [].

(** ** Names *)

Definition is_valid_short_byte (b : Z) : bool :=
  bool_decide (65 <= b <= 90) || bool_decide (48 <= b <= 57) ||
  bool_decide (b ∈ [95; 45; 36; 37; 38; 33; 64; 126; 40; 41; 123; 125; 35; 94]).

Definition pack_short_name (name : str) : result (list Z) string :=
  let upper := to_upper <$> name in
  let '(base, ext) := match find_char 46 upper with
                      | Some i => (take i upper, drop (S i) upper)
                      | None => (upper, [])
                      end in
  if bool_decide (base = []) || bool_decide (8 < lenZ base) || bool_decide (3 < lenZ ext)
  then Err "FAT32: nom invalide (8.3 only)"%string
  else if forallb is_valid_short_byte base && forallb is_valid_short_byte ext
  then Ok (base ++ replicate (8 - length base) 32 ++ ext ++ replicate (3 - length ext) 32)
  else Err "FAT32: caractère invalide"%string.

Section fat32.
Context {D : Type} `{BlockDev D}.

Definition mount (idx_ start : Z) : M D string Fat32 :=
  buf ← bd_read idx_ start 1 (replicate 512 0);
  b510 ← mlift (idx buf 510); b511 ← mlift (idx buf 511);
  if bool_decide (b510 <> 0x55) || bool_decide (b511 <> 0xAA)
  then mfail "FAT32: signature 0x55AA absente"%string else
  bps ← mlift (u16_at buf 11); spc ← mlift (idx buf 13);
  res ← mlift (u16_at buf 14); nf ← mlift (idx buf 16);
  total16 ← mlift (u16_at buf 19); total32 ← mlift (u32_at buf 32);
  let total := if bool_decide (total16 <> 0) then total16 else total32 in
  spf ← mlift (u32_at buf 36); root ← mlift (u32_at buf 44); info ← mlift (u16_at buf 48);
  lb ← mlift (slice buf 71 82);
  let vl := trim (default (bstr "???") (from_utf8 lb)) in
  fat_start ← mlift (start +! res @ 32);
  data_start ← mlift (x ← nf *! spf @ 32; fat_start +! x @ 32);
  mok (mkFat32 idx_ start (mkBpb bps spc res nf total spf root info vl) data_start fat_start).

Section volume.
Context (fs : Fat32).
Let spc : Z := sectors_per_cluster (bpb fs).
Let cluster_bytes : Z := spc * SECTOR.

Definition cluster_to_lba (c : Z) : outcome Z :=
  k ← c -! 2; x ← k *! spc @ 32; data_start_lba fs +! x @ 32.

(** The sector of the FAT entry of [c] and the entry's offset in it. *)
Definition fat_pos (c : Z) : outcome (Z * Z) :=
  fat_offset ← c *! 4 @ 32; Ret (fat_offset / SECTOR, fat_offset mod SECTOR).

Definition next_cluster {E} (c : Z) : M D E (option Z) :=
  '(rel, off) ← mlift (fat_pos c);
  sec ← mlift (fat_start_lba fs +! rel @ 32);
  r ← try_ (bd_read (disk_idx fs) sec 1 (replicate 512 0));
  match (r : result (list Z) string) with
  | Err _ => mok None
  | Ok buf =>
      v ← mlift (u32_at buf off);
      let val := Z.land v 0x0FFFFFFF in
      mok (if bool_decide (0x0FFFFFF8 <= val) then None
           else if bool_decide (val = 0 \/ val = 1) then None
           else Some val)
  end.

(** A cluster, sector by sector. *)
Fixpoint read_cluster (lba : Z) (ss : list Z) (buf : list Z) : M D string (list Z) :=
  match ss with
  | [] => mok buf
  | s :: ss' =>
      l ← mlift (lba +! s @ 32);
      part ← mlift (slice buf (s * SECTOR) (s * SECTOR + SECTOR));
      b ← bd_read (disk_idx fs) l 1 part;
      buf' ← mlift (splice buf (s * SECTOR) b);
      read_cluster lba ss' buf'
  end.

(** [safety]: the successors that may still be followed. *)
Fixpoint chain_loop (safety : nat) (c : Z) (data : list Z) : M D string (list Z) :=
  lba ← mlift (cluster_to_lba c);
  buf ← read_cluster lba (seqZ 0 spc) (replicate (Z.to_nat cluster_bytes) 0);
  let data := data ++ buf in
  n ← next_cluster c;
  match n with
  | None => mok data
  | Some next =>
      match safety with
      | O => mfail "FAT32: chaîne de clusters trop longue"%string
      | S s => chain_loop s next data
      end
  end.
Definition SAFETY : nat := N.to_nat 1000000.
Definition read_chain (start : Z) : M D string (list Z) := chain_loop SAFETY start [].

Definition ls_cluster (c : Z) : M D string (list DirEntry) :=
  raw ← read_chain c; mok (parse_dir_entries raw).
Definition ls_root : M D string (list DirEntry) := ls_cluster (root_cluster (bpb fs)).

Fixpoint resolve_parts (parts : list str) (current : Z) : M D string DirEntry :=
  match parts with
  | [] => mfail "FAT32: chemin invalide"%string
  | component :: rest =>
      entries ← ls_cluster current;
      match list_find (fun e => eq_ignore_case (de_name e) component = true) entries with
      | None => mfail "FAT32: fichier/répertoire introuvable"%string
      | Some (_, entry) =>
          match rest with
          | [] => mok entry
          | _ =>
              if negb (is_dir entry)
              then mfail "FAT32: composant de chemin n'est pas un répertoire"%string
              else resolve_parts rest (cluster entry)
          end
      end
  end.

Definition resolve (path : str) : M D string DirEntry :=
  let path := trim_start_matches slash path in
  if bool_decide (path = []) then mok (mkDirEntry [slash] true 0 (root_cluster (bpb fs)))
  else resolve_parts (filter (fun s => s <> []) (str_split slash path)) (root_cluster (bpb fs)).

Definition fat_ls (path : str) : M D string (list DirEntry) :=
  entry ← resolve path;
  if negb (is_dir entry) then mfail "FAT32: pas un répertoire"%string else
  ls_cluster (cluster entry).

Definition read_file (path : str) : M D string (list Z) :=
  entry ← resolve path;
  if is_dir entry then mfail "FAT32: c'est un répertoire"%string else
  data ← read_chain (cluster entry);
  mok (take (Z.to_nat (de_size entry)) data).

(** ** The write path *)

Definition set_fat_entry (c value : Z) : M D string unit :=
  '(rel, off) ← mlift (fat_pos c);
  mfor (seqZ 0 (num_fats (bpb fs))) (fun fat_idx =>
    lba ← mlift (x ← fat_idx *! sectors_per_fat (bpb fs) @ 32;
                 y ← fat_start_lba fs +! x @ 32; y +! rel @ 32);
    buf ← bd_read (disk_idx fs) lba 1 (replicate 512 0);
    prev ← mlift (u32_at buf off);
    let new_val := Z.lor (Z.land prev 0xF0000000) (Z.land value 0x0FFFFFFF) in
    buf' ← mlift (splice buf off (le_bytes 4 new_val));
    bd_write (disk_idx fs) lba 1 buf').

(** The entries of one FAT sector from index [i] on: [Some] the free cluster
    found, or the error of a cluster past the FAT. *)
Fixpoint scan_sector (sec total : Z) (buf : list Z) (is_ : list Z) : outcome (result (option Z) string) :=
  match is_ with
  | [] => Ret (Ok None)
  | i :: is' =>
      c ← (x ← sec *! 128 @ 32; x +! i @ 32);
      if bool_decide (c < 2) then scan_sector sec total buf is'
      else if bool_decide (total <= c) then Ret (Err "FAT32: plus de clusters libres"%string)
      else
        v ← u32_at buf (i * 4);
        if bool_decide (Z.land v 0x0FFFFFFF = 0) then Ret (Ok (Some c))
        else scan_sector sec total buf is'
  end.

Fixpoint scan_fat (total : Z) (secs : list Z) (buf : list Z) : M D string Z :=
  match secs with
  | [] => mfail "FAT32: scan FAT épuisé"%string
  | sec :: secs' =>
      lba ← mlift (fat_start_lba fs +! sec @ 32);
      buf ← bd_read (disk_idx fs) lba 1 buf;
      r ← mlift (scan_sector sec total buf (seqZ 0 128));
      match r with
      | Err e => mfail e
      | Ok (Some c) => _ ← set_fat_entry c 0x0FFFFFFF; mok c
      | Ok None => scan_fat total secs' buf
      end
  end.

Definition alloc_cluster : M D string Z :=
  total ← mlift (sectors_per_fat (bpb fs) *! 128 @ 32);
  scan_fat total (seqZ 0 (sectors_per_fat (bpb fs))) (replicate 512 0).

Definition write_cluster (c : Z) (data : list Z) : M D string unit :=
  if bool_decide (cluster_bytes < lenZ data) then mfail "FAT32: data > cluster_size"%string else
  lba ← mlift (cluster_to_lba c);
  buf ← mlift (splice (replicate (Z.to_nat cluster_bytes) 0) 0 data);
  bd_write (disk_idx fs) lba spc buf.

Fixpoint alloc_chain (n : nat) (chain : list Z) : M D string (list Z) :=
  match n with
  | O => mok chain
  | S n' => c ← alloc_cluster; alloc_chain n' (chain ++ [c])
  end.

(** [for w in chain.windows(2)] *)
Fixpoint link_chain (chain : list Z) : M D string unit :=
  match chain with
  | a :: (b :: _) as rest => _ ← set_fat_entry a b; link_chain rest
  | _ => mok tt
  end.

(** The data of the chain's clusters, from index [i] on. *)
Fixpoint write_chain (chain : list Z) (i : Z) (data : list Z) : M D string unit :=
  match chain with
  | [] => mok tt
  | c :: chain' =>
      let off := i * cluster_bytes in
      let fin := Z.min (off + cluster_bytes) (lenZ data) in
      part ← mlift (slice data off fin);
      _ ← write_cluster c part;
      write_chain chain' (i + 1) data
  end.

(** The error type of the unbounded loops. *)
Definition bounded {A} (c : M D string A) : M D (option string) A := fun d =>
  match c d with
  | Ret (d', Ok a) => Ret (d', Ok a)
  | Ret (d', Err e) => Ret (d', Err (Some e))
  | Panic => Panic
  end.

Fixpoint free_loop (fuel : nat) (cur : Z) : M D (option string) unit :=
  match fuel with
  | O => mfail None
  | S f =>
      next ← next_cluster cur;
      _ ← bounded (set_fat_entry cur 0);
      match next with
      | Some n => free_loop f n
      | None => mok tt
      end
  end.
Definition free_chain (fuel : nat) (first : Z) : M D (option string) unit :=
  if bool_decide (first < 2) then mok tt else free_loop fuel first.

(** The slot of a root cluster that [upsert_root_dir_entry] takes, and
    whether it replaces the entry there: the slot at the end, the slot of
    that name, or the first deleted slot. *)
Fixpoint choose_slot (name : list Z) (slots : list (list Z)) (off : Z) (chosen : option (Z * bool)) :
    option (Z * bool) :=
  match slots with
  | [] => chosen
  | s :: slots' =>
      if bool_decide (at_ s 0 = 0x00) then Some (off, false)
      else if bool_decide (at_ s 11 = 0x0F) then choose_slot name slots' (off + 32) chosen
      else if bool_decide (at_ s 0 = 0xE5) then
        choose_slot name slots' (off + 32) (match chosen with Some c => Some c | None => Some (off, false) end)
      else if bool_decide (take 11 s = name) then Some (off, true)
      else choose_slot name slots' (off + 32) chosen
  end.

(** The 32-byte entries of a cluster. *)
Definition slots_of (buf : list Z) : list (list Z) := reshape (replicate (length buf / 32) 32%nat) buf.

Definition new_entry (name : list Z) (first size : Z) : list Z :=
  name ++ [0x20] ++ replicate 8 0 ++ le_bytes 2 (Z.land (Z.shiftr first 16) 0xFFFF) ++
  replicate 4 0 ++ le_bytes 2 (Z.land first 0xFFFF) ++ le_bytes 4 size.

Definition first_of (e : list Z) : Z := Z.lor (Z.shiftl (u16e e 20) 16) (u16e e 26).

Fixpoint upsert_loop (fuel : nat) (name : list Z) (first size cur : Z) : M D (option string) unit :=
  match fuel with
  | O => mfail None
  | S f =>
      lba ← mlift (cluster_to_lba cur);
      buf ← bounded (bd_read (disk_idx fs) lba spc (replicate (Z.to_nat cluster_bytes) 0));
      match choose_slot name (slots_of buf) 0 None with
      | Some (off, replace) =>
          _ ← (if (replace : bool)
               then e ← mlift (slice buf off (off + 32)); free_chain f (first_of e)
               else mok tt);
          buf' ← mlift (splice buf off (new_entry name first size));
          bounded (bd_write (disk_idx fs) lba spc buf')
      | None =>
          n ← next_cluster cur;
          match n with
          | Some n => upsert_loop f name first size n
          | None =>
              new_c ← bounded alloc_cluster;
              _ ← bounded (set_fat_entry cur new_c);
              _ ← bounded (write_cluster new_c []);
              upsert_loop f name first size new_c
          end
      end
  end.
Definition upsert_root_dir_entry (fuel : nat) (name : list Z) (first size : Z) : M D (option string) unit :=
  upsert_loop fuel name first size (root_cluster (bpb fs)).

(** A zero cluster size divides by zero. *)
Definition n_clusters (data : list Z) : outcome Z :=
  if bool_decide (data = []) then Ret 0
  else if bool_decide (cluster_bytes = 0) then Panic
  else Ret ((lenZ data + cluster_bytes - 1) / cluster_bytes).

Definition create_root_file (fuel : nat) (name_83 : str) (data : list Z) : M D (option string) unit :=
  match pack_short_name name_83 with
  | Err e => mfail (Some e)
  | Ok name =>
      n ← mlift (n_clusters data);
      chain ← bounded (alloc_chain (Z.to_nat n) []);
      _ ← bounded (link_chain chain);
      _ ← bounded (write_chain chain 0 data);
      upsert_root_dir_entry fuel name (default 0 (head chain)) (wrap 32 (lenZ data))
  end.

(** The slot [unlink_root] removes: [Err tt] when the directory ends. *)
Fixpoint find_slot (name : list Z) (slots : list (list Z)) (off : Z) : result (option Z) unit :=
  match slots with
  | [] => Ok None
  | s :: slots' =>
      if bool_decide (at_ s 0 = 0x00) then Err tt
      else if bool_decide (at_ s 11 = 0x0F) then find_slot name slots' (off + 32)
      else if bool_decide (take 11 s = name) then Ok (Some off)
      else find_slot name slots' (off + 32)
  end.

Definition not_found : option string := Some "FAT32: fichier non trouvé"%string.

Fixpoint unlink_loop (fuel : nat) (name : list Z) (cur : Z) : M D (option string) unit :=
  match fuel with
  | O => mfail None
  | S f =>
      lba ← mlift (cluster_to_lba cur);
      buf ← bounded (bd_read (disk_idx fs) lba spc (replicate (Z.to_nat cluster_bytes) 0));
      match find_slot name (slots_of buf) 0 with
      | Err _ => mfail not_found
      | Ok (Some off) =>
          e ← mlift (slice buf off (off + 32));
          _ ← free_chain f (first_of e);
          buf' ← mlift (idx_set buf off 0xE5);
          bounded (bd_write (disk_idx fs) lba spc buf')
      | Ok None =>
          n ← next_cluster cur;
          match n with
          | Some n => unlink_loop f name n
          | None => mfail not_found
          end
      end
  end.

Definition unlink_root (fuel : nat) (name_83 : str) : M D (option string) unit :=
  match pack_short_name name_83 with
  | Err e => mfail (Some e)
  | Ok name => unlink_loop fuel name (root_cluster (bpb fs))
  end.

(** The summary line printed at mount: its arithmetic can panic. *)
Definition info_string : outcome str :=
  let b := bpb fs in
  cb ← sectors_per_cluster b *! bytes_per_sector b @ 32;
  x ← total_sectors b -! reserved_sectors b;
  y ← num_fats b *! sectors_per_fat b @ 32;
  z ← x -! y;
  if bool_decide (sectors_per_cluster b = 0) then Panic else
  let data_clusters := z / sectors_per_cluster b in
  t ← data_clusters *! cb @ 64;
  let total_mib := t / (1024 * 1024) in
  Ret (bstr "FAT32 '" ++ volume_label b ++ bstr "' : " ++ fmt_dec total_mib ++ bstr " MiB, cluster=" ++
       fmt_dec cb ++ bstr " B, " ++ fmt_dec (sectors_per_cluster b) ++ bstr " spc, " ++
       fmt_dec (num_fats b) ++ bstr " FATs").

End volume.

(** The partitions, the disk and the [Once] cell [MOUNTED]. *)
Record fat_state := mkFatState { f_parts : parts_state D; f_mounted : option Fat32 }.

Definition on_part_disk {E A} (c : M D E A) : M fat_state E A :=
  zoom (fun s => pa_disk (f_parts s))
       (fun d s => mkFatState (mkParts d (pa_parts (f_parts s))) (f_mounted s)) c.

Definition mount_first : M fat_state string unit :=
  s ← mget;
  match find_first_fat32 (pa_parts (f_parts s)) with
  | None => mfail "FAT32: aucune partition FAT32 trouvée"%string
  | Some (di, start, _) =>
      fs ← on_part_disk (mount di start);
      _ ← mlift (info_string fs);
      modify (fun s => mkFatState (f_parts s) (Some (default fs (f_mounted s))))
  end.

End fat32.
Arguments fat_state : clear implicits.
