(* ===== verification/Ext2.v ===== *)
(** * drivers/ext2.rs: reading ext2

    The read-only driver of src/kernel/src/drivers/ext2.rs over a block
    device: superblock, block group descriptors, inodes, files through the
    direct and single-indirect blocks, and directories. *)

From S2P Require Import Prelude Str Ramfs BlockDev Part.
Local Open Scope Z_scope.

Definition EXT2_MAGIC : Z := 0xEF53.
Definition SUPERBLOCK_OFFSET_BYTES : Z := 1024.
Definition EXT2_S_IFMT : Z := 0xF000.
Definition EXT2_S_IFDIR : Z := 0x4000.
Definition EXT2_S_IFREG : Z := 0x8000.

Record Superblock := mkSuper {
  inodes_count : Z; blocks_count : Z; free_blocks_count : Z; free_inodes_count : Z;
  first_data_block : Z; log_block_size : Z; blocks_per_group : Z; inodes_per_group : Z;
  magic : Z; inode_size : Z;
}.
Record BlockGroupDesc := mkBgd {
  block_bitmap_block : Z; inode_bitmap_block : Z; inode_table_block : Z;
  bg_free_blocks : Z; bg_free_inodes : Z; used_dirs_count : Z;
}.
Record Inode := mkInode {
  i_mode : Z; i_uid : Z; i_size : Z; i_atime : Z; i_ctime : Z; i_mtime : Z; i_gid : Z;
  i_links : Z; i_blocks : Z; i_flags : Z; i_block : list Z;
}.
Record Ext2 := mkExt2 { e_disk : Z; e_start : Z; sb : Superblock; block_size : Z }.

Definition inode_is_dir (i : Inode) : bool := bool_decide (Z.land (i_mode i) EXT2_S_IFMT = EXT2_S_IFDIR).
Definition inode_is_file (i : Inode) : bool := bool_decide (Z.land (i_mode i) EXT2_S_IFMT = EXT2_S_IFREG).

(** ** Parsers *)

Definition parse_superblock (buf : list Z) : outcome (result Superblock string) :=
  if bool_decide (lenZ buf < 1024) then Ret (Err "ext2: sb buf trop court"%string) else
  ic ← u32_at buf 0; bc ← u32_at buf 4; fb ← u32_at buf 12; fi ← u32_at buf 16;
  fd ← u32_at buf 20; lb ← u32_at buf 24; bg ← u32_at buf 32; ig ← u32_at buf 40;
  mg ← u16_at buf 56; v ← u16_at buf 88;
  Ret (Ok (mkSuper ic bc fb fi fd lb bg ig mg (if bool_decide (v = 0) then 128 else v))).

Definition parse_bgd (buf : list Z) : outcome BlockGroupDesc :=
  bb ← u32_at buf 0; ib ← u32_at buf 4; it ← u32_at buf 8;
  fb ← u16_at buf 12; fi ← u16_at buf 14; ud ← u16_at buf 16;
  Ret (mkBgd bb ib it fb fi ud).

Definition parse_inode (buf : list Z) : outcome Inode :=
  block ← ofold (fun l i => v ← u32_at buf (40 + i * 4); Ret (l ++ [v])) [] (seqZ 0 15);
  mo ← u16_at buf 0; ui ← u16_at buf 2; si ← u32_at buf 4; at' ← u32_at buf 8;
  ct ← u32_at buf 12; mt ← u32_at buf 16; gi ← u16_at buf 24; li ← u16_at buf 26;
  bl ← u32_at buf 28; fl ← u32_at buf 32;
  Ret (mkInode mo ui si at' ct mt gi li bl fl block).

(** [1024u32 << n]: a shift by 32 or more panics. *)
Definition shl32 (a n : Z) : outcome Z :=
  if bool_decide (n < 32) then Ret (wrap 32 (Z.shiftl a n)) else Panic.

Definition div_chk (a b : Z) : outcome Z := if bool_decide (b = 0) then Panic else Ret (a / b).
Definition rem_chk (a b : Z) : outcome Z := if bool_decide (b = 0) then Panic else Ret (a mod b).

Section ext2.
Context {D : Type} `{BlockDev D}.

Definition ext2_mount (disk start : Z) : M D string Ext2 :=
  sb_lba ← mlift (start +! SUPERBLOCK_OFFSET_BYTES / 512 @ 32);
  buf ← bd_read disk sb_lba 2 (replicate 1024 0);
  r ← mlift (parse_superblock buf);
  match r with
  | Err e => mfail e
  | Ok s =>
      if bool_decide (magic s <> EXT2_MAGIC) then mfail "ext2: bad magic"%string else
      bs ← mlift (shl32 1024 (log_block_size s));
      mok (mkExt2 disk start s bs)
  end.

Section volume.
Context (fs : Ext2).
Let bs : Z := block_size fs.

Definition block_to_lba (block : Z) : outcome Z :=
  x ← block *! (bs / 512) @ 32; e_start fs +! x @ 32.

(** The sector count is truncated to a byte. *)
Definition read_block (block : Z) (out : list Z) : M D string (list Z) :=
  if bool_decide (lenZ out < bs) then mfail "ext2: buf < block_size"%string else
  lba ← mlift (block_to_lba block);
  front ← mlift (slice out 0 bs);
  b ← bd_read (e_disk fs) lba (wrap 8 (bs / 512)) front;
  mlift (splice out 0 b).

Definition read_bgd (g : Z) : M D string BlockGroupDesc :=
  let bgdt_block := if bool_decide (bs = 1024) then 2 else 1 in
  let per_block := bs / 32 in
  q ← mlift (div_chk g per_block); r ← mlift (rem_chk g per_block);
  block ← mlift (bgdt_block +! q @ 32);
  buf ← read_block block (replicate (Z.to_nat bs) 0);
  e ← mlift (slice buf (r * 32) (r * 32 + 32));
  mlift (parse_bgd e).

Definition read_inode (ino : Z) : M D string Inode :=
  if bool_decide (ino = 0) then mfail "ext2: inode 0"%string else
  group ← mlift (div_chk (ino - 1) (inodes_per_group (sb fs)));
  index ← mlift (rem_chk (ino - 1) (inodes_per_group (sb fs)));
  bgd ← read_bgd group;
  let isz := inode_size (sb fs) in
  per_block ← mlift (div_chk bs isz);
  q ← mlift (div_chk index per_block); r ← mlift (rem_chk index per_block);
  block ← mlift (inode_table_block bgd +! q @ 32);
  buf ← read_block block (replicate (Z.to_nat bs) 0);
  e ← mlift (slice buf (r * isz) (r * isz + 128));
  mlift (parse_inode e).

(** The blocks of a file in order, while bytes remain and blocks are
    present: the bytes, what remains, and the block buffer. *)
Fixpoint read_blocks (blocks : list Z) (out : list Z) (remaining : Z) (buf : list Z) :
    M D string (list Z * Z * list Z) :=
  match blocks with
  | [] => mok (out, remaining, buf)
  | b :: blocks' =>
      if bool_decide (remaining = 0) then mok (out, remaining, buf) else
      if bool_decide (b = 0) then mok (out, remaining, buf) else
      buf ← read_block b buf;
      let take_ := Z.min remaining bs in
      part ← mlift (slice buf 0 take_);
      read_blocks blocks' (out ++ part) (remaining - take_) buf
  end.

(** The table of an indirect block. *)
Definition indirect_blocks (indir : list Z) : outcome (list Z) :=
  ofold (fun l i => v ← u32_at indir (i * 4); Ret (l ++ [v])) [] (seqZ 0 (bs / 4)).

Definition ext2_read_file (ino : Z) : M D string (list Z) :=
  inode ← read_inode ino;
  if negb (inode_is_file inode) then mfail "ext2: pas un fichier"%string else
  let buf := replicate (Z.to_nat bs) 0 in
  '(out, remaining, buf) ← read_blocks (take 12 (i_block inode)) [] (i_size inode) buf;
  ind ← mlift (idx (i_block inode) 12);
  if bool_decide (0 < remaining) && bool_decide (ind <> 0) then
    indir ← read_block ind (replicate (Z.to_nat bs) 0);
    blocks ← mlift (indirect_blocks indir);
    '(out, _, _) ← read_blocks blocks out remaining buf;
    mok out
  else mok out.

(** The entries of a directory block: each round advances by [rec_len],
    which is not zero, so the block size is enough fuel. *)
Fixpoint dirents (fuel : nat) (buf : list Z) (off : Z) (out : list (str * Z)) : outcome (list (str * Z)) :=
  match fuel with
  | O => Ret out
  | S f =>
      if bool_decide (off + 8 <= bs) then
        inode_n ← u32_at buf off;
        rec_len ← u16_at buf (off + 4);
        name_len ← idx buf (off + 6);
        if bool_decide (rec_len = 0) then Ret out else
        if bool_decide (inode_n <> 0 /\ off + 8 + name_len <= bs) then
          nb ← slice buf (off + 8) (off + 8 + name_len);
          dirents f buf (off + rec_len) (out ++ [(default (bstr "?") (from_utf8 nb), inode_n)])
        else dirents f buf (off + rec_len) out
      else Ret out
  end.

Fixpoint ls_blocks (blocks : list Z) (buf : list Z) (out : list (str * Z)) : M D string (list (str * Z)) :=
  match blocks with
  | [] => mok out
  | b :: blocks' =>
      if bool_decide (b = 0) then mok out else
      buf ← read_block b buf;
      out ← mlift (dirents (Z.to_nat bs) buf 0 out);
      ls_blocks blocks' buf out
  end.

Definition ext2_ls (ino : Z) : M D string (list (str * Z)) :=
  inode ← read_inode ino;
  if negb (inode_is_dir inode) then mfail "ext2: pas un dir"%string else
  ls_blocks (take 12 (i_block inode)) (replicate (Z.to_nat bs) 0) [].

End volume.

(** The partitions, the disk and the [Once] cell [MOUNTED]. *)
Record ext2_state := mkExt2State { x_parts : parts_state D; x_mounted : option Ext2 }.

Definition ext2_mount_first : M ext2_state string unit :=
  s ← mget;
  match find_first_linux (pa_parts (x_parts s)) with
  | None => mfail "ext2: aucune partition Linux trouvée"%string
  | Some (di, start, _) =>
      fs ← zoom (fun s => pa_disk (x_parts s))
             (fun d s => mkExt2State (mkParts d (pa_parts (x_parts s))) (x_mounted s)) (ext2_mount di start);
      modify (fun s => mkExt2State (x_parts s) (Some (default fs (x_mounted s))))
  end.

End ext2.
