(* ===== verification/Thread.v ===== *)
(** * task/thread.rs: cooperative kernel threads

    The scheduler of src/kernel/src/task/thread.rs: threads in creation
    order, a round-robin search for the next runnable one, exits and
    reaping.  The stack that [Thread::new] prepares is the list of words
    that the first context switch pops.  Addresses of code and of
    allocated stacks are arguments. *)

From S2P Require Import Prelude Str.
Local Open Scope Z_scope.

Module Thread.

Definition STACK_SIZE : Z := 16 * 1024.

Inductive ThreadState := Runnable | Running | Finished.
#[export] Instance ThreadState_eq_dec : EqDecision ThreadState.
Proof. solve_decision. Defined.

(** [stack]: the words from the saved stack pointer up. *)
Record Thread := mkThread {
  id : Z;
  name : str;
  state : ThreadState;
  rsp : Z;
  stack : list Z;
}.

Definition set_state (st : ThreadState) (t : Thread) : Thread :=
  mkThread (id t) (name t) st (rsp t) (stack t).

(** [SCHEDULER], [ENTRY_POINTS] and the id counter. *)
Record Scheduler := mkSched {
  threads : list Thread;
  current : Z;
  entry_points : gmap Z Z;
  next_id : Z;
}.

Definition sched_new : Scheduler := mkSched [] 0 ∅ 1.

(** The words pushed by [new], in memory order from the final [sp] up:
    rflags, r15, r14, r13, r12, rbx, rbp and the return address. *)
Definition initial_stack (bootstrap : Z) : list Z := [0x202; 0; 0; 0; 0; 0; 0; bootstrap].

(** [stack_base] is the address of the fresh allocation. *)
Definition thread_new (bootstrap stack_base : Z) (nm : str) (entry : Z) (s : Scheduler) :
    outcome (Scheduler * Thread) :=
  let i := next_id s in
  top ← stack_base +! STACK_SIZE @ 64;
  top ← Z.land top (unot 64 0xf) -! 8;
  sp ← top -! 64;
  Ret (mkSched (threads s) (current s) (<[i := entry]> (entry_points s)) (wrap 64 (i + 1)),
       mkThread i nm Runnable sp (initial_stack bootstrap)).

Definition current_id (s : Scheduler) : Z :=
  match threads s !! Z.to_nat (current s) with Some t => id t | None => 0 end.

Definition mark_current_finished (s : Scheduler) : Scheduler :=
  mkSched (alter (set_state Finished) (Z.to_nat (current s)) (threads s)) (current s)
    (entry_points s) (next_id s).

Definition set_threads (l : list Thread) (s : Scheduler) : Scheduler :=
  mkSched l (current s) (entry_points s) (next_id s).

(** The search: offsets 1 to n, the index of the thread found. *)
Fixpoint search (l : list Thread) (cur n : Z) (offs : list Z) : outcome (option Z) :=
  match offs with
  | [] => Ret None
  | o :: offs' =>
      let i := (cur + o) mod n in
      t ← idx l i;
      if bool_decide (state t = Runnable) then Ret (Some i) else search l cur n offs'
  end.

(** The switch: [Some (old, new_rsp)], [old] the thread whose stack pointer
    is saved. *)
Definition pick_next (s : Scheduler) : outcome (Scheduler * option (Z * Z)) :=
  let n := lenZ (threads s) in
  if bool_decide (n < 2) then Ret (s, None) else
  found ← search (threads s) (current s) n (seqZ 1 n);
  match found with
  | None => Ret (s, None)
  | Some i =>
      cur ← idx (threads s) (current s);
      let l := if bool_decide (state cur = Running)
               then <[Z.to_nat (current s) := set_state Runnable cur]> (threads s) else threads s in
      nxt ← idx l i;
      let l := <[Z.to_nat i := set_state Running nxt]> l in
      Ret (mkSched l i (entry_points s) (next_id s), Some (current s, rsp nxt))
  end.

Definition sched_spawn (t : Thread) (s : Scheduler) : Scheduler * Z :=
  let l := threads s ++ [t] in
  if bool_decide (lenZ l = 1)
  then (mkSched (set_state Running <$> l) 0 (entry_points s) (next_id s), id t)
  else (set_threads l s, id t).

Definition thread_list (s : Scheduler) : list (Z * str * ThreadState) :=
  (fun t => (id t, name t, state t)) <$> threads s.

(** [retain_with_index] with the closure of [reap]: the threads kept, the
    entry points left and the number removed before the current one. *)
Fixpoint reap_loop (i cur : Z) (l : list Thread) (ep : gmap Z Z) (removed : Z) : list Thread * gmap Z Z * Z :=
  match l with
  | [] => ([], ep, removed)
  | t :: l' =>
      if bool_decide (state t = Finished /\ i <> cur)
      then reap_loop (i + 1) cur l' (delete (id t) ep) (if bool_decide (i < cur) then removed + 1 else removed)
      else let '(k, ep', r) := reap_loop (i + 1) cur l' ep removed in (t :: k, ep', r)
  end.

Definition reap (s : Scheduler) : outcome Scheduler :=
  let '(l, ep, removed) := reap_loop 0 (current s) (threads s) (entry_points s) 0 in
  c ← current s -! removed;
  Ret (mkSched l c ep (next_id s)).

Definition spawn (bootstrap stack_base : Z) (nm : str) (entry : Z) (s : Scheduler) : outcome (Scheduler * Z) :=
  '(s, t) ← thread_new bootstrap stack_base nm entry s;
  Ret (sched_spawn t s).

Definition init_as_main (s : Scheduler) : Scheduler :=
  if bool_decide (threads s = [])
  then mkSched [mkThread 0 (bstr "main") Running 0 []] 0 (entry_points s) (next_id s)
  else s.

(** [yield_now] up to the switch of stacks. *)
Definition yield_now (s : Scheduler) : outcome (Scheduler * option (Z * Z)) := pick_next s.

(** [exit]: an unreachable panic if nothing else can run. *)
Definition exit (s : Scheduler) : outcome (Scheduler * (Z * Z)) :=
  '(s, sw) ← yield_now (mark_current_finished s);
  match sw with
  | Some x => Ret (s, x)
  | None => Panic
  end.

(** The entry point [thread_bootstrap] calls. *)
Definition bootstrap_entry (s : Scheduler) : outcome Z := expect (entry_points s !! current_id s).

End Thread.
