(* ===== verification/Exec.v ===== *)
(** * Finding programs

    The search path of src/kernel/src/task/process.rs and the functions
    that load an ELF image from the memory file system or from FAT32. *)

From S2P Require Import Prelude Str Phys FrameAllocator FrameRefcount Paging AddressSpace Signal.
From S2P Require Import ProcessTable Ipc Queue Gfx Elf Executor Time Process Ramfs BlockDev Fat32 Thread.
Local Open Scope Z_scope.

(** ** Directories and names *)

Definition DEFAULT_EXEC_PATHS : list str := [bstr "/"; bstr "/bin"; bstr "/fat"; bstr "/fat/bin"].

Definition ensure_exec_paths (paths : list str) : list str :=
  if bool_decide (paths = []) then DEFAULT_EXEC_PATHS else paths.

Definition push_exec_dir_unique (paths : list str) (dir : str) : list str :=
  if bool_decide (dir ∈ paths) then paths else paths ++ [dir].

(** [while out.len() > 1 && out.ends_with('/') { out.pop(); }] *)
Fixpoint pop_slashes (rev_out : str) : str :=
  match rev_out with
  | c :: ((_ :: _) as r) => if bool_decide (c = slash) then pop_slashes r else rev_out
  | _ => rev_out
  end.

Definition normalize_exec_dir (dir : str) : result str string :=
  let trimmed := trim dir in
  if bool_decide (trimmed = []) then Err "path: répertoire vide"%string else
  let out := if starts_with [slash] trimmed then trimmed else slash :: trimmed in
  Ok (reverse (pop_slashes (reverse out))).

Definition join_exec_dir_and_name (dir nm : str) : str :=
  if bool_decide (dir = [slash]) then slash :: nm else dir ++ slash :: nm.

Definition is_fat_path (path : str) : bool :=
  bool_decide (path = bstr "/fat") || starts_with (bstr "/fat/") path.

Definition strip_fat (path : str) : str := default path (strip_prefix (bstr "/fat") path).

(** The loop of [set_exec_paths_from_spec]. *)
Fixpoint spec_dirs (parts : list str) (next : list str) : result (list str) string :=
  match parts with
  | [] => Ok next
  | raw :: parts' =>
      let trimmed := trim raw in
      if bool_decide (trimmed = []) then spec_dirs parts' next else
      match normalize_exec_dir trimmed with
      | Err e => Err e
      | Ok n => spec_dirs parts' (push_exec_dir_unique next n)
      end
  end.

(** ** The state of the kernel a program search and a system call use *)

Record kst (D : Type) `{ArrayQueue InputEventAbi} `{ArrayQueue Z} := mkKst {
  k_ps : pstate;
  k_fs : Ramfs;
  k_fat : option Fat32;
  k_disk : D;
  k_paths : list str;
  k_threads : Thread.Scheduler;
  k_console : str;
  k_serial : str;
  k_count : Z;
}.
Arguments mkKst {D _ _} _ _ _ _ _ _ _ _ _.
Arguments k_ps {D _ _} _.
Arguments k_fs {D _ _} _.
Arguments k_fat {D _ _} _.
Arguments k_disk {D _ _} _.
Arguments k_paths {D _ _} _.
Arguments k_threads {D _ _} _.
Arguments k_console {D _ _} _.
Arguments k_serial {D _ _} _.
Arguments k_count {D _ _} _.

Section exec.
Context {D : Type} `{ArrayQueue InputEventAbi} `{ArrayQueue Z} `{X86Paging} `{BlockDev D}.

Definition set_k_ps (p : pstate) (s : kst D) : kst D :=
  mkKst p (k_fs s) (k_fat s) (k_disk s) (k_paths s) (k_threads s) (k_console s) (k_serial s) (k_count s).
Definition set_k_disk (d : D) (s : kst D) : kst D :=
  mkKst (k_ps s) (k_fs s) (k_fat s) d (k_paths s) (k_threads s) (k_console s) (k_serial s) (k_count s).
Definition set_k_paths (l : list str) (s : kst D) : kst D :=
  mkKst (k_ps s) (k_fs s) (k_fat s) (k_disk s) l (k_threads s) (k_console s) (k_serial s) (k_count s).

Abbreviation X := (M (kst D) string).

Definition on_ps {E A} (c : M pstate E A) : M (kst D) E A := zoom k_ps set_k_ps c.
Definition on_kdisk {E A} (c : M D E A) : M (kst D) E A := zoom k_disk set_k_disk c.

(** ** Existence *)

Definition fat_has (f : Fat32) (path : str) : X bool :=
  r ← try_ (on_kdisk (read_file f path));
  mok (is_ok (r : result (list Z) string)).

Definition exec_candidate_exists (path : str) : X bool :=
  s ← mget;
  if is_fat_path path then
    let fat_path := strip_fat path in
    if bool_decide (fat_path = []) || bool_decide (fat_path = [slash]) then mok false else
    match k_fat s with
    | Some f => fat_has f fat_path
    | None => mok false
    end
  else if is_ok (fs_read path (k_fs s)) then mok true
  else match k_fat s with
       | Some f => fat_has f path
       | None => mok false
       end.

Definition exec_paths : X (list str) :=
  _ ← modify (fun s => set_k_paths (ensure_exec_paths (k_paths s)) s);
  s ← mget;
  mok (k_paths s).

Definition reset_exec_paths : X unit := modify (fun s => set_k_paths (ensure_exec_paths []) s).

Definition add_exec_path (dir : str) : X unit :=
  match normalize_exec_dir dir with
  | Err e => mfail e
  | Ok n => modify (fun s => set_k_paths (push_exec_dir_unique (ensure_exec_paths (k_paths s)) n) s)
  end.

Definition set_exec_paths_from_spec (spec : str) : X unit :=
  match spec_dirs (str_split colon spec) [] with
  | Err e => mfail e
  | Ok next =>
      if bool_decide (next = []) then mfail "path: liste vide"%string
      else modify (set_k_paths next)
  end.

Fixpoint first_existing (dirs : list str) (nm : str) : X (option str) :=
  match dirs with
  | [] => mok None
  | d :: dirs' =>
      let candidate := join_exec_dir_and_name d nm in
      b ← exec_candidate_exists candidate;
      if (b : bool) then mok (Some candidate) else first_existing dirs' nm
  end.

Definition resolve_exec_path (path : str) : X (option str) :=
  if str_contains slash path then
    b ← exec_candidate_exists path;
    mok (if (b : bool) then Some path else None)
  else
    dirs ← exec_paths;
    first_existing dirs path.

(** ** Loading *)

(** The selectors and the address of the kernel stack the new process gets. *)
Context (user_code user_data kstack : Z).

Definition exec_from_fs (path : str) (parent : Z) : X Z :=
  s ← mget;
  match fs_read path (k_fs s) with
  | Err _ => mfail "exec: fichier introuvable"%string
  | Ok data => on_ps (spawn_from_elf user_code user_data kstack path data parent)
  end.

Definition exec_from_fat (path : str) (parent : Z) : X Z :=
  let fat_path := strip_fat path in
  s ← mget;
  match k_fat s with
  | None => mfail "exec: FAT32 non monté"%string
  | Some f =>
      r ← try_ (on_kdisk (read_file f fat_path));
      match (r : result (list Z) string) with
      | Err _ => mfail "exec: fichier introuvable"%string
      | Ok data => on_ps (spawn_from_elf user_code user_data kstack path data parent)
      end
  end.

Definition exec_from_any (path : str) (parent : Z) : X Z :=
  if is_fat_path path then exec_from_fat path parent else
  r ← try_ (exec_from_fs path parent);
  match (r : result Z string) with
  | Ok pid => mok pid
  | Err _ => exec_from_fat path parent
  end.

Definition exec_from_search (path : str) (parent : Z) : X Z :=
  if str_contains slash path then exec_from_any path parent else
  r ← resolve_exec_path path;
  match r with
  | None => mfail "exec: binaire introuvable"%string
  | Some resolved => exec_from_any resolved parent
  end.

End exec.
