(* ===== verification/Font.v ===== *)
(** * drivers/font8x16.rs: the bitmap font

    The 128 glyphs of src/kernel/src/drivers/font8x16_data.rs, sixteen rows
    of eight pixels each, and the lookup with its fallback. *)

From S2P Require Import Prelude.
Local Open Scope Z_scope.

Definition CHAR_WIDTH : Z := 8.
Definition CHAR_HEIGHT : Z := 16.

Definition blank : list Z := replicate 16 0.

Definition FONT : list (list Z) :=
  replicate 32 blank ++
  [blank;
   [0x00; 0x00; 0x18; 0x3c; 0x3c; 0x3c; 0x18; 0x18; 0x18; 0x00; 0x18; 0x18; 0x00; 0x00; 0x00; 0x00];
   [0x00; 0x66; 0x66; 0x66; 0x24; 0x00; 0x00; 0x00; 0x00; 0x00; 0x00; 0x00; 0x00; 0x00; 0x00; 0x00];
   [0x00; 0x00; 0x00; 0x6c; 0x6c; 0xfe; 0x6c; 0x6c; 0x6c; 0xfe; 0x6c; 0x6c; 0x00; 0x00; 0x00; 0x00];
   [0x00; 0x18; 0x18; 0x7c; 0xc6; 0xc2; 0xc0; 0x7c; 0x06; 0x06; 0x86; 0xc6; 0x7c; 0x18; 0x18; 0x00];
   [0x00; 0x00; 0x00; 0x00; 0x00; 0xc2; 0xc6; 0x0c; 0x18; 0x30; 0x60; 0xc6; 0x86; 0x00; 0x00; 0x00];
   [0x00; 0x00; 0x00; 0x38; 0x6c; 0x6c; 0x38; 0x76; 0xdc; 0xcc; 0xcc; 0xcc; 0x76; 0x00; 0x00; 0x00];
   [0x00; 0x30; 0x30; 0x30; 0x60; 0x00; 0x00; 0x00; 0x00; 0x00; 0x00; 0x00; 0x00; 0x00; 0x00; 0x00];
   [0x00; 0x00; 0x0c; 0x18; 0x30; 0x30; 0x30; 0x30; 0x30; 0x30; 0x30; 0x18; 0x0c; 0x00; 0x00; 0x00];
   [0x00; 0x00; 0x30; 0x18; 0x0c; 0x0c; 0x0c; 0x0c; 0x0c; 0x0c; 0x0c; 0x18; 0x30; 0x00; 0x00; 0x00];
   [0x00; 0x00; 0x00; 0x00; 0x00; 0x66; 0x3c; 0xff; 0x3c; 0x66; 0x00; 0x00; 0x00; 0x00; 0x00; 0x00];
   [0x00; 0x00; 0x00; 0x00; 0x00; 0x18; 0x18; 0x7e; 0x18; 0x18; 0x00; 0x00; 0x00; 0x00; 0x00; 0x00];
   [0x00; 0x00; 0x00; 0x00; 0x00; 0x00; 0x00; 0x00; 0x00; 0x00; 0x00; 0x18; 0x18; 0x18; 0x30; 0x00];
   [0x00; 0x00; 0x00; 0x00; 0x00; 0x00; 0x00; 0x7e; 0x00; 0x00; 0x00; 0x00; 0x00; 0x00; 0x00; 0x00];
   [0x00; 0x00; 0x00; 0x00; 0x00; 0x00; 0x00; 0x00; 0x00; 0x00; 0x00; 0x00; 0x18; 0x18; 0x00; 0x00];
   [0x00; 0x00; 0x00; 0x00; 0x02; 0x06; 0x0c; 0x18; 0x30; 0x60; 0xc0; 0x80; 0x00; 0x00; 0x00; 0x00];
   [0x00; 0x00; 0x00; 0x38; 0x6c; 0xc6; 0xc6; 0xd6; 0xd6; 0xc6; 0xc6; 0x6c; 0x38; 0x00; 0x00; 0x00];
   [0x00; 0x00; 0x00; 0x18; 0x38; 0x78; 0x18; 0x18; 0x18; 0x18; 0x18; 0x18; 0x7e; 0x00; 0x00; 0x00];
   [0x00; 0x00; 0x00; 0x7c; 0xc6; 0x06; 0x0c; 0x18; 0x30; 0x60; 0xc0; 0xc6; 0xfe; 0x00; 0x00; 0x00];
   [0x00; 0x00; 0x00; 0x7c; 0xc6; 0x06; 0x06; 0x3c; 0x06; 0x06; 0x06; 0xc6; 0x7c; 0x00; 0x00; 0x00];
   [0x00; 0x00; 0x00; 0x0c; 0x1c; 0x3c; 0x6c; 0xcc; 0xfe; 0x0c; 0x0c; 0x0c; 0x1e; 0x00; 0x00; 0x00];
   [0x00; 0x00; 0x00; 0xfe; 0xc0; 0xc0; 0xc0; 0xfc; 0x06; 0x06; 0x06; 0xc6; 0x7c; 0x00; 0x00; 0x00];
   [0x00; 0x00; 0x00; 0x38; 0x60; 0xc0; 0xc0; 0xfc; 0xc6; 0xc6; 0xc6; 0xc6; 0x7c; 0x00; 0x00; 0x00];
   [0x00; 0x00; 0x00; 0xfe; 0xc6; 0x06; 0x06; 0x0c; 0x18; 0x30; 0x30; 0x30; 0x30; 0x00; 0x00; 0x00];
   [0x00; 0x00; 0x00; 0x7c; 0xc6; 0xc6; 0xc6; 0x7c; 0xc6; 0xc6; 0xc6; 0xc6; 0x7c; 0x00; 0x00; 0x00];
   [0x00; 0x00; 0x00; 0x7c; 0xc6; 0xc6; 0xc6; 0x7e; 0x06; 0x06; 0x06; 0x0c; 0x78; 0x00; 0x00; 0x00];
   [0x00; 0x00; 0x00; 0x00; 0x00; 0x18; 0x18; 0x00; 0x00; 0x00; 0x18; 0x18; 0x00; 0x00; 0x00; 0x00];
   [0x00; 0x00; 0x00; 0x00; 0x00; 0x18; 0x18; 0x00; 0x00; 0x00; 0x18; 0x18; 0x30; 0x00; 0x00; 0x00];
   [0x00; 0x00; 0x00; 0x00; 0x06; 0x0c; 0x18; 0x30; 0x60; 0x30; 0x18; 0x0c; 0x06; 0x00; 0x00; 0x00];
   [0x00; 0x00; 0x00; 0x00; 0x00; 0x00; 0x7e; 0x00; 0x00; 0x7e; 0x00; 0x00; 0x00; 0x00; 0x00; 0x00];
   [0x00; 0x00; 0x00; 0x00; 0x60; 0x30; 0x18; 0x0c; 0x06; 0x0c; 0x18; 0x30; 0x60; 0x00; 0x00; 0x00];
   [0x00; 0x00; 0x00; 0x7c; 0xc6; 0xc6; 0x0c; 0x18; 0x18; 0x18; 0x00; 0x18; 0x18; 0x00; 0x00; 0x00];
   [0x00; 0x00; 0x00; 0x00; 0x7c; 0xc6; 0xc6; 0xde; 0xde; 0xde; 0xdc; 0xc0; 0x7c; 0x00; 0x00; 0x00];
   [0x00; 0x00; 0x00; 0x10; 0x38; 0x6c; 0xc6; 0xc6; 0xfe; 0xc6; 0xc6; 0xc6; 0xc6; 0x00; 0x00; 0x00];
   [0x00; 0x00; 0x00; 0xfc; 0x66; 0x66; 0x66; 0x7c; 0x66; 0x66; 0x66; 0x66; 0xfc; 0x00; 0x00; 0x00];
   [0x00; 0x00; 0x00; 0x3c; 0x66; 0xc2; 0xc0; 0xc0; 0xc0; 0xc0; 0xc2; 0x66; 0x3c; 0x00; 0x00; 0x00];
   [0x00; 0x00; 0x00; 0xf8; 0x6c; 0x66; 0x66; 0x66; 0x66; 0x66; 0x66; 0x6c; 0xf8; 0x00; 0x00; 0x00];
   [0x00; 0x00; 0x00; 0xfe; 0x66; 0x62; 0x68; 0x78; 0x68; 0x60; 0x62; 0x66; 0xfe; 0x00; 0x00; 0x00];
   [0x00; 0x00; 0x00; 0xfe; 0x66; 0x62; 0x68; 0x78; 0x68; 0x60; 0x60; 0x60; 0xf0; 0x00; 0x00; 0x00];
   [0x00; 0x00; 0x00; 0x3c; 0x66; 0xc2; 0xc0; 0xc0; 0xde; 0xc6; 0xc6; 0x66; 0x3a; 0x00; 0x00; 0x00];
   [0x00; 0x00; 0x00; 0xc6; 0xc6; 0xc6; 0xc6; 0xfe; 0xc6; 0xc6; 0xc6; 0xc6; 0xc6; 0x00; 0x00; 0x00];
   [0x00; 0x00; 0x00; 0x3c; 0x18; 0x18; 0x18; 0x18; 0x18; 0x18; 0x18; 0x18; 0x3c; 0x00; 0x00; 0x00];
   [0x00; 0x00; 0x00; 0x1e; 0x0c; 0x0c; 0x0c; 0x0c; 0x0c; 0xcc; 0xcc; 0xcc; 0x78; 0x00; 0x00; 0x00];
   [0x00; 0x00; 0x00; 0xe6; 0x66; 0x66; 0x6c; 0x78; 0x78; 0x6c; 0x66; 0x66; 0xe6; 0x00; 0x00; 0x00];
   [0x00; 0x00; 0x00; 0xf0; 0x60; 0x60; 0x60; 0x60; 0x60; 0x60; 0x62; 0x66; 0xfe; 0x00; 0x00; 0x00];
   [0x00; 0x00; 0x00; 0xc6; 0xee; 0xfe; 0xfe; 0xd6; 0xc6; 0xc6; 0xc6; 0xc6; 0xc6; 0x00; 0x00; 0x00];
   [0x00; 0x00; 0x00; 0xc6; 0xe6; 0xf6; 0xfe; 0xde; 0xce; 0xc6; 0xc6; 0xc6; 0xc6; 0x00; 0x00; 0x00];
   [0x00; 0x00; 0x00; 0x7c; 0xc6; 0xc6; 0xc6; 0xc6; 0xc6; 0xc6; 0xc6; 0xc6; 0x7c; 0x00; 0x00; 0x00];
   [0x00; 0x00; 0x00; 0xfc; 0x66; 0x66; 0x66; 0x7c; 0x60; 0x60; 0x60; 0x60; 0xf0; 0x00; 0x00; 0x00];
   [0x00; 0x00; 0x00; 0x7c; 0xc6; 0xc6; 0xc6; 0xc6; 0xc6; 0xc6; 0xd6; 0xde; 0x7c; 0x0c; 0x0e; 0x00];
   [0x00; 0x00; 0x00; 0xfc; 0x66; 0x66; 0x66; 0x7c; 0x6c; 0x66; 0x66; 0x66; 0xe6; 0x00; 0x00; 0x00];
   [0x00; 0x00; 0x00; 0x7c; 0xc6; 0xc6; 0x60; 0x38; 0x0c; 0x06; 0xc6; 0xc6; 0x7c; 0x00; 0x00; 0x00];
   [0x00; 0x00; 0x00; 0x7e; 0x7e; 0x5a; 0x18; 0x18; 0x18; 0x18; 0x18; 0x18; 0x3c; 0x00; 0x00; 0x00];
   [0x00; 0x00; 0x00; 0xc6; 0xc6; 0xc6; 0xc6; 0xc6; 0xc6; 0xc6; 0xc6; 0xc6; 0x7c; 0x00; 0x00; 0x00];
   [0x00; 0x00; 0x00; 0xc6; 0xc6; 0xc6; 0xc6; 0xc6; 0xc6; 0xc6; 0x6c; 0x38; 0x10; 0x00; 0x00; 0x00];
   [0x00; 0x00; 0x00; 0xc6; 0xc6; 0xc6; 0xc6; 0xd6; 0xd6; 0xd6; 0xfe; 0xee; 0x6c; 0x00; 0x00; 0x00];
   [0x00; 0x00; 0x00; 0xc6; 0xc6; 0x6c; 0x7c; 0x38; 0x38; 0x7c; 0x6c; 0xc6; 0xc6; 0x00; 0x00; 0x00];
   [0x00; 0x00; 0x00; 0x66; 0x66; 0x66; 0x66; 0x3c; 0x18; 0x18; 0x18; 0x18; 0x3c; 0x00; 0x00; 0x00];
   [0x00; 0x00; 0x00; 0xfe; 0xc6; 0x86; 0x0c; 0x18; 0x30; 0x60; 0xc2; 0xc6; 0xfe; 0x00; 0x00; 0x00];
   [0x00; 0x00; 0x3c; 0x30; 0x30; 0x30; 0x30; 0x30; 0x30; 0x30; 0x30; 0x30; 0x30; 0x3c; 0x00; 0x00];
   [0x00; 0x00; 0x00; 0x80; 0xc0; 0x60; 0x30; 0x18; 0x0c; 0x06; 0x02; 0x00; 0x00; 0x00; 0x00; 0x00];
   [0x00; 0x00; 0x3c; 0x0c; 0x0c; 0x0c; 0x0c; 0x0c; 0x0c; 0x0c; 0x0c; 0x0c; 0x0c; 0x3c; 0x00; 0x00];
   [0x00; 0x10; 0x38; 0x6c; 0xc6; 0x00; 0x00; 0x00; 0x00; 0x00; 0x00; 0x00; 0x00; 0x00; 0x00; 0x00];
   [0x00; 0x00; 0x00; 0x00; 0x00; 0x00; 0x00; 0x00; 0x00; 0x00; 0x00; 0x00; 0x00; 0x00; 0xff; 0x00];
   [0x00; 0x30; 0x30; 0x18; 0x00; 0x00; 0x00; 0x00; 0x00; 0x00; 0x00; 0x00; 0x00; 0x00; 0x00; 0x00];
   [0x00; 0x00; 0x00; 0x00; 0x00; 0x00; 0x78; 0x0c; 0x7c; 0xcc; 0xcc; 0xcc; 0x76; 0x00; 0x00; 0x00];
   [0x00; 0x00; 0x00; 0xe0; 0x60; 0x60; 0x78; 0x6c; 0x66; 0x66; 0x66; 0x66; 0x7c; 0x00; 0x00; 0x00];
   [0x00; 0x00; 0x00; 0x00; 0x00; 0x00; 0x7c; 0xc6; 0xc0; 0xc0; 0xc0; 0xc6; 0x7c; 0x00; 0x00; 0x00];
   [0x00; 0x00; 0x00; 0x1c; 0x0c; 0x0c; 0x3c; 0x6c; 0xcc; 0xcc; 0xcc; 0xcc; 0x76; 0x00; 0x00; 0x00];
   [0x00; 0x00; 0x00; 0x00; 0x00; 0x00; 0x7c; 0xc6; 0xfe; 0xc0; 0xc0; 0xc6; 0x7c; 0x00; 0x00; 0x00];
   [0x00; 0x00; 0x00; 0x1c; 0x36; 0x32; 0x30; 0x78; 0x30; 0x30; 0x30; 0x30; 0x78; 0x00; 0x00; 0x00];
   [0x00; 0x00; 0x00; 0x00; 0x00; 0x00; 0x76; 0xcc; 0xcc; 0xcc; 0xcc; 0xcc; 0x7c; 0x0c; 0xcc; 0x78];
   [0x00; 0x00; 0x00; 0xe0; 0x60; 0x60; 0x6c; 0x76; 0x66; 0x66; 0x66; 0x66; 0xe6; 0x00; 0x00; 0x00];
   [0x00; 0x00; 0x00; 0x18; 0x18; 0x00; 0x38; 0x18; 0x18; 0x18; 0x18; 0x18; 0x3c; 0x00; 0x00; 0x00];
   [0x00; 0x00; 0x00; 0x06; 0x06; 0x00; 0x0e; 0x06; 0x06; 0x06; 0x06; 0x06; 0x06; 0x66; 0x66; 0x3c];
   [0x00; 0x00; 0x00; 0xe0; 0x60; 0x60; 0x66; 0x6c; 0x78; 0x78; 0x6c; 0x66; 0xe6; 0x00; 0x00; 0x00];
   [0x00; 0x00; 0x00; 0x38; 0x18; 0x18; 0x18; 0x18; 0x18; 0x18; 0x18; 0x18; 0x3c; 0x00; 0x00; 0x00];
   [0x00; 0x00; 0x00; 0x00; 0x00; 0x00; 0xec; 0xfe; 0xd6; 0xd6; 0xd6; 0xd6; 0xc6; 0x00; 0x00; 0x00];
   [0x00; 0x00; 0x00; 0x00; 0x00; 0x00; 0xdc; 0x66; 0x66; 0x66; 0x66; 0x66; 0x66; 0x00; 0x00; 0x00];
   [0x00; 0x00; 0x00; 0x00; 0x00; 0x00; 0x7c; 0xc6; 0xc6; 0xc6; 0xc6; 0xc6; 0x7c; 0x00; 0x00; 0x00];
   [0x00; 0x00; 0x00; 0x00; 0x00; 0x00; 0xdc; 0x66; 0x66; 0x66; 0x66; 0x66; 0x7c; 0x60; 0x60; 0xf0];
   [0x00; 0x00; 0x00; 0x00; 0x00; 0x00; 0x76; 0xcc; 0xcc; 0xcc; 0xcc; 0xcc; 0x7c; 0x0c; 0x0c; 0x1e];
   [0x00; 0x00; 0x00; 0x00; 0x00; 0x00; 0xdc; 0x76; 0x66; 0x60; 0x60; 0x60; 0xf0; 0x00; 0x00; 0x00];
   [0x00; 0x00; 0x00; 0x00; 0x00; 0x00; 0x7c; 0xc6; 0x60; 0x38; 0x0c; 0xc6; 0x7c; 0x00; 0x00; 0x00];
   [0x00; 0x00; 0x00; 0x10; 0x30; 0x30; 0xfc; 0x30; 0x30; 0x30; 0x30; 0x36; 0x1c; 0x00; 0x00; 0x00];
   [0x00; 0x00; 0x00; 0x00; 0x00; 0x00; 0xcc; 0xcc; 0xcc; 0xcc; 0xcc; 0xcc; 0x76; 0x00; 0x00; 0x00];
   [0x00; 0x00; 0x00; 0x00; 0x00; 0x00; 0xc6; 0xc6; 0xc6; 0xc6; 0x6c; 0x38; 0x10; 0x00; 0x00; 0x00];
   [0x00; 0x00; 0x00; 0x00; 0x00; 0x00; 0xc6; 0xc6; 0xd6; 0xd6; 0xd6; 0xfe; 0x6c; 0x00; 0x00; 0x00];
   [0x00; 0x00; 0x00; 0x00; 0x00; 0x00; 0xc6; 0x6c; 0x38; 0x38; 0x38; 0x6c; 0xc6; 0x00; 0x00; 0x00];
   [0x00; 0x00; 0x00; 0x00; 0x00; 0x00; 0xc6; 0xc6; 0xc6; 0xc6; 0xc6; 0xc6; 0x7e; 0x06; 0x0c; 0xf8];
   [0x00; 0x00; 0x00; 0x00; 0x00; 0x00; 0xfe; 0xcc; 0x18; 0x30; 0x60; 0xc6; 0xfe; 0x00; 0x00; 0x00];
   [0x00; 0x00; 0x0e; 0x18; 0x18; 0x18; 0x70; 0x18; 0x18; 0x18; 0x18; 0x18; 0x0e; 0x00; 0x00; 0x00];
   [0x00; 0x00; 0x18; 0x18; 0x18; 0x18; 0x00; 0x18; 0x18; 0x18; 0x18; 0x18; 0x18; 0x00; 0x00; 0x00];
   [0x00; 0x00; 0x70; 0x18; 0x18; 0x18; 0x0e; 0x18; 0x18; 0x18; 0x18; 0x18; 0x70; 0x00; 0x00; 0x00];
   [0x00; 0x76; 0xdc; 0x00; 0x00; 0x00; 0x00; 0x00; 0x00; 0x00; 0x00; 0x00; 0x00; 0x00; 0x00; 0x00];
   blank].

Definition glyph (ch : Z) : outcome (list Z) :=
  if bool_decide (0x7F < ch) then idx FONT 63 else idx FONT ch.

(** Every glyph has sixteen rows of a byte. *)
Definition glyph_ok (g : list Z) : bool :=
  bool_decide (lenZ g = 16) && forallb (fun b => bool_decide (0 <= b < 256)) g.

Lemma FONT_ok : lenZ FONT = 128 /\ forallb glyph_ok FONT = true.
Proof. vm_compute. split; reflexivity. Qed.

Lemma glyph_total ch : 0 <= ch -> exists g, glyph ch = Ret g /\ lenZ g = 16.
Proof.
  intros Hch. destruct FONT_ok as [Hl Hf].
  assert (Hi : exists i, glyph ch = idx FONT i /\ 0 <= i < 128).
  { unfold glyph. case_bool_decide; eexists; (split; [done|lia]). }
  destruct Hi as (i & -> & Hi). destruct (idx_in_range FONT i) as [g Hg]; [lia|].
  exists g. split; [done|]. apply idx_Ret in Hg as [_ Hg].
  apply list_elem_of_lookup_2, list_elem_of_In in Hg.
  apply (proj1 (forallb_forall _ _) Hf) in Hg as Hk.
  unfold glyph_ok in Hk. apply andb_prop in Hk as [Hk _].
  by apply bool_decide_eq_true in Hk.
Qed.
