(* ===== verification/Fb.v ===== *)
(** * drivers/fb.rs: the framebuffer driver

    The double-buffered linear framebuffer of src/kernel/src/drivers/fb.rs:
    painting into the back buffer with a dirty rectangle, [commit] and
    [present], scrolling and glyphs.  The two [Vec]s of the driver have one
    length, [buf_len]; a buffer is a function of the pixel index and the
    checked accesses test the index.  The scanout is the memory behind
    [front].  A virtio GPU is its pixel buffer and the regions it was asked
    to flush. *)

From S2P Require Import Prelude Str Font.
Local Open Scope Z_scope.

Definition BG : Z := 0x0a0a14.
Definition WHITE : Z := 0xe8e8f0.
Definition CYAN : Z := 0x8be9fd.

Record DirtyRect := mkDirty { any : bool; x0 : Z; y0 : Z; x1 : Z; y1 : Z }.
Definition clean : DirtyRect := mkDirty false 0 0 0 0.

Inductive PresentBackend := Mmio | VirtioGpu.

Record Gpu := mkGpu { g_width : Z; g_fb : Z -> Z; g_flushed : list (Z * Z * Z * Z) }.

Record Fb := mkFb {
  front : Z -> Z;
  back : Z -> Z;
  present_buf : Z -> Z;
  buf_len : Z;
  width : Z;
  height : Z;
  pitch_u32 : Z;
  text_scale : Z;
  dirty : DirtyRect;
  frame_ready : bool;
  ready_dirty : DirtyRect;
  backend : PresentBackend;
  gpu : option Gpu;
}.

Definition set_back (b : Z -> Z) (f : Fb) : Fb :=
  mkFb (front f) b (present_buf f) (buf_len f) (width f) (height f) (pitch_u32 f) (text_scale f)
    (dirty f) (frame_ready f) (ready_dirty f) (backend f) (gpu f).
Definition set_front (b : Z -> Z) (f : Fb) : Fb :=
  mkFb b (back f) (present_buf f) (buf_len f) (width f) (height f) (pitch_u32 f) (text_scale f)
    (dirty f) (frame_ready f) (ready_dirty f) (backend f) (gpu f).
Definition set_dirty (d : DirtyRect) (f : Fb) : Fb :=
  mkFb (front f) (back f) (present_buf f) (buf_len f) (width f) (height f) (pitch_u32 f) (text_scale f)
    d (frame_ready f) (ready_dirty f) (backend f) (gpu f).
Definition set_ready (b : bool) (r : DirtyRect) (f : Fb) : Fb :=
  mkFb (front f) (back f) (present_buf f) (buf_len f) (width f) (height f) (pitch_u32 f) (text_scale f)
    (dirty f) b r (backend f) (gpu f).
Definition set_gpu (g : option Gpu) (f : Fb) : Fb :=
  mkFb (front f) (back f) (present_buf f) (buf_len f) (width f) (height f) (pitch_u32 f) (text_scale f)
    (dirty f) (frame_ready f) (ready_dirty f) (backend f) g.
Definition set_backend (b : PresentBackend) (f : Fb) : Fb :=
  mkFb (front f) (back f) (present_buf f) (buf_len f) (width f) (height f) (pitch_u32 f) (text_scale f)
    (dirty f) (frame_ready f) (ready_dirty f) b (gpu f).

Definition sat_add (a b : Z) : Z := Z.min (a + b) (2 ^ 32 - 1).
Definition sat_mul (a b : Z) : Z := Z.min (a * b) (2 ^ 32 - 1).
Definition sat_sub (a b : Z) : Z := Z.max (a - b) 0.

(** [lo..hi] *)
Definition range (lo hi : Z) : list Z := seqZ lo (hi - lo).

Definition glyph_width (f : Fb) : outcome Z := CHAR_WIDTH *! text_scale f @ 32.
Definition glyph_height (f : Fb) : outcome Z := CHAR_HEIGHT *! text_scale f @ 32.
Definition pitch_bytes (f : Fb) : outcome Z := pitch_u32 f *! 4 @ 32.

Definition fb_idx (f : Fb) (x y : Z) : outcome Z := r ← y *! pitch_u32 f @ 32; r +! x @ 32.

(** [buf[i] = v] and [buf[i]] *)
Definition write_at (i v : Z) (f : Fb) : outcome Fb :=
  if bool_decide (0 <= i < buf_len f)
  then Ret (set_back (fun j => if bool_decide (j = i) then v else back f j) f) else Panic.
Definition read_at (b : Z -> Z) (i : Z) (f : Fb) : outcome Z :=
  if bool_decide (0 <= i < buf_len f) then Ret (b i) else Panic.

(** ** Painting *)

Definition mark_dirty_rect (x y w h : Z) (f : Fb) : Fb :=
  if bool_decide (w = 0 \/ h = 0) then f else
  let x0' := Z.min x (width f) in
  let y0' := Z.min y (height f) in
  let x1' := Z.min (sat_add x w) (width f) in
  let y1' := Z.min (sat_add y h) (height f) in
  if bool_decide (x1' <= x0' \/ y1' <= y0') then f else
  let d := dirty f in
  if negb (any d) then set_dirty (mkDirty true x0' y0' x1' y1') f
  else set_dirty (mkDirty true (Z.min (x0 d) x0') (Z.min (y0 d) y0') (Z.max (x1 d) x1') (Z.max (y1 d) y1')) f.

Definition mark_rect_dirty (x y w h : Z) (f : Fb) : Fb := mark_dirty_rect x y w h f.

Definition put_pixel (x y rgb : Z) (f : Fb) : outcome Fb :=
  if bool_decide (width f <= x \/ height f <= y) then Ret f else
  off ← fb_idx f x y;
  f ← write_at off rgb f;
  Ret (mark_dirty_rect x y 1 1 f).

(** One row of a rectangle. *)
Definition fill_row (xa xb rgb : Z) (f : Fb) (py : Z) : outcome Fb :=
  row ← py *! pitch_u32 f @ 32;
  ofold (fun f px => write_at (row + px) rgb f) f (range xa xb).

Definition fill_rect (x y w h rgb : Z) (f : Fb) : outcome Fb :=
  let xa := Z.min x (width f) in
  let ya := Z.min y (height f) in
  let xb := Z.min (sat_add x w) (width f) in
  let yb := Z.min (sat_add y h) (height f) in
  f ← ofold (fill_row xa xb rgb) f (range ya yb);
  Ret (mark_dirty_rect xa ya (sat_sub xb xa) (sat_sub yb ya) f).

Definition fb_clear (rgb : Z) (f : Fb) : outcome Fb := fill_rect 0 0 (width f) (height f) rgb f.

(** Pixel [gx] of a row of a glyph. *)
Definition bit_on (bits gx : Z) : bool := bool_decide (Z.land (Z.shiftr bits (7 - gx)) 1 <> 0).

(** The rows of a glyph at scale 1, up to the bottom of the screen. *)
Fixpoint blit_rows (g : list Z) (x y cols fg bg : Z) (gys : list Z) (f : Fb) : outcome Fb :=
  match gys with
  | [] => Ret f
  | gy :: gys' =>
      py ← y +! gy @ 32;
      if bool_decide (height f <= py) then Ret f else
      bits ← idx g gy;
      row ← py *! pitch_u32 f @ 32;
      f ← ofold (fun f gx => write_at (row + x + gx) (if bit_on bits gx then fg else bg) f) f (range 0 cols);
      blit_rows g x y cols fg bg gys' f
  end.

(** One pixel of a glyph at scale [sc], up to the right edge. *)
Fixpoint scale_pixels (row px0 color : Z) (sxs : list Z) (f : Fb) : outcome Fb :=
  match sxs with
  | [] => Ret f
  | sx :: sxs' =>
      let px := sat_add px0 sx in
      if bool_decide (width f <= px) then Ret f else
      f ← write_at (row + px) color f;
      scale_pixels row px0 color sxs' f
  end.

(** The scaled copies of one row of a glyph, up to the bottom. *)
Fixpoint scale_rows (bits x y gy sc fg bg : Z) (sys : list Z) (f : Fb) : outcome Fb :=
  match sys with
  | [] => Ret f
  | sy :: sys' =>
      let py := sat_add (sat_add y (sat_mul gy sc)) sy in
      if bool_decide (height f <= py) then Ret f else
      row ← py *! pitch_u32 f @ 32;
      f ← ofold (fun f gx =>
            scale_pixels row (sat_add x (sat_mul gx sc)) (if bit_on bits gx then fg else bg) (range 0 sc) f)
            f (range 0 CHAR_WIDTH);
      scale_rows bits x y gy sc fg bg sys' f
  end.

Definition blit_char (x y ch fg bg : Z) (f : Fb) : outcome Fb :=
  if bool_decide (width f <= x \/ height f <= y) then Ret f else
  g ← glyph ch;
  let sc := text_scale f in
  gw ← glyph_width f;
  gh ← glyph_height f;
  f ← (if bool_decide (sc = 1) then
         r ← x +! 8 @ 32;
         cols ← Z.min r (width f) -! x;
         blit_rows g x y cols fg bg (range 0 CHAR_HEIGHT) f
       else
         ofold (fun f gy => bits ← idx g gy; scale_rows bits x y gy sc fg bg (range 0 sc) f)
           f (range 0 CHAR_HEIGHT));
  Ret (mark_dirty_rect x y gw gh f).

(** [back.copy_within(src..src + n, 0)] *)
Definition copy_down (src n : Z) (f : Fb) : outcome Fb :=
  if bool_decide (src + n <= buf_len f)
  then Ret (set_back (fun j => if bool_decide (0 <= j < n) then back f (j + src) else back f j) f) else Panic.

Definition scroll_up_bounded (max_y pixels clear_color : Z) (f : Fb) : outcome Fb :=
  if bool_decide (pixels = 0 \/ max_y <= pixels) then Ret f else
  let y_lim := Z.min max_y (height f) in
  rows ← y_lim -! pixels;
  f ← copy_down (pixels * pitch_u32 f) (rows * pitch_u32 f) f;
  f ← fill_rect 0 rows (width f) pixels clear_color f;
  Ret (mark_dirty_rect 0 0 (width f) y_lim f).

Definition scroll_up (pixels clear_color : Z) (f : Fb) : outcome Fb :=
  scroll_up_bounded (height f) pixels clear_color f.

(** ** Showing *)

(** A copy of [len] pixels at [off], without a check. *)
Definition copy_row (src dst : Z -> Z) (off len : Z) : Z -> Z :=
  fun j => if bool_decide (off <= j < off + len) then src j else dst j.

(** [fast_blit_row]: pairs by [rep movsq], then the odd pixel. *)
Definition fast_blit_row (src dst : Z -> Z) (off count : Z) : Z -> Z :=
  if bool_decide (count = 0) then dst else
  let qwords := count / 2 in
  let tail := count mod 2 in
  let dst := if bool_decide (0 < qwords) then copy_row src dst off (qwords * 2) else dst in
  if bool_decide (0 < tail)
  then fun j => if bool_decide (j = off + (count - 1)) then src j else dst j else dst.

Definition commit (f : Fb) : outcome Fb :=
  if negb (any (dirty f)) && negb (frame_ready f) then Ret f else
  if any (dirty f) then
    let r := dirty f in
    let f := set_dirty clean (set_ready (frame_ready f) r f) in
    let b := present_buf f in
    let f := mkFb (front f) b (back f) (buf_len f) (width f) (height f) (pitch_u32 f) (text_scale f)
               (dirty f) (frame_ready f) (ready_dirty f) (backend f) (gpu f) in
    f ← ofold (fun f y =>
          row ← y *! pitch_u32 f @ 32;
          len ← x1 r -! x0 r;
          Ret (set_back (copy_row (present_buf f) (back f) (row + x0 r) len) f))
        f (range (y0 r) (y1 r));
    Ret (set_ready true (ready_dirty f) f)
  else Ret f.

Definition present_mmio (f : Fb) : outcome Fb :=
  let r := ready_dirty f in
  copy_len ← x1 r -! x0 r;
  ofold (fun f y =>
    row ← y *! pitch_u32 f @ 32;
    Ret (set_front (fast_blit_row (present_buf f) (front f) (row + x0 r) copy_len) f))
    f (range (y0 r) (y1 r)).

Definition present_virtio_gpu (f : Fb) : outcome Fb :=
  match gpu f with
  | None => Ret f
  | Some g =>
      let r := ready_dirty f in
      w ← x1 r -! x0 r;
      h ← y1 r -! y0 r;
      if bool_decide (w = 0 \/ h = 0) then Ret f else
      g' ← ofold (fun g y =>
             row ← y *! pitch_u32 f @ 32;
             let src_off := row + x0 r in
             let dst_off := y * g_width g + x0 r in
             Ret (mkGpu (g_width g)
                    (fun j => if bool_decide (dst_off <= j < dst_off + w)
                              then present_buf f (src_off + (j - dst_off)) else g_fb g j)
                    (g_flushed g)))
             g (range (y0 r) (y1 r));
      Ret (set_gpu (Some (mkGpu (g_width g') (g_fb g') (g_flushed g' ++ [(x0 r, y0 r, w, h)]))) f)
  end.

Definition present (f : Fb) : outcome Fb :=
  if negb (frame_ready f) then Ret f else
  f ← match backend f with Mmio => present_mmio f | VirtioGpu => present_virtio_gpu f end;
  Ret (set_ready false clean f).

Definition present_rect (x y w h : Z) (f : Fb) : outcome Fb :=
  xb ← x +! w @ 32; yb ← y +! h @ 32;
  let xb := Z.min xb (width f) in
  let yb := Z.min yb (height f) in
  let xa := Z.min x (width f) in
  let ya := Z.min y (height f) in
  if bool_decide (xb <= xa \/ yb <= ya) then Ret f else
  ofold (fun f yy =>
    row ← yy *! pitch_u32 f @ 32;
    Ret (set_front (fast_blit_row (present_buf f) (front f) (row + xa) (xb - xa)) f))
    f (range ya yb).
Definition restore_front_region (x y w h : Z) (f : Fb) : outcome Fb := present_rect x y w h f.

(** ** Single pixels *)

Definition read_back (x y : Z) (f : Fb) : outcome Z :=
  if bool_decide (width f <= x \/ height f <= y) then Ret 0 else
  off ← fb_idx f x y; read_at (back f) off f.
Definition write_back_raw (x y color : Z) (f : Fb) : outcome Fb :=
  if bool_decide (width f <= x \/ height f <= y) then Ret f else
  off ← fb_idx f x y; write_at off color f.
Definition write_front_pixel (x y rgb : Z) (f : Fb) : outcome Fb :=
  if bool_decide (width f <= x \/ height f <= y) then Ret f else
  off ← fb_idx f x y;
  Ret (set_front (fun j => if bool_decide (j = off) then rgb else front f j) f).
Definition read_back_pixel (x y : Z) (f : Fb) : outcome Z :=
  if bool_decide (width f <= x \/ height f <= y) then Ret 0 else
  off ← fb_idx f x y; read_at (present_buf f) off f.

(** ** Initialisation *)

Record FramebufferInfo := mkFbi {
  fi_addr : Z; fi_pitch : Z; fi_width : Z; fi_height : Z; fi_bpp : Z; fi_type : Z
}.

Definition scale_for (w : Z) : Z :=
  if bool_decide (2560 <= w) then 3 else if bool_decide (1920 <= w) then 2 else 1.

(** [mapped]: the result of [paging::map_mmio]; [scanout]: what the mapped
    memory holds before. *)
Definition fb_init (info : FramebufferInfo) (mapped : Z -> Z -> result unit string) (scanout : Z -> Z) :
    outcome (result Fb string) :=
  if bool_decide (fi_type info <> 1) then Ret (Err "FB: type non RGB (type 1 attendu)"%string) else
  if bool_decide (fi_bpp info <> 32) then Ret (Err "FB: seul 32 bpp supporté pour l'instant"%string) else
  if bool_decide (fi_pitch info mod 4 <> 0) then Ret (Err "FB: pitch non multiple de 4"%string) else
  size ← fi_pitch info *! fi_height info @ 32;
  match mapped (fi_addr info) size with
  | Err e => Ret (Err e)
  | Ok _ =>
      let p := fi_pitch info / 4 in
      len ← p *! fi_height info @ 32;
      let f := mkFb scanout (fun _ => BG) (fun _ => BG) len (fi_width info) (fi_height info) p
                 (scale_for (fi_width info)) clean false clean Mmio None in
      f ← fb_clear BG f;
      f ← commit f;
      f ← present f;
      Ret (Ok f)
  end.

(** The virtio GPU variant: no scanout memory; [active]: the driver is
    already initialised. *)
Definition init_virtio_gpu (active : bool) (w h : Z) (g : option Gpu) : outcome (result Fb string) :=
  if active then Ret (Err "FB déjà initialisé"%string) else
  len ← w *! h @ 32;
  let f := mkFb (fun _ => 0) (fun _ => BG) (fun _ => BG) len w h w (scale_for w)
             clean false clean VirtioGpu g in
  f ← fb_clear BG f;
  f ← commit f;
  f ← present f;
  Ret (Ok f).
