(* ===== verification/FbCorrect.v ===== *)
(** * The framebuffer shows what was painted

    Painting changes the back buffer only inside the dirty rectangle, so
    copying the dirty rectangle is enough: after [commit] and [present]
    every visible pixel of the scanout is the pixel that was painted. *)

From S2P Require Import Prelude Str Font Fb.
Local Open Scope Z_scope.

(** ** Pixels *)

Definition visible (f : Fb) (x y : Z) : Prop := 0 <= x < width f /\ 0 <= y < height f.
Definition pix (f : Fb) (b : Z -> Z) (x y : Z) : Z := b (y * pitch_u32 f + x).
Definition in_rect (r : DirtyRect) (x y : Z) : Prop := any r = true /\ x0 r <= x < x1 r /\ y0 r <= y < y1 r.

Definition rect_wf (f : Fb) (r : DirtyRect) : Prop :=
  any r = true -> 0 <= x0 r < x1 r /\ x1 r <= width f /\ 0 <= y0 r < y1 r /\ y1 r <= height f.

Record fb_wf (f : Fb) : Prop := {
  wf_width : 0 < width f <= pitch_u32 f;
  wf_pitch : pitch_u32 f < 2 ^ 31;
  wf_height : 0 < height f < 2 ^ 31;
  wf_len : buf_len f = pitch_u32 f * height f;
  wf_u32 : buf_len f < 2 ^ 32;
  wf_scale : 1 <= text_scale f <= 3;
  wf_dirty : rect_wf f (dirty f);
}.

(** The parts of the state that painting leaves alone. *)
Record same_frame (f f' : Fb) : Prop := {
  sf_front : front f' = front f;
  sf_present : present_buf f' = present_buf f;
  sf_len : buf_len f' = buf_len f;
  sf_width : width f' = width f;
  sf_height : height f' = height f;
  sf_pitch : pitch_u32 f' = pitch_u32 f;
  sf_scale : text_scale f' = text_scale f;
  sf_ready : frame_ready f' = frame_ready f;
  sf_rdirty : ready_dirty f' = ready_dirty f;
  sf_backend : backend f' = backend f;
  sf_gpu : gpu f' = gpu f;
}.

Lemma same_frame_refl f : same_frame f f.
Proof. by split. Qed.
Lemma same_frame_trans f1 f2 f3 : same_frame f1 f2 -> same_frame f2 f3 -> same_frame f1 f3.
Proof. intros [] []. split; congruence. Qed.

(** [f'] is [f] after writes to pixels of [A] only. *)
Record writes (A : Z -> Z -> Prop) (f f' : Fb) : Prop := {
  w_frame : same_frame f f';
  w_dirty : dirty f' = dirty f;
  w_in : forall x y, visible f x y -> pix f (back f') x y <> pix f (back f) x y -> A x y;
}.

(** [f'] is [f] after painting in [A]: what changed is marked. *)
Record paints (A : Z -> Z -> Prop) (f f' : Fb) : Prop := {
  p_frame : same_frame f f';
  p_rect : rect_wf f (dirty f');
  p_mono : forall x y, in_rect (dirty f) x y -> in_rect (dirty f') x y;
  p_mark : forall x y, visible f x y -> pix f (back f') x y <> pix f (back f) x y -> in_rect (dirty f') x y;
  p_in : forall x y, visible f x y -> pix f (back f') x y <> pix f (back f) x y -> A x y;
}.

Lemma visible_same f f' x y : same_frame f f' -> visible f' x y <-> visible f x y.
Proof. intros []. unfold visible. by rewrite sf_width0, sf_height0. Qed.
Lemma pix_same f f' b x y : same_frame f f' -> pix f' b x y = pix f b x y.
Proof. intros []. unfold pix. by rewrite sf_pitch0. Qed.
Lemma rect_wf_same f f' r : same_frame f f' -> rect_wf f' r <-> rect_wf f r.
Proof. intros []. unfold rect_wf. by rewrite sf_width0, sf_height0. Qed.

Lemma fb_wf_same f f' : same_frame f f' -> rect_wf f (dirty f') -> fb_wf f -> fb_wf f'.
Proof.
  intros Hs Hr []. pose proof (rect_wf_same f f' (dirty f') Hs).
  destruct Hs. split; try congruence; [..|tauto].
Qed.

(** A pixel that two steps change is changed by one of them. *)
Lemma changed_step f1 f2 f3 x y :
  same_frame f1 f2 -> pix f1 (back f3) x y <> pix f1 (back f1) x y ->
  pix f1 (back f2) x y <> pix f1 (back f1) x y \/ pix f2 (back f3) x y <> pix f2 (back f2) x y.
Proof.
  intros Hs Hne. rewrite !(pix_same f1 f2) by done.
  destruct (decide (pix f1 (back f2) x y = pix f1 (back f1) x y)); [right; congruence|by left].
Qed.

Lemma writes_refl A f : writes A f f.
Proof. split; [apply same_frame_refl|done|done]. Qed.
Lemma writes_trans A f1 f2 f3 : writes A f1 f2 -> writes A f2 f3 -> writes A f1 f3.
Proof.
  intros [H1 D1 I1] [H2 D2 I2]. split; [by eapply same_frame_trans|congruence|].
  intros x y Hv [Hc|Hc]%(changed_step f1 f2 f3); [by apply I1| |done].
  apply I2; [by apply (visible_same f1 f2)|done].
Qed.
Lemma writes_mono (A B : Z -> Z -> Prop) f f' :
  (forall x y, visible f x y -> A x y -> B x y) -> writes A f f' -> writes B f f'.
Proof. intros HAB [H1 D1 I1]. split; [done..|]. intros. apply HAB, I1; done. Qed.

Lemma paints_refl A f : fb_wf f -> paints A f f.
Proof. intros [? ? ? ? ? ? Hd]. split; [apply same_frame_refl|done|done|done|done]. Qed.
Lemma paints_trans A f1 f2 f3 : paints A f1 f2 -> paints A f2 f3 -> paints A f1 f3.
Proof.
  intros [S1 R1 M1 K1 I1] [S2 R2 M2 K2 I2]. split.
  - by eapply same_frame_trans.
  - by apply (rect_wf_same f1 f2).
  - auto.
  - intros x y Hv [Hc|Hc]%(changed_step f1 f2 f3); [by apply M2, K1| |done].
    apply K2; [by apply (visible_same f1 f2)|done].
  - intros x y Hv [Hc|Hc]%(changed_step f1 f2 f3); [by apply I1| |done].
    apply I2; [by apply (visible_same f1 f2)|done].
Qed.
Lemma paints_mono (A B : Z -> Z -> Prop) f f' :
  (forall x y, visible f x y -> A x y -> B x y) -> paints A f f' -> paints B f f'.
Proof. intros HAB [S R Mo K I]. split; [done..|]. intros. apply HAB, I; done. Qed.
Lemma paints_wf A f f' : paints A f f' -> fb_wf f -> fb_wf f'.
Proof. intros [S R _ _ _]. by apply fb_wf_same. Qed.

(** ** Loops over a range *)

Lemma ofold_range {S} (P : Z -> S -> Prop) (g : S -> Z -> outcome S) lo hi s :
  P lo s -> (forall i s, lo <= i < hi -> P i s -> exists s', g s i = Ret s' /\ P (i + 1) s') ->
  exists s', ofold g s (range lo hi) = Ret s' /\ P (Z.max lo hi) s'.
Proof.
  unfold range. remember (Z.to_nat (hi - lo)) as n eqn:Hn. revert lo s Hn.
  induction n as [|n IH]; intros lo s Hn Hs Hg.
  { rewrite seqZ_nil by lia. exists s. split; [done|]. by replace (Z.max lo hi) with lo by lia. }
  rewrite seqZ_cons by lia. cbn [ofold]. destruct (Hg lo s) as (s1 & -> & H1); [lia|done|].
  replace (Z.pred (hi - lo)) with (hi - (lo + 1)) by lia. unfold Z.succ.
  destruct (IH (lo + 1) s1) as (s2 & E & H2); [lia|done|intros; apply Hg; [lia|done]|].
  exists s2. split; [done|]. by replace (Z.max lo hi) with (Z.max (lo + 1) hi) by lia.
Qed.

(** ** One pixel *)

Lemma pixel_index f x y : fb_wf f -> visible f x y -> 0 <= y * pitch_u32 f + x < buf_len f.
Proof. intros [] [Hx Hy]. rewrite wf_len0. nia. Qed.

Lemma row_ok f y : fb_wf f -> 0 <= y < height f -> y *! pitch_u32 f @ 32 = Ret (y * pitch_u32 f).
Proof. intros [] Hy. apply mul_chk_ok. nia. Qed.

Lemma pixel_inj f x y x' y' :
  fb_wf f -> visible f x y -> visible f x' y' ->
  y * pitch_u32 f + x = y' * pitch_u32 f + x' -> x = x' /\ y = y'.
Proof. intros [] [Hx Hy] [Hx' Hy'] E. assert (y = y') by nia. subst. lia. Qed.

Lemma write_pixel f x y v :
  fb_wf f -> visible f x y ->
  exists f', write_at (y * pitch_u32 f + x) v f = Ret f' /\ writes (fun x' y' => x' = x /\ y' = y) f f' /\
    pix f (back f') x y = v.
Proof.
  intros Hwf Hv. unfold write_at. rewrite bool_decide_eq_true_2 by (by apply pixel_index).
  eexists. split; [done|]. split.
  - split; [by split|done|]. intros x' y' Hv'. unfold pix. cbn [set_back back].
    case_bool_decide as E; [|done]. intros _. by apply (pixel_inj f).
  - unfold pix. cbn [set_back back]. by rewrite bool_decide_eq_true_2.
Qed.

Lemma wf_dims f : fb_wf f -> width f < 2 ^ 32 /\ height f < 2 ^ 32.
Proof. intros []. split; nia. Qed.

(** ** Marking *)

Lemma mark_spec f x y w h :
  fb_wf f -> 0 <= x -> 0 <= y -> 0 <= w -> 0 <= h ->
  let f' := mark_dirty_rect x y w h f in
  same_frame f f' /\ back f' = back f /\ rect_wf f (dirty f') /\
  (forall a b, in_rect (dirty f) a b -> in_rect (dirty f') a b) /\
  (forall a b, visible f a b -> x <= a < x + w -> y <= b < y + h -> in_rect (dirty f') a b).
Proof.
  intros Hwf Hx Hy Hw Hh. destruct (wf_dims f Hwf) as [Hw32 Hh32]. destruct Hwf as [? ? ? ? ? ? Hd].
  cbv zeta. unfold mark_dirty_rect.
  case_bool_decide as Hz.
  { split_and!; try done. intros a b [] ? ?. lia. }
  case_bool_decide as He.
  { split_and!; try done. intros a b [] ? ?. unfold sat_add in He. lia. }
  unfold rect_wf, in_rect, visible, sat_add in *.
  destruct (any (dirty f)) eqn:Ea; cbn [negb]; split_and!; try done;
    cbn [set_dirty dirty any x0 y0 x1 y1 back]; try (intros; specialize (Hd eq_refl)); try done; intros; lia.
Qed.

(** Writes inside a marked rectangle are painting. *)
Lemma writes_mark (A : Z -> Z -> Prop) f f' x y w h :
  fb_wf f -> writes A f f' -> 0 <= x -> 0 <= y -> 0 <= w -> 0 <= h ->
  (forall a b, visible f a b -> A a b -> x <= a < x + w /\ y <= b < y + h) ->
  paints A f (mark_dirty_rect x y w h f') /\
  back (mark_dirty_rect x y w h f') = back f'.
Proof.
  intros Hwf [S D O] Hx Hy Hw Hh HA.
  assert (Hwf' : fb_wf f') by (apply (fb_wf_same f); [done|rewrite D; apply Hwf|done]).
  destruct (mark_spec f' x y w h) as (S' & B & R & Mo & Mk); try done.
  split; [|done]. split.
  - by eapply same_frame_trans.
  - by apply (rect_wf_same f f').
  - intros a b Hin. apply Mo. by rewrite D.
  - intros a b Hv Hne. rewrite B in Hne. destruct (HA a b Hv (O a b Hv Hne)).
    apply Mk; [by apply (visible_same f f')|done..].
  - intros a b Hv Hne. rewrite B in Hne. by apply O.
Qed.

(** ** The painting operations *)

(** A pixel written in the middle of a loop over pixels of [A]. *)
Lemma writes_pixel A f f1 x y v :
  fb_wf f -> writes A f f1 -> visible f x y -> A x y ->
  exists f2, write_at (y * pitch_u32 f + x) v f1 = Ret f2 /\ writes A f f2 /\
    pix f (back f2) x y = v /\
    forall x' y', visible f x' y' -> ~ (x' = x /\ y' = y) -> pix f (back f2) x' y' = pix f (back f1) x' y'.
Proof.
  intros Hwf Hw Hv HA. pose proof (w_frame _ _ _ Hw) as Hs.
  assert (Hwf1 : fb_wf f1) by (apply (fb_wf_same f); [done|rewrite (w_dirty _ _ _ Hw); apply Hwf|done]).
  destruct (write_pixel f1 x y v) as (f2 & E & Hw2 & Hp); [done|by apply (visible_same f f1)|].
  rewrite (sf_pitch _ _ Hs) in E. exists f2. split_and!; [done| | |].
  - eapply writes_trans; [done|]. eapply writes_mono; [|exact Hw2]. by intros ? ? _ [-> ->].
  - by rewrite <- (pix_same f f1).
  - intros x' y' Hv' Hne. rewrite <- !(pix_same f f1) by done.
    destruct (decide (pix f1 (back f2) x' y' = pix f1 (back f1) x' y')) as [|Hc]; [done|].
    destruct Hne. apply (w_in _ _ _ Hw2); [by apply (visible_same f f1)|done].
Qed.

Definition box (xa xb ya yb : Z) (x y : Z) : Prop := xa <= x < xb /\ ya <= y < yb.

Lemma put_pixel_spec f x y rgb :
  fb_wf f -> 0 <= x -> 0 <= y ->
  exists f', put_pixel x y rgb f = Ret f' /\ paints (box x (x + 1) y (y + 1)) f f' /\
    (visible f x y -> pix f (back f') x y = rgb).
Proof.
  intros Hwf Hx Hy. unfold put_pixel. case_bool_decide as Hout.
  { exists f. split_and!; [done|by apply paints_refl|]. unfold visible. lia. }
  assert (Hv : visible f x y) by (unfold visible; lia).
  unfold fb_idx. rewrite row_ok by (unfold visible in Hv; tauto || lia || done). obind.
  rewrite add_chk_ok by (pose proof (pixel_index f x y Hwf Hv); destruct Hwf; lia). obind.
  destruct (writes_pixel (box x (x + 1) y (y + 1)) f f x y rgb) as (f1 & -> & Hw & Hp & _);
    [done|apply writes_refl|done|unfold box; lia|]. obind.
  eexists. split; [done|].
  destruct (writes_mark (box x (x + 1) y (y + 1)) f f1 x y 1 1) as [Hpt Hb]; try done; try lia.
  split; [done|]. intros _. by rewrite Hb.
Qed.

(** The pixels of the rows done so far have the colour. *)
Definition filled (A : Z -> Z -> Prop) (rgb : Z) (f f' : Fb) : Prop :=
  writes A f f' /\ forall x y, visible f x y -> A x y -> pix f (back f') x y = rgb.

Lemma fill_row_spec f f1 xa xb ya y rgb :
  fb_wf f -> 0 <= xa -> xb <= width f -> 0 <= ya <= y -> y < height f -> filled (box xa xb ya y) rgb f f1 ->
  exists f2, fill_row xa xb rgb f1 y = Ret f2 /\ filled (box xa xb ya (y + 1)) rgb f f2.
Proof.
  intros Hwf Hxa Hxb Hya Hy [Hw Hf]. unfold fill_row.
  rewrite (sf_pitch _ _ (w_frame _ _ _ Hw)), row_ok by (done || lia). obind.
  set (B := box xa xb ya (y + 1)).
  destruct (ofold_range (fun i g => writes B f g /\
      (forall a b, visible f a b -> box xa xb ya y a b -> pix f (back g) a b = rgb) /\
      (forall a, xa <= a < i -> pix f (back g) a y = rgb))
      (fun g px => write_at (y * pitch_u32 f + px) rgb g) xa xb f1) as (f2 & E & Hw2 & Hold & Hrow).
  { split_and!; [|done|intros; lia]. eapply writes_mono; [|exact Hw]. unfold B, box. lia. }
  { intros i g Hi (Hg & Ho & Hr).
    destruct (writes_pixel B f g i y rgb) as (g2 & Eg & Hg2 & Hp & Hoth); [done|done|..].
    { unfold visible. lia. } { unfold B, box. lia. }
    exists g2. split_and!; [done|done| |].
    - intros a b Hv Hbx. rewrite Hoth; [by apply Ho|done|]. unfold box in Hbx. lia.
    - intros a Ha. destruct (decide (a = i)) as [->|]; [done|].
      rewrite Hoth; [apply Hr; lia|unfold visible; lia|lia]. }
  exists f2. split; [exact E|]. split; [exact Hw2|]. intros a b Hv [Ha Hb].
  destruct (decide (b = y)) as [->|]; [apply Hrow; lia|]. apply Hold; [done|]. unfold box. lia.
Qed.

(** [fill_rect] paints exactly the visible part of the rectangle. *)
Lemma fill_rect_spec f x y w h rgb :
  fb_wf f -> 0 <= x -> 0 <= y -> 0 <= w -> 0 <= h ->
  exists f', fill_rect x y w h rgb f = Ret f' /\ paints (box x (x + w) y (y + h)) f f' /\
    forall a b, visible f a b -> box x (x + w) y (y + h) a b ->
      pix f (back f') a b = rgb /\ in_rect (dirty f') a b.
Proof.
  intros Hwf Hx Hy Hw Hh. destruct (wf_dims f Hwf) as [Hw32 Hh32]. pose proof Hwf as [].
  unfold fill_rect. set (xa := Z.min x _). set (ya := Z.min y _). set (xb := Z.min _ (width f)).
  set (yb := Z.min _ (height f)).
  destruct (ofold_range (fun i g => filled (box xa xb ya i) rgb f g) (fill_row xa xb rgb) ya yb f)
    as (f1 & E & Hw1 & Hf1).
  { split; [apply writes_refl|]. intros ? ? _ [_ ?]. lia. }
  { intros i g Hi Hg. apply fill_row_spec; try done; unfold xa, xb, ya, yb, sat_add in *; lia. }
  setoid_rewrite E. obind. eexists. split; [done|].
  assert (Hbox : forall a b, visible f a b ->
    box xa xb ya (Z.max ya yb) a b <-> box x (x + w) y (y + h) a b).
  { unfold visible, box, xa, xb, ya, yb, sat_add. lia. }
  destruct (writes_mark (box xa xb ya (Z.max ya yb)) f f1 xa ya (sat_sub xb xa) (sat_sub yb ya))
    as [Hp Hb]; try done; unfold sat_sub, xa, ya in *; try lia.
  { unfold box. lia. }
  split.
  - eapply paints_mono; [|exact Hp]. intros. by apply Hbox.
  - intros a b Hv Hin. apply Hbox in Hin; [|done]. rewrite Hb. split; [by apply Hf1|].
    pose proof (w_frame _ _ _ Hw1) as Hs1. pose proof (w_dirty _ _ _ Hw1) as Hd1.
    destruct (mark_spec f1 (Z.min x (width f)) (Z.min y (height f))
      (Z.max (xb - Z.min x (width f)) 0) (Z.max (yb - Z.min y (height f)) 0)) as (_ & _ & _ & _ & Mk); try lia.
    { apply (fb_wf_same f); [done|by rewrite Hd1|done]. }
    unfold box in Hin. apply Mk; [by apply (visible_same f f1)|lia..].
Qed.

(** A loop whose rounds only write inside [A] does too. *)
Lemma ofold_writes A (g : Fb -> Z -> outcome Fb) f l f1 :
  writes A f f1 ->
  (forall i f1, i ∈ l -> writes A f f1 -> exists f2, g f1 i = Ret f2 /\ writes A f f2) ->
  exists f2, ofold g f1 l = Ret f2 /\ writes A f f2.
Proof. intros Hw Hg. apply (ofold_total (writes A f)); [|done]. intros. by apply Hg. Qed.

Lemma writes_wf A f f1 : writes A f f1 -> fb_wf f -> fb_wf f1.
Proof. intros [S D _] Hwf. apply (fb_wf_same f); [done|rewrite D; apply Hwf|done]. Qed.

Lemma blit_rows_spec A g x y cols fg bg gys f f1 :
  fb_wf f -> 0 <= x -> 0 <= y < height f -> lenZ g = 16 -> x + cols <= width f ->
  Forall (fun gy => 0 <= gy < 16) gys -> box x (x + cols) y (y + 16) = A -> writes A f f1 ->
  exists f2, blit_rows g x y cols fg bg gys f1 = Ret f2 /\ writes A f f2.
Proof.
  intros Hwf Hx Hy Hg Hc Hgys <-. destruct (wf_dims f Hwf). revert f1.
  induction Hgys as [|gy gys Hgy Hgys IH]; intros f1 Hw; cbn [blit_rows]; [eauto|].
  pose proof (w_frame _ _ _ Hw) as Hs. pose proof Hwf as [].
  rewrite add_chk_ok by nia. obind. rewrite (sf_height _ _ Hs).
  case_bool_decide as Hb; [eauto|].
  destruct (idx_in_range g gy) as [bits ->]; [lia|]. obind.
  rewrite (sf_pitch _ _ Hs), row_ok by (done || lia). obind.
  destruct (ofold_writes (box x (x + cols) y (y + 16)) (fun f0 gx =>
    write_at ((y + gy) * pitch_u32 f + x + gx) (if bit_on bits gx then fg else bg) f0) f (range 0 cols) f1)
    as (f2 & -> & Hw2); [done| |obind; by apply IH].
  intros i f2 Hi%elem_of_seqZ Hw2.
  destruct (writes_pixel (box x (x + cols) y (y + 16)) f f2 (x + i) (y + gy) (if bit_on bits i then fg else bg))
    as (f3 & E & Hw3 & _); [done|done|unfold visible; lia|unfold box; lia|].
  exists f3. split; [|done]. rewrite <- E. f_equal. lia.
Qed.

Lemma scale_pixels_spec A row_y px0 color sxs f f1 :
  fb_wf f -> 0 <= px0 -> 0 <= row_y < height f -> Forall (fun sx => 0 <= sx) sxs ->
  (forall sx, sx ∈ sxs -> A (px0 + sx) row_y) -> writes A f f1 ->
  exists f2, scale_pixels (row_y * pitch_u32 f) px0 color sxs f1 = Ret f2 /\ writes A f f2.
Proof.
  intros Hwf Hp Hy Hsx. destruct (wf_dims f Hwf) as [Hw32 _]. revert f1.
  induction Hsx as [|sx sxs Hs Hsx IH]; intros f1 HA Hw; cbn [scale_pixels]; [eauto|].
  rewrite (sf_width _ _ (w_frame _ _ _ Hw)). case_bool_decide as Hb; [eauto|].
  unfold sat_add in *. replace (Z.min (px0 + sx) (2 ^ 32 - 1)) with (px0 + sx) in * by lia.
  destruct (writes_pixel A f f1 (px0 + sx) row_y color) as (f2 & -> & Hw2 & _);
    [done|done|unfold visible; lia|apply HA; by left|].
  obind. apply IH; [|done]. intros. apply HA. by right.
Qed.

Lemma scale_rows_spec A bits x y gy sc fg bg sys f f1 :
  fb_wf f -> 0 <= x < width f -> 0 <= y < height f -> 1 <= sc -> 0 <= gy -> Forall (fun sy => 0 <= sy < sc) sys ->
  (forall a b, box x (x + 8 * sc) (y + gy * sc) (y + gy * sc + sc) a b -> A a b) ->
  gy < 16 -> sc <= 3 -> writes A f f1 ->
  exists f2, scale_rows bits x y gy sc fg bg sys f1 = Ret f2 /\ writes A f f2.
Proof.
  intros Hwf Hx Hy Hsc Hgy Hsys HA Hgy2 Hsc2. destruct (wf_dims f Hwf) as [Hw32 Hh32]. revert f1.
  induction Hsys as [|sy sys Hsy Hsys IH]; intros f1 Hw; cbn [scale_rows]; [eauto|].
  pose proof (w_frame _ _ _ Hw) as Hs. rewrite (sf_height _ _ Hs).
  set (py := sat_add _ sy). case_bool_decide as Hb; [eauto|].
  assert (Epy : py = y + gy * sc + sy).
  { unfold py, sat_add, sat_mul in *. assert (0 <= gy * sc <= 48) by nia. lia. }
  rewrite (sf_pitch _ _ Hs), row_ok by (done || (rewrite Epy in *; nia)). obind.
  destruct (ofold_writes A (fun f0 gx => scale_pixels (py * pitch_u32 f) (sat_add x (sat_mul gx sc))
    (if bit_on bits gx then fg else bg) (range 0 sc) f0) f (range 0 CHAR_WIDTH) f1) as (f2 & -> & Hw2);
    [done| |obind; by apply IH].
  intros gx f2 Hgx%elem_of_seqZ Hw2. unfold CHAR_WIDTH in Hgx.
  assert (Hgs : 0 <= gx * sc <= 21) by nia.
  destruct (decide (x + gx * sc < 2 ^ 32 - 1)) as [Hsmall|Hbig].
  - unfold sat_add, sat_mul.
    replace (Z.min (x + Z.min (gx * sc) (2 ^ 32 - 1)) (2 ^ 32 - 1)) with (x + gx * sc) by lia.
    apply (scale_pixels_spec A); [done|lia|rewrite Epy; nia| | |done].
    + apply Forall_forall. intros sx Hsx%elem_of_seqZ. lia.
    + intros sx Hsx%elem_of_seqZ. apply HA. unfold box. rewrite Epy. nia.
  - unfold range. rewrite (seqZ_cons 0) by lia. cbn [scale_pixels].
    rewrite (sf_width _ _ (w_frame _ _ _ Hw2)). rewrite bool_decide_eq_true_2; [eauto|].
    unfold sat_add, sat_mul. lia.
Qed.

(** A character changes only its cell. *)
Lemma blit_char_spec f x y ch fg bg :
  fb_wf f -> 0 <= x -> 0 <= y -> 0 <= ch ->
  exists f', blit_char x y ch fg bg f = Ret f' /\
    paints (box x (x + 8 * text_scale f) y (y + 16 * text_scale f)) f f'.
Proof.
  intros Hwf Hx Hy Hch. unfold blit_char. case_bool_decide as Hout.
  { exists f. split; [done|]. by apply paints_refl. }
  destruct (glyph_total ch Hch) as (g & -> & Hg). obind. pose proof Hwf as [].
  unfold glyph_width, glyph_height, CHAR_WIDTH, CHAR_HEIGHT.
  rewrite !mul_chk_ok by lia. obind.
  set (A := box x (x + 8 * text_scale f) y (y + 16 * text_scale f)).
  assert (Hbody : exists f1, (if bool_decide (text_scale f = 1)
      then r ← x +! 8 @ 32; cols ← Z.min r (width f) -! x; blit_rows g x y cols fg bg (range 0 16) f
      else ofold (fun f0 gy => bits ← idx g gy; scale_rows bits x y gy (text_scale f) fg bg (range 0 (text_scale f)) f0)
             f (range 0 16)) = Ret f1 /\ writes A f f1).
  { case_bool_decide as Hsc.
    - rewrite add_chk_ok by lia. obind. rewrite sub_chk_ok by lia. obind.
      destruct (blit_rows_spec (box x (x + (Z.min (x + 8) (width f) - x)) y (y + 16)) g x y
        (Z.min (x + 8) (width f) - x) fg bg (range 0 16) f f) as (f1 & E & Hw); try done; try lia; try apply writes_refl.
      { apply Forall_forall. intros i Hi%elem_of_seqZ. lia. }
      exists f1. split; [exact E|]. eapply writes_mono; [|exact Hw]. unfold A, box. lia.
    - apply ofold_writes; [apply writes_refl|]. intros gy f1 Hgy%elem_of_seqZ Hw.
      destruct (idx_in_range g gy) as [bits ->]; [lia|]. obind.
      apply scale_rows_spec; try done; try lia.
      + apply Forall_forall. intros sy Hsy%elem_of_seqZ. lia.
      + unfold A, box. intros. nia. }
  destruct Hbody as (f1 & E & Hw). setoid_rewrite E. obind. eexists. split; [done|].
  by apply (writes_mark A f f1); try done; lia.
Qed.

Lemma copy_down_spec f lim pixels :
  fb_wf f -> 0 < pixels < lim -> lim <= height f ->
  exists f1, copy_down (pixels * pitch_u32 f) ((lim - pixels) * pitch_u32 f) f = Ret f1 /\
    writes (box 0 (width f) 0 (lim - pixels)) f f1 /\
    forall x y, visible f x y -> y < lim - pixels -> pix f (back f1) x y = pix f (back f) x (y + pixels).
Proof.
  intros Hwf Hp Hl. pose proof Hwf as []. unfold copy_down.
  rewrite bool_decide_eq_true_2 by nia. eexists. split; [done|]. split.
  - split; [by split|done|]. intros x y [Hx Hy]. unfold pix. cbn [set_back back].
    case_bool_decide as Hj; [|done]. intros _. unfold box. nia.
  - intros x y [Hx Hy] Hlt. unfold pix. cbn [set_back back].
    rewrite bool_decide_eq_true_2 by nia. f_equal. nia.
Qed.

(** Scrolling the rows above [lim] moves them up and clears the rest. *)
Lemma scroll_spec f lim pixels color :
  fb_wf f -> 0 < pixels < lim -> lim <= height f ->
  exists f', scroll_up_bounded lim pixels color f = Ret f' /\
    paints (box 0 (width f) 0 lim) f f' /\
    (forall x y, visible f x y -> y < lim - pixels -> pix f (back f') x y = pix f (back f) x (y + pixels)) /\
    (forall x y, visible f x y -> lim - pixels <= y < lim -> pix f (back f') x y = color).
Proof.
  intros Hwf Hp Hl. pose proof Hwf as []. unfold scroll_up_bounded.
  rewrite bool_decide_eq_false_2 by lia. rewrite Z.min_l by lia.
  rewrite sub_chk_ok by lia. obind.
  destruct (copy_down_spec f lim pixels) as (f1 & -> & Hw1 & Hmv); [done..|]. obind.
  pose proof (w_frame _ _ _ Hw1) as Hs1. pose proof (writes_wf _ _ _ Hw1 Hwf) as Hwf1.
  destruct (fill_rect_spec f1 0 (lim - pixels) (width f1) pixels color) as (f2 & -> & Hp2 & Hc2);
    [done|lia|lia|rewrite (sf_width _ _ Hs1); lia|lia|]. obind.
  rewrite (sf_width _ _ Hs1) in *. replace (lim - pixels + pixels) with lim in * by lia.
  eexists. split; [done|].
  pose proof (p_frame _ _ _ Hp2) as Hs2. pose proof (same_frame_trans _ _ _ Hs1 Hs2) as Hs.
  assert (Hwf2 : fb_wf f2) by (by apply (paints_wf _ f1 f2 Hp2)).
  rewrite (sf_width _ _ Hs).
  destruct (mark_spec f2 0 0 (width f) lim) as (S' & B & R & Mo & Mk); [done|lia..|].
  rewrite B. split_and!.
  - split.
    + by eapply same_frame_trans.
    + by apply (rect_wf_same f f2).
    + intros a b Hin. apply Mo, (p_mono _ _ _ Hp2). by rewrite (w_dirty _ _ _ Hw1).
    + intros a b Hv. rewrite B. intros [Hc|Hc]%(changed_step f f1 f2); [| |done].
      * apply (w_in _ _ _ Hw1) in Hc; [|done]. unfold box in Hc.
        apply Mk; [by apply (visible_same f f2)|lia..].
      * apply Mo, (p_mark _ _ _ Hp2); [by apply (visible_same f f1)|done].
    + intros a b Hv. rewrite B. intros [Hc|Hc]%(changed_step f f1 f2); [| |done].
      * apply (w_in _ _ _ Hw1) in Hc; [|done]. unfold box in *. lia.
      * apply (p_in _ _ _ Hp2) in Hc; [|by apply (visible_same f f1)]. unfold box in *. lia.
  - intros a b Hv Hlt. rewrite <- Hmv by done.
    destruct (decide (pix f (back f2) a b = pix f (back f1) a b)) as [|Hc]; [done|exfalso].
    rewrite <- !(pix_same f f1) in Hc by done.
    apply (p_in _ _ _ Hp2) in Hc; [|by apply (visible_same f f1)]. unfold box in Hc. lia.
  - intros a b Hv Hin. rewrite <- (pix_same f f1) by done.
    apply Hc2; [by apply (visible_same f f1)|]. unfold visible, box in *. lia.
Qed.

(** ** Showing *)

(** The two-step copy of a row is one copy. *)
Lemma fast_blit_row_spec src dst off count j :
  0 <= count -> fast_blit_row src dst off count j = copy_row src dst off count j.
Proof.
  intros Hc. unfold fast_blit_row, copy_row. pose proof (Z.div_mod count 2 ltac:(lia)) as Hdm.
  pose proof (Z.mod_pos_bound count 2 ltac:(lia)) as Hm.
  case_bool_decide as H0; [rewrite bool_decide_eq_false_2 by lia; done|].
  repeat case_bool_decide; try done; lia.
Qed.


(** A loop over the rows of [r], each step of which copies the row's columns
    of [r] from [src] into the buffer [get] and keeps [Q], copies the rectangle. *)
Lemma copy_rows_spec f src (get : Fb -> Z -> Z) (step : Fb -> Z -> outcome Fb) (Q : Fb -> Prop) r f1 :
  fb_wf f -> 0 <= x0 r /\ x1 r <= width f -> y0 r <= y1 r -> Q f1 ->
  (forall g y, Q g -> y0 r <= y < y1 r -> exists g', step g y = Ret g' /\ Q g' /\
     forall j, get g' j = copy_row src (get g) (y * pitch_u32 f + x0 r) (x1 r - x0 r) j) ->
  exists f2, ofold step f1 (range (y0 r) (y1 r)) = Ret f2 /\ Q f2 /\
    forall x y, visible f x y ->
      pix f (get f2) x y = if bool_decide (box (x0 r) (x1 r) (y0 r) (y1 r) x y)
                           then pix f src x y else pix f (get f1) x y.
Proof.
  intros Hwf Hr Hy HQ Hstep. pose proof Hwf as [].
  destruct (ofold_range (fun i g => Q g /\ forall x y, visible f x y ->
      pix f (get g) x y = if bool_decide (box (x0 r) (x1 r) (y0 r) i x y)
                          then pix f src x y else pix f (get f1) x y) step (y0 r) (y1 r) f1)
    as (f2 & E & HQ2 & H2).
  { split; [done|]. intros. rewrite bool_decide_eq_false_2 by (unfold box; lia). done. }
  { intros i g Hi [Hg Hpix]. destruct (Hstep g i Hg Hi) as (g' & Eg & HQ' & Hg').
    exists g'. split; [done|]. split; [done|]. intros x y Hv. unfold pix at 1. rewrite Hg'.
    unfold copy_row. case_bool_decide as Hrow.
    - assert (y = i) by (unfold visible in Hv; nia). subst y.
      rewrite bool_decide_eq_true_2; [done|]. unfold box. lia.
    - specialize (Hpix x y Hv). unfold pix in Hpix at 1. rewrite Hpix.
      rewrite (bool_decide_ext _ (box (x0 r) (x1 r) (y0 r) (i + 1) x y)); [done|].
      unfold box, visible in *. split; [lia|]. intros [Hx Hy']. split; [done|].
      destruct (decide (y = i)); [subst; lia|lia]. }
  exists f2. split; [done|]. split; [done|]. intros x y Hv. rewrite (H2 x y Hv).
  by rewrite Z.max_r by lia.
Qed.

(** Nothing is pending. *)
Record quiet (f : Fb) : Prop := {
  qu_wf : fb_wf f;
  qu_mmio : backend f = Mmio;
  qu_ready : frame_ready f = false;
  qu_dirty : any (dirty f) = false;
  qu_back : forall x y, visible f x y -> pix f (back f) x y = pix f (present_buf f) x y;
}.

(** Nothing is pending and the scanout shows the image of the buffers. *)
Record synced (f : Fb) : Prop := {
  sy_quiet : quiet f;
  sy_front : forall x y, visible f x y -> pix f (front f) x y = pix f (present_buf f) x y;
}.

(** [commit] publishes the back buffer and catches the other one up. *)
Lemma commit_spec A f f' :
  quiet f -> paints A f f' -> any (dirty f') = true ->
  exists f2, commit f' = Ret f2 /\ frame_ready f2 = true /\ ready_dirty f2 = dirty f' /\
    any (dirty f2) = false /\ front f2 = front f /\ present_buf f2 = back f' /\ backend f2 = Mmio /\
    width f2 = width f /\ height f2 = height f /\ pitch_u32 f2 = pitch_u32 f /\
    buf_len f2 = buf_len f /\ text_scale f2 = text_scale f /\
    forall x y, visible f x y -> pix f (back f2) x y = pix f (back f') x y.
Proof.
  intros [Hwf Hm Hr Hd Hb] [[] Hrw Hmo Hmk _] Ha. unfold commit. rewrite Ha. cbn [negb andb].
  pose proof (Hrw Ha) as Hrect. pose proof Hwf as [].
  match goal with |- exists _, (_ ← ofold ?step ?g _; _) = _ /\ _ =>
    destruct (copy_rows_spec f (back f') back step
      (fun h => exists b, h = set_back b g) (dirty f') g)
      as (f2 & E & (b & ->) & H2) end.
  - done.
  - lia.
  - lia.
  - eexists. by destruct f'.
  - intros h y [b ->] Hy. cbn. rewrite sf_pitch0. rewrite row_ok by (done || lia). obind.
    rewrite sub_chk_ok by lia. obind. eexists. split; [done|]. split; [by eexists|done].
  - unfold range in *. cbn [x0 y0 x1 y1] in *. rewrite E. obind. eexists. split; [done|].
    cbn. split_and!; try congruence; try done.
    intros x y Hv. specialize (H2 x y Hv). cbn in H2. rewrite H2. case_bool_decide as Hbx; [done|].
    change (pix f (present_buf f') x y = pix f (back f') x y). rewrite sf_present0, <- Hb by done.
    destruct (decide (pix f (back f') x y = pix f (back f) x y)) as [|Hc]; [done|].
    apply Hmk in Hc; [|done]. by destruct Hc.
Qed.

(** [present] copies the published rectangle to the scanout. *)
Lemma present_spec f :
  fb_wf f -> rect_wf f (ready_dirty f) -> any (ready_dirty f) = true ->
  backend f = Mmio -> frame_ready f = true ->
  exists b, present f = Ret (set_ready false clean (set_front b f)) /\
    forall x y, visible f x y ->
      pix f b x y = if bool_decide (in_rect (ready_dirty f) x y) then pix f (present_buf f) x y else pix f (front f) x y.
Proof.
  intros Hwf Hr Ha Hm Hrd. pose proof (Hr Ha) as Hrect. unfold present. rewrite Hrd, Hm. cbn [negb].
  unfold present_mmio. rewrite sub_chk_ok by lia. obind.
  match goal with |- exists _, (_ ← ofold ?step _ _; _) = _ /\ _ =>
    destruct (copy_rows_spec f (present_buf f) front step
      (fun h => exists b, h = set_front b f) (ready_dirty f) f)
      as (f2 & E & (b & ->) & H2) end.
  - done.
  - lia.
  - lia.
  - exists (front f). by destruct f.
  - intros h y [b ->] Hy. cbn. rewrite row_ok by (done || lia). obind.
    eexists. split; [done|]. split; [by eexists|]. intros j. cbn. apply fast_blit_row_spec. lia.
  - rewrite E. obind. eexists. split; [done|]. intros x y Hv. specialize (H2 x y Hv).
    cbn [front set_front] in H2. rewrite H2. rewrite (bool_decide_ext _ (in_rect (ready_dirty f) x y)); [done|].
    unfold box, in_rect. tauto.
Qed.

Lemma unmarked_same A f f' x y :
  paints A f f' -> visible f x y -> ~ in_rect (dirty f') x y -> pix f (back f') x y = pix f (back f) x y.
Proof.
  intros Hp Hv Hn. destruct (decide (pix f (back f') x y = pix f (back f) x y)) as [|Hc]; [done|].
  by apply (p_mark _ _ _ Hp) in Hc.
Qed.

(** A painted frame reaches the screen whole. *)
Definition flushed (f f' f2 : Fb) : Prop :=
  (commit f' ≫= present) = Ret f2 /\ synced f2 /\
  width f2 = width f /\ height f2 = height f /\ pitch_u32 f2 = pitch_u32 f /\ text_scale f2 = text_scale f /\
  forall x y, visible f x y -> pix f (front f2) x y = pix f (back f') x y.

(** It is enough that what the scanout does not show is marked. *)
Lemma flush_dirty A f f' :
  quiet f -> paints A f f' -> any (dirty f') = true ->
  (forall x y, visible f x y -> ~ in_rect (dirty f') x y -> pix f (front f) x y = pix f (present_buf f) x y) ->
  exists f2, flushed f f' f2.
Proof.
  intros Hs Hp Ha Hf. pose proof Hs as [Hwf Hm Hr Hd Hb]. unfold flushed.
  destruct (commit_spec A f f' Hs Hp Ha) as (f2 & -> & R2 & D2 & C2 & F2 & P2 & B2 & W & H & Pi & L & T & Bk).
  obind. assert (Hv2 : forall x y, visible f2 x y <-> visible f x y) by (intros; unfold visible; by rewrite W, H).
  assert (Hpx : forall b x y, pix f2 b x y = pix f b x y) by (intros; unfold pix; by rewrite Pi).
  assert (Hwf2 : fb_wf f2).
  { destruct Hwf. split; congruence. }
  destruct (present_spec f2) as (b & E & Hb2); [done| |congruence..|].
  { rewrite D2. pose proof (p_rect _ _ _ Hp). unfold rect_wf in *. by rewrite W, H. }
  assert (Hfront : forall x y, visible f x y -> pix f b x y = pix f (back f') x y).
  { intros x y Hv. rewrite <- (Hpx b), Hb2 by (by apply Hv2). rewrite !Hpx, P2, F2, D2.
    case_bool_decide as Hin; [done|]. rewrite Hf, <- Hb by done. by rewrite (unmarked_same A f f'). }
  eexists. split; [exact E|]. split; [|by split_and!].
  split; [split; try done|].
  - destruct Hwf2. by split.
  - intros x y Hv%Hv2. change (pix f2 (back f2) x y = pix f2 (present_buf f2) x y).
    rewrite !Hpx, Bk, P2 by done. done.
  - intros x y Hv%Hv2. change (pix f2 b x y = pix f2 (present_buf f2) x y).
    rewrite !Hpx, P2. by apply Hfront.
Qed.

Lemma flush_spec A f f' : synced f -> paints A f f' -> exists f2, flushed f f' f2.
Proof.
  intros Hs Hp. destruct (any (dirty f')) eqn:Ha; [eapply flush_dirty; [apply Hs|done..|intros; by apply Hs]|].
  pose proof Hs as [[Hwf Hm Hr Hd Hb] Hf]. pose proof (p_frame _ _ _ Hp) as Hsf.
  assert (Hr' : frame_ready f' = false) by (rewrite (sf_ready _ _ Hsf); done).
  assert (Hbk : forall x y, visible f x y -> pix f (back f') x y = pix f (back f) x y).
  { intros. apply (unmarked_same A f f'); [done..|]. intros [Hc _]. congruence. }
  exists f'. unfold flushed, commit. rewrite Ha, Hr'. cbn [negb andb]. obind. unfold present.
  rewrite Hr'. cbn [negb]. split; [done|]. pose proof Hsf as []. split; [|split_and!; try done].
  - split; [split|]; try congruence; [by apply (paints_wf A f f')|..]; intros x y Hv;
      apply (visible_same f f') in Hv; try done; rewrite !(pix_same f f') by done.
    + rewrite Hbk, Hb by done. congruence.
    + rewrite sf_front0, sf_present0. by apply Hf.
  - intros x y Hv. rewrite Hbk, sf_front0, Hf, Hb by done. done.
Qed.

(** The driver's initialisation leaves a cleared, settled screen. *)
Lemma fb_init_spec info mapped scanout :
  fi_type info = 1 -> fi_bpp info = 32 -> fi_pitch info mod 4 = 0 ->
  0 < fi_width info <= fi_pitch info / 4 -> 0 < fi_height info < 2 ^ 31 ->
  fi_pitch info * fi_height info < 2 ^ 32 -> fi_pitch info / 4 < 2 ^ 31 ->
  mapped (fi_addr info) (fi_pitch info * fi_height info) = Ok tt ->
  exists f, fb_init info mapped scanout = Ret (Ok f) /\ synced f /\
    width f = fi_width info /\ height f = fi_height info /\ text_scale f = scale_for (fi_width info) /\
    forall x y, visible f x y -> pix f (front f) x y = BG.
Proof.
  intros Ht Hb Hm Hw Hh Hs Hp Hmap. unfold fb_init. rewrite Ht, Hb, Hm.
  repeat (rewrite bool_decide_eq_false_2 by lia).
  pose proof (Z.div_mod (fi_pitch info) 4 ltac:(lia)) as Hdm.
  rewrite (mul_chk_ok 32 (fi_pitch info)) by nia. obind.
  rewrite Hmap, (mul_chk_ok 32 (fi_pitch info / 4)) by nia. obind.
  set (f0 := mkFb _ _ _ _ _ _ _ _ _ _ _ _ _).
  assert (Hq : quiet f0).
  { split; try done. split; cbn; try lia; try nia; [|done]. unfold scale_for. repeat case_bool_decide; lia. }
  unfold fb_clear.
  destruct (fill_rect_spec f0 0 0 (width f0) (height f0) BG) as (f1 & -> & Hp1 & Hc1);
    [apply Hq|cbn; lia..|]. obind.
  destruct (Hc1 0 0) as [_ [Ha _]]; [unfold visible, box; cbn; lia..|].
  destruct (flush_dirty _ f0 f1 Hq Hp1 Ha) as (f2 & E & Hs2 & W & H & Pi & T & Hfr).
  { intros x y Hv []. apply Hc1; [done|]. unfold visible, box in *. lia. }
  change (commit f1 ≫= present) with (f ← commit f1; present f) in E.
  destruct (commit f1) as [f1'|]; [|done]. revert E. obind. intros ->. obind.
  exists f2. split; [done|]. split_and!; try done. intros x y Hv.
  assert (visible f0 x y) by (unfold visible in *; congruence).
  unfold pix. rewrite Pi. change (pix f0 (front f2) x y = BG). rewrite Hfr by done.
  apply Hc1; [done|]. unfold visible, box in *. lia.
Qed.
