(* ===== verification/Console.v ===== *)
(** * drivers/console.rs: the text console

    The character grid of src/kernel/src/drivers/console.rs over the
    framebuffer driver: cursor motion, scrolling, and the flush after each
    write. *)

From S2P Require Import Prelude Str Font Fb.
From S2P Require Import FbCorrect.
Local Open Scope Z_scope.

Record Console := mkConsole {
  cols : Z; rows : Z; glyph_w : Z; glyph_h : Z; cx : Z; cy : Z; fg : Z; bg : Z
}.

Definition set_cursor (x y : Z) (c : Console) : Console :=
  mkConsole (cols c) (rows c) (glyph_w c) (glyph_h c) x y (fg c) (bg c).

(** Two text rows are left to the status bar. *)
Definition console_new (f : Fb) : outcome Console :=
  gw ← glyph_width f;
  gh ← glyph_height f;
  if bool_decide (gw = 0 \/ gh = 0) then Panic else
  Ret (mkConsole (width f / gw) (sat_sub (height f / gh) 2) gw gh 0 0 WHITE BG).

Definition newline (c : Console) (f : Fb) : outcome (Console * Fb) :=
  y ← cy c +! 1 @ 32;
  let c := set_cursor 0 y c in
  if bool_decide (rows c <= cy c) then
    max_y ← rows c *! glyph_h c @ 32;
    f ← scroll_up_bounded max_y (glyph_h c) (bg c) f;
    y ← rows c -! 1;
    Ret (set_cursor (cx c) y c, f)
  else Ret (c, f).

(** An ordinary character. *)
Definition put_glyph (ch : Z) (c : Console) (f : Fb) : outcome (Console * Fb) :=
  '(c, f) ← (if bool_decide (cols c <= cx c) then newline c f else Ret (c, f));
  x ← cx c *! glyph_w c @ 32;
  y ← cy c *! glyph_h c @ 32;
  f ← blit_char x y ch (fg c) (bg c) f;
  x' ← cx c +! 1 @ 32;
  Ret (set_cursor x' (cy c) c, f).

(** The tab loop: at most four spaces. *)
Fixpoint tab_loop (n : nat) (next : Z) (c : Console) (f : Fb) : outcome (Console * Fb) :=
  match n with
  | O => Ret (c, f)
  | S n' =>
      if bool_decide (cx c < next /\ cx c < cols c) then
        '(c, f) ← put_glyph 32 c f;
        tab_loop n' next c f
      else Ret (c, f)
  end.

Definition put_char (ch : Z) (c : Console) (f : Fb) : outcome (Console * Fb) :=
  if bool_decide (ch = 10) then newline c f
  else if bool_decide (ch = 13) then Ret (set_cursor 0 (cy c) c, f)
  else if bool_decide (ch = 8) then
    if bool_decide (0 < cx c) then
      let c := set_cursor (cx c - 1) (cy c) c in
      x ← cx c *! glyph_w c @ 32;
      y ← cy c *! glyph_h c @ 32;
      f ← fill_rect x y (glyph_w c) (glyph_h c) (bg c) f;
      Ret (c, f)
    else Ret (c, f)
  else if bool_decide (ch = 9) then
    next ← (cx c / 4 + 1) *! 4 @ 32;
    tab_loop 4 next c f
  else put_glyph ch c f.

Definition write_string (s : str) (c : Console) (f : Fb) : outcome (Console * Fb) :=
  ofold (fun cf ch => put_char ch cf.1 cf.2) (c, f) (chars s).

(** [commit] then [present] *)
Definition flush (f : Fb) : outcome Fb := f ← commit f; present f.

Definition console_write_str (s : str) (c : Console) (f : Fb) : outcome (Console * Fb) :=
  '(c, f) ← write_string s c f;
  f ← flush f;
  Ret (c, f).

Definition console_clear (c : Console) (f : Fb) : outcome (Console * Fb) :=
  f ← fb_clear (bg c) f;
  f ← flush f;
  Ret (set_cursor 0 0 c, f).

Definition set_colors (fg' bg' : Z) (c : Console) : Console :=
  mkConsole (cols c) (rows c) (glyph_w c) (glyph_h c) (cx c) (cy c) fg' bg'.

(** The text of the status bar, until the screen's edge. *)
Fixpoint status_text (gw text_y x : Z) (l : list Z) (f : Fb) : outcome Fb :=
  match l with
  | [] => Ret f
  | ch :: l' =>
      r ← x +! gw @ 32;
      if bool_decide (width f < r) then Ret f else
      f ← blit_char x text_y ch WHITE 0x282a36 f;
      x' ← x +! gw @ 32;
      status_text gw text_y x' l' f
  end.

Definition draw_status_bar (text : str) (c : Console) (f : Fb) : outcome Fb :=
  bar_y ← rows c *! glyph_h c @ 32;
  bar_h ← 2 *! glyph_h c @ 32;
  f ← fill_rect 0 bar_y (width f) bar_h 0x282a36 f;
  f ← fill_rect 0 bar_y (width f) 1 CYAN f;
  d ← bar_h -! glyph_h c;
  text_y ← bar_y +! d / 2 @ 32;
  f ← status_text (glyph_w c) text_y 8 (chars text) f;
  flush f.

(** * drivers/console.rs over drivers/fb.rs: what reaches the screen

    The console's cursor stays in its grid, no character makes it panic, the
    two rows of the status bar are never painted, and after each write the
    scanout shows the back buffer. *)


(** The grid that [console_new] lays over the screen, with the cursor in it. *)
Record con_ok (f : Fb) (c : Console) : Prop := {
  co_gw : glyph_w c = 8 * text_scale f;
  co_gh : glyph_h c = 16 * text_scale f;
  co_cols : 0 < cols c /\ cols c * glyph_w c <= width f;
  co_rows : 0 < rows c /\ (rows c + 2) * glyph_h c <= height f;
  co_cx : 0 <= cx c <= cols c;
  co_cy : 0 <= cy c < rows c;
}.

(** The pixels of the text rows. *)
Definition text_area (c : Console) (x y : Z) : Prop := 0 <= y < rows c * glyph_h c.

Definition same_grid (c c' : Console) : Prop :=
  cols c' = cols c /\ rows c' = rows c /\ glyph_w c' = glyph_w c /\ glyph_h c' = glyph_h c.

(** A step of the console: it paints text rows only and keeps the grid. *)
Definition con_step_to (Q : Console -> Prop) (f : Fb) (c : Console) (r : outcome (Console * Fb)) : Prop :=
  exists c' f', r = Ret (c', f') /\ con_ok f' c' /\ same_grid c c' /\ fb_wf f' /\
    paints (text_area c) f f' /\ Q c'.
Abbreviation con_step := (con_step_to (fun _ => True)).

Lemma con_ok_same f f' c : same_frame f f' -> con_ok f c -> con_ok f' c.
Proof. intros [] []. split; congruence. Qed.

Lemma con_step_bind P Q f c r (k : Console * Fb -> outcome (Console * Fb)) :
  con_step_to P f c r ->
  (forall c1 f1, con_ok f1 c1 -> fb_wf f1 -> P c1 -> con_step_to Q f1 c1 (k (c1, f1))) ->
  con_step_to Q f c (r ≫= k).
Proof.
  intros (c1 & f1 & -> & Hc & Hg & Hwf & Hp & HP) Hk.
  destruct (Hk c1 f1 Hc Hwf HP) as (c2 & f2 & E & Hc2 & Hg2 & Hwf2 & Hp2 & HQ). obind. exists c2, f2.
  assert (text_area c1 = text_area c) as Ht by (unfold text_area; by destruct Hg as (? & -> & ? & ->)).
  rewrite Ht in Hp2. unfold same_grid in *. split_and!; try done; try (destruct_and!; congruence).
  by eapply paints_trans.
Qed.

Lemma con_step_ret (Q : Console -> Prop) f c c' :
  fb_wf f -> con_ok f c' -> same_grid c c' -> Q c' -> con_step_to Q f c (Ret (c', f)).
Proof. intros Hwf Hc Hg HQ. exists c', f. split_and!; try done. by apply paints_refl. Qed.

(** A painting inside the text rows, then a cursor move. *)
Lemma con_step_paint (Q : Console -> Prop) A f f' c c' :
  fb_wf f -> paints A f f' -> (forall x y, visible f x y -> A x y -> text_area c x y) ->
  con_ok f c' -> same_grid c c' -> Q c' -> con_step_to Q f c (Ret (c', f')).
Proof.
  intros Hwf Hp HA Hc Hg HQ. exists c', f'.
  split_and!; try done; [by apply (con_ok_same f f'); [apply Hp|]|by apply (paints_wf A f f')|].
  by apply (paints_mono A).
Qed.

Lemma newline_spec f c : fb_wf f -> con_ok f c -> con_step_to (fun c' => cx c' = 0) f c (newline c f).
Proof.
  intros Hwf Hc. pose proof Hc as []. pose proof Hwf as []. unfold newline.
  rewrite add_chk_ok by nia. obind. cbn [set_cursor cols rows glyph_w glyph_h cx cy fg bg].
  case_bool_decide as Hr.
  - rewrite mul_chk_ok by nia. obind.
    assert (exists f', scroll_up_bounded (rows c * glyph_h c) (glyph_h c) (bg c) f = Ret f' /\
                       paints (text_area c) f f') as (f' & -> & Hp).
    { destruct (decide (glyph_h c < rows c * glyph_h c)).
      - destruct (scroll_spec f (rows c * glyph_h c) (glyph_h c) (bg c)) as (f' & -> & Hp & _); [done|nia..|].
        exists f'. split; [done|]. revert Hp. apply paints_mono. unfold text_area, box. lia.
      - exists f. unfold scroll_up_bounded. rewrite bool_decide_eq_true_2 by lia.
        split; [done|]. by apply paints_refl. }
    obind. rewrite sub_chk_ok by lia. obind.
    apply (con_step_paint _ (text_area c)); try done. split; cbn; lia.
  - apply con_step_ret; [done| |done..]. split; cbn; lia.
Qed.

Lemma put_glyph_spec ch f c : 0 <= ch -> fb_wf f -> con_ok f c -> con_step f c (put_glyph ch c f).
Proof.
  intros Hch Hwf Hc. unfold put_glyph.
  apply (con_step_bind (fun c1 => cx c1 < cols c1)).
  { case_bool_decide as Hx; [|apply con_step_ret; try done; lia].
    destruct (newline_spec f c Hwf Hc) as (c1 & f1 & -> & Hc1 & Hg & Hwf1 & Hp1 & Hx1).
    exists c1, f1. destruct Hc1. split_and!; try done; lia. }
  intros c1 f1 Hc1 Hwf1 Hx. pose proof Hc1 as []. pose proof Hwf1 as [].
  rewrite !mul_chk_ok by nia. obind.
  destruct (blit_char_spec f1 (cx c1 * glyph_w c1) (cy c1 * glyph_h c1) ch (fg c1) (bg c1))
    as (f2 & -> & Hp); [done|nia..|done|].
  obind. rewrite add_chk_ok by nia. obind.
  eapply con_step_paint; [done|exact Hp| | |done|done].
  - unfold text_area, box. intros x y _ [Hx' Hy']. rewrite <- co_gh0 in Hy'. nia.
  - split; cbn; lia.
Qed.

Lemma tab_loop_spec n next f c : fb_wf f -> con_ok f c -> con_step f c (tab_loop n next c f).
Proof.
  revert f c. induction n as [|n IH]; intros f c Hwf Hc; cbn [tab_loop]; [by apply con_step_ret|].
  case_bool_decide; [|by apply con_step_ret].
  apply (con_step_bind (fun _ => True)); [by apply put_glyph_spec|]. intros c1 f1 Hc1 Hwf1 _. by apply IH.
Qed.

Lemma put_char_spec ch f c : 0 <= ch -> fb_wf f -> con_ok f c -> con_step f c (put_char ch c f).
Proof.
  intros Hch Hwf Hc. pose proof Hc as []. pose proof Hwf as []. unfold put_char. repeat case_bool_decide.
  - destruct (newline_spec f c Hwf Hc) as (c1 & f1 & ? & ? & ? & ? & ? & _). by exists c1, f1.
  - apply con_step_ret; try done. split; cbn; lia.
  - cbn [set_cursor cols rows glyph_w glyph_h cx cy fg bg]. rewrite !mul_chk_ok by nia. obind.
    destruct (fill_rect_spec f ((cx c - 1) * glyph_w c) (cy c * glyph_h c) (glyph_w c) (glyph_h c) (bg c))
      as (f' & -> & Hp & _); [done|nia..|]. obind.
    eapply con_step_paint; [done|exact Hp| | |done|done].
    + unfold text_area, box. intros x y _ [_ Hy]. nia.
    + split; cbn; lia.
  - by apply con_step_ret.
  - rewrite mul_chk_ok by (pose proof (Z.div_mod (cx c) 4); pose proof (Z.mod_pos_bound (cx c) 4); nia).
    obind. by apply tab_loop_spec.
  - by apply put_glyph_spec.
Qed.

Lemma chars_nonneg s : bytes_ok s -> Forall (fun ch => 0 <= ch) (chars s).
Proof.
  remember (length s) as n eqn:Hn. revert s Hn. induction (lt_wf n) as [n _ IH]. intros s -> Hs.
  assert (Hm : forall a b, 0 < b -> 0 <= a mod b) by (intros; apply Z.mod_pos_bound; lia).
  destruct s as [|b r]; [constructor|]. apply Forall_cons in Hs as [Hb Hr].
  assert (HI : forall t k, r = k ++ t -> Forall (fun ch => 0 <= ch) (chars t)).
  { intros t k ->. eapply IH; [|done|by apply Forall_app in Hr as []]. cbn. rewrite length_app. lia. }
  cbn [chars]. repeat case_bool_decide.
  - constructor; [apply Hb|]. by apply (HI r []).
  - destruct r as [|c r1]; [constructor|]. constructor; [|by apply (HI r1 [c])].
    pose proof (Hm b 32). pose proof (Hm c 64). lia.
  - destruct r as [|c [|d r2]]; try constructor; [|by apply (HI r2 [c; d])].
    pose proof (Hm b 16). pose proof (Hm c 64). pose proof (Hm d 64). lia.
  - destruct r as [|c [|d [|e r3]]]; try constructor; [|by apply (HI r3 [c; d; e])].
    pose proof (Hm b 8). pose proof (Hm c 64). pose proof (Hm d 64). pose proof (Hm e 64). lia.
Qed.

Lemma write_string_spec s f c : bytes_ok s -> fb_wf f -> con_ok f c -> con_step f c (write_string s c f).
Proof.
  intros Hs%chars_nonneg. unfold write_string. revert f c.
  induction Hs as [|ch l Hch Hl IH]; intros f c Hwf Hc; cbn [ofold]; [by apply con_step_ret|].
  apply (con_step_bind (fun _ => True)); [by apply put_char_spec|]. intros c1 f1 Hc1 Hwf1 _. by apply IH.
Qed.

(** The grid of a screen with room for one line above the status bar. *)
Lemma console_new_spec f :
  fb_wf f -> 8 * text_scale f <= width f -> 48 * text_scale f <= height f ->
  exists c, console_new f = Ret c /\ con_ok f c /\ cx c = 0 /\ cy c = 0.
Proof.
  intros Hwf Hw Hh. pose proof Hwf as []. unfold console_new, glyph_width, glyph_height, CHAR_WIDTH, CHAR_HEIGHT.
  rewrite !mul_chk_ok by lia. obind. rewrite bool_decide_eq_false_2 by lia. eexists. split; [done|].
  assert (1 <= width f / (8 * text_scale f)) by (apply Z.div_le_lower_bound; lia).
  assert (3 <= height f / (16 * text_scale f)) by (apply Z.div_le_lower_bound; lia).
  pose proof (Z.mul_div_le (width f) (8 * text_scale f)).
  pose proof (Z.mul_div_le (height f) (16 * text_scale f)).
  unfold sat_sub. split_and!; [|done..]. split; cbn; lia.
Qed.

(** C23. Whatever UTF-8 text is written to the console, the write returns: no
    index, subtraction or multiplication of console.rs or fb.rs panics.  The
    cursor is still in the grid, the scanout shows on every visible pixel
    what the text painted into the back buffer, nothing is pending, and the
    status bar below the text rows shows what it showed before. *)
Theorem console_write_shows s f c :
  synced f -> con_ok f c -> bytes_ok s ->
  exists c' f' fp, console_write_str s c f = Ret (c', f') /\ write_string s c f = Ret (c', fp) /\
    synced f' /\ con_ok f' c' /\
    (forall x y, visible f x y -> pix f (front f') x y = pix f (back fp) x y) /\
    (forall x y, visible f x y -> rows c * glyph_h c <= y -> pix f (front f') x y = pix f (front f) x y).
Proof.
  intros Hs Hc Hb. pose proof (qu_wf _ (sy_quiet _ Hs)) as Hwf.
  destruct (write_string_spec s f c Hb Hwf Hc) as (c' & fp & E & Hc' & Hg & Hwfp & Hp & _).
  destruct (flush_spec _ f fp Hs Hp) as (f' & Ef & Hs' & W & H & Pi & T & Hfront).
  exists c', f', fp. unfold console_write_str, flush. rewrite E. obind.
  change (commit fp ≫= present) with (f ← commit fp; present f) in Ef. rewrite Ef. obind.
  pose proof (p_frame _ _ _ Hp) as Hsf. split_and!; try done.
  - destruct Hc', Hsf. split; congruence.
  - intros x y Hv Hy. rewrite Hfront by done.
    destruct (decide (pix f (back fp) x y = pix f (back f) x y)) as [->|Hch].
    + by rewrite (qu_back _ (sy_quiet _ Hs)), (sy_front _ Hs).
    + apply (p_in _ _ _ Hp) in Hch; [|done]. unfold text_area in Hch. lia.
Qed.

(** A cleared 640 by 480 screen, the cursor in the last cell. *)
Definition demo_fb : Fb :=
  mkFb (fun _ => BG) (fun _ => BG) (fun _ => BG) (640 * 480) 640 480 640 1 clean false clean Mmio None.
Definition demo_console : Console := mkConsole 80 28 8 16 79 27 WHITE BG.

Lemma demo_synced : synced demo_fb.
Proof. by repeat split. Qed.

Lemma console_write_shows_witness :
  exists c' f' fp, console_write_str (bstr "ok") demo_console demo_fb = Ret (c', f') /\
    write_string (bstr "ok") demo_console demo_fb = Ret (c', fp) /\
    synced f' /\ con_ok f' c' /\
    (forall x y, visible demo_fb x y -> pix demo_fb (front f') x y = pix demo_fb (back fp) x y) /\
    (forall x y, visible demo_fb x y -> 28 * 16 <= y -> pix demo_fb (front f') x y = pix demo_fb (front demo_fb) x y).
Proof.
  apply (console_write_shows (bstr "ok") demo_fb demo_console).
  - exact demo_synced.
  - split; cbn; lia.
  - by repeat constructor.
Defined.
