(* ===== verification/Fat32Dir.v ===== *)
(** * drivers/fat32.rs: directory entries

    What the directory parser of Fat32.v makes of a new entry: the short name
    comes back as the packed name, with its size and first cluster, and the
    entries before it stay. *)

From S2P Require Import Prelude Str Ramfs BlockDev Part Fat32.
Local Open Scope Z_scope.

(** ** Short names *)

(** A printing ASCII character. *)
Definition solid (b : Z) : Prop := 33 <= b < 127.

Lemma strip_solid b r :
  solid b -> strip_any white (b :: r) = None /\ strip_any (reverse <$> white) (b :: r) = None.
Proof.
  intros Hb. unfold solid in Hb. unfold strip_any, white. cbn -[bool_decide].
  repeat (rewrite bool_decide_eq_false_2 by lia). done.
Qed.
Lemma strip_space r :
  strip_any white (32 :: r) = Some r /\ strip_any (reverse <$> white) (32 :: r) = Some r.
Proof. by destruct r. Qed.

Lemma trim_spaces n s fuel :
  (n <= fuel)%nat -> Forall solid s ->
  trim_by (reverse <$> white) fuel (replicate n 32 ++ s) = s /\
  trim_by white fuel (replicate n 32 ++ s) = s.
Proof.
  intros Hn Hs. revert fuel Hn. induction n as [|n IH]; intros fuel Hn.
  - destruct Hs as [|b r Hb Hr]; destruct fuel; try done.
    cbn [replicate app trim_by]. destruct (strip_solid b r Hb) as [-> ->]. done.
  - destruct fuel; [lia|]. cbn [replicate app trim_by].
    destruct (strip_space (replicate n 32 ++ s)) as [-> ->]. apply IH. lia.
Qed.

Lemma trim_padded s n : Forall solid s -> trim (s ++ replicate n 32) = s.
Proof.
  intros Hs. unfold trim. assert (Hts : trim_start (s ++ replicate n 32) = s ++ replicate (if bool_decide (s = []) then 0 else n)%nat 32).
  { unfold trim_start. destruct Hs as [|b r Hb Hr].
    - rewrite bool_decide_eq_true_2 by done. cbn [app]. rewrite <- (app_nil_r (replicate n 32)) at 2.
      apply trim_spaces; [by rewrite length_replicate|constructor].
    - rewrite bool_decide_eq_false_2 by done. cbn [app length trim_by]. by destruct (strip_solid b (r ++ replicate n 32) Hb) as [-> _]. }
  rewrite Hts. generalize (if bool_decide (s = []) then 0 else n)%nat as m. intros m.
  unfold trim_end. rewrite reverse_app, reverse_replicate.
  destruct (trim_spaces m (reverse s) (length (s ++ replicate m 32))) as [-> _];
    [rewrite length_app, length_replicate; lia|by apply Forall_reverse|]. apply reverse_involutive.
Qed.

Lemma valid_short_solid b : is_valid_short_byte b = true -> solid b /\ b <> 46 /\ b <> 47 /\ to_lower b = to_lower (to_upper b).
Proof.
  unfold is_valid_short_byte, solid. rewrite !orb_true_iff, !bool_decide_eq_true. intros Hb.
  assert (33 <= b < 127 /\ b <> 46 /\ b <> 47 /\ ~ (97 <= b <= 122)) as (H1 & H2 & H3 & H4).
  { destruct Hb as [[Hb|Hb]|Hb]; [lia|lia|]. by repeat (apply elem_of_cons in Hb as [->|Hb]; [lia|]); apply elem_of_nil in Hb. }
  split_and!; try done; try lia. unfold to_upper. rewrite (bool_decide_eq_false_2 (97 <= b <= 122)) by done. done.
Qed.

Lemma find_char_split c s i : find_char c s = Some i -> s = take i s ++ c :: drop (S i) s.
Proof.
  revert i. induction s as [|d s IH]; intros i Hf; [done|]. cbn in Hf. case_bool_decide as Hd.
  - injection Hf as <-. by rewrite Hd.
  - destruct (find_char c s) as [j|] eqn:Ej; [|done]. injection Hf as <-. cbn. f_equal. by apply IH.
Qed.

Lemma to_lower_upper b : to_lower (to_upper b) = to_lower b.
Proof. unfold to_lower, to_upper. repeat case_bool_decide; lia. Qed.

(** What [pack_short_name] packs: a base and an extension, padded. *)
Lemma pack_spec name p :
  pack_short_name name = Ok p ->
  exists base ext, p = base ++ replicate (8 - length base) 32 ++ ext ++ replicate (3 - length ext) 32 /\
    base <> [] /\ (length base <= 8)%nat /\ (length ext <= 3)%nat /\
    forallb is_valid_short_byte base = true /\ forallb is_valid_short_byte ext = true /\
    (ext = [] /\ to_upper <$> name = base \/ to_upper <$> name = base ++ 46 :: ext).
Proof.
  unfold pack_short_name. set (u := to_upper <$> name).
  assert (Hs : exists base ext, (match find_char 46 u with Some i => (take i u, drop (S i) u) | None => (u, []) end) = (base, ext) /\
    (ext = [] /\ u = base \/ u = base ++ 46 :: ext)).
  { destruct (find_char 46 u) as [i|] eqn:Ef; [|by exists u, []; split; [|left]].
    exists (take i u), (drop (S i) u). split; [done|]. right. by apply find_char_split. }
  destruct Hs as (base & ext & -> & Hu). destruct (_ || _) eqn:Hlen; [done|].
  apply orb_false_iff in Hlen as [[H1 H2]%orb_false_iff H3]. apply bool_decide_eq_false in H1, H2, H3.
  destruct (_ && _) eqn:Hv; [|done]. apply andb_true_iff in Hv as [Hb He]. intros [= <-].
  exists base, ext. unfold lenZ in *. split_and!; try done; lia.
Qed.

Lemma valid_forall s : forallb is_valid_short_byte s = true -> Forall (fun b => is_valid_short_byte b = true) s.
Proof. rewrite Forall_forall, forallb_forall. intros Hs x Hx. apply Hs. by apply list_elem_of_In. Qed.

Lemma solid_utf8 s n : Forall solid s -> utf8_ok (s ++ replicate n 32) = true.
Proof.
  intros Hs. apply ascii_utf8. unfold ascii. apply forallb_forall. intros x Hx%list_elem_of_In.
  apply bool_decide_eq_true. apply elem_of_app in Hx as [Hx|Hx].
  - pose proof (proj1 (Forall_forall _ _) Hs x Hx) as Hsx. unfold solid in Hsx. lia.
  - apply elem_of_replicate in Hx as [-> _]. lia.
Qed.

(** The packed name reads back as the name in upper case. *)
Lemma short_name_pack name p x :
  pack_short_name name = Ok p -> last name <> Some 46 ->
  short_name (p ++ x) = to_upper <$> name /\ length p = 11%nat /\
  (exists b, head p = Some b /\ solid b /\ head (to_upper <$> name) = Some b /\ b <> 46) /\ Forall (fun b => 0 <= b < 128) p /\ (47 ∉ name) /\ name <> [].
Proof.
  intros (base & ext & -> & Hne & Hb & He & Vb & Ve & Hu)%pack_spec Hlast.
  assert (Sb : Forall solid base) by (eapply Forall_impl; [by apply valid_forall|]; intros; by apply valid_short_solid).
  assert (Se : Forall solid ext) by (eapply Forall_impl; [by apply valid_forall|]; intros; by apply valid_short_solid).
  split_and!.
  - unfold short_name. rewrite (app_assoc base), <- (app_assoc _ _ x).
    rewrite take_app_length', drop_app_length' by (rewrite length_app, length_replicate; lia).
    rewrite take_app_length' by (rewrite length_app, length_replicate; lia).
    unfold from_utf8. rewrite !solid_utf8 by done. cbn [from_option id]. rewrite !trim_padded by done.
    destruct Hu as [[-> Hu]|Hu]; [by rewrite bool_decide_eq_true_2|].
    rewrite bool_decide_eq_false_2; [done|]. intros ->.
    apply Hlast. apply (f_equal last) in Hu. rewrite last_snoc, fmap_last in Hu.
    destruct (last name) as [c|]; [|done]. cbn in Hu. injection Hu. unfold to_upper. case_bool_decide; intros; f_equal; lia.
  - rewrite !length_app, !length_replicate. lia.
  - destruct base as [|b r]; [done|]. exists b. apply Forall_cons in Sb as [Hb0 _]. cbn in Vb.
    apply andb_true_iff in Vb as [Vb%valid_short_solid _]. split_and!; [done..| |tauto].
    by destruct Hu as [[_ ->]| ->].
  - assert (forall s, Forall solid s -> Forall (fun b => 0 <= b < 128) s) as Hs.
    { intros s Hs. eapply Forall_impl; [exact Hs|]. unfold solid. intros; lia. }
    rewrite !Forall_app. split_and!; auto; apply Forall_replicate; lia.
  - intros Hin. apply (list_elem_of_fmap_2 to_upper) in Hin. change (to_upper 47) with 47 in Hin.
    assert (Hn : forall s, forallb is_valid_short_byte s = true -> 47 ∉ s).
    { intros s Hs Hx. apply (proj1 (Forall_forall _ _) (valid_forall _ Hs)) in Hx.
      apply valid_short_solid in Hx as (_ & _ & Hx & _). done. }
    destruct Hu as [[_ Hu]|Hu]; rewrite Hu in Hin; [by apply (Hn base Vb)|].
    apply elem_of_app in Hin as [Hin|[Hin|Hin]%elem_of_cons]; [by apply (Hn base Vb)|done|by apply (Hn ext Ve)].
  - intros ->. destruct Hu as [[_ Hu]|Hu]; [by rewrite <- Hu in Hne|]. by destruct base.
Qed.

(** ** Entries *)

Lemma halves_join x : fits 32 x ->
  Z.lor (Z.shiftl (Z.land (Z.shiftr x 16) 0xFFFF) 16) (Z.land x 0xFFFF) = x.
Proof.
  intros Hx. unfold fits in Hx. apply Z.bits_inj'. intros n Hn. change 0xFFFF with (Z.ones 16).
  rewrite Z.lor_spec, Z.shiftl_spec, !Z.land_spec, (Z.testbit_ones_nonneg 16 n) by lia.
  destruct (decide (n < 16)) as [Hlt|Hge].
  - rewrite (Z.testbit_neg_r _ (n - 16)) by lia. rewrite (proj2 (Z.ltb_lt n 16)) by lia. by rewrite andb_true_r.
  - rewrite (proj2 (Z.ltb_ge n 16)), andb_false_r, orb_false_r by lia. rewrite Z.shiftr_spec by lia.
    replace (n - 16 + 16) with n by lia. rewrite Z.testbit_ones_nonneg by lia. destruct (decide (n < 32)).
    + rewrite (proj2 (Z.ltb_lt (n - 16) 16)) by lia. by rewrite andb_true_r.
    + rewrite (proj2 (Z.ltb_ge (n - 16) 16)) by lia. rewrite andb_false_r. symmetry.
      apply Z.bits_above_log2; [lia|]. destruct (decide (x = 0)) as [->|]; [cbn; lia|].
      apply Z.log2_lt_pow2; [lia|]. apply Z.lt_le_trans with (2 ^ 32); [lia|]. apply Z.pow_le_mono_r; lia.
Qed.

Lemma land_16_fits x : fits 16 (Z.land x 0xFFFF).
Proof. change 0xFFFF with (Z.ones 16). rewrite Z.land_ones by lia. apply Z.mod_pos_bound. lia. Qed.

(** The entry of a packed name, parsed. *)
Lemma dir_step_new name p first size es :
  pack_short_name name = Ok p -> last name <> Some 46 -> fits 32 first -> fits 32 size ->
  length (new_entry p first size) = 32%nat /\ bytes_ok (new_entry p first size) /\
  dir_step (new_entry p first size) [] es =
    Some ([], es ++ [mkDirEntry (to_upper <$> name) false size first]).
Proof.
  intros Hp Hlast Hf Hs. unfold new_entry.
  destruct (short_name_pack name p ([0x20] ++ replicate 8 0 ++ le_bytes 2 (Z.land (Z.shiftr first 16) 0xFFFF) ++
    replicate 4 0 ++ le_bytes 2 (Z.land first 0xFFFF) ++ le_bytes 4 size) Hp Hlast) as (Hn & Hl & (b & Hb & Sb & Hub & Nb) & Ha & _).
  split_and!.
  - rewrite !length_app, !length_le_bytes, !length_replicate, Hl. done.
  - apply bytes_ok_app. split; [eapply Forall_impl; [exact Ha|]; unfold byte_ok; intros; lia|].
    repeat (apply bytes_ok_app; split); try apply le_bytes_ok; apply Forall_forall; intros x Hx;
      [apply list_elem_of_singleton in Hx|apply elem_of_replicate in Hx as [Hx _]..]; subst; unfold byte_ok; lia.
  - destruct p as [|p0 [|p1 [|p2 [|p3 [|p4 [|p5 [|p6 [|p7 [|p8 [|p9 [|p10 [|]]]]]]]]]]]]; try done.
    injection Hb as ->. set (e := _ ++ _) in *. unfold solid in Sb. unfold dir_step.
    change (at_ e 0) with b. change (at_ e 11) with 0x20.
    change (u16e e 20) with (of_le (le_bytes 2 (Z.land (Z.shiftr first 16) 0xFFFF))).
    change (u16e e 26) with (of_le (le_bytes 2 (Z.land first 0xFFFF))).
    change (u32e e 28) with (of_le (le_bytes 4 size)).
    rewrite !of_le_bytes_id by (try exact Hs; apply land_16_fits). rewrite halves_join, Hn by done.
    rewrite bool_decide_eq_false_2 by lia. rewrite bool_decide_eq_false_2 by lia.
    rewrite (bool_decide_eq_false_2 ([] <> [])) by tauto.
    rewrite (bool_decide_eq_false_2 (_ = [46] \/ _)); [done|].
    by intros [Hd|Hd]; rewrite Hd in Hub; injection Hub.
Qed.

(** ** Directories *)

(** The parser's state after some entries: [None] once the directory ended. *)
Fixpoint dir_scan (slots : list (list Z)) (lfn : list (Z * str)) (es : list DirEntry) :
    option (list (Z * str) * list DirEntry) :=
  match slots with
  | [] => Some (lfn, es)
  | s :: slots' =>
      match dir_step s lfn es with
      | Some (lfn', es') => dir_scan slots' lfn' es'
      | None => None
      end
  end.

Definition slots_32 (slots : list (list Z)) : Prop := Forall (fun s => length s = 32%nat) slots.

Lemma dir_loop_scan slots fuel rest lfn es lfn' es' :
  slots_32 slots -> (length slots <= fuel)%nat -> dir_scan slots lfn es = Some (lfn', es') ->
  dir_loop fuel (concat slots ++ rest) lfn es = dir_loop (fuel - length slots) rest lfn' es'.
Proof.
  intros Hs. revert fuel lfn es. induction Hs as [|s slots Hs Hss IH]; intros fuel lfn es Hf Hd.
  - injection Hd as -> ->. cbn. by rewrite Nat.sub_0_r.
  - destruct fuel as [|fuel]; [cbn in Hf; lia|]. cbn in Hd. cbn [dir_loop concat length].
    rewrite bool_decide_eq_true_2 by (unfold lenZ; rewrite !length_app; lia).
    rewrite <- app_assoc, take_app_length', drop_app_length' by done.
    destruct (dir_step s lfn es) as [[l1 e1]|]; [|done]. apply IH; [cbn in Hf; lia|done].
Qed.

Lemma dir_step_grows s lfn es lfn' es' :
  dir_step s lfn es = Some (lfn', es') -> exists more, es' = es ++ more.
Proof.
  unfold dir_step. intros Hd. repeat case_bool_decide; try done; injection Hd as <- <-;
    solve [by exists [] ; rewrite app_nil_r | by eexists].
Qed.
Lemma dir_loop_grows fuel raw lfn es : exists more, dir_loop fuel raw lfn es = es ++ more.
Proof.
  revert raw lfn es. induction fuel as [|fuel IH]; intros raw lfn es; cbn [dir_loop].
  { exists []. by rewrite app_nil_r. }
  case_bool_decide; [|exists []; by rewrite app_nil_r].
  destruct (dir_step (take 32 raw) lfn es) as [[l1 e1]|] eqn:E; [|exists []; by rewrite app_nil_r].
  apply dir_step_grows in E as [m1 ->]. destruct (IH (drop 32 raw) l1 (es ++ m1)) as [m2 ->].
  exists (m1 ++ m2). by rewrite app_assoc.
Qed.

(** An entry after the entries that parse to [es] is the next one found. *)
Lemma parse_dir_new slots e rest es d :
  slots_32 slots -> dir_scan slots [] [] = Some ([], es) -> length e = 32%nat ->
  dir_step e [] es = Some ([], es ++ [d]) ->
  exists more, parse_dir_entries (concat slots ++ e ++ rest) = es ++ d :: more.
Proof.
  intros Hs Hd He Hn. unfold parse_dir_entries.
  assert (Hc : length (concat slots) = (32 * length slots)%nat).
  { clear Hd. induction Hs as [|s slots H1 H2 IH]; [done|]. cbn. rewrite length_app, IH, H1. lia. }
  rewrite (dir_loop_scan slots _ _ _ _ [] es) by (try done; rewrite !length_app; lia).
  rewrite !length_app. destruct (_ - _)%nat as [|f] eqn:Ef; [lia|]. cbn [dir_loop].
  rewrite bool_decide_eq_true_2 by (unfold lenZ; rewrite !length_app; lia).
  rewrite take_app_length', drop_app_length', Hn by done.
  destruct (dir_loop_grows f rest [] (es ++ [d])) as [more ->]. exists more. by rewrite <- app_assoc.
Qed.

Lemma list_find_new (P : DirEntry -> Prop) `{forall e, Decision (P e)} es d more :
  Forall (fun e => ~ P e) es -> P d -> list_find P (es ++ d :: more) = Some (length es, d).
Proof.
  intros He Hd. induction He as [|e es He Hes IH]; cbn.
  - by rewrite decide_True.
  - rewrite decide_False by done. by rewrite IH.
Qed.

(** ** Slots *)

Lemma slots_of_spec buf m :
  length buf = (32 * m)%nat -> length (slots_of buf) = m /\ slots_32 (slots_of buf) /\ concat (slots_of buf) = buf.
Proof.
  intros Hl. unfold slots_of. rewrite Hl, Nat.mul_comm, Nat.div_mul by lia.
  rewrite length_reshape, length_replicate. split; [done|]. revert buf Hl. induction m as [|m IH]; intros buf Hl.
  - destruct buf; [|done]. split; [constructor|done].
  - cbn [replicate reshape concat]. destruct (IH (drop 32 buf)) as [H1 H2]; [rewrite length_drop; lia|].
    split; [constructor; [rewrite length_take; lia|done]|]. by rewrite H2, take_drop.
Qed.

Lemma choose_slot_range name slots off ch o b :
  choose_slot name slots off ch = Some (o, b) ->
  ch = Some (o, b) \/ exists k, (k < length slots)%nat /\ o = off + 32 * Z.of_nat k.
Proof.
  revert off ch. induction slots as [|s slots IH]; intros off ch Hc; cbn [choose_slot] in Hc; [by left|].
  repeat case_bool_decide; try (injection Hc as <- <-; right; exists 0%nat; cbn; lia).
  all: apply IH in Hc as [Hc|(k & Hk & Ho)]; [|right; exists (S k); cbn; lia].
  - by left.
  - destruct ch; [by left|]. injection Hc as <- <-. right. exists 0%nat. cbn. lia.
  - by left.
Qed.

Lemma take_slots buf m k :
  length buf = (32 * m)%nat -> (k <= m)%nat -> take (32 * k) buf = concat (take k (slots_of buf)).
Proof.
  intros Hl Hk. destruct (slots_of_spec buf m Hl) as (Hn & Hs & Hc).
  rewrite <- Hc at 1. clear Hc. assert (Hk' : (k <= length (slots_of buf))%nat) by lia. clear Hn Hk Hl.
  revert k Hk'. induction Hs as [|s slots Hs Hss IH]; intros k Hk'.
  - cbn [concat]. by rewrite !take_nil.
  - destruct k as [|k]; [done|].
    change (concat (take (S k) (s :: slots))) with (s ++ concat (take k slots)). cbn [concat].
    rewrite take_app_ge by lia. rewrite <- IH by (cbn in Hk'; lia). do 2 f_equal. lia.
Qed.
