(* ===== verification/Fat32Correct.v ===== *)
(** * drivers/fat32.rs: a file that is written is read back

    The write path of Fat32.v over a disk that answers: which FAT entries and
    which clusters each operation changes, that the allocator hands out the
    free clusters in order, that a chain is read back as its clusters, and
    that a created file is found in the root directory with its bytes. *)

From S2P Require Import Prelude Steps Str Ramfs BlockDev Part Fat32 Fat32Dir.
Local Open Scope Z_scope.

(** ** Words in a sector *)

Definition word_at (l : list Z) (off : Z) : Z := of_le (take 4 (drop (Z.to_nat off) l)).

Lemma u32_at_word l off : 0 <= off -> off + 4 <= lenZ l -> u32_at l off = Ret (word_at l off).
Proof.
  intros Ho Hl. unfold u32_at, word_at. unfold lenZ in Hl.
  assert (Hx : forall k, 0 <= k < 4 -> exists x, idx l (off + k) = Ret x /\ drop (Z.to_nat off) l !! Z.to_nat k = Some x).
  { intros k Hk. destruct (idx_in_range l (off + k)) as [x Hx]; [unfold lenZ; lia|]. exists x. split; [done|].
    apply idx_Ret in Hx as [_ Hx]. rewrite lookup_drop. rewrite <- Hx. f_equal. lia. }
  destruct (Hx 0) as (a & Ha & La); [lia|]. destruct (Hx 1) as (b & Hb & Lb); [lia|].
  destruct (Hx 2) as (c & Hc & Lc); [lia|]. destruct (Hx 3) as (e & He & Le); [lia|].
  change (Z.to_nat 0) with 0%nat in La. change (Z.to_nat 1) with 1%nat in Lb.
  change (Z.to_nat 2) with 2%nat in Lc. change (Z.to_nat 3) with 3%nat in Le.
  rewrite Z.add_0_r in Ha. rewrite Ha, Hb, Hc, He. obind. do 2 f_equal.
  destruct (drop (Z.to_nat off) l) as [|x0 [|x1 [|x2 [|x3 r]]]]; try done.
  injection La as <-. injection Lb as <-. injection Lc as <-. by injection Le as <-.
Qed.

Lemma word_splice_eq l off v :
  0 <= off -> off + 4 <= lenZ l -> fits 32 v ->
  word_at (take (Z.to_nat off) l ++ le_bytes 4 v ++ drop (Z.to_nat (off + 4)) l) off = v.
Proof.
  intros Ho Hl Hv. unfold word_at. unfold lenZ in Hl. rewrite drop_app_length' by (rewrite length_take; lia).
  rewrite take_app_length' by (by rewrite length_le_bytes). by apply of_le_bytes_id.
Qed.

Lemma word_splice_ne l off off' v :
  0 <= off -> off + 4 <= lenZ l -> 0 <= off' -> off' + 4 <= off \/ off + 4 <= off' ->
  word_at (take (Z.to_nat off) l ++ le_bytes 4 v ++ drop (Z.to_nat (off + 4)) l) off' = word_at l off'.
Proof.
  intros Ho Hl Ho' Hd. unfold word_at. unfold lenZ in Hl. f_equal. apply list_eq. intros i.
  destruct (decide (i < 4)%nat) as [Hi|Hi]; [|rewrite !lookup_take_ge by lia; done].
  rewrite !lookup_take_lt, !lookup_drop by lia. destruct Hd as [Hd|Hd].
  - rewrite lookup_app_l by (rewrite length_take; lia). rewrite lookup_take_lt by lia. done.
  - rewrite lookup_app_r by (rewrite length_take; lia). rewrite lookup_app_r by (rewrite length_take, length_le_bytes; lia).
    rewrite length_take, length_le_bytes, lookup_drop. f_equal. lia.
Qed.

(** ** Filters *)

Lemma filter_ext_in {A} (P Q : A -> Prop) `{forall x, Decision (P x)} `{forall x, Decision (Q x)} (l : list A) :
  (forall x, x ∈ l -> Q x <-> P x) -> filter Q l = filter P l.
Proof.
  induction l as [|x l IH]; intros Hx; [done|]. rewrite !filter_cons.
  assert (Hl : filter Q l = filter P l) by (apply IH; intros; apply Hx; by constructor).
  pose proof (Hx x (list_elem_of_here x l)). repeat case_decide; try tauto; by rewrite Hl.
Qed.

(** The head of a filtered list, excluded. *)
Lemma filter_minus {A} (P Q : A -> Prop) `{forall x, Decision (P x)} `{forall x, Decision (Q x)} (l rest : list A) c :
  NoDup l -> filter P l = c :: rest -> (forall x, x ∈ l -> Q x <-> P x /\ x <> c) -> filter Q l = rest.
Proof.
  induction 1 as [|x l Hx Hl IH]; intros Hf HQ; [done|].
  pose proof (HQ x (list_elem_of_here x l)) as HQx. rewrite filter_cons in Hf. case_decide as HP.
  - injection Hf as -> <-. rewrite filter_cons_False by tauto. apply filter_ext_in. intros y Hy.
    rewrite HQ by (by constructor). split; [tauto|]. intros. split; [done|]. by intros ->.
  - rewrite filter_cons_False by tauto. apply IH; [done|]. intros y Hy. apply HQ. by constructor.
Qed.

Lemma elem_of_take_l {A} (x : A) n l : x ∈ take n l -> x ∈ l.
Proof. intros Hx. rewrite <- (take_drop n l). apply elem_of_app. by left. Qed.

Section volume.
Context {D : Type} `{BlockDevLaws D} (fs : Fat32).
Let spc : Z := sectors_per_cluster (bpb fs).
Let nf : Z := num_fats (bpb fs).
Let spf : Z := sectors_per_fat (bpb fs).

(** ** Geometry *)

(** The FAT copies, then the clusters: every FAT entry has its cluster within
    what LBA28 can address. *)
Record geometry : Prop := {
  ge_spc : 1 <= spc < 256;
  ge_nf : 1 <= nf < 256;
  ge_spf : 1 <= spf;
  ge_fat : 0 <= fat_start_lba fs;
  ge_data : fat_start_lba fs + nf * spf <= data_start_lba fs;
  ge_end : data_start_lba fs + (spf * 128 - 2) * spc <= 2 ^ 28;
}.
Hypothesis (Hg : geometry).

Definition valid (c : Z) : Prop := 2 <= c < spf * 128.
Definition clus_lba (c : Z) : Z := data_start_lba fs + (c - 2) * spc.

(** What an image of the disk says: the entry of a cluster in the first FAT,
    and a cluster's bytes. *)
Definition img (d : D) : Z -> list Z := bd_disk d (disk_idx fs).
Definition fatv (g : Z -> list Z) (c : Z) : Z :=
  Z.land (word_at (g (fat_start_lba fs + c * 4 / 512)) (c * 4 mod 512)) 0x0FFFFFFF.
Definition cdata (g : Z -> list Z) (c : Z) : list Z := sectors_of g (clus_lba c) (Z.to_nat spc).
Definition ready (d : D) : Prop := bd_ready d (disk_idx fs).
Definition same (d d' : D) : Prop := ready d' /\ forall l, img d' l = img d l.

Lemma sectors_of_ext g g' lba n :
  (forall l, lba <= l < lba + Z.of_nat n -> g' l = g l) -> sectors_of g' lba n = sectors_of g lba n.
Proof.
  intros Hext. unfold sectors_of. f_equal. apply list_fmap_ext. intros i k Hk.
  apply lookup_seqZ in Hk as [-> Hk]. apply Hext. lia.
Qed.
Lemma fatv_same d d' c : same d d' -> fatv (img d') c = fatv (img d) c.
Proof. intros [_ Hs]. unfold fatv. by rewrite Hs. Qed.
Lemma cdata_same d d' c : same d d' -> cdata (img d') c = cdata (img d) c.
Proof. intros [_ Hs]. apply sectors_of_ext. intros. apply Hs. Qed.
Lemma same_refl d : ready d -> same d d.
Proof. by split. Qed.
Lemma same_trans d1 d2 d3 : same d1 d2 -> same d2 d3 -> same d1 d3.
Proof. intros [_ S1] [R2 S2]. split; [done|]. intros l. by rewrite S2. Qed.

(** One sector. *)
Lemma read_sector_into d l buf :
  ready d -> 0 <= l < 2 ^ 28 -> lenZ buf = 512 ->
  runs (bd_read (disk_idx fs) l 1 buf) d (fun d' b => b = img d l /\ same d d').
Proof.
  intros Hr Hl Hb. destruct (bd_read_ok d (disk_idx fs) l 1 buf) as (d' & E & Hd & Hr');
    [done|unfold lba_range; lia|lia|].
  exists d'. eexists. split; [exact E|]. split; [|split; [by apply Hr'|intros; apply Hd]].
  unfold sectors_of. change (seqZ 0 (Z.of_nat (Z.to_nat 1))) with [0].
  cbn [fmap list_fmap concat]. rewrite app_nil_r, Z.add_0_r, drop_ge by (unfold lenZ in Hb; lia).
  by rewrite app_nil_r.
Qed.
Lemma read_sector_runs d l :
  ready d -> 0 <= l < 2 ^ 28 ->
  runs (bd_read (disk_idx fs) l 1 (replicate 512 0)) d (fun d' b => b = img d l /\ same d d').
Proof. intros Hr Hl. by apply read_sector_into. Qed.
Lemma write_sector_runs d l buf :
  ready d -> 0 <= l < 2 ^ 28 -> lenZ buf = 512 -> bytes_ok buf ->
  runs (bd_write (disk_idx fs) l 1 buf) d (fun d' _ =>
    ready d' /\ forall l', img d' l' = if bool_decide (l' = l) then buf else img d l').
Proof.
  intros Hr Hl Hb Hok. destruct (bd_write_ok d (disk_idx fs) l 1 buf) as (d' & E & Hd & Hr');
    [done|unfold lba_range; lia|lia|done|].
  exists d', tt. split; [exact E|]. split; [by apply Hr'|]. intros l'. unfold img. rewrite Hd.
  rewrite (bool_decide_ext _ (l' = l)) by lia. case_bool_decide as E'; [|done]. subst l'.
  replace (Z.to_nat _) with 0%nat by lia. rewrite drop_0. apply take_ge. unfold lenZ in Hb. lia.
Qed.
Lemma img_sector d l : ready d -> lenZ (img d l) = 512 /\ bytes_ok (img d l).
Proof. apply bd_sector_ok. Qed.

Lemma entry_pos c : 0 <= c < spf * 128 ->
  0 <= c * 4 / 512 < spf /\ 0 <= c * 4 mod 512 /\ c * 4 mod 512 + 4 <= 512 /\ fat_pos c = Ret (c * 4 / 512, c * 4 mod 512).
Proof.
  intros Hc. destruct Hg. pose proof (Z.div_mod (c * 4) 512 ltac:(lia)) as Hd.
  pose proof (Z.mod_pos_bound (c * 4) 512 ltac:(lia)).
  assert (c * 4 mod 512 = 4 * (c mod 128)) as Hm.
  { change 512 with (4 * 128). rewrite (Z.mul_comm c). by rewrite Zmult_mod_distr_l. }
  pose proof (Z.mod_pos_bound c 128 ltac:(lia)). split_and!; try lia.
  unfold fat_pos. rewrite mul_chk_ok by nia. done.
Qed.

(** ** Following the chain *)

(** The successor that an entry names. *)
Definition decode (v : Z) : option Z :=
  if bool_decide (0x0FFFFFF8 <= v) then None else if bool_decide (v = 0 \/ v = 1) then None else Some v.

Lemma next_cluster_runs {E} d c :
  ready d -> 0 <= c < spf * 128 ->
  runs (next_cluster fs c : M D E _) d (fun d' r => r = decode (fatv (img d) c) /\ same d d').
Proof.
  intros Hr Hc. destruct (entry_pos c Hc) as (H1 & H2 & H3 & Hp). destruct Hg. unfold next_cluster.
  apply runs_bind. eapply runs_lift; [exact Hp|].
  apply runs_bind. eapply runs_lift; [apply add_chk_ok; nia|].
  destruct (read_sector_runs d (fat_start_lba fs + c * 4 / 512)) as (d' & b & Eb & -> & Hs); [done|nia|].
  apply runs_bind. exists d'. eexists. split; [unfold try_; by rewrite Eb|].
  apply runs_bind. eapply runs_lift; [apply u32_at_word; [done|destruct (img_sector d (fat_start_lba fs + c * 4 / 512) Hr); lia]|].
  apply runs_ok. split; [done|done].
Qed.

(** ** Changing an entry *)

Definition MASK : Z := 0x0FFFFFFF.

Lemma word_fits l off : bytes_ok l -> fits 32 (word_at l off).
Proof.
  intros Hok. unfold word_at. assert (Hb : bytes_ok (take 4 (drop (Z.to_nat off) l))) by (by apply Forall_take, Forall_drop).
  pose proof (of_le_range _ Hb) as Hr. unfold lenZ in Hr. rewrite length_take in Hr.
  assert (256 ^ Z.of_nat (4 `min` length (drop (Z.to_nat off) l)) <= 256 ^ 4) by (apply Z.pow_le_mono_r; lia).
  unfold fits. change (2 ^ 32) with (256 ^ 4). lia.
Qed.

Lemma land_le_r a b : 0 <= a -> 0 <= b -> 0 <= Z.land a b <= b.
Proof.
  intros Ha Hb. split; [apply Z.land_nonneg; lia|]. pose proof (Z.add_lor_land a b). pose proof (Z.ldiff_land b a).
  assert (E : b = Z.land a b + Z.ldiff b a).
  { rewrite Z.add_nocarry_lor.
    - apply Z.bits_inj'. intros n Hn. rewrite Z.lor_spec, Z.land_spec, Z.ldiff_spec.
      by destruct (Z.testbit a n), (Z.testbit b n).
    - apply Z.bits_inj'. intros n Hn. rewrite Z.land_spec, Z.land_spec, Z.ldiff_spec, Z.bits_0.
      by destruct (Z.testbit a n), (Z.testbit b n). }
  assert (0 <= Z.ldiff b a) by (apply Z.ldiff_nonneg; lia). lia.
Qed.

Lemma merged_entry prev v :
  fits 32 prev -> 0 <= v ->
  let n := Z.lor (Z.land prev 0xF0000000) (Z.land v MASK) in fits 32 n /\ Z.land n MASK = Z.land v MASK.
Proof.
  intros [Hp _] Hv n. split.
  - pose proof (land_le_r prev 0xF0000000 Hp ltac:(lia)). pose proof (land_le_r v MASK Hv ltac:(unfold MASK; lia)).
    pose proof (Z.add_lor_land (Z.land prev 0xF0000000) (Z.land v MASK)) as E.
    assert (0 <= Z.land (Z.land prev 0xF0000000) (Z.land v MASK)) by (apply Z.land_nonneg; lia).
    assert (0 <= n) by (apply Z.lor_nonneg; lia). unfold fits, n, MASK in *. lia.
  - unfold n. rewrite Z.land_lor_distr_l, <- !Z.land_assoc, Z.land_diag.
    replace (Z.land 0xF0000000 MASK) with 0 by reflexivity. by rewrite Z.land_0_r.
Qed.

(** The image after the entry of [c] was set in the first [k] copies. *)
Definition entry_set (c v k : Z) (d d' : D) : Prop :=
  ready d' /\
  (forall c', 0 <= c' < spf * 128 ->
     fatv (img d') c' = if bool_decide (c' = c /\ 0 < k) then Z.land v MASK else fatv (img d) c') /\
  (forall l, ~ (fat_start_lba fs <= l < fat_start_lba fs + nf * spf) -> img d' l = img d l).

(** The rewritten sector: the word at [off] is set, the others stay. *)
Lemma entry_sector buf off v :
  lenZ buf = 512 -> bytes_ok buf -> 0 <= off -> off + 4 <= 512 -> 0 <= v ->
  exists buf', splice buf off (le_bytes 4 (Z.lor (Z.land (word_at buf off) 0xF0000000) (Z.land v MASK))) = Ret buf' /\
    lenZ buf' = 512 /\ bytes_ok buf' /\ Z.land (word_at buf' off) MASK = Z.land v MASK /\
    forall off', 0 <= off' -> off' + 4 <= off \/ off + 4 <= off' -> word_at buf' off' = word_at buf off'.
Proof.
  intros Hl Hok Ho Ho4 Hv. destruct (merged_entry (word_at buf off) v (word_fits _ _ Hok) Hv) as [Hf Hm].
  set (n := Z.lor _ _) in *. rewrite splice_ok by (rewrite ?lenZ_le_bytes; lia). rewrite lenZ_le_bytes.
  change (Z.of_nat 4) with 4. eexists. split; [done|]. split_and!.
  - rewrite !lenZ_app, lenZ_le_bytes. unfold lenZ in *. rewrite length_take, length_drop. lia.
  - apply bytes_ok_app. split; [by apply Forall_take|]. apply bytes_ok_app.
    split; [apply le_bytes_ok|by apply Forall_drop].
  - rewrite word_splice_eq by (done || lia). done.
  - intros off' H1 H2. apply word_splice_ne; lia.
Qed.

Lemma set_copy_runs c v d d1 k :
  0 <= c < spf * 128 -> 0 <= v -> 0 <= k < nf -> entry_set c v k d d1 ->
  runs (lba ← mlift (x ← k *! spf @ 32; y ← fat_start_lba fs +! x @ 32; y +! c * 4 / 512 @ 32);
        buf ← bd_read (disk_idx fs) lba 1 (replicate 512 0);
        prev ← mlift (u32_at buf (c * 4 mod 512));
        let new_val := Z.lor (Z.land prev 0xF0000000) (Z.land v 0x0FFFFFFF) in
        buf' ← mlift (splice buf (c * 4 mod 512) (le_bytes 4 new_val));
        bd_write (disk_idx fs) lba 1 buf') d1 (fun d' _ => entry_set c v (k + 1) d d').
Proof.
  intros Hc Hv Hk (Hr & Hfat & Hout). destruct (entry_pos c Hc) as (H1 & H2 & H3 & _). destruct Hg.
  set (s := fat_start_lba fs + k * spf + c * 4 / 512).
  assert (k * spf + spf <= nf * spf) by nia. assert (0 <= k * spf) by nia.
  assert (Hs : 0 <= s < fat_start_lba fs + nf * spf) by (unfold s; lia).
  apply runs_bind. eapply (runs_lift _ s).
  { rewrite mul_chk_ok by nia. obind. rewrite add_chk_ok by nia. obind. rewrite add_chk_ok by nia. done. }
  apply runs_bind. eapply runs_mono; [apply read_sector_runs; [done|nia]|]. intros d2 buf [-> [Hr2 Hs2]].
  destruct (img_sector d1 s Hr) as [Hl Hok].
  destruct (entry_sector (img d1 s) (c * 4 mod 512) v) as (buf' & Eb & Hl' & Hok' & Hw & Hw'); [done..|].
  apply runs_bind. eapply runs_lift; [apply u32_at_word; lia|].
  apply runs_bind. eapply runs_lift; [exact Eb|].
  eapply runs_mono; [apply write_sector_runs; [done|nia|done|done]|]. intros d3 _ [Hr3 H3'].
  split; [done|]. split.
  - intros c' Hc'. destruct (entry_pos c' Hc') as (P1 & P2 & P3 & _). unfold fatv. rewrite H3'.
    specialize (Hfat c' Hc'). unfold fatv in Hfat.
    destruct (decide (fat_start_lba fs + c' * 4 / 512 = s)) as [Hsec|Hsec];
      [rewrite (bool_decide_eq_true_2 _ Hsec)|rewrite (bool_decide_eq_false_2 _ Hsec)].
    + assert (k = 0) as -> by (assert (k * spf < 1 * spf) by (unfold s in Hsec; lia); nia).
      assert (c' * 4 / 512 = c * 4 / 512) as Hq by (unfold s in Hsec; lia).
      pose proof (Z.div_mod (c * 4) 512 ltac:(lia)). pose proof (Z.div_mod (c' * 4) 512 ltac:(lia)).
      destruct (decide (c' = c)) as [->|Hne].
      * rewrite bool_decide_eq_true_2 by lia. exact Hw.
      * rewrite bool_decide_eq_false_2 by lia. rewrite bool_decide_eq_false_2 in Hfat by lia.
        rewrite <- Hfat. rewrite Hw' by lia. rewrite Hsec. done.
    + rewrite Hs2. rewrite Hfat. destruct (decide (c' = c)) as [->|Hne].
      * assert (k <> 0) by (intros ->; apply Hsec; unfold s; lia).
        by rewrite !bool_decide_eq_true_2 by lia.
      * by rewrite !bool_decide_eq_false_2 by lia.
  - intros l Hl0. assert (fat_start_lba fs <= s) by (unfold s; nia).
    rewrite H3', bool_decide_eq_false_2 by lia. rewrite Hs2. by apply Hout.
Qed.

Lemma set_fat_entry_runs d c v :
  ready d -> 0 <= c < spf * 128 -> 0 <= v ->
  runs (set_fat_entry fs c v) d (fun d' _ => entry_set c v nf d d').
Proof.
  intros Hr Hc Hv. destruct (entry_pos c Hc) as (_ & _ & _ & Hp). unfold set_fat_entry.
  apply runs_bind. eapply runs_lift; [exact Hp|]. pose proof (ge_nf Hg) as Hnf.
  eapply runs_mono; [apply (runs_for _ _ (fun pre d' => entry_set c v (lenZ pre) d d'))|].
  - split; [done|]. split; [|done]. intros c' Hc'. by rewrite bool_decide_eq_false_2 by (unfold lenZ; cbn; lia).
  - intros pre x post d1 Hl Hd1.
    assert (x = lenZ pre /\ lenZ pre < nf) as [-> Hlt].
    { assert (seqZ 0 (num_fats (bpb fs)) !! length pre = Some x) as Hx by (by rewrite Hl, list_lookup_middle).
      apply lookup_seqZ in Hx. unfold lenZ, nf. lia. }
    rewrite lenZ_app. change (lenZ [lenZ pre]) with 1. apply set_copy_runs; try done. unfold lenZ in *. lia.
  - intros d' u. unfold lenZ. rewrite length_seqZ. by replace (Z.of_nat (Z.to_nat _)) with nf by (unfold nf in *; lia).
Qed.

(** The entry of [c] becomes [v]; nothing outside the FATs changes. *)
Definition fat_upd (c v : Z) (d d' : D) : Prop :=
  ready d' /\
  (forall c', 0 <= c' < spf * 128 ->
     fatv (img d') c' = if bool_decide (c' = c) then Z.land v MASK else fatv (img d) c') /\
  (forall l, data_start_lba fs <= l -> img d' l = img d l).

Lemma set_entry_runs d c v :
  ready d -> 0 <= c < spf * 128 -> 0 <= v ->
  runs (set_fat_entry fs c v) d (fun d' _ => fat_upd c v d d').
Proof.
  intros Hr Hc Hv. eapply runs_mono; [by apply set_fat_entry_runs|]. intros d' u (R & F & O).
  destruct Hg. split; [done|]. split.
  - intros c' Hc'. rewrite F by done. rewrite (bool_decide_ext _ (c' = c)) by lia. done.
  - intros l Hl. apply O. lia.
Qed.

Lemma clus_range c : valid c -> data_start_lba fs <= clus_lba c /\ clus_lba c + spc <= 2 ^ 28.
Proof. intros [H1 H2]. destruct Hg. unfold clus_lba. split; nia. Qed.
Lemma cluster_to_lba_ok c : valid c -> cluster_to_lba fs c = Ret (clus_lba c).
Proof.
  intros Hv. pose proof (clus_range c Hv) as [Hlo Hhi]. pose proof Hg as []. destruct Hv as [Hv1 Hv2].
  unfold cluster_to_lba, clus_lba in *. fold spc. rewrite sub_chk_ok by lia. obind.
  rewrite mul_chk_ok by nia. obind. apply add_chk_ok. nia.
Qed.
Lemma upd_cdata c v d d' c' : fat_upd c v d d' -> valid c' -> cdata (img d') c' = cdata (img d) c'.
Proof.
  intros (_ & _ & O) Hv. pose proof (clus_range c' Hv). apply sectors_of_ext. intros l Hl. apply O. lia.
Qed.

(** ** Allocation *)

Definition is_free (g : Z -> list Z) (c : Z) : Prop := 2 <= c /\ fatv g c = 0.
#[local] Instance is_free_dec g c : Decision (is_free g c).
Proof. unfold is_free. apply _. Defined.
(** The free clusters, in order. *)
Definition frees (g : Z -> list Z) : list Z := filter (is_free g) (seqZ 0 (spf * 128)).

Lemma scan_sector_spec d sec i n :
  ready d -> 0 <= sec < spf -> 0 <= i -> i + Z.of_nat n = 128 ->
  scan_sector sec (spf * 128) (img d (fat_start_lba fs + sec)) (seqZ i (Z.of_nat n)) =
    Ret (Ok (head (filter (is_free (img d)) (seqZ (sec * 128 + i) (Z.of_nat n))))).
Proof.
  intros Hr Hsec. destruct (img_sector d (fat_start_lba fs + sec) Hr) as [Hl Hok].
  revert i. induction n as [|n IH]; intros i Hi Hn; [done|].
  rewrite (seqZ_cons i), (seqZ_cons (sec * 128 + i)) by lia.
  replace (Z.pred (Z.of_nat (S n))) with (Z.of_nat n) by lia. unfold Z.succ. cbn [scan_sector]. destruct Hg.
  assert (spf * 128 < 2 ^ 32) by nia.
  rewrite mul_chk_ok by lia. obind. rewrite add_chk_ok by lia. obind.
  replace (sec * 128 + i + 1) with (sec * 128 + (i + 1)) by lia.
  case_bool_decide as H2.
  { rewrite IH by lia. rewrite filter_cons_False by (unfold is_free; lia). done. }
  rewrite bool_decide_eq_false_2 by lia. rewrite u32_at_word by lia. obind.
  assert (Hf : fatv (img d) (sec * 128 + i) = Z.land (word_at (img d (fat_start_lba fs + sec)) (i * 4)) 0x0FFFFFFF).
  { unfold fatv. replace ((sec * 128 + i) * 4) with (i * 4 + sec * 512) by lia.
    rewrite Z.div_add, Z.mod_add by lia. rewrite (Z.div_small (i * 4)), (Z.mod_small (i * 4)) by lia. done. }
  case_bool_decide as Hz.
  - rewrite filter_cons_True by (split; [lia|congruence]). done.
  - rewrite IH by lia. rewrite filter_cons_False by (unfold is_free; intros []; congruence). done.
Qed.

Definition EOC : Z := 0x0FFFFFFF.

Lemma free_same d d' (l : list Z) : same d d' -> filter (is_free (img d')) l = filter (is_free (img d)) l.
Proof. intros Hs. apply list_filter_iff. intros c. unfold is_free. by rewrite (fatv_same d d'). Qed.

Lemma scan_fat_runs n k d buf c rest :
  ready d -> 0 <= k -> k + Z.of_nat n = spf -> lenZ buf = 512 ->
  filter (is_free (img d)) (seqZ (k * 128) (Z.of_nat n * 128)) = c :: rest ->
  runs (scan_fat fs (spf * 128) (seqZ k (Z.of_nat n)) buf) d (fun d' r => r = c /\ fat_upd c EOC d d').
Proof.
  revert k d buf. induction n as [|n IH]; intros k d buf Hr Hk Hn Hb Hf; [done|].
  rewrite seqZ_cons by lia. replace (Z.pred (Z.of_nat (S n))) with (Z.of_nat n) by lia. unfold Z.succ.
  replace (Z.of_nat (S n) * 128) with (128 + Z.of_nat n * 128) in Hf by lia.
  rewrite seqZ_app, filter_app in Hf by lia. destruct Hg. cbn [scan_fat].
  apply runs_bind. eapply runs_lift; [apply add_chk_ok; nia|].
  apply runs_bind. eapply runs_mono; [apply read_sector_into; [done|nia|done]|]. intros d1 b [-> Hs1].
  apply runs_bind. eapply runs_lift.
  { change (seqZ 0 128) with (seqZ 0 (Z.of_nat 128)). apply scan_sector_spec; [done|lia..]. }
  rewrite Z.add_0_r. change (Z.of_nat 128) with 128.
  destruct (filter (is_free (img d)) (seqZ (k * 128) 128)) as [|c' l'] eqn:E1; cbn [head].
  - eapply runs_mono; [apply (IH (k + 1) d1)|].
    + apply Hs1.
    + lia.
    + lia.
    + by destruct (img_sector d (fat_start_lba fs + k) Hr).
    + rewrite (free_same d d1) by done. by replace ((k + 1) * 128) with (k * 128 + 128) by lia.
    + intros d' r [-> (R & F & O)]. split; [done|]. split; [done|]. split.
      * intros c'' Hc''. rewrite F by done. by rewrite (fatv_same d d1).
      * intros l Hl. rewrite O by done. apply Hs1.
  - injection Hf as -> _. assert (Hin : c ∈ filter (is_free (img d)) (seqZ (k * 128) 128)) by (rewrite E1; constructor).
    apply list_elem_of_filter in Hin as [[Hc2 _] Hin%elem_of_seqZ].
    apply runs_bind. eapply runs_mono; [apply (set_entry_runs d1 c EOC); [apply Hs1|nia|unfold EOC; lia]|].
    intros d' u (R & F & O). apply runs_ok. split; [done|]. split; [done|]. split.
    + intros c'' Hc''. rewrite F by done. by rewrite (fatv_same d d1).
    + intros l Hl. rewrite O by done. apply Hs1.
Qed.

Lemma alloc_cluster_runs d c rest :
  ready d -> frees (img d) = c :: rest ->
  runs (alloc_cluster fs) d (fun d' r => r = c /\ fat_upd c EOC d d').
Proof.
  intros Hr Hf. pose proof Hg as []. unfold alloc_cluster. apply runs_bind.
  eapply runs_lift; [apply mul_chk_ok; nia|].
  replace (sectors_per_fat (bpb fs)) with (Z.of_nat (Z.to_nat spf)) at 2 by (unfold spf in *; lia).
  apply (scan_fat_runs _ 0 d _ c rest); [done|lia|lia|done|].
  unfold frees in Hf. rewrite Z.mul_0_l. by replace (Z.of_nat (Z.to_nat spf)) with spf by lia.
Qed.

Lemma frees_valid g c : c ∈ frees g -> valid c /\ fatv g c = 0.
Proof. unfold frees, valid. intros [[H1 H2] H3%elem_of_seqZ]%list_elem_of_filter. split; [lia|done]. Qed.
Lemma frees_NoDup g : NoDup (frees g).
Proof. apply NoDup_filter, NoDup_seqZ. Qed.

Lemma frees_upd d d' c rest : frees (img d) = c :: rest -> fat_upd c EOC d d' -> frees (img d') = rest.
Proof.
  intros Hf (_ & F & _). apply (filter_minus (is_free (img d)) _ (seqZ 0 (spf * 128)) rest c); [apply NoDup_seqZ|done|].
  intros x Hx%elem_of_seqZ. unfold is_free. rewrite F by lia. case_bool_decide as Hxc; [|tauto]. split; [|tauto].
  intros [_ He]. by vm_compute in He.
Qed.

(** Only FAT entries changed, to [F]. *)
Definition fat_now (F : Z -> Z) (d d' : D) : Prop :=
  ready d' /\ (forall c, 0 <= c < spf * 128 -> fatv (img d') c = F c) /\
  (forall l, data_start_lba fs <= l -> img d' l = img d l).

Lemma alloc_chain_runs n acc d :
  ready d -> (n <= length (frees (img d)))%nat ->
  runs (alloc_chain fs n acc) d (fun d' r => r = acc ++ take n (frees (img d)) /\
    fat_now (fun c => if bool_decide (c ∈ take n (frees (img d))) then EOC else fatv (img d) c) d d').
Proof.
  revert acc d. induction n as [|n IH]; intros acc d Hr Hn; cbn [alloc_chain].
  { apply runs_ok. split; [by rewrite app_nil_r|]. split; [done|]. split; [|done]. intros c Hc.
    rewrite bool_decide_eq_false_2; [done|]. intros Hin%elem_of_nil. done. }
  destruct (frees (img d)) as [|c rest] eqn:Hf; [cbn in Hn; lia|].
  apply runs_bind. eapply runs_mono; [by apply (alloc_cluster_runs d c rest)|]. intros d1 r [-> Hu].
  pose proof (frees_upd _ _ _ _ Hf Hu) as Hf1. destruct Hu as (R1 & F1 & O1).
  eapply runs_mono; [apply IH; [done|rewrite Hf1; cbn in Hn; lia]|]. intros d' r (-> & R' & F' & O').
  rewrite Hf1 in *. cbn [take]. split; [by rewrite <- app_assoc|]. split; [done|]. split.
  - intros x Hx. rewrite F', F1 by done.
    destruct (decide (x = c)) as [->|Hne]; [|repeat case_bool_decide; try done; set_solver].
    rewrite (bool_decide_eq_true_2 (c = c)) by done. rewrite (bool_decide_eq_true_2 (c ∈ c :: _)) by constructor.
    by case_bool_decide.
  - intros l Hl. rewrite O', O1; done.
Qed.

(** ** Chains *)

(** [l] is a chain: each entry names the next cluster, the last ends it. *)
Fixpoint linked (g : Z -> list Z) (l : list Z) : Prop :=
  match l with
  | [] => False
  | c :: l' =>
      match l' with
      | [] => decode (fatv g c) = None
      | c2 :: _ => decode (fatv g c) = Some c2 /\ linked g l'
      end
  end.

Lemma linked_ext g g' l :
  (forall c, c ∈ l -> fatv g' c = fatv g c) -> linked g l -> linked g' l.
Proof.
  induction l as [|c [|c2 l] IH]; intros He Hl; [done| |].
  - cbn in *. rewrite He by constructor. done.
  - destruct Hl as [H1 H2]. split; [rewrite He by constructor; done|]. apply IH; [|done].
    intros x Hx. apply He. by constructor.
Qed.

Lemma valid_entry c : valid c -> Z.land c MASK = c /\ decode c = Some c.
Proof.
  intros [H1 H2]. destruct Hg. assert (c < 2 ^ 28 - 16) by nia. split.
  - change MASK with (Z.ones 28). rewrite Z.land_ones by lia. apply Z.mod_small. lia.
  - unfold decode. rewrite bool_decide_eq_false_2 by lia. by rewrite bool_decide_eq_false_2 by lia.
Qed.

Lemma valid_in_fat c : valid c -> 0 <= c < spf * 128.
Proof. unfold valid. lia. Qed.

Lemma link_chain_runs l d :
  ready d -> NoDup l -> Forall valid l -> (forall c, last l = Some c -> decode (fatv (img d) c) = None) ->
  runs (link_chain fs l) d (fun d' _ => ready d' /\ (l <> [] -> linked (img d') l) /\
    (forall c, 0 <= c < spf * 128 -> c ∉ l -> fatv (img d') c = fatv (img d) c) /\
    (forall x, data_start_lba fs <= x -> img d' x = img d x)).
Proof.
  revert d. induction l as [|a [|b l] IH]; intros d Hr Hnd Hv Hlast.
  - apply runs_ok. done.
  - apply runs_ok. split_and!; try done. intros _. by apply Hlast.
  - apply NoDup_cons in Hnd as [Ha Hnd]. apply Forall_cons in Hv as [Hva Hv].
    pose proof Hv as [Hvb _]%Forall_cons. destruct (valid_entry b Hvb) as [Hm Hd].
    change (link_chain fs (a :: b :: l)) with (_ ← set_fat_entry fs a b; link_chain fs (b :: l)).
    apply runs_bind. eapply runs_mono; [apply (set_entry_runs d a b); [done|by apply valid_in_fat|unfold valid in Hvb; lia]|].
    intros d1 u (R1 & F1 & O1). eapply runs_mono; [apply IH; [done..|]|].
    { intros c Hc. assert (c ∈ b :: l) by (by apply last_Some_elem_of).
      rewrite F1 by (apply valid_in_fat; by eapply (Forall_forall valid)).
      rewrite bool_decide_eq_false_2 by (by intros ->). apply Hlast. done. }
    intros d' u' (R' & L' & F' & O'). split; [done|]. split_and!.
    + intros _. split; [|by apply L'].
      rewrite F' by (done || by apply valid_in_fat). rewrite F1 by (by apply valid_in_fat).
      by rewrite bool_decide_eq_true_2, Hm.
    + intros c Hc Hnin. apply not_elem_of_cons in Hnin as [Hca Hnin]. rewrite F', F1 by done.
      by rewrite bool_decide_eq_false_2.
    + intros x Hx. rewrite O', O1; done.
Qed.

(** ** Cluster data *)

Let cb : Z := spc * 512.
Definition padded (l : list Z) : list Z := l ++ replicate (Z.to_nat (cb - lenZ l)) 0.

Lemma lenZ_cdata d c : ready d -> lenZ (cdata (img d) c) = cb.
Proof.
  intros Hr. unfold cdata. rewrite length_sectors_of by (intros; by apply img_sector). destruct Hg. unfold cb. lia.
Qed.

Lemma write_whole_runs c buf d :
  ready d -> valid c -> lenZ buf = cb -> bytes_ok buf ->
  runs (bd_write (disk_idx fs) (clus_lba c) spc buf) d (fun d' _ => ready d' /\ cdata (img d') c = buf /\
    forall l, ~ (clus_lba c <= l < clus_lba c + spc) -> img d' l = img d l).
Proof.
  intros Hr Hv Hl Hok. pose proof (clus_range c Hv) as [Hlo Hhi]. pose proof Hg as [].
  destruct (bd_write_ok d (disk_idx fs) (clus_lba c) spc buf) as (d' & E & Hd & Hr');
    [done|unfold lba_range; nia|unfold cb in *; lia|done|].
  exists d', tt. split; [exact E|]. split; [by apply Hr'|]. split.
  - unfold cdata. apply sectors_of_written; [|unfold cb in *; lia]. intros k Hk. unfold img. rewrite Hd.
    rewrite bool_decide_eq_true_2 by lia. do 3 f_equal. lia.
  - intros l Hnl. unfold img. rewrite Hd. by rewrite bool_decide_eq_false_2 by lia.
Qed.

Lemma write_cluster_runs c data d :
  ready d -> valid c -> lenZ data <= cb -> bytes_ok data ->
  runs (write_cluster fs c data) d (fun d' _ => ready d' /\ cdata (img d') c = padded data /\
    forall l, ~ (clus_lba c <= l < clus_lba c + spc) -> img d' l = img d l).
Proof.
  intros Hr Hv Hl Hok. destruct (clus_range c Hv) as [Hlo Hhi]. pose proof Hg as []. pose proof Hv as [Hv1 Hv2].
  assert (Hdl : 0 <= lenZ data) by (unfold lenZ; lia).
  unfold write_cluster. fold spc. change (spc * SECTOR) with cb. rewrite bool_decide_eq_false_2 by lia.
  apply runs_bind. eapply runs_lift; [by apply cluster_to_lba_ok|].
  assert (Hrep : lenZ (replicate (Z.to_nat cb) 0) = cb) by (unfold lenZ; rewrite length_replicate; unfold cb in *; lia).
  apply runs_bind. eapply (runs_lift _ (padded data)).
  { rewrite splice_ok by lia. unfold padded. rewrite Z.add_0_l, drop_replicate, take_0. cbn [app].
    do 3 f_equal. unfold lenZ in *. lia. }
  assert (Hpl : lenZ (padded data) = cb).
  { unfold padded. rewrite lenZ_app. unfold lenZ at 2. rewrite length_replicate. lia. }
  apply write_whole_runs; try done. apply bytes_ok_app. split; [done|]. apply Forall_replicate. unfold byte_ok. lia.
Qed.

(** A change inside the cluster [c] is no change elsewhere. *)
Lemma outside_cluster c d d' :
  valid c -> (forall l, ~ (clus_lba c <= l < clus_lba c + spc) -> img d' l = img d l) ->
  (forall c', valid c' -> c' <> c -> cdata (img d') c' = cdata (img d) c') /\
  (forall l, l < data_start_lba fs -> img d' l = img d l) /\
  (forall c', 0 <= c' < spf * 128 -> fatv (img d') c' = fatv (img d) c').
Proof.
  intros Hv Hd. pose proof (clus_range c Hv) as [Hlo _].
  assert (Hlow : forall l, l < data_start_lba fs -> img d' l = img d l) by (intros; apply Hd; lia).
  split_and!; [|done|].
  - intros c' Hv' Hne. apply sectors_of_ext. intros l Hl. apply Hd. destruct Hg. unfold clus_lba in *.
    intros Hin. assert ((c - c') * spc < 1 * spc /\ (c' - c) * spc < 1 * spc) as [H1 H2] by lia.
    apply Z.mul_lt_mono_pos_r in H1, H2; lia.
  - intros c' Hc'. unfold fatv. rewrite Hlow; [done|]. destruct (entry_pos c' Hc') as (P & _). destruct Hg. nia.
Qed.

(** The clusters that [n] pieces of [data] fill. *)
Fixpoint pieces (n : nat) (data : list Z) : list (list Z) :=
  match n with
  | O => []
  | S n' => padded (take (Z.to_nat cb) data) :: pieces n' (drop (Z.to_nat cb) data)
  end.

Lemma pieces_data n data :
  lenZ data <= Z.of_nat n * cb -> take (length data) (concat (pieces n data)) = data.
Proof.
  assert (Hcb : 0 < cb) by (destruct Hg; unfold cb; lia).
  revert data. induction n as [|n IH]; intros data Hl; cbn [pieces concat].
  { destruct data; [done|]. unfold lenZ in Hl. cbn in Hl. lia. }
  unfold padded. destruct (decide (lenZ data <= cb)) as [Hle|Hgt].
  - rewrite (take_ge data) by (unfold lenZ in Hle; lia). rewrite <- !app_assoc. by apply take_app_length.
  - assert (Ht : lenZ (take (Z.to_nat cb) data) = cb) by (unfold lenZ in *; rewrite length_take; lia).
    rewrite Ht, Z.sub_diag. cbn [replicate]. rewrite app_nil_r, take_app_ge by (unfold lenZ in *; rewrite length_take; lia).
    transitivity (take (Z.to_nat cb) data ++ drop (Z.to_nat cb) data); [f_equal|apply take_drop].
    rewrite <- (IH (drop (Z.to_nat cb) data)) at 2 by (unfold lenZ in *; rewrite length_drop; lia).
    f_equal. rewrite length_drop, length_take. unfold lenZ in *. lia.
Qed.

Lemma write_chain_runs l i data d :
  ready d -> NoDup l -> Forall valid l -> bytes_ok data -> 0 <= i ->
  (l <> [] -> (i + lenZ l - 1) * cb <= lenZ data) ->
  runs (write_chain fs l i data) d (fun d' _ => ready d' /\
    cdata (img d') <$> l = pieces (length l) (drop (Z.to_nat (i * cb)) data) /\
    (forall c, valid c -> c ∉ l -> cdata (img d') c = cdata (img d) c) /\
    (forall c, 0 <= c < spf * 128 -> fatv (img d') c = fatv (img d) c)).
Proof.
  assert (Hcb : 0 < cb) by (destruct Hg; unfold cb; lia).
  revert i d. induction l as [|c l IH]; intros i d Hr Hnd Hv Hok Hi Hlen; cbn [write_chain].
  { by apply runs_ok. }
  apply NoDup_cons in Hnd as [Hc Hnd]. apply Forall_cons in Hv as [Hvc Hv].
  specialize (Hlen ltac:(done)). replace (lenZ (c :: l)) with (1 + lenZ l) in Hlen by (unfold lenZ; cbn; lia).
  assert (0 <= lenZ l) by (unfold lenZ; lia). assert (i * cb <= lenZ data) by nia.
  fold spc. change (spc * SECTOR) with cb.
  set (part := take (Z.to_nat cb) (drop (Z.to_nat (i * cb)) data)).
  apply runs_bind. eapply (runs_lift _ part).
  { unfold slice. rewrite bool_decide_eq_true_2 by nia. f_equal. unfold part. apply list_eq. intros k.
    destruct (decide (k < Z.to_nat cb)%nat) as [Hk|Hk].
    - rewrite (lookup_take_lt _ (Z.to_nat cb)) by done. destruct (decide (k < Z.to_nat (Z.min (i * cb + cb) (lenZ data) - i * cb))%nat).
      + by rewrite lookup_take_lt.
      + rewrite lookup_take_ge by lia. symmetry. apply lookup_ge_None. rewrite length_drop. unfold lenZ in *. lia.
    - rewrite !lookup_take_ge by lia. done. }
  assert (Hpok : bytes_ok part) by (by apply Forall_take, Forall_drop).
  assert (Hpl : lenZ part <= cb) by (unfold part, lenZ; rewrite length_take; lia).
  apply runs_bind. eapply runs_mono; [by apply write_cluster_runs|]. intros d1 u (R1 & C1 & O1).
  destruct (outside_cluster c d d1 Hvc O1) as (Oc & _ & Of).
  eapply runs_mono; [apply IH; [done..|lia|]|].
  { intros _. nia. }
  intros d' u' (R' & C' & O' & F'). split; [done|]. split_and!.
  - cbn [fmap list_fmap length pieces]. rewrite O', C1 by done. f_equal. rewrite C'. f_equal.
    rewrite drop_drop. f_equal. lia.
  - intros x Hx Hnin. apply not_elem_of_cons in Hnin as [Hne Hnin]. rewrite O', Oc; done.
  - intros x Hx. rewrite F', Of; done.
Qed.

(** ** Reading a chain *)

Lemma read_cluster_runs c n k buf d :
  ready d -> valid c -> 0 <= k -> k + Z.of_nat n = spc -> lenZ buf = cb ->
  runs (read_cluster fs (clus_lba c) (seqZ k (Z.of_nat n)) buf) d (fun d' b =>
    b = take (Z.to_nat (k * 512)) buf ++ sectors_of (img d) (clus_lba c + k) n /\ same d d').
Proof.
  intros Hr Hv. destruct (clus_range c Hv) as [Hlo Hhi]. pose proof Hg as []. revert k buf d Hr.
  induction n as [|n IH]; intros k buf d Hr Hk Hn Hb.
  { apply runs_ok. split; [|by apply same_refl]. rewrite take_ge by (unfold lenZ, cb in *; lia).
    unfold sectors_of. cbn. by rewrite app_nil_r. }
  rewrite seqZ_cons by lia. replace (Z.pred (Z.of_nat (S n))) with (Z.of_nat n) by lia. unfold Z.succ.
  cbn [read_cluster]. unfold SECTOR. destruct (img_sector d (clus_lba c + k) Hr) as [Hs _].
  apply runs_bind. eapply runs_lift; [apply add_chk_ok; lia|].
  apply runs_bind. eapply runs_lift.
  { unfold slice. by rewrite bool_decide_eq_true_2 by (unfold cb in *; lia). }
  apply runs_bind. eapply runs_mono; [apply read_sector_into; [done|lia|]|].
  { unfold lenZ, cb in *. rewrite length_take, length_drop. lia. }
  intros d1 b [-> Hs1]. apply runs_bind. eapply runs_lift; [apply splice_ok; unfold cb in *; lia|].
  eapply runs_mono; [apply (IH (k + 1)); [apply Hs1|lia|lia|]|].
  { rewrite !lenZ_app. unfold lenZ, cb in *. rewrite length_take, length_drop. lia. }
  intros d' r [-> Hs2]. split; [|by eapply same_trans].
  rewrite (sectors_of_ext (img d) (img d1)) by (intros; apply Hs1).
  assert (Htl : length (take (Z.to_nat (k * 512)) buf) = Z.to_nat (k * 512)) by (rewrite length_take; unfold lenZ, cb in *; lia).
  rewrite app_assoc, take_app_le by (rewrite length_app, Htl; unfold lenZ in *; lia).
  rewrite take_ge by (rewrite length_app, Htl; unfold lenZ in *; lia). rewrite <- app_assoc. f_equal.
  unfold sectors_of at 2. rewrite seqZ_cons by lia. cbn [fmap list_fmap concat]. rewrite Z.add_0_r. f_equal.
  replace (Z.pred (Z.of_nat (S n))) with (Z.of_nat n) by lia. unfold sectors_of. f_equal.
  change (Z.succ 0) with (1 + 0). rewrite <- (fmap_add_seqZ 1 0 (Z.of_nat n)), <- list_fmap_compose. apply list_fmap_ext. intros j x Hx. cbn. f_equal. lia.
Qed.

(** One round: the cluster is read, then its entry. *)
Lemma chain_round c d (k : list Z -> option Z -> M D string (list Z)) Q :
  ready d -> valid c ->
  (forall d2, same d d2 -> runs (k (cdata (img d) c) (decode (fatv (img d) c))) d2 Q) ->
  runs (lba ← mlift (cluster_to_lba fs c);
        buf ← read_cluster fs lba (seqZ 0 spc) (replicate (Z.to_nat cb) 0);
        n ← next_cluster fs c; k buf n) d Q.
Proof.
  intros Hr Hv Hk. pose proof (clus_range c Hv) as [Hlo Hhi]. pose proof Hg as []. pose proof Hv as [Hv1 Hv2].
  apply runs_bind. eapply runs_lift; [by apply cluster_to_lba_ok|].
  replace spc with (Z.of_nat (Z.to_nat spc)) at 1 by lia.
  apply runs_bind. eapply runs_mono; [apply read_cluster_runs; [done|done|lia|lia|]|].
  { unfold lenZ. rewrite length_replicate. unfold cb. lia. }
  intros d1 buf [-> Hs1]. rewrite Z.mul_0_l, take_0, Z.add_0_r. cbn [app]. fold (cdata (img d) c).
  apply runs_bind. eapply runs_mono; [apply next_cluster_runs; [apply Hs1|by apply valid_in_fat]|].
  intros d2 r [-> Hs2]. rewrite (fatv_same d d1) by done. apply Hk. by eapply same_trans.
Qed.

Lemma chain_loop_runs l c safety acc d :
  ready d -> Forall valid (c :: l) -> linked (img d) (c :: l) -> (length l <= safety)%nat ->
  runs (chain_loop fs safety c acc) d (fun d' r =>
    r = acc ++ concat (cdata (img d) <$> (c :: l)) /\ same d d').
Proof.
  revert c safety acc d. induction l as [|c2 l IH]; intros c safety acc d Hr Hv Hl Hsf;
    pose proof Hv as [Hvc Hv']%Forall_cons; destruct safety as [|safety]; try (cbn in Hsf; lia);
    apply (chain_round c d (fun buf n => match n with
      | None => mok (acc ++ buf)
      | Some next => _ end)); try done; intros d2 Hs2.
  - cbn in Hl. rewrite Hl. apply runs_ok. cbn. by rewrite app_nil_r.
  - cbn in Hl. rewrite Hl. apply runs_ok. cbn. by rewrite app_nil_r.
  - destruct Hl as [Hl1 Hl2]. rewrite Hl1.
    eapply runs_mono; [apply (IH c2); [apply Hs2|done| |cbn in Hsf; lia]|].
    { revert Hl2. apply linked_ext. intros x _. by apply fatv_same. }
    intros d' r [-> Hs']. split; [|by eapply same_trans]. cbn [fmap list_fmap concat]. rewrite <- !app_assoc.
    do 2 f_equal. rewrite (cdata_same d d2) by done. f_equal. f_equal. apply list_fmap_ext. intros. by apply cdata_same.
Qed.

(** ** The root directory *)

Lemma runs_bounded {A} (c : M D string A) d Q : runs c d Q -> runs (bounded c) d Q.
Proof. intros (d' & a & E & HQ). exists d', a. split; [|done]. unfold bounded. by rewrite E. Qed.

Lemma read_whole_runs c d :
  ready d -> valid c ->
  runs (bd_read (disk_idx fs) (clus_lba c) spc (replicate (Z.to_nat cb) 0)) d
    (fun d' b => b = cdata (img d) c /\ same d d').
Proof.
  intros Hr Hv. pose proof (clus_range c Hv) as [Hlo Hhi]. pose proof Hg as [].
  destruct (bd_read_ok d (disk_idx fs) (clus_lba c) spc (replicate (Z.to_nat cb) 0)) as (d' & E & Hd & Hr');
    [done|unfold lba_range; nia|unfold lenZ, cb; rewrite length_replicate; lia|].
  exists d'. eexists. split; [exact E|]. split; [|split; [by apply Hr'|intros; apply Hd]].
  rewrite drop_ge by (rewrite length_replicate; unfold cb; lia). by rewrite app_nil_r.
Qed.

Lemma cdata_len d c : ready d -> length (cdata (img d) c) = (32 * Z.to_nat (spc * 16))%nat.
Proof. intros Hr. pose proof (lenZ_cdata d c Hr) as Hl. destruct Hg. unfold lenZ, cb in Hl. lia. Qed.

(** The entry goes into the free slot that was chosen. *)
Lemma upsert_runs fuel p first size c k d :
  ready d -> valid c -> choose_slot p (slots_of (cdata (img d) c)) 0 None = Some (32 * Z.of_nat k, false) ->
  length (new_entry p first size) = 32%nat -> bytes_ok (new_entry p first size) ->
  runs (upsert_loop fs (S fuel) p first size c) d (fun d' _ => ready d' /\
    (exists rest, cdata (img d') c = concat (take k (slots_of (cdata (img d) c))) ++ new_entry p first size ++ rest) /\
    forall l, ~ (clus_lba c <= l < clus_lba c + spc) -> img d' l = img d l).
Proof.
  intros Hr Hv Hch Hel Heo. cbn [upsert_loop]. pose proof (cdata_len d c Hr) as Hlen.
  destruct (slots_of_spec _ _ Hlen) as (Hsn & _ & _).
  apply choose_slot_range in Hch as Hrg. destruct Hrg as [?|(k' & Hk & Hkk)]; [done|].
  assert (k' = k) as -> by lia. rewrite Hsn in Hk. pose proof (lenZ_cdata d c Hr) as Hlz.
  apply runs_bind. eapply runs_lift; [by apply cluster_to_lba_ok|].
  apply runs_bind, runs_bounded. eapply runs_mono; [by apply read_whole_runs|]. intros d1 b [-> Hs1].
  rewrite Hch. apply runs_bind, runs_ok. apply runs_bind. eapply runs_lift; [apply splice_ok; unfold lenZ in *; lia|].
  apply runs_bounded. eapply runs_mono; [apply write_whole_runs; [apply Hs1|done| |]|].
  - unfold lenZ in *. rewrite !length_app, length_take, length_drop. lia.
  - assert (bytes_ok (cdata (img d) c)) by (apply sectors_of_ok; intros; by apply img_sector).
    apply bytes_ok_app; split; [by apply Forall_take|]. apply bytes_ok_app. split; [done|by apply Forall_drop].
  - intros d' u (R & C & O). split; [done|]. split.
    + rewrite C. eexists. rewrite <- (take_slots _ _ k Hlen) by lia. f_equal. f_equal. lia.
    + intros l Hl. rewrite O by done. apply Hs1.
Qed.

(** ** Creating a file *)

(** The clusters that [data] takes. *)
Definition clusters_for (data : list Z) : Z := (lenZ data + cb - 1) / cb.

Lemma clusters_for_spec data : data <> [] ->
  n_clusters fs data = Ret (clusters_for data) /\ 1 <= clusters_for data /\
  (clusters_for data - 1) * cb <= lenZ data <= clusters_for data * cb.
Proof.
  intros Hd. assert (Hcb : 0 < cb) by (destruct Hg; unfold cb; lia).
  assert (1 <= lenZ data) by (destruct data; [done|]; unfold lenZ; cbn; lia).
  unfold n_clusters. fold spc. change (spc * SECTOR) with cb.
  rewrite bool_decide_eq_false_2, bool_decide_eq_false_2 by (done || lia). split; [done|].
  unfold clusters_for. pose proof (Z.div_mod (lenZ data + cb - 1) cb ltac:(lia)).
  pose proof (Z.mod_pos_bound (lenZ data + cb - 1) cb Hcb). split; [|nia]. apply Z.div_le_lower_bound; lia.
Qed.

(** A used cluster keeps its entry and, unless it is [rc], its bytes. *)
Definition keeps (rc : Z) (d d' : D) : Prop :=
  forall c, valid c -> fatv (img d) c <> 0 ->
    fatv (img d') c = fatv (img d) c /\ (c <> rc -> cdata (img d') c = cdata (img d) c).

(** The chain, allocated, linked and filled. *)
Lemma fill_runs n data d :
  ready d -> (n <= length (frees (img d)))%nat -> (1 <= n)%nat -> bytes_ok data ->
  (Z.of_nat n - 1) * cb <= lenZ data <= Z.of_nat n * cb ->
  runs (chain ← alloc_chain fs n []; _ ← link_chain fs chain; _ ← write_chain fs chain 0 data; mok chain) d
    (fun d' chain => chain = take n (frees (img d)) /\ ready d' /\ linked (img d') chain /\
      take (length data) (concat (cdata (img d') <$> chain)) = data /\
      (forall c, valid c -> c ∉ chain ->
         fatv (img d') c = fatv (img d) c /\ cdata (img d') c = cdata (img d) c)).
Proof.
  intros Hr Hn Hn1 Hok Hlen. set (chain := take n (frees (img d))).
  assert (Hcl : length chain = n) by (unfold chain; rewrite length_take; lia).
  assert (Hcv : Forall valid chain) by (apply Forall_take, Forall_forall; intros; by eapply frees_valid).
  assert (Hnd : NoDup chain) by (eapply sublist_NoDup; [apply frees_NoDup|apply sublist_take]).
  apply runs_bind. eapply runs_mono; [by apply alloc_chain_runs|]. cbn [app]. fold chain. intros d1 r (-> & R1 & F1 & O1).
  apply runs_bind. eapply runs_mono; [apply link_chain_runs; try done|].
  { intros c Hl. assert (Hin : c ∈ chain) by (by apply last_Some_elem_of).
    rewrite F1, bool_decide_eq_true_2 by (try done; apply valid_in_fat; by eapply Forall_forall). done. }
  intros d2 u2 (R2 & L2 & F2 & O2). apply runs_bind. eapply runs_mono; [apply write_chain_runs; try done|].
  { intros _. unfold lenZ at 1. rewrite Hcl. lia. }
  intros d3 u3 (R3 & C3 & O3 & F3). apply runs_ok. split; [done|]. split; [done|]. split_and!.
  - eapply linked_ext; [|apply L2; by destruct chain; [cbn in Hcl; lia|]]. intros c Hc. apply F3, valid_in_fat. by eapply Forall_forall.
  - rewrite C3, Hcl. change (Z.to_nat (0 * cb)) with 0%nat. rewrite drop_0. apply pieces_data. lia.
  - intros c Hc Hnin. assert (Hd : forall x y, (forall l, data_start_lba fs <= l -> img y l = img x l) -> cdata (img y) c = cdata (img x) c).
    { intros x y Hxy. pose proof (clus_range c Hc). apply sectors_of_ext. intros l Hl. apply Hxy. lia. }
    pose proof (valid_in_fat c Hc). rewrite F3, F2, F1, bool_decide_eq_false_2 by done. split; [done|].
    by rewrite O3, (Hd d1 d2), (Hd d d1).
Qed.

Lemma runs_seq3 {A} (a : M D string A) (f g : A -> M D string unit) (k : A -> M D (option string) unit) d Q :
  runs (x ← a; _ ← f x; _ ← g x; mok x) d (fun d' x => runs (k x) d' Q) ->
  runs (x ← bounded a; _ ← bounded (f x); _ ← bounded (g x); k x) d Q.
Proof.
  intros (d3 & x & E & HQ). unfold mbind, M_bind, mbindM, bounded in *.
  unfold runs. destruct (a d) as [[d1 [x1|]]|]; try done. destruct (f x1 d1) as [[d2 [[]|]]|]; try done.
  destruct (g x1 d2) as [[d4 [[]|]]|]; try done. by injection E as -> ->.
Qed.

(** A root directory, the chain [rc :: rl], that takes a new file [name]: its
    first cluster offers slot [k], before it no long name is pending and the
    entries [es] have other names. *)
Let rc : Z := root_cluster (bpb fs).
Record takes_file (d : D) (name : str) (rl : list Z) (k : nat) : Prop := {
  tf_dot : last name <> Some 46;
  tf_valid : Forall valid (rc :: rl);
  tf_used : Forall (fun c => fatv (img d) c <> 0) (rc :: rl);
  tf_linked : linked (img d) (rc :: rl);
  tf_len : lenZ rl <= 1000000;
  tf_slot : exists p es, pack_short_name name = Ok p /\
    choose_slot p (slots_of (cdata (img d) rc)) 0 None = Some (32 * Z.of_nat k, false) /\
    dir_scan (take k (slots_of (cdata (img d) rc))) [] [] = Some ([], es) /\
    Forall (fun e => eq_ignore_case (de_name e) name = false) es;
}.

Lemma valid_fits c : valid c -> fits 32 c.
Proof. intros [Hv1 Hv2]. destruct Hg. unfold fits. nia. Qed.

Lemma create_runs d name rl k p data fuel :
  ready d -> Forall valid (rc :: rl) -> Forall (fun c => fatv (img d) c <> 0) (rc :: rl) ->
  pack_short_name name = Ok p -> last name <> Some 46 ->
  choose_slot p (slots_of (cdata (img d) rc)) 0 None = Some (32 * Z.of_nat k, false) ->
  data <> [] -> bytes_ok data -> fits 32 (lenZ data) -> clusters_for data <= lenZ (frees (img d)) ->
  let chain := take (Z.to_nat (clusters_for data)) (frees (img d)) in
  runs (create_root_file fs (S fuel) name data) d (fun d' _ => ready d' /\ linked (img d') chain /\
    take (length data) (concat (cdata (img d') <$> chain)) = data /\ keeps rc d d' /\
    exists rest, cdata (img d') rc =
      concat (take k (slots_of (cdata (img d) rc))) ++ new_entry p (default 0 (head chain)) (lenZ data) ++ rest).
Proof.
  intros Hr Hv Hu Hp Hdot Hsl Hne Hok Hsz Hfr chain.
  destruct (clusters_for_spec data Hne) as (Hnc & Hn1 & Hlen).
  assert (valid rc /\ (rc ∉ chain)) as [Hrv Hrn].
  { apply Forall_cons in Hv as [Hv _]. apply Forall_cons in Hu as [Hu _]. split; [done|]. intros Hin.
    apply Hu. eapply frees_valid. by eapply elem_of_take_l. }
  assert (Hcv : Forall valid chain) by (apply Forall_take, Forall_forall; intros; by eapply frees_valid).
  assert (Hff : fits 32 (default 0 (head chain))).
  { destruct chain as [|c ch]; [done|]. apply Forall_cons in Hcv as [Hcv _]. by apply valid_fits. }
  destruct (dir_step_new name p (default 0 (head chain)) (lenZ data) [] Hp Hdot Hff Hsz) as (Hel & Heo & _).
  unfold create_root_file. rewrite Hp. apply runs_bind. eapply runs_lift; [done|]. apply runs_seq3.
  eapply runs_mono; [apply fill_runs; [done|unfold lenZ in *; lia|lia|done|lia]|].
  fold chain. intros d1 r (-> & R1 & L1 & C1 & O1). rewrite wrap_id by done.
  destruct (O1 rc Hrv Hrn) as [_ Hrd].
  eapply runs_mono; [apply (upsert_runs fuel p _ _ rc k); [done..|by rewrite Hrd|done|done]|].
  intros d' u (R & (rest & C) & O). destruct (outside_cluster rc d1 d' Hrv O) as (Oc & _ & Of).
  split; [done|]. split_and!.
  - revert L1. apply linked_ext. intros c Hc. apply Of, valid_in_fat. by eapply Forall_forall.
  - rewrite <- C1 at 2. f_equal. f_equal. apply list_fmap_ext. intros j c Hc%list_elem_of_lookup_2. apply Oc; [by eapply Forall_forall|].
    by intros ->.
  - intros c Hc Huc. assert (Hcn : c ∉ chain).
    { intros Hin. apply Huc. eapply frees_valid. by eapply elem_of_take_l. }
    destruct (O1 c Hc Hcn) as [<- <-]. split; [apply Of; by apply valid_in_fat|]. intros Hcr. by apply Oc.
  - exists rest. by rewrite C, Hrd.
Qed.

(** ** Finding and reading a file *)

Lemma resolve_runs d name l entry :
  ready d -> (slash ∉ name) -> name <> [] -> Forall valid (rc :: l) -> linked (img d) (rc :: l) -> lenZ l <= 1000000 ->
  (exists i, list_find (fun e => eq_ignore_case (de_name e) name = true)
     (parse_dir_entries (concat (cdata (img d) <$> (rc :: l)))) = Some (i, entry)) ->
  runs (resolve fs name) d (fun d' r => r = entry /\ same d d').
Proof.
  intros Hr Hs Hne Hv Hl Hlen [i Hf]. unfold resolve.
  rewrite trim_start_matches_id by (destruct name; [done|]; cbn; intros [= ->]; apply Hs; constructor).
  rewrite bool_decide_eq_false_2, str_split_block by done. rewrite filter_cons_True by done.
  rewrite filter_nil. cbn [resolve_parts]. unfold ls_cluster, read_chain. apply runs_bind, runs_bind.
  eapply runs_mono; [apply (chain_loop_runs l); try done; unfold SAFETY, lenZ in *; lia|].
  intros d1 raw [-> Hs1]. apply runs_ok. cbn [app]. fold rc. rewrite Hf. by apply runs_ok.
Qed.

Lemma read_file_runs d name l entry chain :
  ready d -> (slash ∉ name) -> name <> [] -> Forall valid (rc :: l) -> linked (img d) (rc :: l) -> lenZ l <= 1000000 ->
  (exists i, list_find (fun e => eq_ignore_case (de_name e) name = true)
     (parse_dir_entries (concat (cdata (img d) <$> (rc :: l)))) = Some (i, entry)) ->
  is_dir entry = false -> head chain = Some (cluster entry) -> Forall valid chain -> linked (img d) chain ->
  lenZ chain <= 1000001 ->
  runs (read_file fs name) d (fun d' r =>
    r = take (Z.to_nat (de_size entry)) (concat (cdata (img d) <$> chain)) /\ same d d').
Proof.
  intros Hr Hs Hne Hv Hl Hlen Hf Hdir Hh Hcv Hcl Hcn. unfold read_file. apply runs_bind.
  eapply runs_mono; [by apply (resolve_runs d name l entry)|]. intros d1 r [-> Hs1]. rewrite Hdir.
  destruct chain as [|c chain]; [done|]. injection Hh as <-. apply runs_bind.
  eapply runs_mono; [apply (chain_loop_runs chain); [apply Hs1|done| |unfold SAFETY, lenZ in *; cbn [length] in Hcn; lia]|].
  { revert Hcl. apply linked_ext. intros x _. by apply fatv_same. }
  intros d2 raw [-> Hs2]. apply runs_ok. split; [|by eapply same_trans]. cbn [app]. do 2 f_equal.
  apply list_fmap_ext. intros. by apply cdata_same.
Qed.

(** The new entry is the first one of that name. *)
Lemma find_created d d' name rl k p es first size rest :
  ready d -> pack_short_name name = Ok p -> last name <> Some 46 -> fits 32 first -> fits 32 size ->
  dir_scan (take k (slots_of (cdata (img d) rc))) [] [] = Some ([], es) ->
  Forall (fun e => eq_ignore_case (de_name e) name = false) es ->
  cdata (img d') rc = concat (take k (slots_of (cdata (img d) rc))) ++ new_entry p first size ++ rest ->
  exists i, list_find (fun e => eq_ignore_case (de_name e) name = true)
    (parse_dir_entries (concat (cdata (img d') <$> (rc :: rl)))) =
    Some (i, mkDirEntry (to_upper <$> name) false size first).
Proof.
  intros Hr Hp Hdot Hf Hs Hsc Hes Hroot.
  destruct (slots_of_spec _ _ (cdata_len d rc Hr)) as (_ & H32 & _).
  destruct (dir_step_new name p first size es Hp Hdot Hf Hs) as (Hel & _ & Hst).
  destruct (parse_dir_new _ _ (rest ++ concat (cdata (img d') <$> rl)) es _ (Forall_take _ k _ H32) Hsc Hel Hst) as [more Hparse].
  eexists. rewrite fmap_cons. cbn [concat]. rewrite Hroot, <- !app_assoc, Hparse.
  apply list_find_new. { eapply Forall_impl; [exact Hes|]. by intros e ->. }
  unfold eq_ignore_case. apply bool_decide_eq_true_2. cbn [de_name]. rewrite <- list_fmap_compose.
  apply list_fmap_ext. intros. apply to_lower_upper.
Qed.

(** C3. A created FAT32 file is read back.  On a volume whose root directory takes the
    file (its name is not there yet, and the slot that is chosen follows no
    pending long name) and that has enough free clusters, [create_root_file]
    returns, [read_file] then returns exactly the bytes written, and every
    cluster that was in use keeps its FAT entry and, the first root directory
    cluster apart, its contents. *)
Theorem fat_create_read d name rl k data fuel :
  ready d -> takes_file d name rl k ->
  data <> [] -> bytes_ok data -> fits 32 (lenZ data) ->
  clusters_for data <= lenZ (frees (img d)) -> clusters_for data <= 1000001 ->
  exists d', create_root_file fs (S fuel) name data d = Ret (d', Ok tt) /\ keeps rc d d' /\
    exists d'', read_file fs name d' = Ret (d'', Ok data) /\ same d' d''.
Proof.
  intros Hr [Hdot Hv Hu Hl Hll (p & es & Hp & Hsl & Hsc & Hes)] Hne Hok Hsz Hfr Hnc.
  destruct (create_runs d name rl k p data fuel) as (d' & [] & E & R & L & C & K & rest & Hroot); try done.
  exists d'. split; [done|]. split; [done|].
  set (chain := take (Z.to_nat (clusters_for data)) (frees (img d))) in *. destruct (short_name_pack name p [] Hp Hdot) as (_ & _ & _ & _ & Hns & Hnn).
  assert (Hcv : Forall valid chain) by (apply Forall_take, Forall_forall; intros; by eapply frees_valid).
  destruct chain as [|c ch] eqn:Hch; [done|]. cbn [head default from_option id] in Hroot.
  destruct (read_file_runs d' name rl (mkDirEntry (to_upper <$> name) false (lenZ data) c) (c :: ch)) as (d'' & r & E' & -> & Hs');
    try done.
  - revert Hl. apply linked_ext. intros x Hx. apply K; [exact (proj1 (Forall_forall _ _) Hv x Hx)|exact (proj1 (Forall_forall _ _) Hu x Hx)].
  - apply (find_created d d' name rl k p es c (lenZ data) rest); try done. apply valid_fits. by apply Forall_cons in Hcv as [].
  - rewrite <- Hch. unfold chain, lenZ in *. rewrite length_take. lia.
  - exists d''. split; [|done]. rewrite E'. cbn [de_size]. unfold lenZ. by rewrite Nat2Z.id, C.
Qed.

(** Property. An empty file cannot be read back.  [create_root_file] accepts empty data
    and records the file with first cluster 0; reading that file panics,
    because [read_chain] starts at cluster 0 and [cluster_to_lba] subtracts
    2 from it. *)
Theorem fat_empty_file_panics d name rl k fuel :
  ready d -> takes_file d name rl k ->
  exists d', create_root_file fs (S fuel) name [] d = Ret (d', Ok tt) /\ read_file fs name d' = Panic.
Proof.
  intros Hr [Hdot Hv Hu Hl Hll (p & es & Hp & Hsl & Hsc & Hes)].
  destruct (dir_step_new name p 0 0 [] Hp Hdot) as (Hel & Heo & _); [done..|].
  destruct (short_name_pack name p [] Hp Hdot) as (_ & _ & _ & _ & Hns & Hnn).
  assert (Hrv : valid rc) by (by apply Forall_cons in Hv as []).
  destruct (upsert_runs fuel p 0 0 rc k d) as (d' & [] & E & R & (rest & Hroot) & O); [done..|].
  exists d'. split; [unfold create_root_file; by rewrite Hp|].
  destruct (outside_cluster rc d d' Hrv O) as (_ & _ & Of).
  destruct (resolve_runs d' name rl (mkDirEntry (to_upper <$> name) false 0 0)) as (d1 & r & E1 & -> & _); try done.
  - revert Hl. apply linked_ext. intros x Hx. apply Of, valid_in_fat. exact (proj1 (Forall_forall _ _) Hv x Hx).
  - by apply (find_created d d' name rl k p es 0 0 rest).
  - unfold read_file. by rewrite (mbindM_Ret _ _ _ _ _ E1).
Qed.
End volume.

(** * A witness for the FAT32 write path

    A small volume on the ATA driver: two FATs of one sector, clusters of one
    sector, and a root directory with one file. *)

From S2P Require Import Ports Ata.

Definition demo_fs : Fat32 := mkFat32 0 0 (mkBpb 512 1 1 2 4096 1 2 1 []) 3 1.

Definition pad512 (l : list Z) : list Z := l ++ replicate (512 - length l) 0.
Definition demo_fat : list Z := pad512 (le_bytes 4 0x0FFFFFF8 ++ le_bytes 4 0x0FFFFFFF ++ le_bytes 4 0x0FFFFFFF).
Definition demo_root : list Z := pad512 (new_entry (bstr "OLD     TXT") 0 0).
Definition demo_media (l : Z) : list Z :=
  if bool_decide (l = 1 \/ l = 2) then demo_fat
  else if bool_decide (l = 3) then demo_root else replicate 512 0.
Definition demo_volume : ata ide :=
  mkAta (mkIde demo_media 0 0 0 0 0 Idle) (Some [mkDisk Primary Master [] [] 4096]).

Lemma sector_check (l : list Z) :
  bool_decide (lenZ l = 512) && forallb (fun b => bool_decide (0 <= b < 256)) l = true -> lenZ l = 512 /\ bytes_ok l.
Proof.
  intros [Hl Hb]%andb_true_iff. split; [by apply bool_decide_eq_true in Hl|]. apply Forall_forall. intros x Hx.
  rewrite forallb_forall in Hb. specialize (Hb x (proj1 (list_elem_of_In _ _) Hx)). by apply bool_decide_eq_true in Hb.
Qed.
Lemma demo_volume_ready : ready demo_fs demo_volume.
Proof.
  split; [done|]. split; [eexists; split_and!; done|]. intros l. apply sector_check. cbn [a_hw demo_volume media].
  unfold demo_media. destruct (bool_decide (l = 1 \/ l = 2)); [by vm_compute|].
  by destruct (bool_decide (l = 3)); vm_compute.
Qed.
Lemma demo_geometry : geometry demo_fs.
Proof. split; cbn; lia. Qed.
Lemma demo_takes : takes_file demo_fs demo_volume (bstr "hello.txt") [] 1.
Proof.
  split.
  - done.
  - repeat constructor; cbn; lia.
  - repeat constructor; vm_compute; discriminate.
  - vm_compute. reflexivity.
  - vm_compute. discriminate.
  - eexists _, _. split; [vm_compute; reflexivity|]. split; [vm_compute; reflexivity|].
    split; [vm_compute; reflexivity|]. repeat constructor.
Qed.

Lemma fat_create_read_witness :
  exists d', create_root_file demo_fs 1 (bstr "hello.txt") (replicate 700 65) demo_volume = Ret (d', Ok tt) /\
    keeps demo_fs 2 demo_volume d' /\
    exists d'', read_file demo_fs (bstr "hello.txt") d' = Ret (d'', Ok (replicate 700 65)) /\ same demo_fs d' d''.
Proof.
  apply (fat_create_read demo_fs demo_geometry demo_volume (bstr "hello.txt") [] 1 (replicate 700 65) 0
           demo_volume_ready demo_takes).
  - done.
  - apply Forall_replicate. unfold byte_ok. lia.
  - vm_compute. split; [discriminate|reflexivity].
  - vm_compute. discriminate.
  - vm_compute. discriminate.
Defined.

Lemma fat_empty_file_panics_witness :
  exists d', create_root_file demo_fs 1 (bstr "hello.txt") [] demo_volume = Ret (d', Ok tt) /\
    read_file demo_fs (bstr "hello.txt") d' = Panic.
Proof.
  exact (fat_empty_file_panics demo_fs demo_geometry demo_volume (bstr "hello.txt") [] 1 0
           demo_volume_ready demo_takes).
Defined.
