(* ===== verification/Syscall.v ===== *)
(** * syscall/mod.rs: the system calls

    The dispatcher of src/kernel/src/syscall/mod.rs, its handlers, and
    [sys_fb_present] of src/kernel/src/gfx/mod.rs, over the whole state of the
    kernel that a system call reaches.

    What the rest of the machine does while a call waits is an argument
    ([env]): the results of polling the keyboard, with the effect of the
    other threads each time the queue is empty and the call yields, the
    successive readings of the clock, and the rounds of a waiting receive.
    A call that still waits when they end answers [Waiting]. *)

From S2P Require Import Prelude Str Phys FrameAllocator FrameRefcount Paging AddressSpace Signal.
From S2P Require Import ProcessTable Ipc Queue Gfx Elf Executor Time Process.
From S2P Require Import BlockDev Ramfs Fat32 Thread Exec Fb.
Local Open Scope Z_scope.

Module nr.
Definition WRITE : Z := 1.
Definition READ : Z := 2.
Definition EXIT : Z := 3.
Definition GETPID : Z := 4.
Definition UPTIME : Z := 5.
Definition FS_READ : Z := 10.
Definition FS_LIST : Z := 11.
Definition FORK : Z := 20.
Definition EXEC : Z := 21.
Definition WAIT : Z := 22.
Definition KILL : Z := 23.
Definition YIELD : Z := 24.
Definition SLEEP_MS : Z := 25.
Definition BRK : Z := 26.
Definition GETUID : Z := 30.
Definition GETEUID : Z := 31.
Definition GETGID : Z := 32.
Definition GETEGID : Z := 33.
Definition SETUID : Z := 34.
Definition SETGID : Z := 35.
Definition FB_ACQUIRE : Z := 40.
Definition FB_PRESENT : Z := 41.
Definition INPUT_POLL : Z := 42.
Definition SHM_CREATE : Z := 43.
Definition SHM_MAP : Z := 44.
Definition SHM_UNMAP : Z := 45.
Definition IPC_SEND : Z := 46.
Definition IPC_RECV : Z := 47.
End nr.

(** How a call ends: with a value in the caller's register, with control
    gone elsewhere, or not yet. *)
Inductive sysret := RetVal (v : Z) | NoReturn (c : control) | Waiting.

(** The kernel's state and the framebuffer driver, when there is one. *)
Record sys (D : Type) `{ArrayQueue InputEventAbi} `{ArrayQueue Z} := mkSys {
  y_k : kst D;
  y_fb : option Fb;
}.
Arguments mkSys {D _ _} _ _.
Arguments y_k {D _ _} _.
Arguments y_fb {D _ _} _.

Section syscall.
Context {D : Type} `{ArrayQueue InputEventAbi} `{ArrayQueue Z} `{X86Paging} `{UserMem} `{BlockDev D}.
Abbreviation S := (sys D).
Abbreviation Y := (M S Z).

Record env := mkEnv {
  e_user_code : Z;
  e_user_data : Z;
  e_kstack : Z;
  e_keys : list (Z + (S -> S));
  e_uptimes : list Z;
  e_others : list (istate -> istate);
  e_resume : S -> S;
}.

(** ** Parts of the state *)

Definition y_ps (s : S) : pstate := k_ps (y_k s).
Definition y_i (s : S) : istate := ps_i (y_ps s).
Definition y_table (s : S) : ProcessTable := i_table (y_i s).
Definition set_y_k (k : kst D) (s : S) : S := mkSys k (y_fb s).
Definition set_y_ps (p : pstate) (s : S) : S := set_y_k (set_k_ps p (y_k s)) s.
Definition set_y_i (i : istate) (s : S) : S := set_y_ps (set_ps_i i (y_ps s)) s.
Definition set_y_table (t : ProcessTable) (s : S) : S := set_y_i (set_i_table t (y_i s)) s.
Definition set_y_mem (k : kmem) (s : S) : S := set_y_i (set_i_mem k (y_i s)) s.
Definition set_y_fb (f : option Fb) (s : S) : S := mkSys (y_k s) f.
Definition print_console (x : str) (s : S) : S :=
  let k := y_k s in
  set_y_k (mkKst (k_ps k) (k_fs k) (k_fat k) (k_disk k) (k_paths k) (k_threads k)
             (k_console k ++ x) (k_serial k) (k_count k)) s.
Definition print_serial (x : str) (s : S) : S :=
  let k := y_k s in
  set_y_k (mkKst (k_ps k) (k_fs k) (k_fat k) (k_disk k) (k_paths k) (k_threads k)
             (k_console k) (k_serial k ++ x) (k_count k)) s.
Definition set_y_threads (th : Thread.Scheduler) (s : S) : S :=
  let k := y_k s in
  set_y_k (mkKst (k_ps k) (k_fs k) (k_fat k) (k_disk k) (k_paths k) th
             (k_console k) (k_serial k) (k_count k)) s.
Definition set_y_count (n : Z) (s : S) : S :=
  let k := y_k s in
  set_y_k (mkKst (k_ps k) (k_fs k) (k_fat k) (k_disk k) (k_paths k) (k_threads k)
             (k_console k) (k_serial k) n) s.

(** A handler of another module on its part of the state. *)
Definition lift_i (h : istate -> outcome (istate * Z)) : S -> outcome (S * Z) := fun s =>
  '(i, v) ← h (y_i s); Ret (set_y_i i s, v).
Definition lift_gst (h : istate * gfx -> outcome ((istate * gfx) * Z)) : S -> outcome (S * Z) := fun s =>
  '(ig, v) ← h (y_i s, ps_gfx (y_ps s));
  Ret (set_y_ps (set_ps_gfx ig.2 (set_ps_i ig.1 (y_ps s))) s, v).

(** The bytes of a checked user slice, and a store to one. *)
Definition from_user (p n : Z) : Y (list Z) := s ← mget; mlift (uread (i_mem (y_i s)) p n).
Definition into_user (p : Z) (l : list Z) : Y unit :=
  s ← mget; k ← mlift (uwrite (i_mem (y_i s)) p l); modify (set_y_mem k).

(** [user_cstr]: the byte string at [ptr], up to its zero. *)
Fixpoint cstr_loop (n : nat) (k : kmem) (addr : Z) (acc : str) : outcome (option str) :=
  match n with
  | O => Ret None
  | Datatypes.S n' =>
      if bool_decide (2 ^ 64 <= addr) then Ret None else
      if bool_decide (USER_SPACE_MAX <= addr) then Ret None else
      b ← (l ← uread k addr 1; idx l 0);
      if bool_decide (b = 0) then Ret (Some acc) else cstr_loop n' k (addr + 1) (acc ++ encode_char b)
  end.
Definition user_cstr (k : kmem) (ptr max : Z) : outcome (option str) :=
  if bool_decide (ptr = 0) then Ret None else cstr_loop (Z.to_nat max) k ptr [].

(** ** Identity *)

Definition ident_field (f : Process -> Z) (s : S) : Z :=
  match table_current (y_table s) with Some p => f p | None => U64_MAX end.
Definition sys_getuid (s : S) : Z := ident_field uid s.
Definition sys_geteuid (s : S) : Z := ident_field euid s.
Definition sys_getgid (s : S) : Z := ident_field gid s.
Definition sys_getegid (s : S) : Z := ident_field egid s.

Definition put_current (p : Process) (s : S) : S :=
  set_y_table (put_proc (y_table s) (current (y_table s)) p) s.

Definition sys_setuid (new_uid : Z) (s : S) : S * Z :=
  match table_current (y_table s) with
  | None => (s, U64_MAX)
  | Some p =>
      if bool_decide (euid p = ROOT_UID) then
        (put_current (set_ids new_uid (gid p) new_uid (egid p) p) s, 0)
      else if bool_decide (new_uid = uid p) then
        (put_current (set_ids (uid p) (gid p) new_uid (egid p) p) s, 0)
      else (s, U64_MAX)
  end.

Definition sys_setgid (new_gid : Z) (s : S) : S * Z :=
  match table_current (y_table s) with
  | None => (s, U64_MAX)
  | Some p =>
      if bool_decide (euid p = ROOT_UID) then
        (put_current (set_ids (uid p) new_gid (euid p) new_gid p) s, 0)
      else if bool_decide (new_gid = gid p) then
        (put_current (set_ids (uid p) (gid p) (euid p) new_gid p) s, 0)
      else (s, U64_MAX)
  end.

(** ** Input and output *)

Definition sys_write (fd buf len : Z) : S -> outcome (S * Z) := fn_ret (
  match user_slice buf len with
  | None => mfail U64_MAX
  | Some (p, n) =>
      bs ← from_user p n;
      match from_utf8 bs with
      | None => mfail U64_MAX
      | Some x =>
          if bool_decide (fd = 1) then _ ← modify (print_console x); mok len
          else if bool_decide (fd = 2) then _ ← modify (print_serial x); mok len
          else mfail U64_MAX
      end
  end).

(** The line loop: [None] when the call still waits. *)
Fixpoint read_loop (keys : list (Z + (S -> S))) (p len written : Z) : Y (option Z) :=
  match keys with
  | [] => mok None
  | inr others :: keys' => _ ← modify others; read_loop keys' p len written
  | inl ch :: keys' =>
      if bool_decide (ch = 8 \/ ch = 127) then
        if bool_decide (0 < written)
        then _ ← modify (print_console [8; 32; 8]); read_loop keys' p len (written - 1)
        else read_loop keys' p len written
      else
        _ ← modify (print_console (encode_char ch));
        let byte := if bool_decide (ch = 13) then 10 else wrap 8 ch in
        _ ← (if bool_decide (written < len) then into_user (p + written) [byte] else mpanic);
        let written := written + 1 in
        if bool_decide (byte = 10 \/ len <= written) then mok (Some written)
        else read_loop keys' p len written
  end.

Definition sys_read (e : env) (fd buf len : Z) : S -> outcome (S * sysret) := fun s =>
  if bool_decide (fd <> 0) then Ret (s, RetVal U64_MAX) else
  match user_slice_mut buf len with
  | None => Ret (s, RetVal U64_MAX)
  | Some (p, n) =>
      if bool_decide (n = 0) then Ret (s, RetVal 0) else
      match read_loop (e_keys e) p n 0 s with
      | Ret (s', Ok (Some w)) => Ret (s', RetVal w)
      | Ret (s', Ok None) => Ret (s', Waiting)
      | Ret (s', Err v) => Ret (s', RetVal v)
      | Panic => Panic
      end
  end.

Definition sys_fs_read (path_ptr path_len out_buf out_max : Z) : S -> outcome (S * Z) := fn_ret (
  match user_slice path_ptr path_len with
  | None => mfail U64_MAX
  | Some (p, n) =>
      bs ← from_user p n;
      match from_utf8 bs with
      | None => mfail U64_MAX
      | Some path =>
          s ← mget;
          match fs_read path (k_fs (y_k s)) with
          | Err _ => mfail U64_MAX
          | Ok data =>
              match user_slice_mut out_buf out_max with
              | None => mfail U64_MAX
              | Some (o, max) =>
                  let n := Z.min (lenZ data) max in
                  _ ← into_user o (take (Z.to_nat n) data);
                  mok n
              end
          end
      end
  end).

(** The names, one a line, while the next one fits. *)
Fixpoint list_loop (names : list str) (o max written : Z) : Y Z :=
  match names with
  | [] => mok written
  | nm :: names' =>
      if bool_decide (max < written + lenZ nm + 1) then mok written else
      _ ← into_user (o + written) nm;
      _ ← into_user (o + written + lenZ nm) [10];
      list_loop names' o max (written + lenZ nm + 1)
  end.
Definition sys_fs_list (out_buf out_max : Z) : S -> outcome (S * Z) := fn_ret (
  match user_slice_mut out_buf out_max with
  | None => mfail U64_MAX
  | Some (o, max) => s ← mget; list_loop (fs_list (k_fs (y_k s))) o max 0
  end).

(** ** Processes *)

(** [match r { Ok(v) => v, Err(_) => u64::MAX }] *)
Definition or_max {E : Type} (c : M S E Z) : S -> outcome (S * Z) := fun s =>
  match c s with
  | Ret (s', Ok v) => Ret (s', v)
  | Ret (s', Err _) => Ret (s', U64_MAX)
  | Panic => Panic
  end.
Definition on_k {E A : Type} (c : M (kst D) E A) : M S E A := zoom y_k set_y_k c.

Definition sys_fork (e : env) : S -> outcome (S * Z) := or_max (on_k (on_ps (fork (e_kstack e)))).

Definition sys_exec (e : env) (path_ptr path_len : Z) : S -> outcome (S * Z) := fn_ret (
  match user_slice path_ptr path_len with
  | None => mfail U64_MAX
  | Some (p, n) =>
      bs ← from_user p n;
      match from_utf8 bs with
      | None => mfail U64_MAX
      | Some path =>
          s ← mget;
          let parent := current_pid (y_table s) in
          r ← try_ (on_k (exec_from_search (e_user_code e) (e_user_data e) (e_kstack e) path parent));
          match (r : result Z string) with
          | Ok pid => mok pid
          | Err _ => mfail U64_MAX
          end
      end
  end).

Definition sys_wait : S -> outcome (S * Z) := fun s =>
  '(p, r) ← wait_any (current_pid (y_table s)) (y_ps s);
  Ret (set_y_ps p s,
       match r with
       | Some (pid, code) => Z.lor (Z.shiftl pid 32) (wrap 32 code)
       | None => U64_MAX
       end).

Definition sys_kill (pid sig : Z) (s : S) : S * Z :=
  match from_num (wrap 32 sig) with
  | None => (s, U64_MAX)
  | Some sg =>
      let '(t, r) := kill (wrap 32 pid) sg (y_table s) in
      (set_y_table t s, match r with Ok _ => 0 | Err _ => U64_MAX end)
  end.

Definition sys_exit (code : Z) (s : S) : outcome (S * control) :=
  '(p, c) ← exit_current code (y_ps s); Ret (set_y_ps p s, c).

(** The readings after the first one: still asleep when they end. *)
Fixpoint sleep_loop (start ms : Z) (readings : list Z) : outcome bool :=
  match readings with
  | [] => Ret false
  | u :: us => d ← u -! start; if bool_decide (d < ms) then sleep_loop start ms us else Ret true
  end.
Definition sys_sleep_ms (e : env) (ms : Z) (s : S) : outcome sysret :=
  start ← uptime_ms (ps_clock (y_ps s));
  woken ← sleep_loop start ms (e_uptimes e);
  Ret (if (woken : bool) then RetVal 0 else Waiting).

Definition sys_brk (_addr : Z) : Z := 0.

(** ** FB_PRESENT *)

(** The [words] pixels of page [i] of the back buffer, at [pa]. *)
Definition present_page (m : phys) (pitch i pa words : Z) (f : Fb) : outcome Fb :=
  ofold (fun f j =>
    let pixel_index := (i * 4096 + j * 4) / 4 in
    if bool_decide (pitch = 0) then Panic else
    let y := wrap 32 (pixel_index / pitch) in
    let x := wrap 32 (pixel_index mod pitch) in
    if bool_decide (y < height f /\ x < width f)
    then put_pixel x y (of_le (load_bytes m (pa + j * 4) 4)) f else Ret f)
    f (range 0 words).

Fixpoint present_pages (m : phys) (pitch buffer_len i : Z) (frames : list Z) (copied : Z) (f : Fb) : outcome Fb :=
  match frames with
  | [] => Ret f
  | pa :: frames' =>
      left_ ← buffer_len -! copied;
      let bytes_in_page := Z.min 4096 left_ in
      f ← present_page m pitch i pa (bytes_in_page / 4) f;
      present_pages m pitch buffer_len (i + 1) frames' (copied + bytes_in_page) f
  end.

Definition sys_fb_present (rect_ptr : Z) : S -> outcome (S * Z) := fn_ret (
  s ← mget;
  let g := ps_gfx (y_ps s) in
  if bool_decide (fb_owner g <> current_pid (y_table s)) then mfail U64_MAX else
  _ ← (if bool_decide (rect_ptr = 0) then mok tt else
       match user_slice rect_ptr 16 with
       | None => mfail U64_MAX
       | Some (p, n) => _ ← from_user p n; mok tt
       end);
  match y_fb s with
  | None => mok 0
  | Some f =>
      pitch ← mlift (b ← pitch_bytes f; Ret (b / 4));
      f ← mlift (present_pages (km_mem (i_mem (y_i s))) pitch (fb_backbuf_len g) 0 (fb_backbuf_frames g) 0 f);
      f ← mlift (commit f);
      f ← mlift (present f);
      _ ← modify (set_y_fb (Some f));
      mok 0
  end).

(** ** The dispatcher *)

Definition ret_val (o : outcome (S * Z)) : outcome (S * sysret) := '(s, v) ← o; Ret (s, RetVal v).

Definition sys_yield (e : env) (s : S) : outcome (S * Z) :=
  '(th, _) ← Thread.yield_now (k_threads (y_k s));
  Ret (e_resume e (set_y_threads th s), 0).

Definition i32_of (x : Z) : Z := let y := wrap 32 x in if bool_decide (2 ^ 31 <= y) then y - 2 ^ 32 else y.

Definition syscall_dispatch (e : env) (n a1 a2 a3 a4 : Z) (s : S) : outcome (S * sysret) :=
  c ← k_count (y_k s) +! 1 @ 64;
  let s := set_y_count c s in
  if bool_decide (n = nr.WRITE) then ret_val (sys_write a1 a2 a3 s)
  else if bool_decide (n = nr.READ) then sys_read e a1 a2 a3 s
  else if bool_decide (n = nr.EXIT) then '(s, c) ← sys_exit (i32_of a1) s; Ret (s, NoReturn c)
  else if bool_decide (n = nr.GETPID) then Ret (s, RetVal (current_pid (y_table s)))
  else if bool_decide (n = nr.UPTIME) then u ← uptime_ms (ps_clock (y_ps s)); Ret (s, RetVal u)
  else if bool_decide (n = nr.FS_READ) then ret_val (sys_fs_read a1 a2 a3 a4 s)
  else if bool_decide (n = nr.FS_LIST) then ret_val (sys_fs_list a1 a2 s)
  else if bool_decide (n = nr.FORK) then ret_val (sys_fork e s)
  else if bool_decide (n = nr.EXEC) then ret_val (sys_exec e a1 a2 s)
  else if bool_decide (n = nr.WAIT) then ret_val (sys_wait s)
  else if bool_decide (n = nr.KILL) then let '(s, v) := sys_kill a1 a2 s in Ret (s, RetVal v)
  else if bool_decide (n = nr.YIELD) then ret_val (sys_yield e s)
  else if bool_decide (n = nr.SLEEP_MS) then r ← sys_sleep_ms e a1 s; Ret (s, r)
  else if bool_decide (n = nr.BRK) then Ret (s, RetVal (sys_brk a1))
  else if bool_decide (n = nr.GETUID) then Ret (s, RetVal (sys_getuid s))
  else if bool_decide (n = nr.GETEUID) then Ret (s, RetVal (sys_geteuid s))
  else if bool_decide (n = nr.GETGID) then Ret (s, RetVal (sys_getgid s))
  else if bool_decide (n = nr.GETEGID) then Ret (s, RetVal (sys_getegid s))
  else if bool_decide (n = nr.SETUID) then let '(s, v) := sys_setuid (wrap 32 a1) s in Ret (s, RetVal v)
  else if bool_decide (n = nr.SETGID) then let '(s, v) := sys_setgid (wrap 32 a1) s in Ret (s, RetVal v)
  else if bool_decide (n = nr.FB_ACQUIRE) then ret_val (lift_gst (sys_fb_acquire a1) s)
  else if bool_decide (n = nr.FB_PRESENT) then ret_val (sys_fb_present a1 s)
  else if bool_decide (n = nr.INPUT_POLL) then ret_val (lift_gst (sys_input_poll a1 a2) s)
  else if bool_decide (n = nr.SHM_CREATE) then ret_val (lift_i (sys_shm_create a1) s)
  else if bool_decide (n = nr.SHM_MAP) then ret_val (lift_i (sys_shm_map a1 a2) s)
  else if bool_decide (n = nr.SHM_UNMAP) then ret_val (lift_i (sys_shm_unmap a1) s)
  else if bool_decide (n = nr.IPC_SEND) then ret_val (lift_i (sys_ipc_send a1 a2 a3) s)
  else if bool_decide (n = nr.IPC_RECV) then
    '(i, r) ← sys_ipc_recv (e_others e) a1 a2 a3 (y_i s);
    Ret (set_y_i i s, match r with Some v => RetVal v | None => Waiting end)
  else Ret (s, RetVal U64_MAX).

End syscall.
