(* ===== verification/SyscallCorrect.v ===== *)
(** * syscall/mod.rs: identities

    Which system call can change the user and group of which process.  Every
    handler is walked over with the relations of [Steps]: the calls that do
    not create processes leave at most the identities that were there, and
    [setuid] and [setgid] change the caller's only, by their rule. *)

From S2P Require Import Prelude Steps Str Phys FrameAllocator FrameRefcount Paging AddressSpace Signal.
From S2P Require Import ProcessTable Ipc Queue Gfx Elf Executor Time Process.
From S2P Require Import BlockDev Ramfs Fat32 Thread Exec Fb Syscall.
Local Open Scope Z_scope.

Definition ident (p : Process) : Z * Z * Z * Z := (uid p, gid p, euid p, egid p).
Definition idents (t : ProcessTable) : gmap Z (Z * Z * Z * Z) := ident <$> procs t.

Lemma idents_put t i p p' :
  procs t !! i = Some p -> ident p' = ident p -> idents (put_proc t i p') = idents t.
Proof.
  intros Hp Hi. unfold idents, put_proc. cbn. rewrite fmap_insert, Hi. apply insert_id.
  rewrite lookup_fmap, Hp. done.
Qed.

(** No identity is new. *)
Definition sub_t : relation ProcessTable := fun t t' => idents t' ⊆ idents t.
#[export] Instance sub_t_pre : PreOrder sub_t.
Proof. split; [intros t; unfold sub_t; reflexivity|]. intros t1 t2 t3 H1 H2. unfold sub_t in *. by etrans. Qed.

Definition sub_i : relation istate := fun s s' => sub_t (i_table s) (i_table s').
#[export] Instance sub_i_pre : PreOrder sub_i.
Proof. split; [intros s; unfold sub_i; reflexivity|]. intros s1 s2 s3 H1 H2. unfold sub_i in *. by etrans. Qed.

(** The walk over a body, with the updates that leave the table alone. *)
Ltac frame := steps_tac; try (unfold sub_i; reflexivity).

Section identities.
Context {D : Type} `{ArrayQueue InputEventAbi} `{ArrayQueue Z} `{X86Paging} `{UserMem} `{BlockDev D}.

Lemma steps_on_mem {A} (c : K A) : steps sub_i (on_mem c).
Proof. apply (steps_zoom _ (fun _ _ => True)); [apply steps_any|]. intros s t _. unfold sub_i. reflexivity. Qed.
Lemma steps_on_ipc {E} f : steps sub_i (on_ipc f : M istate E unit).
Proof. apply steps_modify. intros s. unfold sub_i. reflexivity. Qed.
Lemma steps_on_current {A} (c : KA A) : steps sub_i (on_current c).
Proof.
  intros s s' r. unfold on_current, table_current. destruct (procs _ !! _) as [p|] eqn:Hp; [|done].
  destruct (c _) as [[[k a] r1]|]; [|done]. intros [= <- _]. unfold sub_i, sub_t. cbn [i_table].
  by rewrite (idents_put _ _ p).
Qed.
Hint Resolve steps_on_mem steps_on_ipc steps_on_current : steps.

Lemma steps_free_pa pa : steps sub_i (free_pa pa).
Proof. unfold free_pa. steps_tac. Qed.
Hint Resolve steps_free_pa : steps.
Lemma steps_shm_alloc n acc : steps sub_i (shm_alloc n acc).
Proof. revert acc. induction n; intros; cbn [shm_alloc]; steps_tac. Qed.
Hint Resolve steps_shm_alloc : steps.
Lemma steps_rollback h : steps sub_i (rollback_refs h).
Proof. unfold rollback_refs. steps_tac. Qed.
Lemma steps_unmap_pages b n : steps sub_i (unmap_pages b n).
Proof. unfold unmap_pages. steps_tac. Qed.
Hint Resolve steps_rollback steps_unmap_pages : steps.
Lemma steps_map_page h b fl flags i : steps sub_i (shm_map_page h b fl flags i).
Proof. unfold shm_map_page. steps_tac. Qed.
Lemma steps_drop_ref h : steps sub_i (drop_ref h).
Proof. unfold drop_ref. steps_tac. Qed.
Hint Resolve steps_map_page steps_drop_ref : steps.
Lemma steps_recv_round me b m o : steps sub_i (recv_round me b m o).
Proof. unfold recv_round. frame. Qed.
Hint Resolve steps_recv_round : steps.
Lemma steps_recv_loop others me b m o :
  Forall (fun f => forall s, sub_i s (f s)) others -> steps sub_i (recv_loop others me b m o).
Proof.
  induction 1 as [|f others Hf Ho IH]; cbn [recv_loop]; steps_tac. apply Hf.
Qed.

(** ** The handlers of ipc/mod.rs and gfx/mod.rs *)

Definition keeps_i (h : istate -> outcome (istate * Z)) : Prop :=
  forall s s' v, h s = Ret (s', v) -> sub_i s s'.
Lemma keeps_shm_create n : keeps_i (sys_shm_create n).
Proof. intros s s' v. apply steps_fn_ret. steps_tac. Qed.
Lemma keeps_shm_map h m : keeps_i (sys_shm_map h m).
Proof. intros s s' v. apply steps_fn_ret. steps_tac. Qed.
Lemma keeps_shm_unmap p : keeps_i (sys_shm_unmap p).
Proof. intros s s' v. apply steps_fn_ret. steps_tac. Qed.
Lemma keeps_ipc_send t p n : keeps_i (sys_ipc_send t p n).
Proof. intros s s' v. apply steps_fn_ret. steps_tac. Qed.

Lemma keeps_ipc_recv others b m o s s' v :
  Forall (fun f => forall s, sub_i s (f s)) others ->
  sys_ipc_recv others b m o s = Ret (s', v) -> sub_i s s'.
Proof.
  intros Ho. unfold sys_ipc_recv. case_match; [intros [= <- _]; reflexivity|].
  destruct (recv_loop _ _ _ _ _ s) as [[s1 [r|e]]|] eqn:Er; [| |done]; intros [= <- _];
    by eapply steps_recv_loop.
Qed.

Lemma keeps_cleanup p s s' : cleanup_pid p s = Ret s' -> sub_i s s'.
Proof.
  unfold cleanup_pid. destruct (mfor _ _ _) as [[s1 r]|] eqn:Em; [|done]. intros [= <-].
  assert (Hm : steps sub_i (mfor (filter (fun m => sm_pid m = p) (shm_mappings (i_ipc s)))
                             (fun m => drop_ref (sm_handle m)))) by steps_tac.
  exact (Hm _ _ _ Em).
Qed.

Definition sub_g : relation (istate * gfx) := fun s s' => sub_i s.1 s'.1.
#[local] Instance sub_g_pre : PreOrder sub_g.
Proof. split; [intros s; unfold sub_g; reflexivity|]. intros s1 s2 s3 H1' H2'. unfold sub_g in *. by etrans. Qed.

Lemma steps_on_i {A} (c : I A) : steps sub_i c -> steps sub_g (on_i c).
Proof. intros Hc. apply (steps_zoom _ sub_i); [done|]. by intros s t. Qed.
Lemma steps_on_gfx {E} f : steps sub_g (on_gfx f : M _ E unit).
Proof. apply steps_modify. intros s. unfold sub_g. reflexivity. Qed.
Lemma steps_to_user p l : steps sub_g (to_user p l).
Proof. unfold to_user. steps_tac. unfold sub_g, sub_i. reflexivity. Qed.
Hint Resolve steps_on_i steps_on_gfx steps_to_user : steps.
Lemma steps_backbuf n : steps sub_g (backbuf_alloc n).
Proof. induction n; cbn [backbuf_alloc]; steps_tac. apply steps_on_i. steps_tac. Qed.
Lemma steps_fb_page flags ipa : steps sub_g (fb_map_page flags ipa).
Proof. unfold fb_map_page. destruct ipa. steps_tac. Qed.
Lemma steps_poll n p w : steps sub_g (poll_loop n p w).
Proof. revert w. induction n; intros; cbn [poll_loop]; steps_tac. Qed.
Hint Resolve steps_backbuf steps_fb_page steps_poll : steps.

Definition keeps_g (h : istate * gfx -> outcome ((istate * gfx) * Z)) : Prop :=
  forall s s' v, h s = Ret (s', v) -> sub_g s s'.
Lemma keeps_fb_acquire p : keeps_g (sys_fb_acquire p).
Proof. intros s s' v. apply steps_fn_ret. steps_tac. Qed.
Lemma keeps_input_poll p n : keeps_g (sys_input_poll p n).
Proof. intros s s' v. apply steps_fn_ret. steps_tac. Qed.

(** ** Processes *)

Lemma keeps_pick t n t' : pick_next t = (n, t') -> procs t' = procs t.
Proof. unfold pick_next. destruct (pick_from _ _). by intros [= _ <-]. Qed.

Lemma sub_t_procs t t' : procs t' = procs t -> sub_t t t'.
Proof. intros E. unfold sub_t, idents. by rewrite E. Qed.
Lemma sub_t_put t i p p' :
  procs t !! i = Some p -> ident p' = ident p -> sub_t t (put_proc t i p').
Proof. intros Hp Hi. unfold sub_t. by rewrite (idents_put t i p p'). Qed.

Lemma keeps_schedule_next s s' c : schedule_next s = Ret (s', c) -> sub_t (ps_table s) (ps_table s').
Proof.
  unfold schedule_next. destruct (pick_next (ps_table s)) as [n t] eqn:Hn.
  pose proof (keeps_pick _ _ _ Hn) as Ht. destruct n as [n|].
  - unfold expect. cbn. destruct (procs t !! n) as [p|]; [|done]. cbn.
    destruct (kernel_stack_top p); [|done]. intros [= <- _]. by apply sub_t_procs.
  - destruct (ps_ret_ctx _); intros [= <- _]; by apply sub_t_procs.
Qed.

Lemma keeps_exit_table code t t' : exit_table code t = Ret t' -> sub_t t t'.
Proof.
  unfold exit_table. destruct (procs t !! current t) as [p|] eqn:Hp; [|done]. cbn.
  assert (Hz : sub_t t (put_proc t (current t) (set_state (Zombie code) p))) by (by eapply sub_t_put).
  destruct (<[current t := _]> (procs t) !! parent p) as [par|] eqn:Hpar; intros [= <-]; [|done].
  etrans; [exact Hz|]. case_match.
  - etrans; [|by apply sub_t_procs]. by eapply sub_t_put.
  - by eapply sub_t_put.
Qed.

Lemma keeps_exit code s s' c : exit_current code s = Ret (s', c) -> sub_t (ps_table s) (ps_table s').
Proof.
  unfold exit_current. destruct (cleanup_pid _ _) as [i|] eqn:Hc; [|done]. apply keeps_cleanup in Hc. cbn.
  destruct (exit_table code _) as [t|] eqn:Ht; [|done]. apply keeps_exit_table in Ht.
  intros Hs%keeps_schedule_next. etrans; [exact Hc|]. etrans; [exact Ht|]. done.
Qed.

Lemma keeps_wait caller s s' r : wait_any caller s = Ret (s', r) -> sub_t (ps_table s) (ps_table s').
Proof.
  unfold wait_any. destruct (procs _ !! caller) as [p|] eqn:Hp; [|by intros [= <- _]].
  destruct (children_exited p) as [|[ch code] rest].
  { intros [= <- _]. by eapply sub_t_put. }
  assert (Hsub : sub_t (ps_table s) (mkTable (delete ch (<[caller := set_children rest p]> (procs (ps_table s))))
                                     (runnable (ps_table s)) (current (ps_table s)))).
  { etrans; [by apply (sub_t_put _ caller p (set_children rest p))|]. unfold sub_t, idents. cbn. rewrite fmap_delete.
    apply delete_subseteq. }
  destruct (_ !! ch) as [c|] in |- *; [|by intros [= <- _]].
  destruct (dropK _ _) as [[k ?]|]; [|done]. by intros [= <- _].
Qed.

Lemma keeps_kill i sg t : sub_t t (kill i sg t).1.
Proof.
  unfold kill. destruct (procs t !! i) as [p|] eqn:Hp; [|reflexivity]. case_match; cbn.
  - etrans; [|by apply sub_t_procs]. by eapply sub_t_put.
  - by eapply sub_t_put.
Qed.

(** ** New processes *)

(** From a table whose current process is [par], with the identity [x]:
    every identity was there or is [x], and [par] keeps its own. *)
Definition cur_is (x : Z * Z * Z * Z) (par : Z) (t : ProcessTable) : Prop :=
  current t = par /\ idents t !! par = Some x.
Definition grown x par : relation ProcessTable := fun t t' =>
  cur_is x par t ->
  cur_is x par t' /\ forall i y, idents t' !! i = Some y -> idents t !! i = Some y \/ y = x.
#[local] Instance grown_pre x par : PreOrder (grown x par).
Proof.
  split.
  - intros t Ht. split; [done|]. intros i y Hy. by left.
  - intros t1 t2 t3 G1 G2 Ht. destruct (G1 Ht) as [X1 I1]. destruct (G2 X1) as [X2 I2].
    split; [done|]. intros i y Hy. destruct (I2 i y Hy) as [Hy2|]; [|by right]. by apply I1.
Qed.

Lemma grown_put x par t i p : ident p = x -> grown x par t (put_proc t i p).
Proof.
  intros Hi [Hc Hx]. unfold cur_is, idents, put_proc in *. cbn. rewrite fmap_insert, Hi. split; [split; [done|]|].
  - destruct (decide (i = par)) as [->|]; [by rewrite lookup_insert_eq|by rewrite lookup_insert_ne].
  - intros j y. destruct (decide (i = j)) as [->|]; [rewrite lookup_insert_eq; intros [= <-]; by right|].
    rewrite lookup_insert_ne by done. by left.
Qed.
Lemma grown_procs x par t t' : procs t' = procs t -> current t' = current t -> grown x par t t'.
Proof.
  intros Hp Hc Ht. unfold cur_is, idents in *. rewrite Hp, Hc. split; [done|]. intros j y Hy. by left.
Qed.
Lemma grown_insert x par t p : ident p = x -> grown x par t (table_insert t p).
Proof.
  intros Hi. unfold table_insert. case_match; [|by apply grown_put].
  etrans; [by apply (grown_procs _ _ t (enqueue t (pid p)))|]. by apply grown_put.
Qed.

Definition grown_p x par : relation pstate := fun s s' => grown x par (ps_table s) (ps_table s').
#[local] Instance grown_p_pre x par : PreOrder (grown_p x par).
Proof.
  split; [intros s; unfold grown_p; reflexivity|]. intros s1 s2 s3 G1 G2. unfold grown_p in *. by etrans.
Qed.

Lemma steps_onK {A} x par (c : K A) : steps (grown_p x par) (onK c).
Proof.
  apply (steps_zoom _ (fun _ _ => True)); [apply steps_any|]. intros s t _. unfold grown_p. reflexivity.
Qed.
Lemma steps_with_space {A} x par a (c : KA A) : steps (grown_p x par) (with_space a c).
Proof.
  intros s s' r. unfold with_space. destruct (c _) as [[[k a'] [v|e]]|]; [| |done].
  - intros [= <- _]. unfold grown_p. reflexivity.
  - destruct (dropK a' k) as [[k' ?]|]; [|done]. intros [= <- _]. unfold grown_p. reflexivity.
Qed.
Lemma steps_alloc_pid x par : steps (grown_p x par) alloc_pid.
Proof. intros s s' r [= <- _]. unfold grown_p. reflexivity. Qed.
Lemma steps_on_table {E} x par f :
  (forall t, grown x par t (f t)) -> steps (grown_p x par) (on_table f : M pstate E unit).
Proof. intros Hf. apply steps_modify. intros s. apply Hf. Qed.
Hint Resolve steps_onK steps_with_space steps_alloc_pid steps_on_table : steps.

(** What is read of the table is read under the assumption. *)
Lemma steps_get_cur {E A} x par (k : pstate -> M pstate E A) :
  (forall s, cur_is x par (ps_table s) -> steps (grown_p x par) (k s)) ->
  steps (grown_p x par) (mbindM mget k).
Proof. intros Hk s s' r Hr Hc. exact (Hk s Hc s s' r Hr Hc). Qed.

Lemma cur_is_proc x par t : cur_is x par t -> exists p, procs t !! par = Some p /\ ident p = x.
Proof.
  intros [_ Hx]. unfold idents in Hx. rewrite lookup_fmap in Hx. destruct (procs t !! par) as [p|]; [|done].
  injection Hx as Hx. by exists p.
Qed.

Lemma steps_spawn x par uc ud ks nm elf : steps (grown_p x par) (spawn_from_elf uc ud ks nm elf par).
Proof.
  unfold spawn_from_elf. steps_past. steps_past. destruct a0 as [loaded space]. steps_past.
  steps_past. destruct a1 as [rsp_user space']. apply steps_get_cur. intros s Hs.
  destruct (cur_is_proc _ _ _ Hs) as (p & -> & <-). steps_tac. apply steps_on_table. intros t.
  by apply grown_insert.
Qed.

Lemma steps_fork x par ks : steps (grown_p x par) (fork ks).
Proof.
  unfold fork. steps_tac1. apply steps_get_cur. intros s Hs. pose proof Hs as [Hcur _].
  destruct (cur_is_proc _ _ _ Hs) as (p & Hp & <-). rewrite Hcur, Hp. cbn [ok_or]. apply steps_bind_ok.
  steps_tac.
  - apply steps_on_table. intros t. by apply grown_insert.
  - apply steps_on_table. intros t Ht. destruct (cur_is_proc _ _ _ Ht) as (p' & Hp' & Hi).
    rewrite Hp'. by apply grown_put.
Qed.

Definition grown_k x par : relation (kst D) := fun s s' => grown_p x par (k_ps s) (k_ps s').
#[local] Instance grown_k_pre x par : PreOrder (grown_k x par).
Proof.
  split; [intros s; unfold grown_k; reflexivity|]. intros s1 s2 s3 G1 G2. unfold grown_k in *. by etrans.
Qed.
Lemma steps_on_ps {E A} x par (c : M pstate E A) : steps (grown_p x par) c -> steps (grown_k x par) (on_ps c).
Proof. intros Hc. apply (steps_zoom _ (grown_p x par)); [done|]. by intros s t. Qed.
Lemma steps_on_kdisk {E A} x par (c : M D E A) : steps (grown_k x par) (on_kdisk c).
Proof.
  apply (steps_zoom _ (fun _ _ => True)); [apply steps_any|]. intros s t _. unfold grown_k. reflexivity.
Qed.
Hint Resolve steps_on_ps steps_on_kdisk steps_spawn : steps.

Lemma steps_fat_has x par f p : steps (grown_k x par) (fat_has f p).
Proof. unfold fat_has. steps_tac. Qed.
Hint Resolve steps_fat_has : steps.
Lemma steps_candidate x par p : steps (grown_k x par) (exec_candidate_exists p).
Proof. unfold exec_candidate_exists. steps_tac. Qed.
Hint Resolve steps_candidate : steps.
Lemma steps_exec_paths x par : steps (grown_k x par) exec_paths.
Proof. unfold exec_paths. steps_tac. unfold grown_k. reflexivity. Qed.
Lemma steps_first x par dirs nm : steps (grown_k x par) (first_existing dirs nm).
Proof. induction dirs; cbn [first_existing]; steps_tac. Qed.
Hint Resolve steps_exec_paths steps_first : steps.
Lemma steps_exec x par uc ud ks p : steps (grown_k x par) (exec_from_search uc ud ks p par).
Proof.
  assert (Hfs : forall q, steps (grown_k x par) (exec_from_fs uc ud ks q par)) by (intros; unfold exec_from_fs; steps_tac).
  assert (Hfat : forall q, steps (grown_k x par) (exec_from_fat uc ud ks q par)) by (intros; unfold exec_from_fat; steps_tac).
  unfold exec_from_search, resolve_exec_path, exec_from_any. steps_tac.
Qed.

(** ** The whole state *)

Abbreviation S := (sys D).
Definition sub_y : relation S := fun s s' => sub_t (y_table s) (y_table s').
#[local] Instance sub_y_pre : PreOrder sub_y.
Proof. split; [intros s; unfold sub_y; reflexivity|]. intros s1 s2 s3 G1 G2. unfold sub_y in *. by etrans. Qed.

Lemma steps_from_user p n : steps sub_y (from_user p n).
Proof. unfold from_user. steps_tac. Qed.
Lemma steps_into_user p l : steps sub_y (into_user p l).
Proof. unfold into_user. steps_tac. unfold sub_y. reflexivity. Qed.
Hint Resolve steps_from_user steps_into_user : steps.

Ltac frame_y := steps_tac; try (unfold sub_y; reflexivity).

Lemma keeps_write fd b n s s' v : sys_write fd b n s = Ret (s', v) -> sub_y s s'.
Proof. apply steps_fn_ret. frame_y. Qed.
Lemma keeps_fs_read a b c d s s' v : sys_fs_read a b c d s = Ret (s', v) -> sub_y s s'.
Proof. apply steps_fn_ret. frame_y. Qed.
Lemma steps_list_loop l o m w : steps sub_y (list_loop l o m w).
Proof. revert w. induction l; intros; cbn [list_loop]; frame_y. Qed.
Hint Resolve steps_list_loop : steps.
Lemma keeps_fs_list a b s s' v : sys_fs_list a b s = Ret (s', v) -> sub_y s s'.
Proof. apply steps_fn_ret. frame_y. Qed.
Lemma keeps_fb_present r s s' v : sys_fb_present r s = Ret (s', v) -> sub_y s s'.
Proof. apply steps_fn_ret. frame_y. Qed.

(** The rest of the machine changes no identity while a call waits. *)
Record env_quiet (e : env) : Prop := {
  eq_keys : Forall (fun k => match k with inr f => forall s, sub_y s (f s) | inl _ => True end) (e_keys e);
  eq_others : Forall (fun f => forall s, sub_i s (f s)) (e_others e);
  eq_resume : forall s, sub_y s (e_resume e s);
}.

Lemma steps_read_loop keys p n w :
  Forall (fun k => match k with inr f => forall s, sub_y s (f s) | inl _ => True end) keys ->
  steps sub_y (read_loop keys p n w).
Proof.
  intros Hk. revert w. induction Hk as [|[ch|f] keys Hf Hk IH]; intros; cbn [read_loop]; frame_y. apply Hf.
Qed.
Lemma keeps_read e fd b n s s' r : env_quiet e -> sys_read e fd b n s = Ret (s', r) -> sub_y s s'.
Proof.
  intros [Hk _ _]. unfold sys_read. case_bool_decide; [intros [= <- _]; reflexivity|].
  destruct (user_slice_mut b n) as [[p m]|]; [|intros [= <- _]; reflexivity].
  case_bool_decide; [intros [= <- _]; reflexivity|].
  destruct (read_loop _ _ _ _ s) as [[s1 [[w|]|v]]|] eqn:Er; [| | |done]; intros [= <- _];
    by eapply steps_read_loop.
Qed.

(** The change [setuid(a)] or [setgid(a)] may make to the caller. *)
Definition may_set (n a : Z) (p p' : Process) : Prop :=
  (n = nr.SETUID /\ (euid p = ROOT_UID \/ a = uid p) /\ ident p' = (a, gid p, a, egid p)) \/
  (n = nr.SETGID /\ (euid p = ROOT_UID \/ a = gid p) /\ ident p' = (uid p, a, euid p, a)).

(** Where an identity of the new table comes from. *)
Definition ident_from (n a : Z) (cur : Process) (t t' : ProcessTable) : Prop :=
  forall i p', procs t' !! i = Some p' ->
    (exists p, procs t !! i = Some p /\ ident p' = ident p) \/
    ((n = nr.FORK \/ n = nr.EXEC) /\ ident p' = ident cur) \/
    (i = current t /\ may_set n a cur p').

Lemma ident_lookup t i p : procs t !! i = Some p -> idents t !! i = Some (ident p).
Proof. intros Hp. unfold idents. by rewrite lookup_fmap, Hp. Qed.
Lemma ident_lookup_inv t i x : idents t !! i = Some x -> exists p, procs t !! i = Some p /\ x = ident p.
Proof. unfold idents. rewrite lookup_fmap. destruct (procs t !! i) as [p|]; [|done]. intros [= <-]. by exists p. Qed.

Lemma sub_from n a cur t t' : sub_t t t' -> ident_from n a cur t t'.
Proof.
  intros Hs i p' Hp'. left. apply ident_lookup in Hp'. eapply lookup_weaken in Hp'; [|exact Hs].
  apply ident_lookup_inv in Hp' as (p & ? & ?). by exists p.
Qed.
Lemma grown_from n a cur t t' :
  n = nr.FORK \/ n = nr.EXEC -> procs t !! current t = Some cur ->
  grown (ident cur) (current t) t t' -> ident_from n a cur t t'.
Proof.
  intros Hn Hc Hg. destruct Hg as [_ Hg]; [split; [done|by apply ident_lookup]|].
  intros i p' Hp'. apply ident_lookup in Hp'. destruct (Hg i _ Hp') as [Hp|Hx].
  - left. apply ident_lookup_inv in Hp as (p & ? & ?). by exists p.
  - right. left. done.
Qed.

Lemma setuid_from a cur (s s' : S) v :
  table_current (y_table s) = Some cur -> sys_setuid a s = (s', v) ->
  ident_from nr.SETUID a cur (y_table s) (y_table s').
Proof.
  unfold sys_setuid. intros Hc. rewrite Hc. intros E.
  assert (Hput : forall p', may_set nr.SETUID a cur p' ->
    ident_from nr.SETUID a cur (y_table s) (y_table (put_current p' s))).
  { intros p' Hm i q Hq. cbn in Hq. destruct (decide (i = current (y_table s))) as [->|].
    - rewrite lookup_insert_eq in Hq. injection Hq as <-. by right; right.
    - rewrite lookup_insert_ne in Hq by done. left. by exists q. }
  repeat case_bool_decide; injection E as <- <-.
  - apply Hput. left. split_and!; [done|by left|done].
  - apply Hput. left. subst a. split_and!; [done|by right|done].
  - by apply sub_from.
Qed.
Lemma setgid_from a cur (s s' : S) v :
  table_current (y_table s) = Some cur -> sys_setgid a s = (s', v) ->
  ident_from nr.SETGID a cur (y_table s) (y_table s').
Proof.
  unfold sys_setgid. intros Hc. rewrite Hc. intros E.
  assert (Hput : forall p', may_set nr.SETGID a cur p' ->
    ident_from nr.SETGID a cur (y_table s) (y_table (put_current p' s))).
  { intros p' Hm i q Hq. cbn in Hq. destruct (decide (i = current (y_table s))) as [->|].
    - rewrite lookup_insert_eq in Hq. injection Hq as <-. by right; right.
    - rewrite lookup_insert_ne in Hq by done. left. by exists q. }
  repeat case_bool_decide; injection E as <- <-.
  - apply Hput. right. split_and!; [done|by left|done].
  - apply Hput. right. subst a. split_and!; [done|by right|done].
  - by apply sub_from.
Qed.

Lemma fork_from e a cur (s s' : S) v :
  table_current (y_table s) = Some cur -> sys_fork e s = Ret (s', v) ->
  ident_from nr.FORK a cur (y_table s) (y_table s').
Proof.
  intros Hc. unfold sys_fork, or_max, on_k, on_ps, zoom.
  destruct (fork _ _) as [[p r]|] eqn:Ef; [|done]. intros E.
  assert (Hg : grown_p (ident cur) (current (y_table s)) (y_ps s) p) by (by eapply steps_fork).
  destruct r; injection E as <- _; (apply grown_from; [by left|done|exact Hg]).
Qed.
Definition grown_y x par : relation S := fun s s' => grown x par (y_table s) (y_table s').
#[local] Instance grown_y_pre x par : PreOrder (grown_y x par).
Proof.
  split; [intros s; unfold grown_y; reflexivity|]. intros s1 s2 s3 G1 G2. unfold grown_y in *. by etrans.
Qed.
Lemma steps_on_k {E A} x par (c : M (kst D) E A) : steps (grown_k x par) c -> steps (grown_y x par) (on_k c).
Proof. intros Hc. apply (steps_zoom _ (grown_k x par)); [done|]. by intros s t. Qed.
Lemma steps_from_user_y x par p n : steps (grown_y x par) (from_user p n).
Proof. unfold from_user. steps_tac. Qed.
Hint Resolve steps_on_k steps_from_user_y steps_exec : steps.
Lemma steps_get_cur_y {E A} x par (k : S -> M S E A) :
  (forall s, cur_is x par (y_table s) -> steps (grown_y x par) (k s)) ->
  steps (grown_y x par) (mbindM mget k).
Proof. intros Hk s s' r Hr Hc. exact (Hk s Hc s s' r Hr Hc). Qed.

Lemma exec_from e a1 a2 a cur (s s' : S) v :
  table_current (y_table s) = Some cur -> sys_exec e a1 a2 s = Ret (s', v) ->
  ident_from nr.EXEC a cur (y_table s) (y_table s').
Proof.
  intros Hc E. apply grown_from; [by right|done|].
  apply (steps_fn_ret (grown_y (ident cur) (current (y_table s)))) in E; [done|].
  destruct (user_slice a1 a2) as [[p n]|]; [|apply steps_fail; typeclasses eauto].
  steps_past. destruct (from_utf8 a0) as [path|]; [|apply steps_fail; typeclasses eauto].
  apply steps_get_cur_y. intros s1 [Hcur _]. unfold current_pid. rewrite Hcur. steps_tac.
Qed.

Lemma keeps_lift_i h (s s' : S) r :
  keeps_i h -> ret_val (lift_i h s) = Ret (s', r) -> sub_y s s'.
Proof.
  intros Hh. unfold ret_val, lift_i. destruct (h (y_i s)) as [[i v]|] eqn:Eh; [|done].
  intros [= <- _]. exact (Hh _ _ _ Eh).
Qed.
Lemma keeps_lift_g h (s s' : S) r :
  keeps_g h -> ret_val (lift_gst h s) = Ret (s', r) -> sub_y s s'.
Proof.
  intros Hh. unfold ret_val, lift_gst. destruct (h _) as [[ig v]|] eqn:Eh; [|done].
  intros [= <- _]. exact (Hh _ _ _ Eh).
Qed.
Lemma ret_val_inv (o : outcome (S * Z)) s' r : ret_val o = Ret (s', r) -> exists v, o = Ret (s', v).
Proof. unfold ret_val. destruct o as [[s v]|]; [|done]. intros [= <- _]. by exists v. Qed.

(** The dispatcher by cases: what is not a creation or a change of identity
    keeps the table's identities. *)
Lemma dispatch_from e n a1 a2 a3 a4 (s s' : S) r cur :
  env_quiet e -> table_current (y_table s) = Some cur ->
  syscall_dispatch e n a1 a2 a3 a4 s = Ret (s', r) ->
  ident_from n (wrap 32 a1) cur (y_table s) (y_table s').
Proof.
  intros He Hc. unfold syscall_dispatch. destruct (_ +! 1 @ 64) as [c|]; [|done]. obind.
  set (s1 := set_y_count c s). change (y_table s) with (y_table s1) in *. clearbody s1. clear s c.
  repeat (case_bool_decide; [subst n|]).
  all: try (intros [= <- _]; by apply sub_from).
  all: try (intros Hr; apply sub_from; by eapply keeps_read).
  all: try (intros Hr; apply sub_from; eapply keeps_lift_i; [|exact Hr];
            first [apply keeps_shm_create|apply keeps_shm_map|apply keeps_shm_unmap|apply keeps_ipc_send]).
  all: try (intros Hr; apply sub_from; eapply keeps_lift_g; [|exact Hr];
            first [apply keeps_fb_acquire|apply keeps_input_poll]).
  all: try (intros [v Hr]%ret_val_inv; apply sub_from;
            first [by eapply keeps_write|by eapply keeps_fs_read|by eapply keeps_fs_list|by eapply keeps_fb_present]).
  - destruct (sys_exit _ s1) as [[s2 c]|] eqn:Ex; [|done]. intros [= <- _]. apply sub_from.
    unfold sys_exit in Ex. destruct (exit_current _ _) as [[p c']|] eqn:Ee; [|done].
    injection Ex as <- _. by eapply keeps_exit.
  - destruct (uptime_ms _); [|done]. intros [= <- _]. by apply sub_from.
  - intros [v Hr]%ret_val_inv. by eapply fork_from.
  - intros [v Hr]%ret_val_inv. by eapply exec_from.
  - intros [v Hr]%ret_val_inv. unfold sys_wait in Hr. destruct (wait_any _ _) as [[p w]|] eqn:Ew; [|done].
    injection Hr as <- _. apply sub_from. by eapply keeps_wait.
  - destruct (sys_kill a1 a2 s1) as [s2 v] eqn:Ek. intros [= <- _]. apply sub_from.
    unfold sys_kill in Ek. destruct (from_num _) as [sg|]; [|by injection Ek as <- _].
    destruct (kill _ _ _) as [t w] eqn:Et. injection Ek as <- _.
    pose proof (keeps_kill (wrap 32 a1) sg (y_table s1)) as Hk. by rewrite Et in Hk.
  - intros [v Hr]%ret_val_inv. unfold sys_yield in Hr. destruct (Thread.yield_now _) as [[th w]|]; [|done].
    injection Hr as <- _. apply sub_from. etrans; [|apply (eq_resume _ He)]. done.
  - destruct (sys_sleep_ms e a1 s1); [|done]. intros [= <- _]. by apply sub_from.
  - destruct (sys_setuid _ s1) as [s2 v] eqn:Es. intros [= <- _]. by eapply setuid_from.
  - destruct (sys_setgid _ s1) as [s2 v] eqn:Es. intros [= <- _]. by eapply setgid_from.
  - destruct (sys_ipc_recv _ _ _ _ _) as [[i w]|] eqn:Ei; [|done]. intros [= <- _]. apply sub_from.
    apply keeps_ipc_recv in Ei; [done|apply He].
Qed.

End identities.

(** * A system call of an unprivileged process

    A machine with one process of user 1000 that runs with the effective user
    1001, at which the theorem above is applied. *)

From S2P Require Import PagingModel.
From S2P Require Import IpcCorrect.
From S2P Require Import Ports Ata.

Definition sd_proc : Process := set_ids 1000 1000 1001 1001 (ipc_proc 3).
Definition sd_table : ProcessTable := mkTable {[3 := sd_proc]} [] 3.
Definition sd_state : sys (ata ide) :=
  mkSys (mkKst (mkP _ _ (mkI ipc_kmem sd_table ipc_new) (gfx_new None) 4 0 false false clock_new execq_new)
           ∅ None demo_ata [] Thread.sched_new [] [] 0) None.
Definition sd_env : env (D := ata ide) := mkEnv 0x33 0x2b 0x9000 [] [] [] (fun s => s).
Definition sd_after : sys (ata ide) * sysret :=
  ret_or (sd_state, Waiting) (syscall_dispatch sd_env nr.SETUID 1000 0 0 0 sd_state).

Lemma sd_env_quiet : env_quiet sd_env.
Proof. split; try constructor. intros s. unfold sub_y, sub_t. reflexivity. Qed.

Lemma sd_call : syscall_dispatch sd_env nr.SETUID 1000 0 0 0 sd_state = Ret (sd_after.1, RetVal 0).
Proof. apply ret_or_snd; vm_compute; reflexivity. Qed.

