(* ===== verification/BootInfo.v ===== *)
(** * boot_info.rs: what the boot loader passed

    The multiboot2 information structure of src/kernel/src/boot_info.rs, read
    from physical memory: the tag iterator, the strings, the memory map, the
    modules and the framebuffer.  The loops over tags and over entries are
    bounded by the structure only if no size in it is zero, so they take a
    fuel and answer [None] when it ends first. *)

From S2P Require Import Prelude Str Phys FrameAllocator Font Fb.
Local Open Scope Z_scope.

Definition load_u32 (m : phys) (a : Z) : Z := of_le (load_bytes m a 4).

Record TagRef := mkTag { t_typ : Z; t_size : Z; t_ptr : Z }.
Record TagIter := mkTagIter { ti_ptr : Z; ti_end : Z }.
Record BootStruct := mkBoot { bi_addr : Z; bi_total : Z }.

Section boot.
Context (m : phys).

Definition from_addr (addr : Z) : BootStruct := mkBoot addr (load_u32 m addr).

Definition tags (b : BootStruct) : outcome TagIter :=
  p ← bi_addr b +! 8 @ 64; e ← bi_addr b +! bi_total b @ 64; Ret (mkTagIter p e).

Definition tag_next (it : TagIter) : outcome (TagIter * option TagRef) :=
  if bool_decide (ti_end it <= ti_ptr it) then Ret (it, None) else
  let typ := load_u32 m (ti_ptr it) in
  let size := load_u32 m (ti_ptr it + 4) in
  if bool_decide (typ = 0 /\ size = 8) then Ret (it, None) else
  x ← ti_ptr it +! size @ 64;
  y ← x +! 7 @ 64;
  Ret (mkTagIter (Z.land y (unot 64 7)) (ti_end it), Some (mkTag typ size (ti_ptr it))).

(** [tags().find_map(f)]: the first answer and the iterator after it. *)
Fixpoint find_tag {A} (fuel : nat) (f : TagRef -> outcome (option A)) (it : TagIter) :
    outcome (option (TagIter * option A)) :=
  match fuel with
  | O => Ret None
  | S n =>
      '(it', t) ← tag_next it;
      match t with
      | None => Ret (Some (it', None))
      | Some t =>
          r ← f t;
          match r with
          | Some a => Ret (Some (it', Some a))
          | None => find_tag n f it'
          end
      end
  end.
Definition find_first {A} (fuel : nat) (f : TagRef -> outcome (option A)) (b : BootStruct) : outcome (option (option A)) :=
  it ← tags b;
  r ← find_tag fuel f it;
  Ret (match r with Some (_, a) => Some a | None => None end).

(** The bytes before the first zero. *)
Fixpoint until_nul (l : list Z) : list Z :=
  match l with
  | [] => []
  | b :: l' => if bool_decide (b = 0) then [] else b :: until_nul l'
  end.

Definition tag_string (t : TagRef) : option str :=
  let len := Z.max (t_size t - 8) 0 in
  if bool_decide (len = 0) then Some [] else
  from_utf8 (until_nul (load_bytes m (t_ptr t + 8) (Z.to_nat len))).

Definition cmdline (fuel : nat) (b : BootStruct) : outcome (option (option str)) :=
  find_first fuel (fun t => Ret (if bool_decide (t_typ t = 1) then tag_string t else None)) b.
Definition bootloader_name (fuel : nat) (b : BootStruct) : outcome (option (option str)) :=
  find_first fuel (fun t => Ret (if bool_decide (t_typ t = 2) then tag_string t else None)) b.

(** ** The memory map *)

Definition load_area (a : Z) : MemoryArea :=
  mkArea (load_u64 m a) (load_u64 m (a + 8)) (load_u32 m (a + 16)).

Fixpoint area_loop (fuel : nat) (cur end_ entry_size : Z) : option (list MemoryArea) :=
  match fuel with
  | O => None
  | S n =>
      if bool_decide (end_ <= cur) then Some [] else
      match area_loop n (cur + entry_size) end_ entry_size with
      | Some rest => Some (load_area cur :: rest)
      | None => None
      end
  end.

(** The entries that the iterator of [memory_areas] yields. *)
Definition memory_map (fuel : nat) (b : BootStruct) : outcome (option (option (list MemoryArea))) :=
  r ← find_first fuel (fun t =>
        Ret (if bool_decide (t_typ t = 6)
             then Some (t_ptr t + 16, t_ptr t + t_size t, load_u32 m (t_ptr t + 8)) else None)) b;
  Ret (match r with
       | None => None
       | Some None => Some None
       | Some (Some (cur, end_, entry_size)) =>
           match area_loop fuel cur end_ entry_size with Some l => Some (Some l) | None => None end
       end).

(** ** Modules *)

(** A module: where it is, its length, and its name. *)
Definition module_of (t : TagRef) : outcome (option (Z * Z * str)) :=
  if bool_decide (t_typ t = 3) then
    let start := load_u32 m (t_ptr t + 8) in
    let end_ := load_u32 m (t_ptr t + 12) in
    len ← end_ -! start;
    let nlen := Z.max (t_size t - 16) 0 in
    let name := until_nul (load_bytes m (t_ptr t + 16) (Z.to_nat nlen)) in
    Ret (Some (start, len, default [] (from_utf8 name)))
  else Ret None.

Fixpoint module_loop (fuel : nat) (it : TagIter) : outcome (option (list (Z * Z * str))) :=
  match fuel with
  | O => Ret None
  | S n =>
      r ← find_tag fuel module_of it;
      match r with
      | None => Ret None
      | Some (_, None) => Ret (Some [])
      | Some (it', Some x) =>
          rest ← module_loop n it';
          Ret (match rest with Some l => Some (x :: l) | None => None end)
      end
  end.
Definition boot_modules (fuel : nat) (b : BootStruct) : outcome (option (list (Z * Z * str))) :=
  it ← tags b; module_loop fuel it.

(** ** The framebuffer *)

Definition fb_of (t : TagRef) : option FramebufferInfo :=
  if bool_decide (t_typ t = 8) then
    let p := t_ptr t in
    Some (mkFbi (load_u64 m (p + 8)) (load_u32 m (p + 16)) (load_u32 m (p + 20)) (load_u32 m (p + 24))
            (m (p + 28)) (m (p + 29)))
  else None.
Definition boot_framebuffer (fuel : nat) (b : BootStruct) : outcome (option (option FramebufferInfo)) :=
  find_first fuel (fun t => Ret (fb_of t)) b.

(** What the frame allocator is given. *)
Definition boot_view (fuel : nat) (b : BootStruct) : outcome (option BootInfo) :=
  mm ← memory_map fuel b;
  mods ← boot_modules fuel b;
  Ret (match mm, mods with
       | Some mm, Some mods => Some (mkBootInfo mm (fst <$> mods))
       | _, _ => None
       end).

End boot.

(** [frame_allocator::init] *)
Definition frame_allocator_init (bi : BootInfo) : outcome (option BitmapFrameAllocator) :=
  alloc ← new bi;
  Ret (Some alloc).

(** * boot_info.rs: the structure is read back

    The multiboot2 structure that a list of tags is laid out as, and that the
    walk above over a memory that holds it ends and finds each tag. *)


(** ** Bytes in memory *)

Definition holds (m : phys) (a : Z) (l : list Z) : Prop :=
  forall i b, l !! i = Some b -> m (a + Z.of_nat i) = b.

Lemma holds_app m a l k : holds m a (l ++ k) <-> holds m a l /\ holds m (a + lenZ l) k.
Proof.
  unfold holds, lenZ. split.
  - intros Hh. split; intros i b Hi; [apply Hh; by apply lookup_app_l_Some|].
    rewrite <- Z.add_assoc, <- Nat2Z.inj_add. apply Hh. rewrite lookup_app_r by lia.
    by replace (length l + i - length l)%nat with i by lia.
  - intros [Hl Hk] i b [Hi|[Hle Hi]]%lookup_app_Some; [by apply Hl|].
    replace (a + Z.of_nat i) with (a + Z.of_nat (length l) + Z.of_nat (i - length l)) by lia. by apply Hk.
Qed.

Lemma holds_load m a l : holds m a l -> load_bytes m a (length l) = l.
Proof.
  intros Hh. unfold load_bytes. apply list_eq. intros i. rewrite list_lookup_fmap.
  destruct (l !! i) as [b|] eqn:Hb.
  - rewrite lookup_seq_lt by (by eapply lookup_lt_Some). cbn. by rewrite (Hh i b Hb).
  - rewrite lookup_seq_ge; [done|]. by apply lookup_ge_None.
Qed.

Lemma holds_u32 m a v : holds m a (le_bytes 4 v) -> fits 32 v -> load_u32 m a = v.
Proof.
  intros Hh Hv. apply holds_load in Hh. rewrite length_le_bytes in Hh. unfold load_u32. rewrite Hh.
  by apply of_le_bytes_id.
Qed.
Lemma holds_u64 m a v : holds m a (le_bytes 8 v) -> fits 64 v -> load_u64 m a = v.
Proof.
  intros Hh Hv. apply holds_load in Hh. rewrite length_le_bytes in Hh. unfold load_u64. rewrite Hh.
  by apply of_le_bytes_id.
Qed.

(** ** The layout *)

Inductive boot_tag :=
| BCmdline (s : str)
| BLoader (s : str)
| BModule (start end_ : Z) (name : str)
| BMemMap (areas : list MemoryArea)
| BOther (ty : Z) (payload : list Z).

Definition tag_typ (t : boot_tag) : Z :=
  match t with BCmdline _ => 1 | BLoader _ => 2 | BModule _ _ _ => 3 | BMemMap _ => 6 | BOther ty _ => ty end.
Definition area_bytes (a : MemoryArea) : list Z :=
  le_bytes 8 (base_addr a) ++ le_bytes 8 (length_ a) ++ le_bytes 4 (typ a) ++ le_bytes 4 0.
Definition payload (t : boot_tag) : list Z :=
  match t with
  | BCmdline s | BLoader s => s ++ [0]
  | BModule a b n => le_bytes 4 a ++ le_bytes 4 b ++ n ++ [0]
  | BMemMap l => le_bytes 4 24 ++ le_bytes 4 0 ++ concat (area_bytes <$> l)
  | BOther _ p => p
  end.
Definition tag_size (t : boot_tag) : Z := 8 + lenZ (payload t).
Definition tag_bytes (t : boot_tag) : list Z :=
  le_bytes 4 (tag_typ t) ++ le_bytes 4 (tag_size t) ++ payload t ++
  replicate (Z.to_nat ((- lenZ (payload t)) mod 8)) 0.
Definition end_tag : list Z := le_bytes 4 0 ++ le_bytes 4 8.
Definition tags_bytes (l : list boot_tag) : list Z := concat (tag_bytes <$> l) ++ end_tag.
Definition boot_bytes (l : list boot_tag) : list Z :=
  le_bytes 4 (8 + lenZ (tags_bytes l)) ++ le_bytes 4 0 ++ tags_bytes l.

Definition text_ok (s : str) : Prop := utf8_ok s = true /\ (0 ∉ s).
Definition area_ok (a : MemoryArea) : Prop := fits 64 (base_addr a) /\ fits 64 (length_ a) /\ fits 32 (typ a).
Definition tag_ok (t : boot_tag) : Prop :=
  fits 32 (tag_size t) /\
  match t with
  | BCmdline s | BLoader s => text_ok s
  | BModule a b n => 0 <= a <= b /\ b < 2 ^ 32 /\ text_ok n
  | BMemMap l => Forall area_ok l
  | BOther ty _ => fits 32 ty /\ ty ∉ [0; 1; 2; 3; 6]
  end.

Lemma lenZ_pad {A} n (x : A) : 0 <= n -> lenZ (replicate (Z.to_nat n) x) = n.
Proof. intros. unfold lenZ. rewrite length_replicate. lia. Qed.

Lemma lenZ_tag t : lenZ (tag_bytes t) = tag_size t + (- lenZ (payload t)) mod 8 /\ lenZ (tag_bytes t) mod 8 = 0.
Proof.
  pose proof (Z.mod_pos_bound (- lenZ (payload t)) 8 ltac:(lia)) as Hm.
  assert (E : lenZ (tag_bytes t) = tag_size t + (- lenZ (payload t)) mod 8).
  { unfold tag_bytes, tag_size. rewrite !lenZ_app, !lenZ_le_bytes, lenZ_pad by lia. lia. }
  split; [done|]. rewrite E. unfold tag_size. pose proof (Z.div_mod (- lenZ (payload t)) 8 ltac:(lia)).
  replace (8 + lenZ (payload t) + - lenZ (payload t) mod 8) with ((1 - (- lenZ (payload t)) / 8) * 8) by lia.
  apply Z.mod_mul. lia.
Qed.

Lemma align8 x : fits 64 x -> Z.land x (unot 64 7) = x / 8 * 8.
Proof. exact (land_align 3 x ltac:(lia)). Qed.

(** ** The walk *)

Definition ref_of (p : Z) (t : boot_tag) : TagRef := mkTag (tag_typ t) (tag_size t) p.

Lemma tag_typ_fits t : tag_ok t -> fits 32 (tag_typ t) /\ tag_typ t <> 0.
Proof.
  intros [_ Ht]. destruct t; cbn in *; try (unfold fits; lia). destruct Ht as [? Hn]. split; [done|].
  intros ->. apply Hn. constructor.
Qed.

Lemma tag_next_tag m p e t :
  tag_ok t -> holds m p (tag_bytes t) -> p mod 8 = 0 -> 0 <= p < e -> p + lenZ (tag_bytes t) <= e -> e < 2 ^ 63 ->
  tag_next m (mkTagIter p e) = Ret (mkTagIter (p + lenZ (tag_bytes t)) e, Some (ref_of p t)).
Proof.
  intros Hok Hh Hp He Hl Hb. destruct (lenZ_tag t) as [Hlen Hmod]. pose proof Hok as [Hs _].
  destruct (tag_typ_fits t Hok) as [Hty Hty0]. unfold tag_bytes in Hh.
  apply holds_app in Hh as [H1 [H2 _]%holds_app]. rewrite lenZ_le_bytes in H2.
  unfold tag_next. cbn [ti_ptr ti_end]. rewrite bool_decide_eq_false_2 by lia.
  rewrite (holds_u32 m p _ H1 Hty), (holds_u32 m (p + 4) _ H2 Hs).
  rewrite bool_decide_eq_false_2 by tauto. pose proof (Z.mod_pos_bound (- lenZ (payload t)) 8 ltac:(lia)).
  unfold fits in Hs. rewrite add_chk_ok by lia. obind.
  assert (E : Z.land (p + tag_size t + 7) (unot 64 7) = p + lenZ (tag_bytes t)).
  { rewrite align8 by (unfold fits; lia).
    assert (exists k, p + lenZ (tag_bytes t) = 8 * k) as [k Hk].
    { exists (p / 8 + lenZ (tag_bytes t) / 8).
      pose proof (Z.div_mod p 8 ltac:(lia)). pose proof (Z.div_mod (lenZ (tag_bytes t)) 8 ltac:(lia)). lia. }
    rewrite <- (Z.div_unique (p + tag_size t + 7) 8 k (p + tag_size t + 7 - 8 * k)); lia. }
  rewrite add_chk_ok by lia. obind. by rewrite E.
Qed.

Lemma tag_next_end m p :
  holds m p end_tag -> 0 <= p -> tag_next m (mkTagIter p (p + 8)) = Ret (mkTagIter p (p + 8), None).
Proof.
  intros [H1 H2]%holds_app Hp. rewrite lenZ_le_bytes in H2. unfold tag_next. cbn [ti_ptr ti_end].
  rewrite bool_decide_eq_false_2 by lia. rewrite (holds_u32 m p 0), (holds_u32 m (p + 4) 8) by (done || (unfold fits; lia)).
  done.
Qed.

(** A walk over the tags [l] laid out at [p], the end of the structure at
    [e]. *)
Record walk (m : phys) (p e : Z) (l : list boot_tag) : Prop := {
  wk_holds : holds m p (tags_bytes l);
  wk_align : p mod 8 = 0;
  wk_end : e = p + lenZ (tags_bytes l);
  wk_low : 0 <= p;
  wk_high : e < 2 ^ 63;
  wk_ok : Forall tag_ok l;
}.

Lemma tags_bytes_cons t l : tags_bytes (t :: l) = tag_bytes t ++ tags_bytes l.
Proof. unfold tags_bytes. cbn. by rewrite <- app_assoc. Qed.

Lemma walk_next m p e t l :
  walk m p e (t :: l) ->
  tag_next m (mkTagIter p e) = Ret (mkTagIter (p + lenZ (tag_bytes t)) e, Some (ref_of p t)) /\
  holds m p (tag_bytes t) /\ walk m (p + lenZ (tag_bytes t)) e l.
Proof.
  intros [Hh Ha He Hl Hb Hok]. apply Forall_cons in Hok as [Ht Hok]. rewrite tags_bytes_cons in Hh, He.
  apply holds_app in Hh as [H1 H2]. rewrite lenZ_app in He. destruct (lenZ_tag t) as [Hlen Hmod].
  pose proof Ht as [Hs _]. unfold fits in Hs. pose proof (Z.mod_pos_bound (- lenZ (payload t)) 8 ltac:(lia)).
  assert (8 <= lenZ (tag_bytes t)) by (unfold tag_size in *; pose proof (Nat2Z.is_nonneg (length (payload t))); unfold lenZ in *; lia).
  assert (0 <= lenZ (tags_bytes l)) by (unfold lenZ; lia).
  split; [apply tag_next_tag; [done..|lia|lia|lia]|]. split; [done|].
  split; [done| |lia|lia|lia|done]. rewrite Zplus_mod, Ha, Hmod. done.
Qed.

Lemma walk_nil m p e : walk m p e [] -> tag_next m (mkTagIter p e) = Ret (mkTagIter p e, None).
Proof.
  intros [Hh Ha He Hl Hb Hok]. change (tags_bytes []) with end_tag in *. rewrite He. by apply tag_next_end.
Qed.

(** The search finds the first tag of the kind [sel] that the callback
    answers for, and stops behind it. *)
Lemma find_tag_spec {A} m (f : TagRef -> outcome (option A)) (g : Z -> boot_tag -> A) (sel : boot_tag -> bool) l p e fuel :
  (forall t p, t ∈ l -> tag_ok t -> holds m p (tag_bytes t) ->
     f (ref_of p t) = Ret (if sel t then Some (g p t) else None)) ->
  walk m p e l -> (length l < fuel)%nat ->
  (exists l1 t l2 q p', l = l1 ++ t :: l2 /\ filter (fun t => sel t = true) l1 = [] /\ sel t = true /\
     tag_ok t /\ holds m q (tag_bytes t) /\ walk m p' e l2 /\
     find_tag m fuel f (mkTagIter p e) = Ret (Some (mkTagIter p' e, Some (g q t)))) \/
  (filter (fun t => sel t = true) l = [] /\
   exists it, find_tag m fuel f (mkTagIter p e) = Ret (Some (it, None))).
Proof.
  revert p fuel. induction l as [|t l IH]; intros p fuel Hf Hw Hfuel; (destruct fuel as [|fuel]; [cbn in *; lia|]).
  { right. split; [done|]. cbn [find_tag]. rewrite (walk_nil _ _ _ Hw). obind. by eexists. }
  destruct (walk_next _ _ _ _ _ Hw) as (E & Ht & Hw'). pose proof (wk_ok _ _ _ _ Hw) as [Hok _]%Forall_cons.
  cbn [find_tag]. rewrite E. obind. rewrite (Hf t p) by (done || constructor). obind.
  destruct (sel t) eqn:Hg.
  { left. exists [], t, l, p, (p + lenZ (tag_bytes t)). done. }
  destruct (IH (p + lenZ (tag_bytes t)) fuel) as [(l1 & t' & l2 & q & p' & -> & Hl1 & Hrest)|[Hn Hit]];
    [|done|cbn in Hfuel; lia| |].
  - intros t' p' Hin. apply Hf. by constructor.
  - left. exists (t :: l1), t', l2, q, p'. split; [done|]. rewrite filter_cons_False by (by rewrite Hg). done.
  - right. rewrite filter_cons_False by (by rewrite Hg). done.
Qed.

(** ** The readers *)

Lemma until_nul_text s : 0 ∉ s -> until_nul (s ++ [0]) = s.
Proof.
  induction s as [|b s IH]; intros Hn; [done|]. cbn. apply not_elem_of_cons in Hn as [Hb Hn].
  rewrite bool_decide_eq_false_2 by done. by rewrite IH.
Qed.

Lemma holds_payload m p t : holds m p (tag_bytes t) -> holds m (p + 8) (payload t).
Proof.
  intros [_ [_ [Hp _]%holds_app]%holds_app]%holds_app. rewrite !lenZ_le_bytes in Hp.
  by replace (p + 8) with (p + Z.of_nat 4 + Z.of_nat 4) by lia.
Qed.

Lemma tag_string_text m p t s :
  payload t = s ++ [0] -> text_ok s -> holds m p (tag_bytes t) -> tag_string m (ref_of p t) = Some s.
Proof.
  intros Hpl [Hu Hn] Hh%holds_payload. rewrite Hpl in Hh. apply holds_load in Hh.
  unfold tag_string, ref_of. cbn [t_size t_ptr]. unfold tag_size. rewrite Hpl, lenZ_app.
  assert (0 <= lenZ s) by (unfold lenZ; lia). change (lenZ [0]) with 1.
  rewrite bool_decide_eq_false_2 by lia. replace (Z.to_nat _) with (length (s ++ [0])).
  2:{ rewrite length_app. unfold lenZ in *. cbn. lia. }
  rewrite Hh, until_nul_text by done. unfold from_utf8. by rewrite Hu.
Qed.

Definition sel_cmdline (t : boot_tag) : bool := match t with BCmdline _ => true | _ => false end.
Definition sel_module (t : boot_tag) : bool := match t with BModule _ _ _ => true | _ => false end.
Definition sel_map (t : boot_tag) : bool := match t with BMemMap _ => true | _ => false end.
Definition text_of (t : boot_tag) : str := match t with BCmdline s | BLoader s => s | _ => [] end.
Definition module_info (t : boot_tag) : Z * Z * str :=
  match t with BModule a b n => (a, b - a, n) | _ => (0, 0, []) end.
Definition areas_in (t : boot_tag) : list MemoryArea := match t with BMemMap l => l | _ => [] end.

(** A tag is of type [k] when it is of the kind whose type that is. *)
Lemma typ_sel t k sel :
  tag_ok t -> k ∈ [1; 3; 6] -> sel = (if bool_decide (k = 1) then sel_cmdline t
    else if bool_decide (k = 3) then sel_module t else sel_map t) ->
  bool_decide (tag_typ t = k) = sel.
Proof.
  intros [_ Hok] Hk ->. rewrite !elem_of_cons in Hk.
  destruct Hk as [->|[->|[->|Hk%elem_of_nil]]]; [| | |done];
    (destruct t; [done..|]); cbn in *; destruct Hok as [_ Hn];
    (apply bool_decide_eq_false_2; intros ->; apply Hn; set_solver).
Qed.

Lemma cmdline_reader m p t :
  tag_ok t -> holds m p (tag_bytes t) ->
  (if bool_decide (t_typ (ref_of p t) = 1) then tag_string m (ref_of p t) else None) =
  (if sel_cmdline t then Some (text_of t) else None).
Proof.
  intros Hok Hh. cbn [t_typ ref_of]. rewrite (typ_sel t 1 (sel_cmdline t)) by (done || set_solver).
  destruct t; try done. cbn. destruct Hok as [_ Hok]. by apply tag_string_text.
Qed.

Lemma module_reader m p t :
  tag_ok t -> holds m p (tag_bytes t) ->
  module_of m (ref_of p t) = Ret (if sel_module t then Some (module_info t) else None).
Proof.
  intros Hok Hh. unfold module_of. cbn [t_typ ref_of]. rewrite (typ_sel t 3 (sel_module t)) by (done || set_solver).
  destruct t as [| |a b n| |]; try done. cbn [sel_module]. destruct Hok as [_ (Hab & Hb & Hu & Hn)].
  apply holds_payload in Hh. cbn [payload] in Hh. apply holds_app in Hh as [H1 [H2 H3]%holds_app].
  rewrite !lenZ_le_bytes in *. cbn [ref_of t_ptr t_size].
  rewrite (holds_u32 m (p + 8) a H1) by (unfold fits; lia).
  replace (p + 8 + Z.of_nat 4) with (p + 12) in * by lia. rewrite (holds_u32 m (p + 12) b H2) by (unfold fits; lia).
  rewrite sub_chk_ok by lia. obind. apply holds_load in H3.
  replace (p + 16) with (p + 12 + Z.of_nat 4) by lia. replace (Z.to_nat _) with (length (n ++ [0])).
  2:{ unfold tag_size. cbn [payload]. rewrite !lenZ_app, !lenZ_le_bytes. unfold lenZ. rewrite length_app. cbn. lia. }
  rewrite H3, until_nul_text by done. unfold from_utf8. by rewrite Hu.
Qed.

(** The entries of a memory map. *)
Lemma load_area_bytes m a ar : area_ok ar -> holds m a (area_bytes ar) -> load_area m a = ar.
Proof.
  intros (H1 & H2 & H3) Hh. unfold area_bytes in Hh.
  apply holds_app in Hh as [B1 [B2 [B3 _]%holds_app]%holds_app]. rewrite !lenZ_le_bytes in *.
  unfold load_area. rewrite (holds_u64 m a _ B1 H1), (holds_u64 m (a + 8) _ B2 H2).
  replace (a + 16) with (a + Z.of_nat 8 + Z.of_nat 8) by lia. rewrite (holds_u32 _ _ _ B3 H3). by destruct ar.
Qed.

Lemma areas_cons a l : concat (area_bytes <$> a :: l) = area_bytes a ++ concat (area_bytes <$> l).
Proof. done. Qed.
Lemma lenZ_area a : lenZ (area_bytes a) = 24.
Proof. unfold area_bytes. rewrite !lenZ_app, !lenZ_le_bytes. lia. Qed.
Lemma lenZ_areas l : lenZ (concat (area_bytes <$> l)) = 24 * lenZ l.
Proof.
  induction l as [|a l IH]; [done|]. rewrite areas_cons, lenZ_app, IH, lenZ_area. unfold lenZ. cbn [length]. lia.
Qed.

Lemma area_loop_spec m a l fuel :
  Forall area_ok l -> holds m a (concat (area_bytes <$> l)) -> (length l < fuel)%nat ->
  area_loop m fuel a (a + 24 * lenZ l) 24 = Some l.
Proof.
  revert a fuel. induction l as [|ar l IH]; intros a fuel Hok Hh Hf; (destruct fuel as [|fuel]; [cbn in *; lia|]);
    cbn [area_loop].
  { by rewrite bool_decide_eq_true_2 by (unfold lenZ; cbn; lia). }
  apply Forall_cons in Hok as [Ha Hok]. rewrite areas_cons in Hh. apply holds_app in Hh as [H1 H2].
  replace (lenZ (ar :: l)) with (1 + lenZ l) by (unfold lenZ; cbn; lia).
  rewrite bool_decide_eq_false_2 by (unfold lenZ; lia).
  rewrite lenZ_area in H2. replace (a + 24 * (1 + lenZ l)) with (a + 24 + 24 * lenZ l) by lia.
  cbn in Hf. rewrite IH; [|done|done|lia]. by rewrite (load_area_bytes m a ar).
Qed.

Definition map_ref (p : Z) (t : boot_tag) : Z * Z * Z := (p + 16, p + 16 + 24 * lenZ (areas_in t), 24).

Lemma map_reader m p t :
  tag_ok t -> holds m p (tag_bytes t) ->
  (if bool_decide (t_typ (ref_of p t) = 6)
   then Some (t_ptr (ref_of p t) + 16, t_ptr (ref_of p t) + t_size (ref_of p t), load_u32 m (t_ptr (ref_of p t) + 8))
   else None) = (if sel_map t then Some (map_ref p t) else None).
Proof.
  intros Hok Hh. cbn [t_typ ref_of]. rewrite (typ_sel t 6 (sel_map t)) by (done || set_solver).
  destruct t as [| | |l|]; try done. cbn [sel_map ref_of t_ptr t_size]. apply holds_payload in Hh.
  cbn [payload] in Hh. apply holds_app in Hh as [H1 _]. rewrite (holds_u32 m (p + 8) 24 H1) by (unfold fits; lia).
  unfold map_ref, tag_size. cbn [payload areas_in]. rewrite !lenZ_app, !lenZ_le_bytes, lenZ_areas.
  do 3 f_equal. lia.
Qed.

(** ** The whole structure *)

(** A memory in which the boot loader left the tags [l] at [addr]. *)
Record boot_memory (m : phys) (addr : Z) (l : list boot_tag) : Prop := {
  bm_holds : holds m addr (boot_bytes l);
  bm_align : addr mod 8 = 0;
  bm_low : 0 <= addr;
  bm_size : lenZ (boot_bytes l) < 2 ^ 32;
  bm_high : addr + lenZ (boot_bytes l) < 2 ^ 63;
  bm_ok : Forall tag_ok l;
}.

Lemma boot_walk m addr l :
  boot_memory m addr l ->
  exists e, tags (from_addr m addr) = Ret (mkTagIter (addr + 8) e) /\ walk m (addr + 8) e l /\
    e = addr + lenZ (boot_bytes l).
Proof.
  intros [Hh Ha Hlow Hs Hb Hok].
  assert (E : lenZ (boot_bytes l) = 8 + lenZ (tags_bytes l)).
  { unfold boot_bytes. rewrite !lenZ_app, !lenZ_le_bytes. lia. }
  assert (0 <= lenZ (tags_bytes l)) by (unfold lenZ; lia).
  unfold boot_bytes in Hh. apply holds_app in Hh as [H1 [_ H2]%holds_app]. rewrite !lenZ_le_bytes in H2.
  exists (addr + lenZ (boot_bytes l)). unfold tags, from_addr. cbn [bi_addr bi_total].
  rewrite (holds_u32 m addr _ H1) by (unfold fits; lia). rewrite <- E. rewrite add_chk_ok by lia. obind.
  rewrite add_chk_ok by lia. obind. split; [done|]. split; [|done].
  split; [|rewrite Zplus_mod, Ha; done|lia..|done].
  by replace (addr + 8) with (addr + Z.of_nat 4 + Z.of_nat 4) by lia.
Qed.

Lemma tags_length l : 8 * lenZ l + 8 <= lenZ (tags_bytes l).
Proof.
  induction l as [|t l IH]; [by vm_compute|]. rewrite tags_bytes_cons, lenZ_app.
  destruct (lenZ_tag t) as [-> _]. pose proof (Z.mod_pos_bound (- lenZ (payload t)) 8 ltac:(lia)).
  unfold tag_size. assert (0 <= lenZ (payload t)) by (unfold lenZ; lia).
  replace (lenZ (t :: l)) with (1 + lenZ l) by (unfold lenZ; cbn; lia). lia.
Qed.

Lemma map_length l t : t ∈ l -> lenZ (areas_in t) <= lenZ (tags_bytes l).
Proof.
  induction 1 as [t l|t t' l Hin IH]; rewrite tags_bytes_cons, lenZ_app.
  - destruct (lenZ_tag t) as [-> _]. pose proof (Z.mod_pos_bound (- lenZ (payload t)) 8 ltac:(lia)).
    assert (0 <= lenZ (tags_bytes l)) by (unfold lenZ; lia).
    assert (lenZ (areas_in t) <= lenZ (payload t)); [|unfold tag_size; lia].
    destruct t; cbn [areas_in payload]; try (unfold lenZ; cbn; lia).
    rewrite !lenZ_app, !lenZ_le_bytes, lenZ_areas. unfold lenZ. lia.
  - assert (0 <= lenZ (tag_bytes t')) by (unfold lenZ; lia). lia.
Qed.

(** The first tag of a kind. *)
Lemma find_first_spec {A} m addr l fuel (f : TagRef -> outcome (option A)) (g : Z -> boot_tag -> A) (sel : boot_tag -> bool) :
  boot_memory m addr l -> (length l < fuel)%nat ->
  (forall t p, tag_ok t -> holds m p (tag_bytes t) -> f (ref_of p t) = Ret (if sel t then Some (g p t) else None)) ->
  (filter (fun t => sel t = true) l = [] /\ find_first m fuel f (from_addr m addr) = Ret (Some None)) \/
  (exists q t, head (filter (fun t => sel t = true) l) = Some t /\ t ∈ l /\ tag_ok t /\ sel t = true /\
    holds m q (tag_bytes t) /\ find_first m fuel f (from_addr m addr) = Ret (Some (Some (g q t)))).
Proof.
  intros Hm Hf Hg. destruct (boot_walk m addr l Hm) as (e & Et & Hw & _). unfold find_first. rewrite Et. obind.
  destruct (find_tag_spec m f g sel l (addr + 8) e fuel) as
    [(l1 & t & l2 & q & p' & -> & Hl1 & Hs & Hok & Hh & _ & ->)|[Hn (it & ->)]]; [auto|done|done| |].
  - right. exists q, t. rewrite filter_app, Hl1, filter_cons_True by done. split_and!; try done. set_solver.
  - by left.
Qed.

Lemma module_loop_spec m fuel l p e :
  walk m p e l -> (length l < fuel)%nat ->
  module_loop m fuel (mkTagIter p e) = Ret (Some (module_info <$> filter (fun t => sel_module t = true) l)).
Proof.
  revert p l. induction fuel as [|fuel IH]; intros p l Hw Hf; [lia|]. cbn [module_loop].
  destruct (find_tag_spec m (module_of m) (fun _ t => module_info t) sel_module l p e (S fuel)) as
    [(l1 & t & l2 & q & p' & -> & Hl1 & Hs & Hok & Hh & Hw2 & ->)|[Hn (it & ->)]];
    [intros; by apply module_reader|done|done| |].
  - obind. rewrite (IH p' l2) by (done || (rewrite length_app in Hf; cbn in Hf; lia)). obind.
    by rewrite filter_app, Hl1, filter_cons_True by done.
  - obind. by rewrite Hn.
Qed.


(** A tag of size zero is read for ever: no number of rounds is enough. *)
Lemma zero_size_loops {A} m p e (f : TagRef -> outcome (option A)) fuel :
  0 <= p < e -> p < 2 ^ 63 -> p mod 8 = 0 -> load_u32 m (p + 4) = 0 ->
  f (mkTag (load_u32 m p) 0 p) = Ret None ->
  find_tag m fuel f (mkTagIter p e) = Ret None.
Proof.
  intros Hp Hb Ha Hz Hf. induction fuel as [|fuel IH]; [done|]. cbn [find_tag]. unfold tag_next.
  cbn [ti_ptr ti_end]. rewrite Hz, bool_decide_eq_false_2, bool_decide_eq_false_2 by lia.
  rewrite add_chk_ok by lia. obind. rewrite add_chk_ok by lia. obind.
  rewrite align8 by (unfold fits; lia). rewrite Hf. obind.
  replace ((p + 0 + 7) / 8 * 8) with p; [done|].
  rewrite <- (Z.div_unique (p + 0 + 7) 8 (p / 8) 7); pose proof (Z.div_mod p 8 ltac:(lia)); lia.
Qed.

Lemma holds_store m a l : holds (store_bytes m a l) a l.
Proof.
  intros i b Hi. pose proof (lookup_lt_Some _ _ _ Hi). unfold store_bytes.
  rewrite bool_decide_eq_true_2 by (unfold lenZ; lia). replace (Z.to_nat _) with i by lia.
  by apply list_lookup_total_correct.
Qed.

Definition demo_tags : list boot_tag :=
  [BLoader (bstr "GRUB"); BCmdline (bstr "quiet"); BOther 8 [1; 2; 3];
   BMemMap [mkArea 0 0x9fc00 1; mkArea 0x100000 0x7ee0000 1]; BModule 0x200000 0x200100 (bstr "initrd")].
Definition demo_boot : phys := store_bytes (fun _ => 0) 0x10000 (boot_bytes demo_tags).

Lemma demo_boot_memory : boot_memory demo_boot 0x10000 demo_tags.
Proof.
  split; [apply holds_store|done..|]. unfold demo_tags.
  assert (text_ok (bstr "GRUB") /\ text_ok (bstr "quiet") /\ text_ok (bstr "initrd")) as (H1 & H2 & H3).
  { unfold text_ok. split_and!; try done; apply (bool_decide_eq_true_1 _); reflexivity. }
  repeat apply Forall_cons_2; try apply Forall_nil_2; (split; [by vm_compute|]); try done.
  - split; [done|]. by apply (bool_decide_eq_true_1 _).
  - repeat apply Forall_cons_2; try apply Forall_nil_2; done.
Qed.

