(* ===== verification/Pci.v ===== *)
(** * PCI configuration space

    kernel/src/pci/mod.rs: configuration accesses through the ports 0xCF8 and
    0xCFC, and the enumeration of the functions on the bus. *)
From S2P Require Import Prelude Ports.
Local Open Scope Z_scope.

Abbreviation CONFIG_ADDRESS := 0xCF8 (only parsing).
Abbreviation CONFIG_DATA := 0xCFC (only parsing).

Record PciAddr := mkPciAddr { pa_bus : Z; pa_dev : Z; pa_func : Z }.
#[export] Instance PciAddr_eq_dec : EqDecision PciAddr.
Proof. solve_decision. Defined.

Definition encode (a : PciAddr) (offset : Z) : Z :=
  Z.lor (Z.lor (Z.lor (Z.lor (Z.shiftl 1 31) (Z.shiftl (pa_bus a) 16)) (Z.shiftl (pa_dev a) 11))
    (Z.shiftl (pa_func a) 8)) (Z.land offset 0xFC).

Record PciDevice := mkPciDevice {
  pd_addr : PciAddr; vendor_id : Z; device_id : Z; class_code : Z; subclass : Z; prog_if : Z;
  revision : Z; header_type : Z; bars : list Z; irq_line : Z; irq_pin : Z
}.

Section pci.
Context {D : Type} `{Ports D} {E : Type}.

Definition read_u32 (a : PciAddr) (offset : Z) : M D E Z :=
  _ ← out32 CONFIG_ADDRESS (encode a offset);
  in32 CONFIG_DATA.

Definition write_u32 (a : PciAddr) (offset val : Z) : M D E unit :=
  _ ← out32 CONFIG_ADDRESS (encode a offset);
  out32 CONFIG_DATA val.

Definition read_u16 (a : PciAddr) (offset : Z) : M D E Z :=
  aligned ← read_u32 a (Z.land offset 0xFC);
  mok (Z.land (Z.shiftr aligned (Z.land offset 0x3 * 8)) 0xFFFF).

Definition write_u16 (a : PciAddr) (offset val : Z) : M D E unit :=
  let aligned_off := Z.land offset 0xFC in
  aligned ← read_u32 a aligned_off;
  let shift := Z.land offset 0x2 * 8 in
  let mask := unot 32 (wrap 32 (Z.shiftl 0xFFFF shift)) in
  write_u32 a aligned_off (Z.lor (Z.land aligned mask) (wrap 32 (Z.shiftl val shift))).

Definition read_u8 (a : PciAddr) (offset : Z) : M D E Z :=
  aligned ← read_u32 a (Z.land offset 0xFC);
  mok (Z.land (Z.shiftr aligned (Z.land offset 0x3 * 8)) 0xFF).

Definition enable_device_io_mmio_bus_master (a : PciAddr) : M D E (Z * Z) :=
  before ← read_u16 a 0x04;
  let after := Z.lor (Z.lor (Z.lor before (Z.shiftl 1 0)) (Z.shiftl 1 1)) (Z.shiftl 1 2) in
  _ ← (if negb (after =? before) then write_u16 a 0x04 after else mok tt);
  mok (before, after).

(** The loop over the six base address registers. *)
Fixpoint read_bars (a : PciAddr) (l : list Z) : M D E (list Z) :=
  match l with
  | [] => mok []
  | i :: l => b ← read_u32 a (0x10 + i * 4); r ← read_bars a l; mok (b :: r)
  end.

Definition probe_function (bus dev func : Z) : M D E (option PciDevice) :=
  let a := mkPciAddr bus dev func in
  vendor_device ← read_u32 a 0x00;
  let vendor := Z.land vendor_device 0xFFFF in
  if vendor =? 0xFFFF then mok None else
  class_reg ← read_u32 a 0x08;
  header ← read_u8 a 0x0E;
  bars ← (if Z.land header 0x7F =? 0x00 then read_bars a [0; 1; 2; 3; 4; 5] else mok (replicate 6 0));
  line ← read_u8 a 0x3C;
  pin ← read_u8 a 0x3D;
  mok (Some (mkPciDevice a vendor (wrap 16 (Z.shiftr vendor_device 16))
    (Z.land (Z.shiftr class_reg 24) 0xFF) (Z.land (Z.shiftr class_reg 16) 0xFF)
    (Z.land (Z.shiftr class_reg 8) 0xFF) (Z.land class_reg 0xFF) header bars line pin)).

(** The functions after the first. *)
Fixpoint probe_rest (bus dev : Z) (l : list Z) (out : list PciDevice) : M D E (list PciDevice) :=
  match l with
  | [] => mok out
  | func :: l =>
      r ← probe_function bus dev func;
      probe_rest bus dev l (match r with Some d => out ++ [d] | None => out end)
  end.

Definition probe_slot (bus dev : Z) (out : list PciDevice) : M D E (list PciDevice) :=
  r ← probe_function bus dev 0;
  match r with
  | None => mok out
  | Some f0 =>
      let out := out ++ [f0] in
      if Z.land (header_type f0) 0x80 =? 0 then mok out else probe_rest bus dev [1; 2; 3; 4; 5; 6; 7] out
  end.

(** The two loops of [init], over the pairs in their order. *)
Fixpoint scan (l : list (Z * Z)) (out : list PciDevice) : M D E (list PciDevice) :=
  match l with
  | [] => mok out
  | (bus, dev) :: l => out ← probe_slot bus dev out; scan l out
  end.

Definition pci_init : M D E (list PciDevice) :=
  scan (bus ← seqZ 0 256; dev ← seqZ 0 32; [(bus, dev)]) [].

End pci.

(** Lookups in the list of devices, [None] before [pci_init]. *)
Definition pci_find (devs : option (list PciDevice)) (vendor device : Z) : option PciDevice :=
  l ← devs; snd <$> list_find (fun d => vendor_id d = vendor /\ device_id d = device) l.
Definition find_class (devs : option (list PciDevice)) (class sub : Z) : option PciDevice :=
  l ← devs; snd <$> list_find (fun d => class_code d = class /\ subclass d = sub) l.

Definition class_name (d : PciDevice) : string :=
  let c := class_code d in
  let s := subclass d in
  if c =? 0x00 then "Unclassified" else
  if c =? 0x01 then
    if s =? 0x00 then "SCSI Controller" else if s =? 0x01 then "IDE Controller" else
    if s =? 0x05 then "ATA Controller" else if s =? 0x06 then "SATA Controller (AHCI)" else
    if s =? 0x08 then "NVMe Controller" else "Mass Storage" else
  if c =? 0x02 then if s =? 0x00 then "Ethernet NIC" else "Network Controller" else
  if c =? 0x03 then if s =? 0x00 then "VGA Display" else "Display Controller" else
  if c =? 0x04 then "Multimedia" else
  if c =? 0x06 then
    if s =? 0x00 then "Host Bridge" else if s =? 0x01 then "ISA Bridge" else
    if s =? 0x04 then "PCI-to-PCI Bridge" else "Bridge Device" else
  if c =? 0x0C then if s =? 0x03 then "USB Controller" else "Serial Bus" else "Other".

Definition vendor_name (id : Z) : string :=
  if id =? 0x1022 then "AMD" else if id =? 0x106B then "Apple" else if id =? 0x10DE then "NVIDIA" else
  if id =? 0x10EC then "Realtek" else if id =? 0x1234 then "QEMU (BOCHS)" else
  if id =? 0x1AF4 then "Red Hat (virtio)" else if id =? 0x1B36 then "Red Hat (QEMU)" else
  if id =? 0x14E4 then "Broadcom" else if id =? 0x15AD then "VMware" else
  if id =? 0x8086 then "Intel" else "??".

(** * Correctness of the PCI enumeration

    A bus that follows configuration mechanism 1, and the theorem that the
    enumeration finds exactly the functions that answer on it. *)

(** ** The bus *)

(** The address latch and, for each function that is there, its
    configuration registers. *)
Record bus := mkBus { latch : Z; cfg : gmap (Z * Z * Z) (gmap Z Z) }.

Definition decode (v : Z) : (Z * Z * Z) * Z :=
  (((v / 2 ^ 16) mod 256, (v / 2 ^ 11) mod 32, (v / 2 ^ 8) mod 8), (v / 4) mod 64 * 4).

Definition cfg_dword (c : gmap (Z * Z * Z) (gmap Z Z)) (f : Z * Z * Z) (off : Z) : Z :=
  match c !! f with Some r => default 0 (r !! off) | None => 0xFFFFFFFF end.

#[export] Instance bus_ports : Ports bus := {|
  p_in8 _ b := (b, 0xFF);
  p_out8 _ _ b := b;
  p_in16 _ b := (b, 0xFFFF);
  p_out16 _ _ b := b;
  p_in32 port b :=
    (b, if (port =? CONFIG_DATA) && Z.testbit (latch b) 31
        then let '(f, off) := decode (latch b) in cfg_dword (cfg b) f off else 0xFFFFFFFF);
  p_out32 port v b :=
    if port =? CONFIG_ADDRESS then mkBus v (cfg b) else
    if (port =? CONFIG_DATA) && Z.testbit (latch b) 31
    then let '(f, off) := decode (latch b) in mkBus (latch b) (alter (insert off v) f (cfg b)) else b;
|}.

Definition addr_ok (a : PciAddr) : Prop := 0 <= pa_bus a < 256 /\ 0 <= pa_dev a < 32 /\ 0 <= pa_func a < 8.
Definition key (a : PciAddr) : Z * Z * Z := (pa_bus a, pa_dev a, pa_func a).

(** ** The address register *)

Lemma lor_disjoint a b k : 0 <= k -> a mod 2 ^ k = 0 -> 0 <= b < 2 ^ k -> Z.lor a b = a + b.
Proof.
  intros Hk Ha Hb. rewrite <- Z.add_lor_land. replace (Z.land a b) with 0; [lia|]. symmetry.
  apply Z.bits_inj'. intros n Hn. rewrite Z.land_spec, Z.bits_0.
  destruct (decide (n < k)) as [Hlt|Hge].
  - rewrite (Z.div_mod a (2 ^ k)) by lia. rewrite Ha, Z.add_0_r, Z.mul_comm, Z.mul_pow2_bits_low by lia. done.
  - replace (Z.testbit b n) with false; [by rewrite andb_false_r|]. symmetry.
    rewrite <- (Z.mod_small b (2 ^ k)) by done. by rewrite Z.mod_pow2_bits_high by lia.
Qed.

Lemma align_dword off : 0 <= off < 256 -> Z.land off 0xFC = off / 4 * 4.
Proof.
  intros Ho. assert (Forall (fun off => Z.land off 0xFC = off / 4 * 4) (seqZ 0 256)) as Hall.
  { apply Forall_lookup_2. intros i x Hx. apply list_elem_of_lookup_2 in Hx. revert x Hx.
    apply (proj1 (Forall_forall _ _)). vm_compute. repeat constructor. }
  rewrite Forall_forall in Hall. apply Hall, elem_of_seqZ. lia.
Qed.

Lemma encode_sum a off :
  addr_ok a -> 0 <= off < 256 ->
  encode a off = 2 ^ 31 + pa_bus a * 2 ^ 16 + pa_dev a * 2 ^ 11 + pa_func a * 2 ^ 8 + off / 4 * 4.
Proof.
  intros (Hb & Hd & Hf) Ho. unfold encode. rewrite align_dword by done. rewrite !Z.shiftl_mul_pow2 by done.
  pose proof (Z.mul_div_le off 4 ltac:(done)). pose proof (Z.div_pos off 4 ltac:(lia) ltac:(done)).
  rewrite (lor_disjoint (1 * 2 ^ 31) _ 24) by (done || lia).
  rewrite (lor_disjoint _ (pa_dev a * 2 ^ 11) 16).
  2: done.
  2:{ replace (1 * 2 ^ 31 + pa_bus a * 2 ^ 16) with ((2 ^ 15 + pa_bus a) * 2 ^ 16) by lia. by rewrite Z.mod_mul. }
  2: lia.
  rewrite (lor_disjoint _ (pa_func a * 2 ^ 8) 11).
  2: done.
  2:{ replace (1 * 2 ^ 31 + pa_bus a * 2 ^ 16 + pa_dev a * 2 ^ 11)
        with ((2 ^ 20 + pa_bus a * 2 ^ 5 + pa_dev a) * 2 ^ 11) by lia. by rewrite Z.mod_mul. }
  2: lia.
  rewrite (lor_disjoint _ (off / 4 * 4) 8).
  2: done.
  2:{ replace (1 * 2 ^ 31 + pa_bus a * 2 ^ 16 + pa_dev a * 2 ^ 11 + pa_func a * 2 ^ 8)
        with ((2 ^ 23 + pa_bus a * 2 ^ 8 + pa_dev a * 2 ^ 3 + pa_func a) * 2 ^ 8) by lia. by rewrite Z.mod_mul. }
  2: lia. lia.
Qed.

(** Dividing a sum of fields. *)
Lemma field_div hi lo n : 0 < n -> 0 <= lo < n -> (hi * n + lo) / n = hi.
Proof. intros Hn Hlo. rewrite Z.div_add_l by lia. rewrite Z.div_small; lia. Qed.
Lemma field_mod hi lo n : 0 <= lo < n -> (hi * n + lo) mod n = lo.
Proof. intros Hlo. rewrite Z.add_comm, Z.mod_add by lia. by apply Z.mod_small. Qed.

Lemma decode_encode a off :
  addr_ok a -> 0 <= off < 256 ->
  decode (encode a off) = (key a, Z.land off 0xFC) /\ Z.testbit (encode a off) 31 = true.
Proof.
  intros Ha Ho. rewrite encode_sum, align_dword by done. destruct Ha as (Hb & Hd & Hf).
  pose proof (Z.mul_div_le off 4 ltac:(done)). pose proof (Z.div_pos off 4 ltac:(lia) ltac:(done)).
  pose proof (Z.div_lt_upper_bound off 4 64 ltac:(done) ltac:(lia)).
  set (q := off / 4) in *. unfold decode, key. split.
  - f_equal; [f_equal; [f_equal|]|].
    + replace (2 ^ 31 + _ + _ + _ + _)
        with ((2 ^ 15 + pa_bus a) * 2 ^ 16 + (pa_dev a * 2 ^ 11 + pa_func a * 2 ^ 8 + q * 4)) by lia.
      rewrite field_div by lia. replace (2 ^ 15 + pa_bus a) with (128 * 256 + pa_bus a) by lia. by apply field_mod.
    + replace (2 ^ 31 + _ + _ + _ + _)
        with ((2 ^ 20 + pa_bus a * 2 ^ 5 + pa_dev a) * 2 ^ 11 + (pa_func a * 2 ^ 8 + q * 4)) by lia.
      rewrite field_div by lia. replace (2 ^ 20 + pa_bus a * 2 ^ 5 + pa_dev a) with ((2 ^ 15 + pa_bus a) * 32 + pa_dev a) by lia.
      by apply field_mod.
    + replace (2 ^ 31 + _ + _ + _ + _)
        with ((2 ^ 23 + pa_bus a * 2 ^ 8 + pa_dev a * 2 ^ 3 + pa_func a) * 2 ^ 8 + q * 4) by lia.
      rewrite field_div by lia.
      replace (2 ^ 23 + pa_bus a * 2 ^ 8 + pa_dev a * 2 ^ 3 + pa_func a)
        with ((2 ^ 20 + pa_bus a * 2 ^ 5 + pa_dev a) * 8 + pa_func a) by lia.
      by apply field_mod.
    + replace (2 ^ 31 + _ + _ + _ + _)
        with (((2 ^ 23 + pa_bus a * 2 ^ 8 + pa_dev a * 2 ^ 3 + pa_func a) * 64 + q) * 4 + 0) by lia.
      rewrite field_div by lia. rewrite field_mod by lia. done.
  - rewrite Z.testbit_true by done.
    replace (2 ^ 31 + _ + _ + _ + _)
      with (1 * 2 ^ 31 + (pa_bus a * 2 ^ 16 + pa_dev a * 2 ^ 11 + pa_func a * 2 ^ 8 + q * 4)) by lia.
    by rewrite field_div by lia.
Qed.

(** ** Accesses *)

Section answers.
Context (c : gmap (Z * Z * Z) (gmap Z Z)).

(** A call that returns [v] and leaves the configuration spaces alone. *)
Definition answers {A} (m : M bus string A) (v : A) : Prop :=
  forall x, exists x', m (mkBus x c) = Ret (mkBus x' c, Ok v).

Lemma answers_ok {A} (v : A) : answers (mok v) v.
Proof. intros x. by exists x. Qed.
Lemma answers_bind {A B} (m : M bus string A) (f : A -> M bus string B) v w :
  answers m v -> answers (f v) w -> answers (m ≫= f) w.
Proof.
  intros Hm Hf x. destruct (Hm x) as [x1 E1]. destruct (Hf x1) as [x2 E2]. exists x2.
  by rewrite (mbindM_Ret _ _ _ _ _ E1).
Qed.

Lemma answers_read_u32 a off :
  addr_ok a -> 0 <= off < 256 -> answers (read_u32 a off) (cfg_dword c (key a) (Z.land off 0xFC)).
Proof.
  intros Ha Ho x. exists (encode a off). destruct (decode_encode a off Ha Ho) as [Hd Hb].
  unfold read_u32. rewrite (mbindM_Ret _ _ _ (mkBus (encode a off) c) tt) by reflexivity.
  unfold in32. cbn [p_in32 bus_ports latch cfg]. cbn [Z.eqb Pos.eqb andb]. by rewrite Hb, Hd.
Qed.

(** The byte at an offset. *)
Definition cfg_byte (f : Z * Z * Z) (off : Z) : Z :=
  Z.land (Z.shiftr (cfg_dword c f (off / 4 * 4)) (Z.land off 3 * 8)) 0xFF.

Lemma answers_read_u8 a off :
  addr_ok a -> 0 <= off < 256 -> answers (read_u8 a off) (cfg_byte (key a) off).
Proof.
  intros Ha Ho. unfold read_u8. pose proof (Z.mul_div_le off 4 ltac:(done)). pose proof (Z.div_pos off 4 ltac:(lia) ltac:(done)).
  eapply answers_bind; [apply answers_read_u32; [done|]; rewrite align_dword by done; lia|].
  rewrite (align_dword off) by done. rewrite align_dword by lia. rewrite Z.div_mul by done. apply answers_ok.
Qed.

(** ** The functions of a slot *)

Definition vendor (a : PciAddr) : Z := Z.land (cfg_dword c (key a) 0) 0xFFFF.

(** The description of a function, from its registers. *)
Definition describe (a : PciAddr) : PciDevice :=
  let f := key a in
  mkPciDevice a (vendor a) (wrap 16 (Z.shiftr (cfg_dword c f 0) 16))
    (Z.land (Z.shiftr (cfg_dword c f 8) 24) 0xFF) (Z.land (Z.shiftr (cfg_dword c f 8) 16) 0xFF)
    (Z.land (Z.shiftr (cfg_dword c f 8) 8) 0xFF) (Z.land (cfg_dword c f 8) 0xFF) (cfg_byte f 0x0E)
    (if Z.land (cfg_byte f 0x0E) 0x7F =? 0 then (fun i => cfg_dword c f (0x10 + i * 4)) <$> [0; 1; 2; 3; 4; 5]
     else replicate 6 0)
    (cfg_byte f 0x3C) (cfg_byte f 0x3D).

Definition probed (a : PciAddr) : option PciDevice :=
  if vendor a =? 0xFFFF then None else Some (describe a).

Lemma answers_read_bars a l :
  addr_ok a -> Forall (fun i => 0 <= i < 6) l ->
  answers (read_bars a l) ((fun i => cfg_dword c (key a) (0x10 + i * 4)) <$> l).
Proof.
  intros Ha. induction 1 as [|i l Hi Hl IH]; [apply answers_ok|]. cbn [read_bars].
  eapply answers_bind; [apply answers_read_u32; [done|lia]|]. eapply answers_bind; [apply IH|].
  rewrite align_dword by lia. replace (0x10 + i * 4) with ((4 + i) * 4) by lia.
  rewrite Z.div_mul by done. cbn [fmap list_fmap]. replace (0x10 + i * 4) with ((4 + i) * 4) by lia.
  apply answers_ok.
Qed.

Lemma answers_probe_function b d f :
  addr_ok (mkPciAddr b d f) -> answers (probe_function b d f) (probed (mkPciAddr b d f)).
Proof.
  intros Ha. unfold probe_function. eapply answers_bind; [by apply answers_read_u32|].
  change (Z.land 0 0xFC) with 0. unfold probed, vendor. destruct (_ =? 0xFFFF); [apply answers_ok|].
  eapply answers_bind; [by apply answers_read_u32|]. change (Z.land 8 0xFC) with 8.
  eapply answers_bind; [by apply answers_read_u8|].
  eapply (answers_bind _ _ (if Z.land (cfg_byte (b, d, f) 0x0E) 0x7F =? 0
    then (fun i => cfg_dword c (b, d, f) (0x10 + i * 4)) <$> [0; 1; 2; 3; 4; 5] else replicate 6 0)).
  { change (key {| pa_bus := b; pa_dev := d; pa_func := f |}) with (b, d, f).
    destruct (_ =? 0x00); [|apply answers_ok]. apply (answers_read_bars (mkPciAddr b d f)); [done|].
    repeat constructor; lia. }
  eapply answers_bind; [by apply answers_read_u8|]. eapply answers_bind; [by apply answers_read_u8|].
  apply answers_ok.
Qed.

Definition multi (a : PciAddr) : bool := negb (Z.land (cfg_byte (key a) 0x0E) 0x80 =? 0).

(** What the code finds in a slot. *)
Definition slot (b d : Z) : list PciDevice :=
  match probed (mkPciAddr b d 0) with
  | None => []
  | Some f0 => f0 :: (if multi (mkPciAddr b d 0) then omap (fun f => probed (mkPciAddr b d f)) [1; 2; 3; 4; 5; 6; 7] else [])
  end.

Lemma answers_probe_rest b d l : forall out,
  Forall (fun f => addr_ok (mkPciAddr b d f)) l ->
  answers (probe_rest b d l out) (out ++ omap (fun f => probed (mkPciAddr b d f)) l).
Proof.
  induction l as [|f l IH]; intros out Hl; cbn [probe_rest]; [rewrite app_nil_r; apply answers_ok|].
  apply Forall_cons in Hl as [Hf Hl]. eapply answers_bind; [by apply answers_probe_function|].
  cbn [omap list_omap]. destruct (probed _); [|by apply IH].
  replace (out ++ p :: omap _ l) with ((out ++ [p]) ++ omap (fun f => probed (mkPciAddr b d f)) l)
    by (by rewrite <- app_assoc). by apply IH.
Qed.

Lemma slot_ok b d f : 0 <= b < 256 -> 0 <= d < 32 -> 0 <= f < 8 -> addr_ok (mkPciAddr b d f).
Proof. done. Qed.

Lemma answers_probe_slot b d out :
  0 <= b < 256 -> 0 <= d < 32 -> answers (probe_slot b d out) (out ++ slot b d).
Proof.
  intros Hb Hd. unfold probe_slot, slot. eapply answers_bind; [by apply answers_probe_function|].
  destruct (probed (mkPciAddr b d 0)) as [f0|] eqn:Ef; [|rewrite app_nil_r; apply answers_ok].
  assert (header_type f0 = cfg_byte (key (mkPciAddr b d 0)) 0x0E) as ->.
  { revert Ef. unfold probed. destruct (_ =? _); [done|]. by intros [= <-]. }
  unfold multi. destruct (_ =? 0); cbn [negb]; [apply answers_ok|].
  replace (out ++ f0 :: omap (fun f => probed (mkPciAddr b d f)) [1; 2; 3; 4; 5; 6; 7])
    with ((out ++ [f0]) ++ omap (fun f => probed (mkPciAddr b d f)) [1; 2; 3; 4; 5; 6; 7])
    by (by rewrite <- app_assoc).
  apply answers_probe_rest. repeat constructor; try done; simpl; lia.
Qed.

Lemma answers_scan l : forall out,
  Forall (fun p => 0 <= p.1 < 256 /\ 0 <= p.2 < 32) l ->
  answers (scan l out) (out ++ (p ← l; slot p.1 p.2)).
Proof.
  induction l as [|[b d] l IH]; intros out Hl; cbn [scan]; [rewrite app_nil_r; apply answers_ok|].
  apply Forall_cons in Hl as [[Hb Hd] Hl]. eapply answers_bind; [by apply answers_probe_slot|].
  cbn [mbind list_bind]. rewrite app_assoc. by apply IH.
Qed.

End answers.

(** A function the enumeration must list: it answers, and it is the first of
    its slot or the first answers and says the slot has several. *)
Definition visible (c : gmap (Z * Z * Z) (gmap Z Z)) (a : PciAddr) : Prop :=
  let f0 := mkPciAddr (pa_bus a) (pa_dev a) 0 in
  addr_ok a /\ vendor c a <> 0xFFFF /\
  (pa_func a = 0 \/ vendor c f0 <> 0xFFFF /\ multi c f0 = true).

Lemma probed_Some c a d : probed c a = Some d <-> vendor c a <> 0xFFFF /\ d = describe c a.
Proof. unfold probed. destruct (Z.eqb_spec (vendor c a) 0xFFFF); naive_solver. Qed.

Lemma elem_of_slot c b d x :
  0 <= b < 256 -> 0 <= d < 32 ->
  x ∈ slot c b d <-> exists f, visible c (mkPciAddr b d f) /\ x = describe c (mkPciAddr b d f).
Proof.
  intros Hb Hd. unfold slot, visible. cbn [pa_bus pa_dev pa_func].
  destruct (probed c (mkPciAddr b d 0)) as [f0|] eqn:E0.
  - apply probed_Some in E0 as [Hv ->]. rewrite elem_of_cons. split.
    + intros [->|Hx].
      * exists 0. split; [|done]. split; [by apply slot_ok|]. split; [done|by left].
      * destruct (multi c (mkPciAddr b d 0)) eqn:Em; [|by apply not_elem_of_nil in Hx].
        apply list_elem_of_omap in Hx as (f & Hf & [Hvf ->]%probed_Some). exists f. split; [|done].
        split; [|split; [done|by right]]. apply slot_ok; [done|done|].
        repeat (apply elem_of_cons in Hf as [->|Hf]; [lia|]). by apply not_elem_of_nil in Hf.
    + intros (f & (Ha & Hvf & [->|[_ Hm]]) & ->); [by left|]. destruct (decide (f = 0)) as [->|Hf]; [by left|].
      right. rewrite Hm. apply list_elem_of_omap. exists f. split; [|by apply probed_Some].
      destruct Ha as (_ & _ & Ha). cbn [pa_func] in Ha.
      assert (f = 1 \/ f = 2 \/ f = 3 \/ f = 4 \/ f = 5 \/ f = 6 \/ f = 7) as Hcases by lia. set_solver.
  - assert (vendor c (mkPciAddr b d 0) = 0xFFFF) as Hv.
    { revert E0. unfold probed. by destruct (Z.eqb_spec (vendor c (mkPciAddr b d 0)) 0xFFFF). }
    split; [by intros ?%not_elem_of_nil|]. intros (f & (_ & Hvf & [->|[Hn _]]) & _); done.
Qed.

Lemma NoDup_slot c b d : NoDup (pd_addr <$> slot c b d).
Proof.
  unfold slot. destruct (probed c (mkPciAddr b d 0)) as [f0|] eqn:E0; [|apply NoDup_nil_2].
  apply probed_Some in E0 as [_ ->]. cbn [fmap list_fmap]. change (pd_addr (describe c _)) with (mkPciAddr b d 0).
  destruct (multi _ _); [|apply NoDup_singleton].
  assert (forall l, NoDup l -> 0 ∉ l ->
    NoDup (mkPciAddr b d 0 :: (pd_addr <$> omap (fun f => probed c (mkPciAddr b d f)) l))) as Hgen.
  { intros l Hl H0. apply NoDup_cons. split.
    - intros (x & Ex & (f & Hf & [_ ->]%probed_Some)%list_elem_of_omap)%list_elem_of_fmap.
      injection Ex as <-. done.
    - clear H0. induction Hl as [|f l Hf Hl IH]; [apply NoDup_nil_2|]. cbn [omap list_omap].
      destruct (probed c (mkPciAddr b d f)) as [x|] eqn:Ex; [|done]. apply probed_Some in Ex as [_ ->].
      cbn [fmap list_fmap]. apply NoDup_cons. split; [|done].
      intros (x & Ex & (f' & Hf' & [_ ->]%probed_Some)%list_elem_of_omap)%list_elem_of_fmap.
      injection Ex as <-. done. }
  apply Hgen; [|set_solver by lia]. repeat (apply NoDup_cons; split; [set_solver by lia|]). apply NoDup_nil_2.
Qed.

Definition slots : list (Z * Z) := bus ← seqZ 0 256; dev ← seqZ 0 32; [(bus, dev)].

Lemma elem_of_slots b d : (b, d) ∈ slots <-> 0 <= b < 256 /\ 0 <= d < 32.
Proof.
  unfold slots. rewrite list_elem_of_bind. setoid_rewrite list_elem_of_bind.
  setoid_rewrite list_elem_of_singleton. setoid_rewrite elem_of_seqZ. split.
  - intros (b' & (d' & [= -> ->] & ?) & ?). lia.
  - intros ?. exists b. split; [|lia]. exists d. split; [done|lia].
Qed.
Lemma NoDup_slots : NoDup slots.
Proof.
  unfold slots. apply NoDup_bind; [| |apply NoDup_seqZ].
  - intros x1 x2 y _ _ (d & E1 & _)%list_elem_of_bind (d' & E2 & _)%list_elem_of_bind.
    apply list_elem_of_singleton in E1, E2. congruence.
  - intros x _. apply NoDup_bind; [|intros; apply NoDup_singleton|apply NoDup_seqZ].
    intros x1 x2 y _ _ E1 E2. apply list_elem_of_singleton in E1, E2. congruence.
Qed.

Lemma pci_init_scan : pci_init = scan (D := bus) (E := string) slots [].
Proof. reflexivity. Qed.

Lemma fmap_bind_list {A B C} (f : B -> C) (g : A -> list B) (l : list A) :
  f <$> (l ≫= g) = l ≫= (fun x => f <$> g x).
Proof. induction l as [|x l IH]; [done|]. cbn [mbind list_bind]. by rewrite fmap_app, IH. Qed.

Lemma scan_from_nil c x l :
  Forall (fun p => 0 <= p.1 < 256 /\ 0 <= p.2 < 32) l ->
  exists x', scan (E := string) l [] (mkBus x c) = Ret (mkBus x' c, Ok (p ← l; slot c p.1 p.2)).
Proof. intros Hl. apply (answers_scan c l [] Hl x). Qed.

Lemma elem_of_scan c d :
  d ∈ (p ← slots; slot c p.1 p.2) <-> exists a, visible c a /\ d = describe c a.
Proof.
  rewrite list_elem_of_bind. split.
  - intros ([b dv] & Hd & [Hb Hdv]%elem_of_slots). apply elem_of_slot in Hd as (f & Hf & ->); [|done|done].
    by eexists.
  - intros ([b dv f] & Hv & ->). pose proof Hv as ((Hb & Hd & _) & _). exists (b, dv).
    split; [|by apply elem_of_slots]. apply elem_of_slot; [done|done|]. by exists f.
Qed.

(** The scan lists the visible functions. *)
Lemma pci_scan_lists c x :
  exists x' devs, pci_init (E := string) (mkBus x c) = Ret (mkBus x' c, Ok devs) /\
    forall d, d ∈ devs <-> exists a, visible c a /\ d = describe c a.
Proof.
  destruct (scan_from_nil c x slots) as [x' E].
  { apply Forall_forall. intros [b d] Hp%elem_of_slots. done. }
  exists x', (p ← slots; slot c p.1 p.2). split; [by rewrite pci_init_scan|]. apply elem_of_scan.
Qed.

(** C36.  The enumeration of the PCI bus.  On a bus that follows configuration
    mechanism 1, with whatever functions and registers, the scan returns
    without a panic, writes no configuration register, and lists each function
    that answers and belongs to its slot exactly once, with the identifiers,
    class, header, base addresses and interrupt its registers hold. *)
Theorem pci_scan_complete c x :
  exists x' devs, pci_init (E := string) (mkBus x c) = Ret (mkBus x' c, Ok devs) /\
    NoDup (pd_addr <$> devs) /\
    forall d, d ∈ devs <-> exists a, visible c a /\ d = describe c a.
Proof.
  destruct (scan_from_nil c x slots) as [x' E].
  { apply Forall_forall. intros [b d] Hp%elem_of_slots. done. }
  exists x', (p ← slots; slot c p.1 p.2). split; [by rewrite pci_init_scan|]. split.
  - rewrite fmap_bind_list. apply NoDup_bind; [| |apply NoDup_slots].
    + intros [b d] [b' d'] a Hp%elem_of_slots Hp'%elem_of_slots
        (y & -> & Hy)%list_elem_of_fmap (y' & Ey & Hy')%list_elem_of_fmap. destruct Hp, Hp'.
      apply elem_of_slot in Hy as (f & _ & ->); [|done|done].
      apply elem_of_slot in Hy' as (f' & _ & ->); [|done|done]. by injection Ey as -> -> _.
    + intros [b d] _. apply NoDup_slot.
  - intros d. apply elem_of_scan.
Qed.
