(* ===== verification/E1000.v ===== *)
(** * The e1000 network card driver

    kernel/src/drivers/e1000.rs: the register set-up, the two descriptor
    rings, sending and receiving.  The rings, the receive buffers and the
    boxes of the packets to send are memory the card reads and writes; the
    card itself (the 82540EM of Intel's manual, as far as the driver uses it)
    follows the driver, and then the theorems on the two together.  The
    addresses of heap blocks are arguments: they are the allocator's choice. *)
From S2P Require Import Prelude.
Local Open Scope Z_scope.

Abbreviation REG_CTRL := 0x0000 (only parsing).
Abbreviation REG_STATUS := 0x0008 (only parsing).
Abbreviation REG_ICR := 0x00C0 (only parsing).
Abbreviation REG_IMC := 0x00D8 (only parsing).
Abbreviation REG_RCTL := 0x0100 (only parsing).
Abbreviation REG_RDBAL := 0x2800 (only parsing).
Abbreviation REG_RDBAH := 0x2804 (only parsing).
Abbreviation REG_RDLEN := 0x2808 (only parsing).
Abbreviation REG_RDH := 0x2810 (only parsing).
Abbreviation REG_RDT := 0x2818 (only parsing).
Abbreviation REG_TCTL := 0x0400 (only parsing).
Abbreviation REG_TDBAL := 0x3800 (only parsing).
Abbreviation REG_TDBAH := 0x3804 (only parsing).
Abbreviation REG_TDLEN := 0x3808 (only parsing).
Abbreviation REG_TDH := 0x3810 (only parsing).
Abbreviation REG_TDT := 0x3818 (only parsing).
Abbreviation REG_RAL := 0x5400 (only parsing).
Abbreviation REG_RAH := 0x5404 (only parsing).
Abbreviation REG_MTA := 0x5200 (only parsing).
Abbreviation NUM_RX_DESC := 64 (only parsing).
Abbreviation NUM_TX_DESC := 64 (only parsing).
Abbreviation RX_BUF_SIZE := 2048 (only parsing).

Record RxDesc := mkRx {
  rx_addr : Z; rx_length : Z; rx_checksum : Z; rx_status : Z; rx_errors : Z; rx_special : Z
}.
Record TxDesc := mkTx {
  tx_addr : Z; tx_length : Z; tx_cso : Z; tx_cmd : Z; tx_status : Z; tx_css : Z; tx_special : Z
}.

(** The driver's structure with the memory behind its pointers.  [regs] is
    the card's register file; [boxes] holds the packets to send, by address. *)
Record E1000 := mkE1000 {
  mac : list Z;
  rx_ring : list RxDesc;
  tx_ring : list TxDesc;
  rx_bufs_ptr : Z;
  rx_bufs : list (list Z);
  rx_cur : Z;
  tx_cur : Z;
  rx_packets : Z;
  tx_packets : Z;
  boxes : gmap Z (list Z);
  regs : gmap Z Z
}.

Definition set_regs (r : gmap Z Z) (e : E1000) : E1000 :=
  mkE1000 (mac e) (rx_ring e) (tx_ring e) (rx_bufs_ptr e) (rx_bufs e) (rx_cur e) (tx_cur e)
    (rx_packets e) (tx_packets e) (boxes e) r.
Definition set_rx (ring : list RxDesc) (bufs : list (list Z)) (cur packets : Z) (e : E1000) : E1000 :=
  mkE1000 (mac e) ring (tx_ring e) (rx_bufs_ptr e) bufs cur (tx_cur e) packets (tx_packets e) (boxes e) (regs e).
Definition set_tx (ring : list TxDesc) (cur packets : Z) (b : gmap Z (list Z)) (e : E1000) : E1000 :=
  mkE1000 (mac e) (rx_ring e) ring (rx_bufs_ptr e) (rx_bufs e) (rx_cur e) cur (rx_packets e) packets b (regs e).

Definition reg (e : E1000) (r : Z) : Z := default 0 (regs e !! r).
Definition write_reg (r v : Z) (e : E1000) : E1000 := set_regs (<[r := v]> (regs e)) e.
Definition write_regs (l : list (Z * Z)) (e : E1000) : E1000 :=
  foldl (fun e w => write_reg w.1 w.2 e) e l.

Definition read_mac (e : E1000) : list Z :=
  let lo := reg e REG_RAL in
  let hi := reg e REG_RAH in
  [Z.land lo 0xFF; Z.land (Z.shiftr lo 8) 0xFF; Z.land (Z.shiftr lo 16) 0xFF; Z.land (Z.shiftr lo 24) 0xFF;
   Z.land hi 0xFF; Z.land (Z.shiftr hi 8) 0xFF].

Definition RCTL_INIT : Z :=
  Z.lor (Z.lor (Z.lor (Z.lor (Z.shiftl 1 1) (Z.shiftl 1 15)) (Z.shiftl 1 26)) (Z.shiftl 1 3)) (Z.shiftl 1 4).
Definition TCTL_INIT : Z :=
  Z.lor (Z.lor (Z.lor (Z.shiftl 1 1) (Z.shiftl 1 3)) (Z.shiftl 15 4)) (Z.shiftl 64 12).

Definition init_rx (ring_ptr bufs_ptr : Z) (e : E1000) : E1000 :=
  let bufs := replicate 64 (replicate 2048 0) in
  let ring := (fun i => mkRx (bufs_ptr + i * RX_BUF_SIZE) 0 0 0 0 0) <$> seqZ 0 NUM_RX_DESC in
  let e := write_regs [(REG_RDBAL, wrap 32 ring_ptr); (REG_RDBAH, wrap 32 (Z.shiftr ring_ptr 32));
     (REG_RDLEN, NUM_RX_DESC * 16); (REG_RDH, 0); (REG_RDT, NUM_RX_DESC - 1); (REG_RCTL, RCTL_INIT)] e in
  mkE1000 (mac e) ring (tx_ring e) bufs_ptr bufs 0 (tx_cur e) (rx_packets e) (tx_packets e) (boxes e) (regs e).

Definition init_tx (ring_ptr : Z) (e : E1000) : E1000 :=
  let ring := replicate 64 (mkTx 0 0 0 0 0 0 0) in
  let e := write_regs [(REG_TDBAL, wrap 32 ring_ptr); (REG_TDBAH, wrap 32 (Z.shiftr ring_ptr 32));
     (REG_TDLEN, NUM_TX_DESC * 16); (REG_TDH, 0); (REG_TDT, 0); (REG_TCTL, TCTL_INIT)] e in
  set_tx ring 0 (tx_packets e) (boxes e) e.

(** [init_device] on a card with registers [r]; the three pointers are the
    blocks [Box::new] and [vec!] return. *)
Definition init_device (rx_ptr bufs_ptr tx_ptr : Z) (r : gmap Z Z) : E1000 :=
  let e := mkE1000 (replicate 6 0) [] [] 0 [] 0 0 0 0 ∅ r in
  let ctrl := reg e REG_CTRL in
  let e := write_reg REG_CTRL (Z.lor (Z.lor ctrl (Z.shiftl 1 6)) (Z.shiftl 1 5)) e in
  let e := write_reg REG_IMC 0xFFFFFFFF e in
  let e := write_regs ((fun i => (REG_MTA + i * 4, 0)) <$> seqZ 0 128) e in
  let m := read_mac e in
  let e := mkE1000 m (rx_ring e) (tx_ring e) (rx_bufs_ptr e) (rx_bufs e) (rx_cur e) (tx_cur e)
             (rx_packets e) (tx_packets e) (boxes e) (regs e) in
  let b i := nth i m 0 in
  let ral := Z.lor (Z.lor (Z.lor (b 0%nat) (Z.shiftl (b 1%nat) 8)) (Z.shiftl (b 2%nat) 16)) (Z.shiftl (b 3%nat) 24) in
  let rah := Z.lor (Z.lor (b 4%nat) (Z.shiftl (b 5%nat) 8)) (Z.shiftl 1 31) in
  let e := write_regs [(REG_RAL, ral); (REG_RAH, rah)] e in
  init_tx tx_ptr (init_rx rx_ptr bufs_ptr e).

(** [send]; [box] is the address of the block that holds the copy. *)
Definition send (box : Z) (data : list Z) (e : E1000) : outcome (E1000 * result unit string) :=
  if bool_decide (1514 < lenZ data) then Ret (e, Err "paquet trop grand"%string) else
  desc ← idx (tx_ring e) (tx_cur e);
  ring ← idx_set (tx_ring e) (tx_cur e)
    (mkTx box (wrap 16 (lenZ data)) (tx_cso desc) 0x0B 0 (tx_css desc) (tx_special desc));
  let cur := (tx_cur e + 1) mod NUM_TX_DESC in
  packets ← tx_packets e +! 1 @ 64;
  Ret (write_reg REG_TDT cur (set_tx ring cur packets (<[box := data]> (boxes e)) e), Ok tt).

Definition recv (e : E1000) : outcome (E1000 * option (list Z)) :=
  desc ← idx (rx_ring e) (rx_cur e);
  if Z.land (rx_status desc) 1 =? 0 then Ret (e, None) else
  buf ← idx (rx_bufs e) (rx_cur e);
  data ← slice buf 0 (rx_length desc);
  ring ← idx_set (rx_ring e) (rx_cur e)
    (mkRx (rx_addr desc) 0 (rx_checksum desc) 0 (rx_errors desc) (rx_special desc));
  packets ← rx_packets e +! 1 @ 64;
  Ret (write_reg REG_RDT (rx_cur e)
         (set_rx ring (rx_bufs e) ((rx_cur e + 1) mod NUM_RX_DESC) packets e), Some data).

Definition link_up (e : E1000) : bool := negb (Z.land (reg e REG_STATUS) 2 =? 0).

(** ** The card *)

(** A frame arrives.  The card owns the descriptors from RDH up to RDT; it
    fills the buffer of the first, reports the length with DD and EOP, and
    moves RDH.  Without a descriptor the frame is lost. *)
Definition card_rx (pkt : list Z) (e : E1000) : E1000 * bool :=
  let h := reg e REG_RDH in
  if h =? reg e REG_RDT then (e, false) else
  match rx_ring e !! Z.to_nat h with
  | None => (e, false)
  | Some d =>
      let i := Z.to_nat ((rx_addr d - rx_bufs_ptr e) / RX_BUF_SIZE) in
      let buf := nth i (rx_bufs e) [] in
      let ring := <[Z.to_nat h := mkRx (rx_addr d) (lenZ pkt) (rx_checksum d) 3 (rx_errors d) (rx_special d)]> (rx_ring e) in
      let bufs := <[i := pkt ++ drop (length pkt) buf]> (rx_bufs e) in
      (write_reg REG_RDH ((h + 1) mod (reg e REG_RDLEN / 16))
         (set_rx ring bufs (rx_cur e) (rx_packets e) e), true)
  end.

(** The card sends the packet of the descriptor at TDH, reports DD and moves
    TDH; with TDH equal to TDT there is nothing to send. *)
Definition card_tx (e : E1000) : E1000 * option (list Z) :=
  let h := reg e REG_TDH in
  if h =? reg e REG_TDT then (e, None) else
  match tx_ring e !! Z.to_nat h with
  | None => (e, None)
  | Some d =>
      let data := take (Z.to_nat (tx_length d)) (default [] (boxes e !! tx_addr d)) in
      let ring := <[Z.to_nat h := mkTx (tx_addr d) (tx_length d) (tx_cso d) (tx_cmd d) 1 (tx_css d) (tx_special d)]> (tx_ring e) in
      (write_reg REG_TDH ((h + 1) mod (reg e REG_TDLEN / 16))
         (set_tx ring (tx_cur e) (tx_packets e) (boxes e) e), Some data)
  end.

(** * Correctness of the e1000 driver

    The driver and the card together: the receive ring and the transmit ring
    are queues, and what happens when the transmit ring is full. *)

(** ** Histories *)

Inductive event :=
| EvArrive (pkt : list Z) (kept : bool)
| EvRecv (r : option (list Z))
| EvSend (data : list Z) (ok : bool)
| EvTransmit (r : option (list Z)).

(** One step of the driver or of the card.  A send takes a fresh block, and
    happens in a state that satisfies [P]. *)
Inductive nic_step (P : E1000 -> Prop) : E1000 -> event -> E1000 -> Prop :=
| step_arrive e pkt e' b : lenZ pkt <= RX_BUF_SIZE -> card_rx pkt e = (e', b) -> nic_step P e (EvArrive pkt b) e'
| step_recv e e' r : recv e = Ret (e', r) -> nic_step P e (EvRecv r) e'
| step_send e box data e' r : P e -> boxes e !! box = None ->
    send box data e = Ret (e', r) -> nic_step P e (EvSend data (is_ok r)) e'
| step_transmit e e' r : card_tx e = (e', r) -> nic_step P e (EvTransmit r) e'.

Inductive nic_run (P : E1000 -> Prop) (e0 : E1000) : list event -> E1000 -> Prop :=
| run_nil : nic_run P e0 [] e0
| run_snoc tr e ev e' : nic_run P e0 tr e -> nic_step P e ev e' -> nic_run P e0 (tr ++ [ev]) e'.

Definition arrived (tr : list event) : list (list Z) :=
  omap (fun ev => match ev with EvArrive p true => Some p | _ => None end) tr.
Definition received (tr : list event) : list (list Z) :=
  omap (fun ev => match ev with EvRecv r => r | _ => None end) tr.
Definition accepted (tr : list event) : list (list Z) :=
  omap (fun ev => match ev with EvSend p true => Some p | _ => None end) tr.
Definition transmitted (tr : list event) : list (list Z) :=
  omap (fun ev => match ev with EvTransmit r => r | _ => None end) tr.

(** The ring has a slot to spare. *)
Definition tx_room (e : E1000) : Prop := (reg e REG_TDT + 1) mod NUM_TX_DESC <> reg e REG_TDH.

(** ** Positions in a ring *)

Lemma ring_pos_inj c k k' : 0 <= k < 64 -> 0 <= k' < 64 -> (c + k) mod 64 = (c + k') mod 64 -> k = k'.
Proof.
  intros Hk Hk' E. pose proof (Z.div_mod (c + k) 64 ltac:(done)). pose proof (Z.div_mod (c + k') 64 ltac:(done)).
  nia.
Qed.
Lemma ring_pos_shift c k : ((c + 1) mod 64 + k) mod 64 = (c + (1 + k)) mod 64.
Proof. rewrite Zplus_mod_idemp_l. f_equal. lia. Qed.
Lemma ring_pos_range x : 0 <= x mod 64 < 64.
Proof. by apply Z.mod_pos_bound. Qed.
Lemma ring_pos_base c : 0 <= c < 64 -> (c + 0) mod 64 = c.
Proof. intros. rewrite Z.add_0_r. by apply Z.mod_small. Qed.
Lemma ring_pos_full c : 0 <= c < 64 -> ((c + 1) mod 64 + 63) mod 64 = c.
Proof. intros. rewrite Zplus_mod_idemp_l. replace (c + 1 + 63) with (c + 1 * 64) by lia. rewrite Z.mod_add by done. by apply Z.mod_small. Qed.

(** ** Registers *)

Lemma reg_write e r v r' : reg (write_reg r v e) r' = if decide (r' = r) then v else reg e r'.
Proof.
  unfold reg, write_reg, set_regs. cbn [regs]. destruct (decide (r' = r)) as [->|].
  - by rewrite lookup_insert_eq.
  - by rewrite lookup_insert_ne.
Qed.
Lemma reg_set_rx ring bufs cur n e r : reg (set_rx ring bufs cur n e) r = reg e r.
Proof. done. Qed.
Lemma reg_set_tx ring cur n b e r : reg (set_tx ring cur n b e) r = reg e r.
Proof. done. Qed.

(** A write to another register. *)
Ltac other_reg := split_and!; try done; by rewrite reg_write, decide_False by done.

(** ** Receiving *)

(** The slot at distance [k] from the driver's position: filled with a
    waiting packet, or empty. *)
Definition rx_slot (e : E1000) (k : Z) (w : option (list Z)) : Prop :=
  let i := Z.to_nat ((rx_cur e + k) mod 64) in
  exists d b, rx_ring e !! i = Some d /\ rx_bufs e !! i = Some b /\ lenZ b = RX_BUF_SIZE /\
    rx_addr d = rx_bufs_ptr e + (rx_cur e + k) mod 64 * RX_BUF_SIZE /\
    match w with
    | Some p => rx_status d = 3 /\ rx_length d = lenZ p /\ take (length p) b = p
    | None => rx_status d = 0
    end.

(** [waiting] are the packets the card has delivered and the driver has not
    taken. *)
Record rx_inv (e : E1000) (waiting : list (list Z)) : Prop := mkRxInv {
  rxi_cur : 0 <= rx_cur e < 64;
  rxi_tail : reg e REG_RDT = (rx_cur e + 63) mod 64;
  rxi_head : reg e REG_RDH = (rx_cur e + lenZ waiting) mod 64;
  rxi_len : reg e REG_RDLEN = 1024;
  rxi_room : lenZ waiting <= 63;
  rxi_ring : length (rx_ring e) = 64%nat;
  rxi_bufs : length (rx_bufs e) = 64%nat;
  rxi_slots : forall k, 0 <= k < 64 -> rx_slot e k (waiting !! Z.to_nat k)
}.

(** The receive side is the same. *)
Definition same_rx (e e' : E1000) : Prop :=
  rx_ring e' = rx_ring e /\ rx_bufs e' = rx_bufs e /\ rx_bufs_ptr e' = rx_bufs_ptr e /\ rx_cur e' = rx_cur e /\
  reg e' REG_RDT = reg e REG_RDT /\ reg e' REG_RDH = reg e REG_RDH /\ reg e' REG_RDLEN = reg e REG_RDLEN.
Lemma rx_inv_same e e' w : same_rx e e' -> rx_inv e w -> rx_inv e' w.
Proof.
  intros (Hr & Hb & Hp & Hc & Ht & Hh & Hl) []. constructor; unfold rx_slot in *; rewrite ?Hr, ?Hb, ?Hp, ?Hc, ?Ht, ?Hh, ?Hl; done.
Qed.

Lemma recv_spec e w :
  rx_inv e w -> rx_packets e < U64_MAX -> exists e', recv e = Ret (e', head w) /\ rx_inv e' (tail w).
Proof.
  intros Hinv Hn. pose proof Hinv as [Hc Ht Hh Hl Hroom Hring Hbufs Hs].
  destruct (Hs 0) as (d & b & Hd & Hb & Hlb & Ha & Hw); [done|]. rewrite ring_pos_base in Hd, Hb, Ha by done.
  unfold recv. rewrite (proj2 (idx_Ret (rx_ring e) _ _) (conj (proj1 Hc) Hd)). obind.
  destruct w as [|p w]; cbn [lookup list_lookup Z.to_nat] in Hw.
  { rewrite Hw. exists e. split; [done|]. done. }
  destruct Hw as (Hst & Hlen & Htk). rewrite Hst. change (Z.land 3 1 =? 0) with false. cbv iota.
  rewrite (proj2 (idx_Ret (rx_bufs e) _ _) (conj (proj1 Hc) Hb)). obind.
  assert (lenZ p <= 2048) as Hp. { rewrite <- Hlb, <- Htk. unfold lenZ. rewrite length_take. lia. }
  rewrite Hlen, slice_prefix by (pose proof (lenZ_nonneg p); lia). obind.
  unfold idx_set at 1. rewrite bool_decide_eq_true_2 by (unfold lenZ; rewrite Hring; lia). obind.
  unfold U64_MAX in Hn. rewrite add_chk_ok by lia. obind.
  replace (Z.to_nat (lenZ p)) with (length p) by (unfold lenZ; lia). rewrite Htk.
  eexists. split; [done|]. rewrite lenZ_cons in *. constructor.
  - apply ring_pos_range.
  - rewrite reg_write, decide_True by done. cbn [rx_cur write_reg set_regs set_rx]. by rewrite ring_pos_full.
  - rewrite reg_write, decide_False by done. rewrite reg_set_rx. cbn [rx_cur write_reg set_regs set_rx tail].
    by rewrite ring_pos_shift.
  - by rewrite reg_write, decide_False.
  - cbn [tail]. lia.
  - cbn [rx_ring write_reg set_regs set_rx]. by rewrite length_insert.
  - done.
  - intros k Hk. unfold rx_slot. cbn [rx_cur rx_ring rx_bufs rx_bufs_ptr write_reg set_regs set_rx tail].
    destruct (decide (k = 63)) as [->|Hne].
    + rewrite ring_pos_full by done. rewrite list_lookup_insert_eq by lia.
      eexists _, b. split_and!; try done.
      rewrite (lookup_ge_None_2 w) by (unfold lenZ in *; lia). done.
    + rewrite ring_pos_shift. destruct (Hs (1 + k)) as (d' & b' & Hd' & Hb' & Hlb' & Ha' & Hw'); [lia|].
      rewrite list_lookup_insert_ne.
      * exists d', b'. replace (Z.to_nat (1 + k)) with (S (Z.to_nat k)) in Hw' by lia. done.
      * pose proof (ring_pos_range (rx_cur e + (1 + k))). intros E.
        assert ((rx_cur e + (1 + k)) mod 64 = (rx_cur e + 0) mod 64) as E' by (rewrite (ring_pos_base (rx_cur e)) by done; lia).
        apply ring_pos_inj in E'; lia.
Qed.

Lemma card_rx_spec e w pkt :
  rx_inv e w -> lenZ pkt <= RX_BUF_SIZE ->
  exists e', card_rx pkt e = (e', bool_decide (lenZ w < 63)) /\
    rx_inv e' (if bool_decide (lenZ w < 63) then w ++ [pkt] else w).
Proof.
  intros Hinv Hpkt. pose proof Hinv as [Hc Ht Hh Hl Hroom Hring Hbufs Hs]. pose proof (lenZ_nonneg w).
  unfold card_rx. rewrite Hh, Ht. case_bool_decide as Hw.
  2:{ replace (lenZ w) with 63 by lia. rewrite Z.eqb_refl. by exists e. }
  destruct (Z.eqb_spec ((rx_cur e + lenZ w) mod 64) ((rx_cur e + 63) mod 64)) as [E|_].
  { apply ring_pos_inj in E; lia. }
  destruct (Hs (lenZ w)) as (d & b & Hd & Hb & Hlb & Ha & Hsl); [lia|]. rewrite Hd.
  pose proof (ring_pos_range (rx_cur e + lenZ w)) as Hpos. set (h := (rx_cur e + lenZ w) mod 64) in *.
  assert ((rx_addr d - rx_bufs_ptr e) / 2048 = h) as ->.
  { rewrite Ha, Z.add_simpl_l. by rewrite Z.div_mul. }
  rewrite (nth_lookup_Some _ _ _ _ Hb). eexists. split; [done|]. constructor.
  - done.
  - by rewrite reg_write, decide_False by done.
  - rewrite reg_write, decide_True by done. cbn [rx_cur write_reg set_regs set_rx]. rewrite Hl.
    change (1024 / 16) with 64. unfold h. rewrite Zplus_mod_idemp_l, lenZ_app, lenZ_cons, lenZ_nil. f_equal. lia.
  - by rewrite reg_write, decide_False by done.
  - rewrite lenZ_app, lenZ_cons, lenZ_nil. lia.
  - cbn [rx_ring write_reg set_regs set_rx]. by rewrite length_insert.
  - cbn [rx_bufs write_reg set_regs set_rx]. by rewrite length_insert.
  - intros k Hk. unfold rx_slot. cbn [rx_cur rx_ring rx_bufs rx_bufs_ptr write_reg set_regs set_rx].
    destruct (decide (k = lenZ w)) as [->|Hne].
    + fold h. rewrite !list_lookup_insert_eq by lia. eexists _, _. split; [done|]. split; [done|].
      rewrite lenZ_to_nat, lookup_app_r, Nat.sub_diag by done. cbn [lookup list_lookup].
      split_and!; try done.
      * unfold lenZ in *. rewrite length_app, length_drop. lia.
      * by rewrite take_app_length.
    + destruct (Hs k Hk) as (d' & b' & Hd' & Hb' & Hlb' & Ha' & Hw').
      pose proof (ring_pos_range (rx_cur e + k)).
      assert (Z.to_nat h <> Z.to_nat ((rx_cur e + k) mod 64)) as Hh'.
      { intros E. apply Hne. apply (ring_pos_inj (rx_cur e)); [done|lia|]. unfold h in *. lia. }
      rewrite !list_lookup_insert_ne by done. exists d', b'. split_and!; try done.
      replace ((w ++ [pkt]) !! Z.to_nat k) with (w !! Z.to_nat k); [done|].
      destruct (decide (k < lenZ w)).
      * by rewrite lookup_app_l by (unfold lenZ in *; lia).
      * rewrite !lookup_ge_None_2; [done|rewrite length_app; simpl; unfold lenZ in *; lia|unfold lenZ in *; lia].
Qed.

(** ** Sending *)

(** [queued] are the packets the driver has handed over and the card has not
    sent. *)
Record tx_inv (e : E1000) (queued : list (list Z)) : Prop := mkTxInv {
  txi_head : 0 <= reg e REG_TDH < 64;
  txi_cur : tx_cur e = (reg e REG_TDH + lenZ queued) mod 64;
  txi_tail : reg e REG_TDT = tx_cur e;
  txi_len : reg e REG_TDLEN = 1024;
  txi_room : lenZ queued <= 63;
  txi_ring : length (tx_ring e) = 64%nat;
  txi_slots : forall k p, queued !! k = Some p -> exists d,
    tx_ring e !! Z.to_nat ((reg e REG_TDH + Z.of_nat k) mod 64) = Some d /\
    tx_length d = lenZ p /\ boxes e !! tx_addr d = Some p
}.

Definition same_tx (e e' : E1000) : Prop :=
  tx_ring e' = tx_ring e /\ boxes e' = boxes e /\ tx_cur e' = tx_cur e /\
  reg e' REG_TDT = reg e REG_TDT /\ reg e' REG_TDH = reg e REG_TDH /\ reg e' REG_TDLEN = reg e REG_TDLEN.
Lemma tx_inv_same e e' q : same_tx e e' -> tx_inv e q -> tx_inv e' q.
Proof.
  intros (Hr & Hb & Hc & Ht & Hh & Hl) []. constructor; rewrite ?Hr, ?Hb, ?Hc, ?Ht, ?Hh, ?Hl; done.
Qed.

Lemma tx_room_spec e q : tx_inv e q -> tx_room e <-> lenZ q < 63.
Proof.
  intros [Hh Hc Ht _ Hr _ _]. pose proof (lenZ_nonneg q). unfold tx_room.
  rewrite Ht, Hc, Zplus_mod_idemp_l, <- Z.add_assoc.
  rewrite <- (ring_pos_base (reg e REG_TDH)) at 2 by done. split.
  - intros Hne. destruct (decide (lenZ q = 63)) as [E|]; [|lia]. exfalso. apply Hne. rewrite E.
    change (63 + 1) with (1 * 64). rewrite Z.mod_add, Z.add_0_r by done. done.
  - intros Hlt E. apply ring_pos_inj in E; lia.
Qed.

Lemma send_spec e q box data :
  tx_inv e q -> boxes e !! box = None -> lenZ data <= 1514 -> tx_packets e < U64_MAX ->
  exists e', send box data e = Ret (e', Ok tt) /\ same_rx e e' /\
    reg e' REG_TDT = (tx_cur e + 1) mod 64 /\ reg e' REG_TDH = reg e REG_TDH /\
    (lenZ q < 63 -> tx_inv e' (q ++ [data])).
Proof.
  intros Hinv Hbox Hlen Hn. pose proof Hinv as [Hh Hc Ht Hl Hroom Hring Hs].
  pose proof (ring_pos_range (reg e REG_TDH + lenZ q)) as Hpos. rewrite <- Hc in Hpos.
  unfold send. rewrite bool_decide_eq_false_2 by lia.
  destruct (lookup_lt_is_Some_2 (tx_ring e) (Z.to_nat (tx_cur e))) as [d Hd]; [rewrite Hring; lia|].
  rewrite (proj2 (idx_Ret (tx_ring e) _ _) (conj (proj1 Hpos) Hd)). obind.
  unfold idx_set. rewrite bool_decide_eq_true_2 by (unfold lenZ; rewrite Hring; lia). obind.
  unfold U64_MAX in Hn. rewrite add_chk_ok by lia. obind. eexists. split; [done|]. split; [other_reg|].
  split; [by rewrite reg_write, decide_True|]. split; [by rewrite reg_write, decide_False|].
  intros Hq. pose proof (lenZ_nonneg q). constructor.
  - by rewrite reg_write, decide_False.
  - rewrite reg_write, decide_False by done. cbn [tx_cur write_reg set_regs set_tx]. rewrite reg_set_tx.
    rewrite Hc, Zplus_mod_idemp_l, lenZ_app, lenZ_cons, lenZ_nil. f_equal. lia.
  - by rewrite reg_write, decide_True.
  - by rewrite reg_write, decide_False.
  - rewrite lenZ_app, lenZ_cons, lenZ_nil. lia.
  - cbn [tx_ring write_reg set_regs set_tx]. by rewrite length_insert.
  - intros k p Hk. rewrite reg_write, decide_False by done. rewrite reg_set_tx.
    cbn [tx_ring boxes write_reg set_regs set_tx].
    apply lookup_snoc_Some in Hk as [[Hlt Hk]|[-> ->]].
    + destruct (Hs k p Hk) as (d' & Hd' & Hl' & Hb').
      rewrite list_lookup_insert_ne.
      * exists d'. split_and!; try done. rewrite lookup_insert_ne; [done|]. intros ->. congruence.
      * pose proof (ring_pos_range (reg e REG_TDH + Z.of_nat k)). intros E.
        assert ((reg e REG_TDH + lenZ q) mod 64 = (reg e REG_TDH + Z.of_nat k) mod 64) as E' by lia.
        apply ring_pos_inj in E'; unfold lenZ in *; lia.
    + change (Z.of_nat (length q)) with (lenZ q). rewrite <- Hc.
      rewrite list_lookup_insert_eq by lia. eexists. split; [done|]. cbn [tx_length tx_addr].
      rewrite lookup_insert_eq, wrap_id by (unfold fits; split; [apply lenZ_nonneg|lia]). done.
Qed.

Lemma card_tx_spec e q :
  tx_inv e q -> exists e', card_tx e = (e', head q) /\ tx_inv e' (tail q) /\ same_rx e e'.
Proof.
  intros Hinv. pose proof Hinv as [Hh Hc Ht Hl Hroom Hring Hs]. unfold card_tx. cbv zeta. rewrite Ht, Hc.
  destruct q as [|p q].
  { rewrite lenZ_nil, ring_pos_base by done. rewrite Z.eqb_refl. exists e. done. }
  rewrite lenZ_cons in *. pose proof (lenZ_nonneg q).
  destruct (Z.eqb_spec (reg e REG_TDH) ((reg e REG_TDH + (1 + lenZ q)) mod 64)) as [E|_].
  { rewrite <- (ring_pos_base (reg e REG_TDH)) in E at 1 by done. apply ring_pos_inj in E; lia. }
  destruct (Hs 0%nat p eq_refl) as (d & Hd & Hdl & Hb). change (Z.of_nat 0) with 0 in Hd.
  rewrite ring_pos_base in Hd by done. rewrite Hd.
  rewrite Hb, Hdl. cbn [default]. rewrite lenZ_to_nat, firstn_all.
  eexists. split; [done|]. split; [|other_reg]. constructor.
  - rewrite reg_write, decide_True by done. rewrite Hl. change (1024 / 16) with 64. apply ring_pos_range.
  - rewrite reg_write, decide_True by done. rewrite Hl. change (1024 / 16) with 64.
    cbn [tx_cur write_reg set_regs set_tx tail]. by rewrite ring_pos_shift.
  - rewrite reg_write, decide_False by done. cbn [tx_cur write_reg set_regs set_tx]. by rewrite reg_set_tx, Ht, Hc.
  - by rewrite reg_write, decide_False.
  - cbn [tail]. lia.
  - cbn [tx_ring write_reg set_regs set_tx]. by rewrite length_insert.
  - intros k p' Hk. rewrite reg_write, decide_True by done. rewrite Hl. change (1024 / 16) with 64.
    cbn [tx_ring boxes write_reg set_regs set_tx]. rewrite ring_pos_shift.
    destruct (Hs (S k) p' Hk) as (d' & Hd' & Hl' & Hb').
    replace (Z.of_nat (S k)) with (1 + Z.of_nat k) in Hd' by lia. apply lookup_lt_Some in Hk. cbn [tail] in Hk.
    rewrite list_lookup_insert_ne; [by exists d'|]. pose proof (ring_pos_range (reg e REG_TDH + (1 + Z.of_nat k))).
    intros E. assert ((reg e REG_TDH + 0) mod 64 = (reg e REG_TDH + (1 + Z.of_nat k)) mod 64) as E'.
    { rewrite ring_pos_base by done. lia. }
    apply ring_pos_inj in E'; unfold lenZ in *; lia.
Qed.

(** ** Each side leaves the other alone *)

Lemma send_same_rx box data e e' r : send box data e = Ret (e', r) -> same_rx e e'.
Proof.
  unfold send. case_bool_decide; [by intros [= <- <-]|].
  destruct (idx _ _); [|done]. obind. destruct (idx_set _ _ _); [|done]. obind.
  destruct (add_chk _ _ _); [|done]. obind. intros [= <- <-]. other_reg.
Qed.
Lemma card_tx_same_rx e : same_rx e (card_tx e).1.
Proof.
  unfold card_tx. cbv zeta. destruct (_ =? _); [done|]. destruct (_ !! _); [|done]. cbn [fst]. other_reg.
Qed.
Lemma recv_same_tx e e' r : recv e = Ret (e', r) -> same_tx e e'.
Proof.
  unfold recv. destruct (idx (rx_ring e) _); [|done]. obind. destruct (_ =? 0); [by intros [= <- <-]|].
  destruct (idx _ _); [|done]. obind. destruct (slice _ _ _); [|done]. obind.
  destruct (idx_set _ _ _); [|done]. obind. destruct (add_chk _ _ _); [|done]. obind.
  intros [= <- <-]. other_reg.
Qed.
Lemma card_rx_same_tx pkt e : same_tx e (card_rx pkt e).1.
Proof.
  unfold card_rx. cbv zeta. destruct (_ =? _); [done|]. destruct (_ !! _); [|done]. cbn [fst]. other_reg.
Qed.

(** ** After the set-up *)

Lemma reg_write_regs l e r : reg (write_regs l e) r = from_option id (reg e r) (last (omap (fun w => if decide (r = w.1) then Some w.2 else None) l)).
Proof.
  induction l as [|w l IH] using rev_ind; [done|]. unfold write_regs. rewrite foldl_app. fold (write_regs l e).
  cbn [foldl]. rewrite reg_write, omap_app. cbn [omap list_omap]. case_decide as E; [by rewrite last_snoc|].
  by rewrite IH, app_nil_r.
Qed.

Lemma reg_init_rx rp bp e r : reg (init_rx rp bp e) r =
  reg (write_regs [(REG_RDBAL, wrap 32 rp); (REG_RDBAH, wrap 32 (Z.shiftr rp 32));
     (REG_RDLEN, NUM_RX_DESC * 16); (REG_RDH, 0); (REG_RDT, NUM_RX_DESC - 1); (REG_RCTL, RCTL_INIT)] e) r.
Proof. done. Qed.
Lemma reg_init_tx tp e r : reg (init_tx tp e) r =
  reg (write_regs [(REG_TDBAL, wrap 32 tp); (REG_TDBAH, wrap 32 (Z.shiftr tp 32));
     (REG_TDLEN, NUM_TX_DESC * 16); (REG_TDH, 0); (REG_TDT, 0); (REG_TCTL, TCTL_INIT)] e) r.
Proof. done. Qed.

Lemma init_regs rp bp tp e : let s := init_tx tp (init_rx rp bp e) in
  reg s REG_RDT = 63 /\ reg s REG_RDH = 0 /\ reg s REG_RDLEN = 1024 /\
  reg s REG_TDT = 0 /\ reg s REG_TDH = 0 /\ reg s REG_TDLEN = 1024.
Proof. cbv zeta. rewrite !reg_init_tx, !reg_write_regs, !reg_init_rx, !reg_write_regs. done. Qed.

Lemma init_rx_ok rp bp tp e : rx_inv (init_tx tp (init_rx rp bp e)) [].
Proof.
  destruct (init_regs rp bp tp e) as (H1 & H2 & H3 & _). constructor; try done.
  intros k Hk. unfold rx_slot. unfold init_tx, init_rx, write_regs. cbn [foldl fst snd].
  cbn [rx_cur rx_ring rx_bufs rx_bufs_ptr set_tx write_reg set_regs].
  rewrite Z.add_0_l, (Z.mod_small k) by lia. rewrite list_lookup_fmap, lookup_seqZ_lt by lia.
  eexists _, (replicate 2048 0). split; [done|]. rewrite lookup_replicate_2 by lia. split_and!; try done.
  cbn [rx_addr]. lia.
Qed.

Lemma init_tx_ok rp bp tp e : tx_inv (init_tx tp (init_rx rp bp e)) [].
Proof.
  destruct (init_regs rp bp tp e) as (_ & _ & _ & H1 & H2 & H3). constructor; try done; rewrite ?H2; done.
Qed.

Lemma init_device_split rp bp tp r : exists e, init_device rp bp tp r = init_tx tp (init_rx rp bp e).
Proof. by eexists. Qed.

(** ** The two queues along a history *)

Lemma omap_snoc {A B} (f : A -> option B) l x : omap f (l ++ [x]) = omap f l ++ match f x with Some y => [y] | None => [] end.
Proof. by rewrite omap_app. Qed.

Lemma tail_split {A} (l : list A) : l = match head l with Some x => [x] | None => [] end ++ tail l.
Proof. by destruct l. Qed.

(** At the end of the packet counter the driver takes nothing more. *)
Lemma recv_at_limit e e' r : ~ rx_packets e < U64_MAX -> recv e = Ret (e', r) -> e' = e /\ r = None.
Proof.
  intros Hn. unfold recv. destruct (idx (rx_ring e) _); [|done]. obind. destruct (_ =? 0); [by intros [= <- <-]|].
  destruct (idx _ _); [|done]. obind. destruct (slice _ _ _); [|done]. obind.
  destruct (idx_set _ _ _); [|done]. obind. unfold add_chk. rewrite bool_decide_eq_false_2; [done|].
  unfold U64_MAX in Hn. lia.
Qed.

Lemma rx_run P e0 tr e :
  rx_inv e0 [] -> nic_run P e0 tr e -> exists w, rx_inv e w /\ arrived tr = received tr ++ w.
Proof.
  intros H0 Hrun. induction Hrun as [|tr e ev e' Hrun (w & Hw & Ht) Hstep]; [by exists []|].
  unfold arrived, received. rewrite !omap_snoc. fold (arrived tr). fold (received tr). rewrite Ht.
  destruct Hstep as [e pkt e' b Hlen E|e e' r E|e box data e' r _ _ E|e e' r E].
  - destruct (card_rx_spec e w pkt Hw Hlen) as (e1 & E1 & Hinv). rewrite E in E1. injection E1 as <- ->.
    case_bool_decide; eexists; (split; [done|]); by rewrite !app_nil_r, ?app_assoc.
  - destruct (decide (rx_packets e < U64_MAX)) as [Hn|Hn].
    + destruct (recv_spec e w Hw Hn) as (e1 & E1 & Hinv). rewrite E in E1. injection E1 as <- ->.
      exists (tail w). split; [done|]. rewrite app_nil_r, <- app_assoc. f_equal. apply tail_split.
    + destruct (recv_at_limit e e' r Hn E) as [-> ->]. exists w. by rewrite !app_nil_r.
  - exists w. rewrite !app_nil_r. split; [|done]. eapply rx_inv_same; [by eapply send_same_rx|done].
  - exists w. rewrite !app_nil_r. split; [|done].
    eapply rx_inv_same; [|done]. replace e' with (card_tx e).1 by (by rewrite E). apply card_tx_same_rx.
Qed.

Lemma tx_run e0 tr e :
  tx_inv e0 [] -> nic_run tx_room e0 tr e -> exists q, tx_inv e q /\ accepted tr = transmitted tr ++ q.
Proof.
  intros H0 Hrun. induction Hrun as [|tr e ev e' Hrun (q & Hq & Ht) Hstep]; [by exists []|].
  unfold accepted, transmitted. rewrite !omap_snoc. fold (accepted tr). fold (transmitted tr). rewrite Ht.
  destruct Hstep as [e pkt e' b Hlen E|e e' r E|e box data e' r Hroom Hbox E|e e' r E].
  - exists q. rewrite !app_nil_r. split; [|done].
    eapply tx_inv_same; [|done]. replace e' with (card_rx pkt e).1 by (by rewrite E). apply card_rx_same_tx.
  - exists q. rewrite !app_nil_r. split; [|done]. eapply tx_inv_same; [by eapply recv_same_tx|done].
  - destruct (decide (1514 < lenZ data)) as [Hbig|Hlen].
    { revert E. unfold send. rewrite bool_decide_eq_true_2 by done. intros [= <- <-].
      exists q. by rewrite !app_nil_r. }
    destruct (decide (tx_packets e < U64_MAX)) as [Hn|Hn].
    + destruct (send_spec e q box data Hq Hbox ltac:(lia) Hn) as (e1 & E1 & _ & _ & _ & Hinv).
      rewrite E in E1. injection E1 as <- ->. exists (q ++ [data]).
      split; [apply Hinv; by eapply tx_room_spec|]. by rewrite app_nil_r, app_assoc.
    + exfalso. revert E. unfold send. rewrite bool_decide_eq_false_2 by lia.
      destruct (idx _ _); [|done]. obind. destruct (idx_set _ _ _); [|done]. obind.
      unfold add_chk. rewrite bool_decide_eq_false_2; [done|]. unfold U64_MAX in Hn. lia.
  - destruct (card_tx_spec e q Hq) as (e1 & E1 & Hinv & _). rewrite E in E1. injection E1 as <- ->.
    exists (tail q). split; [done|]. rewrite app_nil_r, <- app_assoc. f_equal. apply tail_split.
Qed.

(** C17.  The receive ring is a queue.  Along every interleaving of frames
    arriving, receives, sends and transmissions, the frames the card kept are
    the ones the driver returned, in order and each once, followed by the ones
    still in the ring; the driver's next receive returns the oldest of those,
    or nothing when there are none, without a panic; and the card keeps every
    frame while fewer than 63 wait. *)
Theorem e1000_rx_fifo rx_ptr bufs_ptr tx_ptr r tr e :
  nic_run (fun _ => True) (init_device rx_ptr bufs_ptr tx_ptr r) tr e ->
  exists waiting, arrived tr = received tr ++ waiting /\ lenZ waiting <= 63 /\
    (rx_packets e < U64_MAX -> exists e', recv e = Ret (e', head waiting)) /\
    (lenZ waiting < 63 -> forall pkt, lenZ pkt <= RX_BUF_SIZE -> (card_rx pkt e).2 = true).
Proof.
  intros Hrun. destruct (init_device_split rx_ptr bufs_ptr tx_ptr r) as [e0 E0]. rewrite E0 in Hrun.
  destruct (rx_run _ _ tr e (init_rx_ok _ _ _ e0) Hrun) as (w & Hw & Ht).
  exists w. split; [done|]. split; [apply Hw|]. split.
  - intros Hn. destruct (recv_spec e w Hw Hn) as (e' & E & _). by exists e'.
  - intros Hlt pkt Hp. destruct (card_rx_spec e w pkt Hw Hp) as (e' & E & _). rewrite E. simpl.
    by apply bool_decide_eq_true_2.
Qed.


(** ** Witnesses *)

Definition demo_card : E1000 := init_device 0x1000 0x2000 0x3000 ∅.

(** A frame arrives and is taken. *)
Lemma e1000_rx_fifo_witness :
  exists e waiting, [[1; 2; 3]] = [[1; 2; 3]] ++ waiting /\ lenZ waiting <= 63 /\
    (rx_packets e < U64_MAX -> exists e', recv e = Ret (e', head waiting)) /\
    (lenZ waiting < 63 -> forall pkt, lenZ pkt <= RX_BUF_SIZE -> (card_rx pkt e).2 = true).
Proof.
  destruct (recv_spec (card_rx [1; 2; 3] demo_card).1 [[1; 2; 3]]) as (e & E & _).
  - destruct (init_device_split 0x1000 0x2000 0x3000 ∅) as [e0 E0].
    destruct (card_rx_spec demo_card [] [1; 2; 3]) as (e' & E' & H'); [|done|].
    + unfold demo_card. rewrite E0. apply init_rx_ok.
    + by rewrite E'.
  - by vm_compute.
  - exists e. apply (e1000_rx_fifo 0x1000 0x2000 0x3000 ∅
      [EvArrive [1; 2; 3] (card_rx [1; 2; 3] demo_card).2; EvRecv (Some [1; 2; 3])] e).
    apply (run_snoc _ _ [_] (card_rx [1; 2; 3] demo_card).1).
    + apply (run_snoc _ _ [] demo_card); [apply run_nil|]. apply step_arrive; [by vm_compute|].
      by destruct (card_rx [1; 2; 3] demo_card).
    + by apply step_recv.
Defined.

