(* ===== verification/Dns.v ===== *)
(** * DNS messages

    kernel/src/net/dns.rs: the query the resolver sends and the reading of
    the answer, over byte buffers. *)
From S2P Require Import Prelude Str.
Local Open Scope Z_scope.

Abbreviation DNS_TYPE_A := 1 (only parsing).
Abbreviation DNS_CLASS_IN := 1 (only parsing).

(** [out[i] = b] for each pair, in order. *)
Definition put_all (out : list Z) (writes : list (Z * Z)) : outcome (list Z) :=
  ofold (fun o w => idx_set o w.1 w.2) out writes.

(** The loop over the labels: the buffer and the next offset, or [None] when
    the function returned there. *)
Fixpoint query_labels (labels : list (list Z)) (out : list Z) (off : Z) : outcome (list Z * option Z) :=
  match labels with
  | [] => Ret (out, Some off)
  | label :: labels =>
      if (lenZ label =? 0) || bool_decide (63 < lenZ label) then Ret (out, None) else
      limit ← lenZ out -! 5;
      if bool_decide (limit < off + 1 + lenZ label) then Ret (out, None) else
      out ← idx_set out off (wrap 8 (lenZ label));
      '(out, off) ← ofold (fun '(out, off) b => out ← idx_set out off b; Ret (out, off + 1)) (out, off + 1) label;
      query_labels labels out off
  end.

Definition build_query (name : list Z) (id : Z) (out : list Z) : outcome (list Z * option Z) :=
  out ← put_all out
    [(0, wrap 8 (Z.shiftr id 8)); (1, wrap 8 id); (2, 0x01); (3, 0x00); (4, 0x00); (5, 0x01);
     (6, 0x00); (7, 0x00); (8, 0x00); (9, 0x00); (10, 0x00); (11, 0x00)];
  '(out, r) ← query_labels (str_split 46 name) out 12;
  match r with
  | None => Ret (out, None)
  | Some off =>
      out ← put_all out [(off, 0); (off + 1, 0); (off + 2, wrap 8 DNS_TYPE_A);
                         (off + 3, 0); (off + 4, wrap 8 DNS_CLASS_IN)];
      Ret (out, Some (off + 5))
  end.

(** Each round moves forward, so [length buf + 1] rounds suffice; running out
    of rounds is [Panic]. *)
Fixpoint skip_rounds (fuel : nat) (buf : list Z) (off : Z) : outcome (option Z) :=
  match fuel with
  | O => Panic
  | S fuel =>
      if bool_decide (lenZ buf <= off) then Ret None else
      len ← idx buf off;
      if len =? 0 then off ← off +! 1 @ 64; Ret (Some off) else
      if Z.land len 0xC0 =? 0xC0 then off ← off +! 2 @ 64; Ret (Some off) else
      off ← (d ← 1 +! len @ 64; off +! d @ 64);
      skip_rounds fuel buf off
  end.
Definition skip_name (buf : list Z) (off : Z) : outcome (option Z) := skip_rounds (S (length buf)) buf off.

(** [u16::from_be_bytes([buf[off], buf[off+1]])] *)
Definition be16 (buf : list Z) (off : Z) : outcome Z :=
  a ← idx buf off; b ← idx buf (off + 1); Ret (of_be [a; b]).

(** The questions are skipped. *)
Fixpoint skip_questions (n : nat) (buf : list Z) (off : Z) : outcome (option Z) :=
  match n with
  | O => Ret (Some off)
  | S n =>
      r ← skip_name buf off;
      match r with
      | None => Ret None
      | Some off =>
          match checked_add 64 off 4 with
          | None => Ret None
          | Some off => if bool_decide (lenZ buf < off) then Ret None else skip_questions n buf off
          end
      end
  end.

(** The first address record among the answers. *)
Fixpoint walk_answers (n : nat) (buf : list Z) (off : Z) : outcome (option (list Z)) :=
  match n with
  | O => Ret None
  | S n =>
      r ← skip_name buf off;
      match r with
      | None => Ret None
      | Some off =>
          e ← off +! 10 @ 64;
          if bool_decide (lenZ buf < e) then Ret None else
          r_type ← be16 buf off;
          _ ← be16 buf (off + 2);
          _ ← be16 buf (off + 4);
          _ ← be16 buf (off + 6);
          rdlen ← be16 buf (off + 8);
          off ← off +! 10 @ 64;
          e ← off +! rdlen @ 64;
          if bool_decide (lenZ buf < e) then Ret None else
          if (r_type =? DNS_TYPE_A) && (rdlen =? 4) then
            a ← idx buf off; b ← idx buf (off + 1); c ← idx buf (off + 2); d ← idx buf (off + 3);
            Ret (Some [a; b; c; d])
          else
          off ← off +! rdlen @ 64;
          walk_answers n buf off
      end
  end.

Definition parse_a_response (buf : list Z) (expected_id : Z) : outcome (option (list Z)) :=
  if bool_decide (lenZ buf < 12) then Ret None else
  id ← be16 buf 0;
  if negb (id =? expected_id) then Ret None else
  flags ← be16 buf 2;
  if Z.land flags 0x8000 =? 0 then Ret None else
  if negb (Z.land flags 0x000f =? 0) then Ret None else
  qd ← be16 buf 4;
  an ← be16 buf 6;
  if an =? 0 then Ret None else
  r ← skip_questions (Z.to_nat qd) buf 12;
  match r with
  | None => Ret None
  | Some off => walk_answers (Z.to_nat an) buf off
  end.

(** * Correctness of the DNS messages

    The wire format of RFC 1035 as a reference, and the theorems that the
    resolver's query is such a message, that the first address record of any
    well-formed response is found, and that no packet makes the reader panic. *)

(** ** The wire format *)

(** A name: labels, then the root or a pointer to an earlier name. *)
Inductive name_tail := NRoot | NPointer (target : Z).
Record wname := mkName { wn_labels : list (list Z); wn_tail : name_tail }.
Record question := mkQ { q_name : wname; q_type : Z; q_class : Z }.
Record rr := mkRR { rr_name : wname; rr_type : Z; rr_class : Z; rr_ttl : Z; rr_data : list Z }.
Record message := mkMsg {
  m_id : Z; m_flags : Z; m_questions : list question; m_answers : list rr;
  m_ns : Z; m_ar : Z; m_rest : list Z
}.

Definition wire_labels (ls : list (list Z)) : list Z := concat ((fun l => lenZ l :: l) <$> ls).
Definition wire_tail (t : name_tail) : list Z :=
  match t with NRoot => [0] | NPointer p => [192 + p / 256; p mod 256] end.
Definition wire_name (n : wname) : list Z := wire_labels (wn_labels n) ++ wire_tail (wn_tail n).
Definition wire_question (q : question) : list Z :=
  wire_name (q_name q) ++ be_bytes 2 (q_type q) ++ be_bytes 2 (q_class q).
Definition wire_rr (r : rr) : list Z :=
  wire_name (rr_name r) ++ be_bytes 2 (rr_type r) ++ be_bytes 2 (rr_class r) ++ be_bytes 2 (rr_ttl r / 65536) ++
  be_bytes 2 (rr_ttl r mod 65536) ++ be_bytes 2 (lenZ (rr_data r)) ++ rr_data r.
Definition wire_message (m : message) : list Z :=
  be_bytes 2 (m_id m) ++ be_bytes 2 (m_flags m) ++ be_bytes 2 (lenZ (m_questions m)) ++
  be_bytes 2 (lenZ (m_answers m)) ++ be_bytes 2 (m_ns m) ++ be_bytes 2 (m_ar m) ++
  concat (wire_question <$> m_questions m) ++ concat (wire_rr <$> m_answers m) ++ m_rest m.

Definition label_ok (l : list Z) : Prop := 1 <= lenZ l <= 63.
Definition name_ok (n : wname) : Prop :=
  Forall label_ok (wn_labels n) /\ match wn_tail n with NRoot => True | NPointer p => fits 14 p end.
Definition rr_ok (r : rr) : Prop := name_ok (rr_name r) /\ fits 16 (rr_type r) /\ lenZ (rr_data r) < 2 ^ 16.
Record message_ok (m : message) : Prop := mkMsgOk {
  mo_id : fits 16 (m_id m);
  mo_flags : fits 16 (m_flags m);
  mo_qd : lenZ (m_questions m) < 2 ^ 16;
  mo_an : lenZ (m_answers m) < 2 ^ 16;
  mo_questions : Forall (fun q => name_ok (q_name q)) (m_questions m);
  mo_answers : Forall rr_ok (m_answers m);
  mo_len : lenZ (wire_message m) < 2 ^ 63
}.

(** The address of the first A record. *)
Definition is_a (r : rr) : bool := (rr_type r =? DNS_TYPE_A) && (lenZ (rr_data r) =? 4).
Definition first_a (ans : list rr) : option (list Z) := rr_data <$> head (List.filter is_a ans).

(** A response without error. *)
Definition good_response (flags : Z) : bool := Z.testbit flags 15 && (flags mod 16 =? 0).

(** ** Reading at a position *)

Lemma idx_at {A} (pre : list A) x post : idx (pre ++ x :: post) (lenZ pre) = Ret x.
Proof.
  apply idx_Ret. split; [apply lenZ_nonneg|]. unfold lenZ. rewrite Nat2Z.id.
  by rewrite lookup_app_r, Nat.sub_diag by lia.
Qed.

Lemma be16_at pre x post : fits 16 x -> be16 (pre ++ be_bytes 2 x ++ post) (lenZ pre) = Ret x.
Proof.
  intros Hx. unfold be16. destruct (be_bytes 2 x) as [|a [|b [|c l]]] eqn:E; try done.
  change ((pre ++ [a; b] ++ post)) with (pre ++ a :: b :: post). rewrite idx_at. obind.
  replace (pre ++ a :: b :: post) with ((pre ++ [a]) ++ b :: post) by (by rewrite <- app_assoc).
  replace (lenZ pre + 1) with (lenZ (pre ++ [a])) by (by rewrite lenZ_app).
  rewrite idx_at. obind. rewrite <- E, of_be_bytes_id; done.
Qed.

Lemma lenZ_be n x : lenZ (be_bytes n x) = Z.of_nat n.
Proof. unfold lenZ. by rewrite length_be_bytes. Qed.

(** [be16] at an offset given by a length. *)
Lemma be16_off buf off pre x post :
  buf = pre ++ be_bytes 2 x ++ post -> off = lenZ pre -> fits 16 x -> be16 buf off = Ret x.
Proof. intros -> -> Hx. by apply be16_at. Qed.

(** ** Names *)

Lemma label_bits n : 0 <= n < 64 -> Z.land n 192 = 0 /\ Z.land (192 + n) 192 = 192.
Proof.
  intros Hn. assert (Forall (fun n => Z.land n 192 = 0 /\ Z.land (192 + n) 192 = 192) (seqZ 0 64)) as Hall.
  { apply Forall_forall. intros x Hx. revert x Hx. apply (proj1 (Forall_forall _ _)).
    vm_compute. repeat constructor. }
  rewrite Forall_forall in Hall. apply Hall, elem_of_seqZ. lia.
Qed.

Lemma skip_rounds_spec t post ls : forall fuel pre,
  Forall label_ok ls -> match t with NRoot => True | NPointer p => fits 14 p end ->
  (length ls < fuel)%nat -> lenZ (pre ++ wire_labels ls ++ wire_tail t ++ post) < 2 ^ 63 ->
  skip_rounds fuel (pre ++ wire_labels ls ++ wire_tail t ++ post) (lenZ pre) =
    Ret (Some (lenZ pre + lenZ (wire_labels ls ++ wire_tail t))).
Proof.
  induction ls as [|l ls IH]; intros fuel pre Hls Ht Hfuel Hlen;
    (destruct fuel as [|fuel]; [lia|]); cbn [skip_rounds].
  - change (wire_labels [] ++ wire_tail t ++ post) with (wire_tail t ++ post) in *.
    change (wire_labels [] ++ wire_tail t) with (wire_tail t). pose proof (lenZ_nonneg post).
    pose proof (lenZ_nonneg pre). rewrite !lenZ_app in Hlen.
    destruct t as [|p]; cbn [wire_tail] in *; cbn [app]; rewrite !lenZ_cons, lenZ_nil in Hlen.
    + rewrite bool_decide_eq_false_2 by (rewrite lenZ_app, lenZ_cons; lia).
      rewrite idx_at. obind. cbn [Z.eqb]. rewrite add_chk_ok by lia. done.
    + unfold fits in Ht. pose proof (Z.div_pos p 256 ltac:(lia) ltac:(lia)).
      pose proof (Z.div_lt_upper_bound p 256 64 ltac:(lia) ltac:(lia)).
      rewrite bool_decide_eq_false_2 by (rewrite lenZ_app, !lenZ_cons; lia).
      rewrite idx_at. obind. destruct (Z.eqb_spec (192 + p / 256) 0); [lia|].
      rewrite (proj2 (label_bits _ ltac:(split; [|done]; done))). cbn [Z.eqb Pos.eqb].
      rewrite add_chk_ok by lia. done.
  - apply Forall_cons in Hls as [[Hl1 Hl2] Hls].
    assert (wire_labels (l :: ls) = lenZ l :: l ++ wire_labels ls) as Ew by done.
    rewrite Ew in *. cbn [app] in *. rewrite <- !app_assoc in *.
    pose proof (lenZ_nonneg pre). pose proof (lenZ_nonneg (wire_labels ls ++ wire_tail t ++ post)).
    rewrite lenZ_app, lenZ_cons, lenZ_app in Hlen.
    rewrite bool_decide_eq_false_2 by (rewrite lenZ_app, lenZ_cons, lenZ_app; lia).
    rewrite idx_at. obind. destruct (Z.eqb_spec (lenZ l) 0); [lia|].
    rewrite (proj1 (label_bits (lenZ l) ltac:(lia))). cbn [Z.eqb].
    rewrite add_chk_ok by lia. obind. rewrite add_chk_ok by lia. obind.
    replace (pre ++ lenZ l :: l ++ wire_labels ls ++ wire_tail t ++ post)
      with ((pre ++ lenZ l :: l) ++ wire_labels ls ++ wire_tail t ++ post) by (by rewrite <- app_assoc).
    replace (lenZ pre + (1 + lenZ l)) with (lenZ (pre ++ lenZ l :: l)) by (by rewrite lenZ_app, lenZ_cons).
    rewrite IH; [|done|done|simpl in Hfuel; lia|].
    + do 2 f_equal. rewrite !lenZ_app, !lenZ_cons, !lenZ_app. lia.
    + rewrite !lenZ_app, !lenZ_cons in *. lia.
Qed.

Lemma length_wire_labels ls : (length ls <= length (wire_labels ls))%nat.
Proof.
  induction ls as [|l ls IH]; [done|]. unfold wire_labels in *. cbn [fmap list_fmap concat length].
  rewrite length_app. cbn [length]. lia.
Qed.

Lemma skip_name_spec n pre post :
  name_ok n -> lenZ (pre ++ wire_name n ++ post) < 2 ^ 63 ->
  skip_name (pre ++ wire_name n ++ post) (lenZ pre) = Ret (Some (lenZ pre + lenZ (wire_name n))).
Proof.
  destruct n as [ls t]. intros [Hls Ht] Hlen. unfold skip_name, wire_name in *. cbn [wn_labels wn_tail] in *.
  rewrite <- app_assoc in *. apply skip_rounds_spec; [done|done| |done].
  rewrite !length_app. pose proof (length_wire_labels ls). lia.
Qed.

(** ** The sections of a message *)

Lemma skip_questions_spec qs post : forall pre,
  Forall (fun q => name_ok (q_name q)) qs ->
  lenZ (pre ++ concat (wire_question <$> qs) ++ post) < 2 ^ 63 ->
  skip_questions (length qs) (pre ++ concat (wire_question <$> qs) ++ post) (lenZ pre) =
    Ret (Some (lenZ pre + lenZ (concat (wire_question <$> qs)))).
Proof.
  induction qs as [|q qs IH]; intros pre Hqs Hlen; [by change (lenZ (concat (wire_question <$> []))) with 0; rewrite Z.add_0_r|].
  apply Forall_cons in Hqs as [Hq Hqs]. cbn [fmap list_fmap concat length skip_questions] in *.
  set (rest := concat (wire_question <$> qs)) in *.
  set (fields := be_bytes 2 (q_type q) ++ be_bytes 2 (q_class q)).
  assert (lenZ fields = 4) as Hf by (unfold fields; by rewrite lenZ_app, !lenZ_be).
  replace (wire_question q) with (wire_name (q_name q) ++ fields) in * by done.
  rewrite <- !app_assoc in *. rewrite skip_name_spec by done. obind.
  unfold checked_add. rewrite !lenZ_app in Hlen.
  pose proof (lenZ_nonneg pre). pose proof (lenZ_nonneg rest). pose proof (lenZ_nonneg post).
  rewrite bool_decide_eq_true_2 by lia. rewrite bool_decide_eq_false_2 by (rewrite !lenZ_app; lia).
  replace (pre ++ wire_name (q_name q) ++ fields ++ rest ++ post)
    with ((pre ++ wire_name (q_name q) ++ fields) ++ rest ++ post) by (by rewrite <- !app_assoc).
  replace (lenZ pre + lenZ (wire_name (q_name q)) + 4) with (lenZ (pre ++ wire_name (q_name q) ++ fields))
    by (rewrite !lenZ_app; lia).
  rewrite IH; [|done|rewrite !lenZ_app; lia]. do 2 f_equal. rewrite !lenZ_app. lia.
Qed.

(** A field that is not kept: some 16-bit value. *)
Lemma be_bytes_norm x : exists y, be_bytes 2 x = be_bytes 2 y /\ fits 16 y.
Proof.
  exists (of_be (be_bytes 2 x)). unfold be_bytes, of_be. rewrite reverse_involutive.
  rewrite of_le_bytes. split; [|unfold fits; apply Z.mod_pos_bound; lia]. f_equal.
  cbn [le_bytes]. change (256 ^ Z.of_nat 2) with (256 * 256). rewrite Z.rem_mul_r by lia.
  pose proof (Z.mod_pos_bound x 256 ltac:(lia)). f_equal; [|f_equal].
  - rewrite Z.mul_comm, Z.mod_add by lia. by rewrite Z.mod_mod.
  - rewrite Z.mul_comm, Z.div_add by lia. rewrite (Z.div_small (x mod 256)) by lia.
    by rewrite Z.add_0_l, Z.mod_mod.
Qed.

(** The fixed fields of a record, after its name. *)
Lemma rr_fields_spec r pre post :
  rr_ok r -> let buf := pre ++ wire_name (rr_name r) ++ drop (length (wire_name (rr_name r))) (wire_rr r) ++ post in
  let off := lenZ pre + lenZ (wire_name (rr_name r)) in
  be16 buf off = Ret (rr_type r) /\ is_ret (be16 buf (off + 2)) = true /\
  is_ret (be16 buf (off + 4)) = true /\ is_ret (be16 buf (off + 6)) = true /\
  be16 buf (off + 8) = Ret (lenZ (rr_data r)).
Proof.
  intros (_ & Hty & Hd) buf off. unfold buf, off, wire_rr. rewrite drop_app_length.
  pose proof (lenZ_nonneg (rr_data r)). set (nm := wire_name (rr_name r)).
  destruct (be_bytes_norm (rr_class r)) as (c & -> & Hc). destruct (be_bytes_norm (rr_ttl r / 65536)) as (t1 & -> & Ht1).
  destruct (be_bytes_norm (rr_ttl r mod 65536)) as (t2 & -> & Ht2).
  set (ty := be_bytes 2 (rr_type r)). set (dl := be_bytes 2 (lenZ (rr_data r))).
  split_and!.
  - eapply (be16_off _ _ (pre ++ nm)); [by rewrite <- !app_assoc|by rewrite lenZ_app|done].
  - erewrite (be16_off _ _ (pre ++ nm ++ ty) c); [done|by rewrite <- !app_assoc|unfold ty; rewrite !lenZ_app, lenZ_be; lia|done].
  - erewrite (be16_off _ _ (pre ++ nm ++ ty ++ be_bytes 2 c) t1);
      [done|by rewrite <- !app_assoc|unfold ty; rewrite !lenZ_app, !lenZ_be; lia|done].
  - erewrite (be16_off _ _ (pre ++ nm ++ ty ++ be_bytes 2 c ++ be_bytes 2 t1) t2);
      [done|by rewrite <- !app_assoc|unfold ty; rewrite !lenZ_app, !lenZ_be; lia|done].
  - eapply (be16_off _ _ (pre ++ nm ++ ty ++ be_bytes 2 c ++ be_bytes 2 t1 ++ be_bytes 2 t2));
      [by rewrite <- !app_assoc|unfold ty; rewrite !lenZ_app, !lenZ_be; lia|unfold fits; lia].
Qed.

(** The bytes of a record's data. *)
Lemma data_at (pre : list Z) a b c d post :
  let buf := pre ++ [a; b; c; d] ++ post in
  idx buf (lenZ pre) = Ret a /\ idx buf (lenZ pre + 1) = Ret b /\ idx buf (lenZ pre + 2) = Ret c /\
  idx buf (lenZ pre + 3) = Ret d.
Proof.
  intros buf. unfold buf. split_and!.
  - apply idx_at.
  - replace (lenZ pre + 1) with (lenZ (pre ++ [a])) by (by rewrite lenZ_app).
    replace (pre ++ [a; b; c; d] ++ post) with ((pre ++ [a]) ++ b :: [c; d] ++ post) by (by rewrite <- app_assoc).
    apply idx_at.
  - replace (lenZ pre + 2) with (lenZ (pre ++ [a; b])) by (by rewrite lenZ_app).
    replace (pre ++ [a; b; c; d] ++ post) with ((pre ++ [a; b]) ++ c :: [d] ++ post) by (by rewrite <- app_assoc).
    apply idx_at.
  - replace (lenZ pre + 3) with (lenZ (pre ++ [a; b; c])) by (by rewrite lenZ_app).
    replace (pre ++ [a; b; c; d] ++ post) with ((pre ++ [a; b; c]) ++ d :: post) by (by rewrite <- app_assoc).
    apply idx_at.
Qed.

Lemma wire_rr_split r :
  wire_rr r = wire_name (rr_name r) ++ drop (length (wire_name (rr_name r))) (wire_rr r) /\
  exists fixed, drop (length (wire_name (rr_name r))) (wire_rr r) = fixed ++ rr_data r /\ lenZ fixed = 10.
Proof.
  unfold wire_rr. rewrite drop_app_length. split; [done|].
  exists (be_bytes 2 (rr_type r) ++ be_bytes 2 (rr_class r) ++ be_bytes 2 (rr_ttl r / 65536) ++
          be_bytes 2 (rr_ttl r mod 65536) ++ be_bytes 2 (lenZ (rr_data r))).
  by rewrite <- !app_assoc, !lenZ_app, !lenZ_be.
Qed.

Lemma first_a_cons r ans : first_a (r :: ans) = if is_a r then Some (rr_data r) else first_a ans.
Proof. unfold first_a. cbn [List.filter]. by destruct (is_a r). Qed.

Lemma is_ret_inv {A} (o : outcome A) : is_ret o = true -> exists a, o = Ret a.
Proof. destruct o; [by eexists|done]. Qed.

Lemma walk_answers_spec ans post : forall pre,
  Forall rr_ok ans -> lenZ (pre ++ concat (wire_rr <$> ans) ++ post) < 2 ^ 63 ->
  walk_answers (length ans) (pre ++ concat (wire_rr <$> ans) ++ post) (lenZ pre) = Ret (first_a ans).
Proof.
  induction ans as [|r ans IH]; intros pre Hans Hlen; [done|].
  apply Forall_cons in Hans as [Hr Hans]. cbn [fmap list_fmap concat length walk_answers] in *.
  set (rest := concat (wire_rr <$> ans)) in *. rewrite <- app_assoc in *.
  pose proof (rr_fields_spec r pre (rest ++ post) Hr) as (F1 & (x2 & F2)%is_ret_inv & (x3 & F3)%is_ret_inv & (x4 & F4)%is_ret_inv & F5).
  destruct (wire_rr_split r) as [Es (fixed & Ef & Hfix)]. rewrite Es in Hlen |- *. rewrite Ef in *.
  rewrite <- !app_assoc in *. set (nm := wire_name (rr_name r)) in *.
  assert (lenZ (pre ++ nm ++ fixed ++ rr_data r ++ rest ++ post) =
    lenZ pre + lenZ nm + 10 + lenZ (rr_data r) + lenZ rest + lenZ post) as Hl by (rewrite !lenZ_app; lia).
  pose proof (lenZ_nonneg pre). pose proof (lenZ_nonneg nm). pose proof (lenZ_nonneg (rr_data r)).
  pose proof (lenZ_nonneg rest). pose proof (lenZ_nonneg post).
  assert (skip_name (pre ++ nm ++ fixed ++ rr_data r ++ rest ++ post) (lenZ pre) = Ret (Some (lenZ pre + lenZ nm))) as ->
    by (apply skip_name_spec; [apply Hr|done]). obind.
  rewrite add_chk_ok by lia. obind. rewrite bool_decide_eq_false_2 by lia.
  rewrite F1. obind. rewrite F2. obind. rewrite F3. obind. rewrite F4. obind. rewrite F5. obind.
  rewrite add_chk_ok by lia. obind. rewrite bool_decide_eq_false_2 by lia.
  rewrite first_a_cons. unfold is_a.
  replace (lenZ pre + lenZ nm + 10) with (lenZ (pre ++ nm ++ fixed)) by (rewrite !lenZ_app; lia).
  destruct (_ && _) eqn:Ea.
  - apply andb_true_iff in Ea as [_ Ea]. apply Z.eqb_eq in Ea.
    destruct (rr_data r) as [|a [|b [|c [|d [|e l]]]]] eqn:Ed; try done.
    2:{ rewrite !lenZ_cons in Ea. pose proof (lenZ_nonneg l). lia. }
    destruct (data_at (pre ++ nm ++ fixed) a b c d (rest ++ post)) as (D1 & D2 & D3 & D4).
    rewrite <- !app_assoc in D1, D2, D3, D4. rewrite D1. obind. rewrite D2. obind. rewrite D3. obind. by rewrite D4.
  - replace (lenZ (pre ++ nm ++ fixed) + lenZ (rr_data r)) with (lenZ (pre ++ nm ++ fixed ++ rr_data r))
      by (rewrite !lenZ_app; lia).
    replace (pre ++ nm ++ fixed ++ rr_data r ++ rest ++ post)
      with ((pre ++ nm ++ fixed ++ rr_data r) ++ rest ++ post) by (by rewrite <- !app_assoc).
    apply IH; [done|]. by rewrite <- !app_assoc.
Qed.

Lemma wire_message_split m :
  exists hdr, wire_message m = hdr ++ concat (wire_question <$> m_questions m) ++
    concat (wire_rr <$> m_answers m) ++ m_rest m /\ lenZ hdr = 12.
Proof.
  exists (be_bytes 2 (m_id m) ++ be_bytes 2 (m_flags m) ++ be_bytes 2 (lenZ (m_questions m)) ++
    be_bytes 2 (lenZ (m_answers m)) ++ be_bytes 2 (m_ns m) ++ be_bytes 2 (m_ar m)).
  unfold wire_message. by rewrite <- !app_assoc, !lenZ_app, !lenZ_be.
Qed.

Lemma header_spec m :
  message_ok m -> let buf := wire_message m in
  be16 buf 0 = Ret (m_id m) /\ be16 buf 2 = Ret (m_flags m) /\
  be16 buf 4 = Ret (lenZ (m_questions m)) /\ be16 buf 6 = Ret (lenZ (m_answers m)).
Proof.
  intros []. pose proof (lenZ_nonneg (m_questions m)). pose proof (lenZ_nonneg (m_answers m)).
  unfold wire_message. split_and!.
  - by eapply (be16_off _ _ []).
  - by eapply (be16_off _ _ (be_bytes 2 (m_id m))).
  - eapply (be16_off _ _ (be_bytes 2 (m_id m) ++ be_bytes 2 (m_flags m))); [by rewrite <- !app_assoc|done|done].
  - eapply (be16_off _ _ (be_bytes 2 (m_id m) ++ be_bytes 2 (m_flags m) ++ be_bytes 2 (lenZ (m_questions m))));
      [by rewrite <- !app_assoc|done|done].
Qed.

(** The two tests on the flags. *)
Lemma good_response_spec flags :
  fits 16 flags ->
  good_response flags = negb (Z.land flags 0x8000 =? 0) && (Z.land flags 0x000f =? 0).
Proof.
  intros Hf. unfold good_response. f_equal.
  - change 0x8000 with (2 ^ 15). destruct (Z.testbit flags 15) eqn:E.
    + symmetry. apply negb_true_iff, Z.eqb_neq. intros H0.
      assert (Z.testbit (Z.land flags (2 ^ 15)) 15 = false) as Hb by (rewrite H0; apply Z.bits_0).
      by rewrite Z.land_spec, E, Z.pow2_bits_true in Hb.
    + symmetry. apply negb_false_iff, Z.eqb_eq, Z.bits_inj'. intros n Hn.
      rewrite Z.land_spec, Z.bits_0. destruct (decide (n = 15)) as [->|]; [by rewrite E|].
      by rewrite Z.pow2_bits_false, andb_false_r.
  - by change 0x000f with (Z.ones 4); rewrite Z.land_ones.
Qed.

(** C26.  Reading a DNS response.  For every well-formed RFC 1035 message,
    whatever the names, compression pointers, record types, authority and
    additional sections, the reader returns the address of the first A record
    among the answers if the message is a response without error to the query
    with this identifier, and nothing otherwise. *)
Theorem dns_first_a m expected_id :
  message_ok m ->
  parse_a_response (wire_message m) expected_id =
    Ret (if (m_id m =? expected_id) && good_response (m_flags m) then first_a (m_answers m) else None).
Proof.
  intros Hm. pose proof Hm as [Hid Hfl Hqd Han Hqs Hans Hlen].
  destruct (header_spec m Hm) as (H0 & H2 & H4 & H6). rewrite good_response_spec by done.
  destruct (wire_message_split m) as (hdr & Es & Hh).
  assert (12 <= lenZ (wire_message m)) as Hge.
  { rewrite Es, lenZ_app, Hh. pose proof (lenZ_nonneg (concat (wire_question <$> m_questions m) ++
      concat (wire_rr <$> m_answers m) ++ m_rest m)). lia. }
  unfold parse_a_response. rewrite bool_decide_eq_false_2 by lia.
  rewrite H0. obind. destruct (m_id m =? expected_id); [|done]. cbn [negb andb]. rewrite H2. obind.
  destruct (Z.land (m_flags m) 0x8000 =? 0); [done|]. cbn [negb andb].
  destruct (Z.land (m_flags m) 0x000f =? 0); [|done]. cbn [negb]. rewrite H4. obind. rewrite H6. obind.
  destruct (Z.eqb_spec (lenZ (m_answers m)) 0) as [E0|_].
  { by destruct (m_answers m); [|rewrite lenZ_cons in E0; pose proof (lenZ_nonneg l); lia]. }
  rewrite !lenZ_to_nat. rewrite Es in Hlen |- *.
  rewrite <- Hh. rewrite skip_questions_spec by done. obind.
  replace (hdr ++ concat (wire_question <$> m_questions m) ++ concat (wire_rr <$> m_answers m) ++ m_rest m)
    with ((hdr ++ concat (wire_question <$> m_questions m)) ++ concat (wire_rr <$> m_answers m) ++ m_rest m) in *
    by (by rewrite <- app_assoc).
  rewrite <- lenZ_app. by apply walk_answers_spec.
Qed.

(** ** Any packet *)

Section any_packet.
Context (buf : list Z) (Hbuf : bytes_ok buf) (Hsize : lenZ buf < 2 ^ 63).

Lemma idx_byte i : 0 <= i < lenZ buf -> exists b, idx buf i = Ret b /\ byte_ok b /\ buf !! Z.to_nat i = Some b.
Proof.
  intros Hi. destruct (lookup_lt_is_Some_2 buf (Z.to_nat i)) as [b Hb]; [unfold lenZ in Hi; lia|].
  exists b. split; [apply idx_Ret; split; [lia|done]|]. split; [|done].
  exact (proj1 (Forall_lookup _ _) Hbuf _ _ Hb).
Qed.

Lemma be16_in i : 0 <= i -> i + 1 < lenZ buf -> exists x, be16 buf i = Ret x /\ fits 16 x.
Proof.
  intros H0 H1. destruct (idx_byte i) as (a & Ea & Ha & _); [lia|].
  destruct (idx_byte (i + 1)) as (b & Eb & Hb & _); [lia|].
  unfold be16. rewrite Ea. obind. rewrite Eb. obind. eexists. split; [done|].
  cbn. unfold byte_ok, fits in *. lia.
Qed.

Lemma skip_rounds_total fuel : forall off,
  0 <= off -> Z.max 0 (lenZ buf - off) < Z.of_nat fuel ->
  exists r, skip_rounds fuel buf off = Ret r /\ forall o, r = Some o -> off < o <= lenZ buf + 1.
Proof.
  induction fuel as [|fuel IH]; intros off Hoff Hfuel; [lia|]. cbn [skip_rounds].
  case_bool_decide; [by exists None|].
  destruct (idx_byte off) as (b & Eb & Hb & _); [lia|]. unfold byte_ok in Hb. rewrite Eb. obind.
  destruct (Z.eqb_spec b 0).
  { rewrite add_chk_ok by lia. eexists. split; [done|]. intros o [= <-]. lia. }
  destruct (_ =? _).
  { rewrite add_chk_ok by lia. eexists. split; [done|]. intros o [= <-]. lia. }
  rewrite add_chk_ok by lia. obind. rewrite add_chk_ok by lia. obind.
  destruct (IH (off + (1 + b))) as (r & E & Hr); [lia|lia|]. exists r. split; [done|].
  intros o Ho. specialize (Hr o Ho). lia.
Qed.

Lemma skip_name_total off :
  0 <= off -> exists r, skip_name buf off = Ret r /\ forall o, r = Some o -> off < o <= lenZ buf + 1.
Proof. intros Hoff. apply skip_rounds_total; [done|]. unfold lenZ. lia. Qed.

Lemma skip_questions_total n : forall off,
  0 <= off -> exists r, skip_questions n buf off = Ret r /\ forall o, r = Some o -> 0 <= o.
Proof.
  induction n as [|n IH]; intros off Hoff; cbn [skip_questions].
  { exists (Some off). split; [done|]. by intros o [= <-]. }
  destruct (skip_name_total off Hoff) as ([o|] & -> & Hr); obind; [|by exists None].
  specialize (Hr o eq_refl). unfold checked_add. rewrite bool_decide_eq_true_2 by lia.
  case_bool_decide; [by exists None|]. apply IH. lia.
Qed.

Lemma walk_answers_total n : forall off,
  0 <= off -> exists r, walk_answers n buf off = Ret r /\
    forall a, r = Some a -> exists i, a = take 4 (drop i buf) /\ length a = 4%nat.
Proof.
  induction n as [|n IH]; intros off Hoff; cbn [walk_answers]; [by exists None|].
  destruct (skip_name_total off Hoff) as ([o|] & -> & Hr); obind; [|by exists None].
  specialize (Hr o eq_refl). rewrite add_chk_ok by lia. obind. case_bool_decide; [by exists None|].
  destruct (be16_in o) as (ty & -> & _); [lia|lia|]. obind.
  destruct (be16_in (o + 2)) as (? & -> & _); [lia|lia|]. obind.
  destruct (be16_in (o + 4)) as (? & -> & _); [lia|lia|]. obind.
  destruct (be16_in (o + 6)) as (? & -> & _); [lia|lia|]. obind.
  destruct (be16_in (o + 8)) as (len & -> & Hlen); [lia|lia|]. unfold fits in Hlen. obind.
  rewrite add_chk_ok by lia. obind. case_bool_decide; [by exists None|].
  destruct (_ && _) eqn:Ea; [|apply IH; lia].
  apply andb_true_iff in Ea as [_ Ea]. apply Z.eqb_eq in Ea. subst len.
  destruct (idx_byte (o + 10)) as (a & -> & _ & La); [lia|]. obind.
  destruct (idx_byte (o + 10 + 1)) as (b & -> & _ & Lb); [lia|]. obind.
  destruct (idx_byte (o + 10 + 2)) as (c & -> & _ & Lc); [lia|]. obind.
  destruct (idx_byte (o + 10 + 3)) as (d & -> & _ & Ld); [lia|]. obind.
  eexists. split; [done|]. intros ? [= <-]. exists (Z.to_nat (o + 10)). split; [|done].
  replace (Z.to_nat (o + 10 + 1)) with (Z.to_nat (o + 10) + 1)%nat in Lb by lia.
  replace (Z.to_nat (o + 10 + 2)) with (Z.to_nat (o + 10) + 2)%nat in Lc by lia.
  replace (Z.to_nat (o + 10 + 3)) with (Z.to_nat (o + 10) + 3)%nat in Ld by lia.
  rewrite <- (Nat.add_0_r (Z.to_nat (o + 10))) in La. rewrite <- !lookup_drop in *.
  destruct (drop (Z.to_nat (o + 10)) buf) as [|y0 [|y1 [|y2 [|y3 l]]]]; simplify_eq/=. done.
Qed.
End any_packet.

(** Reading any packet: whatever bytes arrive, the reader returns, never
    indexes out of range, never overflows and never loops, and an address it
    returns is four consecutive bytes of the packet. *)
Lemma dns_any_packet buf expected_id :
  bytes_ok buf -> lenZ buf < 2 ^ 63 ->
  exists r, parse_a_response buf expected_id = Ret r /\
    forall a, r = Some a -> exists i, a = take 4 (drop i buf) /\ length a = 4%nat.
Proof.
  intros Hb Hlen. unfold parse_a_response. case_bool_decide; [by exists None|].
  destruct (be16_in buf Hb 0) as (id & -> & _); [lia|lia|]. obind.
  destruct (negb _); [by exists None|].
  destruct (be16_in buf Hb 2) as (fl & -> & _); [lia|lia|]. obind.
  destruct (_ =? 0); [by exists None|]. destruct (negb _); [by exists None|].
  destruct (be16_in buf Hb 4) as (qd & -> & _); [lia|lia|]. obind.
  destruct (be16_in buf Hb 6) as (an & -> & _); [lia|lia|]. obind.
  destruct (_ =? 0); [by exists None|].
  destruct (skip_questions_total buf Hb Hlen (Z.to_nat qd) 12) as ([o|] & -> & Ho); [lia| |by exists None].
  apply walk_answers_total; [done|done|]. by apply Ho.
Qed.

(** ** The query *)

(** The 512-byte buffer once the bytes [P] are written at its start. *)
Definition filled (P : list Z) : list Z := P ++ replicate (512 - length P) 0.

Lemma lenZ_filled P : (length P <= 512)%nat -> lenZ (filled P) = 512.
Proof. intros HP. unfold filled, lenZ. rewrite length_app, length_replicate. lia. Qed.

Lemma put_filled P b : (length P < 512)%nat -> idx_set (filled P) (lenZ P) b = Ret (filled (P ++ [b])).
Proof.
  intros HP. unfold idx_set. rewrite bool_decide_eq_true_2 by (rewrite lenZ_filled; unfold lenZ; lia).
  f_equal. unfold filled. rewrite lenZ_to_nat, insert_app_r_alt, Nat.sub_diag by done.
  rewrite length_app. cbn [length]. replace (512 - length P)%nat with (S (512 - (length P + 1))) by lia.
  by rewrite <- app_assoc.
Qed.

Lemma put_all_filled bs : forall P,
  (length P + length bs <= 512)%nat ->
  put_all (filled P) (zip (seqZ (lenZ P) (lenZ bs)) bs) = Ret (filled (P ++ bs)).
Proof.
  induction bs as [|b bs IH]; intros P HP; [by rewrite app_nil_r|].
  cbn [length] in HP. pose proof (lenZ_nonneg bs). rewrite lenZ_cons, seqZ_cons by lia.
  unfold put_all. cbn [zip zip_with ofold fst snd]. rewrite put_filled by lia.
  replace (Z.succ (lenZ P)) with (lenZ (P ++ [b])) by (rewrite lenZ_app, lenZ_cons, lenZ_nil; lia).
  replace (Z.pred (1 + lenZ bs)) with (lenZ bs) by lia.
  fold (put_all (filled (P ++ [b])) (zip (seqZ (lenZ (P ++ [b])) (lenZ bs)) bs)).
  rewrite IH by (rewrite length_app; simpl; lia). by rewrite <- app_assoc.
Qed.

Lemma put_bytes_filled bs : forall P,
  (length P + length bs <= 512)%nat ->
  ofold (fun '(out, off) b => out ← idx_set out off b; Ret (out, off + 1)) (filled P, lenZ P) bs =
    Ret (filled (P ++ bs), lenZ (P ++ bs)).
Proof.
  induction bs as [|b bs IH]; intros P HP; [by rewrite app_nil_r|].
  cbn [length] in HP. cbn [ofold]. rewrite put_filled by lia. obind.
  replace (lenZ P + 1) with (lenZ (P ++ [b])) by (rewrite lenZ_app, lenZ_cons, lenZ_nil; lia).
  rewrite IH by (rewrite length_app; simpl; lia). by rewrite <- app_assoc.
Qed.

#[export] Instance label_ok_dec l : Decision (label_ok l).
Proof. unfold label_ok. apply _. Defined.

Lemma query_labels_spec ls : forall P,
  (length P + length (wire_labels ls) + 5 <= 512)%nat ->
  exists r, query_labels ls (filled P) (lenZ P) = Ret r /\
    if decide (Forall label_ok ls)
    then r = (filled (P ++ wire_labels ls), Some (lenZ (P ++ wire_labels ls))) else r.2 = None.
Proof.
  induction ls as [|l ls IH]; intros P HP.
  { eexists. split; [done|]. rewrite decide_True by done. by rewrite app_nil_r. }
  assert (wire_labels (l :: ls) = lenZ l :: l ++ wire_labels ls) as Ew by done.
  rewrite Ew in *. cbn [length] in HP. rewrite length_app in HP. cbn [query_labels].
  destruct (decide (label_ok l)) as [[Hl1 Hl2]|Hbad].
  2:{ destruct (decide (Forall label_ok (l :: ls))) as [[? _]%Forall_cons|_]; [done|]. unfold label_ok in Hbad.
      pose proof (lenZ_nonneg l). destruct (Z.eqb_spec (lenZ l) 0); [by eexists|]. cbn [orb].
      rewrite bool_decide_eq_true_2 by lia. by eexists. }
  destruct (Z.eqb_spec (lenZ l) 0); [lia|]. cbn [orb]. rewrite bool_decide_eq_false_2 by lia.
  rewrite lenZ_filled by lia. rewrite sub_chk_ok by lia. obind.
  rewrite bool_decide_eq_false_2 by (unfold lenZ; lia).
  rewrite (wrap_id 8) by (unfold fits; lia). rewrite put_filled by lia. obind.
  replace (lenZ P + 1) with (lenZ (P ++ [lenZ l])) by (rewrite lenZ_app, lenZ_cons, lenZ_nil; lia).
  rewrite put_bytes_filled by (rewrite length_app; simpl; lia). obind.
  destruct (IH ((P ++ [lenZ l]) ++ l)) as (r & E & Hr); [rewrite !length_app; simpl; lia|].
  exists r. split; [exact E|]. rewrite <- !app_assoc in Hr. cbn [app] in Hr.
  destruct (decide (Forall label_ok ls)) as [Hls|Hls].
  - by rewrite decide_True by (by apply Forall_cons).
  - by rewrite decide_False by (by intros [_ ?]%Forall_cons).
Qed.

Lemma length_wire_split c s : length (wire_labels (str_split c s)) = S (length s).
Proof.
  induction s as [|d s IH]; [done|]. cbn [str_split]. pose proof (str_split_nonempty c s) as Hne.
  destruct (str_split c s) as [|w ws]; [done|].
  assert (forall l ls, wire_labels (l :: ls) = lenZ l :: l ++ wire_labels ls) as Ew by done.
  rewrite Ew in IH. cbn [length] in IH. rewrite length_app in IH.
  case_bool_decide; rewrite !Ew; cbn [length app]; rewrite !length_app; cbn [length]; lia.
Qed.

(** The query for a name as a message. *)
Definition query_message (labels : list (list Z)) (id : Z) : message :=
  mkMsg id 0x0100 [mkQ (mkName labels NRoot) DNS_TYPE_A DNS_CLASS_IN] [] 0 0 [].

(** Building a query: for every name of at most 253 bytes the function
    returns without a panic; it refuses the name exactly when a label is empty
    or longer than 63 bytes, and otherwise the bytes it announces are the
    RFC 1035 message with that identifier, recursion desired, and one question
    for the labels of the name, type A, class IN. *)
Lemma dns_query_wire name id :
  lenZ name <= 253 -> fits 16 id ->
  let labels := str_split 46 name in
  exists out r, build_query name id (replicate 512 0) = Ret (out, r) /\
    r = (if decide (Forall label_ok labels) then Some (lenZ (wire_message (query_message labels id))) else None) /\
    (r <> None -> take (length (wire_message (query_message labels id))) out =
       wire_message (query_message labels id)).
Proof.
  intros Hname Hid labels. unfold build_query.
  set (hdr := [wrap 8 (Z.shiftr id 8); wrap 8 id; 1; 0; 0; 1; 0; 0; 0; 0; 0; 0]).
  change (replicate 512 0) with (filled []).
  rewrite (put_all_filled hdr [] ltac:(simpl; lia) :
    put_all (filled []) [(0, wrap 8 (Z.shiftr id 8)); (1, wrap 8 id); (2, 1); (3, 0); (4, 0); (5, 1);
     (6, 0); (7, 0); (8, 0); (9, 0); (10, 0); (11, 0)] = _). obind. change ([] ++ hdr) with hdr.
  pose proof (length_wire_split 46 name) as Hwl. fold labels in Hwl |- *.
  destruct (query_labels_spec labels hdr) as (r & E & Hr); [rewrite Hwl; unfold lenZ in Hname; simpl; lia|].
  change (lenZ hdr) with 12 in E. rewrite E. obind. destruct (decide (Forall label_ok labels)) as [Hok|Hbad].
  2:{ destruct r as [out ro]. simpl in Hr. subst ro. by exists out, None. }
  subst r. set (P := hdr ++ wire_labels labels) in *.
  assert (length P + 5 <= 512)%nat as HP by (unfold P; rewrite length_app, Hwl; unfold lenZ in Hname; simpl; lia).
  set (tail := [0; 0; 1; 0; 1]).
  assert (put_all (filled P) [(lenZ P, 0); (lenZ P + 1, 0); (lenZ P + 2, wrap 8 1); (lenZ P + 3, 0);
    (lenZ P + 4, wrap 8 1)] = Ret (filled (P ++ tail))) as ->.
  { rewrite <- put_all_filled by done. f_equal. change (lenZ tail) with 5.
    rewrite !seqZ_cons by lia. cbn [zip zip_with tail]. unfold Z.succ.
    rewrite <- !Z.add_assoc. done. }
  obind. assert (wire_message (query_message labels id) = P ++ tail) as ->.
  { unfold P, wire_message, query_message, wire_question, wire_name, hdr, tail.
    cbn [m_id m_flags m_questions m_answers m_ns m_ar m_rest fmap list_fmap concat q_name q_type q_class wn_labels wn_tail].
    rewrite !app_nil_r, <- !app_assoc.
    unfold wrap. rewrite Z.shiftr_div_pow2 by done. reflexivity. }
  exists (filled (P ++ tail)), (Some (lenZ P + 5)). split; [done|]. split; [by rewrite lenZ_app|].
  intros _. unfold filled. by rewrite take_app_length.
Qed.

(** ** Witnesses *)

(** A response for [a.b] with a CNAME before the address, both with pointers. *)
Definition demo_response : message :=
  mkMsg 0x1234 0x8180 [mkQ (mkName [[97]; [98]] NRoot) 1 1]
    [mkRR (mkName [] (NPointer 12)) 5 1 300 [1; 99; 192; 14];
     mkRR (mkName [[99]] (NPointer 14)) 1 1 300 [10; 0; 2; 2]] 0 0 [].

Lemma dns_first_a_witness :
  parse_a_response (wire_message demo_response) 0x1234 = Ret (Some [10; 0; 2; 2]).
Proof.
  apply (dns_first_a demo_response 0x1234). constructor; try by vm_compute.
  - repeat constructor; by vm_compute.
  - repeat constructor; by vm_compute.
Defined.

(** A packet cut in the middle of a record. *)
