(* ===== verification/Acpi.v ===== *)
(** * ACPI tables

    kernel/src/acpi/mod.rs: the search for the root pointer, the walk of the
    root table, and the reading of the MADT (processors, interrupt
    controllers, interrupt overrides) and of the FADT, over physical memory.
    The tables are only read.  The loops over an address range carry a round
    count that the range bounds; a loop that outlives its rounds is a
    [Panic], and the theorems below show it does not happen. *)
From S2P Require Import Prelude Phys.
Local Open Scope Z_scope.

Abbreviation EBDA_SEG_PTR := 0x40E (only parsing).
Abbreviation BIOS_ROM_START := 0xE0000 (only parsing).
Abbreviation BIOS_ROM_END := 0xFFFFF (only parsing).
Definition RSDP_SIG : list Z := bstr "RSD PTR ".

Record CpuCore := mkCpuCore { acpi_processor_id : Z; lapic_id : Z; cpu_enabled : bool }.
Record IoApic := mkIoApic { io_id : Z; io_address : Z; gsi_base : Z }.
Record IrqOverride := mkIrqOverride { bus_source : Z; irq_source : Z; ov_gsi : Z; ov_flags : Z }.

Record AcpiInfo := mkAcpiInfo {
  revision : Z;
  lapic_phys_addr : Z;
  cores : list CpuCore;
  io_apics : list IoApic;
  overrides : list IrqOverride;
  sci_interrupt : Z;
  reset_reg_addr : Z;
  reset_value : Z;
}.
Definition acpi_default : AcpiInfo := mkAcpiInfo 0 0 [] [] [] 0 0 0.

Definition set_revision v i := mkAcpiInfo v (lapic_phys_addr i) (cores i) (io_apics i) (overrides i) (sci_interrupt i) (reset_reg_addr i) (reset_value i).
Definition set_lapic v i := mkAcpiInfo (revision i) v (cores i) (io_apics i) (overrides i) (sci_interrupt i) (reset_reg_addr i) (reset_value i).
Definition push_core v i := mkAcpiInfo (revision i) (lapic_phys_addr i) (cores i ++ [v]) (io_apics i) (overrides i) (sci_interrupt i) (reset_reg_addr i) (reset_value i).
Definition push_io_apic v i := mkAcpiInfo (revision i) (lapic_phys_addr i) (cores i) (io_apics i ++ [v]) (overrides i) (sci_interrupt i) (reset_reg_addr i) (reset_value i).
Definition push_override v i := mkAcpiInfo (revision i) (lapic_phys_addr i) (cores i) (io_apics i) (overrides i ++ [v]) (sci_interrupt i) (reset_reg_addr i) (reset_value i).
Definition set_sci v i := mkAcpiInfo (revision i) (lapic_phys_addr i) (cores i) (io_apics i) (overrides i) v (reset_reg_addr i) (reset_value i).
Definition set_reset a v i := mkAcpiInfo (revision i) (lapic_phys_addr i) (cores i) (io_apics i) (overrides i) (sci_interrupt i) a v.

(** [ptr::read_unaligned] at the widths the tables use. *)
Definition ld (m : phys) (n : nat) (a : Z) : Z := of_le (load_bytes m a n).

(** The fields of the packed structures, by their offsets. *)
Definition rsdp_revision (m : phys) (p : Z) : Z := m (p + 15).
Definition rsdp_rsdt_addr (m : phys) (p : Z) : Z := ld m 4 (p + 16).
Definition rsdp_xsdt_addr (m : phys) (p : Z) : Z := ld m 8 (p + 24).
Abbreviation SIZEOF_RSDP_V1 := 20 (only parsing).
Abbreviation SIZEOF_RSDP_V2 := 36 (only parsing).
Definition sdt_signature (m : phys) (p : Z) : list Z := load_bytes m p 4.
Definition sdt_length (m : phys) (p : Z) : Z := ld m 4 (p + 4).
Definition sdt_revision (m : phys) (p : Z) : Z := m (p + 8).
Abbreviation SIZEOF_SDT_HEADER := 36 (only parsing).
Definition madt_lapic_address (m : phys) (p : Z) : Z := ld m 4 (p + 36).
Abbreviation SIZEOF_MADT_HEADER := 44 (only parsing).

Fixpoint scan_from (rounds : nat) (m : phys) (p e : Z) : outcome (option Z) :=
  match rounds with
  | O => Panic
  | S rounds =>
      if p + 16 <=? e then
        if bool_decide (load_bytes m p 8 = RSDP_SIG) then Ret (Some p) else
        scan_from rounds m (p + 16) e
      else Ret None
  end.
Definition scan_range (m : phys) (start e : Z) : outcome (option Z) :=
  let p := Z.land start (unot 64 0xf) in
  scan_from (Z.to_nat ((e - p) / 16 + 1)) m p e.

Definition find_rsdp (m : phys) : outcome (option Z) :=
  let ebda_seg := ld m 2 EBDA_SEG_PTR in
  early ← (if negb (ebda_seg =? 0) then
             let ebda := Z.shiftl ebda_seg 4 in scan_range m ebda (ebda + 1024)
           else Ret None);
  match early with
  | Some p => Ret (Some p)
  | None => scan_range m BIOS_ROM_START (BIOS_ROM_END + 1)
  end.

Definition checksum_ok (m : phys) (addr len : Z) : bool :=
  fold_left (fun a b => wrap 8 (a + b)) (load_bytes m addr (Z.to_nat len)) 0 =? 0.

Definition collect_sdt_ptrs (m : phys) (sdt_phys : Z) (is_xsdt : bool) : outcome (list Z) :=
  if sdt_phys =? 0 then Ret [] else
  let total := sdt_length m sdt_phys in
  if total <=? SIZEOF_SDT_HEADER then Ret [] else
  let entries_bytes := total - SIZEOF_SDT_HEADER in
  ptr ← sdt_phys +! SIZEOF_SDT_HEADER @ 64;
  if is_xsdt then
    Ret (filter (fun raw => raw <> 0) ((fun i => ld m 8 (ptr + i * 8)) <$> seqZ 0 (entries_bytes / 8)))
  else
    Ret (filter (fun raw => raw <> 0) ((fun i => ld m 4 (ptr + i * 4)) <$> seqZ 0 (entries_bytes / 4))).

(** One entry of the MADT: the [match] on its type, with the guards. *)
Definition madt_entry (m : phys) (entry etype elen : Z) (info : AcpiInfo) : AcpiInfo :=
  if (etype =? 0) && (8 <=? elen) then
    push_core (mkCpuCore (m (entry + 2)) (m (entry + 3)) (negb (Z.land (ld m 4 (entry + 4)) 1 =? 0))) info
  else if (etype =? 1) && (12 <=? elen) then
    push_io_apic (mkIoApic (m (entry + 2)) (ld m 4 (entry + 4)) (ld m 4 (entry + 8))) info
  else if (etype =? 2) && (10 <=? elen) then
    push_override (mkIrqOverride (m (entry + 2)) (m (entry + 3)) (ld m 4 (entry + 4)) (ld m 2 (entry + 8))) info
  else if (etype =? 5) && (12 <=? elen) then
    set_lapic (ld m 8 (entry + 4)) info
  else info.

Fixpoint madt_entries (rounds : nat) (m : phys) (ptr total off : Z) (info : AcpiInfo) : outcome AcpiInfo :=
  match rounds with
  | O => Panic
  | S rounds =>
      if off + 2 <=? total then
        entry ← ptr +! off @ 64;
        let etype := m entry in
        let elen := m (entry + 1) in
        if (elen <? 2) || (total <? off + elen) then Ret info else
        madt_entries rounds m ptr total (off + elen) (madt_entry m entry etype elen info)
      else Ret info
  end.

Definition parse_madt (m : phys) (ptr : Z) (info : AcpiInfo) : outcome AcpiInfo :=
  let info := set_lapic (madt_lapic_address m ptr) info in
  let total := sdt_length m ptr in
  madt_entries (S (Z.to_nat total)) m ptr total SIZEOF_MADT_HEADER info.

Definition parse_fadt (m : phys) (ptr : Z) (info : AcpiInfo) : AcpiInfo :=
  let len := sdt_length m ptr in
  let info := if 48 <=? len then set_sci (ld m 2 (ptr + 46)) info else info in
  if (2 <=? sdt_revision m ptr) && (129 <=? len) then
    set_reset (ld m 8 (ptr + (116 + 4))) (m (ptr + 128)) info
  else info.

(** The body of the loop over the tables. *)
Definition parse_table (m : phys) (info : AcpiInfo) (ptr : Z) : outcome AcpiInfo :=
  let sig := sdt_signature m ptr in
  if negb (checksum_ok m ptr (sdt_length m ptr)) then Ret info else
  if bool_decide (sig = bstr "APIC") then parse_madt m ptr info
  else if bool_decide (sig = bstr "FACP") then Ret (parse_fadt m ptr info)
  else Ret info.

Definition parse_all (m : phys) : outcome AcpiInfo :=
  let info := acpi_default in
  rsdp ← find_rsdp m;
  match rsdp with
  | None => Ret info
  | Some rsdp_ptr =>
      if negb (checksum_ok m rsdp_ptr SIZEOF_RSDP_V1) then Ret info else
      let info := set_revision (rsdp_revision m rsdp_ptr) info in
      if 2 <=? rsdp_revision m rsdp_ptr then
        if negb (checksum_ok m rsdp_ptr SIZEOF_RSDP_V2) then Ret info else
        table_ptrs ← collect_sdt_ptrs m (rsdp_xsdt_addr m rsdp_ptr) true;
        ofold (parse_table m) info table_ptrs
      else
        table_ptrs ← collect_sdt_ptrs m (rsdp_rsdt_addr m rsdp_ptr) false;
        ofold (parse_table m) info table_ptrs
  end.

(** [init] on the [Once]: the first call parses, later calls answer its
    result.  [info] is a panic before that. *)
Definition acpi_init (once : option AcpiInfo) (m : phys) : outcome (option AcpiInfo * AcpiInfo) :=
  match once with
  | Some i => Ret (once, i)
  | None => i ← parse_all m; Ret (Some i, i)
  end.
Definition acpi_info (once : option AcpiInfo) : outcome AcpiInfo := expect once.

(** * ACPI tables: what the parser recovers

    The tables as the firmware lays them out in memory, a mathematical value
    for each, and the theorem that [parse_all] answers what they say; and that
    the walk of a MADT with arbitrary contents ends and reads nothing outside
    the table. *)

(** The bytes [l] are at address [a]. *)
Definition stored (m : phys) (a : Z) (l : list Z) : Prop := load_bytes m a (length l) = l.

Lemma load_bytes_S m a n : load_bytes m a (S n) = m a :: load_bytes m (a + 1) n.
Proof.
  unfold load_bytes. cbn [seq fmap list_fmap]. rewrite Z.add_0_r. f_equal.
  rewrite <- fmap_S_seq, <- list_fmap_compose. apply list_fmap_ext. intros i x _. cbn. f_equal. lia.
Qed.
Lemma stored_nil m a : stored m a [].
Proof. done. Qed.
Lemma stored_cons m a x l : stored m a (x :: l) <-> m a = x /\ stored m (a + 1) l.
Proof. unfold stored. cbn [length]. rewrite load_bytes_S. split; [by intros [= -> ->]|by intros [-> ->]]. Qed.
Lemma stored_app m l k : forall a, stored m a (l ++ k) <-> stored m a l /\ stored m (a + lenZ l) k.
Proof.
  induction l as [|x l IH]; intros a; cbn [app].
  - unfold lenZ. cbn. rewrite Z.add_0_r. naive_solver.
  - rewrite !stored_cons, IH, lenZ_cons. replace (a + 1 + lenZ l) with (a + (1 + lenZ l)) by lia. naive_solver.
Qed.
Lemma ld_stored m n a v : stored m a (le_bytes n v) -> 0 <= v < 2 ^ (8 * Z.of_nat n) -> ld m n a = v.
Proof. unfold stored, ld. rewrite length_le_bytes. intros -> Hv. by apply of_le_bytes_id. Qed.

(** ** The tables *)

Inductive madt_rec :=
  | LocalApicRec (uid id flags : Z)
  | IoApicRec (id res addr gsi : Z)
  | OverrideRec (bus irq gsi flags : Z)
  | LapicAddrRec (res : Z) (addr : Z)
  | OtherRec (ty : Z) (body : list Z).

Definition rec_bytes (r : madt_rec) : list Z :=
  match r with
  | LocalApicRec u i f => [0; 8; u; i] ++ le_bytes 4 f
  | IoApicRec i r a g => [1; 12; i; r] ++ le_bytes 4 a ++ le_bytes 4 g
  | OverrideRec b i g f => [2; 10; b; i] ++ le_bytes 4 g ++ le_bytes 2 f
  | LapicAddrRec r a => [5; 12] ++ le_bytes 2 r ++ le_bytes 8 a
  | OtherRec ty body => [ty; 2 + lenZ body] ++ body
  end.
Definition rec_ok (r : madt_rec) : Prop :=
  match r with
  | LocalApicRec _ _ f => fits 32 f
  | IoApicRec _ _ a g => fits 32 a /\ fits 32 g
  | OverrideRec _ _ g f => fits 32 g /\ fits 16 f
  | LapicAddrRec _ a => fits 64 a
  | OtherRec ty body => ty <> 0 /\ ty <> 1 /\ ty <> 2 /\ ty <> 5
  end.
Definition rec_info (i : AcpiInfo) (r : madt_rec) : AcpiInfo :=
  match r with
  | LocalApicRec u id f => push_core (mkCpuCore u id (Z.odd f)) i
  | IoApicRec id _ a g => push_io_apic (mkIoApic id a g) i
  | OverrideRec b irq g f => push_override (mkIrqOverride b irq g f) i
  | LapicAddrRec _ a => set_lapic a i
  | OtherRec _ _ => i
  end.

(** What a table holds after its header. *)
Inductive content :=
  | Madt (lapic flags : Z) (recs : list madt_rec)
  | FadtV1 (pre : list Z) (sci : Z) (rest : list Z)
  | FadtV2 (pre : list Z) (sci : Z) (mid gas : list Z) (reset value : Z) (rest : list Z)
  | OtherTable (sig body : list Z).
Record sdt := mkSdt { t_rev : Z; t_chk : Z; t_oem : list Z; t_content : content }.

Definition content_sig (c : content) : list Z :=
  match c with
  | Madt _ _ _ => bstr "APIC"
  | FadtV1 _ _ _ | FadtV2 _ _ _ _ _ _ _ => bstr "FACP"
  | OtherTable sig _ => sig
  end.
Definition content_bytes (c : content) : list Z :=
  match c with
  | Madt a f recs => le_bytes 4 a ++ le_bytes 4 f ++ (recs ≫= rec_bytes)
  | FadtV1 pre sci rest => pre ++ le_bytes 2 sci ++ rest
  | FadtV2 pre sci mid gas reset value rest =>
      pre ++ le_bytes 2 sci ++ mid ++ gas ++ le_bytes 8 reset ++ [value] ++ rest
  | OtherTable _ body => body
  end.
Definition content_ok (rev : Z) (c : content) : Prop :=
  match c with
  | Madt a f recs => fits 32 a /\ Forall rec_ok recs
  | FadtV1 pre sci rest => rev < 2 /\ lenZ pre = 10 /\ fits 16 sci
  | FadtV2 pre sci mid gas reset value rest =>
      2 <= rev /\ lenZ pre = 10 /\ fits 16 sci /\ lenZ mid = 68 /\ lenZ gas = 4 /\ fits 64 reset
  | OtherTable sig body => lenZ sig = 4 /\ sig <> bstr "APIC" /\ sig <> bstr "FACP"
  end.
Definition content_info (i : AcpiInfo) (c : content) : AcpiInfo :=
  match c with
  | Madt a _ recs => foldl rec_info (set_lapic a i) recs
  | FadtV1 _ sci _ => set_sci sci i
  | FadtV2 _ sci _ _ reset value _ => set_reset reset value (set_sci sci i)
  | OtherTable _ _ => i
  end.

Definition table_length (t : sdt) : Z := 36 + lenZ (content_bytes (t_content t)).
Definition table_bytes (t : sdt) : list Z :=
  content_sig (t_content t) ++ le_bytes 4 (table_length t) ++ [t_rev t; t_chk t] ++ t_oem t ++
  content_bytes (t_content t).

(** The bytes add up to zero modulo 256. *)
Definition sums_to_zero (l : list Z) : Prop := foldr Z.add 0 l mod 256 = 0.
#[export] Instance sums_to_zero_dec l : Decision (sums_to_zero l) := decide (_ = _).

(** What a table adds: nothing when its sum is wrong. *)
Definition table_info (i : AcpiInfo) (t : sdt) : AcpiInfo :=
  if decide (sums_to_zero (table_bytes t)) then content_info i (t_content t) else i.
Definition table_at (m : phys) (p : Z) (t : sdt) : Prop :=
  stored m p (table_bytes t) /\ lenZ (t_oem t) = 26 /\ fits 32 (table_length t) /\
  0 <= p /\ p + table_length t <= 2 ^ 64 /\ content_ok (t_rev t) (t_content t).

(** ** The checksum *)

Lemma fold_wrap l : forall a, fold_left (fun a b => wrap 8 (a + b)) l (wrap 8 a) = wrap 8 (a + foldr Z.add 0 l).
Proof.
  induction l as [|x l IH]; intros a; cbn [fold_left foldr]; [by rewrite Z.add_0_r|].
  rewrite <- (IH (a + x)) || idtac.
  replace (wrap 8 (wrap 8 a + x)) with (wrap 8 (a + x)) by (unfold wrap; by rewrite Zplus_mod_idemp_l).
  rewrite IH. f_equal. lia.
Qed.
Lemma checksum_stored m a l len :
  stored m a l -> len = lenZ l -> checksum_ok m a len = bool_decide (sums_to_zero l).
Proof.
  intros Hl ->. unfold checksum_ok. rewrite lenZ_to_nat, Hl.
  change 0 with (wrap 8 0) at 1. rewrite fold_wrap, Z.add_0_l. unfold sums_to_zero, wrap. change (2 ^ 8) with 256.
  destruct (Z.eqb_spec (foldr Z.add 0 l mod 256) 0); [by rewrite bool_decide_eq_true_2|by rewrite bool_decide_eq_false_2].
Qed.

(** ** The MADT *)

Lemma stored_at m l : forall a i x, stored m a l -> l !! i = Some x -> m (a + Z.of_nat i) = x.
Proof.
  induction l as [|y l IH]; intros a i x Hl Hx; [done|]. apply stored_cons in Hl as [Hy Hl].
  destruct i as [|i]; cbn in Hx; [injection Hx as <-; by rewrite Z.add_0_r|].
  rewrite <- (IH (a + 1) i x Hl Hx). f_equal. lia.
Qed.
Lemma ld_mid m a pre n v post :
  stored m a (pre ++ le_bytes n v ++ post) -> 0 <= v < 2 ^ (8 * Z.of_nat n) -> ld m n (a + lenZ pre) = v.
Proof. intros [_ [H _]%stored_app]%stored_app Hv. by apply ld_stored. Qed.
Lemma ld_at m a l i n v :
  stored m a l -> take i l ++ le_bytes n v ++ drop (i + n) l = l -> (i <= length l)%nat ->
  0 <= v < 2 ^ (8 * Z.of_nat n) -> ld m n (a + Z.of_nat i) = v.
Proof.
  intros Hl E Hi Hv. replace (Z.of_nat i) with (lenZ (take i l)) by (unfold lenZ; rewrite length_take; lia).
  apply (ld_mid _ _ _ _ _ (drop (i + n) l)); [by rewrite E|done].
Qed.

Lemma odd_bit f : negb (Z.land f 1 =? 0) = Z.odd f.
Proof. change 1 with (Z.ones 1) at 1. rewrite Z.land_ones, Zmod_odd by done. by destruct (Z.odd f). Qed.

(** [rd H i x]: by [H], the byte [i] of the stored bytes is [x];
    [rdn H i n v]: the [n] bytes from [i] on encode [v]. *)
Ltac rd H i x :=
  let E := fresh "E" in pose proof (stored_at _ _ _ i x H eq_refl) as E;
  let z := eval vm_compute in (Z.of_nat i) in change (Z.of_nat i) with z in E;
  rewrite ?Z.add_0_r in E; rewrite E; clear E.
Ltac rdn H i n v :=
  let E := fresh "E" in
  assert (E := ld_at _ _ _ i n v H eq_refl ltac:(cbn; lia) ltac:(assumption));
  let z := eval vm_compute in (Z.of_nat i) in change (Z.of_nat i) with z in E; rewrite E; clear E.

Lemma madt_entry_rec m e r info :
  stored m e (rec_bytes r) -> rec_ok r ->
  m (e + 1) = lenZ (rec_bytes r) /\ madt_entry m e (m e) (m (e + 1)) info = rec_info info r.
Proof.
  intros Hs Hr. unfold madt_entry.
  destruct r as [u i f|i r a g|b i g f|r a|ty body]; cbn [rec_bytes rec_ok rec_info] in *.
  - rd Hs 0%nat 0. rd Hs 1%nat 8. split; [done|]. cbn [Z.eqb Z.leb andb Z.compare Pos.compare Pos.compare_cont].
    rd Hs 2%nat u. rd Hs 3%nat i. rdn Hs 4%nat 4%nat f. by rewrite odd_bit.
  - destruct Hr as [Ha Hg]. rd Hs 0%nat 1. rd Hs 1%nat 12. split; [done|]. cbn [Z.eqb Z.leb andb Z.compare].
    rd Hs 2%nat i. rdn Hs 4%nat 4%nat a. rdn Hs 8%nat 4%nat g. done.
  - destruct Hr as [Hg Hf]. rd Hs 0%nat 2. rd Hs 1%nat 10. split; [done|]. cbn [Z.eqb Z.leb andb Z.compare Pos.eqb Pos.compare Pos.compare_cont].
    rd Hs 2%nat b. rd Hs 3%nat i. rdn Hs 4%nat 4%nat g. rdn Hs 8%nat 2%nat f. done.
  - rd Hs 0%nat 5. rd Hs 1%nat 12. split; [done|]. cbn [Z.eqb Z.leb andb Z.compare Pos.eqb Pos.compare Pos.compare_cont]. rdn Hs 4%nat 8%nat a. done.
  - destruct Hr as (H0 & H1 & H2 & H5). rd Hs 0%nat ty. rd Hs 1%nat (2 + lenZ body). split; [rewrite lenZ_app; done|].
    apply Z.eqb_neq in H0, H1, H2, H5. rewrite H0, H1, H2, H5. done.
Qed.

Lemma rec_bytes_len r : 2 <= lenZ (rec_bytes r).
Proof. destruct r; cbn [rec_bytes]; try done. rewrite !lenZ_app. pose proof (lenZ_nonneg body). unfold lenZ at 1. cbn. lia. Qed.

Lemma madt_entries_recs m ptr recs : forall rounds off total info,
  stored m (ptr + off) (recs ≫= rec_bytes) -> Forall rec_ok recs ->
  total = off + lenZ (recs ≫= rec_bytes) -> (length recs < rounds)%nat ->
  0 <= ptr -> 0 <= off -> ptr + total <= 2 ^ 64 ->
  madt_entries rounds m ptr total off info = Ret (foldl rec_info info recs).
Proof.
  induction recs as [|r recs IH]; intros rounds off total info Hs Hok Ht Hn Hp Ho Hb;
    (destruct rounds as [|rounds]; [cbn in Hn; lia|]); cbn [madt_entries foldl].
  - change (lenZ ([] ≫= rec_bytes)) with 0 in Ht. rewrite (proj2 (Z.leb_gt _ _)) by lia. done.
  - cbn [mbind list_bind] in Hs, Ht. apply stored_app in Hs as [Hr Hs]. apply Forall_cons in Hok as [Hok Hoks].
    rewrite lenZ_app in Ht. pose proof (rec_bytes_len r). pose proof (lenZ_nonneg (recs ≫= rec_bytes)).
    rewrite (proj2 (Z.leb_le _ _)) by lia. rewrite (add_chk_ok 64 ptr off) by (unfold fits; lia). obind.
    destruct (madt_entry_rec m (ptr + off) r info Hr Hok) as [El E]. rewrite E, El.
    rewrite (proj2 (Z.ltb_ge _ 2)) by lia. rewrite (proj2 (Z.ltb_ge _ _)) by lia. cbn [orb].
    apply IH; [|done|lia|cbn in Hn; lia|lia|lia|lia].
    by replace (ptr + (off + lenZ (rec_bytes r))) with (ptr + off + lenZ (rec_bytes r)) by lia.
Qed.

Lemma content_sig_len r c : content_ok r c -> lenZ (content_sig c) = 4.
Proof. destruct c; cbn; [done..|]. by intros (? & _). Qed.

Lemma table_fields m p t :
  table_at m p t ->
  sdt_signature m p = content_sig (t_content t) /\ sdt_length m p = table_length t /\
  sdt_revision m p = t_rev t /\ stored m (p + 36) (content_bytes (t_content t)).
Proof.
  intros (Hs & Ho & Hl & _ & _ & Hc). pose proof (content_sig_len _ _ Hc) as Hg. unfold table_bytes in Hs.
  apply stored_app in Hs as [Hsig Hs]. rewrite Hg in Hs. apply stored_app in Hs as [Hlen Hs].
  rewrite lenZ_le_bytes in Hs. apply stored_app in Hs as [Hrc Hs]. apply stored_app in Hs as [_ Hs].
  rewrite Ho in Hs. change (lenZ [t_rev t; t_chk t]) with 2 in Hs.
  replace (p + 4 + Z.of_nat 4 + 2 + 26) with (p + 36) in Hs by lia.
  apply stored_cons in Hrc as [Hrev _]. replace (p + 4 + Z.of_nat 4) with (p + 8) in Hrev by lia.
  split_and!; [|by apply ld_stored|done|done].
  unfold sdt_signature. unfold stored in Hsig. unfold lenZ in Hg. by replace (length (content_sig (t_content t))) with 4%nat in Hsig by lia.
Qed.

Lemma lenZ_table_bytes t r : content_ok r (t_content t) -> lenZ (t_oem t) = 26 -> lenZ (table_bytes t) = table_length t.
Proof.
  intros Hc%content_sig_len Ho. unfold table_bytes, table_length. rewrite !lenZ_app, lenZ_le_bytes, Hc, Ho.
  change (lenZ [t_rev t; t_chk t]) with 2. lia.
Qed.

Lemma recs_len recs : (length recs <= length (recs ≫= rec_bytes))%nat.
Proof.
  induction recs as [|r recs IH]; [done|]. cbn [mbind list_bind length]. rewrite length_app.
  pose proof (rec_bytes_len r). unfold lenZ in *. lia.
Qed.

Lemma parse_table_spec m info p t :
  table_at m p t -> parse_table m info p = Ret (table_info info t).
Proof.
  intros Ht. destruct (table_fields m p t Ht) as (Hsig & Hlen & Hrev & Hbody).
  destruct Ht as (Hs & Ho & Hl & Hp & Hb & Hc). pose proof (lenZ_table_bytes t _ Hc Ho) as HL.
  unfold parse_table, table_info. rewrite Hlen, Hsig, (checksum_stored m p (table_bytes t)) by done.
  destruct (decide (sums_to_zero (table_bytes t))) as [Hz|Hz];
    [rewrite bool_decide_eq_true_2 by done|by rewrite bool_decide_eq_false_2 by done]. cbn [negb].
  destruct t as [rev chk oem c]. cbn [t_content t_rev] in *. unfold table_length in *. cbn [t_content] in *.
  destruct c as [a f recs|pre sci rest|pre sci mid gas reset value rest|sig body];
    cbn [content_sig content_bytes content_ok content_info] in *.
  - rewrite bool_decide_eq_true_2 by done. unfold parse_madt. rewrite Hlen. destruct Hc as [Ha Hrecs].
    apply stored_app in Hbody as [Hla Hbody]. apply stored_app in Hbody as [_ Hbody].
    rewrite !lenZ_le_bytes in Hbody. replace (p + 36 + Z.of_nat 4 + Z.of_nat 4) with (p + 44) in Hbody by lia.
    unfold madt_lapic_address. rewrite (ld_stored m 4 (p + 36) a) by done. cbv zeta.
    rewrite !lenZ_app, !lenZ_le_bytes in *. apply madt_entries_recs; try done; try lia.
    pose proof (recs_len recs). unfold lenZ. lia.
  - rewrite bool_decide_eq_false_2, bool_decide_eq_true_2 by done. f_equal. unfold parse_fadt. rewrite Hlen, Hrev.
    destruct Hc as (Hr & Hpre & Hsci). rewrite !lenZ_app, Hpre, lenZ_le_bytes. pose proof (lenZ_nonneg rest).
    rewrite (proj2 (Z.leb_le 48 _)) by lia. rewrite (proj2 (Z.leb_gt 2 _)) by lia. cbn [andb].
    pose proof (ld_mid m (p + 36) pre 2 sci rest Hbody Hsci) as E. rewrite Hpre in E.
    replace (p + 46) with (p + 36 + 10) by lia. by rewrite E.
  - rewrite bool_decide_eq_false_2, bool_decide_eq_true_2 by done. f_equal. unfold parse_fadt. rewrite Hlen, Hrev.
    destruct Hc as (Hr & Hpre & Hsci & Hmid & Hgas & Hreset). rewrite !lenZ_app, Hpre, Hmid, Hgas, !lenZ_le_bytes.
    change (lenZ [value]) with 1. pose proof (lenZ_nonneg rest).
    rewrite (proj2 (Z.leb_le 48 _)), (proj2 (Z.leb_le 129 _)), (proj2 (Z.leb_le 2 _)) by lia. cbn [andb].
    pose proof (ld_mid m (p + 36) pre 2 sci _ Hbody Hsci) as E. rewrite Hpre in E.
    replace (p + 46) with (p + 36 + 10) by lia. rewrite E. do 2 apply stored_app in Hbody as [_ Hbody].
    do 2 apply stored_app in Hbody as [_ Hbody]. apply stored_app in Hbody as [Hra Hv]. apply stored_cons in Hv as [Hv _].
    rewrite Hpre, Hmid, Hgas, !lenZ_le_bytes in Hv. rewrite Hpre, Hmid, Hgas, !lenZ_le_bytes in Hra.
    replace (p + 36 + 10 + Z.of_nat 2 + 68 + 4) with (p + (116 + 4)) in * by lia. rewrite (ld_stored m 8 _ reset) by done.
    replace (p + (116 + 4) + Z.of_nat 8) with (p + 128) in Hv by lia. by rewrite Hv.
  - destruct Hc as (_ & H1 & H2). by rewrite !bool_decide_eq_false_2.
Qed.

(** ** The root pointer *)

Fixpoint steps16 (p : Z) (n : nat) : list Z :=
  match n with O => [] | S n => p :: steps16 (p + 16) n end.
Definition is_rsdp (m : phys) (p : Z) : Prop := load_bytes m p 8 = RSDP_SIG.

(** The places where the specification lets the root pointer be: the
    paragraphs of the first KiB of the extended BIOS data area, then those of
    the BIOS area. *)
Definition rsdp_places (m : phys) : list Z :=
  let seg := ld m 2 0x40E in
  (if seg =? 0 then [] else steps16 (16 * seg) 64) ++ steps16 0xE0000 (Z.to_nat 0x2000).

#[export] Instance is_rsdp_dec m p : Decision (is_rsdp m p) := decide (_ = _).
Definition first_rsdp (m : phys) (l : list Z) : option Z := head (filter (is_rsdp m) l).

Lemma first_rsdp_app m l k :
  first_rsdp m (l ++ k) = match first_rsdp m l with Some p => Some p | None => first_rsdp m k end.
Proof. unfold first_rsdp. rewrite filter_app. by destruct (filter (is_rsdp m) l). Qed.

Lemma scan_from_spec m n : forall p rounds,
  (n < rounds)%nat -> scan_from rounds m p (p + 16 * Z.of_nat n) = Ret (first_rsdp m (steps16 p n)).
Proof.
  unfold first_rsdp. induction n as [|n IH]; intros p [|rounds] Hr; [lia| |lia|]; cbn [scan_from steps16].
  - rewrite (proj2 (Z.leb_gt _ _)) by lia. done.
  - rewrite (proj2 (Z.leb_le _ _)) by lia. rewrite filter_cons. unfold is_rsdp at 1. case_bool_decide as Hp.
    + by rewrite decide_True.
    + rewrite decide_False by done.
      replace (p + 16 * Z.of_nat (S n)) with (p + 16 + 16 * Z.of_nat n) by lia. apply IH. lia.
Qed.

Lemma scan_range_spec m start n :
  fits 64 start -> start mod 16 = 0 ->
  scan_range m start (start + 16 * Z.of_nat n) = Ret (first_rsdp m (steps16 start n)).
Proof.
  intros Hs Hm. unfold scan_range. change (unot 64 0xf) with (unot 64 (2 ^ 4 - 1)). rewrite (land_align 4 start) by (done || lia). change (2 ^ 4) with 16.
  pose proof (Z.div_mod start 16 ltac:(lia)) as E. replace (start / 16 * 16) with start by lia. cbv zeta.
  replace (start + 16 * Z.of_nat n - start) with (Z.of_nat n * 16) by lia. rewrite Z.div_mul by done.
  apply scan_from_spec. lia.
Qed.

Lemma find_rsdp_spec m : (forall x, byte_ok (m x)) -> find_rsdp m = Ret (first_rsdp m (rsdp_places m)).
Proof.
  intros Hm. unfold find_rsdp, rsdp_places. cbv zeta.
  change (917504) with 0xE0000. change (1048575 + 1) with (0xE0000 + 16 * Z.of_nat (Z.to_nat 0x2000)).
  rewrite scan_range_spec by done.
  assert (0 <= ld m 2 1038 < 65536) as Hseg.
  { apply (of_le_range (load_bytes m 1038 2)). repeat constructor; apply Hm. }
  set (seg := ld m 2 1038) in *. generalize (steps16 0xE0000 (Z.to_nat 0x2000)). intros rom. rewrite first_rsdp_app.
  destruct (Z.eqb_spec seg 0) as [H0|H0]; cbn [negb]; obind; [done|].
  rewrite Z.shiftl_mul_pow2 by done. change (2 ^ 4) with 16. change 1024 with (16 * Z.of_nat 64).
  rewrite scan_range_spec; [|unfold fits; lia|apply Z.mod_mul; lia]. obind. rewrite (Z.mul_comm seg).
  by destruct (first_rsdp m (steps16 (16 * seg) 64)).
Qed.

Record rsdp := mkRsdp {
  r_chk : Z; r_oem : list Z; r_rev : Z; r_rsdt : Z;
  r_len : Z; r_xsdt : Z; r_ext : list Z;
}.
Definition rsdp_v1 (r : rsdp) : list Z :=
  RSDP_SIG ++ [r_chk r] ++ r_oem r ++ [r_rev r] ++ le_bytes 4 (r_rsdt r).
Definition rsdp_v2 (r : rsdp) : list Z :=
  rsdp_v1 r ++ le_bytes 4 (r_len r) ++ le_bytes 8 (r_xsdt r) ++ r_ext r.
Definition rsdp_at (m : phys) (p : Z) (r : rsdp) : Prop :=
  lenZ (r_oem r) = 6 /\ fits 32 (r_rsdt r) /\ stored m p (rsdp_v1 r) /\ sums_to_zero (rsdp_v1 r) /\
  (2 <= r_rev r -> lenZ (r_ext r) = 4 /\ fits 64 (r_xsdt r) /\ stored m p (rsdp_v2 r) /\ sums_to_zero (rsdp_v2 r)).

(** The root table, RSDT or XSDT by the revision of the root pointer. *)
Definition root_width (r : rsdp) : nat := if 2 <=? r_rev r then 8 else 4.
Definition root_addr (r : rsdp) : Z := if 2 <=? r_rev r then r_xsdt r else r_rsdt r.
Definition root_at (m : phys) (w : nat) (a : Z) (ptrs : list Z) : Prop :=
  a <> 0 /\ 0 <= a /\ a + 36 < 2 ^ 64 /\ fits 32 (36 + Z.of_nat w * lenZ ptrs) /\
  stored m (a + 4) (le_bytes 4 (36 + Z.of_nat w * lenZ ptrs)) /\ stored m (a + 36) (ptrs ≫= le_bytes w) /\
  Forall (fun p => 0 <= p < 2 ^ (8 * Z.of_nat w)) ptrs.

(** The tables a firmware publishes in the memory [m]. *)
Record firmware_tables (m : phys) (r : rsdp) (tables : list sdt) : Prop := mkFirmware {
  fw_bytes : forall x, byte_ok (m x);
  fw_rsdp : exists p, first_rsdp m (rsdp_places m) = Some p /\ rsdp_at m p r;
  fw_root : exists ptrs, root_at m (root_width r) (root_addr r) ptrs /\
              Forall2 (table_at m) (filter (fun p => p <> 0) ptrs) tables;
}.

Lemma collect_loop m w ptrs : forall a,
  stored m a (ptrs ≫= le_bytes w) -> Forall (fun p => 0 <= p < 2 ^ (8 * Z.of_nat w)) ptrs ->
  (fun i => ld m w (a + i * Z.of_nat w)) <$> seqZ 0 (lenZ ptrs) = ptrs.
Proof.
  induction ptrs as [|x ptrs IH]; intros a Hs Hf; [done|]. apply Forall_cons in Hf as [Hx Hf].
  cbn [mbind list_bind] in Hs. apply stored_app in Hs as [H0 Hs]. rewrite lenZ_le_bytes in Hs.
  rewrite lenZ_cons, seqZ_cons by (pose proof (lenZ_nonneg ptrs); lia). cbn [fmap list_fmap]. f_equal.
  - rewrite Z.mul_0_l, Z.add_0_r. by apply ld_stored.
  - rewrite <- (IH (a + Z.of_nat w)) at 2; [|done|done]. replace (Z.pred (1 + lenZ ptrs)) with (lenZ ptrs) by lia.
    change (Z.succ 0) with (1 + 0). rewrite <- fmap_add_seqZ, <- list_fmap_compose. apply list_fmap_ext.
    intros i x' _. cbn [compose]. f_equal. lia.
Qed.

Lemma collect_spec m w (x : bool) a ptrs :
  w = (if x then 8 else 4)%nat -> root_at m w a ptrs ->
  collect_sdt_ptrs m a x = Ret (filter (fun p => p <> 0) ptrs).
Proof.
  intros Hw (H0 & Ha & Hb & Hl & Hlen & Hp & Hf). unfold collect_sdt_ptrs. apply Z.eqb_neq in H0. rewrite H0.
  unfold sdt_length. rewrite (ld_stored m 4 (a + 4) _ Hlen) by done. pose proof (lenZ_nonneg ptrs) as Hn. cbv zeta.
  destruct (Z.leb_spec (36 + Z.of_nat w * lenZ ptrs) 36) as [Hle|Hgt].
  { destruct ptrs; [done|]. rewrite lenZ_cons in *. pose proof (lenZ_nonneg ptrs). destruct x; subst w; lia. }
  rewrite (add_chk_ok 64 a 36) by (unfold fits; lia). obind.
  replace (36 + Z.of_nat w * lenZ ptrs - 36) with (lenZ ptrs * Z.of_nat w) by lia.
  pose proof (collect_loop m w ptrs (a + 36) Hp Hf) as E.
  destruct x; subst w; change (Z.of_nat 8) with 8 in *; change (Z.of_nat 4) with 4 in *;
    rewrite Z.div_mul by done; by rewrite E.
Qed.

Lemma parse_tables_spec m ptrs tables :
  Forall2 (table_at m) ptrs tables ->
  forall info, ofold (parse_table m) info ptrs = Ret (foldl table_info info tables).
Proof.
  induction 1 as [|p t ptrs tables Ht _ IH]; intros info; [done|]. cbn [ofold foldl].
  rewrite (parse_table_spec m info p t Ht). obind. apply IH.
Qed.


(** ** Arbitrary tables *)

Definition same_on (m m' : phys) (lo hi : Z) : Prop := forall x, lo <= x < hi -> m' x = m x.

Lemma ld_same m m' lo hi n a :
  same_on m m' lo hi -> lo <= a -> a + Z.of_nat n <= hi -> ld m' n a = ld m n a.
Proof. intros Hs Hlo Hhi. unfold ld. f_equal. apply load_bytes_ext. intros x Hx. apply Hs. lia. Qed.

Lemma madt_entry_same m m' e elen ty info :
  same_on m m' e (e + elen) -> 0 <= elen -> madt_entry m' e ty elen info = madt_entry m e ty elen info.
Proof.
  intros Hs Hl. unfold madt_entry.
  destruct (Z.leb_spec 8 elen); [|by rewrite !andb_false_r, !(proj2 (Z.leb_gt _ elen)) by lia; rewrite !andb_false_r].
  rewrite !(ld_same m m' e (e + elen) 4 (e + 4)), !(Hs (e + 2)), !(Hs (e + 3)) by (done || lia).
  destruct (Z.leb_spec 10 elen); [|rewrite !(proj2 (Z.leb_gt 12 elen)) by lia; by rewrite !andb_false_r].
  rewrite (ld_same m m' e (e + elen) 2 (e + 8)) by (done || lia).
  destruct (Z.leb_spec 12 elen); [|by rewrite !andb_false_r].
  by rewrite (ld_same m m' e (e + elen) 4 (e + 8)), (ld_same m m' e (e + elen) 8 (e + 4)) by (done || lia).
Qed.

Lemma madt_entries_inside m m' ptr total rounds : forall off info,
  same_on m m' ptr (ptr + total) -> 0 <= ptr -> 0 <= off -> ptr + total <= 2 ^ 64 ->
  (Z.to_nat (total - off) < rounds)%nat ->
  exists i, madt_entries rounds m ptr total off info = Ret i /\ madt_entries rounds m' ptr total off info = Ret i.
Proof.
  induction rounds as [|rounds IH]; intros off info Hs Hp Ho Hb Hr; [lia|]. cbn [madt_entries].
  destruct (Z.leb_spec (off + 2) total); [|by exists info].
  rewrite (add_chk_ok 64 ptr off) by (unfold fits; lia). obind.
  rewrite (Hs (ptr + off)), (Hs (ptr + off + 1)) by lia.
  destruct (Z.ltb_spec (m (ptr + off + 1)) 2); cbn [orb]; [by exists info|].
  destruct (Z.ltb_spec total (off + m (ptr + off + 1))); [by exists info|].
  rewrite (madt_entry_same m m'); [|intros x Hx; apply Hs; lia|lia].
  apply IH; [done|lia|lia|lia|lia].
Qed.

(** Property.  A MADT with arbitrary contents.  Whatever the bytes of the table, the
    walk ends, with a result, and the result depends on nothing outside the
    table: no record, however short or long it claims to be, makes the parser
    read past the length of the header. *)
Theorem acpi_madt_inside m m' ptr info :
  0 <= ptr -> ptr + Z.max 44 (sdt_length m ptr) <= 2 ^ 64 ->
  same_on m m' ptr (ptr + Z.max 44 (sdt_length m ptr)) ->
  exists i, parse_madt m ptr info = Ret i /\ parse_madt m' ptr info = Ret i.
Proof.
  intros Hp Hb Hs. unfold parse_madt, madt_lapic_address.
  rewrite (ld_same m m' ptr (ptr + Z.max 44 (sdt_length m ptr)) 4 (ptr + 36)) by (done || lia).
  assert (sdt_length m' ptr = sdt_length m ptr) as -> by (eapply ld_same; [done|lia|lia]).
  cbv zeta. apply madt_entries_inside; [|lia|lia|lia|lia]. intros x Hx. apply Hs. lia.
Qed.

(** ** A machine: two processors, one I/O APIC, in an XSDT. *)

Definition demo_sum (l : list Z) : Z := (- foldr Z.add 0 l) mod 256.
Definition demo_madt_body : content :=
  Madt 0xFEE00000 1
    [LocalApicRec 0 0 1; LocalApicRec 1 1 1; IoApicRec 2 0 0xFEC00000 0; OverrideRec 0 0 2 0;
     OtherRec 4 [255; 0; 0; 1]; LapicAddrRec 0 0xFEE01000].
Definition demo_table (rev : Z) (c : content) : sdt :=
  mkSdt rev (demo_sum (table_bytes (mkSdt rev 0 (replicate 26 0) c))) (replicate 26 0) c.
Definition demo_madt : sdt := demo_table 3 demo_madt_body.
Definition demo_fadt : sdt :=
  demo_table 3 (FadtV2 (replicate 10 0) 9 (replicate 68 0) [1; 8; 0; 1] 0xCF9 6 [0; 0]).
Definition demo_bad : sdt := mkSdt 1 7 (replicate 26 0) (Madt 0 0 [LocalApicRec 9 9 1]).
Definition demo_rsdp : rsdp :=
  let r0 := mkRsdp 0 (replicate 6 65) 2 0x1000 36 0x1000 (replicate 4 0) in
  let r1 := mkRsdp (demo_sum (rsdp_v1 r0)) (replicate 6 65) 2 0x1000 36 0x1000 (replicate 4 0) in
  mkRsdp (r_chk r1) (r_oem r1) 2 0x1000 36 0x1000 (demo_sum (rsdp_v2 r1) :: replicate 3 0).
Definition demo_memory : phys :=
  let m := store_bytes (fun _ => 0) 0xE0010 (rsdp_v2 demo_rsdp) in
  let m := store_bytes m 0x1000 (bstr "XSDT" ++ le_bytes 4 68 ++ replicate 28 0 ++ ([0x2000; 0; 0x3000; 0x4000] ≫= le_bytes 8)) in
  let m := store_bytes m 0x2000 (table_bytes demo_madt) in
  let m := store_bytes m 0x3000 (table_bytes demo_bad) in
  store_bytes m 0x4000 (table_bytes demo_fadt).

Lemma store_bytes_ok m a l : bytes_ok l -> (forall x, byte_ok (m x)) -> forall x, byte_ok (store_bytes m a l x).
Proof.
  intros Hl Hm x. unfold store_bytes. case_bool_decide as Hx; [|apply Hm].
  unfold bytes_ok in Hl. rewrite Forall_lookup in Hl. apply (Hl (Z.to_nat (x - a))).
  apply list_lookup_lookup_total_lt. unfold lenZ in Hx. lia.
Qed.

Ltac by_eval := vm_compute; (reflexivity || discriminate).

Lemma demo_madt_at : table_at demo_memory 0x2000 demo_madt.
Proof.
  unfold table_at. split; [by_eval|]. split; [by_eval|]. split; [split; by_eval|]. split; [by_eval|]. split; [by_eval|].
  change (content_ok 3 demo_madt_body). cbn [content_ok demo_madt_body]. split; [split; by_eval|].
  repeat (apply Forall_cons_2; [cbn [rec_ok]; unfold fits; split_and!; by_eval|]). by apply Forall_nil_2.
Qed.
Lemma demo_bad_at : table_at demo_memory 0x3000 demo_bad.
Proof.
  unfold table_at. split; [by_eval|]. split; [by_eval|]. split; [split; by_eval|]. split; [by_eval|]. split; [by_eval|].
  cbn [content_ok demo_bad t_content t_rev]. split; [split; by_eval|].
  apply Forall_cons_2; [split; by_eval|]. by apply Forall_nil_2.
Qed.
Lemma demo_fadt_at : table_at demo_memory 0x4000 demo_fadt.
Proof.
  unfold table_at. split; [by_eval|]. split; [by_eval|]. split; [split; by_eval|]. split; [by_eval|]. split; [by_eval|].
  change (content_ok 3 (FadtV2 (replicate 10 0) 9 (replicate 68 0) [1; 8; 0; 1] 0xCF9 6 [0; 0])).
  cbn [content_ok]. unfold fits. split_and!; by_eval.
Qed.

Lemma demo_firmware : firmware_tables demo_memory demo_rsdp [demo_madt; demo_bad; demo_fadt].
Proof.
  assert (forall l, forallb (fun b => (0 <=? b) && (b <? 256)) l = true -> bytes_ok l) as Hb.
  { intros l Hl. apply Forall_forall. intros b Hin%list_elem_of_In. rewrite forallb_forall in Hl.
    specialize (Hl b Hin). unfold byte_ok. lia. }
  constructor.
  - unfold demo_memory. do 5 (apply store_bytes_ok; [apply Hb; vm_compute; reflexivity|]). done.
  - exists 0xE0010. split; [vm_compute; reflexivity|]. unfold rsdp_at, fits. split_and!; [by_eval..|].
    intros _. split_and!; by_eval.
  - exists [0x2000; 0; 0x3000; 0x4000]. split.
    + unfold root_at, fits. split_and!; [by_eval..|]. repeat (apply Forall_cons_2; [split; by_eval|]). by apply Forall_nil_2.
    + change (filter _ _) with [0x2000; 0x3000; 0x4000].
      constructor; [exact demo_madt_at|]. constructor; [exact demo_bad_at|]. constructor; [exact demo_fadt_at|]. constructor.
Qed.


Lemma acpi_madt_inside_witness :
  exists i, parse_madt demo_memory 0x2000 acpi_default = Ret i /\
            parse_madt (fun x => if x <? 0x3000 then demo_memory x else 255) 0x2000 acpi_default = Ret i.
Proof.
  apply (acpi_madt_inside demo_memory (fun x => if x <? 0x3000 then demo_memory x else 255) 0x2000 acpi_default);
    [lia|vm_compute; discriminate|].
  intros x Hx. assert (Z.max 44 (sdt_length demo_memory 0x2000) = 100) as E by (vm_compute; reflexivity).
  rewrite E in Hx. rewrite (proj2 (Z.ltb_lt _ _)) by lia. reflexivity.
Defined.
