(* ===== verification/Net.v ===== *)
(** * The network stack

    kernel/src/net/mod.rs and kernel/src/net/socket.rs: the kernel's layer
    over the TCP/IP stack.  The stack itself is the crate smoltcp, a
    dependency: its interface, its socket set and the network they speak to
    are a type [W] of worlds with the operations the kernel calls, in the
    class [Smoltcp]; what the kernel keeps beside it is [NetStack].  The
    clock the code reads with [uptime_ms] and the pause [hlt] are part of the
    world, since time passes while the kernel waits. *)
From S2P Require Import Prelude E1000.
Local Open Scope Z_scope.

Inductive IpAddress := Ipv4 (a : list Z) | Ipv6 (a : list Z).
Record IpCidr := mkCidr { cidr_addr : IpAddress; prefix_len : Z }.

(** The [Config] of a DHCP lease: the fields the kernel reads. *)
Record DhcpConfig := mkDhcp { lease_addr : list Z; lease_prefix : Z; router : option (list Z); dns_servers : list (list Z) }.
Inductive DhcpEvent := Deconfigured | Configured (cfg : DhcpConfig).

Inductive TcpState :=
  | Closed | Listen | SynSent | SynReceived | Established | FinWait1 | FinWait2
  | CloseWait | Closing | LastAck | TimeWait.
#[export] Instance TcpState_eq_dec : EqDecision TcpState.
Proof. solve_decision. Defined.

(** What the kernel calls of smoltcp.  A socket is named by its handle;
    [sock_ok] says the handle is in the set, without which [get_mut] panics. *)
Class Smoltcp (W : Type) := {
  uptime_ms : W -> Z;
  hlt : W -> W;
  net_up : list Z -> Z -> W -> W * Z;
  iface_poll : Z -> W -> W;
  iface_ip_addrs : W -> list IpCidr;
  update_ip_addrs : list IpCidr -> W -> W;
  remove_default_ipv4_route : W -> W;
  add_default_ipv4_route : list Z -> W -> W;
  dhcp_poll : Z -> W -> W * option DhcpEvent;
  sock_ok : Z -> W -> bool;
  sock_remove : Z -> W -> W;
  tcp_new : Z -> Z -> W -> W * Z;
  tcp_new_listen : Z -> Z -> Z -> W -> option (W * Z);
  tcp_connect_to : Z -> list Z * Z -> Z -> W -> W * bool;
  tcp_state : Z -> W -> TcpState;
  tcp_may_send : Z -> W -> bool;
  tcp_may_recv : Z -> W -> bool;
  tcp_can_recv : Z -> W -> bool;
  tcp_send_slice : Z -> list Z -> W -> W * option Z;
  tcp_recv_slice : Z -> Z -> W -> W * option (list Z);
  tcp_shut : Z -> W -> W;
  udp_new_bind : Z -> W -> option (W * Z);
  udp_send_slice : Z -> list Z -> list Z * Z -> W -> W * bool;
  udp_can_recv : Z -> W -> bool;
  udp_recv_slice : Z -> Z -> W -> W * option (list Z * IpAddress * Z);
}.

(** ** The device smoltcp drives, over the network card *)

Definition device_receive (nic : option E1000) : outcome (option E1000 * option (list Z)) :=
  match nic with
  | None => Ret (None, None)
  | Some e => '(e, data) ← E1000.recv e; Ret (Some e, data)
  end.
(** [TxToken::consume]: [f] fills a zeroed buffer, which is then sent; the
    error of [send] is dropped.  [box] is the address of the copy [send] makes. *)
Definition tx_consume {R} (box : Z) (len : Z) (f : list Z -> list Z * R) (nic : option E1000) :
    outcome (option E1000 * R) :=
  let '(buf, r) := f (replicate (Z.to_nat len) 0) in
  match nic with
  | None => Ret (None, r)
  | Some e => '(e, _) ← E1000.send box buf e; Ret (Some e, r)
  end.
Definition socket_link_up (nic : option E1000) : bool :=
  match nic with Some e => E1000.link_up e | None => false end.

(** ** The state *)

Record NetStack := mkStack {
  dhcp_handle : option Z;
  dhcp_configured_flag : bool;
  dns_server_addr : option (list Z);
  gateway_addr : option (list Z);
}.
Record Net (W : Type) := mkNet { world : W; NET : option NetStack }.
Arguments mkNet {W}.
Arguments world {W}.
Arguments NET {W}.

Section net.
Context {W : Type} `{!Smoltcp W}.
Local Abbreviation K := (M (Net W) string).

(** [init]: a second call builds an interface and drops it. *)
Definition net_init (mac : option (list Z)) (n : Net W) : Net W :=
  match mac, NET n with
  | None, _ | _, Some _ => n
  | Some m, None =>
      let '(w, h) := net_up m (uptime_ms (world n)) (world n) in
      mkNet w (Some (mkStack (Some h) false None None))
  end.

(** One event of the DHCP client. *)
Definition dhcp_event (e : DhcpEvent) (w : W) (s : NetStack) : W * NetStack :=
  match e with
  | Deconfigured =>
      (remove_default_ipv4_route (update_ip_addrs [] w), mkStack (dhcp_handle s) false None None)
  | Configured cfg =>
      let w := update_ip_addrs [mkCidr (Ipv4 (lease_addr cfg)) (lease_prefix cfg)] w in
      let '(w, gw) := match router cfg with
                      | Some r => (add_default_ipv4_route r w, Some r)
                      | None => (w, gateway_addr s)
                      end in
      let dns := match dns_servers cfg with d :: _ => Some d | [] => dns_server_addr s end in
      (w, mkStack (dhcp_handle s) true dns gw)
  end.

(** [poll]; [sockets.get_mut] panics on a handle that is not in the set. *)
Definition net_poll (n : Net W) : outcome (Net W) :=
  match NET n with
  | None => Ret n
  | Some s =>
      let w := iface_poll (uptime_ms (world n)) (world n) in
      match dhcp_handle s with
      | None => Ret (mkNet w (Some s))
      | Some h =>
          if sock_ok h w then
            let '(w, event) := dhcp_poll h w in
            match event with
            | None => Ret (mkNet w (Some s))
            | Some e => let '(w, s) := dhcp_event e w s in Ret (mkNet w (Some s))
            end
          else Panic
      end
  end.

Definition dhcp_configured (n : Net W) : bool :=
  match NET n with Some s => dhcp_configured_flag s | None => false end.
Definition dns_server (n : Net W) : option (list Z) := s ← NET n; dns_server_addr s.
Definition gateway (n : Net W) : option (list Z) := s ← NET n; gateway_addr s.
Definition ip_address (n : Net W) : option (list Z) :=
  _ ← NET n;
  head (omap (fun c => match cidr_addr c with Ipv4 a => Some a | Ipv6 _ => None end) (iface_ip_addrs (world n))).

(** ** Sockets *)

Definition on_world {A} (f : W -> W * A) : K A := fun n =>
  let '(w, a) := f (world n) in Ret (mkNet w (NET n), Ok a).
Definition need_net : K unit := fun n =>
  match NET n with Some _ => Ret (n, Ok tt) | None => Ret (n, Err "net non init"%string) end.
Definition poll_iface : K unit := on_world (fun w => (iface_poll (uptime_ms w) w, tt)).
Definition get_mut (h : Z) : K unit := fun n => if sock_ok h (world n) then Ret (n, Ok tt) else Panic.

Definition tcp_connect (addr : list Z) (port : Z) : K Z :=
  _ ← need_net;
  h ← on_world (tcp_new 4096 4096);
  n ← mget;
  let local_port := 49152 + wrap 16 (uptime_ms (world n) mod 16384) in
  _ ← get_mut h;
  ok ← on_world (tcp_connect_to h (addr, port) local_port);
  if ok : bool then mok h else mfail "tcp connect failed"%string.

Definition tcp_send (h : Z) (data : list Z) : K Z :=
  _ ← need_net;
  _ ← poll_iface;
  _ ← get_mut h;
  n ← mget;
  if negb (tcp_may_send h (world n)) then mfail "tcp: cannot send"%string else
  r ← on_world (tcp_send_slice h data);
  match r with Some k => mok k | None => mfail "tcp send error"%string end.

(** The bytes read are the first of [buf]. *)
Definition tcp_recv (h : Z) (buf_len : Z) : K (list Z) :=
  _ ← need_net;
  _ ← poll_iface;
  _ ← get_mut h;
  n ← mget;
  if negb (tcp_may_recv h (world n)) then mfail "tcp: cannot recv"%string else
  r ← on_world (tcp_recv_slice h buf_len);
  match r with Some data => mok data | None => mfail "tcp recv error"%string end.

Definition tcp_close (h : Z) : K unit := fun n =>
  match NET n with
  | None => Ret (n, Ok tt)
  | Some _ => (_ ← get_mut h; on_world (fun w => (tcp_shut h w, tt))) n
  end.

Definition udp_bind (local_port : Z) : K Z :=
  _ ← need_net;
  ((fun n => match udp_new_bind local_port (world n) with
             | Some (w, h) => Ret (mkNet w (NET n), Ok h)
             | None => Ret (n, Err "udp bind failed"%string)
             end) : K Z).

Definition udp_send (h : Z) (addr : list Z) (port : Z) (data : list Z) : K unit :=
  _ ← need_net;
  _ ← poll_iface;
  _ ← get_mut h;
  ok ← on_world (udp_send_slice h data (addr, port));
  if ok : bool then mok tt else mfail "udp send error"%string.

Definition udp_recv (h : Z) (buf_len : Z) : K (list Z * list Z * Z) :=
  _ ← need_net;
  _ ← poll_iface;
  _ ← get_mut h;
  n ← mget;
  if negb (udp_can_recv h (world n)) then mfail "would-block"%string else
  r ← on_world (udp_recv_slice h buf_len);
  match r with
  | Some (data, Ipv4 v, port) => mok (data, v, port)
  | Some (_, Ipv6 _, _) => mfail "not ipv4"%string
  | None => mfail "udp recv error"%string
  end.

End net.
