(* ===== verification/Resolve.v ===== *)
(** * Resolving a name

    [resolve_a] of kernel/src/net/dns.rs, over the sockets of Net.v and the
    messages of Dns.v: it binds a UDP socket, sends the query to the server
    of the DHCP lease, and polls until a datagram comes or three seconds
    have passed.  The laws of smoltcp and of the clock the loop relies on are
    in [SmoltcpLaws]. *)
From S2P Require Import Prelude Str E1000 Net Dns.
Local Open Scope Z_scope.

Abbreviation DNS_PORT := 53 (only parsing).
Abbreviation QUERY_TIMEOUT_MS := 3000 (only parsing).
Abbreviation RECV_BUF_SIZE := 512 (only parsing).

Section resolve.
Context {W : Type} `{!Smoltcp W}.

(** The busy loop; [rounds] bounds its turns. *)
Fixpoint resolve_loop (rounds : nat) (sock start : Z) (n : Net W) : outcome (Net W * option (list Z)) :=
  match rounds with
  | O => Panic
  | S rounds =>
      n ← net_poll n;
      '(n, r) ← udp_recv sock RECV_BUF_SIZE n;
      match r with
      | Ok (data, _, _) => a ← parse_a_response data 0x1234; Ret (n, a)
      | Err _ =>
          d ← uptime_ms (world n) -! start;
          if QUERY_TIMEOUT_MS <? d then Ret (n, None)
          else resolve_loop rounds sock start (mkNet (hlt (world n)) (NET n))
      end
  end.

Definition resolve_a (rounds : nat) (name : str) (n : Net W) : outcome (Net W * option (list Z)) :=
  if bool_decide (name = []) || (253 <? lenZ name) then Ret (n, None) else
  match dns_server n with
  | None => Ret (n, None)
  | Some server =>
      let local_port := Z.lor 0xC000 (Z.land (wrap 16 (uptime_ms (world n))) 0x3fff) in
      '(n, b) ← udp_bind local_port n;
      match b with
      | Err _ => Ret (n, None)
      | Ok sock =>
          '(query, q) ← build_query name 0x1234 (replicate 512 0);
          match q with
          | None => Ret (n, None)
          | Some qlen =>
              data ← slice query 0 qlen;
              '(n, s) ← udp_send sock server DNS_PORT data n;
              match s with
              | Err _ => Ret (n, None)
              | Ok _ => resolve_loop rounds sock (uptime_ms (world n)) n
              end
          end
      end
  end.

(** ** What the loop relies on *)

Context (idle : W -> nat).

(** The world [w'] comes after [w]: its clock is later, or it reads the same
    and no more interrupts are due before the next tick; no socket is lost. *)
Definition after (w w' : W) : Prop :=
  (uptime_ms w < uptime_ms w' \/ uptime_ms w = uptime_ms w' /\ (idle w' <= idle w)%nat) /\
  forall h, sock_ok h w = true -> sock_ok h w' = true.

Class SmoltcpLaws : Prop := {
  hlt_wakes w : uptime_ms w < uptime_ms (hlt w) \/ uptime_ms w = uptime_ms (hlt w) /\ (idle (hlt w) < idle w)%nat;
  hlt_keeps w h : sock_ok h w = true -> sock_ok h (hlt w) = true;
  poll_after t w : after w (iface_poll t w);
  addrs_after l w : after w (update_ip_addrs l w);
  unroute_after w : after w (remove_default_ipv4_route w);
  route_after r w : after w (add_default_ipv4_route r w);
  dhcp_after h w : after w (dhcp_poll h w).1;
  send_after h d e w : after w (udp_send_slice h d e w).1;
  recv_after h k w : after w (udp_recv_slice h k w).1;
  bind_after p w w' h : udp_new_bind p w = Some (w', h) -> after w w' /\ sock_ok h w' = true;
  tcp_recv_after h k w : after w (tcp_recv_slice h k w).1;
  recv_fits h k w d a p : (udp_recv_slice h k w).2 = Some (d, a, p) -> bytes_ok d /\ lenZ d <= k;
}.
Context `{!SmoltcpLaws}.

Lemma after_refl w : after w w.
Proof. split; [right; lia|done]. Qed.
Lemma after_trans w1 w2 w3 : after w1 w2 -> after w2 w3 -> after w1 w3.
Proof. intros [H1 S1] [H2 S2]. split; [|auto]. lia. Qed.
#[local] Hint Resolve after_refl poll_after addrs_after unroute_after route_after dhcp_after send_after recv_after : core.

(** A stack whose DHCP socket is in the set. *)
Definition stack_ok (n : Net W) : Prop :=
  exists s, NET n = Some s /\ forall h, dhcp_handle s = Some h -> sock_ok h (world n) = true.

Lemma stack_ok_after n w : stack_ok n -> after (world n) w -> stack_ok (mkNet w (NET n)).
Proof. intros (s & Hs & Hh) [_ Ha]. exists s. cbn. split; [done|]. auto. Qed.

Lemma dhcp_event_after e w s : after w (dhcp_event e w s).1 /\ dhcp_handle (dhcp_event e w s).2 = dhcp_handle s.
Proof.
  destruct e as [|[a p r d]]; cbn; [split; [|done]; eapply after_trans; [apply (addrs_after [])|auto]|].
  destruct r as [r|]; cbn; (split; [|done]); [eapply after_trans; [apply addrs_after|auto]|auto].
Qed.

Lemma net_poll_spec n : stack_ok n -> exists n', net_poll n = Ret n' /\ after (world n) (world n') /\ stack_ok n'.
Proof.
  intros (s & Hs & Hh). unfold net_poll. rewrite Hs.
  set (w := iface_poll (uptime_ms (world n)) (world n)). assert (after (world n) w) as Hw by apply poll_after.
  destruct (dhcp_handle s) as [h|] eqn:Eh.
  2:{ eexists. split; [done|]. split; [done|]. exists s. split; [done|]. cbn. by rewrite Eh. }
  rewrite (proj2 Hw h) by auto. pose proof (dhcp_after h w) as Hd. destruct (dhcp_poll h w) as [w1 ev]. cbn in Hd.
  pose proof (after_trans _ _ _ Hw Hd) as Hw1. destruct ev as [e|].
  - destruct (dhcp_event_after e w1 s) as [He Ed]. destruct (dhcp_event e w1 s) as [w2 s2]. cbn in He, Ed.
    pose proof (after_trans _ _ _ Hw1 He) as Hw2. eexists. split; [done|]. split; [done|]. exists s2. split; [done|].
    cbn. rewrite Ed, Eh. intros h' [= <-]. apply Hw2. auto.
  - eexists. split; [done|]. split; [done|]. exists s. split; [done|]. cbn. rewrite Eh. intros h' [= <-]. apply Hw1. auto.
Qed.

(** A datagram the socket delivered. *)
Definition delivered (sock : Z) (data : list Z) : Prop :=
  exists w w' src port, udp_recv_slice sock RECV_BUF_SIZE w = (w', Some (data, Ipv4 src, port)).

Lemma udp_recv_spec n sock :
  stack_ok n -> sock_ok sock (world n) = true ->
  exists n' r, udp_recv sock RECV_BUF_SIZE n = Ret (n', r) /\ after (world n) (world n') /\ stack_ok n' /\
    forall d src port, r = Ok (d, src, port) -> delivered sock d /\ bytes_ok d /\ lenZ d <= RECV_BUF_SIZE.
Proof.
  intros Hn Hsock. pose proof Hn as (s & Hs & _). unfold udp_recv, need_net, poll_iface, on_world, get_mut.
  unfold mbind, M_bind, mbindM. rewrite Hs. cbn [NET world].
  set (w := iface_poll (uptime_ms (world n)) (world n)). assert (after (world n) w) as Hw by apply poll_after.
  rewrite (proj2 Hw sock Hsock). unfold mget. cbn [world]. destruct (udp_can_recv sock w); cbn [negb world NET].
  - pose proof (recv_after sock 512 w) as Hr. pose proof (recv_fits sock 512 w) as Hf.
    assert (forall w' d a p, udp_recv_slice sock 512 w = (w', Some (d, Ipv4 a, p)) -> delivered sock d) as Hdel
      by (intros; by do 4 eexists).
    destruct (udp_recv_slice sock 512 w) as [w1 r]. cbn in Hr, Hf. pose proof (after_trans _ _ _ Hw Hr) as Hw1.
    pose proof (stack_ok_after n w1 Hn Hw1) as Hok.
    destruct r as [[[d [a|a]] p]|]; (do 2 eexists; split; [reflexivity|]); (split; [done|]); (split; [done|]);
      intros d' src port [=]; subst. split; [by eapply Hdel|by eapply Hf].
  - do 2 eexists. split; [reflexivity|]. split; [done|]. split; [|by intros].
    by apply stack_ok_after.
Qed.

(** What [resolve_a] may answer: nothing, or an address read from a datagram
    the socket delivered. *)
Definition answer_ok (sock : Z) (r : option (list Z)) : Prop :=
  forall a, r = Some a -> exists data, delivered sock data /\ parse_a_response data 0x1234 = Ret (Some a).

Lemma resolve_loop_returns sock start fuel : forall (t : nat) n,
  (Z.to_nat (start + 3001 - uptime_ms (world n)) <= fuel)%nat -> (idle (world n) <= t)%nat ->
  start <= uptime_ms (world n) -> stack_ok n -> sock_ok sock (world n) = true ->
  exists rounds n' r, resolve_loop rounds sock start n = Ret (n', r) /\ after (world n) (world n') /\ answer_ok sock r.
Proof.
  induction fuel as [fuel IHf] using lt_wf_ind. intros t. induction t as [t IHt] using lt_wf_ind.
  intros n Hf Ht Hst Hok Hsock.
  destruct (net_poll_spec n Hok) as (n1 & E1 & A1 & Hok1). pose proof A1 as [T1 S1].
  destruct (udp_recv_spec n1 sock Hok1 (S1 _ Hsock)) as (n2 & r & E2 & A2 & Hok2 & Hd).
  pose proof A2 as [T2 S2]. pose proof (after_trans _ _ _ A1 A2) as A12.
  destruct r as [[[d src] port]|e].
  - destruct (Hd d src port eq_refl) as (Hdel & Hb & Hl).
    destruct (dns_any_packet d 0x1234 Hb ltac:(lia)) as (a & Ea & _).
    exists 1%nat, n2, a. cbn [resolve_loop]. rewrite E1. obind. rewrite E2. obind. rewrite Ea. obind.
    split; [done|]. split; [done|]. intros a' ->. by exists d.
  - assert (uptime_ms (world n2) -! start = Ret (uptime_ms (world n2) - start)) as Ed by (apply sub_chk_ok; lia).
    destruct (Z.ltb_spec 3000 (uptime_ms (world n2) - start)) as [Hlt|Hge].
    { exists 1%nat, n2, None. cbn [resolve_loop]. rewrite E1. obind. rewrite E2. obind. rewrite Ed. obind.
      rewrite (proj2 (Z.ltb_lt _ _)) by done. split; [done|]. split; [done|by intros]. }
    pose proof (hlt_wakes (world n2)) as Hh.
    assert (stack_ok (mkNet (hlt (world n2)) (NET n2))) as Hok3.
    { destruct Hok2 as (s & Hs & Hsh). exists s. split; [done|]. intros h Eh. apply hlt_keeps. by apply Hsh. }
    assert (sock_ok sock (hlt (world n2)) = true) as Hs3 by (apply hlt_keeps; auto).
    assert (exists rounds n' r, resolve_loop rounds sock start (mkNet (hlt (world n2)) (NET n2)) = Ret (n', r) /\
      after (hlt (world n2)) (world n') /\ answer_ok sock r) as (rounds & n' & r & E3 & A3 & Hr).
    { destruct (decide (uptime_ms (world n) < uptime_ms (hlt (world n2)))) as [Hlt|Heq].
      - eapply (IHf (Z.to_nat (start + 3001 - uptime_ms (hlt (world n2)))) ltac:(lia) _ (mkNet (hlt (world n2)) (NET n2))); cbn [world];
          [lia|reflexivity|lia|done|done].
      - eapply (IHt (idle (hlt (world n2))) ltac:(lia) (mkNet (hlt (world n2)) (NET n2))); cbn [world]; [lia|reflexivity|lia|done|done]. }
    assert (after (world n2) (hlt (world n2))) as Ah by (split; [lia|intros; by apply hlt_keeps]).
    exists (S rounds), n', r. split; [|split; [|done]];
      [|eapply after_trans; [exact A12|eapply after_trans; [exact Ah|exact A3]]]. cbn [resolve_loop]. rewrite E1. obind. rewrite E2. obind. rewrite Ed. obind.
    by rewrite (proj2 (Z.ltb_ge _ _)) by done.
Qed.

(** The query was handed to the socket and accepted. *)
Definition asked (sock : Z) (name : str) (server : list Z) : Prop :=
  exists w w', udp_send_slice sock (wire_message (query_message (str_split 46 name) 0x1234)) (server, DNS_PORT) w = (w', true).

Lemma slice_query (out q : list Z) : take (length q) out = q -> slice out 0 (lenZ q) = Ret q.
Proof.
  intros Ht. assert (length q <= length out)%nat as Hl by (rewrite <- Ht at 1; rewrite length_take; lia).
  rewrite slice_prefix by (unfold lenZ; lia). by rewrite lenZ_to_nat, Ht.
Qed.

Lemma udp_bind_spec n port :
  stack_ok n -> exists n' r, udp_bind port n = Ret (n', r) /\
    after (world n) (world n') /\ forall h, r = Ok h -> stack_ok n' /\ sock_ok h (world n') = true.
Proof.
  intros Hok. pose proof Hok as (s & Hs & _). unfold udp_bind, need_net, mbind, M_bind, mbindM. rewrite Hs.
  destruct (udp_new_bind port (world n)) as [[w h]|] eqn:Eb; (do 2 eexists; split; [reflexivity|]); [|by split].
  destruct (bind_after _ _ _ _ Eb). split; [done|]. intros h' [= <-]. split; [by apply stack_ok_after|done].
Qed.

Lemma udp_send_spec n sock addr port data :
  stack_ok n -> sock_ok sock (world n) = true ->
  exists n' r, udp_send sock addr port data n = Ret (n', r) /\ after (world n) (world n') /\ stack_ok n' /\
    sock_ok sock (world n') = true /\ (r = Ok tt -> exists w w', udp_send_slice sock data (addr, port) w = (w', true)).
Proof.
  intros Hok Hsock. pose proof Hok as (s & Hs & _).
  unfold udp_send, need_net, poll_iface, on_world, get_mut, mbind, M_bind, mbindM. rewrite Hs. cbn [world NET].
  set (w := iface_poll (uptime_ms (world n)) (world n)). assert (after (world n) w) as Hw by apply poll_after.
  rewrite (proj2 Hw sock Hsock). cbn [world NET]. pose proof (send_after sock data (addr, port) w) as Hs1.
  destruct (udp_send_slice sock data (addr, port) w) as [w1 ok] eqn:Es. cbn in Hs1.
  pose proof (after_trans _ _ _ Hw Hs1) as Hw1. exists (mkNet w1 (NET n)).
  destruct ok; (eexists; split; [reflexivity|]); (split; [done|]); (split; [by apply stack_ok_after|]); (split; [by apply Hw1|]);
    [|by intros]. intros _. by do 2 eexists.
Qed.

(** Where the answer [a] for [name] comes from. *)
Definition answered (name : str) (n : Net W) (a : list Z) : Prop :=
  exists server sock data,
    dns_server n = Some server /\ Forall label_ok (str_split 46 name) /\ asked sock name server /\
    delivered sock data /\ parse_a_response data 0x1234 = Ret (Some a).

Lemma resolve_a_spec name n :
  stack_ok n ->
  exists rounds n' r, resolve_a rounds name n = Ret (n', r) /\ after (world n) (world n') /\
    forall a, r = Some a -> answered name n a.
Proof.
  intros Hok. unfold resolve_a.
  destruct (bool_decide (name = []) || (253 <? lenZ name)) eqn:Eg; [by exists 0%nat, n, None|].
  apply orb_false_iff in Eg as [_ Hlen%Z.ltb_ge].
  destruct (dns_server n) as [server|] eqn:Edns; [|by exists 0%nat, n, None]. cbv zeta.
  destruct (udp_bind_spec n (Z.lor 0xC000 (Z.land (wrap 16 (uptime_ms (world n))) 0x3fff)) Hok)
    as (n1 & b & E1 & A1 & Hb). rewrite E1. destruct b as [sock|e]; [|by exists 0%nat, n1, None].
  destruct (Hb sock eq_refl) as [Hok1 Hsock]. obind.
  destruct (dns_query_wire name 0x1234 Hlen ltac:(done)) as (out & r & Eq & -> & Ht). rewrite Eq. obind.
  destruct (decide (Forall label_ok (str_split 46 name))) as [Hlab|_]; [|by exists 0%nat, n1, None].
  rewrite slice_query by (by apply Ht). obind.
  destruct (udp_send_spec n1 sock server 53 (wire_message (query_message (str_split 46 name) 0x1234)) Hok1 Hsock)
    as (n2 & sr & E2 & A2 & Hok2 & Hsock2 & Hasked). rewrite E2. obind. pose proof (after_trans _ _ _ A1 A2) as A12.
  destruct sr as [[]|e]; [|by exists 0%nat, n2, None].
  destruct (resolve_loop_returns sock (uptime_ms (world n2)) _ _ n2 (le_n _) (le_n _) (Z.le_refl _) Hok2 Hsock2)
    as (rounds & n' & r & E & A3 & Hr). exists rounds, n', r. split; [exact E|].
  split; [by eapply after_trans|]. intros a Ha. destruct (Hr a Ha) as (data & Hd & Hp). exists server, sock, data.
  split_and!; [done|done|exact (Hasked eq_refl)|done|done].
Qed.


End resolve.

(** ** A network

    A world with one server that answers a query after two ticks. *)
Record toy := mkToy { ms : Z; socks : list Z; reply_at : option Z; reply : list Z }.

#[export] Instance toy_stack : Smoltcp toy := {|
  uptime_ms := ms;
  hlt w := mkToy (ms w + 10) (socks w) (reply_at w) (reply w);
  net_up _ _ w := (w, 0);
  iface_poll _ w := w;
  iface_ip_addrs _ := [];
  update_ip_addrs _ w := w;
  remove_default_ipv4_route w := w;
  add_default_ipv4_route _ w := w;
  dhcp_poll _ w := (w, None);
  sock_ok h w := bool_decide (h ∈ socks w);
  sock_remove h w := mkToy (ms w) (filter (fun x => x <> h) (socks w)) (reply_at w) (reply w);
  tcp_new _ _ w := (w, 0);
  tcp_new_listen _ _ _ w := None;
  tcp_connect_to _ _ _ w := (w, false);
  tcp_state _ _ := Closed;
  tcp_may_send _ _ := false;
  tcp_may_recv _ _ := false;
  tcp_can_recv _ _ := false;
  tcp_send_slice _ _ w := (w, None);
  tcp_recv_slice _ _ w := (w, None);
  tcp_shut _ w := w;
  udp_new_bind _ w := Some (mkToy (ms w) (lenZ (socks w) :: socks w) (reply_at w) (reply w), lenZ (socks w));
  udp_send_slice _ _ _ w := (mkToy (ms w) (socks w) (Some (ms w + 20)) (reply w), true);
  udp_can_recv _ w := match reply_at w with Some t => t <=? ms w | None => false end;
  udp_recv_slice _ k w :=
    (mkToy (ms w) (socks w) None (reply w),
     if decide (bytes_ok (reply w) /\ lenZ (reply w) <= k) then Some (reply w, Ipv4 [10; 0; 2; 3], 53) else None);
|}.

Lemma toy_laws : SmoltcpLaws (fun _ : toy => O).
Proof.
  constructor; intros; try (split; [right; cbn; lia|done]); cbn in *.
  - left. lia.
  - done.
  - injection H as <- <-. split; [split; [right; cbn; lia|]|]; cbn.
    + intros h Hh. apply bool_decide_eq_true in Hh. apply bool_decide_eq_true. by right.
    + apply bool_decide_eq_true. by left.
  - case_decide as Hd; [|done]. by injection H as <- _ _.
Qed.

Definition demo_net : Net toy :=
  mkNet (mkToy 0 [0] None (wire_message demo_response)) (Some (mkStack (Some 0) true (Some [10; 0; 2; 3]) None)).

