(* ===== verification/Http.v ===== *)
(** * The HTTP server

    kernel/src/net/http.rs: the request line, the routes, the JSON and HTML
    bodies, the framing of a response, and [tick], the turn of the server
    task that serves one request over a TCP socket of smoltcp (Net.v).  What
    the pages read of the rest of the kernel (clock, frames, processes,
    tasks, system calls) is a [KernelView]; the network part is read from the
    stack itself, and [/api/dns] runs the resolver of Resolve.v. *)
From S2P Require Import Prelude Str Signal ProcessTable E1000 Net Dns Resolve.
Local Open Scope Z_scope.

Abbreviation LISTEN_PORT := 8080 (only parsing).

(** A literal in which a backquote stands for the double quote. *)
Definition qstr (s : string) : str := (fun b => if b =? 96 then 34 else b) <$> bstr s.
Definition crlf : str := [13; 10].

Record KernelView := mkView {
  kv_ms : Z;
  kv_ticks : Z;
  kv_frames : option (Z * Z);
  kv_procs : list (Z * Z * str * ProcessState);
  kv_tasks : Z;
  kv_syscalls : Z;
}.

(** ** Requests *)

Definition parse_request_line (req : str) : str * str :=
  let first := default [] (head (lines req)) in
  let it := str_words ascii_white first in
  (default [] (head it), default (bstr "/") (it !! 1%nat)).

Definition split_at (c : Z) (s : str) : str * str :=
  match find_char c s with
  | Some i => (take i s, drop (i + 1) s)
  | None => (s, [])
  end.

Fixpoint find_pair (key : str) (pairs : list str) : option str :=
  match pairs with
  | [] => None
  | p :: pairs =>
      let '(k, v) := split_at 61 p in
      if bool_decide (k = key) then Some v else find_pair key pairs
  end.
Definition query_param (q key : str) : option str := find_pair key (str_split 38 q).

(** ** Responses *)

Definition response_html (code : Z) (reason body : str) : str :=
  bstr "HTTP/1.1 " ++ fmt_dec code ++ bstr " " ++ reason ++ crlf ++
  bstr "Content-Type: text/html; charset=utf-8" ++ crlf ++
  bstr "Content-Length: " ++ fmt_dec (lenZ body) ++ crlf ++
  bstr "Connection: close" ++ crlf ++ crlf ++ body.
Definition response_json (code : Z) (body : str) : str :=
  bstr "HTTP/1.1 " ++ fmt_dec code ++ bstr " OK" ++ crlf ++
  bstr "Content-Type: application/json" ++ crlf ++
  bstr "Content-Length: " ++ fmt_dec (lenZ body) ++ crlf ++
  bstr "Connection: close" ++ crlf ++ crlf ++ body.
Definition response_text (code : Z) (reason body : str) : str :=
  bstr "HTTP/1.1 " ++ fmt_dec code ++ bstr " " ++ reason ++ crlf ++
  bstr "Content-Type: text/plain; charset=utf-8" ++ crlf ++
  bstr "Content-Length: " ++ fmt_dec (lenZ body) ++ crlf ++
  bstr "Connection: close" ++ crlf ++ crlf ++ body.

(** ** Bodies *)

(** One character; [{:04x}] of a number below 32 is two zeros and two digits. *)
Definition escape_char (c : Z) : str :=
  if c =? 34 then [92; 34]
  else if c =? 92 then [92; 92]
  else if c =? 10 then [92; 110]
  else if c =? 13 then [92; 114]
  else if c <? 0x20 then [92; 117; 48; 48; hex_digit (c / 16); hex_digit (c mod 16)]
  else encode_char c.
Definition escape (s : str) : str := concat (escape_char <$> chars s).

Definition fmt_int (n : Z) : str := if n <? 0 then 45 :: fmt_dec (- n) else fmt_dec n.
(** [format!("{}", addr)] of an IPv4 address, and [{:?}] of a process state. *)
Definition fmt_ip (a : list Z) : str := str_join 46 (fmt_dec <$> a).
Definition fmt_state (s : ProcessState) : str :=
  match s with
  | Runnable => bstr "Runnable"
  | Sleeping => bstr "Sleeping"
  | Zombie code => bstr "Zombie(" ++ fmt_int code ++ bstr ")"
  end.
Definition fmt_bool (b : bool) : str := if b then bstr "true" else bstr "false".

(** [time::format_uptime] *)
Definition format_uptime (ms : Z) : str :=
  let total := ms / 1000 in
  let h := total / 3600 in
  let m := total mod 3600 / 60 in
  let s := total mod 60 in
  if 0 <? h then fmt_dec h ++ bstr "h " ++ fmt_dec m ++ bstr "m " ++ fmt_dec s ++ bstr "s"
  else if 0 <? m then fmt_dec m ++ bstr "m " ++ fmt_dec s ++ bstr "s"
  else fmt_dec s ++ bstr "s".

Definition api_uptime (v : KernelView) : str :=
  qstr "{`uptime_ms`:" ++ fmt_dec (kv_ms v) ++ qstr ",`ticks`:" ++ fmt_dec (kv_ticks v) ++ qstr "}".

Definition api_mem (v : KernelView) : outcome str :=
  let '(used, total) := default (0, 0) (kv_frames v) in
  used4 ← used *! 4 @ 64;
  total4 ← total *! 4 @ 64;
  Ret (qstr "{`used_kib`:" ++ fmt_dec used4 ++ qstr ",`total_kib`:" ++ fmt_dec total4 ++ qstr "}").

Definition proc_json (p : Z * Z * str * ProcessState) : str :=
  let '(pid, parent, name, state) := p in
  qstr "{`pid`:" ++ fmt_dec pid ++ qstr ",`parent`:" ++ fmt_dec parent ++ qstr ",`name`:`" ++ escape name ++
  qstr "`,`state`:`" ++ fmt_state state ++ qstr "`}".
Definition api_procs (v : KernelView) : str :=
  [91] ++ str_join 44 (proc_json <$> kv_procs v) ++ [93].

Section http.
Context {W : Type} `{!Smoltcp W}.

Definition ip_or (d : str) (a : option (list Z)) : str := match a with Some a => fmt_ip a | None => d end.

Definition api_net (n : Net W) : str :=
  qstr "{`ip`:`" ++ ip_or (bstr "0.0.0.0") (ip_address n) ++ qstr "`,`gw`:`" ++ ip_or (bstr "0.0.0.0") (gateway n) ++
  qstr "`,`dns`:`" ++ ip_or (bstr "0.0.0.0") (dns_server n) ++ qstr "`,`dhcp`:" ++ fmt_bool (dhcp_configured n) ++
  qstr "}".

Definition api_dns (rounds : nat) (query : str) (n : Net W) : outcome (Net W * str) :=
  let host := default [] (query_param query (bstr "host")) in
  if bool_decide (host = []) then Ret (n, qstr "{`error`:`missing host param`}") else
  '(n, r) ← resolve_a rounds host n;
  Ret (n, match r with
          | Some addr => qstr "{`host`:`" ++ escape host ++ qstr "`,`a`:`" ++ fmt_ip addr ++ qstr "`}"
          | None => qstr "{`host`:`" ++ escape host ++ qstr "`,`error`:`resolve failed`}"
          end).

Definition render_dashboard (v : KernelView) (n : Net W) : outcome str :=
  let '(used, total) := default (0, 0) (kv_frames v) in
  used4 ← used *! 4 @ 64;
  total4 ← total *! 4 @ 64;
  let ip := ip_or (bstr "?") (ip_address n) in
  Ret (
    qstr "<!doctype html>
<html><head><meta charset=`utf-8`><title>Rust Kernel</title>
<style>
body { background:#0a0a14; color:#e8e8f0; font-family: ui-monospace, SFMono-Regular, monospace; padding:2em; max-width:60em; margin:auto; }
h1 { color:#8be9fd; border-bottom:2px solid #6272a4; padding-bottom:.3em; }
h2 { color:#bd93f9; margin-top:1.5em; }
.grid { display:grid; grid-template-columns: max-content auto; gap:.3em 1.5em; }
.k { color:#50fa7b; }
.v { color:#f1fa8c; }
code { background:#1a1a2a; padding:.1em .4em; border-radius:.2em; }
.footer { margin-top:3em; color:#6272a4; font-size:.8em; }
ul.api li { margin:.2em 0; }
</style></head><body>
<h1>Rust Kernel — live dashboard</h1>
<p>Cette page est servie en ring 0 par le kernel via driver e1000 + smoltcp.</p>
<div class=`grid`>
<span class=`k`>uptime</span><span class=`v`>" ++
    format_uptime (kv_ms v) ++
    qstr "  (" ++
    fmt_dec (kv_ticks v) ++
    qstr " ticks @ 100Hz)</span>
<span class=`k`>memory</span><span class=`v`>" ++
    fmt_dec (used4 / 1024) ++
    qstr " / " ++
    fmt_dec (total4 / 1024) ++
    qstr " MiB used</span>
<span class=`k`>tasks</span><span class=`v`>" ++
    fmt_dec (kv_tasks v) ++
    qstr " async, " ++
    fmt_dec (lenZ (kv_procs v)) ++
    qstr " user procs</span>
<span class=`k`>syscalls</span><span class=`v`>" ++
    fmt_dec (kv_syscalls v) ++
    qstr " total</span>
<span class=`k`>ip</span><span class=`v`>" ++
    ip ++
    qstr "</span>
</div>
<h2>API JSON</h2>
<ul class=`api`>
<li><code>GET /api/uptime</code> — uptime_ms + ticks</li>
<li><code>GET /api/mem</code> — frame allocator stats</li>
<li><code>GET /api/procs</code> — user process list</li>
<li><code>GET /api/net</code> — IP / gateway / DNS / DHCP state</li>
<li><code>GET /api/dns?host=NAME</code> — A-record lookup (DNS server vient du DHCP)</li>
</ul>
<p class=`footer`>Rust no_std · multiboot2 · ring 3 · CoW fork · FAT32 · TCP/IP</p>
</body></html>").

Definition route (rounds : nat) (v : KernelView) (path : str) (n : Net W) : outcome (Net W * str) :=
  let '(p, q) := split_at 63 path in
  if bool_decide (p = bstr "/") || bool_decide (p = bstr "/index.html") then
    page ← render_dashboard v n; Ret (n, response_html 200 (bstr "OK") page)
  else if bool_decide (p = bstr "/api/uptime") then Ret (n, response_json 200 (api_uptime v))
  else if bool_decide (p = bstr "/api/mem") then body ← api_mem v; Ret (n, response_json 200 body)
  else if bool_decide (p = bstr "/api/procs") then Ret (n, response_json 200 (api_procs v))
  else if bool_decide (p = bstr "/api/net") then Ret (n, response_json 200 (api_net n))
  else if bool_decide (p = bstr "/api/dns") then
    '(n, body) ← api_dns rounds q n; Ret (n, response_json 200 body)
  else Ret (n, response_text 404 (bstr "Not Found") (bstr "404 — disponibles: / /api/{uptime,mem,procs,net,dns}" ++ [10])).

(** ** The server task *)

Record Server := mkServer { net : Net W; CURRENT : option Z }.

Definition install_listener (s : Server) : Server :=
  match NET (net s) with
  | None => s
  | Some _ =>
      match tcp_new_listen LISTEN_PORT 2048 16384 (world (net s)) with
      | None => s
      | Some (w, h) => mkServer (mkNet w (NET (net s))) (Some h)
      end
  end.

(** The answer to the bytes of a request. *)
Definition respond (rounds : nat) (v : KernelView) (bytes : list Z) (n : Net W) : outcome (Net W * str) :=
  let req := default [] (from_utf8 bytes) in
  let '(method, path) := parse_request_line req in
  if bool_decide (method = bstr "GET") then route rounds v path n
  else Ret (n, response_text 405 (bstr "Method Not Allowed") (bstr "Only GET" ++ [10])).

Definition tick (rounds : nat) (v : KernelView) (s : Server) : outcome Server :=
  match NET (net s) with
  | None => Ret s
  | Some _ =>
      let with_world w := mkNet w (NET (net s)) in
      let w := iface_poll (uptime_ms (world (net s))) (world (net s)) in
      match CURRENT s with
      | None => Ret (mkServer (with_world w) None)
      | Some h =>
          if negb (sock_ok h w) then Panic else
          let state := tcp_state h w in
          let '(w, req) :=
            if tcp_can_recv h w then
              let '(w, r) := tcp_recv_slice h 1024 w in
              (w, match r with Some ((_ :: _) as d) => Some d | _ => None end)
            else (w, None) in
          if bool_decide (state = Closed) then
            if negb (sock_ok h w) then Panic else
            Ret (install_listener (mkServer (with_world (sock_remove h w)) None))
          else if bool_decide (state = CloseWait) then
            if negb (sock_ok h w) then Panic else
            Ret (mkServer (with_world (tcp_shut h w)) (Some h))
          else
            match req with
            | None => Ret (mkServer (with_world w) (Some h))
            | Some bytes =>
                '(n, resp) ← respond rounds v bytes (with_world w);
                if negb (sock_ok h (world n)) then Panic else
                let '(w, _) := tcp_send_slice h resp (world n) in
                Ret (mkServer (mkNet w (NET n)) (Some h))
            end
      end
  end.

End http.
Arguments Server : clear implicits.
