(* ===== verification/HttpCorrect.v ===== *)
(** * The HTTP server: what a client reads

    A JSON reader and an HTTP client, written from RFC 8259 and RFC 9112 for
    the forms the server emits, and the theorems that they recover what the
    server meant: every API body is a JSON text of the right value whatever
    the process names and host names hold, and every request a turn of the
    server takes off its socket gets one response, framed by its length, with
    the status of its route. *)
From S2P Require Import Prelude Str Signal ProcessTable E1000 Net Dns Resolve Http.
Local Open Scope Z_scope.

(** ** JSON *)

#[warnings="-register-all"] Inductive json :=
  | JNum (n : Z)
  | JStr (s : str)
  | JBool (b : bool)
  | JArr (l : list json)
  | JObj (l : list (str * json)).

Definition hex_value (c : Z) : option Z :=
  if (48 <=? c) && (c <=? 57) then Some (c - 48)
  else if (97 <=? c) && (c <=? 102) then Some (c - 87) else None.

(** A string after its opening quote: the contents, and what follows. *)
Fixpoint jstring (s : str) : option (str * str) :=
  match s with
  | [] => None
  | c :: r =>
      if c =? 34 then Some ([], r)
      else if c =? 92 then
        match r with
        | [] => None
        | e :: r1 =>
            if e =? 117 then
              match r1 with
              | z1 :: z2 :: a :: b :: r2 =>
                  if negb ((z1 =? 48) && (z2 =? 48)) then None else
                  x ← hex_value a; y ← hex_value b; '(t, rest) ← jstring r2; Some (encode_char (16 * x + y) ++ t, rest)
              | _ => None
              end
            else
              d ← (if e =? 34 then Some 34 else if e =? 92 then Some 92
                   else if e =? 110 then Some 10 else if e =? 114 then Some 13 else None);
              '(t, rest) ← jstring r1; Some (d :: t, rest)
        end
      else if c <? 32 then None
      else '(t, rest) ← jstring r; Some (c :: t, rest)
  end.

Fixpoint jdigits (s : str) : str * str :=
  match s with
  | c :: r => if (48 <=? c) && (c <=? 57) then let '(d, t) := jdigits r in (c :: d, t) else ([], s)
  | [] => ([], [])
  end.

(** The elements of an array and the members of an object, after the opening
    bracket, with [p] for a value. *)
Fixpoint jelems (p : str -> option (json * str)) (k : nat) (s : str) : option (list json * str) :=
  match k with
  | O => None
  | S k =>
      '(v, r) ← p s;
      match r with
      | c :: r => if c =? 44 then '(l, r) ← jelems p k r; Some (v :: l, r)
                  else if c =? 93 then Some ([v], r) else None
      | [] => None
      end
  end.
Fixpoint jmembers (p : str -> option (json * str)) (k : nat) (s : str) : option (list (str * json) * str) :=
  match k, s with
  | S k, q :: s =>
      if negb (q =? 34) then None else
      '(key, r) ← jstring s;
      match r with
      | colon :: r =>
          if negb (colon =? 58) then None else
          '(v, r) ← p r;
          match r with
          | c :: r => if c =? 44 then '(l, r) ← jmembers p k r; Some ((key, v) :: l, r)
                      else if c =? 125 then Some ([(key, v)], r) else None
          | [] => None
          end
      | [] => None
      end
  | _, _ => None
  end.

Fixpoint jparse (depth : nat) (s : str) : option (json * str) :=
  match depth, s with
  | S depth, c :: r =>
      if c =? 34 then '(t, r) ← jstring r; Some (JStr t, r)
      else if c =? 91 then
        if bool_decide (head r = Some 93) then Some (JArr [], drop 1 r)
        else '(l, r) ← jelems (jparse depth) (length r) r; Some (JArr l, r)
      else if c =? 123 then
        if bool_decide (head r = Some 125) then Some (JObj [], drop 1 r)
        else '(l, r) ← jmembers (jparse depth) (length r) r; Some (JObj l, r)
      else match strip_prefix (bstr "true") s, strip_prefix (bstr "false") s with
           | Some r, _ => Some (JBool true, r)
           | _, Some r => Some (JBool false, r)
           | None, None => let '(d, r) := jdigits s in n ← parse_uint 64 d; Some (JNum n, r)
           end
  | _, _ => None
  end.

(** A whole text. *)
Definition json_text (depth : nat) (s : str) : option json :=
  match jparse depth s with Some (v, []) => Some v | _ => None end.

(** ** Strings *)

Definition plain (b : Z) : Prop := 32 <= b /\ b <> 34 /\ b <> 92.

Lemma jstring_plain l s : Forall plain l -> jstring (l ++ s) = '(t, r) ← jstring s; Some (l ++ t, r).
Proof.
  induction 1 as [|b l (H1 & H2 & H3) Hl IH]; cbn [app]; [by destruct (jstring s) as [[]|]|].
  cbn [jstring]. rewrite (proj2 (Z.eqb_neq b 34)), (proj2 (Z.eqb_neq b 92)), (proj2 (Z.ltb_ge b 32)) by lia.
  rewrite IH. by destruct (jstring s) as [[]|].
Qed.

Lemma jstring_control c s :
  0 <= c < 32 ->
  jstring ([92; 117; 48; 48; hex_digit (c / 16); hex_digit (c mod 16)] ++ s) = '(t, r) ← jstring s; Some (c :: t, r).
Proof.
  intros Hc. assert (forall i, i ∈ seqZ 0 32 ->
    hex_value (hex_digit (i / 16)) = Some (i / 16) /\ hex_value (hex_digit (i mod 16)) = Some (i mod 16)) as H.
  { apply Forall_forall. vm_compute. repeat constructor. }
  destruct (H c) as [H1 H2]; [apply elem_of_seqZ; lia|].
  cbn [app jstring]. change (92 =? 34) with false. change (92 =? 92) with true. change (117 =? 117) with true.
  cbn [Z.eqb Pos.eqb andb negb]. rewrite H1, H2. cbn [mbind option_bind].
  replace (16 * (c / 16) + c mod 16) with c by (rewrite (Z.div_mod c 16) at 1; lia).
  unfold encode_char. by rewrite bool_decide_eq_true_2 by lia.
Qed.

Lemma jstring_escape s r : utf8_ok s = true -> jstring (escape s ++ 34 :: r) = Some (s, r).
Proof.
  intros (cs & Hcs & ->)%utf8_chars. unfold escape. induction Hcs as [|c cs Hc Hcs IH]; [done|]. cbn [concat].
  destruct (chars_uchar c (concat cs) Hc) as (ch & -> & He & H0). cbn [fmap list_fmap concat]. rewrite <- app_assoc.
  assert (forall t, ch < 128 -> jstring (escape_char ch ++ t) = '(u, r) ← jstring t; Some (ch :: u, r)) as Hlow.
  { intros t Hch. unfold escape_char.
    destruct (Z.eqb_spec ch 34) as [->|]; [done|]. destruct (Z.eqb_spec ch 92) as [->|]; [done|].
    destruct (Z.eqb_spec ch 10) as [->|]; [done|]. destruct (Z.eqb_spec ch 13) as [->|]; [done|].
    destruct (Z.ltb_spec ch 32); [by apply jstring_control|].
    unfold encode_char. rewrite bool_decide_eq_true_2 by lia. by apply (jstring_plain [ch]), Forall_singleton. }
  destruct (decide (ch < 128)) as [Hch|Hch].
  - rewrite Hlow by done. rewrite IH. cbn [mbind option_bind]. rewrite <- He. unfold encode_char.
    by rewrite bool_decide_eq_true_2 by lia.
  - assert (escape_char ch = c) as ->.
    { unfold escape_char. rewrite !(proj2 (Z.eqb_neq ch _)), (proj2 (Z.ltb_ge ch 32)) by lia. done. }
    rewrite jstring_plain, IH; [done|]. destruct (uchar_ascii_or_high c Hc) as [(b & -> & Hb)|Hhigh].
    + exfalso. revert He. unfold encode_char. rewrite bool_decide_eq_false_2 by lia. by repeat case_bool_decide.
    + eapply Forall_impl; [exact Hhigh|]. unfold plain. intros; cbn in *; lia.
Qed.

(** ** Values *)

(** The text [t] followed by a delimiter is read as [v]. *)
Definition delim (r : str) : Prop := match r with c :: _ => ~ 48 <= c <= 57 | [] => True end.
Definition reads (d : nat) (v : json) (t : str) : Prop := forall r, delim r -> jparse d (t ++ r) = Some (v, r).

Lemma jdigits_app ds r : Forall (fun b => 48 <= b <= 57) ds -> delim r -> jdigits (ds ++ r) = (ds, r).
Proof.
  induction 1 as [|b ds Hb Hds IH]; intros Hr; cbn [app].
  - destruct r as [|c r]; [done|]. cbn [jdigits delim] in *.
    destruct (Z.leb_spec 48 c), (Z.leb_spec c 57); try done. cbn. lia.
  - cbn [jdigits]. rewrite (proj2 (Z.leb_le _ _)), (proj2 (Z.leb_le _ _)) by lia. cbn [andb]. by rewrite IH.
Qed.

Lemma reads_num d n : fits 64 n -> reads (S d) (JNum n) (fmt_dec n).
Proof.
  intros Hn r Hr. pose proof (fmt_dec_range n ltac:(apply Hn)) as Hd. pose proof (parse_fmt_dec 64 n ltac:(lia) Hn) as Hp.
  pose proof (jdigits_app _ r Hd Hr) as Hj. destruct (fmt_dec n) as [|c ds]; [done|].
  apply Forall_cons in Hd as [Hc Hd]. cbn [app] in *. cbn [jparse].
  rewrite !(proj2 (Z.eqb_neq c _)) by lia.
  assert (strip_prefix (bstr "true") (c :: ds ++ r) = None) as ->.
  { cbn. by rewrite bool_decide_eq_false_2 by lia. }
  assert (strip_prefix (bstr "false") (c :: ds ++ r) = None) as ->.
  { cbn. by rewrite bool_decide_eq_false_2 by lia. }
  rewrite Hj, Hp. done.
Qed.

Lemma reads_escape d s : utf8_ok s = true -> reads (S d) (JStr s) (34 :: escape s ++ [34]).
Proof. intros Hs r _. cbn [app jparse]. change (34 =? 34) with true. cbn iota. rewrite <- app_assoc. cbn [app]. by rewrite jstring_escape. Qed.
Lemma jstring_quoted s r : Forall plain s -> jstring (s ++ 34 :: r) = Some (s, r).
Proof. intros Hs. rewrite jstring_plain by done. cbn. by rewrite app_nil_r. Qed.
Lemma reads_plain d s : Forall plain s -> reads (S d) (JStr s) (34 :: s ++ [34]).
Proof. intros Hs r _. cbn [app jparse]. change (34 =? 34) with true. cbn iota. rewrite <- app_assoc. cbn [app]. by rewrite jstring_quoted. Qed.
Lemma reads_bool d b : reads (S d) (JBool b) (fmt_bool b).
Proof. intros r _. by destruct b. Qed.

Lemma reads_head d v t : reads d v t -> exists c t', t = c :: t' /\ c <> 93.
Proof.
  intros Ht. specialize (Ht [] I). rewrite app_nil_r in Ht. destruct t as [|c t]; [by destruct d|].
  exists c, t. split; [done|]. intros ->. destruct d; [done|]. revert Ht. by vm_compute.
Qed.

Lemma str_join_cons2 sep (w w' : str) ws : str_join sep (w :: w' :: ws) = w ++ sep :: str_join sep (w' :: ws).
Proof. done. Qed.

Lemma jelems_spec d l r : forall k,
  l <> [] -> Forall (fun x => reads d x.1 x.2) l -> (length l <= k)%nat ->
  jelems (jparse d) k (str_join 44 (snd <$> l) ++ 93 :: r) = Some (fst <$> l, r).
Proof.
  induction l as [|[v t] l IH]; intros k Hne Hl Hk; [done|]. apply Forall_cons in Hl as [Ht Hl]. cbn [fst snd] in Ht.
  destruct k as [|k]; [cbn in Hk; lia|]. destruct l as [|x l].
  - cbn [fmap list_fmap str_join fst snd jelems]. rewrite (Ht (93 :: r)) by (cbn; lia). done.
  - cbn [fmap list_fmap fst snd]. rewrite str_join_cons2, <- app_assoc. cbn [app jelems].
    rewrite Ht by (cbn; lia). cbn [mbind option_bind]. change (44 =? 44) with true. cbn iota.
    cbn [fmap list_fmap] in IH. rewrite (IH k ltac:(done) Hl) by (cbn in Hk |- *; lia). done.
Qed.

Lemma length_join sep (ws : list str) : Forall (fun w => w <> []) ws -> (length ws <= length (str_join sep ws))%nat.
Proof.
  induction 1 as [|w ws Hw Hws IH]; [done|]. destruct ws as [|w' ws]; [destruct w; cbn; [done|lia]|].
  rewrite str_join_cons2, length_app. cbn [length] in *. destruct w; [done|]. cbn [length]. lia.
Qed.

Lemma reads_arr d l :
  Forall (fun x => reads d x.1 x.2) l -> reads (S d) (JArr (fst <$> l)) ([91] ++ str_join 44 (snd <$> l) ++ [93]).
Proof.
  intros Hl r Hr. cbn [app jparse]. change (91 =? 34) with false. change (91 =? 91) with true. cbn iota.
  rewrite <- app_assoc. cbn [app]. destruct l as [|x l]; [done|].
  rewrite bool_decide_eq_false_2.
  - rewrite (jelems_spec d (x :: l) r); [done|done|done|]. rewrite length_app.
    etransitivity; [|apply Nat.le_add_r]. rewrite <- (length_fmap snd (x :: l)). apply length_join, Forall_fmap. eapply Forall_impl; [exact Hl|]. intros y Hy. cbn.
    destruct (reads_head _ _ _ Hy) as (? & ? & -> & _). done.
  - apply Forall_cons in Hl as [Hx _]. destruct x as [v t]. cbn [fst snd] in Hx.
    destruct (reads_head _ _ _ Hx) as (c & t' & -> & Hc). cbn [fmap list_fmap snd]. destruct l; cbn; by intros [= ->].
Qed.

Definition member (x : str * json * str) : str := 34 :: x.1.1 ++ [34; 58] ++ x.2.

Lemma jmembers_spec d l r : forall k,
  l <> [] -> Forall (fun x => Forall plain x.1.1 /\ reads d x.1.2 x.2) l -> (length l <= k)%nat ->
  jmembers (jparse d) k (str_join 44 (member <$> l) ++ 125 :: r) = Some (fst <$> l, r).
Proof.
  assert (forall x s k, Forall plain x.1.1 -> reads d x.1.2 x.2 -> delim s ->
    jmembers (jparse d) (S k) (member x ++ s) =
      match s with
      | c :: s => if c =? 44 then '(l, s) ← jmembers (jparse d) k s; Some (x.1 :: l, s)
                  else if c =? 125 then Some ([x.1], s) else None
      | [] => None
      end) as Hone.
  { intros [[key v] t] s k Hk Hv Hs. unfold member. cbn [fst snd app] in *. cbn [jmembers].
    change (34 =? 34) with true. cbn [negb]. rewrite <- app_assoc. cbn [app]. rewrite jstring_quoted by done.
    cbn [mbind option_bind]. change (58 =? 58) with true. cbn [negb]. rewrite Hv by done. done. }
  induction l as [|x l IH]; intros k Hne Hl Hk; [done|]. apply Forall_cons in Hl as [[Hx Hv] Hl].
  destruct k as [|k]; [cbn in Hk; lia|]. destruct l as [|y l].
  - cbn [fmap list_fmap str_join]. rewrite Hone by (done || cbn; lia). done.
  - cbn [fmap list_fmap]. rewrite str_join_cons2, <- app_assoc. cbn [app]. rewrite Hone by (done || cbn; lia).
    change (44 =? 44) with true. cbn iota. cbn [fmap list_fmap] in IH.
    rewrite (IH k ltac:(done) Hl) by (cbn in Hk |- *; lia). done.
Qed.

Lemma reads_obj d l :
  l <> [] -> Forall (fun x => Forall plain x.1.1 /\ reads d x.1.2 x.2) l ->
  reads (S d) (JObj (fst <$> l)) ([123] ++ str_join 44 (member <$> l) ++ [125]).
Proof.
  intros Hne Hl r Hr. cbn [app jparse]. change (123 =? 34) with false. change (123 =? 91) with false.
  change (123 =? 123) with true. cbn iota. rewrite <- app_assoc. cbn [app]. rewrite bool_decide_eq_false_2.
  - rewrite (jmembers_spec d l r); [done|done|done|]. rewrite length_app.
    etransitivity; [|apply Nat.le_add_r]. rewrite <- (length_fmap member l). by apply length_join, Forall_fmap, Forall_true.
  - destruct l as [|x [|y l]]; [done|..]; by cbn.
Qed.

(** ** The bodies of the API *)

Definition uptime_value (v : KernelView) : json :=
  JObj [(bstr "uptime_ms", JNum (kv_ms v)); (bstr "ticks", JNum (kv_ticks v))].
Definition mem_value (v : KernelView) : json :=
  let '(used, total) := default (0, 0) (kv_frames v) in
  JObj [(bstr "used_kib", JNum (used * 4)); (bstr "total_kib", JNum (total * 4))].
Definition proc_value (p : Z * Z * str * ProcessState) : json :=
  let '(pid, parent, name, state) := p in
  JObj [(bstr "pid", JNum pid); (bstr "parent", JNum parent); (bstr "name", JStr name);
        (bstr "state", JStr (fmt_state state))].
Definition dns_value (host : str) (r : option (list Z)) : json :=
  if bool_decide (host = []) then JObj [(bstr "error", JStr (bstr "missing host param"))] else
  JObj [(bstr "host", JStr host);
        match r with
        | Some a => (bstr "a", JStr (fmt_ip a))
        | None => (bstr "error", JStr (bstr "resolve failed"))
        end].

Record view_ok (v : KernelView) : Prop := mkViewOk {
  vo_ms : fits 64 (kv_ms v);
  vo_ticks : fits 64 (kv_ticks v);
  vo_frames : forall used total, kv_frames v = Some (used, total) -> fits 62 used /\ fits 62 total;
  vo_procs : Forall (fun '(pid, parent, name, _) => fits 64 pid /\ fits 64 parent /\ utf8_ok name = true) (kv_procs v);
}.

Lemma plain_digits n : 0 <= n -> Forall plain (fmt_dec n).
Proof. intros Hn. eapply Forall_impl; [by apply fmt_dec_range|]. unfold plain. intros; cbn in *; lia. Qed.
Lemma plain_ip a : bytes_ok a -> Forall plain (fmt_ip a).
Proof.
  intros Ha. unfold fmt_ip. apply str_join_Forall; [unfold plain; lia|]. apply Forall_fmap.
  eapply Forall_impl; [exact Ha|]. intros b Hb. apply plain_digits, Hb.
Qed.
Lemma plain_check l : forallb (fun b => (32 <=? b) && negb (b =? 34) && negb (b =? 92)) l = true -> Forall plain l.
Proof.
  intros Hl. apply Forall_forall. intros b Hb%list_elem_of_In. rewrite forallb_forall in Hl.
  specialize (Hl b Hb). unfold plain. lia.
Qed.
Lemma plain_state s : Forall plain (fmt_state s).
Proof.
  destruct s as [| |c]; [by apply plain_check..|]. unfold fmt_state.
  repeat apply Forall_app_2; [by apply plain_check| |by apply plain_check].
  unfold fmt_int. destruct (Z.ltb_spec c 0); [constructor; [unfold plain; lia|]|]; apply plain_digits; lia.
Qed.

Ltac plain_key := apply plain_check; vm_compute; reflexivity.
Ltac json_members :=
  repeat (apply Forall_cons_2; [split; [plain_key|]; cbn [fst snd]|]); [..|apply Forall_nil_2].
Ltac json_shape := unfold member; cbn [fmap list_fmap str_join fst snd app]; repeat (rewrite <- app_assoc || cbn [app]); reflexivity.

Lemma reads_text d v t : reads d v t -> json_text d t = Some v.
Proof. intros Ht. unfold json_text. specialize (Ht [] I). rewrite app_nil_r in Ht. by rewrite Ht. Qed.

Lemma api_uptime_reads d v : view_ok v -> reads (S (S d)) (uptime_value v) (api_uptime v).
Proof.
  intros Hv. replace (api_uptime v) with ([123] ++ str_join 44 (member <$>
    [((bstr "uptime_ms", JNum (kv_ms v)), fmt_dec (kv_ms v)); ((bstr "ticks", JNum (kv_ticks v)), fmt_dec (kv_ticks v))]) ++ [125])
    by json_shape.
  apply (reads_obj (S d)); [done|]. json_members; apply reads_num; apply Hv.
Qed.

Lemma api_mem_reads d v :
  view_ok v -> exists body, api_mem v = Ret body /\ reads (S (S d)) (mem_value v) body.
Proof.
  intros Hv. unfold api_mem, mem_value.
  assert (fits 62 (default (0, 0) (kv_frames v)).1 /\ fits 62 (default (0, 0) (kv_frames v)).2) as [Hu Ht].
  { destruct (kv_frames v) as [[u t]|] eqn:E; [by apply (vo_frames v Hv)|done]. }
  destruct (default (0, 0) (kv_frames v)) as [u t]. cbn [fst snd] in Hu, Ht. unfold fits in Hu, Ht.
  rewrite (mul_chk_ok 64 u 4), (mul_chk_ok 64 t 4) by (unfold fits; lia). obind. eexists. split; [reflexivity|].
  replace (qstr _ ++ _) with ([123] ++ str_join 44 (member <$>
    [((bstr "used_kib", JNum (u * 4)), fmt_dec (u * 4)); ((bstr "total_kib", JNum (t * 4)), fmt_dec (t * 4))]) ++ [125])
    by json_shape.
  apply (reads_obj (S d)); [done|]. json_members; apply reads_num; unfold fits; lia.
Qed.

Lemma proc_reads d p :
  (let '(pid, parent, name, _) := p in fits 64 pid /\ fits 64 parent /\ utf8_ok name = true) ->
  reads (S (S d)) (proc_value p) (proc_json p).
Proof.
  destruct p as [[[pid parent] name] st]. intros (Hpid & Hpar & Hn). unfold proc_json, proc_value.
  replace (qstr _ ++ _) with ([123] ++ str_join 44 (member <$>
    [((bstr "pid", JNum pid), fmt_dec pid); ((bstr "parent", JNum parent), fmt_dec parent);
     ((bstr "name", JStr name), 34 :: escape name ++ [34]);
     ((bstr "state", JStr (fmt_state st)), 34 :: fmt_state st ++ [34])]) ++ [125])
    by json_shape.
  apply (reads_obj (S d)); [done|]. json_members; [by apply reads_num..|by apply reads_escape|apply reads_plain, plain_state].
Qed.

Lemma api_procs_reads d v : view_ok v -> reads (S (S (S d))) (JArr (proc_value <$> kv_procs v)) (api_procs v).
Proof.
  intros Hv. unfold api_procs. pose proof (reads_arr (S (S d)) ((fun p => (proc_value p, proc_json p)) <$> kv_procs v)) as Hr.
  rewrite <- !list_fmap_compose in Hr. apply Hr. apply Forall_fmap. eapply Forall_impl; [apply (vo_procs v Hv)|].
  intros p Hp. by apply proc_reads.
Qed.

(** ** The query string *)

Lemma find_char_spec c s :
  match find_char c s with
  | Some i => s = take i s ++ c :: drop (i + 1) s /\ (c ∉ take i s)
  | None => c ∉ s
  end.
Proof.
  induction s as [|b s IH]; cbn [find_char]; [apply not_elem_of_nil|].
  case_bool_decide as Hb; [subst; split; [done|apply not_elem_of_nil]|].
  destruct (find_char c s) as [i|]; cbn.
  - destruct IH as [E Hn]. split; [by rewrite <- E|]. by apply not_elem_of_cons.
  - by apply not_elem_of_cons.
Qed.

Lemma split_at_utf8 c s :
  0 <= c < 128 -> utf8_ok s = true -> utf8_ok (split_at c s).1 = true /\ utf8_ok (split_at c s).2 = true.
Proof.
  intros Hc Hs. unfold split_at. pose proof (find_char_spec c s) as H. destruct (find_char c s) as [i|]; [|done].
  destruct H as [E Hn]. cbn [fst snd]. pose proof (str_split_utf8 c s Hc Hs) as HF.
  rewrite E, str_split_cons in HF by done. apply Forall_cons in HF as [H1 H2]. split; [done|].
  rewrite <- (str_join_split c (drop (i + 1) s)). by apply str_join_utf8.
Qed.

Lemma query_param_utf8 q key v : utf8_ok q = true -> query_param q key = Some v -> utf8_ok v = true.
Proof.
  intros Hq. unfold query_param. pose proof (str_split_utf8 38 q ltac:(lia) Hq) as HF. revert HF.
  induction 1 as [|p l Hp Hl IH]; cbn [find_pair]; [done|].
  pose proof (split_at_utf8 61 p ltac:(lia) Hp) as [_ H2]. destruct (split_at 61 p) as [k w]. cbn [snd] in H2.
  case_bool_decide; [by intros [= <-]|done].
Qed.

Section api.
Context {W : Type} `{!Smoltcp W} (idle : W -> nat) `{!SmoltcpLaws idle}.

(** The addresses the stack holds are IPv4 addresses. *)
Definition addrs_ok (n : Net W) : Prop :=
  forall a, ip_address n = Some a \/ gateway n = Some a \/ dns_server n = Some a -> bytes_ok a.

Definition net_value (n : Net W) : json :=
  JObj [(bstr "ip", JStr (ip_or (bstr "0.0.0.0") (ip_address n))); (bstr "gw", JStr (ip_or (bstr "0.0.0.0") (gateway n)));
        (bstr "dns", JStr (ip_or (bstr "0.0.0.0") (dns_server n))); (bstr "dhcp", JBool (dhcp_configured n))].

Lemma plain_ip_or a : (forall b, a = Some b -> bytes_ok b) -> Forall plain (ip_or (bstr "0.0.0.0") a).
Proof. intros Ha. destruct a as [a|]; cbn [ip_or]; [apply plain_ip; auto|plain_key]. Qed.

Lemma api_net_reads d (n : Net W) : addrs_ok n -> reads (S (S d)) (net_value n) (api_net n).
Proof.
  intros Hn. unfold api_net, net_value.
  replace (qstr _ ++ _) with ([123] ++ str_join 44 (member <$>
    [((bstr "ip", JStr (ip_or (bstr "0.0.0.0") (ip_address n))), 34 :: ip_or (bstr "0.0.0.0") (ip_address n) ++ [34]);
     ((bstr "gw", JStr (ip_or (bstr "0.0.0.0") (gateway n))), 34 :: ip_or (bstr "0.0.0.0") (gateway n) ++ [34]);
     ((bstr "dns", JStr (ip_or (bstr "0.0.0.0") (dns_server n))), 34 :: ip_or (bstr "0.0.0.0") (dns_server n) ++ [34]);
     ((bstr "dhcp", JBool (dhcp_configured n)), fmt_bool (dhcp_configured n))]) ++ [125]).
  - apply (reads_obj (S d)); [done|].
    json_members; [apply reads_plain, plain_ip_or; intros; apply Hn; auto..|apply reads_bool].
  - generalize (ip_or (bstr "0.0.0.0") (ip_address n)), (ip_or (bstr "0.0.0.0") (gateway n)),
      (ip_or (bstr "0.0.0.0") (dns_server n)), (fmt_bool (dhcp_configured n)). intros. json_shape.
Qed.

Lemma resolved_bytes (name : str) (n : Net W) a : answered name n a -> bytes_ok a.
Proof.
  intros (server & sock & data & _ & _ & _ & (w & w' & src & port & Hd) & Hp).
  assert (bytes_ok data /\ lenZ data <= 512) as [Hb Hl] by (apply (recv_fits idle sock 512 w data (Ipv4 src) port); by rewrite Hd).
  destruct (dns_any_packet data 0x1234 Hb ltac:(lia)) as (r & E & Hr). rewrite E in Hp. injection Hp as ->.
  destruct (Hr a eq_refl) as (i & -> & _). by apply Forall_take, Forall_drop.
Qed.

Lemma api_dns_reads d q (n : Net W) :
  stack_ok n -> utf8_ok q = true ->
  exists rounds n' r body, api_dns rounds q n = Ret (n', body) /\ after idle (world n) (world n') /\
    (forall a, r = Some a -> answered (default [] (query_param q (bstr "host"))) n a) /\
    reads (S (S d)) (dns_value (default [] (query_param q (bstr "host"))) r) body.
Proof.
  intros Hn Hq. unfold api_dns, dns_value. set (host := default [] (query_param q (bstr "host"))).
  assert (utf8_ok host = true) as Hh.
  { unfold host. destruct (query_param q (bstr "host")) eqn:E; [by eapply query_param_utf8|done]. }
  clearbody host. case_bool_decide as Hempty.
  - exists O, n, None. eexists. split; [reflexivity|]. split; [apply after_refl|]. split; [done|]. by vm_compute.
  - destruct (resolve_a_spec idle host n Hn) as (rounds & n' & r & E & Ha & Hr). exists rounds, n', r.
    rewrite E. eexists. split; [reflexivity|]. split; [done|]. split; [done|]. destruct r as [a|].
    + replace (qstr _ ++ _) with ([123] ++ str_join 44 (member <$>
        [((bstr "host", JStr host), 34 :: escape host ++ [34]);
         ((bstr "a", JStr (fmt_ip a)), 34 :: fmt_ip a ++ [34])]) ++ [125]) by json_shape.
      apply (reads_obj (S d)); [done|].
      json_members; [by apply reads_escape|apply reads_plain, plain_ip; by eapply resolved_bytes, Hr].
    + replace (qstr _ ++ _) with ([123] ++ str_join 44 (member <$>
        [((bstr "host", JStr host), 34 :: escape host ++ [34]);
         ((bstr "error", JStr (bstr "resolve failed")), 34 :: bstr "resolve failed" ++ [34])]) ++ [125]) by json_shape.
      apply (reads_obj (S d)); [done|]. json_members; [by apply reads_escape|apply reads_plain; plain_key].
Qed.

(** C18.  The JSON interface.  Whatever the names of the processes and the
    host asked for hold (quotes, backslashes, control characters, any UTF-8),
    the body of each API page is a JSON text, and a JSON reader recovers from
    it the clock, the memory figures, the table of processes, the addresses of
    the stack, and the host with its resolved address. *)
Theorem http_api_json v (n : Net W) q :
  view_ok v -> addrs_ok n -> stack_ok n -> utf8_ok q = true ->
  json_text 2 (api_uptime v) = Some (uptime_value v) /\
  (exists body, api_mem v = Ret body /\ json_text 2 body = Some (mem_value v)) /\
  json_text 3 (api_procs v) = Some (JArr (proc_value <$> kv_procs v)) /\
  json_text 2 (api_net n) = Some (net_value n) /\
  exists rounds n' r body, api_dns rounds q n = Ret (n', body) /\
    (forall a, r = Some a -> answered (default [] (query_param q (bstr "host"))) n a) /\
    json_text 2 body = Some (dns_value (default [] (query_param q (bstr "host"))) r).
Proof.
  intros Hv Ha Hn Hq. split; [by apply reads_text, api_uptime_reads|].
  split; [destruct (api_mem_reads 0 v Hv) as (b & E & Hb); exists b; split; [done|by apply reads_text]|].
  split; [by apply reads_text, api_procs_reads|]. split; [by apply reads_text, api_net_reads|].
  destruct (api_dns_reads 0 q n Hn Hq) as (k & n' & r & body & E & _ & Hr & Hb).
  exists k, n', r, body. split; [done|]. split; [done|by apply reads_text].
Qed.
End api.

(** ** The client *)

Fixpoint read_line (s : str) : option (str * str) :=
  match s with
  | [] => None
  | c :: r =>
      if (c =? 13) && bool_decide (head r = Some 10) then Some ([], drop 1 r)
      else '(l, r) ← read_line r; Some (c :: l, r)
  end.
(** The lines of the head, up to the empty one, and what follows. *)
Fixpoint read_head (k : nat) (s : str) : option (list str * str) :=
  match k with
  | O => None
  | S k =>
      '(l, r) ← read_line s;
      if bool_decide (l = []) then Some ([], r) else '(ls, r) ← read_head k r; Some (l :: ls, r)
  end.
Definition header_value (name : str) (ls : list str) : option str := head (omap (strip_prefix name) ls).

(** The status and the body, of the length the head announces. *)
Definition client_read (s : str) : option (Z * str) :=
  '(ls, rest) ← read_head (length s) s;
  status ← head ls;
  code ← (w ← str_words ascii_white status !! 1%nat; parse_uint 16 w);
  len ← (v ← header_value (bstr "Content-Length: ") ls; parse_uint 64 v);
  if len <=? lenZ rest then Some (code, take (Z.to_nat len) rest) else None.

Lemma read_line_crlf l r : 13 ∉ l -> read_line (l ++ crlf ++ r) = Some (l, r).
Proof.
  induction l as [|c l IH]; intros Hl; [done|]. apply not_elem_of_cons in Hl as [Hc Hl].
  cbn [app read_line]. rewrite (proj2 (Z.eqb_neq c 13)) by done. cbn [andb]. by rewrite IH.
Qed.

Lemma read_head_lines ls body : forall k,
  Forall (fun l => l <> [] /\ 13 ∉ l) ls -> (length ls < k)%nat ->
  read_head k ((ls ≫= (fun l => l ++ crlf)) ++ crlf ++ body) = Some (ls, body).
Proof.
  induction ls as [|l ls IH]; intros [|k] Hls Hk; [cbn in Hk; lia|done|cbn in Hk; lia|].
  apply Forall_cons in Hls as [[Hne Hl] Hls]. cbn [mbind list_bind read_head]. rewrite <- !app_assoc.
  rewrite (read_line_crlf l) by done. cbn [mbind option_bind]. rewrite bool_decide_eq_false_2 by done.
  rewrite IH; [done|done|cbn in Hk; lia].
Qed.

(** The common shape of the three builders. *)
Definition response (code : Z) (reason ctype body : str) : str :=
  ([bstr "HTTP/1.1 " ++ fmt_dec code ++ [32] ++ reason; bstr "Content-Type: " ++ ctype;
    bstr "Content-Length: " ++ fmt_dec (lenZ body); bstr "Connection: close"] ≫= (fun l => l ++ crlf)) ++ crlf ++ body.

Lemma client_response code reason ctype body :
  fits 16 code -> fits 64 (lenZ body) -> 13 ∉ reason -> 13 ∉ ctype ->
  client_read (response code reason ctype body) = Some (code, body).
Proof.
  intros Hc Hb Hr Ht. unfold client_read.
  assert (forall (s : string) l, 13 ∉ l -> 13 ∉ bstr s -> 13 ∉ bstr s ++ l) as Happ
    by (intros s l H1 H2 [H3|H3]%elem_of_app; done).
  assert (forall s : string, bool_decide (13 ∈ bstr s) = false -> 13 ∉ bstr s) as Hlit
    by (intros s Hs; by apply bool_decide_eq_false in Hs).
  unfold response at 2. rewrite read_head_lines.
  - cbn [mbind option_bind head]. change (bstr "HTTP/1.1 ") with (bstr "HTTP/1.1" ++ [32]). rewrite <- app_assoc. cbn [app].
    rewrite (str_words_word _ (bstr "HTTP/1.1")) by done. cbn [lookup list_lookup].
    pose proof (fmt_dec_range code ltac:(apply Hc)) as Hd. pose proof (parse_fmt_dec 16 code ltac:(lia) Hc) as Hp.
    rewrite (str_words_word _ (fmt_dec code)); [|by intros E; rewrite E in Hp| |done].
    2:{ apply forallb_forall. intros b Hb'%list_elem_of_In. rewrite Forall_forall in Hd. specialize (Hd b Hb').
        unfold ascii_white. by rewrite !bool_decide_eq_false_2 by lia. }
    cbn [lookup list_lookup mbind option_bind]. rewrite Hp. cbn [mbind option_bind].
    change (header_value _ _) with (Some (fmt_dec (lenZ body))). cbn [mbind option_bind].
    rewrite (parse_fmt_dec 64) by (done || lia). cbn [mbind option_bind].
    by rewrite Z.leb_refl, lenZ_to_nat, firstn_all.
  - pose proof (fmt_dec_notin 13 code ltac:(apply Hc) ltac:(lia)). pose proof (fmt_dec_notin 13 (lenZ body) ltac:(apply Hb) ltac:(lia)).
    repeat (apply Forall_cons_2; [split; [done|]|]); [..|apply Forall_nil_2].
    + apply Happ; [|by apply Hlit]. intros [?|[?%list_elem_of_singleton|?]%elem_of_app]%elem_of_app; done.
    + apply Happ; [done|by apply Hlit].
    + apply Happ; [done|by apply Hlit].
    + by apply Hlit.
  - unfold response. cbn. lia.
Qed.

Ltac response_shape := unfold response; cbn [mbind list_bind]; rewrite <- !app_assoc; reflexivity.
Lemma response_html_shape c r b : response_html c r b = response c r (bstr "text/html; charset=utf-8") b.
Proof. response_shape. Qed.
Lemma response_json_shape c b : response_json c b = response c (bstr "OK") (bstr "application/json") b.
Proof. response_shape. Qed.
Lemma response_text_shape c r b : response_text c r b = response c r (bstr "text/plain; charset=utf-8") b.
Proof. response_shape. Qed.

(** A response a client can frame, with this status. *)
Definition framed (resp : str) (code : Z) : Prop :=
  exists body, lenZ resp < 2 ^ 64 -> client_read resp = Some (code, body).

Lemma framed_response code reason ctype body :
  fits 16 code -> 13 ∉ reason -> 13 ∉ ctype -> framed (response code reason ctype body) code.
Proof.
  intros Hc Hr Ht. exists body. intros Hl. apply client_response; [done| |done|done].
  split; [apply lenZ_nonneg|]. revert Hl. unfold response. rewrite !lenZ_app.
  pose proof (lenZ_nonneg crlf). match goal with |- lenZ ?l + _ < _ -> _ => pose proof (lenZ_nonneg l) end. lia.
Qed.

(** The status a request gets. *)
Definition pages : list str :=
  bstr <$> ["/"; "/index.html"; "/api/uptime"; "/api/mem"; "/api/procs"; "/api/net"; "/api/dns"]%string.
Definition status_of (bytes : list Z) : Z :=
  let '(method, path) := parse_request_line (default [] (from_utf8 bytes)) in
  if decide (method = bstr "GET") then if decide ((split_at 63 path).1 ∈ pages) then 200 else 404 else 405.

Section serve.
Context {W : Type} `{!Smoltcp W} (idle : W -> nat) `{!SmoltcpLaws idle}.

Lemma dashboard_returns v (n : Net W) : view_ok v -> exists page, render_dashboard v n = Ret page.
Proof.
  intros Hv. unfold render_dashboard.
  assert (fits 62 (default (0, 0) (kv_frames v)).1 /\ fits 62 (default (0, 0) (kv_frames v)).2) as [Hu Ht].
  { destruct (kv_frames v) as [[u t]|] eqn:E; [by apply (vo_frames v Hv)|done]. }
  destruct (default (0, 0) (kv_frames v)) as [u t]. cbn [fst snd] in Hu, Ht. unfold fits in Hu, Ht.
  rewrite (mul_chk_ok 64 u 4), (mul_chk_ok 64 t 4) by (unfold fits; lia). obind. by eexists.
Qed.

Lemma api_dns_returns q (n : Net W) :
  stack_ok n -> exists rounds n' body, api_dns rounds q n = Ret (n', body) /\ after idle (world n) (world n').
Proof.
  intros Hn. unfold api_dns. case_bool_decide; [exists O; do 2 eexists; split; [reflexivity|apply after_refl]|].
  destruct (resolve_a_spec idle (default [] (query_param q (bstr "host"))) n Hn) as (k & n' & r & E & Ha & _).
  exists k, n'. rewrite E. by eexists.
Qed.

Lemma framed_json body : framed (response_json 200 body) 200.
Proof. rewrite response_json_shape. apply framed_response; [done|by_decide..]. Qed.

(** The answer [o] to the path [p] in the network [n]. *)
Definition page_ok (p : str) (n : Net W) (o : nat -> outcome (Net W * str)) : Prop :=
  exists rounds n' resp, o rounds = Ret (n', resp) /\ after idle (world n) (world n') /\
    framed resp (if decide (p ∈ pages) then 200 else 404).

Lemma json_page_ok p n body : p ∈ pages -> page_ok p n (fun _ => Ret (n, response_json 200 body)).
Proof.
  intros Hp. exists O, n. eexists. split; [reflexivity|]. split; [apply after_refl|]. rewrite decide_True by done. apply framed_json.
Qed.
Lemma html_page_ok p v n : view_ok v -> p ∈ pages ->
  page_ok p n (fun _ => page ← render_dashboard v n; Ret (n, response_html 200 (bstr "OK") page)).
Proof.
  intros Hv Hp. destruct (dashboard_returns v n Hv) as [page ->]. exists O, n. eexists. split; [reflexivity|].
  split; [apply after_refl|]. rewrite decide_True by done. rewrite response_html_shape. apply framed_response; [done|by_decide..].
Qed.

Lemma route_framed v path (n : Net W) :
  view_ok v -> stack_ok n -> page_ok (split_at 63 path).1 n (fun rounds => route rounds v path n).
Proof.
  intros Hv Hn. unfold route. destruct (split_at 63 path) as [p q]. cbn [fst].
  destruct (decide (p = bstr "/")) as [->|N0]; [apply (html_page_ok _ v); [done|by_decide]|].
  destruct (decide (p = bstr "/index.html")) as [->|N1]; [apply (html_page_ok _ v); [done|by_decide]|].
  destruct (decide (p = bstr "/api/uptime")) as [->|N2]; [apply json_page_ok; by_decide|].
  destruct (decide (p = bstr "/api/mem")) as [->|N3].
  { destruct (api_mem_reads 0 v Hv) as (b & E & _). rewrite E. apply (json_page_ok _ n b). by_decide. }
  destruct (decide (p = bstr "/api/procs")) as [->|N4]; [apply json_page_ok; by_decide|].
  destruct (decide (p = bstr "/api/net")) as [->|N5]; [apply json_page_ok; by_decide|].
  destruct (decide (p = bstr "/api/dns")) as [->|N6].
  { destruct (api_dns_returns q n Hn) as (k & n' & b & E & Ha). exists k, n', (response_json 200 b). cbn. rewrite E.
    split; [reflexivity|]. split; [done|]. rewrite decide_True by by_decide. apply framed_json. }
  rewrite !bool_decide_eq_false_2 by done. exists O, n. eexists. split; [reflexivity|]. split; [apply after_refl|].
  rewrite response_text_shape, decide_False by (unfold pages; set_solver). apply framed_response; [done|by_decide..].
Qed.

End serve.

(** ** A connection

    A world with one TCP connection that holds a request. *)
Record conn := mkConn { c_ms : Z; c_in : list Z; c_out : list (list Z) }.
#[export] Instance conn_stack : Smoltcp conn := {|
  uptime_ms := c_ms;
  hlt w := mkConn (c_ms w + 10) (c_in w) (c_out w);
  net_up _ _ w := (w, 0);
  iface_poll _ w := w;
  iface_ip_addrs _ := [mkCidr (Ipv4 [10; 0; 2; 15]) 24];
  update_ip_addrs _ w := w;
  remove_default_ipv4_route w := w;
  add_default_ipv4_route _ w := w;
  dhcp_poll _ w := (w, None);
  sock_ok _ _ := true;
  sock_remove _ w := w;
  tcp_new _ _ w := (w, 1);
  tcp_new_listen _ _ _ w := Some (w, 1);
  tcp_connect_to _ _ _ w := (w, true);
  tcp_state _ _ := Established;
  tcp_may_send _ _ := true;
  tcp_may_recv _ _ := true;
  tcp_can_recv _ w := negb (bool_decide (c_in w = []));
  tcp_send_slice _ d w := (mkConn (c_ms w) (c_in w) (c_out w ++ [d]), Some (lenZ d));
  tcp_recv_slice _ k w := (mkConn (c_ms w) (drop (Z.to_nat k) (c_in w)) (c_out w), Some (take (Z.to_nat k) (c_in w)));
  tcp_shut _ w := w;
  udp_new_bind _ _ := None;
  udp_send_slice _ _ _ w := (w, false);
  udp_can_recv _ _ := false;
  udp_recv_slice _ _ w := (w, None);
|}.
Lemma conn_laws : SmoltcpLaws (fun _ : conn => O).
Proof. constructor; intros; try (split; [right; cbn; lia|done]); cbn in *; try done. left. lia. Qed.

Definition demo_view : KernelView :=
  mkView 61000 6100 (Some (1024, 32768)) [(1, 0, bstr "init", Runnable); (2, 1, [115; 34; 92; 9; 195; 169], Zombie (-9))] 4 77.
Definition demo_request : list Z := bstr "GET /api/procs HTTP/1.1" ++ crlf ++ crlf.
Definition demo_server : Server conn :=
  mkServer (mkNet (mkConn 61000 demo_request []) (Some (mkStack (Some 0) true (Some [10; 0; 2; 3]) (Some [10; 0; 2; 2])))) (Some 1).
Lemma demo_view_ok : view_ok demo_view.
Proof.
  constructor; [done|done|by intros ?? [= <- <-]|].
  repeat (apply Forall_cons_2; [done|]). apply Forall_nil_2.
Qed.

Lemma http_api_json_witness :
  json_text 3 (api_procs demo_view) =
    Some (JArr [proc_value (1, 0, bstr "init", Runnable); proc_value (2, 1, [115; 34; 92; 9; 195; 169], Zombie (-9))]) /\
  json_text 2 (api_net (net demo_server)) = Some (net_value (net demo_server)).
Proof.
  assert (addrs_ok (net demo_server)) as Ha.
  { intros a [[= <-]|[[= <-]|[= <-]]]; repeat constructor; done. }
  assert (stack_ok (net demo_server)) as Hn by (eexists; split; [reflexivity|]; intros h [= <-]; reflexivity).
  destruct (http_api_json (SmoltcpLaws0 := conn_laws) (fun _ => O) demo_view (net demo_server) (bstr "host=a.b") demo_view_ok Ha Hn eq_refl)
    as (_ & _ & H3 & H4 & _). split; [exact H3|exact H4].
Defined.

