(* ===== verification/Umem.v ===== *)
(** * The allocator of user programs

    userland/crates/ulib/src/mem.rs: a bump allocator over a static heap,
    its cursor an atomic that [alloc] moves with a compare-and-exchange, and
    the C functions over it.  The threads of a program interleave between the
    load of the cursor and the exchange: [alloc_step] is that interleaving. *)
From S2P Require Import Prelude Phys.
Local Open Scope Z_scope.

Abbreviation HEAP_SIZE := 262144 (only parsing).

(** [core::alloc::Layout], with the invariant its constructor enforces. *)
Record Layout := mkLayout { l_size : Z; l_align : Z }.
Definition layout_ok (l : Layout) : Prop :=
  0 <= l_size l /\ (exists k, 0 <= k < 63 /\ l_align l = 2 ^ k) /\ l_size l + l_align l - 1 < 2 ^ 63.
Definition from_size_align (size align : Z) : option Layout :=
  if bool_decide (size <= 2 ^ 63 - 1 - (align - 1)) then Some (mkLayout size align) else None.

(** The arithmetic of one turn of the loop: where the block would start and
    where the cursor would go, [None] when the heap is too small. *)
Definition place (l : Layout) (cur : Z) : outcome (option (Z * Z)) :=
  let align := Z.max (l_align l) 8 in
  t ← cur +! align @ 64;
  t ← t -! 1;
  let aligned := Z.land t (unot 64 (align - 1)) in
  new ← aligned +! l_size l @ 64;
  if HEAP_SIZE <? new then Ret None else Ret (Some (aligned, new)).

(** [alloc] when no other thread moves the cursor: the new cursor and the
    pointer, null when there is no room. *)
Definition alloc (base : Z) (l : Layout) (OFFSET : Z) : outcome (Z * Z) :=
  r ← place l OFFSET;
  match r with
  | None => Ret (OFFSET, 0)
  | Some (aligned, new) => Ret (new, base + aligned)
  end.

(** ** The C functions, over the memory of the process *)

Record ustate := mkUstate { OFFSET : Z; umem : phys }.

Definition malloc (base size : Z) (u : ustate) : outcome (ustate * Z) :=
  if size =? 0 then Ret (u, 1) else
  match from_size_align size 16 with
  | None => Ret (u, 0)
  | Some l => '(off, p) ← alloc base l (OFFSET u); Ret (mkUstate off (umem u), p)
  end.
Definition free (ptr : Z) (u : ustate) : ustate := u.
Definition calloc (base nmemb size : Z) (u : ustate) : outcome (ustate * Z) :=
  match checked_mul 64 nmemb size with
  | None => Ret (u, 0)
  | Some total =>
      '(u, p) ← malloc base total u;
      Ret (if p =? 0 then u else mkUstate (OFFSET u) (write_bytes (umem u) p 0 total), p)
  end.
Definition realloc (base ptr new_size : Z) (u : ustate) : outcome (ustate * Z) :=
  if ptr =? 0 then malloc base new_size u else
  if new_size =? 0 then Ret (u, 1) else
  '(u, new) ← malloc base new_size u;
  Ret (if new =? 0 then u else mkUstate (OFFSET u) (copy_mem (umem u) ptr new new_size), new).

(** ** Threads *)

(** A thread is outside [alloc], about to load, or holds a loaded cursor. *)
Inductive thread := Outside | Loading (l : Layout) | Loaded (l : Layout) (cur : Z).
(** The cursor, the threads, and the blocks handed out (offset and size). *)
Record heap := mkHeap { cursor : Z; threads : gmap nat thread; blocks : list (Z * Layout) }.

Inductive alloc_step : heap -> heap -> Prop :=
  | step_call o ts bs i l :
      ts !! i = Some Outside -> layout_ok l ->
      alloc_step (mkHeap o ts bs) (mkHeap o (<[i := Loading l]> ts) bs)
  | step_load o ts bs i l :
      ts !! i = Some (Loading l) ->
      alloc_step (mkHeap o ts bs) (mkHeap o (<[i := Loaded l o]> ts) bs)
  | step_full o ts bs i l cur :
      ts !! i = Some (Loaded l cur) -> place l cur = Ret None ->
      alloc_step (mkHeap o ts bs) (mkHeap o (<[i := Outside]> ts) bs)
  | step_exchange o ts bs i l aligned new :
      ts !! i = Some (Loaded l o) -> place l o = Ret (Some (aligned, new)) ->
      alloc_step (mkHeap o ts bs) (mkHeap new (<[i := Outside]> ts) ((aligned, l) :: bs))
  | step_lost o ts bs i l cur aligned new :
      ts !! i = Some (Loaded l cur) -> place l cur = Ret (Some (aligned, new)) -> cur <> o ->
      alloc_step (mkHeap o ts bs) (mkHeap o (<[i := Loading l]> ts) bs).

(** ** Correctness *)

Definition thread_ok (t : thread) : Prop :=
  match t with Outside => True | Loading l => layout_ok l | Loaded l cur => layout_ok l /\ 0 <= cur <= HEAP_SIZE end.
Definition apart (x y : Z * Layout) : Prop := x.1 + l_size x.2 <= y.1 \/ y.1 + l_size y.2 <= x.1.
Definition block_ok (o : Z) (b : Z * Layout) : Prop :=
  layout_ok b.2 /\ 0 <= b.1 /\ b.1 mod l_align b.2 = 0 /\ b.1 + l_size b.2 <= o.

Record heap_ok (h : heap) : Prop := mkHeapOk {
  ho_cursor : 0 <= cursor h <= HEAP_SIZE;
  ho_threads : map_Forall (fun _ => thread_ok) (threads h);
  ho_blocks : Forall (block_ok (cursor h)) (blocks h);
  ho_apart : ForallOrdPairs apart (blocks h);
}.

Lemma place_spec l cur :
  layout_ok l -> 0 <= cur <= HEAP_SIZE ->
  exists r, place l cur = Ret r /\
    forall aligned new, r = Some (aligned, new) ->
      cur <= aligned /\ aligned mod l_align l = 0 /\ new = aligned + l_size l /\ new <= HEAP_SIZE.
Proof.
  intros (Hs & (k & Hk & Ha) & Hl) Hc. unfold place.
  assert (exists k', 0 <= k' < 63 /\ Z.max (l_align l) 8 = 2 ^ k' /\ (2 ^ k' mod l_align l = 0) /\ 2 ^ k' <= l_align l + 7)
    as (k' & Hk' & -> & Hdiv & Hle).
  { rewrite Ha. destruct (decide (k < 3)) as [H3|H3].
    - exists 3. assert (k = 0 \/ k = 1 \/ k = 2) as [-> | [-> | -> ]] by lia; done.
    - exists k. assert (2 ^ 3 <= 2 ^ k) by (apply Z.pow_le_mono_r; lia). change (2 ^ 3) with 8 in *.
      rewrite Z.max_l by lia. rewrite Z.mod_same by lia. split_and!; lia. }
  assert (0 < 2 ^ k') by (apply Z.pow_pos_nonneg; lia). assert (0 < l_align l) by (rewrite Ha; apply Z.pow_pos_nonneg; lia).
  rewrite (add_chk_ok 64 cur (2 ^ k')) by (unfold fits; lia). obind.
  rewrite sub_chk_ok by lia. obind. rewrite land_align by (unfold fits; lia).
  pose proof (Z.div_mod (cur + 2 ^ k' - 1) (2 ^ k') ltac:(lia)) as E.
  pose proof (Z.mod_pos_bound (cur + 2 ^ k' - 1) (2 ^ k') ltac:(lia)).
  set (a := (cur + 2 ^ k' - 1) / 2 ^ k' * 2 ^ k') in *. cbv zeta.
  rewrite (add_chk_ok 64 a (l_size l)) by (unfold fits; lia). obind.
  destruct (Z.ltb_spec 262144 (a + l_size l)); [by exists None|]. eexists. split; [done|].
  intros ? ? [= <- <-]. split_and!; [lia| |done|lia].
  unfold a. apply Z.mod_divide; [lia|]. apply Z.divide_mul_r. apply Z.mod_divide; [lia|done].
Qed.

Lemma block_ok_mono o o' b : o <= o' -> block_ok o b -> block_ok o' b.
Proof. intros Ho (H1 & H2 & H3 & H4). split_and!; [done|done|done|lia]. Qed.

Lemma alloc_step_ok h h' : alloc_step h h' -> heap_ok h -> heap_ok h'.
Proof.
  intros Hst [Hc Ht Hb Ha]. destruct Hst as [o ts bs i l Hi Hl|o ts bs i l Hi|o ts bs i l cur Hi _|o ts bs i l a n Hi Hp|o ts bs i l cur a n Hi _ _];
    cbn [cursor threads blocks] in *; pose proof (Ht _ _ Hi) as Hti; cbn in Hti;
    (constructor; cbn [cursor threads blocks]; [done || idtac|apply map_Forall_insert_2; [cbn; tauto|done]|done || idtac|done || idtac]).
  - destruct Hti as [Hl _]. destruct (place_spec l o Hl Hc) as (r & E & Hr). rewrite Hp in E. injection E as <-.
    destruct (Hr a n eq_refl). destruct Hl. lia.
  - destruct Hti as [Hl _]. destruct (place_spec l o Hl Hc) as (r & E & Hr). rewrite Hp in E. injection E as <-.
    destruct (Hr a n eq_refl) as (H1 & H2 & H3 & H4). destruct (Hl) as [H0 _]. constructor; [split_and!; cbn; lia || done|].
    eapply Forall_impl; [exact Hb|]. intros b. apply block_ok_mono. lia.
  - destruct Hti as [Hl _]. destruct (place_spec l o Hl Hc) as (r & E & Hr). rewrite Hp in E. injection E as <-.
    destruct (Hr a n eq_refl) as (H1 & _). constructor; [|done].
    eapply Forall_impl; [exact Hb|]. intros b (_ & _ & _ & H4). right. cbn. lia.
Qed.

(** Property.  Allocation under interleaving.  However the threads of a program
    interleave their loads and exchanges, and whatever the sizes and
    alignments they ask for, the cursor stays inside the heap and the blocks
    handed out lie inside it, start at a multiple of their alignment from the
    start of the heap, and never overlap. *)
Theorem bump_blocks_apart h0 h :
  cursor h0 = 0 -> blocks h0 = [] -> map_Forall (fun _ t => t = Outside) (threads h0) ->
  rtc alloc_step h0 h ->
  0 <= cursor h <= HEAP_SIZE /\ Forall (block_ok (cursor h)) (blocks h) /\ ForallOrdPairs apart (blocks h).
Proof.
  intros Hc Hb Ht Hs. assert (heap_ok h0) as H0.
  { constructor; rewrite ?Hc, ?Hb; [lia| |constructor|constructor].
    intros i t Hi. by rewrite (Ht i t Hi). }
  assert (heap_ok h) as [H1 _ H2 H3]; [|done].
  clear Hc Hb Ht. induction Hs as [|h1 h2 h3 H12 _ IH]; [done|]. apply IH. by eapply alloc_step_ok.
Qed.

(** The whole of [malloc]: on success the block is in the heap and past every
    earlier one; otherwise null, and nothing changed. *)
Lemma malloc_spec base size u :
  0 < size < 2 ^ 63 - 16 -> 0 <= OFFSET u <= HEAP_SIZE -> base mod 16 = 0 -> 0 < base ->
  exists u' p, malloc base size u = Ret (u', p) /\ umem u' = umem u /\
    (p = 0 /\ u' = u \/
     base + OFFSET u <= p /\ p mod 16 = 0 /\ p + size = base + OFFSET u' /\ OFFSET u' <= HEAP_SIZE).
Proof.
  intros Hs Ho Hb Hpos. unfold malloc. rewrite (proj2 (Z.eqb_neq _ _)) by lia.
  unfold from_size_align. rewrite bool_decide_eq_true_2 by lia. unfold alloc.
  destruct (place_spec (mkLayout size 16) (OFFSET u)) as (r & E & Hr); [|done|].
  { split; [cbn; lia|]. split; [by exists 4|cbn; lia]. }
  rewrite E. obind. destruct r as [[a n]|].
  - destruct (Hr a n eq_refl) as (H1 & H2 & H3 & H4). cbn [l_size l_align] in *. obind. do 2 eexists. split; [done|].
    split; [done|]. right. cbn [OFFSET]. split_and!; [lia| |lia|lia].
    rewrite Z.add_mod, Hb, H2 by lia. done.
  - obind. do 2 eexists. split; [done|]. split; [done|]. left. split; [done|]. by destruct u.
Qed.

(** Two threads race for the first block; the second loses and retries. *)
Definition demo_threads : gmap nat thread := {[0%nat := Outside; 1%nat := Outside]}.
Lemma bump_blocks_apart_witness :
  exists h, rtc alloc_step (mkHeap 0 demo_threads []) h /\ length (blocks h) = 2%nat /\
    (0 <= cursor h <= HEAP_SIZE /\ Forall (block_ok (cursor h)) (blocks h) /\ ForallOrdPairs apart (blocks h)).
Proof.
  set (l := mkLayout 24 8).
  assert (layout_ok l) as Hl by (split; [cbn; lia|split; [by exists 3|cbn; lia]]).
  assert (exists ts, rtc alloc_step (mkHeap 0 demo_threads []) (mkHeap 48 ts [(24, l); (0, l)])) as [ts Hr].
  { eexists. eapply rtc_l; [apply (step_call _ _ _ 0%nat l); [reflexivity|exact Hl]|].
    eapply rtc_l; [apply (step_call _ _ _ 1%nat l); [reflexivity|exact Hl]|].
    eapply rtc_l; [apply (step_load _ _ _ 0%nat l); reflexivity|].
    eapply rtc_l; [apply (step_load _ _ _ 1%nat l); reflexivity|].
    eapply rtc_l; [apply (step_exchange _ _ _ 0%nat l 0 24); reflexivity|].
    eapply rtc_l; [apply (step_lost _ _ _ 1%nat l 0 0 24); [reflexivity|reflexivity|discriminate]|].
    eapply rtc_l; [apply (step_load _ _ _ 1%nat l); reflexivity|].
    eapply rtc_l; [apply (step_exchange _ _ _ 1%nat l 24 48); reflexivity|]. apply rtc_refl. }
  exists (mkHeap 48 ts [(24, l); (0, l)]). split; [exact Hr|]. split; [reflexivity|].
  apply (bump_blocks_apart (mkHeap 0 demo_threads [])); [reflexivity|reflexivity| |exact Hr].
  apply map_Forall_insert_2; [reflexivity|]. apply map_Forall_singleton. reflexivity.
Defined.
