(* ===== verification/Abi.v ===== *)
(** * The binary interface between kernel and user programs

    The structures of the crate abi (abi/src), their mirrors in the user
    library (userland/crates/ulib/src/syscall.rs) and in the kernel
    (kernel/src/gfx), laid out by the rules of [repr(C)], and the numbers of
    the system calls on the three sides.  The bytes the kernel writes are
    those of Gfx.v. *)
From S2P Require Import Prelude Gfx.
Local Open Scope Z_scope.

(** ** [repr(C)] *)

Record field := mkField { f_name : string; f_size : Z; f_align : Z }.
Definition u32 (n : string) : field := mkField n 4 4.
Definition i32 (n : string) : field := mkField n 4 4.
Definition u64 (n : string) : field := mkField n 8 8.

Definition align_up (off a : Z) : Z := (off + a - 1) / a * a.
(** Each field at the next multiple of its alignment. *)
Fixpoint offsets_from (off : Z) (fs : list field) : list Z :=
  match fs with
  | [] => []
  | f :: fs => let o := align_up off (f_align f) in o :: offsets_from (o + f_size f) fs
  end.
Fixpoint end_from (off : Z) (fs : list field) : Z :=
  match fs with
  | [] => off
  | f :: fs => end_from (align_up off (f_align f) + f_size f) fs
  end.
Definition offsets (fs : list field) : list Z := offsets_from 0 fs.
Definition struct_align (fs : list field) : Z := foldr (fun f a => Z.max (f_align f) a) 1 fs.
Definition struct_size (fs : list field) : Z := align_up (end_from 0 fs) (struct_align fs).
Definition nested (n : string) (fs : list field) : field := mkField n (struct_size fs) (struct_align fs).

(** The fields of a structure read from its bytes, little-endian. *)
Definition read_struct (fs : list field) (bytes : list Z) : list (string * Z) :=
  zip_with (fun f o => (f_name f, of_le (take (Z.to_nat (f_size f)) (drop (Z.to_nat o) bytes)))) fs (offsets fs).

(** ** The structures *)

Definition kernel_InputEventAbi : list field :=
  [u32 "kind"; u32 "_pad0"; u64 "timestamp_ms"; u32 "scancode"; u32 "keysym"; u32 "mods"; u32 "_pad1";
   i32 "mouse_x"; i32 "mouse_y"; i32 "mouse_dx"; i32 "mouse_dy"; u32 "mouse_buttons"; i32 "wheel"].
Definition ulib_InputEvent : list field :=
  [u32 "kind"; u32 "_pad0"; u64 "timestamp_ms"; u32 "scancode"; u32 "keysym"; u32 "mods"; u32 "_pad1";
   i32 "mouse_x"; i32 "mouse_y"; i32 "mouse_dx"; i32 "mouse_dy"; u32 "mouse_buttons"; i32 "wheel"].
Definition abi_InputEvent : list field :=
  [u32 "kind"; u64 "timestamp_ms"; u32 "scancode"; u32 "keysym"; u32 "mods";
   i32 "mouse_x"; i32 "mouse_y"; i32 "mouse_dx"; i32 "mouse_dy"; u32 "mouse_buttons"; i32 "wheel"].

Definition kernel_FbInfoAbi : list field :=
  [u64 "buffer_ptr"; u64 "buffer_len"; u32 "width"; u32 "height"; u32 "pitch"; u32 "format"; u32 "caps"; u32 "_reserved"].
Definition ulib_FbInfo : list field :=
  [u64 "buffer_ptr"; u64 "buffer_len"; u32 "width"; u32 "height"; u32 "pitch"; u32 "format"; u32 "caps"; u32 "_reserved"].
Definition abi_FbInfo : list field :=
  [u64 "buffer_ptr"; u64 "buffer_len"; u32 "width"; u32 "height"; u32 "pitch"; u32 "format"; u32 "caps"; u32 "_reserved"].
Definition ulib_Rect : list field := [u32 "x"; u32 "y"; u32 "w"; u32 "h"].
Definition abi_Rect : list field := [u32 "x"; u32 "y"; u32 "w"; u32 "h"].

Definition abi_IpcHeader : list field :=
  [u64 "sender"; u32 "kind"; u32 "payload_len"; u64 "cookie"; u64 "_reserved"].
Definition MAX_PAYLOAD : Z := 4096 - struct_size abi_IpcHeader.

(** The messages of the display protocol. *)
Definition ReqSurfaceCreate : list field := [u32 "w"; u32 "h"; u32 "format"; u32 "flags"].
Definition ReqSurfaceDestroy : list field := [u64 "surface"].
Definition ReqSurfaceAttach : list field := [u64 "surface"; u64 "shm_handle"; u64 "offset"].
Definition ReqSurfaceCommit : list field :=
  [u64 "surface"; u32 "damage_x"; u32 "damage_y"; u32 "damage_w"; u32 "damage_h"].
Definition RepSurfaceCreated : list field := [u64 "surface"].
Definition RepError : list field := [i32 "code"; u32 "_pad"].
Definition EvtInput : list field := [u64 "surface"; nested "event" abi_InputEvent].
Definition EvtResize : list field := [u64 "surface"; u32 "new_w"; u32 "new_h"].
Definition EvtFocus : list field := [u64 "surface"; u32 "focused"; u32 "_pad"].
Definition EvtClosed : list field := [u64 "surface"].
Definition EvtFrameDone : list field := [u64 "surface"; u64 "timestamp_ms"].

(** ** Theorems *)

Definition field_ok (f : field) : Prop := 0 < f_size f /\ 0 < f_align f.

Lemma align_up_spec off a : 0 < a -> off <= align_up off a < off + a /\ align_up off a mod a = 0.
Proof.
  intros Ha. unfold align_up. pose proof (Z.div_mod (off + a - 1) a ltac:(lia)) as E.
  pose proof (Z.mod_pos_bound (off + a - 1) a Ha). split; [lia|]. apply Z.mod_mul. lia.
Qed.

(** The fields keep their order, each aligned, none over another. *)
Lemma offsets_from_spec fs : forall off,
  Forall field_ok fs -> off <= end_from off fs /\
  forall i f o, fs !! i = Some f -> offsets_from off fs !! i = Some o ->
    off <= o /\ o mod f_align f = 0 /\ o + f_size f <= end_from off fs /\
    forall j f' o', (i < j)%nat -> fs !! j = Some f' -> offsets_from off fs !! j = Some o' -> o + f_size f <= o'.
Proof.
  induction fs as [|f fs IH]; intros off Hf; [done|]. apply Forall_cons in Hf as [[Hs Ha] Hf].
  cbn [end_from offsets_from]. destruct (align_up_spec off (f_align f) Ha) as [Hr Hm].
  set (o := align_up off (f_align f)) in *. destruct (IH (o + f_size f) Hf) as [Hend Hall].
  split; [lia|]. intros [|i] g og Hg Hog; cbn in Hg, Hog.
  - injection Hg as <-. injection Hog as <-. split_and!; [lia|done|done|].
    intros [|j] f' o' Hj Hf' Ho'; [lia|]. cbn in Hf', Ho'. by destruct (Hall j f' o' Hf' Ho').
  - destruct (Hall i g og Hg Hog) as (H1 & H2 & H3 & H4). split_and!; [lia|done|done|].
    intros [|j] f' o' Hj Hf' Ho'; [lia|]. cbn in Hf', Ho'. apply (H4 j f' o'); [lia|done|done].
Qed.

Definition event_fields (e : InputEventAbi) : list (string * Z) :=
  [("kind"%string, ev_kind e); ("_pad0"%string, ev_pad0 e); ("timestamp_ms"%string, timestamp_ms e);
   ("scancode"%string, scancode e); ("keysym"%string, keysym e); ("mods"%string, mods e); ("_pad1"%string, ev_pad1 e);
   ("mouse_x"%string, mouse_x e); ("mouse_y"%string, mouse_y e); ("mouse_dx"%string, mouse_dx e);
   ("mouse_dy"%string, mouse_dy e); ("mouse_buttons"%string, mouse_buttons e); ("wheel"%string, wheel e)].
Definition info_fields (i : FbInfoAbi) : list (string * Z) :=
  [("buffer_ptr"%string, buffer_ptr i); ("buffer_len"%string, buffer_len i); ("width"%string, fi_width i);
   ("height"%string, fi_height i); ("pitch"%string, fi_pitch i); ("format"%string, fi_format i);
   ("caps"%string, fi_caps i); ("_reserved"%string, fi_reserved i)].
(** Every field holds a value of its width. *)
Definition fields_fit (fs : list field) (vs : list (string * Z)) : Prop :=
  Forall2 (fun f v => f_name f = v.1 /\ 0 <= v.2 < 2 ^ (8 * f_size f)) fs vs.

Ltac struct_reads H :=
  repeat (apply Forall2_cons in H as [[_ ?] H]); clear H; cbn [snd f_size u32 u64 i32] in *;
  repeat (f_equal; [f_equal; apply of_le_bytes_id; assumption|]); do 2 f_equal; apply of_le_bytes_id; assumption.

(** Property.  The structures that cross the boundary.  The layout rules put the
    fields of a structure at aligned, disjoint places inside its size; the
    [InputEvent] and [FbInfo] of the user library have the layout of the
    kernel's, so a program reads from the bytes the kernel writes every field
    as the kernel meant it.  The [InputEvent] of the abi crate has the same
    size but not the same layout: read through it, [mouse_x] is the padding
    and each later field is its neighbour. *)
Theorem abi_structs_agree :
  (forall fs i f o, Forall field_ok fs -> fs !! i = Some f -> offsets fs !! i = Some o ->
     0 <= o /\ o mod f_align f = 0 /\ o + f_size f <= struct_size fs /\
     forall j f' o', (i < j)%nat -> fs !! j = Some f' -> offsets fs !! j = Some o' -> o + f_size f <= o') /\
  (forall e, fields_fit kernel_InputEventAbi (event_fields e) ->
     lenZ (event_bytes e) = struct_size ulib_InputEvent /\
     read_struct ulib_InputEvent (event_bytes e) = event_fields e) /\
  (forall i, fields_fit kernel_FbInfoAbi (info_fields i) ->
     lenZ (info_bytes i) = struct_size ulib_FbInfo /\
     read_struct ulib_FbInfo (info_bytes i) = info_fields i /\ read_struct abi_FbInfo (info_bytes i) = info_fields i) /\
  struct_size abi_InputEvent = struct_size kernel_InputEventAbi /\
  (forall e, fields_fit kernel_InputEventAbi (event_fields e) ->
     read_struct abi_InputEvent (event_bytes e) =
       [("kind"%string, ev_kind e); ("timestamp_ms"%string, timestamp_ms e); ("scancode"%string, scancode e);
        ("keysym"%string, keysym e); ("mods"%string, mods e); ("mouse_x"%string, ev_pad1 e);
        ("mouse_y"%string, mouse_x e); ("mouse_dx"%string, mouse_y e); ("mouse_dy"%string, mouse_dx e);
        ("mouse_buttons"%string, mouse_dy e); ("wheel"%string, mouse_buttons e)]).
Proof.
  split.
  { intros fs i f o Hf Hi Ho. destruct (offsets_from_spec fs 0 Hf) as [Hend Hall].
    destruct (Hall i f o Hi Ho) as (H1 & H2 & H3 & H4). split_and!; [done|done| |done].
    unfold struct_size. assert (0 < struct_align fs) as Ha by (unfold struct_align; clear; induction fs; cbn; lia).
    destruct (align_up_spec (end_from 0 fs) _ Ha). lia. }
  split; [|split; [|split; [done|]]].
  - intros e He. split; [done|].
    change (read_struct ulib_InputEvent (event_bytes e)) with
      [("kind"%string, of_le (le_bytes 4 (ev_kind e))); ("_pad0"%string, of_le (le_bytes 4 (ev_pad0 e)));
       ("timestamp_ms"%string, of_le (le_bytes 8 (timestamp_ms e))); ("scancode"%string, of_le (le_bytes 4 (scancode e)));
       ("keysym"%string, of_le (le_bytes 4 (keysym e))); ("mods"%string, of_le (le_bytes 4 (mods e)));
       ("_pad1"%string, of_le (le_bytes 4 (ev_pad1 e))); ("mouse_x"%string, of_le (le_bytes 4 (mouse_x e)));
       ("mouse_y"%string, of_le (le_bytes 4 (mouse_y e))); ("mouse_dx"%string, of_le (le_bytes 4 (mouse_dx e)));
       ("mouse_dy"%string, of_le (le_bytes 4 (mouse_dy e))); ("mouse_buttons"%string, of_le (le_bytes 4 (mouse_buttons e)));
       ("wheel"%string, of_le (le_bytes 4 (wheel e)))].
    unfold event_fields. struct_reads He.
  - intros i Hi. split; [done|]. change (read_struct abi_FbInfo) with (read_struct ulib_FbInfo).
    change (read_struct ulib_FbInfo (info_bytes i)) with
      [("buffer_ptr"%string, of_le (le_bytes 8 (buffer_ptr i))); ("buffer_len"%string, of_le (le_bytes 8 (buffer_len i)));
       ("width"%string, of_le (le_bytes 4 (fi_width i))); ("height"%string, of_le (le_bytes 4 (fi_height i)));
       ("pitch"%string, of_le (le_bytes 4 (fi_pitch i))); ("format"%string, of_le (le_bytes 4 (fi_format i)));
       ("caps"%string, of_le (le_bytes 4 (fi_caps i))); ("_reserved"%string, of_le (le_bytes 4 (fi_reserved i)))].
    unfold info_fields. split; struct_reads Hi.
  - intros e He.
    change (read_struct abi_InputEvent (event_bytes e)) with
      [("kind"%string, of_le (le_bytes 4 (ev_kind e)));
       ("timestamp_ms"%string, of_le (le_bytes 8 (timestamp_ms e))); ("scancode"%string, of_le (le_bytes 4 (scancode e)));
       ("keysym"%string, of_le (le_bytes 4 (keysym e))); ("mods"%string, of_le (le_bytes 4 (mods e)));
       ("mouse_x"%string, of_le (le_bytes 4 (ev_pad1 e)));
       ("mouse_y"%string, of_le (le_bytes 4 (mouse_x e))); ("mouse_dx"%string, of_le (le_bytes 4 (mouse_y e)));
       ("mouse_dy"%string, of_le (le_bytes 4 (mouse_dx e))); ("mouse_buttons"%string, of_le (le_bytes 4 (mouse_dy e)));
       ("wheel"%string, of_le (le_bytes 4 (mouse_buttons e)))].
    struct_reads He.
Qed.
