(* ===== verification/Keyboard.v ===== *)
(** * The keyboard

    kernel/src/drivers/keyboard.rs: the queue the interrupt handler fills,
    and the stream of characters a task reads from it.  The decoder of scan
    codes is the crate pc_keyboard, a class here; the waker is the crate
    futures_util's [AtomicWaker], a flag that says a task is registered.  The
    handler and the task interleave at every access to the shared queue and
    waker: [kbd_step] cuts [poll_next] and [add_scancode] there. *)
From S2P Require Import Prelude.
Local Open Scope Z_scope.

Abbreviation QUEUE_SIZE := 128 (only parsing).
Definition KEY_UP : Z := 0x11.
Definition KEY_DOWN : Z := 0x12.
Definition KEY_LEFT : Z := 0x13.
Definition KEY_RIGHT : Z := 0x14.
Definition KEY_HOME : Z := 0x15.
Definition KEY_END : Z := 0x16.
Definition KEY_DEL : Z := 0x17.

Inductive KeyCode := ArrowUp | ArrowDown | ArrowLeft | ArrowRight | Home | End_ | Delete | OtherKey (n : Z).
Inductive DecodedKey := Unicode (ch : Z) | RawKey (kc : KeyCode).

(** [pc_keyboard::Keyboard]; [add_byte] answers [Ok(Some(event))] as [Some]. *)
Class PcKeyboard := {
  kb : Type;
  kb_event : Type;
  kb_new : kb;
  add_byte : Z -> kb -> kb * option kb_event;
  process_keyevent : kb_event -> kb -> kb * option DecodedKey;
}.

Section keyboard.
Context `{PcKeyboard}.

Definition decode (scancode : Z) (k : kb) : kb * option Z :=
  let '(k, ev) := add_byte scancode k in
  match ev with
  | None => (k, None)
  | Some e =>
      let '(k, d) := process_keyevent e k in
      (k, match d with
          | Some (Unicode ch) => Some ch
          | Some (RawKey ArrowUp) => Some KEY_UP
          | Some (RawKey ArrowDown) => Some KEY_DOWN
          | Some (RawKey ArrowLeft) => Some KEY_LEFT
          | Some (RawKey ArrowRight) => Some KEY_RIGHT
          | Some (RawKey Home) => Some KEY_HOME
          | Some (RawKey End_) => Some KEY_END
          | Some (RawKey Delete) => Some KEY_DEL
          | _ => None
          end)
  end.

(** The queue of scan codes; [None] before [init]. *)
Definition keyboard_init (queue : option (list Z)) : outcome (option (list Z)) :=
  match queue with None => Ret (Some []) | Some _ => Panic end.
Definition push_scancode (sc : Z) (q : list Z) : list Z * bool :=
  if lenZ q <? QUEUE_SIZE then (q ++ [sc], true) else (q, false).
Definition try_read_char (queue : option (list Z)) (dec : kb) : option (list Z) * kb * option Z :=
  match queue with
  | None => (None, dec, None)
  | Some [] => (Some [], dec, None)
  | Some (sc :: q) => let '(k, ch) := decode sc dec in (Some q, k, ch)
  end.
Definition drain_queue (queue : option (list Z)) : option (list Z) := (fun _ => []) <$> queue.

(** ** The task and the interrupt handler *)

(** Where [poll_next] is: not running ([Pending] was returned), at the first
    pop, before the registration, at the second pop. *)
Inductive poll_pc := Parked | First | Register | Second.
(** Where the handler is: between interrupts, or between push and wake. *)
Inductive isr_pc := Quiet | Pushed.

Record kbd := mkKbd {
  queue : list Z;
  waker : bool;        (** a task is registered *)
  ready : bool;        (** the task is scheduled to be polled *)
  pc : poll_pc;
  isr : isr_pc;
  decoder : kb;
  accepted : list Z;   (** the scan codes pushed so far *)
  taken : list Z;      (** the scan codes popped so far *)
  output : list Z;     (** the characters the stream yielded *)
}.

Inductive kbd_step : kbd -> kbd -> Prop :=
  (* add_scancode *)
  | isr_push q w r p d a t o sc q' :
      push_scancode sc q = (q', true) ->
      kbd_step (mkKbd q w r p Quiet d a t o) (mkKbd q' w r p Pushed d (a ++ [sc]) t o)
  | isr_full q w r p d a t o sc :
      push_scancode sc q = (q, false) ->
      kbd_step (mkKbd q w r p Quiet d a t o) (mkKbd q w r p Quiet d a t o)
  | isr_wake q w r p d a t o :
      kbd_step (mkKbd q w r p Pushed d a t o) (mkKbd q false (w || r) p Quiet d a t o)
  (* poll_next *)
  | task_poll q w i d a t o :
      kbd_step (mkKbd q w true Parked i d a t o) (mkKbd q w false First i d a t o)
  | first_pop sc q w r i d a t o d' ch :
      decode sc d = (d', ch) ->
      kbd_step (mkKbd (sc :: q) w r First i d a t o)
               (mkKbd q w r First i d' a (t ++ [sc]) (o ++ option_list ch))
  | first_empty w r i d a t o :
      kbd_step (mkKbd [] w r First i d a t o) (mkKbd [] w r Register i d a t o)
  | register q w r i d a t o :
      kbd_step (mkKbd q w r Register i d a t o) (mkKbd q true r Second i d a t o)
  | second_pop sc q w r i d a t o d' ch :
      decode sc d = (d', ch) ->
      kbd_step (mkKbd (sc :: q) w r Second i d a t o)
               (mkKbd q false r First i d' a (t ++ [sc]) (o ++ option_list ch))
  | second_empty w r i d a t o :
      kbd_step (mkKbd [] w r Second i d a t o) (mkKbd [] w r Parked i d a t o).

(** The characters a sequence of scan codes decodes to. *)
Fixpoint decode_all (scs : list Z) (k : kb) : kb * list Z :=
  match scs with
  | [] => (k, [])
  | sc :: scs =>
      let '(k, ch) := decode sc k in
      let '(k, chs) := decode_all scs k in (k, option_list ch ++ chs)
  end.

Lemma decode_all_snoc scs sc k k1 chs k2 ch :
  decode_all scs k = (k1, chs) -> decode sc k1 = (k2, ch) ->
  decode_all (scs ++ [sc]) k = (k2, chs ++ option_list ch).
Proof.
  revert k chs. induction scs as [|x scs IH]; intros k chs Ha Hd; cbn [app decode_all] in *.
  - injection Ha as -> <-. rewrite Hd. by rewrite app_nil_r.
  - destruct (decode x k) as [kx cx]. destruct (decode_all scs kx) as [k' c'] eqn:E.
    injection Ha as <- <-. rewrite (IH kx c' E Hd). by rewrite app_assoc.
Qed.

Record kbd_ok (k0 : kb) (s : kbd) : Prop := mkKbdOk {
  ko_fifo : accepted s = taken s ++ queue s;
  ko_decoded : decode_all (taken s) k0 = (decoder s, output s);
  ko_bound : lenZ (queue s) <= QUEUE_SIZE;
  ko_wake : pc s = Second \/ pc s = Parked -> waker s = true \/ ready s = true;
  ko_parked : pc s = Parked -> queue s <> [] -> ready s = true \/ isr s = Pushed;
}.

Lemma kbd_step_ok k0 s s' : kbd_step s s' -> kbd_ok k0 s -> kbd_ok k0 s'.
Proof.
  intros Hst [Hf Hd Hb Hw Hp]. destruct Hst as
    [q w r p d a t o sc q' Hpush|q w r p d a t o sc Hpush|q w r p d a t o|q w i d a t o|sc q w r i d a t o d' ch Hdec
    |w r i d a t o|q w r i d a t o|sc q w r i d a t o d' ch Hdec|w r i d a t o];
    cbn [queue waker ready pc isr decoder accepted taken output] in *.
  - unfold push_scancode in Hpush. destruct (Z.ltb_spec (lenZ q) 128); [|done]. injection Hpush as <-.
    constructor; cbn; [by rewrite Hf, app_assoc|done|rewrite lenZ_app; unfold lenZ at 2; cbn; lia|done|by right].
  - by constructor.
  - constructor; cbn; [done|done|done|..].
    + intros Hpc. right. destruct (Hw Hpc) as [-> | -> ]; [done|apply orb_true_r].
    + intros Hpc Hq. left. destruct (Hw (or_intror Hpc)) as [-> | -> ]; [done|apply orb_true_r].
  - constructor; cbn; [done|done|done|by intros [?|?]|done].
  - constructor; cbn; [by rewrite <- app_assoc|by eapply decode_all_snoc|rewrite lenZ_cons in Hb; lia|by intros [?|?]|done].
  - constructor; cbn; [done|done|done|by intros [?|?]|done].
  - constructor; cbn; [done|done|done|by left|done].
  - constructor; cbn; [by rewrite <- app_assoc|by eapply decode_all_snoc|rewrite lenZ_cons in Hb; lia|by intros [?|?]|done].
  - constructor; cbn; [done|done|done|by intros _; apply Hw; left|done].
Qed.

(** The state after [init], the task ready to run. *)
Definition kbd_start : kbd := mkKbd [] false true Parked Quiet kb_new [] [] [].


End keyboard.

(** A decoder that takes a code for the character of that number, and a code
    that arrives between the first pop and the registration. *)
Definition toy_kb : PcKeyboard := {|
  kb := unit; kb_event := Z; kb_new := tt;
  add_byte sc k := (k, if sc <? 128 then Some sc else None);
  process_keyevent e k := (k, Some (Unicode e));
|}.
