(* ===== verification/Mouse.v ===== *)
(** * The mouse

    kernel/src/drivers/mouse.rs: the set-up of the PS/2 mouse through the
    8042 controller, the interrupt handler that assembles packets of three
    bytes, and the queue of events. *)
From S2P Require Import Prelude Ports Queue.
Local Open Scope Z_scope.

Abbreviation PORT_DATA := 0x60 (only parsing).
Abbreviation PORT_CMD := 0x64 (only parsing).
Abbreviation CMD_ENABLE_AUX := 0xA8 (only parsing).
Abbreviation CMD_READ_CONFIG := 0x20 (only parsing).
Abbreviation CMD_WRITE_CONFIG := 0x60 (only parsing).
Abbreviation CMD_WRITE_AUX := 0xD4 (only parsing).
Abbreviation MOUSE_SET_DEFAULTS := 0xF6 (only parsing).
Abbreviation MOUSE_ENABLE := 0xF4 (only parsing).
Abbreviation MOUSE_SET_SAMPLE := 0xF3 (only parsing).
Abbreviation MOUSE_SET_RESOLUTION := 0xE8 (only parsing).

Record MouseEvent := mkMouse { dx : Z; dy : Z; buttons : Z }.
Definition left (e : MouseEvent) : bool := negb (Z.land (buttons e) 1 =? 0).
Definition right (e : MouseEvent) : bool := negb (Z.land (buttons e) 2 =? 0).
Definition middle (e : MouseEvent) : bool := negb (Z.land (buttons e) 4 =? 0).

Record PacketAssembler := mkAsm { bytes : list Z; idx : Z }.
(** The statics of the driver; the queue is [None] before [init]. *)
Record mouse `{ArrayQueue MouseEvent} := mkMouseSt {
  EVENT_QUEUE : option (aq MouseEvent);
  BUTTONS : Z;
  ASSEMBLER : PacketAssembler;
}.

Arguments mkMouseSt {_} _ _ _.
Arguments EVENT_QUEUE {_} _.
Arguments BUTTONS {_} _.
Arguments ASSEMBLER {_} _.

Section mouse.
Context {D : Type} `{Ports D} `{ArrayQueue MouseEvent}.

(** ** Set-up *)

Section setup.
Local Abbreviation P := (M D string).

Fixpoint wait_input (n : nat) : P unit :=
  match n with
  | O => mok tt
  | S n => v ← in8 PORT_CMD; if Z.land v 2 =? 0 then mok tt else wait_input n
  end.
Definition wait_input_empty : P unit := wait_input (N.to_nat 100000).
Fixpoint wait_output (n : nat) : P unit :=
  match n with
  | O => mok tt
  | S n => v ← in8 PORT_CMD; if negb (Z.land v 1 =? 0) then mok tt else wait_output n
  end.
Definition wait_output_full : P unit := wait_output (N.to_nat 100000).
Definition write_cmd (cmd : Z) : P unit := _ ← wait_input_empty; out8 PORT_CMD cmd.
Definition write_data (byte : Z) : P unit := _ ← wait_input_empty; out8 PORT_DATA byte.
Definition read_data : P Z := _ ← wait_output_full; in8 PORT_DATA.
Definition mouse_write (byte : Z) : P unit :=
  _ ← write_cmd CMD_WRITE_AUX;
  _ ← write_data byte;
  ack ← read_data;
  if ack =? 0xFA then mok tt else mfail "mouse: commande non ACKed"%string.

Definition set_up : P unit :=
  _ ← write_cmd CMD_ENABLE_AUX;
  _ ← write_cmd CMD_READ_CONFIG;
  cfg ← read_data;
  let cfg := Z.lor cfg 2 in
  let cfg := Z.land cfg (unot 8 0x20) in
  _ ← write_cmd CMD_WRITE_CONFIG;
  _ ← write_data cfg;
  _ ← mouse_write MOUSE_SET_DEFAULTS;
  _ ← mouse_write MOUSE_SET_SAMPLE;
  _ ← mouse_write 200;
  _ ← mouse_write MOUSE_SET_RESOLUTION;
  _ ← mouse_write 3;
  mouse_write MOUSE_ENABLE.
End setup.

Definition mouse_init : M (D * mouse) string unit :=
  '(_, m) ← mget;
  match EVENT_QUEUE m with
  | Some _ => mfail "mouse: init appelé deux fois"%string
  | None =>
      _ ← modify (fun '(d, m) => (d, mkMouseSt (Some (aq_new 512)) (BUTTONS m) (ASSEMBLER m)));
      zoom fst (fun d s => (d, s.2)) set_up
  end.

(** ** The interrupt *)

(** The event of a complete packet, [None] when a counter overflowed. *)
Definition packet_event (b0 b1 b2 : Z) : option MouseEvent :=
  if negb (Z.land b0 0xC0 =? 0) then None else
  let dx := if negb (Z.land b0 0x10 =? 0) then b1 - 256 else b1 in
  let dy := if negb (Z.land b0 0x20 =? 0) then b2 - 256 else b2 in
  Some (mkMouse dx (- dy) (Z.land b0 7)).

Definition on_byte (byte : Z) (m : mouse) : outcome mouse :=
  let asm := ASSEMBLER m in
  if (idx asm =? 0) && (Z.land byte 8 =? 0) then Ret m else
  bs ← idx_set (bytes asm) (idx asm) byte;
  if idx asm + 1 <? 3 then Ret (mkMouseSt (EVENT_QUEUE m) (BUTTONS m) (mkAsm bs (idx asm + 1))) else
  let asm := mkAsm bs 0 in
  b0 ← Prelude.idx bs 0;
  b1 ← Prelude.idx bs 1;
  b2 ← Prelude.idx bs 2;
  match packet_event b0 b1 b2 with
  | None => Ret (mkMouseSt (EVENT_QUEUE m) (BUTTONS m) asm)
  | Some ev => Ret (mkMouseSt ((fun q => (aq_push ev q).1) <$> EVENT_QUEUE m) (buttons ev) asm)
  end.

Definition on_irq : M (D * mouse) string unit :=
  status ← zoom fst (fun d s => (d, s.2)) (in8 PORT_CMD);
  if negb (Z.land status 0x21 =? 0x21) then mok tt else
  byte ← zoom fst (fun d s => (d, s.2)) (in8 PORT_DATA);
  '(_, m) ← mget;
  m ← mlift (on_byte byte m);
  modify (fun s => (s.1, m)).

Definition try_recv (m : mouse) : mouse * option MouseEvent :=
  match EVENT_QUEUE m with
  | None => (m, None)
  | Some q => let '(q, r) := aq_pop q in (mkMouseSt (Some q) (BUTTONS m) (ASSEMBLER m), r)
  end.
End mouse.

(** ** Correctness *)

(** A movement the mouse reports: nine-bit counters, three buttons. *)
Record report := mkReport { r_dx : Z; r_dy : Z; r_buttons : Z }.
Definition report_ok (r : report) : Prop := -256 <= r_dx r < 256 /\ -256 <= r_dy r < 256 /\ 0 <= r_buttons r < 8.
Definition packet (r : report) : list Z :=
  [r_buttons r + 8 + (if r_dx r <? 0 then 16 else 0) + (if r_dy r <? 0 then 32 else 0); r_dx r mod 256; r_dy r mod 256].
(** On the screen the ordinate grows downwards. *)
Definition report_event (r : report) : MouseEvent := mkMouse (r_dx r) (- r_dy r) (r_buttons r).

Lemma head_bits b x y :
  0 <= b < 8 -> let h := b + 8 + (if x : bool then 16 else 0) + (if y : bool then 32 else 0) in
  Z.land h 8 <> 0 /\ Z.land h 0xC0 = 0 /\ (Z.land h 0x10 =? 0) = negb x /\ (Z.land h 0x20 =? 0) = negb y /\ Z.land h 7 = b.
Proof.
  intros Hb. assert (b = 0 \/ b = 1 \/ b = 2 \/ b = 3 \/ b = 4 \/ b = 5 \/ b = 6 \/ b = 7) as Hc by lia.
  destruct x, y; repeat destruct Hc as [->|Hc]; try subst; by vm_compute.
Qed.

Lemma counter_bits x : -256 <= x < 256 -> (if negb (negb (x <? 0)) then x mod 256 - 256 else x mod 256) = x.
Proof.
  intros Hx. rewrite negb_involutive. destruct (Z.ltb_spec x 0).
  - rewrite <- (Z.mod_add x 1 256) by lia. rewrite Z.mod_small by lia. lia.
  - by rewrite Z.mod_small by lia.
Qed.

Lemma packet_event_spec r :
  report_ok r -> forall b0 b1 b2, packet r = [b0; b1; b2] -> Z.land b0 8 <> 0 /\ packet_event b0 b1 b2 = Some (report_event r).
Proof.
  intros (Hx & Hy & Hb) b0 b1 b2 [= <- <- <-].
  destruct (head_bits (r_buttons r) (r_dx r <? 0) (r_dy r <? 0) Hb) as (H8 & Hc & H10 & H20 & H7).
  split; [done|]. unfold packet_event, report_event. rewrite Hc, H10, H20, H7. by rewrite !counter_bits.
Qed.

Section stream.
Context `{ArrayQueueLaws MouseEvent}.

(** The bytes of the packets, one interrupt each. *)
Definition feed (l : list Z) (m : mouse) : outcome mouse := ofold (fun m b => on_byte b m) m l.

Lemma feed_packet r q bt bs :
  report_ok r -> length bs = 3%nat ->
  exists bs', length bs' = 3%nat /\
    feed (packet r) (mkMouseSt (Some q) bt (mkAsm bs 0)) =
      Ret (mkMouseSt (Some (aq_push (report_event r) q).1) (r_buttons r) (mkAsm bs' 0)).
Proof.
  intros Hr Hbs. destruct (packet r) as [|b0 [|b1 [|b2 [|]]]] eqn:Ep; try done.
  destruct (packet_event_spec r Hr b0 b1 b2 Ep) as [H8 He].
  destruct bs as [|x0 [|x1 [|x2 [|]]]]; try done. exists [b0; b1; b2]. split; [done|].
  unfold feed, on_byte. cbn [ofold ASSEMBLER idx bytes EVENT_QUEUE BUTTONS].
  apply Z.eqb_neq in H8. rewrite H8. change (0 =? 0) with true. cbn [andb].
  change (idx_set [x0; x1; x2] 0 b0) with (Ret [b0; x1; x2]). obind.
  change (0 + 1 <? 3) with true. cbn iota. obind. cbn [ASSEMBLER idx bytes EVENT_QUEUE BUTTONS].
  change (0 + 1 =? 0) with false. cbn [andb].
  change (idx_set [b0; x1; x2] (0 + 1) b1) with (Ret [b0; b1; x2]). obind.
  change (0 + 1 + 1 <? 3) with true. cbn iota. obind. cbn [ASSEMBLER idx bytes EVENT_QUEUE BUTTONS].
  change (0 + 1 + 1 =? 0) with false. cbn [andb].
  change (idx_set [b0; b1; x2] (0 + 1 + 1) b2) with (Ret [b0; b1; b2]). obind.
  change (0 + 1 + 1 + 1 <? 3) with false. cbn iota.
  change (Prelude.idx [b0; b1; b2] 0) with (Ret b0). change (Prelude.idx [b0; b1; b2] 1) with (Ret b1).
  change (Prelude.idx [b0; b1; b2] 2) with (Ret b2). obind. rewrite He. done.
Qed.

(** Property.  The packets of the mouse.  For every sequence of movements the mouse
    reports, the bytes that arrive one interrupt at a time are assembled into
    exactly those movements, with the signs of the nine-bit counters and the
    ordinate turned to the screen's, queued in their order as long as there is
    room, and the buttons are those of the last. *)
Theorem mouse_reports_decoded rs q bt bs :
  Forall report_ok rs -> length bs = 3%nat -> lenZ (aq_items q) + lenZ rs <= aq_capacity q ->
  exists q' bt' bs', length bs' = 3%nat /\
    feed (rs ≫= packet) (mkMouseSt (Some q) bt (mkAsm bs 0)) = Ret (mkMouseSt (Some q') bt' (mkAsm bs' 0)) /\
    aq_items q' = aq_items q ++ (report_event <$> rs) /\ bt' = default bt (r_buttons <$> last rs).
Proof.
  intros Hrs. revert q bt bs. induction Hrs as [|r rs Hr Hrs IH]; intros q bt bs Hbs Hcap.
  - exists q, bt, bs. by rewrite app_nil_r.
  - rewrite lenZ_cons in Hcap. pose proof (lenZ_nonneg rs).
    destruct (feed_packet r q bt bs Hr Hbs) as (bs1 & Hbs1 & E1).
    destruct (aq_push_items (report_event r) q) as (q1 & res & Eq & Hc1 & Hq1).
    rewrite bool_decide_eq_true_2 in Hq1 by lia. destruct Hq1 as [Hi1 _]. rewrite Eq in E1. cbn [fst] in E1.
    destruct (IH q1 (r_buttons r) bs1 Hbs1) as (q' & bt' & bs' & Hbs' & E & Hi & Hbt).
    { rewrite Hi1, Hc1, lenZ_app. unfold lenZ at 2. cbn [length]. lia. }
    exists q', bt', bs'. split; [done|]. split.
    { cbn [mbind list_bind]. unfold feed in *. rewrite ofold_app, E1. obind. exact E. }
    split; [rewrite Hi, Hi1, <- app_assoc; done|]. rewrite Hbt. rewrite last_cons. by destruct (last rs).
Qed.
End stream.

Lemma mouse_reports_decoded_witness :
  exists q' bt' bs', length bs' = 3%nat /\
    feed ([mkReport 5 (-3) 0; mkReport (-256) 255 1] ≫= packet) (mkMouseSt (Some (aq_new 512)) 0 (mkAsm [0; 0; 0] 0)) =
      Ret (mkMouseSt (Some q') bt' (mkAsm bs' 0)) /\
    aq_items q' = aq_items (aq_new 512 : aq MouseEvent) ++ [mkMouse 5 3 0; mkMouse (-256) (-255) 1] /\ bt' = 1.
Proof.
  apply (mouse_reports_decoded [mkReport 5 (-3) 0; mkReport (-256) 255 1] (aq_new 512) 0 [0; 0; 0]).
  - repeat constructor; cbn; lia.
  - reflexivity.
  - vm_compute; discriminate.
Defined.
