(* ===== verification/Shell.v ===== *)
(** * The shell

    kernel/src/shell/mod.rs: the commands and their dispatch.  A command runs
    on the state of the kernel the system calls use (Syscall.v), with the
    session and the network beside it, and prints on the console.  What the
    diagnostics only read (ACPI, PCI, disks, partitions, interrupt
    controllers, the executor's count) is a [SysView]; the run of user
    programs between [run_until_all_exit] and its return is the function
    [v_users] of it. *)
From S2P Require Import Prelude Str Sha256 Phys FrameAllocator FrameRefcount Paging AddressSpace Signal ProcessTable Ipc Queue Gfx Elf Executor.
From S2P Require Import Time Process Ramfs BlockDev Persist Users Fat32 Part Ports Ata Thread Exec Fb Syscall Pci Acpi E1000 Net Http.
Local Open Scope Z_scope.

(** ** Formatting *)

(** [{:>w}] and [{:<w}]: padded to [w] characters. *)
Definition pad_l (w : Z) (s : str) : str := replicate (Z.to_nat (w - lenZ (chars s))) 32 ++ s.
Definition pad_r (w : Z) (s : str) : str := s ++ replicate (Z.to_nat (w - lenZ (chars s))) 32.
Definition pad0 (w : Z) (s : str) : str := replicate (Z.to_nat (w - lenZ s)) 48 ++ s.
Definition hex2 (n : Z) : str := pad0 2 (fmt_hex n).
Definition hex4 (n : Z) : str := pad0 4 (fmt_hex n).
Definition fmt_mac (m : list Z) : str := str_join 58 (hex2 <$> m).

Definition fmt_bus (b : Bus) : str := match b with Primary => bstr "Primary" | Secondary => bstr "Secondary" end.
Definition fmt_drive (d : Drive) : str := match d with Master => bstr "Master" | Slave => bstr "Slave" end.
Definition fmt_signal (s : Signal) : str :=
  bstr match s with Int => "Int" | Signal.Bus => "Bus" | Kill => "Kill" | Segv => "Segv" | Ill => "Ill" | Term => "Term" end.
Definition fmt_thread_state (s : Thread.ThreadState) : str :=
  bstr match s with Thread.Runnable => "Runnable" | Thread.Running => "Running" | Thread.Finished => "Finished" end.
Definition user_message (e : UserError) : str :=
  match e with
  | NameTaken => bstr "nom d'utilisateur déjà pris"
  | NameInvalid => bstr "nom invalide (lettres/chiffres uniquement, 1..32)"
  | PasswordTooShort => bstr "mot de passe trop court (minimum 4 caractères)"
  | SaveFailed e => bstr e
  end.
Definition part_name (t : PartitionType) : str :=
  bstr match t with
  | Empty => "Empty" | Fat12 => "FAT12" | Fat16 => "FAT16" | PFat32 => "FAT32" | Fat32Lba => "FAT32 LBA"
  | Fat16Lba => "FAT16 LBA" | Ntfs => "NTFS/exFAT" | Linux => "Linux" | LinuxSwap => "Linux swap"
  | GptProtective => "GPT protective" | Unknown _ => "Unknown"
  end.

(** [split_whitespace] on the characters of a line: Unicode white space. *)
Definition unicode_white (c : Z) : bool :=
  bool_decide (9 <= c <= 13) || bool_decide (c ∈ [32; 0x85; 0xA0; 0x1680; 0x2028; 0x2029; 0x202F; 0x205F; 0x3000]) ||
  bool_decide (0x2000 <= c <= 0x200A).
Definition text (cs : list Z) : str := concat (encode_char <$> cs).
Definition split_whitespace (line : list Z) : list str := text <$> str_words unicode_white line.

(** [s.parse::<u8>()] with an optional hexadecimal prefix; [from_str_radix]
    takes a sign like [parse] does. *)
Fixpoint parse_hex (acc : Z) (s : str) : option Z :=
  match s with
  | [] => Some acc
  | c :: s =>
      d ← (if bool_decide (48 <= c <= 57) then Some (c - 48)
           else if bool_decide (97 <= c <= 102) then Some (c - 87)
           else if bool_decide (65 <= c <= 70) then Some (c - 55) else None);
      if 255 <? acc * 16 + d then None else parse_hex (acc * 16 + d) s
  end.
Definition parse_radix16 (s : str) : option Z :=
  match s with
  | [] => None
  | [43] => None
  | 43 :: r => parse_hex 0 r
  | _ => parse_hex 0 s
  end.
Definition parse_u8_auto (s : str) : option Z :=
  match strip_prefix (bstr "0x") s with
  | Some hex => parse_radix16 hex
  | None => match strip_prefix (bstr "0X") s with
            | Some hex => parse_radix16 hex
            | None => parse_uint 8 s
            end
  end.

(** ** The state *)

(** The ICMP sockets of smoltcp, as [ping] uses them. *)
Class Icmp (W : Type) := {
  icmp_new : W -> W * Z;
  icmp_bind : Z -> Z -> W -> W;
  icmp_send_echo : Z -> Z -> Z -> list Z -> list Z -> W -> option W;
  icmp_can_recv : Z -> W -> bool;
  icmp_recv : Z -> W -> W * option (list Z);
  socket_count : W -> Z;
}.

Section shell.
Context {D W : Type} `{ArrayQueue InputEventAbi} `{ArrayQueue Z} `{X86Paging} `{UserMem} `{BlockDev D}.
Context `{Smoltcp W} `{Icmp W}.

Record SysView := mkSysView {
  v_env : env (D := D);
  v_users : control -> pstate -> pstate;
  v_acpi : option AcpiInfo;
  v_lapic : Z * Z;
  v_io_apics : option (list (IoApic * Z));
  v_pci : option (list PciDevice);
  v_disks : option (list Disk);
  v_parts : option (list Partition);
  v_nic : option E1000;
  v_tasks : Z;
  v_bp_rip : Z;
  v_rounds : nat;
}.

Record shell := mkShell {
  sh_sys : sys D;
  sh_net : Net W;
  CURRENT_USER : option User;
  LOGOUT_REQUESTED : bool;
  sh_spawned : list Z;    (** the sleeps spawned, in milliseconds *)
}.

Abbreviation K := (M shell unit).

Definition set_sh_sys (s : sys D) (h : shell) : shell :=
  mkShell s (sh_net h) (CURRENT_USER h) (LOGOUT_REQUESTED h) (sh_spawned h).
Definition set_sh_net (n : Net W) (h : shell) : shell :=
  mkShell (sh_sys h) n (CURRENT_USER h) (LOGOUT_REQUESTED h) (sh_spawned h).
Definition sh_k (h : shell) : kst D := y_k (sh_sys h).
Definition sh_fs (h : shell) : Ramfs := k_fs (sh_k h).
Definition set_sh_k (k : kst D) (h : shell) : shell := set_sh_sys (set_y_k k (sh_sys h)) h.
Definition set_sh_fs (fs : Ramfs) (h : shell) : shell :=
  let k := sh_k h in
  set_sh_k (mkKst (k_ps k) fs (k_fat k) (k_disk k) (k_paths k) (k_threads k) (k_console k) (k_serial k) (k_count k)) h.

Definition print (x : str) : K unit := modify (fun h => set_sh_sys (print_console x (sh_sys h)) h).
Definition println (x : str) : K unit := print (x ++ [10]).
(** A call of a component on its part of the state, its result as a value. *)
Definition call_k {E A} (c : M (kst D) E A) : K (result A E) := zoom sh_k set_sh_k (try_ c).
Definition call_disk {E A} (c : M D E A) : K (result A E) :=
  zoom (fun h => k_disk (sh_k h)) (fun d h => set_sh_k (set_k_disk d (sh_k h)) h) (try_ c).
(** The accounts work on the files and the disk. *)
Definition call_pst {E A} (c : M (pst D) E A) : K (result A E) :=
  zoom (fun h => mkPst (sh_fs h) (k_disk (sh_k h)))
       (fun p h => set_sh_fs (p_fs p) (set_sh_k (set_k_disk (p_disk p) (sh_k h)) h)) (try_ c).

(** ** Files *)

Definition file_line (fs : Ramfs) (f : str) : str :=
  bstr "  " ++ pad_l 8 (fmt_dec (default 0 (fs_size f fs))) ++ bstr " B  " ++ f.

Definition cmd_ls : K unit :=
  h ← mget;
  mfor (merge_sort str_le (fs_list (sh_fs h))) (fun f => println (file_line (sh_fs h) f)).

Definition cmd_cat (args : list str) : K unit :=
  match args with
  | [] => println (bstr "usage: cat <path>")
  | path :: _ =>
      h ← mget;
      match fs_read path (sh_fs h) with
      | Ok data =>
          match from_utf8 data with
          | Some s => print s
          | None => println (bstr "(binaire, " ++ fmt_dec (lenZ data) ++ bstr " octets)")
          end
      | Err _ => println (bstr "cat: " ++ path ++ bstr ": fichier introuvable")
      end
  end.

Definition cmd_echo (args : list str) : K unit := println (str_join 32 args).

Definition cmd_write (args : list str) : K unit :=
  match args with
  | path :: ((_ :: _) as words) =>
      let content := str_join 32 words ++ [10] in
      _ ← modify (fun h => set_sh_fs (fs_write path content (sh_fs h)) h);
      println (bstr "écrit " ++ fmt_dec (lenZ content) ++ bstr " octets dans " ++ path)
  | _ => println (bstr "usage: write <path> <texte...>")
  end.

Definition cmd_rm (args : list str) : K unit :=
  match args with
  | [] => println (bstr "usage: rm <path>")
  | path :: _ =>
      h ← mget;
      let '(fs, r) := fs_remove path (sh_fs h) in
      _ ← modify (set_sh_fs fs);
      match r with
      | Ok _ => mok tt
      | Err _ => println (bstr "rm: " ++ path ++ bstr ": introuvable")
      end
  end.

Definition cmd_save : K unit :=
  r ← call_pst save_from_ramfs;
  match r with
  | Ok _ => println (bstr "état persisté sur disque (LBA 2048, 32 KiB)")
  | Err e => println (bstr "save: " ++ bstr e)
  end.

(** ** Accounts *)

Definition cmd_whoami : K unit :=
  h ← mget;
  match iter_current (y_table (sh_sys h)) with
  | Some (pid, uid, euid) =>
      println (bstr "pid=" ++ fmt_dec pid ++ bstr " uid=" ++ fmt_dec uid ++ bstr " euid=" ++ fmt_dec euid)
  | None =>
      match CURRENT_USER h with
      | Some u => println (bstr "tty user=" ++ u_name u ++ bstr " uid=" ++ fmt_dec (u_uid u) ++ bstr " gid=" ++ fmt_dec (u_gid u))
      | None => println (bstr "(contexte kernel - aucune session TTY)")
      end
  end.

Definition cmd_users : K unit :=
  h ← mget;
  match load_users (sh_fs h) with
  | Ok l =>
      _ ← println (bstr "  uid   gid  name        home           shell");
      mfor l (fun u => println (bstr "  " ++ pad_l 4 (fmt_dec (u_uid u)) ++ bstr " " ++ pad_l 4 (fmt_dec (u_gid u)) ++
                                bstr "  " ++ pad_r 12 (u_name u) ++ bstr " " ++ pad_r 14 (u_home u) ++ bstr " " ++ u_shell u))
  | Err e => println (bstr "users: " ++ bstr e)
  end.

Definition cmd_hash (args : list str) : K unit :=
  match args with
  | [] => println (bstr "usage: hash <texte>")
  | _ => x ← mlift (Sha256.sha256_hex (str_join 32 args)); println x
  end.

Definition cmd_auth (args : list str) : K unit :=
  match args with
  | user :: pw :: _ =>
      h ← mget;
      r ← mlift (authenticate user pw (sh_fs h));
      match r with
      | Some u => println (bstr "OK : " ++ u_name u ++ bstr " (uid=" ++ fmt_dec (u_uid u) ++ bstr ", gid=" ++
                           fmt_dec (u_gid u) ++ bstr ", shell=" ++ u_shell u ++ bstr ")")
      | None => println (bstr "échec : user inconnu ou mauvais mot de passe")
      end
  | _ => println (bstr "usage: auth <user> <mdp>")
  end.

Definition cmd_useradd (args : list str) : K unit :=
  match args with
  | nm :: pw :: _ =>
      r ← call_pst (create_user nm pw);
      match r with
      | Ok u => println (bstr "compte créé : " ++ u_name u ++ bstr " (uid=" ++ fmt_dec (u_uid u) ++ bstr ")")
      | Err e => println (bstr "useradd: " ++ user_message e)
      end
  | _ => println (bstr "usage: useradd <nom> <mdp>")
  end.

Definition cmd_userdel (args : list str) : K unit :=
  match args with
  | [] => println (bstr "usage: userdel <nom>")
  | nm :: _ =>
      h ← mget;
      match find_user nm (sh_fs h) with
      | None => println (bstr "userdel: utilisateur inconnu")
      | Some u =>
          r ← call_pst (delete_user (u_uid u));
          match r with
          | Ok _ => println (bstr "compte supprimé : " ++ nm)
          | Err e => println (bstr "userdel: " ++ user_message e)
          end
      end
  end.

Definition cmd_passwd (args : list str) : K unit :=
  match args with
  | nm :: pw :: _ =>
      h ← mget;
      match find_user nm (sh_fs h) with
      | None => println (bstr "passwd: utilisateur inconnu")
      | Some u =>
          r ← call_pst (set_password (u_uid u) pw);
          match r with
          | Ok _ => println (bstr "mot de passe mis à jour")
          | Err e => println (bstr "passwd: " ++ user_message e)
          end
      end
  | _ => println (bstr "usage: passwd <nom> <nouveau_mdp>")
  end.

(** ** Memory, tasks, threads *)

Abbreviation HEAP_START := 0x1000000 (only parsing).
Abbreviation HEAP_SIZE := 33554432 (only parsing).
Definition frame_stats (h : shell) : option (Z * Z) := stats <$> km_fa (i_mem (y_i (sh_sys h))).
Definition heap_line : str := fmt_dec (HEAP_SIZE / 1024).

Definition cmd_mem : K unit :=
  h ← mget;
  _ ← match frame_stats h with
      | Some (used, total) =>
          u ← mlift (used *! 4 @ 64);
          t ← mlift (total *! 4 @ 64);
          println (bstr "Frames physiques: " ++ fmt_dec used ++ bstr " / " ++ fmt_dec total ++ bstr " (" ++
                   fmt_dec (u / 1024) ++ bstr " MiB / " ++ fmt_dec (t / 1024) ++ bstr " MiB)")
      | None => mok tt
      end;
  println (bstr "Heap kernel: " ++ heap_line ++ bstr " KiB à " ++ fmt_0x HEAP_START).

Definition cmd_ps (v : SysView) : K unit := println (bstr "Tâches actives: " ++ fmt_dec (v_tasks v)).

Definition uptime_text : K str :=
  h ← mget;
  ms ← mlift (Time.uptime_ms (ps_clock (y_ps (sh_sys h))));
  mok (format_uptime ms).
Definition cmd_uptime : K unit := u ← uptime_text; println (bstr "up " ++ u).

(** The console is a transcript; clearing the screen prints nothing. *)
Definition cmd_clear : K unit := mok tt.

Definition cmd_sleep (args : list str) : K unit :=
  match args with
  | [] => println (bstr "usage: sleep <ms>")
  | a :: _ =>
      match parse_uint 64 a with
      | None => println (bstr "sleep: ms invalide")
      | Some ms =>
          _ ← modify (fun h => mkShell (sh_sys h) (sh_net h) (CURRENT_USER h) (LOGOUT_REQUESTED h) (sh_spawned h ++ [ms]));
          println (bstr "sleep lancé en tâche de fond")
      end
  end.

Definition cmd_breakpoint (v : SysView) : K unit :=
  _ ← println (bstr "[EXCEPTION] BREAKPOINT @ " ++ fmt_0x (v_bp_rip v));
  println (bstr "(retour du breakpoint)").

Definition cmd_threads : K unit :=
  h ← mget;
  _ ← println (bstr "  TID  NAME                      STATE");
  mfor (Thread.thread_list (k_threads (sh_k h))) (fun '(id, nm, st) =>
    println (bstr "  " ++ pad_l 3 (fmt_dec id) ++ bstr "  " ++ pad_r 25 nm ++ bstr " " ++ fmt_thread_state st)).

Definition cmd_yield (v : SysView) : K unit :=
  _ ← println (bstr "yield...");
  h ← mget;
  '(s, _) ← mlift (sys_yield (v_env v) (sh_sys h));
  _ ← modify (set_sh_sys s);
  println (bstr "...de retour").

Definition cmd_syscall (v : SysView) (args : list str) : K unit :=
  match args with
  | [] =>
      _ ← println (bstr "usage: syscall <nr> [arg1] [arg2] [arg3]");
      println (bstr "  1 write, 4 getpid, 5 uptime, 11 fs_list")
  | a :: _ =>
      let nr := default 0 (parse_uint 64 a) in
      if bool_decide (nr = 4) || bool_decide (nr = 5) then
        h ← mget;
        '(s, r) ← mlift (syscall_dispatch (v_env v) nr 0 0 0 0 (sh_sys h));
        _ ← modify (set_sh_sys s);
        match r with
        | RetVal x =>
            if bool_decide (nr = 4) then println (bstr "getpid -> " ++ fmt_dec x)
            else println (bstr "uptime -> " ++ fmt_dec x ++ bstr " ms")
        | _ => mok tt
        end
      else println (bstr "syscall " ++ fmt_dec nr ++ bstr " non testable interactivement ici")
  end.

(** ** Hardware *)

(** [acpi::info()] *)
Definition acpi_view (v : SysView) : K AcpiInfo := mlift (acpi_info (v_acpi v)).
Definition count_enabled (l : list CpuCore) : Z := lenZ (filter (fun c => cpu_enabled c = true) l).

Definition cmd_acpi (v : SysView) : K unit :=
  i ← acpi_view v;
  if lapic_phys_addr i =? 0 then println (bstr "ACPI : non détecté (mode dégradé PIC only)") else
  _ ← println (bstr "ACPI rev         : " ++ fmt_dec (revision i));
  _ ← println (bstr "CPU cores        : " ++ fmt_dec (lenZ (cores i)) ++ bstr "  (enabled: " ++
               fmt_dec (count_enabled (cores i)) ++ bstr ")");
  _ ← println (bstr "LAPIC phys       : " ++ fmt_0x (lapic_phys_addr i));
  _ ← println (bstr "I/O APICs        : " ++ fmt_dec (lenZ (io_apics i)));
  _ ← println (bstr "IRQ overrides    : " ++ fmt_dec (lenZ (overrides i)));
  _ ← println (bstr "SCI interrupt    : " ++ fmt_dec (sci_interrupt i));
  if reset_reg_addr i =? 0 then mok tt
  else println (bstr "RESET_REG        : " ++ fmt_0x (reset_reg_addr i) ++ bstr " = " ++ fmt_0x (reset_value i)).

Definition cmd_lsapic (v : SysView) : K unit :=
  i ← acpi_view v;
  _ ← println (bstr "-- Local APIC --");
  _ ← (if lapic_phys_addr i =? 0 then println (bstr "  (absent)") else
       _ ← println (bstr "  ID       : " ++ fmt_dec (v_lapic v).1);
       println (bstr "  version  : " ++ fmt_0x (v_lapic v).2));
  _ ← println (bstr "-- CPU cores (MADT) --");
  _ ← mfor (cores i) (fun c =>
        println (bstr "  acpi#" ++ pad_l 2 (fmt_dec (acpi_processor_id c)) ++ bstr "  lapic#" ++
                 pad_l 2 (fmt_dec (lapic_id c)) ++ bstr "  enabled=" ++ fmt_bool (cpu_enabled c)));
  _ ← println (bstr "-- I/O APICs --");
  _ ← match v_io_apics v with
      | Some devs =>
          mfor devs (fun '(d, n) =>
            println (bstr "  id=" ++ fmt_dec (io_id d) ++ bstr "  addr=" ++ fmt_0x (io_address d) ++ bstr "  gsi_base=" ++
                     fmt_dec (gsi_base d) ++ bstr "  entries=" ++ fmt_dec n))
      | None => mok tt
      end;
  _ ← println (bstr "-- IRQ overrides --");
  mfor (overrides i) (fun o =>
    println (bstr "  bus=" ++ fmt_dec (bus_source o) ++ bstr " irq=" ++ fmt_dec (irq_source o) ++ bstr " -> gsi=" ++
             fmt_dec (ov_gsi o) ++ bstr " flags=" ++ fmt_0x (ov_flags o))).

Definition cmd_lspci (v : SysView) : K unit :=
  match v_pci v with
  | None => println (bstr "PCI non initialisé")
  | Some [] => println (bstr "Aucun device PCI détecté")
  | Some l =>
      _ ← println (bstr "  BUS:DEV.FN  VEN:DEV     CLASS                IRQ  VENDOR");
      mfor l (fun d =>
        println (bstr "  " ++ hex2 (pa_bus (pd_addr d)) ++ bstr ":" ++ hex2 (pa_dev (pd_addr d)) ++ bstr "." ++
                 fmt_dec (pa_func (pd_addr d)) ++ bstr "   " ++ hex4 (vendor_id d) ++ bstr ":" ++ hex4 (device_id d) ++
                 bstr "  " ++ pad_r 20 (bstr (class_name d)) ++ bstr "  " ++ pad_l 3 (fmt_dec (irq_line d)) ++ bstr "  " ++
                 bstr (vendor_name (vendor_id d))))
  end.

Definition cmd_disk (v : SysView) : K unit :=
  match v_disks v with
  | None => println (bstr "ATA non initialisé")
  | Some [] => println (bstr "Aucun disque ATA détecté")
  | Some l =>
      _ ← println (bstr "  IDX  BUS     DRIVE    SECTORS   SIZE        MODEL");
      mfor (zip (seqZ 0 (lenZ l)) l) (fun '(i, d) =>
        bytes ← mlift (sectors d *! 512 @ 64);
        println (bstr "  " ++ pad_l 3 (fmt_dec i) ++ bstr "  " ++ fmt_bus (Ata.bus d) ++ bstr "  " ++ fmt_drive (drive d) ++
                 bstr "  " ++ pad_l 8 (fmt_dec (sectors d)) ++ bstr "  " ++ pad_l 6 (fmt_dec (bytes / (1024 * 1024))) ++
                 bstr " MiB  " ++ model d))
  end.

(** ** Raw sectors *)

Definition dump_char (b : Z) : Z := if (0x20 <=? b) && (b <? 0x7F) then b else 46.
Definition dump_row (buf : list Z) (r : Z) : str :=
  let row := take 16 (drop (Z.to_nat (r * 16)) buf) in
  bstr "  " ++ hex4 (r * 16) ++ bstr "  " ++ concat ((fun b => hex2 b ++ [32]) <$> row) ++ bstr " " ++ (dump_char <$> row).
Definition hexdump_first_rows (buf : list Z) (rows : Z) : K unit :=
  mfor (seqZ 0 (Z.min rows (lenZ buf / 16))) (fun r => println (dump_row buf r)).

Definition cmd_read (args : list str) : K unit :=
  match args with
  | a :: b :: _ =>
      match parse_uint 64 a, parse_uint 32 b with
      | None, _ => println (bstr "idx?")
      | _, None => println (bstr "lba?")
      | Some i, Some lba =>
          r ← call_disk (bd_read i lba 1 (replicate 512 0));
          match r with
          | Ok buf => hexdump_first_rows buf 8
          | Err e => println (bstr "read: " ++ bstr e)
          end
      end
  | _ => println (bstr "usage: read <disk_idx> <lba>")
  end.

Definition cmd_writeblk (args : list str) : K unit :=
  match args with
  | a :: b :: c :: force :: _ =>
      if bool_decide (force <> bstr "--force") then
        println (bstr "refusé: ajoute --force pour confirmer l'écriture disque brute")
      else
      match parse_uint 64 a, parse_uint 32 b, parse_u8_auto c with
      | None, _, _ => println (bstr "idx?")
      | _, None, _ => println (bstr "lba?")
      | _, _, None => println (bstr "byte?")
      | Some i, Some lba, Some byte =>
          r ← call_disk (bd_write i lba 1 (replicate 512 byte));
          match r with
          | Ok _ => println (bstr "writeblk: disk=" ++ fmt_dec i ++ bstr " lba=" ++ fmt_dec lba ++ bstr " value=0x" ++
                             hex2 byte ++ bstr " OK")
          | Err e => println (bstr "writeblk: " ++ bstr e)
          end
      end
  | _ => println (bstr "usage: writeblk <disk_idx> <lba> <byte|0xHH> --force")
  end.

(** ** Programs *)

(** [run_until_all_exit] and the run of the user programs. *)
Definition run_users (v : SysView) : K unit :=
  h ← mget;
  '(p, c) ← mlift (run_until_all_exit (y_ps (sh_sys h)));
  modify (fun h => set_sh_sys (set_y_ps (v_users v c p) (sh_sys h)) h).

Definition launch (v : SysView) (tag : str) (c : M (kst D) string Z) : K unit :=
  r ← call_k c;
  match r with
  | Ok pid =>
      _ ← println (bstr "[" ++ tag ++ bstr "] pid=" ++ fmt_dec pid ++ bstr " — entrée en ring 3");
      _ ← run_users v;
      println (bstr "[" ++ tag ++ bstr "] process terminé, retour au shell")
  | Err e => println (tag ++ bstr ": " ++ bstr e)
  end.

Definition x_any (v : SysView) (path : str) : M (kst D) string Z :=
  exec_from_any (e_user_code (v_env v)) (e_user_data (v_env v)) (e_kstack (v_env v)) path 0.
Definition x_fs (v : SysView) (path : str) : M (kst D) string Z :=
  exec_from_fs (e_user_code (v_env v)) (e_user_data (v_env v)) (e_kstack (v_env v)) path 0.
Definition x_fat (v : SysView) (path : str) : M (kst D) string Z :=
  exec_from_fat (e_user_code (v_env v)) (e_user_data (v_env v)) (e_kstack (v_env v)) path 0.
Definition x_search (v : SysView) (path : str) : M (kst D) string Z :=
  exec_from_search (e_user_code (v_env v)) (e_user_data (v_env v)) (e_kstack (v_env v)) path 0.

Definition cmd_init (v : SysView) : K unit :=
  r ← call_k (x_fs v (bstr "/sbin/init"));
  match r with
  | Ok pid => println (bstr "init lancé (pid=" ++ fmt_dec pid ++ bstr ")")
  | Err e => println (bstr "init: " ++ bstr e)
  end.
Definition cmd_exec (v : SysView) (args : list str) : K unit :=
  match args with [] => println (bstr "usage: exec <path>") | p :: _ => launch v (bstr "exec") (x_any v p) end.
Definition cmd_run (v : SysView) (args : list str) : K unit :=
  match args with [] => println (bstr "usage: run <name|path>") | p :: _ => launch v (bstr "run") (x_search v p) end.
Definition cmd_execfat (v : SysView) (args : list str) : K unit :=
  match args with [] => println (bstr "usage: execfat <path>") | p :: _ => launch v (bstr "execfat") (x_fat v p) end.

Definition cmd_which (args : list str) : K unit :=
  match args with
  | [] => println (bstr "usage: which <name> [...]")
  | _ =>
      mfor args (fun nm =>
        r ← call_k (resolve_exec_path nm);
        match r with
        | Ok (Some path) => println (nm ++ bstr " -> " ++ path)
        | _ => println (nm ++ bstr ": introuvable")
        end)
  end.

Definition cmd_path (args : list str) : K unit :=
  if bool_decide (args = []) || bool_decide (head args = Some (bstr "show")) then
    r ← call_k exec_paths;
    let paths := match r with Ok l => l | Err _ => [] end in
    _ ← println (bstr "PATH=" ++ str_join 58 paths);
    mfor (zip (seqZ 0 (lenZ paths)) paths) (fun '(i, p) => println (bstr "  [" ++ fmt_dec i ++ bstr "] " ++ p))
  else match args with
  | cmd :: rest =>
      if bool_decide (cmd = bstr "reset") then
        _ ← call_k reset_exec_paths; println (bstr "PATH réinitialisé")
      else if bool_decide (cmd = bstr "add") then
        match rest with
        | [] => println (bstr "usage: path add <dir>")
        | d :: _ =>
            r ← call_k (add_exec_path d);
            match r with Ok _ => println (bstr "PATH += " ++ d) | Err e => println (bstr "path add: " ++ bstr e) end
        end
      else if bool_decide (cmd = bstr "set") then
        match rest with
        | [] => println (bstr "usage: path set <dir1:dir2:...>")
        | _ =>
            let spec := str_join 32 rest in
            r ← call_k (set_exec_paths_from_spec spec);
            match r with Ok _ => println (bstr "PATH <- " ++ spec) | Err e => println (bstr "path set: " ++ bstr e) end
        end
      else
        _ ← println (bstr "usage: path [show|set|add|reset]");
        _ ← println (bstr "  path");
        _ ← println (bstr "  path add /apps");
        _ ← println (bstr "  path set /:/bin:/fat:/fat/bin");
        println (bstr "  path reset")
  | [] => mok tt
  end.

Definition cmd_userls : K unit :=
  _ ← println (bstr "--- user bins (ramfs) ---");
  h ← mget;
  _ ← mfor (merge_sort str_le (fs_list (sh_fs h))) (fun f =>
        if starts_with [47] f then println (file_line (sh_fs h) f) else mok tt);
  _ ← println (bstr "--- user bins (fat32 /) ---");
  match k_fat (sh_k h) with
  | None => println (bstr "  FAT32 non monté")
  | Some fat =>
      r ← call_disk (fat_ls fat (bstr "/"));
      match r with
      | Ok entries =>
          mfor entries (fun e =>
            if is_dir e then mok tt
            else println (bstr "  " ++ pad_l 8 (fmt_dec (de_size e)) ++ bstr " B  " ++ de_name e))
      | Err e => println (bstr "  fat32: " ++ bstr e)
      end
  end.

(** One program of [userdemo]; says whether it started. *)
Definition demo_one (v : SysView) (path : str) : K bool :=
  _ ← println (bstr "[userdemo] lancement " ++ path);
  r ← call_k (x_any v path);
  match r with
  | Ok pid => _ ← println (bstr "[userdemo] pid=" ++ fmt_dec pid ++ bstr " " ++ path); _ ← run_users v; mok true
  | Err e => _ ← println (bstr "[userdemo] " ++ path ++ bstr ": " ++ bstr e); mok false
  end.
Definition cmd_userdemo (v : SysView) : K unit :=
  b ← demo_one v (bstr "/hello_user");
  if (b : bool) then _ ← demo_one v (bstr "/counter"); mok tt else mok tt.

Definition cmd_psu : K unit :=
  h ← mget;
  match table_list (y_table (sh_sys h)) with
  | [] => println (bstr "aucun process userspace")
  | l =>
      _ ← println (bstr "  PID  PPID  STATE                    NAME");
      mfor l (fun '(pid, parent, nm, st) =>
        println (bstr "  " ++ pad_l 3 (fmt_dec pid) ++ bstr "  " ++ pad_l 4 (fmt_dec parent) ++ bstr "  " ++
                 pad_r 24 (fmt_state st) ++ bstr " " ++ nm))
  end.

Definition cmd_killu (args : list str) : K unit :=
  match args with
  | a :: b :: _ =>
      match parse_uint 64 a, parse_uint 32 b with
      | None, _ => println (bstr "pid?")
      | _, None => println (bstr "sig?")
      | Some pid, Some n =>
          match from_num n with
          | None => println (bstr "signal inconnu")
          | Some sig =>
              h ← mget;
              let '(t, r) := kill pid sig (y_table (sh_sys h)) in
              _ ← modify (fun h => set_sh_sys (set_y_table t (sh_sys h)) h);
              match r with
              | Ok _ => println (bstr "signal " ++ fmt_signal sig ++ bstr " envoyé à pid=" ++ fmt_dec pid)
              | Err e => println (bstr "kill: " ++ bstr e)
              end
          end
      end
  | _ => println (bstr "usage: killu <pid> <sig>")
  end.

Definition cmd_sysinfo (v : SysView) : K unit :=
  h ← mget;
  let '(used, total) := default (0, 0) (frame_stats h) in
  u ← mlift (used *! 4 @ 64);
  t ← mlift (total *! 4 @ 64);
  up ← uptime_text;
  _ ← println (bstr "--- system ---");
  _ ← println (bstr "  Kernel      : Rust Kernel v0.6 (Phase III)");
  _ ← println (bstr "  Arch        : x86_64");
  _ ← println (bstr "  Uptime      : " ++ up ++ bstr "  (" ++ fmt_dec (NOW (ps_clock (y_ps (sh_sys h)))) ++ bstr " ticks @ 100Hz)");
  _ ← println (bstr "  Syscalls    : " ++ fmt_dec (k_count (sh_k h)));
  _ ← println (bstr "--- cpu ---");
  i ← acpi_view v;
  _ ← println (bstr "  CPU cores   : " ++ fmt_dec (lenZ (cores i)) ++ bstr "  (ACPI-detected)");
  _ ← println (bstr "  LAPIC addr  : " ++ fmt_0x (lapic_phys_addr i));
  _ ← println (bstr "--- memory ---");
  _ ← println (bstr "  RAM         : " ++ fmt_dec (u / 1024) ++ bstr " / " ++ fmt_dec (t / 1024) ++ bstr " MiB used");
  _ ← println (bstr "  Heap        : " ++ heap_line ++ bstr " KiB @ " ++ fmt_0x HEAP_START);
  _ ← println (bstr "--- tasks ---");
  _ ← println (bstr "  async tasks : " ++ fmt_dec (v_tasks v));
  _ ← println (bstr "  user procs  : " ++ fmt_dec (lenZ (table_list (y_table (sh_sys h)))));
  _ ← println (bstr "--- network ---");
  _ ← match v_nic v with
      | Some e => println (bstr "  NIC MAC     : " ++ fmt_mac (mac e))
      | None => mok tt
      end;
  match Net.ip_address (sh_net h) with
  | Some ip => println (bstr "  IPv4        : " ++ fmt_ip ip)
  | None => mok tt
  end.

(** ** Partitions and FAT32 *)

Definition cmd_lspart (v : SysView) : K unit :=
  match v_parts v with
  | None => println (bstr "Partitions non scannées (pas de disque ?)")
  | Some [] => println (bstr "Aucune partition détectée")
  | Some l =>
      _ ← println (bstr "  #  TYPE            START LBA    SECTORS       SIZE    FLAGS");
      mfor l (fun p =>
        println (bstr "  " ++ fmt_dec (pt_index p) ++ bstr "  " ++ pad_r 14 (part_name (part_type p)) ++ bstr "  " ++
                 pad_l 10 (fmt_dec (start_lba p)) ++ bstr "  " ++ pad_l 10 (fmt_dec (pt_sectors p)) ++ bstr "  " ++
                 pad_l 5 (fmt_dec (pt_sectors p * 512 / (1024 * 1024))) ++ bstr " MiB  " ++
                 (if bootable p then bstr "ACTIVE" else [])))
  end.

(** A command on the mounted file system. *)
Definition with_fat (c : Fat32 -> K unit) : K unit :=
  h ← mget;
  match k_fat (sh_k h) with
  | None => println (bstr "Aucun FAT32 monté")
  | Some fat => c fat
  end.

Definition cmd_fatinfo : K unit :=
  with_fat (fun fat =>
    let b := bpb fat in
    i ← mlift (info_string fat);
    _ ← println i;
    _ ← println (bstr "  bytes/sector     : " ++ fmt_dec (bytes_per_sector b));
    _ ← println (bstr "  sectors/cluster  : " ++ fmt_dec (sectors_per_cluster b));
    _ ← println (bstr "  reserved sectors : " ++ fmt_dec (reserved_sectors b));
    _ ← println (bstr "  FATs             : " ++ fmt_dec (num_fats b));
    _ ← println (bstr "  sectors/FAT      : " ++ fmt_dec (sectors_per_fat b));
    _ ← println (bstr "  root cluster     : " ++ fmt_dec (root_cluster b));
    _ ← println (bstr "  total sectors    : " ++ fmt_dec (total_sectors b));
    println (bstr "  volume label     : '" ++ volume_label b ++ bstr "'")).

Definition cmd_fatls (args : list str) : K unit :=
  with_fat (fun fat =>
    r ← call_disk (fat_ls fat (default (bstr "/") (head args)));
    match r with
    | Ok entries =>
        _ ← println (bstr "  TYPE      SIZE  NAME");
        _ ← mfor entries (fun e =>
              println (bstr "  " ++ (if is_dir e then bstr "<DIR>" else bstr "     ") ++ bstr "  " ++
                       pad_l 8 (fmt_dec (de_size e)) ++ bstr "  " ++ de_name e));
        println (bstr "  (" ++ fmt_dec (lenZ entries) ++ bstr " entrées)")
    | Err e => println (bstr "fatls: " ++ bstr e)
    end).

Definition cmd_fatcat (args : list str) : K unit :=
  match args with
  | [] => println (bstr "usage: fatcat <path>")
  | path :: _ =>
      with_fat (fun fat =>
        r ← call_disk (read_file fat path);
        match r with
        | Ok data =>
            match from_utf8 data with
            | Some s => print s
            | None =>
                _ ← println (bstr "(binaire, " ++ fmt_dec (lenZ data) ++ bstr " octets)");
                hexdump_first_rows data 16
            end
        | Err e => println (bstr "fatcat: " ++ bstr e)
        end)
  end.

(** ** Network *)

Definition cmd_ifconfig (v : SysView) : K unit :=
  match v_nic v with
  | None => println (bstr "  NIC     : aucun e1000 détecté")
  | Some e =>
      _ ← println (bstr "  MAC     : " ++ fmt_mac (mac e));
      _ ← println (bstr "  link    : " ++ (if socket_link_up (v_nic v) then bstr "UP" else bstr "DOWN"));
      h ← mget;
      _ ← match Net.ip_address (sh_net h) with
          | Some ip => println (bstr "  IPv4    : " ++ fmt_ip ip)
          | None => println (bstr "  IPv4    : non configurée")
          end;
      println (bstr "  gateway : 10.0.2.2 (QEMU default)")
  end.

Definition cmd_netstat : K unit :=
  h ← mget;
  match NET (sh_net h) with
  | Some _ => println (bstr "  sockets ouverts : " ++ fmt_dec (socket_count (world (sh_net h))))
  | None => println (bstr "  stack réseau non initialisé")
  end.

(** The echo loop; [rounds] bounds its turns. *)
Fixpoint ping_loop (rounds : nat) (sock start : Z) (w : W) : outcome (W * option (Z * Z)) :=
  match rounds with
  | O => Panic
  | S rounds =>
      d ← Net.uptime_ms w -! start;
      if 3000 <=? d then Ret (w, None) else
      let w := iface_poll (Net.uptime_ms w) w in
      if negb (sock_ok sock w) then Panic else
      let '(w, got) := if icmp_can_recv sock w then icmp_recv sock w else (w, None) in
      match got with
      | Some payload => elapsed ← Net.uptime_ms w -! start; Ret (w, Some (lenZ payload, elapsed))
      | None => ping_loop rounds sock start (hlt w)
      end
  end.

Definition on_net (c : W -> outcome (W * str)) : K unit :=
  h ← mget;
  '(w, out) ← mlift (c (world (sh_net h)));
  _ ← modify (fun h => set_sh_net (mkNet w (NET (sh_net h))) h);
  println out.

Definition echo_request (rounds : nat) (target : list Z) (w : W) : outcome (W * str) :=
  let '(w, sock) := icmp_new w in
  if negb (sock_ok sock w) then Panic else
  let w := icmp_bind sock 0x4321 w in
  match icmp_send_echo sock 0x4321 1 (bstr "rustkernel") target w with
  | None => Panic
  | Some w =>
      '(w, r) ← ping_loop rounds sock (Net.uptime_ms w) w;
      Ret (sock_remove sock w,
           match r with
           | Some (n, ms) => bstr "  réponse de " ++ fmt_ip target ++ bstr " : " ++ fmt_dec n ++ bstr " octets, temps=" ++
                             fmt_dec ms ++ bstr " ms"
           | None => bstr "  timeout (pas de réponse en 3s)"
           end)
  end.

Definition cmd_ping (v : SysView) (args : list str) : K unit :=
  match args with
  | [] => println (bstr "usage: ping <ip> (ex: ping 10.0.2.2)")
  | a :: _ =>
      let parts := str_split 46 a in
      if bool_decide (lenZ parts <> 4) then println (bstr "IP invalide") else
      let octets := omap (parse_uint 8) parts in
      if bool_decide (lenZ octets <> 4) then println (bstr "IP invalide") else
      _ ← println (bstr "PING " ++ fmt_ip octets ++ bstr " ...");
      h ← mget;
      match NET (sh_net h) with
      | Some _ => on_net (echo_request (v_rounds v) octets)
      | None => println (bstr "stack réseau non initialisé")
      end
  end.

(** ** Session and dispatch *)

Definition logout : K unit :=
  modify (fun h => mkShell (sh_sys h) (sh_net h) None true (sh_spawned h)).
Definition cmd_logout : K unit := _ ← logout; println (bstr "Session fermee.").

Definition cmd_help : K unit := print (
  bstr "Commandes disponibles:" ++ [10] ++
  bstr "  help         - cette aide" ++ [10] ++
  bstr "  ls           - liste les fichiers" ++ [10] ++
  bstr "  cat <path>   - affiche un fichier" ++ [10] ++
  bstr "  echo <...>   - répète ses arguments" ++ [10] ++
  bstr "  write <path> <...> - écrit du texte dans un fichier" ++ [10] ++
  bstr "  rm <path>    - supprime un fichier" ++ [10] ++
  bstr "  mem          - info mémoire (frames, heap)" ++ [10] ++
  bstr "  ps           - tâches asynchrones actives" ++ [10] ++
  bstr "  threads      - threads kernel (scheduler)" ++ [10] ++
  bstr "  yield        - cède le CPU (context switch)" ++ [10] ++
  bstr "  syscall <n>  - invoque un syscall directement" ++ [10] ++
  bstr "  uptime       - temps depuis le boot" ++ [10] ++
  bstr "  sleep <ms>   - dort N millisecondes" ++ [10] ++
  bstr "  clear        - efface l'écran" ++ [10] ++
  bstr "  bp           - déclenche un breakpoint (test)" ++ [10] ++
  bstr "  panic        - test du panic handler" ++ [10] ++
  bstr "  acpi         - résumé ACPI (CPU, LAPIC, overrides)" ++ [10] ++
  bstr "  lsapic       - détail Local APIC + I/O APICs" ++ [10] ++
  bstr "  lspci        - liste des devices PCI" ++ [10] ++
  bstr "  disk         - liste des disques ATA" ++ [10] ++
  bstr "  read <idx> <lba> - lit 1 secteur (hexdump)" ++ [10] ++
  bstr "  writeblk <idx> <lba> <byte> --force - écrit 1 secteur brut" ++ [10] ++
  bstr "  run <name|path> - lance un binaire user (search: /, /bin, /fat)" ++ [10] ++
  bstr "  which <name> - résout un binaire selon PATH" ++ [10] ++
  bstr "  path [show|set|add|reset] - gère le PATH userspace" ++ [10] ++
  bstr "  exec <path>  - lance un ELF userspace (ramfs puis FAT32)" ++ [10] ++
  bstr "  execfat <path> - lance un ELF userspace depuis FAT32" ++ [10] ++
  bstr "  userls       - liste les binaires user disponibles" ++ [10] ++
  bstr "  userdemo     - lance les programmes user de démo" ++ [10] ++
  bstr "  psu          - liste les process userspace" ++ [10] ++
  bstr "  killu <pid> <sig>  - envoie un signal à un process user" ++ [10] ++
  bstr "  sysinfo      - info système complète" ++ [10] ++
  bstr " --- Phase III : disque & réseau ---" ++ [10] ++
  bstr "  lspart       - liste les partitions du disque 0" ++ [10] ++
  bstr "  fatinfo      - info sur la partition FAT32 montée" ++ [10] ++
  bstr "  fatls [path] - liste un répertoire FAT32" ++ [10] ++
  bstr "  fatcat <path>- affiche un fichier FAT32" ++ [10] ++
  bstr "  ifconfig     - config réseau (IP, MAC, link)" ++ [10] ++
  bstr "  netstat      - statistiques réseau" ++ [10] ++
  bstr "  ping <ip>    - envoie un ICMP echo (polling)" ++ [10] ++
  bstr " --- Phase IV : comptes utilisateurs ---" ++ [10] ++
  bstr "  whoami       - affiche l'identité du process courant" ++ [10] ++
  bstr "  users        - liste les comptes dans /etc/passwd" ++ [10] ++
  bstr "  hash <texte> - calcule le SHA-256 d'une chaîne" ++ [10] ++
  bstr "  auth <user> <mdp> - teste l'authentification d'un compte" ++ [10] ++
  bstr "  logout       - ferme la session TTY" ++ [10] ++
  bstr " --- Phase V : userland ---" ++ [10] ++
  bstr "  init         - lance /sbin/init (userland ring 3)" ++ [10]).

Definition commands (v : SysView) (args : list str) : list (string * K unit) := [
  ("help", cmd_help); ("ls", cmd_ls); ("cat", cmd_cat args); ("echo", cmd_echo args); ("write", cmd_write args);
  ("rm", cmd_rm args); ("mem", cmd_mem); ("ps", cmd_ps v); ("threads", cmd_threads); ("yield", cmd_yield v);
  ("syscall", cmd_syscall v args); ("uptime", cmd_uptime); ("clear", cmd_clear); ("panic", mpanic);
  ("sleep", cmd_sleep args); ("bp", cmd_breakpoint v); ("acpi", cmd_acpi v); ("lsapic", cmd_lsapic v);
  ("lspci", cmd_lspci v); ("disk", cmd_disk v); ("read", cmd_read args); ("writeblk", cmd_writeblk args);
  ("run", cmd_run v args); ("which", cmd_which args); ("path", cmd_path args); ("exec", cmd_exec v args);
  ("execfat", cmd_execfat v args); ("userls", cmd_userls); ("userdemo", cmd_userdemo v); ("psu", cmd_psu);
  ("killu", cmd_killu args); ("sysinfo", cmd_sysinfo v); ("lspart", cmd_lspart v); ("fatinfo", cmd_fatinfo);
  ("fatls", cmd_fatls args); ("fatcat", cmd_fatcat args); ("ifconfig", cmd_ifconfig v); ("netstat", cmd_netstat);
  ("ping", cmd_ping v args); ("whoami", cmd_whoami); ("users", cmd_users); ("hash", cmd_hash args);
  ("auth", cmd_auth args); ("useradd", cmd_useradd args); ("userdel", cmd_userdel args); ("passwd", cmd_passwd args);
  ("save", cmd_save); ("logout", cmd_logout); ("init", cmd_init v)]%string.

(** [parts[0]] panics when the line has no word. *)
Definition execute (v : SysView) (line : list Z) : K unit :=
  match split_whitespace line with
  | [] => mpanic
  | cmd :: args =>
      match list_find (fun c => bstr c.1 = cmd) (commands v args) with
      | Some (_, (_, c)) => c
      | None => println (bstr "commande inconnue: '" ++ cmd ++ bstr "' (tape 'help')")
      end
  end.

End shell.
