(* ===== verification/ShellCorrect.v ===== *)
(** * Correctness of the shell

    What a command of the shell can change: none touches the session but
    [logout], which closes it.  A file written by a command is the file the
    next one shows. *)
From S2P Require Import Prelude Str Sha256 Phys FrameAllocator FrameRefcount Paging AddressSpace Signal ProcessTable Ipc Queue Gfx Elf Executor.
From S2P Require Import Time Process Ramfs BlockDev Persist Users Fat32 Part Ports Ata Thread Exec Fb Syscall Pci Acpi E1000 Net Http Shell.
Local Open Scope Z_scope.

Create HintDb shell.

Section shell_correct.
Context {D W : Type} `{ArrayQueue InputEventAbi} `{ArrayQueue Z} `{X86Paging} `{UserMem} `{BlockDev D}.
Context `{Smoltcp W} `{Icmp W}.
Local Abbreviation S := (shell (D := D) (W := W)).
Local Abbreviation K := (M (shell (D := D) (W := W)) unit).
Local Abbreviation V := (SysView (D := D)).

(** ** Printing *)

Definition say (x : str) (h : S) : S := set_sh_sys (print_console x (sh_sys h)) h.

Lemma say_nil (h : S) : say [] h = h.
Proof.
  destruct h as [[k f] n u l sp]. unfold say, set_sh_sys, print_console, set_y_k. cbn.
  rewrite (right_id_L [] (++)). by destruct k.
Qed.

Lemma say_say x y (h : S) : say y (say x h) = say (x ++ y) h.
Proof. unfold say, set_sh_sys, print_console, set_y_k. cbn. by rewrite <- (assoc_L (++)). Qed.
Lemma print_bind {A} x (c : unit -> K A) h : (print x ≫= c) h = c tt (say x h).
Proof. done. Qed.
Lemma println_eq x (h : S) : println x h = Ret (say (x ++ [10]) h, Ok tt).
Proof. done. Qed.
Lemma println_bind {A} x (c : unit -> K A) h : (println x ≫= c) h = c tt (say (x ++ [10]) h).
Proof. done. Qed.

Lemma get_bind {A} (c : S -> K A) (h : S) : (mget ≫= c) h = c h h.
Proof. done. Qed.
Lemma modify_bind {A} f (c : unit -> K A) (h : S) : (modify f ≫= c) h = c tt (f h).
Proof. done. Qed.
Lemma lift_bind {A B} (o : outcome A) (c : A -> K B) (h : S) :
  (mlift o ≫= c) h = match o with Ret a => c a h | Panic => Panic end.
Proof. by destruct o. Qed.
Lemma bind_ret {A B} (c : K A) (f : A -> K B) (h h' : S) a : c h = Ret (h', Ok a) -> (c ≫= f) h = f a h'.
Proof. intros E. unfold mbind, M_bind, mbindM. by rewrite E. Qed.
Lemma bind_inv {A B} (c : K A) (f : A -> K B) (h h' : S) b :
  (c ≫= f) h = Ret (h', Ok b) -> exists h1 a, c h = Ret (h1, Ok a) /\ f a h1 = Ret (h', Ok b).
Proof. unfold mbind, M_bind, mbindM. destruct (c h) as [[h1 [a|e]]|]; try done. by exists h1, a. Qed.

(** ** What the commands leave alone *)

(** The session is the same after [c], whatever it returns. *)
Definition keeps {A} (c : K A) : Prop :=
  forall h h' r, c h = Ret (h', r) -> CURRENT_USER h' = CURRENT_USER h /\ LOGOUT_REQUESTED h' = LOGOUT_REQUESTED h.

Lemma keeps_ok {A} (a : A) : keeps (mok a).
Proof. intros h h' r Hr. by injection Hr as <- <-. Qed.
Lemma keeps_panic {A} : keeps (mpanic (A := A)).
Proof. intros h h' r Hr. done. Qed.
Lemma keeps_get : keeps mget.
Proof. intros h h' r Hr. by injection Hr as <- <-. Qed.
Lemma keeps_lift {A} (o : outcome A) : keeps (mlift o).
Proof. intros h h' r. unfold mlift. destruct o; [|done]. intros Hr. by injection Hr as <- <-. Qed.
Lemma keeps_modify f :
  (forall h, CURRENT_USER (f h) = CURRENT_USER h /\ LOGOUT_REQUESTED (f h) = LOGOUT_REQUESTED h) -> keeps (modify f).
Proof. intros Hf h h' r Hr. injection Hr as <- <-. apply Hf. Qed.
Lemma keeps_print x : keeps (print x).
Proof. by apply keeps_modify. Qed.
Lemma keeps_println x : keeps (println x).
Proof. by apply keeps_modify. Qed.
Lemma keeps_bind {A B} (c : K A) (f : A -> K B) : keeps c -> (forall a, keeps (f a)) -> keeps (c ≫= f).
Proof.
  intros Hc Hf h h' r. unfold mbind, M_bind, mbindM. destruct (c h) as [[h1 [a|e]]|] eqn:E; [| |done].
  - intros [-> ->]%Hf. by eapply Hc.
  - intros Hr. injection Hr as <- <-. by eapply Hc.
Qed.
Lemma keeps_for {A} (l : list A) (f : A -> K unit) : (forall a, keeps (f a)) -> keeps (mfor l f).
Proof. intros Hf. induction l as [|x l IH]; [apply keeps_ok|]. apply (keeps_bind (f x) (fun _ => mfor l f)); auto. Qed.
Lemma keeps_zoom {T E A} (get : S -> T) (put : T -> S -> S) (c : M T E A) :
  (forall t h, CURRENT_USER (put t h) = CURRENT_USER h /\ LOGOUT_REQUESTED (put t h) = LOGOUT_REQUESTED h) ->
  keeps (zoom get put (try_ c)).
Proof.
  intros Hp h h' r. unfold zoom, try_. destruct (c (get h)) as [[t q]|]; [|done]. intros Hr.
  injection Hr as <- <-. apply Hp.
Qed.
Lemma keeps_k {E A} (c : M (kst D) E A) : keeps (call_k c).
Proof. by apply keeps_zoom. Qed.
Lemma keeps_disk {E A} (c : M D E A) : keeps (call_disk c).
Proof. by apply keeps_zoom. Qed.
Lemma keeps_pst {E A} (c : M (pst D) E A) : keeps (call_pst c).
Proof. by apply keeps_zoom. Qed.

(** Goes through a command. *)
Ltac keeps_tac :=
  repeat first
    [ apply keeps_ok | apply keeps_panic | apply keeps_get | apply keeps_lift | apply keeps_println | apply keeps_print
    | apply keeps_k | apply keeps_disk | apply keeps_pst | apply keeps_bind | apply keeps_for
    | apply keeps_modify; done | progress intros | progress cbv beta zeta | case_match ].

Lemma keeps_hexdump buf n : keeps (hexdump_first_rows buf n).
Proof. unfold hexdump_first_rows. keeps_tac. Qed.
Lemma keeps_uptime : keeps uptime_text.
Proof. unfold uptime_text. keeps_tac. Qed.
Lemma keeps_run_users v : keeps (run_users v).
Proof. unfold run_users. keeps_tac. Qed.
Lemma keeps_launch v tag c : keeps (launch v tag c).
Proof. unfold launch. keeps_tac; apply keeps_run_users. Qed.
Lemma keeps_demo v path : keeps (demo_one v path).
Proof. unfold demo_one. keeps_tac; apply keeps_run_users. Qed.
Lemma keeps_with_fat c : (forall fat, keeps (c fat)) -> keeps (with_fat c).
Proof. intros Hc. unfold with_fat. keeps_tac. apply Hc. Qed.

Ltac keeps_cmd :=
  repeat first
    [ apply keeps_hexdump | apply keeps_uptime | apply keeps_launch | apply keeps_demo | apply keeps_with_fat
    | apply keeps_run_users | progress keeps_tac ].

Lemma keeps_commands v args nm c : (nm, c) ∈ commands v args -> nm <> "logout"%string -> keeps c.
Proof.
  unfold commands. intros Hin Hn.
  repeat (apply elem_of_cons in Hin as [Hin|Hin]; [injection Hin as -> ->|]);
    first [ by apply elem_of_nil in Hin | done | idtac ].
  all: cbv delta [cmd_ls cmd_cat cmd_echo cmd_write cmd_rm cmd_mem cmd_ps cmd_threads cmd_yield cmd_syscall cmd_uptime
    cmd_clear cmd_sleep cmd_breakpoint cmd_acpi cmd_lsapic cmd_lspci cmd_disk cmd_read cmd_writeblk cmd_run cmd_which
    cmd_path cmd_exec cmd_execfat cmd_userls cmd_userdemo cmd_psu cmd_killu cmd_sysinfo cmd_lspart cmd_fatinfo cmd_fatls
    cmd_fatcat cmd_ifconfig cmd_netstat cmd_ping cmd_whoami cmd_users cmd_hash cmd_auth cmd_useradd cmd_userdel cmd_passwd
    cmd_save cmd_init acpi_view on_net].
  all: keeps_cmd.
Qed.

(** A command keeps the session, or closes it. *)
Lemma execute_session v line h h' r :
  execute v line h = Ret (h', r) ->
  (CURRENT_USER h' = CURRENT_USER h /\ LOGOUT_REQUESTED h' = LOGOUT_REQUESTED h) \/
  (CURRENT_USER h' = None /\ LOGOUT_REQUESTED h' = true).
Proof.
  unfold execute. destruct (split_whitespace line) as [|cmd args]; [done|].
  destruct (list_find _ _) as [[i [nm c]]|] eqn:E.
  - apply list_find_Some in E as (Hl & _ & _). apply list_elem_of_lookup_2 in Hl.
    destruct (decide (nm = "logout"%string)) as [->|Hn].
    + intros Hr. right. unfold commands in Hl.
      repeat (apply elem_of_cons in Hl as [Hl|Hl]; [injection Hl; intros; try done|]); [|by apply elem_of_nil in Hl].
      subst c. injection Hr as <- <-. done.
    + intros Hr. left. by eapply (keeps_commands v args nm c).
  - intros Hr. left. by eapply keeps_println.
Qed.


(** ** Words *)

Definition word (w : list Z) : Prop := w <> [] /\ forallb (fun b => negb (unicode_white b)) w = true.

Lemma str_words_block sep w : w <> [] -> forallb (fun b => negb (sep b)) w = true -> str_words sep w = [w].
Proof.
  intros Hne Hw. induction w as [|b w IH]; [done|]. cbn [forallb] in Hw. apply andb_prop in Hw as [Hb%negb_true_iff Hw].
  cbn [str_words]. rewrite Hb. destruct w as [|d w]; [done|]. rewrite (IH ltac:(done) Hw).
  cbn [forallb head] in *. apply andb_prop in Hw as [Hd%negb_true_iff _]. by rewrite Hd.
Qed.

Lemma split_join ws : ws <> [] -> Forall word ws -> split_whitespace (str_join 32 ws) = text <$> ws.
Proof.
  intros Hne Hws. unfold split_whitespace. f_equal. induction Hws as [|w ws [Hn Hw] Hws IH]; [done|].
  destruct ws as [|w' ws]; [by apply str_words_block|].
  cbn [str_join]. rewrite str_words_word by done. f_equal. by apply IH.
Qed.

Lemma execute_words v nm args (h : S) i s c :
  word nm -> Forall word args -> list_find (fun c => bstr c.1 = text nm) (commands v (text <$> args)) = Some (i, (s, c)) ->
  execute v (str_join 32 (nm :: args)) h = c h.
Proof.
  intros Hn Ha E. unfold execute. rewrite split_join by (try done; by constructor). cbn [fmap list_fmap]. by rewrite E.
Qed.

(** ** Files *)

Lemma read_write path data fs : fs_read path (fs_write path data fs) = Ok data.
Proof. unfold fs_read, fs_write. by rewrite lookup_insert_eq. Qed.

(** Property. The file commands agree.  After [write path w1 .. wn], [cat path]
    prints the words joined by blanks and ended by a newline, exactly;
    the file system is the old one with that one file set, and the rest of
    the kernel is as it was.  After [rm path], [cat path] finds no file, and
    every other file is still there. *)
Theorem shell_write_cat v path w ws (h : S) :
  word path -> Forall word (w :: ws) -> Forall (fun w => utf8_ok (text w) = true) (w :: ws) ->
  let content := str_join 32 (text <$> w :: ws) ++ [10] in
  exists msg,
    let h1 := say msg (set_sh_fs (fs_write (text path) content (sh_fs h)) h) in
    let h2 := set_sh_fs (delete (text path) (sh_fs h)) (say content h1) in
    execute v (str_join 32 (bstr "write" :: path :: w :: ws)) h = Ret (h1, Ok tt) /\
    execute v (str_join 32 [bstr "cat"; path]) h1 = Ret (say content h1, Ok tt) /\
    execute v (str_join 32 [bstr "rm"; path]) (say content h1) = Ret (h2, Ok tt) /\
    execute v (str_join 32 [bstr "cat"; path]) h2 =
      Ret (say (bstr "cat: " ++ text path ++ bstr ": fichier introuvable" ++ [10]) h2, Ok tt).
Proof.
  intros Hp Hw Hu content.
  assert (from_utf8 content = Some content) as Hc.
  { unfold from_utf8, content. rewrite utf8_app; [done|]. apply str_join_utf8; [done|]. by apply Forall_fmap. }
  assert (Forall word [path]) as Hp1 by (constructor; [done|constructor]).
  eexists. cbv zeta. split_and!.
  - rewrite (execute_words v (bstr "write") (path :: w :: ws) h _ _ _ ltac:(by split) ltac:(by constructor) eq_refl).
    cbn [fmap list_fmap cmd_write]. cbv zeta. rewrite modify_bind, println_eq. reflexivity.
  - rewrite (execute_words v (bstr "cat") [path] _ _ _ _ ltac:(by split) Hp1 eq_refl).
    cbn [fmap list_fmap cmd_cat]. rewrite get_bind. change (sh_fs (say _ (set_sh_fs ?f _))) with f.
    rewrite read_write, Hc. reflexivity.
  - rewrite (execute_words v (bstr "rm") [path] _ _ _ _ ltac:(by split) Hp1 eq_refl).
    cbn [fmap list_fmap cmd_rm]. rewrite get_bind. change (sh_fs (say _ (say _ (set_sh_fs ?f _)))) with f.
    unfold fs_remove, fs_write. rewrite lookup_insert_eq, delete_insert_eq. reflexivity.
  - rewrite (execute_words v (bstr "cat") [path] _ _ _ _ ltac:(by split) Hp1 eq_refl).
    cbn [fmap list_fmap cmd_cat]. rewrite get_bind. change (sh_fs (set_sh_fs ?f _)) with f.
    unfold fs_read. rewrite lookup_delete_eq, println_eq, <- !(assoc_L (++)). reflexivity.
Qed.
End shell_correct.
#[export] Hint Resolve keeps_ok keeps_panic keeps_get keeps_lift keeps_print keeps_println keeps_bind keeps_for keeps_k keeps_disk keeps_pst : shell.
