(* ===== verification/Tty.v ===== *)
(** * The terminal session

    The login prompt of kernel/src/shell/tty_login.rs and the line editor
    of [run] in kernel/src/shell/mod.rs.  The task is suspended on the next
    key or on a timer; a [tty] says where, with the local variables live
    there.  [press] is a key the keyboard decodes, [wake] the end of the
    timer, [poll] the task running until it waits again: it takes the keys in
    their order, and [drain_queue] after a login drops those already typed. *)
From S2P Require Import Prelude Str Sha256 Phys FrameAllocator FrameRefcount Paging AddressSpace Signal ProcessTable Ipc Queue Gfx Elf Executor.
From S2P Require Import Time Process Ramfs BlockDev Persist Users Fat32 Part Ports Ata Thread Exec Fb Syscall Pci Acpi E1000 Net Http Keyboard Shell.
Local Open Scope Z_scope.

Abbreviation MAX_ATTEMPTS := 3 (only parsing).
Abbreviation HOSTNAME := "lunux-os"%string (only parsing).
Abbreviation CARGO_PKG_VERSION := "0.1.0"%string (only parsing).

(** Where the task waits: [Boot] is the sleep of [tty_login::run], [Pause]
    the one after three failures, [Login], [Password] and [Edit] the next key. *)
Inductive tty :=
  | Boot
  | Login (attempts : Z) (line : list Z)
  | Password (attempts : Z) (login line : list Z)
  | Pause
  | Edit (history : list (list Z)) (hist_cursor : option Z) (line : list Z).

(** [line.pop()] *)
Definition pop (l : list Z) : option (list Z) := match l with [] => None | _ => Some (removelast l) end.

Section tty.
Context {D W : Type} `{ArrayQueue InputEventAbi} `{ArrayQueue Z} `{X86Paging} `{UserMem} `{BlockDev D}.
Context `{Smoltcp W} `{Icmp W}.
Local Abbreviation S := (shell (D := D) (W := W)).
Local Abbreviation K := (M (shell (D := D) (W := W)) unit).
Local Abbreviation V := (SysView (D := D)).

Definition set_session (u : option User) (l : bool) (h : S) : S := mkShell (sh_sys h) (sh_net h) u l (sh_spawned h).
Definition current_username (h : S) : str := match CURRENT_USER h with Some u => u_name u | None => bstr "?" end.
Definition erase : str := [8; 32; 8].

(** ** Login *)

(** A key of [read_line]: [inl] is the line edited, [inr] the line returned. *)
Definition read_line_key (hide : bool) (ch : Z) (line : list Z) : K (list Z + list Z) :=
  if bool_decide (ch = 10) || bool_decide (ch = 13) then _ ← println []; mok (inr line)
  else if bool_decide (ch = 8) || bool_decide (ch = 127) then
    match pop line with
    | Some line => _ ← print erase; mok (inl line)
    | None => mok (inl line)
    end
  else if ch <? 0x20 then mok (inl line)
  else _ ← print (if hide then bstr "*" else encode_char ch); mok (inl (line ++ [ch])).

Definition print_motd : K unit :=
  _ ← println [];
  _ ← println (bstr HOSTNAME ++ bstr " (" ++ bstr CARGO_PKG_VERSION ++ bstr ") tty1");
  _ ← println [];
  _ ← println (bstr "Comptes par defaut :  root / root     |    lunux / lunux");
  println [].

Definition print_welcome (u : User) : K unit :=
  _ ← println [];
  _ ← println (bstr "Bienvenue sur Rust Kernel, " ++ u_name u ++ bstr " !");
  _ ← println (bstr "uid=" ++ fmt_dec (u_uid u) ++ bstr "  home=" ++ u_home u ++ bstr "  shell=" ++ u_shell u);
  _ ← (if u_uid u =? 0 then println (bstr "Tu es connecte en tant que ROOT. Fais attention.") else mok tt);
  _ ← println [];
  _ ← println (bstr "Tape 'help' pour la liste des commandes, 'logout' pour se deconnecter.");
  println [].

Definition login_prompt : K unit := print ([10] ++ bstr HOSTNAME ++ bstr " login: ").
Definition print_prompt : K unit := h ← mget; print (current_username h ++ bstr "> ").

(** [tty_login::run] up to its first wait. *)
Definition login_start : K tty := _ ← modify (fun h => set_session (CURRENT_USER h) false h); mok Boot.

(** The rest of [shell::run] after [tty_login::run] up to the first key. *)
Definition session_start : K tty :=
  _ ← println [];
  _ ← println (bstr "Rust Kernel Shell v0.2. Tape 'help' pour la liste des commandes.");
  _ ← println (bstr "Fleches haut/bas = historique.");
  _ ← print_prompt;
  mok (Edit [] None []).

(** The password is typed: [authenticate], and the attempts counted. *)
Definition try_login (attempts : Z) (login password : list Z) : K tty :=
  h ← mget;
  r ← mlift (authenticate (text login) (text password) (sh_fs h));
  match r with
  | Some u =>
      _ ← modify (fun h => set_session (Some u) (LOGOUT_REQUESTED h) h);
      _ ← print_welcome u;
      session_start
  | None =>
      let attempts := attempts + 1 in
      _ ← println ([10] ++ bstr "Login incorrect.");
      if MAX_ATTEMPTS <=? attempts then _ ← println (bstr "Trop d'echecs. Pause 5 secondes..."); mok Pause
      else _ ← login_prompt; mok (Login attempts [])
  end.

(** ** The line editor *)

Definition replace_line (line new_line : list Z) : K (list Z) :=
  _ ← mfor (seqZ 0 (lenZ (text line))) (fun _ => print erase);
  _ ← print (text new_line);
  mok new_line.

Definition push_history (line : list Z) (history : list (list Z)) : list (list Z) :=
  if bool_decide (last history = Some line) then history
  else let history := history ++ [line] in
       if 32 <? lenZ history then drop 1 history else history.

Definition edit_key (v : V) (ch : Z) (history : list (list Z)) (cur : option Z) (line : list Z) : K tty :=
  if bool_decide (ch = 10) || bool_decide (ch = 13) then
    _ ← println [];
    if bool_decide (line = []) then _ ← print_prompt; mok (Edit history None [])
    else
      let history := push_history line history in
      _ ← execute v line;
      h ← mget;
      if LOGOUT_REQUESTED h then login_start else _ ← print_prompt; mok (Edit history None [])
  else if bool_decide (ch = 8) || bool_decide (ch = 127) then
    match pop line with
    | Some line => _ ← print erase; mok (Edit history cur line)
    | None => mok (Edit history cur line)
    end
  else if bool_decide (ch = KEY_UP) then
    if bool_decide (history = []) then mok (Edit history cur line) else
    let n := match cur with None => lenZ history - 1 | Some i => if i =? 0 then 0 else i - 1 end in
    new ← mlift (idx history n);
    line ← replace_line line new;
    mok (Edit history (Some n) line)
  else if bool_decide (ch = KEY_DOWN) then
    match cur with
    | None => mok (Edit history cur line)
    | Some i =>
        if lenZ history <=? i + 1 then line ← replace_line line []; mok (Edit history None line)
        else new ← mlift (idx history (i + 1));
             line ← replace_line line new;
             mok (Edit history (Some (i + 1)) line)
    end
  else if ch <? 0x20 then mok (Edit history cur line)
  else _ ← print (encode_char ch); mok (Edit history cur (line ++ [ch])).

(** ** The task *)

Definition on_key (v : V) (ch : Z) (t : tty) : K tty :=
  match t with
  | Boot | Pause => mok t
  | Login a line =>
      r ← read_line_key false ch line;
      match r with
      | inl line => mok (Login a line)
      | inr [] => _ ← login_prompt; mok (Login a [])
      | inr login => _ ← print (bstr "Password: "); mok (Password a login [])
      end
  | Password a login line =>
      r ← read_line_key true ch line;
      match r with
      | inl line => mok (Password a login line)
      | inr password => try_login a login password
      end
  | Edit history cur line => edit_key v ch history cur line
  end.

Definition awake (t : tty) : bool := match t with Boot | Pause => false | _ => true end.
Definition in_session (t : tty) : bool := match t with Edit _ _ _ => true | _ => false end.

(** The keys waiting, taken until there is none or the task sleeps. *)
Fixpoint poll (v : V) (keys : list Z) (t : tty) : K (tty * list Z) :=
  match keys with
  | [] => mok (t, [])
  | ch :: rest =>
      if awake t then
        t' ← on_key v ch t;
        if in_session t' && negb (in_session t) then mok (t', []) else poll v rest t'
      else mok (t, keys)
  end.

(** The timer of the task fires. *)
Definition wake (t : tty) : K tty :=
  match t with
  | Boot => _ ← print_motd; _ ← login_prompt; mok (Login 0 [])
  | Pause => _ ← login_prompt; mok (Login 0 [])
  | _ => mok t
  end.

(** [Other]: the rest of the kernel runs while the task waits. *)
Inductive tty_event := Press (ch : Z) | Wake | Poll (v : V) | Other (f : sys D -> sys D).
Definition tty_step (e : tty_event) (st : tty * list Z) : K (tty * list Z) :=
  match e with
  | Press ch => mok (st.1, st.2 ++ [ch])
  | Wake => t ← wake st.1; mok (t, st.2)
  | Poll v => poll v st.2 st.1
  | Other f => _ ← modify (fun h => set_sh_sys (f (sh_sys h)) h); mok st
  end.
Fixpoint tty_run (es : list tty_event) (st : tty * list Z) : K (tty * list Z) :=
  match es with
  | [] => mok st
  | e :: es => st ← tty_step e st; tty_run es st
  end.

(** [shell::run] *)
Definition shell_run (es : list tty_event) : K (tty * list Z) := t ← login_start; tty_run es (t, []).

End tty.
