(* ===== verification/TtyCorrect.v ===== *)
(** * Correctness of the terminal session

    A session is open exactly when an account is recorded, and the account
    was accepted by [authenticate] on the files of that moment; a name and a
    password typed at the prompt open the session, the password never
    shown; the line on the screen is the line the editor holds. *)
From S2P Require Import Prelude Str Sha256 Phys FrameAllocator FrameRefcount Paging AddressSpace Signal ProcessTable Ipc Queue Gfx Elf Executor.
From S2P Require Import Time Process Ramfs BlockDev Persist Users Fat32 Part Ports Ata Thread Exec Fb Syscall Pci Acpi E1000 Net Http Keyboard Shell ShellCorrect Tty.
Local Open Scope Z_scope.

Section tty_correct.
Context {D W : Type} `{ArrayQueue InputEventAbi} `{ArrayQueue Z} `{X86Paging} `{UserMem} `{BlockDev D}.
Context `{Smoltcp W} `{Icmp W}.
Local Abbreviation S := (shell (D := D) (W := W)).
Local Abbreviation K := (M (shell (D := D) (W := W)) unit).
Local Abbreviation V := (SysView (D := D)).

(** ** The session *)

Definition session_ok (t : tty) (h : S) : Prop :=
  LOGOUT_REQUESTED h = false /\ (if in_session t then is_Some (CURRENT_USER h) else CURRENT_USER h = None).

(** A key at the login prompts only prints, or opens the session of an
    account that [authenticate] accepts. *)
Definition login_step (h h' : S) (t' : tty) : Prop :=
  (in_session t' = false /\ exists out, h' = say out h) \/
  (in_session t' = true /\ exists out u login pw, h' = say out (set_session (Some u) (LOGOUT_REQUESTED h) h) /\
     authenticate (text login) (text pw) (sh_fs h) = Ret (Some u)).

(** [c] returns [a] and only prints. *)
Definition says {A} (c : K A) (a : A) : Prop := forall h, exists out, c h = Ret (say out h, Ok a).
Lemma says_ok {A} (a : A) : says (mok a) a.
Proof. intros h. exists []. by rewrite say_nil. Qed.
Lemma says_print x : says (print x) tt.
Proof. by exists x. Qed.
Lemma says_println x : says (println x) tt.
Proof. by exists (x ++ [10]). Qed.
Lemma says_bind {A B} (c : K A) (f : A -> K B) a b : says c a -> says (f a) b -> says (c ≫= f) b.
Proof.
  intros Hc Hf h. destruct (Hc h) as [o1 E1], (Hf (say o1 h)) as [o2 E2]. exists (o1 ++ o2).
  unfold mbind, M_bind, mbindM. by rewrite E1, E2, say_say.
Qed.
Lemma says_prompt : says print_prompt tt.
Proof. intros h. by eexists. Qed.

Ltac says_tac :=
  repeat first [ apply says_ok | apply says_print | apply says_println | apply says_prompt
               | eapply says_bind; [|cbv beta] | case_match ].

Lemma says_session_start : says session_start (Edit [] None []).
Proof. unfold session_start. says_tac. Qed.
Lemma says_welcome u : says (print_welcome u) tt.
Proof. unfold print_welcome. says_tac. Qed.
Lemma says_read_line hide ch line : exists x, says (read_line_key hide ch line) x.
Proof. unfold read_line_key. repeat case_match; eexists; says_tac. Qed.
Lemma says_wake t : exists t', says (wake t) t' /\ in_session t' = in_session t.
Proof. destruct t; cbn [wake]; unfold print_motd, login_prompt; eexists; (split; [says_tac|done]). Qed.

Lemma try_login_step a login pw h h' t' :
  try_login a login pw h = Ret (h', Ok t') -> login_step h h' t'.
Proof.
  unfold try_login. rewrite get_bind, lift_bind. intros Hr.
  destruct (authenticate _ _ _) as [[u|]|] eqn:E; [| |done].
  - right. destruct (says_bind (print_welcome u) (fun _ => session_start) tt _ (says_welcome u) says_session_start
                       (set_session (Some u) (LOGOUT_REQUESTED h) h)) as [out Eo].
    rewrite modify_bind, Eo in Hr. injection Hr as <- <-. split; [done|]. by exists out, u, login, pw.
  - left. rewrite println_bind in Hr. unfold login_prompt in Hr.
    case_match; rewrite ?println_bind, ?print_bind, say_say in Hr; injection Hr as <- <-; (split; [done|by eexists]).
Qed.

Lemma login_key v ch t h h' t' :
  in_session t = false -> on_key v ch t h = Ret (h', Ok t') -> login_step h h' t'.
Proof.
  intros Ht. destruct t as [|a line|a login line| |]; try done; cbn [on_key]; intros Hr.
  - injection Hr as <- <-. left. split; [done|]. exists []. by rewrite say_nil.
  - destruct (says_read_line false ch line) as [x Hx]. destruct (Hx h) as [o E].
    rewrite (bind_ret _ _ _ _ _ E) in Hr. left.
    destruct x as [l|[|c l]]; injection Hr as <- <-; (split; [done|]).
    + by eexists.
    + exists (o ++ ([10] ++ bstr HOSTNAME ++ bstr " login: ")). by rewrite <- say_say.
    + exists (o ++ bstr "Password: "). by rewrite <- say_say.
  - destruct (says_read_line true ch line) as [x Hx]. destruct (Hx h) as [o E].
    rewrite (bind_ret _ _ _ _ _ E) in Hr.
    destruct x as [l|l]; [left; injection Hr as <- <-; split; [done|by eexists]|].
    apply try_login_step in Hr as [[Hs [out ->]]|[Hs (out & u & lg & pw & -> & Ha)]]; [left|right]; (split; [done|]).
    + exists (o ++ out). by rewrite say_say.
    + exists (o ++ out), u, lg, pw. split; [|done]. by rewrite <- say_say.
  - injection Hr as <- <-. left. split; [done|]. exists []. by rewrite say_nil.
Qed.

(** [c] keeps the session and stays in the editor. *)
Definition stays (c : K tty) : Prop :=
  forall h h' t, c h = Ret (h', Ok t) ->
    CURRENT_USER h' = CURRENT_USER h /\ LOGOUT_REQUESTED h' = LOGOUT_REQUESTED h /\ in_session t = true.
Lemma stays_ok hi cur line : stays (mok (Edit hi cur line)).
Proof. intros h h' t Hr. by injection Hr as <- <-. Qed.
Lemma stays_bind {A} (c : K A) (f : A -> K tty) : keeps c -> (forall a, stays (f a)) -> stays (c ≫= f).
Proof. intros Hc Hf h h' t (h1 & a & E & (-> & -> & ?)%Hf)%bind_inv. by apply Hc in E as [-> ->]. Qed.

Lemma keeps_prompt : keeps (print_prompt : K unit).
Proof. unfold print_prompt. apply keeps_bind; intros; [apply keeps_get|apply keeps_print]. Qed.
Lemma keeps_replace l n : keeps (replace_line l n : K (list Z)).
Proof. unfold replace_line. repeat (apply keeps_bind; intros); [apply keeps_for; intros|..]; auto with shell. Qed.

Ltac stays_tac :=
  repeat first [ apply stays_ok | apply keeps_print | apply keeps_println | apply keeps_prompt | apply keeps_replace
               | apply keeps_lift | apply stays_bind; intros | case_match ].

(** Within a session the account stays, or the session closes. *)
Lemma edit_session v ch hi cur line h h' t' :
  LOGOUT_REQUESTED h = false -> edit_key v ch hi cur line h = Ret (h', Ok t') ->
  LOGOUT_REQUESTED h' = false /\
  (in_session t' = true /\ CURRENT_USER h' = CURRENT_USER h \/ t' = Boot /\ CURRENT_USER h' = None).
Proof.
  intros Hl. unfold edit_key.
  assert (forall c, stays c -> c h = Ret (h', Ok t') ->
    LOGOUT_REQUESTED h' = false /\
    (in_session t' = true /\ CURRENT_USER h' = CURRENT_USER h \/ t' = Boot /\ CURRENT_USER h' = None)) as Hst.
  { intros c Hc (Hu & -> & Hi)%Hc. auto. }
  destruct (_ || _).
  2: { apply Hst. stays_tac. }
  rewrite println_bind. case_bool_decide.
  - intros (-> & -> & ?)%stays_bind; [auto|apply keeps_prompt|intros; apply stays_ok].
  - cbv zeta. intros (h1 & [] & E & Hr)%bind_inv. apply execute_session in E. rewrite get_bind in Hr.
    destruct E as [[Hu Hlo]|[Hu Hlo]].
    + change (LOGOUT_REQUESTED h1 = LOGOUT_REQUESTED h) in Hlo. rewrite Hlo, Hl in Hr.
      apply stays_bind in Hr as (-> & -> & ?); [|apply keeps_prompt|intros; apply stays_ok].
      split; [congruence|]. left. by rewrite Hu.
    + rewrite Hlo in Hr. unfold login_start in Hr. rewrite modify_bind in Hr. injection Hr as <- <-. auto.
Qed.

(** ** The task *)

Definition accepted (h : S) (u : User) : Prop :=
  exists login pw, authenticate (text login) (text pw) (sh_fs h) = Ret (Some u).

Lemma poll_login v keys : forall t q h h' t',
  in_session t = false -> session_ok t h -> poll v keys t h = Ret (h', Ok (t', q)) ->
  session_ok t' h' /\ (forall u, CURRENT_USER h' = Some u -> accepted h u).
Proof.
  induction keys as [|ch keys IH]; intros t q h h' t' Ht [Hl Hu] Hr; cbn [poll] in Hr.
  - injection Hr as <- <- <-. split; [done|]. rewrite Ht in Hu. congruence.
  - destruct (awake t); [|injection Hr as <- <- <-; split; [done|rewrite Ht in Hu; congruence]].
    apply bind_inv in Hr as (h1 & t1 & E & Hr). apply login_key in E; [|done]. rewrite Ht in *.
    destruct E as [[Hs [out ->]]|[Hs (out & u & login & pw & -> & Ha)]]; rewrite Hs in Hr; cbn in Hr.
    + eapply IH in Hr as [Hok Hacc]; [|done|by split; [|rewrite Hs]]. split; [done|]. exact Hacc.
    + injection Hr as <- <- <-. split; [split; [done|by rewrite Hs]|].
      intros ? [= <-]. by exists login, pw.
Qed.

Lemma poll_session v keys : forall t q h h' t',
  in_session t = true -> session_ok t h -> poll v keys t h = Ret (h', Ok (t', q)) ->
  session_ok t' h' /\ (forall u, CURRENT_USER h' = Some u -> CURRENT_USER h = Some u).
Proof.
  induction keys as [|ch keys IH]; intros t q h h' t' Ht [Hl Hu] Hr; cbn [poll] in Hr.
  - by injection Hr as <- <- <-.
  - destruct t as [| | | |hi cur line]; try done. cbn [awake on_key] in Hr.
    apply bind_inv in Hr as (h1 & t1 & [Hl1 E]%edit_session & Hr); [|done].
    rewrite andb_false_r in Hr. destruct E as [[Hs Hu1]|[-> Hu1]].
    + eapply IH in Hr as [Hok Hacc]; [|done|split; [done|]]; rewrite ?Hs, Hu1 in *; done.
    + destruct keys; injection Hr as <- <- <-; (split; [by split|]); congruence.
Qed.

Lemma step_session e t q h h' t' q' :
  session_ok t h -> tty_step e (t, q) h = Ret (h', Ok (t', q')) ->
  session_ok t' h' /\ (forall u, CURRENT_USER h' = Some u -> CURRENT_USER h = Some u \/ in_session t = false /\ accepted h u).
Proof.
  intros Hok. destruct e as [ch| |v|f]; cbn [tty_step fst snd]; intros Hr.
  - injection Hr as <- <- <-. auto.
  - apply bind_inv in Hr as (h1 & t1 & E & Hr). injection Hr as <- <- <-.
    destruct (says_wake t) as (t2 & Hw & Hi). destruct (Hw h) as [o Eo]. rewrite Eo in E. injection E as <- <-.
    unfold session_ok. rewrite Hi. auto.
  - destruct (in_session t) eqn:Ht.
    + apply poll_session in Hr as [? Hc]; auto.
    + apply poll_login in Hr as [? Hc]; auto.
  - injection Hr as <- <- <-. auto.
Qed.

Lemma tty_run_snoc es e st (h : S) : tty_run (es ++ [e]) st h = (tty_run es st ≫= tty_step e) h.
Proof.
  revert st h. induction es as [|e0 es IH]; intros st h; cbn [app tty_run].
  - unfold mbind, M_bind, mbindM, mok. by destruct (tty_step e st h) as [[h1 [a|[]]]|].
  - unfold mbind, M_bind, mbindM at 1 2 3. by destruct (tty_step e0 st h) as [[h1 [a|[]]]|].
Qed.

Lemma shell_run_snoc es e (h : S) : shell_run (es ++ [e]) h = (shell_run es ≫= tty_step e) h.
Proof. exact (tty_run_snoc es e (Boot, []) (set_session (CURRENT_USER h) false h)). Qed.

Lemma shell_run_session es (h : S) : forall h' t q,
  CURRENT_USER h = None -> shell_run es h = Ret (h', Ok (t, q)) ->
  session_ok t h' /\ forall u, CURRENT_USER h' = Some u ->
    exists es1 es2 h1 st, es = es1 ++ es2 /\ shell_run es1 h = Ret (h1, Ok st) /\ in_session st.1 = false /\ accepted h1 u.
Proof.
  induction es as [|e es IH] using rev_ind; intros h' t q Hn Hr.
  - injection Hr as <- <- <-. split; [done|]. cbn. congruence.
  - rewrite shell_run_snoc in Hr. apply bind_inv in Hr as (h1 & [t1 q1] & E & Hr).
    destruct (IH _ _ _ Hn E) as [Hok Hacc]. apply step_session in Hr as [Hok' Hu]; [|done]. split; [done|].
    intros u [(es1 & es2 & h2 & st & -> & ? & ? & ?)%Hacc|[Hs Ha]]%Hu.
    + exists es1, (es2 ++ [e]), h2, st. by rewrite (assoc_L (++)).
    + by exists es, [e], h1, (t1, q1).
Qed.

(** ** Typing *)

Definition printable (c : Z) : Prop := 0x20 <= c /\ c <> 0x7f.
#[export] Instance printable_dec c : Decision (printable c).
Proof. unfold printable. apply _. Defined.

Lemma key_name v a ch rest line (h : S) : printable ch ->
  poll v (ch :: rest) (Login a line) h = poll v rest (Login a (line ++ [ch])) (say (encode_char ch) h).
Proof.
  intros [Hlo Hdel]. cbn [poll awake on_key]. unfold read_line_key.
  rewrite !bool_decide_eq_false_2 by lia. destruct (Z.ltb_spec ch 0x20); [lia|]. done.
Qed.
Lemma key_password v a login ch rest line (h : S) : printable ch ->
  poll v (ch :: rest) (Password a login line) h = poll v rest (Password a login (line ++ [ch])) (say [42] h).
Proof.
  intros [Hlo Hdel]. cbn [poll awake on_key]. unfold read_line_key.
  rewrite !bool_decide_eq_false_2 by lia. destruct (Z.ltb_spec ch 0x20); [lia|]. done.
Qed.

Lemma type_name v a name rest : Forall printable name -> forall line (h : S),
  poll v (name ++ rest) (Login a line) h = poll v rest (Login a (line ++ name)) (say (text name) h).
Proof.
  induction 1 as [|ch name Hc _ IH]; intros line h.
  - by rewrite (right_id_L [] (++)), say_nil.
  - cbn [app]. rewrite key_name, IH, say_say, <- (assoc_L (++)) by done. done.
Qed.
Lemma type_password v a login pw rest : Forall printable pw -> forall line (h : S),
  poll v (pw ++ rest) (Password a login line) h =
  poll v rest (Password a login (line ++ pw)) (say (replicate (length pw) 42) h).
Proof.
  induction 1 as [|ch pw Hc _ IH]; intros line h.
  - by rewrite (right_id_L [] (++)), say_nil.
  - cbn [app]. rewrite key_password, IH, say_say, <- (assoc_L (++)) by done. done.
Qed.

Lemma enter_name v a name rest (h : S) : name <> [] ->
  poll v (10 :: rest) (Login a name) h = poll v rest (Password a name []) (say ([10] ++ bstr "Password: ") h).
Proof. intros Hn. rewrite <- say_say. by destruct name. Qed.

(** What [authenticate] compares. *)
Definition account (name pw : str) (fs : Ramfs) (u : User) : Prop :=
  find_user name fs = Some u /\ Sha256.sha256_hex pw = Ret (u_hash u).

Lemma authenticate_account name pw fs :
  exists r, authenticate name pw fs = Ret r /\ forall u, r = Some u <-> account name pw fs u.
Proof.
  unfold authenticate, account. destruct (find_user name fs) as [u|]; [|exists None; naive_solver].
  destruct (Sha256.sha256_hex_total pw) as (hx & -> & _). obind. rewrite constant_time_eq_spec. obind.
  eexists. split; [done|]. case_bool_decide; naive_solver congruence.
Qed.

Definition welcome_text (u : User) : str :=
  [10] ++ bstr "Bienvenue sur Rust Kernel, " ++ u_name u ++ bstr " !" ++ [10] ++
  bstr "uid=" ++ fmt_dec (u_uid u) ++ bstr "  home=" ++ u_home u ++ bstr "  shell=" ++ u_shell u ++ [10] ++
  (if u_uid u =? 0 then bstr "Tu es connecte en tant que ROOT. Fais attention." ++ [10] else []) ++
  [10] ++ bstr "Tape 'help' pour la liste des commandes, 'logout' pour se deconnecter." ++ [10] ++ [10].
Definition session_text (u : User) : str :=
  [10] ++ bstr "Rust Kernel Shell v0.2. Tape 'help' pour la liste des commandes." ++ [10] ++
  bstr "Fleches haut/bas = historique." ++ [10] ++ u_name u ++ bstr "> ".

Lemma welcome_eq u (h : S) : print_welcome u h = Ret (say (welcome_text u) h, Ok tt).
Proof.
  unfold print_welcome, welcome_text. rewrite !println_bind, !say_say.
  destruct (u_uid u =? 0).
  - rewrite !println_bind, println_eq, !say_say, <- ?(assoc_L (++)). done.
  - rewrite (bind_ret _ _ _ _ _ eq_refl), !println_bind, println_eq, !say_say, <- ?(assoc_L (++)). done.
Qed.

Lemma prompt_eq u x (h : S) : CURRENT_USER h = Some u ->
  print_prompt (say x h) = Ret (say (x ++ u_name u ++ bstr "> ") h, Ok tt).
Proof. intros Hu. rewrite <- say_say. unfold print_prompt, current_username. rewrite get_bind. cbn. by rewrite Hu. Qed.

Lemma session_eq u (h : S) : CURRENT_USER h = Some u ->
  session_start h = Ret (say (session_text u) h, Ok (Edit [] None [])).
Proof.
  intros Hu. unfold session_start, session_text. rewrite !println_bind, !say_say.
  rewrite (bind_ret _ _ _ _ _ (prompt_eq u _ h Hu)), <- ?(assoc_L (++)). done.
Qed.

Lemma try_login_eq a login pw r (h : S) :
  authenticate (text login) (text pw) (sh_fs h) = Ret r ->
  try_login a login pw h =
  match r with
  | Some u => Ret (say (welcome_text u ++ session_text u) (set_session (Some u) (LOGOUT_REQUESTED h) h), Ok (Edit [] None []))
  | None =>
      let h := say ([10] ++ bstr "Login incorrect." ++ [10]) h in
      if 3 <=? a + 1 then Ret (say (bstr "Trop d'echecs. Pause 5 secondes..." ++ [10]) h, Ok Pause)
      else Ret (say ([10] ++ bstr HOSTNAME ++ bstr " login: ") h, Ok (Login (a + 1) []))
  end.
Proof.
  intros Ha. unfold try_login. rewrite get_bind, lift_bind, Ha. destruct r as [u|].
  - rewrite modify_bind, (bind_ret _ _ _ _ _ (welcome_eq u _)), (session_eq u), say_say by done. done.
  - rewrite println_bind. cbv zeta. by destruct (3 <=? a + 1).
Qed.

Lemma enter_password v a login pw r rest (h : S) :
  authenticate (text login) (text pw) (sh_fs h) = Ret r ->
  poll v (10 :: rest) (Password a login pw) h =
  let h := say [10] h in
  match r with
  | Some u =>
      Ret (say (welcome_text u ++ session_text u) (set_session (Some u) (LOGOUT_REQUESTED h) h), Ok (Edit [] None [], []))
  | None =>
      let h := say ([10] ++ bstr "Login incorrect." ++ [10]) h in
      if 3 <=? a + 1 then Ret (say (bstr "Trop d'echecs. Pause 5 secondes..." ++ [10]) h, Ok (Pause, rest))
      else poll v rest (Login (a + 1) []) (say ([10] ++ bstr HOSTNAME ++ bstr " login: ") h)
  end.
Proof.
  intros Ha. cbn [poll awake on_key]. unfold read_line_key. cbn [bool_decide orb]. cbv zeta.
  rewrite (bind_ret _ _ h (match r with
    | Some u => say (welcome_text u ++ session_text u) (set_session (Some u) (LOGOUT_REQUESTED h) (say [10] h))
    | None => if 3 <=? a + 1 then say (bstr "Trop d'echecs. Pause 5 secondes..." ++ [10]) (say ([10] ++ bstr "Login incorrect." ++ [10]) (say [10] h))
              else say ([10] ++ bstr HOSTNAME ++ bstr " login: ") (say ([10] ++ bstr "Login incorrect." ++ [10]) (say [10] h))
    end) (match r with Some u => Edit [] None [] | None => if 3 <=? a + 1 then Pause else Login (a + 1) [] end)).
  - destruct r; [done|]. destruct (3 <=? a + 1); [|done]. by destruct rest.
  - rewrite (bind_ret _ _ h (say [10] h) (inr pw)) by done. rewrite (try_login_eq a login pw r) by done.
    destruct r; [done|]. cbv zeta. by destruct (3 <=? a + 1).
Qed.

(** C29. A name and a password typed at the login prompt.  The account they
    name, if the file has one with that name and its hash is the SHA-256 of
    the password, gets the session, and the keys typed ahead are dropped.
    Otherwise nothing but the console changes: the prompt comes back, with
    one more failed attempt, or the pause at the third.  The console shows
    the name, and of the password only one star per character. *)
Theorem tty_login_types v a name pw rest (h : S) :
  name <> [] -> Forall printable name -> Forall printable pw ->
  let h1 := say (text name ++ [10] ++ bstr "Password: " ++ replicate (length pw) 42 ++ [10]) h in
  let h2 := say ([10] ++ bstr "Login incorrect." ++ [10]) h1 in
  let r := poll v (name ++ 10 :: pw ++ 10 :: rest) (Login a []) h in
  (forall u, account (text name) (text pw) (sh_fs h) u ->
     r = Ret (say (welcome_text u ++ session_text u) (set_session (Some u) (LOGOUT_REQUESTED h) h1),
              Ok (Edit [] None [], []))) /\
  ((forall u, ~ account (text name) (text pw) (sh_fs h) u) ->
     r = if 3 <=? a + 1 then Ret (say (bstr "Trop d'echecs. Pause 5 secondes..." ++ [10]) h2, Ok (Pause, rest))
         else poll v rest (Login (a + 1) []) (say ([10] ++ bstr HOSTNAME ++ bstr " login: ") h2)).
Proof.
  intros Hn Hname Hpw h1 h2 r.
  destruct (authenticate_account (text name) (text pw) (sh_fs h)) as (o & Ha & Ho).
  assert (r = poll v (10 :: rest) (Password a name pw)
    (say (text name ++ [10] ++ bstr "Password: " ++ replicate (length pw) 42) h)) as ->.
  { unfold r. rewrite type_name, enter_name, type_password, !say_say, <- ?(assoc_L (++)) by done. done. }
  rewrite (enter_password v a name pw o) by done. cbv zeta. rewrite say_say, <- ?(assoc_L (++)).
  split.
  - intros u [= ->]%Ho. done.
  - intros Hno. destruct o as [u|]; [|done]. by destruct (Hno u); apply Ho.
Qed.

(** C12. The session is guarded.  Whatever keys come, whenever the task runs
    and whatever the rest of the kernel does meanwhile, an account is
    recorded exactly while the editor takes commands, and it is one that
    [authenticate] accepted, for a name and a password, on the files of the
    kernel at a moment of the run when no session was open. *)
Theorem tty_session_guarded es (h : S) h' t q :
  CURRENT_USER h = None -> shell_run es h = Ret (h', Ok (t, q)) ->
  match CURRENT_USER h' with
  | None => in_session t = false
  | Some u =>
      in_session t = true /\
      exists es1 es2 h1 st, es = es1 ++ es2 /\ shell_run es1 h = Ret (h1, Ok st) /\ in_session st.1 = false /\ accepted h1 u
  end.
Proof.
  intros Hn Hr. destruct (shell_run_session es h h' t q Hn Hr) as [[_ Hs] Hu].
  destruct (CURRENT_USER h') as [u|] eqn:E; destruct (in_session t); try done.
  split; [done|]. by apply Hu.
Qed.

(** ** The line on the screen *)

(** A terminal line: a character is drawn at the cursor, which moves on; a
    backspace moves it back. *)
Record screen := mkScreen { drawn : list Z; column : nat }.
Definition draw (s : screen) (c : Z) : screen :=
  if bool_decide (c = 8) then mkScreen (drawn s) (pred (column s))
  else mkScreen (take (column s) (drawn s) ++ c :: drop (Datatypes.S (column s)) (drawn s)) (Datatypes.S (column s)).
Definition draws (out : str) (s : screen) : screen := foldl draw s out.
(** [l] after the prompt [pre], then [n] blanks, the cursor after [l]. *)
Definition shown (pre l : str) (n : nat) : screen := mkScreen (pre ++ l ++ replicate n 32) (length (pre ++ l)).

Lemma draws_app x y s : draws (x ++ y) s = draws y (draws x s).
Proof. apply foldl_app. Qed.

Lemma draw_over (p : list Z) c n x :
  take (length p) (p ++ replicate n x) ++ c :: drop (Datatypes.S (length p)) (p ++ replicate n x) = p ++ c :: replicate (pred n) x.
Proof.
  rewrite take_app_length. replace (Datatypes.S (length p)) with (length p + 1)%nat by lia.
  rewrite drop_app_add. by destruct n.
Qed.

Lemma draw_shown pre l n c : c <> 8 -> draw (shown pre l n) c = shown pre (l ++ [c]) (pred n).
Proof.
  intros Hc. unfold draw, shown. rewrite bool_decide_eq_false_2 by done. cbn [drawn column]. f_equal.
  - rewrite (assoc_L (++) pre), draw_over. by rewrite <- !(assoc_L (++)).
  - rewrite !length_app. cbn. lia.
Qed.

Lemma draw_erase pre l c n : draws erase (shown pre (l ++ [c]) n) = shown pre l (Datatypes.S n).
Proof.
  unfold erase, draws, shown. cbn [foldl]. unfold draw at 3. cbn [bool_decide drawn column].
  replace (pred (length (pre ++ l ++ [c]))) with (length (pre ++ l)) by (rewrite !length_app; cbn; lia).
  replace (pre ++ (l ++ [c]) ++ replicate n 32) with ((pre ++ l) ++ c :: replicate n 32) by (by rewrite <- !(assoc_L (++))).
  unfold draw. cbn [bool_decide drawn column pred]. change (bool_decide (32 = 8)) with false. cbn [drawn column pred].
  change (bool_decide (8 = 8)) with true. cbn [drawn column pred]. f_equal.
  rewrite take_app_length. replace (Datatypes.S (length (pre ++ l))) with (length (pre ++ l) + 1)%nat by lia.
  rewrite drop_app_add. cbn. by rewrite <- (assoc_L (++)).
Qed.

Lemma draws_shown pre x : Forall (fun c => c <> 8) x -> forall l n, exists m, draws x (shown pre l n) = shown pre (l ++ x) m.
Proof.
  induction 1 as [|c x Hc _ IH]; intros l n.
  - exists n. by rewrite (right_id_L [] (++)).
  - cbn [draws foldl]. rewrite draw_shown by done. destruct (IH (l ++ [c]) (pred n)) as [m E].
    exists m. unfold draws in E. rewrite E. by rewrite <- (assoc_L (++)).
Qed.

Lemma draws_erase pre l : forall n, exists m, draws (concat (replicate (length l) erase)) (shown pre l n) = shown pre [] m.
Proof.
  induction l as [|c l IH] using rev_ind; intros n; [by exists n|].
  rewrite length_app, Nat.add_comm. cbn [length Nat.add replicate concat].
  rewrite draws_app, draw_erase. apply IH.
Qed.

(** ** The editor *)

Definition ascii_ok (c : Z) : Prop := 0x20 <= c < 0x7f.
#[export] Instance ascii_ok_dec c : Decision (ascii_ok c).
Proof. unfold ascii_ok. apply _. Defined.
(** The lines are of printable ASCII, the cursor is in the history. *)
Definition edit_ok (hi : list (list Z)) (cur : option Z) (line : list Z) : Prop :=
  Forall (Forall ascii_ok) hi /\ Forall ascii_ok line /\ match cur with None => True | Some i => 0 <= i < lenZ hi end.
(** A key of the ASCII range that does not end the line. *)
Definition edit_key_ok (c : Z) : Prop := 0 <= c < 0x80 /\ c <> 10 /\ c <> 13.
#[export] Instance edit_key_ok_dec c : Decision (edit_key_ok c).
Proof. unfold edit_key_ok. apply _. Defined.

Lemma text_ascii l : Forall ascii_ok l -> text l = l.
Proof.
  unfold text, ascii_ok. induction 1 as [|c l Hc _ IH]; [done|]. cbn [fmap list_fmap concat]. rewrite IH.
  unfold encode_char. by rewrite bool_decide_eq_true_2 by lia.
Qed.

Lemma print_times n (h : S) :
  mfor (seqZ 0 (Z.of_nat n)) (fun _ => print erase) h = Ret (say (concat (replicate n erase)) h, Ok tt).
Proof.
  generalize 0. revert h. induction n as [|n IH]; intros h k; [by rewrite seqZ_nil, say_nil by lia|].
  rewrite seqZ_cons by lia. cbn [mfor]. change (mbindM ?a ?b) with (a ≫= b). rewrite print_bind.
  replace (Z.pred (Z.of_nat (Datatypes.S n))) with (Z.of_nat n) by lia. rewrite IH, say_say. done.
Qed.

Lemma replace_shown line new (h : S) : Forall ascii_ok line -> Forall ascii_ok new ->
  exists out, replace_line line new h = Ret (say out h, Ok new) /\
    forall pre n, exists m, draws out (shown pre line n) = shown pre new m.
Proof.
  intros Hl Hw. unfold replace_line. rewrite !text_ascii by done. unfold lenZ.
  rewrite (bind_ret _ _ _ _ _ (print_times (length line) h)), print_bind, say_say.
  eexists. split; [done|]. intros pre n. rewrite draws_app.
  destruct (draws_erase pre line n) as [m ->]. apply (draws_shown pre new). eapply Forall_impl; [done|].
  unfold ascii_ok. lia.
Qed.

Lemma history_line hi i : Forall (Forall ascii_ok) hi -> 0 <= i < lenZ hi ->
  exists l, idx hi i = Ret l /\ Forall ascii_ok l.
Proof.
  unfold idx, lenZ. intros Hh Hi. rewrite bool_decide_eq_true_2 by lia.
  destruct (lookup_lt_is_Some_2 hi (Z.to_nat i)) as [l E]; [lia|]. rewrite E. exists l. split; [done|].
  by eapply Forall_lookup_1.
Qed.

(** A key printed [out] and left the editor with [cur'] and [line']. *)
Definition edited (hi : list (list Z)) (line : list Z) (h : S) (r : outcome (S * result tty unit)) : Prop :=
  exists cur' line' out, r = Ret (say out h, Ok (Edit hi cur' line')) /\ edit_ok hi cur' line' /\
    forall pre n, exists m, draws out (shown pre line n) = shown pre line' m.

Lemma edited_same hi cur line (h : S) : edit_ok hi cur line -> edited hi line h (mok (Edit hi cur line) h).
Proof. intros Hok. exists cur, line, []. rewrite say_nil. split_and!; try done. intros pre n. by exists n. Qed.

Lemma edited_replace hi cur line new (h : S) : edit_ok hi cur line -> edit_ok hi cur new -> forall cur', edit_ok hi cur' new ->
  edited hi line h ((l ← replace_line line new; mok (Edit hi cur' l)) h).
Proof.
  intros (_ & Hl & _) (_ & Hn & _) cur' Hok. destruct (replace_shown line new h Hl Hn) as (out & E & Hd).
  exists cur', new, out. by rewrite (bind_ret _ _ _ _ _ E).
Qed.

Lemma pop_snoc l c : pop (l ++ [c]) = Some l.
Proof. transitivity (Some (removelast (l ++ [c]))); [by destruct l|]. by rewrite removelast_last. Qed.

Lemma edit_key_shown v ch hi cur line (h : S) : edit_ok hi cur line -> edit_key_ok ch ->
  edited hi line h (edit_key v ch hi cur line h).
Proof.
  intros Hok (Hr & H10 & H13). pose proof Hok as (Hhi & Hline & Hcur). unfold edit_key.
  rewrite !(bool_decide_eq_false_2 (ch = 10)), !(bool_decide_eq_false_2 (ch = 13)) by done. cbn [orb].
  destruct (_ || _) eqn:Hbs.
  { destruct line as [|c line _] using rev_ind; cbn [pop]; [by apply edited_same|].
    rewrite pop_snoc, print_bind.
    exists cur, line, erase. apply Forall_app in Hline as [Hline _]. split_and!; try done.
    intros pre n. exists (Datatypes.S n). apply draw_erase. }
  destruct (bool_decide (ch = KEY_UP)).
  { destruct (bool_decide_reflect (hi = [])) as [|Hne]; [by apply edited_same|].
    assert (0 < lenZ hi) by (unfold lenZ; destruct hi; [done|cbn; lia]). cbv zeta. set (k := match cur with None => _ | _ => _ end).
    assert (0 <= k < lenZ hi) as Hk.
    { unfold k. destruct cur as [i|]; [destruct (Z.eqb_spec i 0)|]; lia. }
    destruct (history_line hi k Hhi Hk) as (l & -> & Hl). rewrite lift_bind. by eapply edited_replace. }
  destruct (bool_decide (ch = KEY_DOWN)).
  { destruct cur as [i|]; [|by apply edited_same]. destruct (Z.leb_spec (lenZ hi) (i + 1)).
    - by eapply edited_replace.
    - destruct (history_line hi (i + 1) Hhi ltac:(lia)) as (l & -> & Hl). rewrite lift_bind.
      eapply edited_replace; try done. split_and!; try done; lia. }
  destruct (Z.ltb_spec ch 0x20); [by apply edited_same|]. rewrite print_bind.
  apply orb_false_elim in Hbs as [_ H127%bool_decide_eq_false].
  exists cur, (line ++ [ch]), (encode_char ch). split; [done|]. split.
  { split_and!; try done. apply Forall_app. split; [done|]. constructor; [unfold ascii_ok; lia|done]. }
  intros pre n. unfold encode_char. rewrite bool_decide_eq_true_2 by lia. exists (pred n). apply draw_shown. lia.
Qed.

End tty_correct.

(** * A terminal session

    A machine with the account root, whose password is root, at which the
    theorems of ShellCorrect and the ones above are applied. *)
From S2P Require Import PagingModel IpcCorrect.
From S2P Require Import SyscallCorrect Resolve.

(** No host answers an echo request. *)
#[export] Instance toy_icmp : Icmp toy := {|
  icmp_new w := (w, 0);
  icmp_bind _ _ w := w;
  icmp_send_echo _ _ _ _ _ w := Some w;
  icmp_can_recv _ _ := false;
  icmp_recv _ w := (w, None);
  socket_count w := lenZ (socks w);
|}.

Definition root_user : User :=
  mkUser (bstr "root") (ret_or [] (Sha256.sha256_hex (bstr "root"))) 0 0 (bstr "root") (bstr "/root") (bstr "/bin/sh").
Definition tty_files : Ramfs := {[ PASSWD_PATH := format_user root_user ++ [nl] ]}.
Definition tty_sys : sys (ata ide) :=
  let k := y_k sd_state in
  set_y_k (mkKst (k_ps k) tty_files (k_fat k) (k_disk k) (k_paths k) (k_threads k) [] [] 0) sd_state.
Definition tty_shell : shell (D := ata ide) (W := toy) := mkShell tty_sys demo_net None false [].
Definition tty_view : SysView (D := ata ide) :=
  mkSysView sd_env (fun _ p => p) None (0, 0) None None None None None 3 0 0.

Lemma root_account : account (bstr "root") (bstr "root") tty_files root_user.
Proof. split; vm_compute; reflexivity. Qed.

Definition typed : list Z := bstr "root" ++ 10 :: bstr "root" ++ 10 :: bstr "ls".
(** The boot timer fires, the keys come, the task runs. *)
Definition tty_events : list (tty_event (D := ata ide)) := Wake :: (Press <$> typed) ++ [Poll tty_view].

Lemma tty_login_types_witness :
  poll tty_view typed (Login 0 []) tty_shell =
  Ret (say (welcome_text root_user ++ session_text root_user)
         (set_session (Some root_user) false
            (say (bstr "root" ++ [10] ++ bstr "Password: ****" ++ [10]) tty_shell)), Ok (Edit [] None [], [])).
Proof.
  refine (proj1 (tty_login_types tty_view 0 (bstr "root") (bstr "root") (bstr "ls") tty_shell _ _ _) root_user root_account).
  - done.
  - by_decide.
  - by_decide.
Defined.

Lemma shell_write_cat_witness :
  exists msg,
    let h1 := say msg (set_sh_fs (fs_write (bstr "/n") (bstr "bon jour" ++ [10]) tty_files) tty_shell) in
    execute tty_view (bstr "write /n bon jour") tty_shell = Ret (h1, Ok tt) /\
    execute tty_view (bstr "cat /n") h1 = Ret (say (bstr "bon jour" ++ [10]) h1, Ok tt).
Proof.
  destruct (shell_write_cat tty_view (bstr "/n") (bstr "bon") [bstr "jour"] tty_shell) as (msg & Ew & Ec & _).
  - by split.
  - constructor; [by split|]. constructor; [by split|constructor].
  - by repeat constructor.
  - exists msg. split; [exact Ew|exact Ec].
Defined.


Definition tty_end : shell (D := ata ide) (W := toy) := (ret_or (tty_shell, Err tt) (shell_run tty_events tty_shell)).1.
Lemma tty_run_demo : shell_run tty_events tty_shell = Ret (tty_end, Ok (Edit [] None [], [])).
Proof. apply ret_or_snd; vm_compute; reflexivity. Qed.
Lemma tty_run_user : CURRENT_USER tty_end = Some root_user.
Proof. vm_compute. reflexivity. Qed.

Lemma tty_session_guarded_witness :
  shell_run tty_events tty_shell = Ret (tty_end, Ok (Edit [] None [], [])) /\
  exists es1 es2 h1 st, tty_events = es1 ++ es2 /\ shell_run es1 tty_shell = Ret (h1, Ok st) /\
    in_session st.1 = false /\ accepted h1 root_user.
Proof.
  split; [exact tty_run_demo|].
  pose proof (tty_session_guarded tty_events tty_shell tty_end _ _ eq_refl tty_run_demo) as Hg.
  rewrite tty_run_user in Hg. exact (proj2 Hg).
Defined.
