(* ===== verification/Mmio.v ===== *)
(** * Memory-mapped devices

    A device with memory-mapped registers that may also read and write the
    RAM itself, as the virtio and NVMe drivers and the APIC see one: a class
    [Mmio] of functions on its state and the RAM.  Between two looks of the
    driver at memory it can work ([mm_spin]).  A [machine] is such a device
    beside the kernel's memory. *)
From S2P Require Import Prelude Phys FrameAllocator FrameRefcount Paging.
Local Open Scope Z_scope.

(** The [n]-byte number at [a]. *)
Definition ld (m : phys) (a : Z) (n : nat) : Z := of_le (load_bytes m a n).

Class Mmio (D : Type) := {
  mm_read : nat -> Z -> D * phys -> (D * phys) * Z;
  mm_write : nat -> Z -> Z -> D * phys -> D * phys;
  mm_spin : D * phys -> D * phys;
}.

Section mmio.
Context {D : Type} `{Mmio D}.

Record machine := mkMachine { vm_dev : D; vm_km : kmem }.
Local Abbreviation V := (M machine string).

Definition ram (s : machine) : phys := km_mem (vm_km s).
Definition set_dma (dm : D * phys) (s : machine) : machine := mkMachine dm.1 (set_mem dm.2 (vm_km s)).
Definition on_ports {A} (c : M D string A) : V A := zoom vm_dev (fun d s => mkMachine d (vm_km s)) c.
Definition on_kmem {A} (c : M kmem string A) : V A := zoom vm_km (fun k s => mkMachine (vm_dev s) k) c.

Definition mmio_read (n : nat) (a : Z) : V Z := fun s =>
  let '(dm, v) := mm_read n a (vm_dev s, ram s) in Ret (set_dma dm s, Ok v).
Definition mmio_write (n : nat) (a v : Z) : V unit := fun s => Ret (set_dma (mm_write n a v (vm_dev s, ram s)) s, Ok tt).
Definition spin_loop : V unit := fun s => Ret (set_dma (mm_spin (vm_dev s, ram s)) s, Ok tt).
Definition poke (a : Z) (l : list Z) : V unit := on_kmem (modify_mem (fun m => store_bytes m a l)).
Definition peek (n : nat) (a : Z) : V Z := s ← mget; mok (ld (ram s) a n).

(** A machine: the device, and the kernel's memory with the RAM [m]. *)
Definition st (km : kmem) (d : D) (m : phys) : machine := mkMachine d (set_mem m km).

Lemma poke_st km d m a l : poke a l (st km d m) = Ret (st km d (store_bytes m a l), Ok tt).
Proof. done. Qed.
Lemma peek_st km d m n a : peek n a (st km d m) = Ret (st km d m, Ok (ld m a n)).
Proof. done. Qed.
Lemma spin_st km d m : spin_loop (st km d m) = Ret (st km (mm_spin (d, m)).1 (mm_spin (d, m)).2, Ok tt).
Proof. done. Qed.
Lemma mmio_write_st km d m n a v :
  mmio_write n a v (st km d m) = Ret (st km (mm_write n a v (d, m)).1 (mm_write n a v (d, m)).2, Ok tt).
Proof. done. Qed.
Lemma mmio_read_st km d m n a :
  mmio_read n a (st km d m) = Ret (st km (mm_read n a (d, m)).1.1 (mm_read n a (d, m)).1.2, Ok (mm_read n a (d, m)).2).
Proof. unfold mmio_read. cbn. by destruct (mm_read n a (d, m)) as [[]]. Qed.

End mmio.

(** ** Ranges of memory *)

(** Ranges that do not meet. *)
Definition sep (a n b k : Z) : Prop := a + n <= b \/ b + k <= a.

Lemma load_store_sep m a l b n :
  sep a (lenZ l) b (Z.of_nat n) -> load_bytes (store_bytes m a l) b n = load_bytes m b n.
Proof.
  intros Hs. apply load_bytes_ext. intros x Hx. unfold store_bytes. rewrite bool_decide_eq_false_2; [done|].
  unfold sep in Hs. lia.
Qed.

Lemma load_bytes_take m a n i k : (i + k <= n)%nat ->
  load_bytes m (a + Z.of_nat i) k = take k (drop i (load_bytes m a n)).
Proof.
  intros Hk. unfold load_bytes. rewrite <- fmap_drop, <- fmap_take. apply list_eq. intros j.
  rewrite !list_lookup_fmap. destruct (decide (j < k)%nat) as [Hj|Hj].
  - rewrite lookup_take_lt, lookup_drop, !lookup_seq_lt by lia. cbn. f_equal. f_equal. lia.
  - rewrite lookup_take_ge, lookup_seq_ge by lia. done.
Qed.

Lemma load_store_at m a l i n z : z = Z.of_nat i -> (i + n <= length l)%nat ->
  load_bytes (store_bytes m a l) (a + z) n = take n (drop i l).
Proof. intros -> Hn. rewrite (load_bytes_take _ a (length l)) by done. by rewrite load_store_bytes. Qed.

Lemma store_out m a l x : ~ (a <= x < a + lenZ l) -> store_bytes m a l x = m x.
Proof. intros Hx. unfold store_bytes. by rewrite bool_decide_eq_false_2. Qed.
