(* ===== verification/Virtio.v ===== *)
(** * Virtio: the transport and the queue

    kernel/src/virtio/mod.rs and queue.rs, over the memory-mapped registers of
    Mmio.v.  The boxes of a queue, the buffers of a request and the frame
    buffer are ranges of RAM at the addresses the kernel's heap and stack give
    them. *)
From S2P Require Import Prelude Phys FrameAllocator FrameRefcount Paging Ports Pci Mmio.
Local Open Scope Z_scope.

Abbreviation VIRTIO_VENDOR_ID := 0x1af4 (only parsing).
Abbreviation VIRTIO_DEVICE_ID_GPU := 0x1050 (only parsing).
Abbreviation VIRTIO_DEVICE_ID_GPU_LEGACY := (0x1040 + 16) (only parsing).
Abbreviation VIRTIO_PCI_CAP_COMMON_CFG := 1 (only parsing).
Abbreviation VIRTIO_PCI_CAP_NOTIFY_CFG := 2 (only parsing).
Abbreviation VIRTIO_PCI_CAP_ISR_CFG := 3 (only parsing).
Abbreviation VIRTIO_PCI_CAP_DEVICE_CFG := 4 (only parsing).
Abbreviation VIRTIO_STATUS_ACKNOWLEDGE := 1 (only parsing).
Abbreviation VIRTIO_STATUS_DRIVER := 2 (only parsing).
Abbreviation VIRTIO_STATUS_DRIVER_OK := 4 (only parsing).
Abbreviation VIRTIO_STATUS_FEATURES_OK := 8 (only parsing).
Abbreviation VIRTIO_STATUS_FAILED := 128 (only parsing).

Abbreviation OFF_DEV_FEAT_SEL := 0x00 (only parsing).
Abbreviation OFF_DEV_FEAT := 0x04 (only parsing).
Abbreviation OFF_DRV_FEAT_SEL := 0x08 (only parsing).
Abbreviation OFF_DRV_FEAT := 0x0C (only parsing).
Abbreviation OFF_NUM_QUEUES := 0x12 (only parsing).
Abbreviation OFF_DEV_STATUS := 0x14 (only parsing).
Abbreviation OFF_QUEUE_SELECT := 0x16 (only parsing).
Abbreviation OFF_QUEUE_SIZE := 0x18 (only parsing).
Abbreviation OFF_QUEUE_ENABLE := 0x1C (only parsing).
Abbreviation OFF_QUEUE_NOTIFY_OFF := 0x1E (only parsing).
Abbreviation OFF_QUEUE_DESC := 0x20 (only parsing).
Abbreviation OFF_QUEUE_DRIVER := 0x28 (only parsing).
Abbreviation OFF_QUEUE_DEVICE := 0x30 (only parsing).

Abbreviation QUEUE_SIZE := 64 (only parsing).
Abbreviation VIRTQ_DESC_F_NEXT := 1 (only parsing).
Abbreviation VIRTQ_DESC_F_WRITE := 2 (only parsing).

(** ** Data *)

(** Pointers to registers are their addresses. *)
Record VirtioTransport := mkTransport {
  vt_dev : PciDevice;
  common_cfg : Z;
  notify_base : Z;
  notify_off_multiplier : Z;
  isr_cfg : Z;
  device_cfg : Z;
}.

Record Desc := mkDesc { d_addr : Z; d_len : Z; d_flags : Z; d_next : Z }.
Definition desc_bytes (d : Desc) : list Z :=
  le_bytes 8 (d_addr d) ++ le_bytes 4 (d_len d) ++ le_bytes 2 (d_flags d) ++ le_bytes 2 (d_next d).

(** The queue: where its three boxes are, and its indices. *)
Record VirtQueue := mkQueue {
  desc_phys : Z;
  avail_phys : Z;
  used_phys : Z;
  next_desc : Z;
  last_used : Z;
  notify_off : Z;
}.
(** The places of the fields of the three tables. *)
Definition desc_at (q : VirtQueue) (i : Z) : Z := desc_phys q + 16 * i.
Definition avail_idx_at (q : VirtQueue) : Z := avail_phys q + 2.
Definition avail_ring_at (q : VirtQueue) (i : Z) : Z := avail_phys q + 4 + 2 * i.
Definition used_idx_at (q : VirtQueue) : Z := used_phys q + 2.
Definition used_elem_at (q : VirtQueue) (i : Z) : Z := used_phys q + 4 + 8 * i.

Section virtio.
Context {D : Type} `{Ports D} `{X86Paging} `{Mmio D}.

Local Abbreviation V := (M (machine (D := D)) string).

(** ** The transport *)

(** [map_bar_region] *)
Definition map_bar_region (dev : PciDevice) (bar_index offset length : Z) : V Z :=
  bar_raw ← mlift (idx (bars dev) bar_index);
  if negb (Z.land bar_raw 1 =? 0) then mfail "virtio: BAR en port I/O, non supporté"%string else
  let base := Z.land bar_raw (unot 64 0xF) in
  base ← (if Z.land (Z.shiftr bar_raw 1) 3 =? 2 then
            hi ← mlift (idx (bars dev) (bar_index + 1)); mok (Z.lor base (Z.shiftl hi 32))
          else mok base);
  phys ← mlift (base +! offset @ 64);
  let len := Z.land (length + 0xFFF) (unot 64 0xFFF) in
  _ ← on_kmem (map_mmio phys len);
  mok phys.

(** What the walk of the capabilities has found. *)
Record caps := mkCaps {
  c_common : option (Z * Z * Z);
  c_notify : option (Z * Z * Z * Z);
  c_isr : option (Z * Z * Z);
  c_device : option (Z * Z * Z);
}.

(** One vendor capability at [cap_off]. *)
Definition take_cap (a : PciAddr) (cap_off : Z) (c : caps) : V caps :=
  let at8 k := mlift (cap_off +! k @ 8) in
  o ← at8 2; _ ← on_ports (read_u8 a o);
  o ← at8 3; cfg_type ← on_ports (read_u8 a o);
  o ← at8 4; bar ← on_ports (read_u8 a o);
  o ← at8 8; offset ← on_ports (read_u32 a o);
  o ← at8 12; length ← on_ports (read_u32 a o);
  if cfg_type =? VIRTIO_PCI_CAP_COMMON_CFG then mok (mkCaps (Some (bar, offset, length)) (c_notify c) (c_isr c) (c_device c))
  else if cfg_type =? VIRTIO_PCI_CAP_NOTIFY_CFG then
    o ← at8 16; mult ← on_ports (read_u32 a o);
    mok (mkCaps (c_common c) (Some (bar, offset, length, mult)) (c_isr c) (c_device c))
  else if cfg_type =? VIRTIO_PCI_CAP_ISR_CFG then mok (mkCaps (c_common c) (c_notify c) (Some (bar, offset, length)) (c_device c))
  else if cfg_type =? VIRTIO_PCI_CAP_DEVICE_CFG then mok (mkCaps (c_common c) (c_notify c) (c_isr c) (Some (bar, offset, length)))
  else mok c.

Fixpoint walk_caps (n : nat) (a : PciAddr) (cap_off : Z) (c : caps) : V caps :=
  match n with
  | O => mok c
  | S n =>
      if cap_off =? 0 then mok c else
      vendor_id ← on_ports (read_u8 a cap_off);
      o ← mlift (cap_off +! 1 @ 8);
      x ← on_ports (read_u8 a o);
      let next := Z.land x 0xfc in
      c ← (if vendor_id =? 0x09 then take_cap a cap_off c else mok c);
      walk_caps n a next c
  end.

Definition probe (dev : PciDevice) : V VirtioTransport :=
  if negb (vendor_id dev =? VIRTIO_VENDOR_ID) then mfail "virtio: vendor ID inattendu"%string else
  let a := pd_addr dev in
  _ ← on_ports (enable_device_io_mmio_bus_master a);
  status ← on_ports (read_u16 a 0x06);
  if Z.land status (Z.shiftl 1 4) =? 0 then mfail "virtio: pas de capabilities list"%string else
  x ← on_ports (read_u8 a 0x34);
  c ← walk_caps 64 a (Z.land x 0xfc) (mkCaps None None None None);
  '(cb, co, cl) ← ok_or (c_common c) "virtio: pas de COMMON_CFG"%string;
  '(nb, no, nl, mult) ← ok_or (c_notify c) "virtio: pas de NOTIFY_CFG"%string;
  '(ib, io, il) ← ok_or (c_isr c) "virtio: pas d'ISR_CFG"%string;
  '(db, do, dl) ← ok_or (c_device c) "virtio: pas de DEVICE_CFG"%string;
  common_ptr ← map_bar_region dev cb co cl;
  notify_ptr ← map_bar_region dev nb no nl;
  isr_ptr ← map_bar_region dev ib io il;
  dev_ptr ← map_bar_region dev db do dl;
  mok (mkTransport dev common_ptr notify_ptr mult isr_ptr dev_ptr).

Definition cfg_read (t : VirtioTransport) (n : nat) (off : Z) : V Z := mmio_read n (common_cfg t + off).
Definition cfg_write (t : VirtioTransport) (n : nat) (off v : Z) : V unit := mmio_write n (common_cfg t + off) v.
Definition status (t : VirtioTransport) : V Z := cfg_read t 1 OFF_DEV_STATUS.
Definition set_status (t : VirtioTransport) (s : Z) : V unit := cfg_write t 1 OFF_DEV_STATUS s.
Definition num_queues (t : VirtioTransport) : V Z := cfg_read t 2 OFF_NUM_QUEUES.

(** [while self.status() != 0]; [rounds] bounds its turns. *)
Fixpoint wait_reset (rounds : nat) (t : VirtioTransport) : V unit :=
  match rounds with
  | O => mpanic
  | S rounds => s ← status t; if s =? 0 then mok tt else _ ← spin_loop; wait_reset rounds t
  end.

Definition init_base (rounds : nat) (t : VirtioTransport) : V unit :=
  _ ← set_status t 0;
  _ ← wait_reset rounds t;
  _ ← set_status t VIRTIO_STATUS_ACKNOWLEDGE;
  _ ← set_status t (Z.lor VIRTIO_STATUS_ACKNOWLEDGE VIRTIO_STATUS_DRIVER);
  _ ← cfg_write t 4 OFF_DEV_FEAT_SEL 1;
  dev_feat_hi ← cfg_read t 4 OFF_DEV_FEAT;
  if Z.land dev_feat_hi 1 =? 0 then
    _ ← set_status t VIRTIO_STATUS_FAILED; mfail "virtio: device non-1.0, pas supporté"%string
  else
  _ ← cfg_write t 4 OFF_DRV_FEAT_SEL 1;
  _ ← cfg_write t 4 OFF_DRV_FEAT 1;
  _ ← cfg_write t 4 OFF_DRV_FEAT_SEL 0;
  _ ← cfg_write t 4 OFF_DRV_FEAT 0;
  _ ← set_status t (Z.lor (Z.lor VIRTIO_STATUS_ACKNOWLEDGE VIRTIO_STATUS_DRIVER) VIRTIO_STATUS_FEATURES_OK);
  s ← status t;
  if Z.land s VIRTIO_STATUS_FEATURES_OK =? 0 then
    _ ← set_status t VIRTIO_STATUS_FAILED; mfail "virtio: features pas acceptées"%string
  else mok tt.

Definition driver_ok (t : VirtioTransport) : V unit :=
  set_status t (Z.lor (Z.lor (Z.lor VIRTIO_STATUS_ACKNOWLEDGE VIRTIO_STATUS_DRIVER) VIRTIO_STATUS_FEATURES_OK)
                  VIRTIO_STATUS_DRIVER_OK).

Definition setup_queue (t : VirtioTransport) (index size desc avail used : Z) : V Z :=
  _ ← cfg_write t 2 OFF_QUEUE_SELECT index;
  max ← cfg_read t 2 OFF_QUEUE_SIZE;
  let actual := if max <? size then max else size in
  _ ← cfg_write t 2 OFF_QUEUE_SIZE actual;
  _ ← cfg_write t 8 OFF_QUEUE_DESC desc;
  _ ← cfg_write t 8 OFF_QUEUE_DRIVER avail;
  _ ← cfg_write t 8 OFF_QUEUE_DEVICE used;
  _ ← cfg_write t 2 OFF_QUEUE_ENABLE 1;
  cfg_read t 2 OFF_QUEUE_NOTIFY_OFF.

Definition notify (t : VirtioTransport) (queue_notify_off : Z) : V unit :=
  mmio_write 2 (notify_base t + queue_notify_off * notify_off_multiplier t) 0.

Definition detect_virtio_devices (devs : option (list PciDevice)) : list PciDevice :=
  filter (fun d => vendor_id d = VIRTIO_VENDOR_ID) (default [] devs).

(** ** The queue *)

(** [VirtQueue::new]: the boxes at [d], [a] and [u]. *)
Definition queue_new (d a u : Z) : V VirtQueue :=
  _ ← poke d (concat ((fun i => desc_bytes (mkDesc 0 0 0 (if i <? QUEUE_SIZE - 1 then i + 1 else 0))) <$> seqZ 0 QUEUE_SIZE));
  _ ← poke a (replicate (4 + 2 * 64 + 2) 0);
  _ ← poke u (replicate (4 + 8 * 64 + 4) 0);
  mok (mkQueue d a u 0 0 0).

(** The poll of the used ring, [n] turns before the timeout. *)
Fixpoint wait_used (n : nat) (q : VirtQueue) : V unit :=
  cur_idx ← peek 2 (used_idx_at q);
  if negb (cur_idx =? last_used q) then mok tt else
  match n with
  | O | S O => mfail "virtqueue: timeout en attente de la réponse GPU"%string
  | S n => _ ← spin_loop; wait_used n q
  end.
Definition timeout_iters : nat := N.to_nat 50000000.

(** [submit_request]: the request and the response are ranges of RAM. *)
Definition submit_request (t : VirtioTransport) (q : VirtQueue) (req req_len resp resp_len : Z) : V (VirtQueue * Z) :=
  if bool_decide (req_len = 0) || bool_decide (resp_len = 0) then mfail "virtqueue: buffers vides"%string else
  _ ← poke (desc_at q 0) (desc_bytes (mkDesc req (wrap 32 req_len) VIRTQ_DESC_F_NEXT 1));
  _ ← poke (desc_at q 1) (desc_bytes (mkDesc resp (wrap 32 resp_len) VIRTQ_DESC_F_WRITE 0));
  old_idx ← peek 2 (avail_idx_at q);
  _ ← poke (avail_ring_at q (old_idx mod QUEUE_SIZE)) (le_bytes 2 0);
  _ ← poke (avail_idx_at q) (le_bytes 2 (wrap 16 (old_idx + 1)));
  _ ← notify t (notify_off q);
  _ ← wait_used timeout_iters q;
  len ← peek 4 (used_elem_at q (last_used q mod QUEUE_SIZE) + 4);
  mok (mkQueue (desc_phys q) (avail_phys q) (used_phys q) (next_desc q) (wrap 16 (last_used q + 1)) (notify_off q), len).

End virtio.
