(* ===== verification/VirtioGpu.v ===== *)
(** * The virtio display adapter

    kernel/src/virtio/gpu.rs over the transport and the queue of Virtio.v.
    The structures of the commands are the bytes [repr(C)] gives them; the
    stack addresses of a command and of its response, and the addresses of
    the boxes, are the arguments [Mem]. *)
From S2P Require Import Prelude Phys FrameAllocator FrameRefcount Paging Ports Pci Mmio Virtio.
Local Open Scope Z_scope.

Abbreviation VIRTIO_GPU_CMD_GET_DISPLAY_INFO := 0x0100 (only parsing).
Abbreviation VIRTIO_GPU_CMD_RESOURCE_CREATE_2D := 0x0101 (only parsing).
Abbreviation VIRTIO_GPU_CMD_SET_SCANOUT := 0x0103 (only parsing).
Abbreviation VIRTIO_GPU_CMD_RESOURCE_FLUSH := 0x0104 (only parsing).
Abbreviation VIRTIO_GPU_CMD_TRANSFER_TO_HOST_2D := 0x0105 (only parsing).
Abbreviation VIRTIO_GPU_CMD_RESOURCE_ATTACH_BACKING := 0x0106 (only parsing).
Abbreviation VIRTIO_GPU_RESP_OK_NODATA := 0x1100 (only parsing).
Abbreviation VIRTIO_GPU_RESP_OK_DISPLAY_INFO := 0x1101 (only parsing).
Abbreviation VIRTIO_GPU_FORMAT_B8G8R8X8_UNORM := 2 (only parsing).
Abbreviation RESOURCE_ID := 1 (only parsing).
Abbreviation SCANOUT_ID := 0 (only parsing).
Abbreviation SIZEOF_CTRL_HDR := 24 (only parsing).
Abbreviation SIZEOF_RESP_DISPLAY_INFO := (24 + 16 * 24) (only parsing).

(** ** The commands *)

(** [CtrlHdr] with the other fields default. *)
Definition CtrlHdr (cmd_type : Z) : list Z := le_bytes 4 cmd_type ++ replicate 20 0.
Definition GpuRect (x y width height : Z) : list Z := le_bytes 4 x ++ le_bytes 4 y ++ le_bytes 4 width ++ le_bytes 4 height.
Definition ResourceCreate2d (width height : Z) : list Z :=
  CtrlHdr VIRTIO_GPU_CMD_RESOURCE_CREATE_2D ++
  le_bytes 4 RESOURCE_ID ++ le_bytes 4 VIRTIO_GPU_FORMAT_B8G8R8X8_UNORM ++ le_bytes 4 width ++ le_bytes 4 height.
(** [ResourceAttachBacking] followed by its one [MemEntry]. *)
Definition ResourceAttachBacking (addr length : Z) : list Z :=
  CtrlHdr VIRTIO_GPU_CMD_RESOURCE_ATTACH_BACKING ++
  le_bytes 4 RESOURCE_ID ++ le_bytes 4 1 ++ le_bytes 8 addr ++ le_bytes 4 length ++ le_bytes 4 0.
Definition SetScanout (width height : Z) : list Z :=
  CtrlHdr VIRTIO_GPU_CMD_SET_SCANOUT ++ GpuRect 0 0 width height ++ le_bytes 4 SCANOUT_ID ++ le_bytes 4 RESOURCE_ID.
Definition TransferToHost2d (x y w h offset : Z) : list Z :=
  CtrlHdr VIRTIO_GPU_CMD_TRANSFER_TO_HOST_2D ++ GpuRect x y w h ++ le_bytes 8 offset ++ le_bytes 4 RESOURCE_ID ++ le_bytes 4 0.
Definition ResourceFlush (x y w h : Z) : list Z :=
  CtrlHdr VIRTIO_GPU_CMD_RESOURCE_FLUSH ++ GpuRect x y w h ++ le_bytes 4 RESOURCE_ID ++ le_bytes 4 0.

(** ** The driver *)

(** The addresses of the boxes and of the buffers on the stack. *)
Record Mem := mkMem { desc_box : Z; avail_box : Z; used_box : Z; fb_box : Z; req_buf : Z; resp_buf : Z }.

Record VirtioGpu := mkGpu {
  transport : VirtioTransport;
  queue : VirtQueue;
  gpu_width : Z;
  gpu_height : Z;
  gpu_fb : Z;      (** the address of the pixels *)
  gpu_fb_len : Z;  (** their number *)
}.
Definition set_queue (q : VirtQueue) (g : VirtioGpu) : VirtioGpu :=
  mkGpu (transport g) q (gpu_width g) (gpu_height g) (gpu_fb g) (gpu_fb_len g).

Section gpu.
Context {D : Type} `{Ports D} `{X86Paging} `{Mmio D}.
Local Abbreviation V := (M (machine (D := D)) string).
(** A method of [VirtioGpu]: on the machine and the object. *)
Local Abbreviation G := (M (machine (D := D) * VirtioGpu) string).
Context (mm : Mem).

Definition on_machine {A} (c : V A) : G A := zoom fst (fun s sg => (s, sg.2)) c.
Definition self : G VirtioGpu := sg ← mget; mok sg.2.
Definition set_self (g : VirtioGpu) : G unit := modify (fun sg => (sg.1, g)).

Definition submit (cmd : list Z) (expected_resp : Z) : G unit :=
  g ← self;
  _ ← on_machine (poke (req_buf mm) cmd);
  _ ← on_machine (poke (resp_buf mm) (replicate 256 0));
  '(q, len) ← on_machine (submit_request (transport g) (queue g) (req_buf mm) (lenZ cmd) (resp_buf mm) 256);
  _ ← set_self (set_queue q g);
  if len <? SIZEOF_CTRL_HDR then mfail "virtio-gpu: réponse trop courte"%string else
  cmd_type ← on_machine (peek 4 (resp_buf mm));
  if negb (cmd_type =? expected_resp) then mfail "virtio-gpu: réponse inattendue"%string else
  mok tt.

Definition get_display_info : G (Z * Z) :=
  g ← self;
  _ ← on_machine (poke (req_buf mm) (CtrlHdr VIRTIO_GPU_CMD_GET_DISPLAY_INFO));
  _ ← on_machine (poke (resp_buf mm) (replicate 408 0));
  '(q, _) ← on_machine (submit_request (transport g) (queue g) (req_buf mm) SIZEOF_CTRL_HDR
                          (resp_buf mm) SIZEOF_RESP_DISPLAY_INFO);
  _ ← set_self (set_queue q g);
  cmd_type ← on_machine (peek 4 (resp_buf mm));
  if negb (cmd_type =? VIRTIO_GPU_RESP_OK_DISPLAY_INFO) then
    mfail "virtio-gpu: réponse GET_DISPLAY_INFO inattendue"%string else
  width ← on_machine (peek 4 (resp_buf mm + 24 + 8));
  height ← on_machine (peek 4 (resp_buf mm + 24 + 12));
  enabled ← on_machine (peek 4 (resp_buf mm + 24 + 16));
  if (enabled =? 0) || (width =? 0) || (height =? 0) then mfail "virtio-gpu: scanout 0 désactivé"%string else
  mok (width, height).

Definition create_resource_2d : G unit :=
  g ← self; submit (ResourceCreate2d (gpu_width g) (gpu_height g)) VIRTIO_GPU_RESP_OK_NODATA.
Definition attach_backing : G unit :=
  g ← self;
  n ← mlift (gpu_fb_len g *! 4 @ 64);
  submit (ResourceAttachBacking (gpu_fb g) (wrap 32 n)) VIRTIO_GPU_RESP_OK_NODATA.
Definition set_scanout : G unit :=
  g ← self; submit (SetScanout (gpu_width g) (gpu_height g)) VIRTIO_GPU_RESP_OK_NODATA.

(** The part of [VirtioGpu::probe] after the object is made. *)
Definition set_up_display : G unit :=
  '(w, h) ← get_display_info;
  g ← self;
  size ← mlift (w *! h @ 32);
  _ ← on_machine (poke (fb_box mm) (replicate (Z.to_nat (4 * size)) 0));
  _ ← set_self (mkGpu (transport g) (queue g) w h (fb_box mm) size);
  _ ← create_resource_2d;
  _ ← attach_backing;
  set_scanout.

(** Runs the methods on a new object, which an error drops. *)
Definition with_self (g : VirtioGpu) (c : G unit) : V VirtioGpu := fun s =>
  match c (s, g) with
  | Ret ((s', g'), Ok _) => Ret (s', Ok g')
  | Ret ((s', _), Err e) => Ret (s', Err e)
  | Panic => Panic
  end.

(** The part of [VirtioGpu::probe] after the transport is found; [rounds]
    bounds the wait for the reset. *)
Definition bring_up (rounds : nat) (t : VirtioTransport) : V VirtioGpu :=
  _ ← init_base rounds t;
  q ← queue_new (desc_box mm) (avail_box mm) (used_box mm);
  off ← setup_queue t 0 QUEUE_SIZE (desc_phys q) (avail_phys q) (used_phys q);
  let q := mkQueue (desc_phys q) (avail_phys q) (used_phys q) (next_desc q) (last_used q) off in
  _ ← driver_ok t;
  with_self (mkGpu t q 0 0 0 0) set_up_display.

(** [VirtioGpu::probe] *)
Definition gpu_probe (rounds : nat) (devs : option (list PciDevice)) : V VirtioGpu :=
  dev ← ok_or (snd <$> list_find (fun d => device_id d = VIRTIO_DEVICE_ID_GPU \/ device_id d = VIRTIO_DEVICE_ID_GPU_LEGACY)
                 (detect_virtio_devices devs)) "virtio-gpu: device PCI non trouvé"%string;
  t ← probe dev;
  bring_up rounds t.

Definition present_region (x y w h : Z) : G unit :=
  if (w =? 0) || (h =? 0) then mok tt else
  g ← self;
  let x := Z.min x (Z.max 0 (gpu_width g - 1)) in
  let y := Z.min y (Z.max 0 (gpu_height g - 1)) in
  dw ← mlift (gpu_width g -! x);
  let w := Z.min w dw in
  dh ← mlift (gpu_height g -! y);
  let h := Z.min h dh in
  o ← mlift (p ← y *! gpu_width g @ 32; p +! x @ 32);
  let offset := o * 4 in
  _ ← submit (TransferToHost2d x y w h offset) VIRTIO_GPU_RESP_OK_NODATA;
  submit (ResourceFlush x y w h) VIRTIO_GPU_RESP_OK_NODATA.

(** [init] on the [Once]. *)
Definition gpu_init (rounds : nat) (devs : option (list PciDevice)) (once : option VirtioGpu) : V (option VirtioGpu) :=
  g ← gpu_probe rounds devs;
  mok (Some (default g once)).

(** [present_full] on the object in the [Once]. *)
Definition present_full : M (machine (D := D) * option VirtioGpu) string unit := fun '(s, once) =>
  match once with
  | None => Ret ((s, None), Err "virtio-gpu: non initialisé"%string)
  | Some g =>
      match present_region 0 0 (gpu_width g) (gpu_height g) (s, g) with
      | Ret ((s', g'), r) => Ret ((s', Some g'), r)
      | Panic => Panic
      end
  end.

End gpu.
