(* ===== verification/VirtioCorrect.v ===== *)
(** * A virtio display adapter

    The device at the other end of the queue, as the virtio specification
    describes it: the registers of the common configuration, one control
    queue in split layout, and the two-dimensional commands on one resource
    with a backing in RAM, shown on one scanout. *)
From S2P Require Import Prelude Phys FrameAllocator FrameRefcount Paging Ports Pci Mmio Virtio VirtioGpu.
Local Open Scope Z_scope.

Record adapter := mkAd {
  ad_common : Z;                 (** where the common configuration is mapped *)
  ad_notify : Z;                 (** and the doorbell of queue 0 *)
  ad_mode : Z * Z;               (** the size of the display *)
  ad_delay : nat;                (** how long it takes to look at a doorbell *)
  ad_status : Z;
  ad_feat_sel : Z;
  ad_queue : Z * Z * Z;          (** the addresses of the three tables *)
  ad_enabled : bool;
  ad_seen : Z;                   (** requests served, modulo 2^16 *)
  ad_pending : option nat;
  ad_res : option (Z * Z);       (** the size of resource 1 *)
  ad_pix : Z -> Z -> Z;          (** and its pixels *)
  ad_back : option (Z * Z);
  ad_scan : option (Z * Z);      (** the part of the resource shown *)
  ad_screen : Z -> Z -> Z;       (** what the display shows *)
}.

Definition set_regs (st fs : Z) (q : Z * Z * Z) (en : bool) (d : adapter) : adapter :=
  mkAd (ad_common d) (ad_notify d) (ad_mode d) (ad_delay d) st fs q en (ad_seen d) (ad_pending d) (ad_res d) (ad_pix d)
    (ad_back d) (ad_scan d) (ad_screen d).
Definition set_work (seen : Z) (p : option nat) (d : adapter) : adapter :=
  mkAd (ad_common d) (ad_notify d) (ad_mode d) (ad_delay d) (ad_status d) (ad_feat_sel d) (ad_queue d) (ad_enabled d) seen p
    (ad_res d) (ad_pix d) (ad_back d) (ad_scan d) (ad_screen d).
Definition set_gfx (r : option (Z * Z)) (px : Z -> Z -> Z) (b sc : option (Z * Z)) (s : Z -> Z -> Z) (d : adapter) : adapter :=
  mkAd (ad_common d) (ad_notify d) (ad_mode d) (ad_delay d) (ad_status d) (ad_feat_sel d) (ad_queue d) (ad_enabled d) (ad_seen d)
    (ad_pending d) r px b sc s.

Definition in_rect (x y w h px py : Z) : bool := (x <=? px) && (px <? x + w) && (y <=? py) && (py <? y + h).

(** ** Commands *)

(** The [n]-byte field at [o] of a command. *)
Definition fld (req : list Z) (o n : nat) : Z := of_le (take n (drop o req)).
Definition gpu_error : list Z := CtrlHdr 0x1200.
Definition gpu_ok : list Z := CtrlHdr VIRTIO_GPU_RESP_OK_NODATA.

Definition display_info (w h : Z) : list Z :=
  CtrlHdr VIRTIO_GPU_RESP_OK_DISPLAY_INFO ++ GpuRect 0 0 w h ++ le_bytes 4 1 ++ le_bytes 4 0 ++ replicate (15 * 24) 0.

(** Pixels of the backing to the resource: row by row from [offset]. *)
Definition transfer (m : phys) (req : list Z) (d : adapter) : adapter * list Z :=
  let '(x, y, w, h) := (fld req 24 4, fld req 28 4, fld req 32 4, fld req 36 4) in
  let offset := fld req 40 8 in
  match ad_res d, ad_back d with
  | Some (rw, rh), Some (addr, len) =>
      if bool_decide (fld req 48 4 = 1 /\ x + w <= rw /\ y + h <= rh /\ 0 < w /\ 0 < h /\
                      offset + 4 * (rw * (h - 1) + w) <= len) then
        (set_gfx (ad_res d)
           (fun px py => if in_rect x y w h px py
                         then of_le (load_bytes m (addr + offset + 4 * (rw * (py - y) + (px - x))) 4)
                         else ad_pix d px py)
           (ad_back d) (ad_scan d) (ad_screen d) d, gpu_ok)
      else (d, gpu_error)
  | _, _ => (d, gpu_error)
  end.

(** Pixels of the resource to the display. *)
Definition flush (req : list Z) (d : adapter) : adapter * list Z :=
  let '(x, y, w, h) := (fld req 24 4, fld req 28 4, fld req 32 4, fld req 36 4) in
  match ad_res d, ad_scan d with
  | Some (rw, rh), Some (sw, sh) =>
      if bool_decide (fld req 40 4 = 1 /\ x + w <= rw /\ y + h <= rh) then
        (set_gfx (ad_res d) (ad_pix d) (ad_back d) (ad_scan d)
           (fun px py => if in_rect x y w h px py && in_rect 0 0 sw sh px py then ad_pix d px py else ad_screen d px py) d, gpu_ok)
      else (d, gpu_error)
  | _, _ => (d, gpu_error)
  end.

Definition command (m : phys) (req : list Z) (d : adapter) : adapter * list Z :=
  let c := fld req 0 4 in
  if c =? VIRTIO_GPU_CMD_GET_DISPLAY_INFO then (d, display_info (ad_mode d).1 (ad_mode d).2)
  else if c =? VIRTIO_GPU_CMD_RESOURCE_CREATE_2D then
    if bool_decide (fld req 24 4 = 1 /\ fld req 28 4 = 2) then
      (set_gfx (Some (fld req 32 4, fld req 36 4)) (fun _ _ => 0) None (ad_scan d) (ad_screen d) d, gpu_ok)
    else (d, gpu_error)
  else if c =? VIRTIO_GPU_CMD_RESOURCE_ATTACH_BACKING then
    if bool_decide (fld req 24 4 = 1 /\ fld req 28 4 = 1 /\ is_Some (ad_res d)) then
      (set_gfx (ad_res d) (ad_pix d) (Some (fld req 32 8, fld req 40 4)) (ad_scan d) (ad_screen d) d, gpu_ok)
    else (d, gpu_error)
  else if c =? VIRTIO_GPU_CMD_SET_SCANOUT then
    match ad_res d with
    | Some (rw, rh) =>
        if bool_decide (fld req 24 4 = 0 /\ fld req 28 4 = 0 /\ fld req 32 4 <= rw /\ fld req 36 4 <= rh /\
                        fld req 40 4 = 0 /\ fld req 44 4 = 1) then
          (set_gfx (ad_res d) (ad_pix d) (ad_back d) (Some (fld req 32 4, fld req 36 4)) (ad_screen d) d, gpu_ok)
        else (d, gpu_error)
    | None => (d, gpu_error)
    end
  else if c =? VIRTIO_GPU_CMD_TRANSFER_TO_HOST_2D then transfer m req d
  else if c =? VIRTIO_GPU_CMD_RESOURCE_FLUSH then flush req d
  else (d, gpu_error).

(** ** The queue *)

(** Serves the next request of the queue: a chain of a readable and a
    writable buffer. *)
Definition serve (d : adapter) (m : phys) : adapter * phys :=
  let '(da, aa, ua) := ad_queue d in
  let slot := ad_seen d mod 64 in
  let head := ld m (aa + 4 + 2 * slot) 2 in
  let next := ld m (da + 16 * head + 14) 2 in
  let req := load_bytes m (ld m (da + 16 * head) 8) (Z.to_nat (ld m (da + 16 * head + 8) 4)) in
  let resp_at := ld m (da + 16 * next) 8 in
  let resp_len := ld m (da + 16 * next + 8) 4 in
  let '(d, resp) := command m req d in
  let out := take (Z.to_nat resp_len) resp in
  let m := store_bytes m resp_at out in
  let m := store_bytes m (ua + 4 + 8 * slot) (le_bytes 4 head ++ le_bytes 4 (lenZ out)) in
  let m := store_bytes m (ua + 2) (le_bytes 2 (wrap 16 (ad_seen d + 1))) in
  (set_work (wrap 16 (ad_seen d + 1)) None d, m).

(** The doorbell is looked at once the delay has passed. *)
Definition work (dm : adapter * phys) : adapter * phys :=
  let '(d, m) := dm in
  match ad_pending d with
  | None => (d, m)
  | Some (S k) => (set_work (ad_seen d) (Some k) d, m)
  | Some O =>
      if bool_decide (ld m ((ad_queue d).1.2 + 2) 2 = ad_seen d) || negb (ad_enabled d)
      then (set_work (ad_seen d) None d, m) else serve d m
  end.

(** ** The registers *)

Definition reset (d : adapter) : adapter :=
  mkAd (ad_common d) (ad_notify d) (ad_mode d) (ad_delay d) 0 0 (0, 0, 0) false 0 None None (fun _ _ => 0) None None (ad_screen d).

Definition reg_read (o : Z) (d : adapter) : Z :=
  if o =? OFF_DEV_STATUS then ad_status d
  else if o =? OFF_DEV_FEAT then (if ad_feat_sel d =? 1 then 1 else 0)
  else if o =? OFF_NUM_QUEUES then 2
  else if o =? OFF_QUEUE_SIZE then 64
  else 0.

Definition reg_write (o v : Z) (d : adapter) : adapter :=
  let '(da, aa, ua) := ad_queue d in
  if o =? OFF_DEV_STATUS then if v =? 0 then reset d else set_regs v (ad_feat_sel d) (ad_queue d) (ad_enabled d) d
  else if o =? OFF_DEV_FEAT_SEL then set_regs (ad_status d) v (ad_queue d) (ad_enabled d) d
  else if o =? OFF_QUEUE_DESC then set_regs (ad_status d) (ad_feat_sel d) (v, aa, ua) (ad_enabled d) d
  else if o =? OFF_QUEUE_DRIVER then set_regs (ad_status d) (ad_feat_sel d) (da, v, ua) (ad_enabled d) d
  else if o =? OFF_QUEUE_DEVICE then set_regs (ad_status d) (ad_feat_sel d) (da, aa, v) (ad_enabled d) d
  else if o =? OFF_QUEUE_ENABLE then set_regs (ad_status d) (ad_feat_sel d) (ad_queue d) (v =? 1) d
  else d.

#[export] Instance adapter_mmio : Mmio adapter := {|
  mm_read _ a dm := (dm, reg_read (a - ad_common dm.1) dm.1);
  mm_write _ a v dm :=
    if a =? ad_notify dm.1 then (set_work (ad_seen dm.1) (Some (ad_delay dm.1)) dm.1, dm.2)
    else (reg_write (a - ad_common dm.1) v dm.1, dm.2);
  mm_spin := work;
|}.

(** * Correctness of the display adapter's driver

    A request goes through the queue and the adapter above answers
    it; presenting a region makes the display show the frame buffer there. *)
From S2P Require Import Steps.

Ltac by_sep H := revert H; unfold sep, lenZ; cbn [length desc_bytes le_bytes app]; rewrite ?length_app, ?length_replicate; cbn; lia.

Ltac lsep := unfold sep, lenZ; cbn [length desc_bytes le_bytes app]; rewrite ?length_app, ?length_replicate; cbn; lia.

(** ** The tables and the buffers *)

Section driver.
Context (mm : Mem).

(** The places of the queue and of the buffers, apart from each other and
    from the [n] bytes at [fb]. *)
Record layout (n : Z) : Prop := {
  l_da : sep (desc_box mm) 1024 (avail_box mm) 134;
  l_du : sep (desc_box mm) 1024 (used_box mm) 520;
  l_dq : sep (desc_box mm) 1024 (req_buf mm) 72;
  l_dp : sep (desc_box mm) 1024 (resp_buf mm) 408;
  l_df : sep (desc_box mm) 1024 (fb_box mm) n;
  l_au : sep (avail_box mm) 134 (used_box mm) 520;
  l_aq : sep (avail_box mm) 134 (req_buf mm) 72;
  l_ap : sep (avail_box mm) 134 (resp_buf mm) 408;
  l_af : sep (avail_box mm) 134 (fb_box mm) n;
  l_uq : sep (used_box mm) 520 (req_buf mm) 72;
  l_up : sep (used_box mm) 520 (resp_buf mm) 408;
  l_uf : sep (used_box mm) 520 (fb_box mm) n;
  l_qp : sep (req_buf mm) 72 (resp_buf mm) 408;
  l_qf : sep (req_buf mm) 72 (fb_box mm) n;
  l_pf : sep (resp_buf mm) 408 (fb_box mm) n;
}.

(** The memory the driver may write. *)
Definition scratch (x : Z) : Prop :=
  desc_box mm <= x < desc_box mm + 1024 \/ avail_box mm <= x < avail_box mm + 134 \/
  used_box mm <= x < used_box mm + 520 \/ req_buf mm <= x < req_buf mm + 72 \/ resp_buf mm <= x < resp_buf mm + 408.
Definition kept (m m' : phys) : Prop := forall x, ~ scratch x -> m' x = m x.

Lemma kept_refl m : kept m m.
Proof. done. Qed.
Lemma kept_trans m m' m'' : kept m m' -> kept m' m'' -> kept m m''.
Proof. intros H1 H2 x Hx. by rewrite H2, H1. Qed.
Lemma kept_store m a l : (forall x, a <= x < a + lenZ l -> scratch x) -> kept m (store_bytes m a l).
Proof. intros Hs x Hx. apply store_out. intros Hin. by apply Hx, Hs. Qed.

(** The queue between two requests, [n] served so far. *)
Record queue_ok (n : Z) (q : VirtQueue) (d : adapter) (m : phys) : Prop := {
  k_range : 0 <= n < 2 ^ 16;
  k_desc : desc_phys q = desc_box mm;
  k_avail : avail_phys q = avail_box mm;
  k_used : used_phys q = used_box mm;
  k_last : last_used q = n;
  k_dev : ad_queue d = (desc_box mm, avail_box mm, used_box mm);
  k_on : ad_enabled d = true;
  k_seen : ad_seen d = n;
  k_idle : ad_pending d = None;
  k_aidx : ld m (avail_box mm + 2) 2 = n;
  k_uidx : ld m (used_box mm + 2) 2 = n;
  k_addr : fits 64 (req_buf mm) /\ fits 64 (resp_buf mm);
}.

(** ** A request in memory *)

Definition desc0 (len : Z) : Desc := mkDesc (req_buf mm) (wrap 32 len) VIRTQ_DESC_F_NEXT 1.
Definition desc1 (len : Z) : Desc := mkDesc (resp_buf mm) (wrap 32 len) VIRTQ_DESC_F_WRITE 0.
(** The RAM when the doorbell rings: the command, the cleared response, the
    two descriptors, the ring and its index. *)
Definition filled (cmd : list Z) (rl : nat) (m : phys) : phys :=
  store_bytes (store_bytes m (req_buf mm) cmd) (resp_buf mm) (replicate rl 0).
Definition chained (cmd : list Z) (rl : nat) (m : phys) : phys :=
  store_bytes (store_bytes (filled cmd rl m) (desc_box mm + 16 * 0) (desc_bytes (desc0 (lenZ cmd))))
    (desc_box mm + 16 * 1) (desc_bytes (desc1 (Z.of_nat rl))).
Definition posted (n : Z) (cmd : list Z) (rl : nat) (m : phys) : phys :=
  store_bytes (store_bytes (chained cmd rl m) (avail_box mm + 4 + 2 * (n mod 64)) (le_bytes 2 0))
    (avail_box mm + 2) (le_bytes 2 (wrap 16 (n + 1))).

Section request.
Context (n : Z) (cmd : list Z) (rl : nat) (m : phys) (fbn : Z).
Context (Hn : 0 <= n < 2 ^ 16) (Hcmd : (0 < length cmd <= 72)%nat) (Hrl : (0 < rl <= 408)%nat) (Hlay : layout fbn).

Lemma slot_range : 0 <= n mod 64 < 64.
Proof. by apply Z.mod_pos_bound. Qed.

Lemma filled_sep b k :
  sep (req_buf mm) 72 b (Z.of_nat k) -> sep (resp_buf mm) 408 b (Z.of_nat k) ->
  load_bytes (filled cmd rl m) b k = load_bytes m b k.
Proof. intros H1 H2. unfold filled. rewrite !load_store_sep; [done|by_sep H1|by_sep H2]. Qed.

Lemma chained_sep b k :
  sep (req_buf mm) 72 b (Z.of_nat k) -> sep (resp_buf mm) 408 b (Z.of_nat k) -> sep (desc_box mm) 1024 b (Z.of_nat k) ->
  load_bytes (chained cmd rl m) b k = load_bytes m b k.
Proof. intros H1 H2 H3. unfold chained. rewrite !load_store_sep; [by apply filled_sep|by_sep H3..]. Qed.

Lemma posted_sep b k : sep (avail_box mm) 134 b (Z.of_nat k) ->
  load_bytes (posted n cmd rl m) b k = load_bytes (chained cmd rl m) b k.
Proof. intros H1. pose proof slot_range. unfold posted. rewrite !load_store_sep; [done|by_sep H1..]. Qed.

(** What the device finds there. *)
Record found : Prop := {
  f_aidx : ld (posted n cmd rl m) (avail_box mm + 2) 2 = wrap 16 (n + 1);
  f_head : ld (posted n cmd rl m) (avail_box mm + 4 + 2 * (n mod 64)) 2 = 0;
  f_qaddr : ld (posted n cmd rl m) (desc_box mm) 8 = req_buf mm;
  f_qlen : ld (posted n cmd rl m) (desc_box mm + 8) 4 = lenZ cmd;
  f_next : ld (posted n cmd rl m) (desc_box mm + 14) 2 = 1;
  f_paddr : ld (posted n cmd rl m) (desc_box mm + 16) 8 = resp_buf mm;
  f_plen : ld (posted n cmd rl m) (desc_box mm + 16 + 8) 4 = Z.of_nat rl;
  f_req : load_bytes (posted n cmd rl m) (req_buf mm) (length cmd) = cmd;
  f_uidx : ld (posted n cmd rl m) (used_box mm + 2) 2 = ld m (used_box mm + 2) 2;
  f_kept : kept m (posted n cmd rl m);
}.

(** The first descriptor is below the second. *)
Lemma chained_first i k z : z = Z.of_nat i -> (i + k <= 16)%nat ->
  load_bytes (chained cmd rl m) (desc_box mm + z) k = take k (drop i (desc_bytes (desc0 (lenZ cmd)))).
Proof.
  intros -> Hk. unfold chained. rewrite load_store_sep by lsep.
  replace (desc_box mm + 16 * 0) with (desc_box mm) by lia. by apply load_store_at.
Qed.
Lemma chained_second i k z : z = Z.of_nat i -> (i + k <= 16)%nat ->
  load_bytes (chained cmd rl m) (desc_box mm + 16 + z) k = take k (drop i (desc_bytes (desc1 (Z.of_nat rl)))).
Proof.
  intros -> Hk. unfold chained. replace (desc_box mm + 16 * 1) with (desc_box mm + 16) by lia. by apply load_store_at.
Qed.

Context (Haddr : fits 64 (req_buf mm) /\ fits 64 (resp_buf mm)).

Lemma posted_kept : kept m (posted n cmd rl m).
Proof.
  pose proof slot_range as Hslot. unfold posted, chained, filled, lenZ in *.
  repeat (eapply kept_trans; [|apply kept_store; intros x; unfold lenZ; cbn [length desc_bytes le_bytes app];
    rewrite ?length_app, ?length_replicate; cbn; unfold scratch; lia]). apply kept_refl.
Qed.

Lemma posted_found : found.
Proof.
  pose proof slot_range as Hslot. destruct Haddr as [Hq Hp].
  assert (Hd : forall i k, (i + k <= 32)%nat -> sep (avail_box mm) 134 (desc_box mm + Z.of_nat i) (Z.of_nat k)).
  { intros i k Hk. pose proof (l_da _ Hlay) as Hs. by_sep Hs. }
  assert (Hle : forall w v, fits (8 * Z.of_nat w) v -> of_le (le_bytes w v) = v) by (intros; by apply of_le_bytes_id).
  assert (Hc : wrap 32 (lenZ cmd) = lenZ cmd) by (apply Z.mod_small; unfold lenZ; lia).
  assert (Hr : wrap 32 (Z.of_nat rl) = Z.of_nat rl) by (apply Z.mod_small; lia).
  split; unfold ld.
  - unfold posted. change 2%nat with (length (le_bytes 2 (wrap 16 (n + 1)))) at 2. rewrite load_store_bytes.
    apply Hle. by apply Z.mod_pos_bound.
  - unfold posted. rewrite load_store_sep by lsep.
    change 2%nat with (length (le_bytes 2 0)) at 2. by rewrite load_store_bytes.
  - pose proof (chained_first 0 8 0 eq_refl ltac:(lia)) as E. pose proof (Hd 0%nat 8%nat ltac:(lia)) as Hs.
    change (Z.of_nat 0) with 0 in Hs. rewrite Z.add_0_r in E, Hs. rewrite posted_sep, E by done. by apply (Hle 8%nat).
  - rewrite posted_sep by (apply (Hd 8%nat 4%nat); lia). rewrite (chained_first 8 4) by lia.
    rewrite <- Hc at 2. apply (Hle 4%nat). by apply Z.mod_pos_bound.
  - rewrite posted_sep by (apply (Hd 14%nat 2%nat); lia). by rewrite (chained_first 14 2) by lia.
  - pose proof (chained_second 0 8 0 eq_refl ltac:(lia)) as E. rewrite Z.add_0_r in E.
    rewrite posted_sep, E by (apply (Hd 16%nat 8%nat); lia). by apply (Hle 8%nat).
  - rewrite posted_sep by (rewrite <- Z.add_assoc; apply (Hd 24%nat 4%nat); lia).
    rewrite (chained_second 8 4) by lia. rewrite <- Hr at 2. apply (Hle 4%nat). by apply Z.mod_pos_bound.
  - pose proof (l_aq _ Hlay) as H1. pose proof (l_dq _ Hlay) as H2. pose proof (l_qp _ Hlay) as H3.
    rewrite posted_sep by by_sep H1. unfold chained, filled.
    rewrite !load_store_sep by (first [by_sep H2|by_sep H3]). apply load_store_bytes.
  - pose proof (l_au _ Hlay) as H1. pose proof (l_uq _ Hlay) as H2. pose proof (l_up _ Hlay) as H3.
    pose proof (l_du _ Hlay) as H4.
    rewrite posted_sep by by_sep H1. rewrite chained_sep; [done|by_sep H2|by_sep H3|by_sep H4].
  - apply posted_kept.
Qed.
End request.


(** ** The answer *)

Lemma command_frame m' req d :
  let d' := (command m' req d).1 in
  ad_queue d' = ad_queue d /\ ad_enabled d' = ad_enabled d /\ ad_seen d' = ad_seen d /\ ad_pending d' = ad_pending d /\
  ad_common d' = ad_common d /\ ad_notify d' = ad_notify d /\ ad_delay d' = ad_delay d /\ ad_mode d' = ad_mode d.
Proof. unfold command, transfer, flush. cbv zeta. repeat case_match; done. Qed.

(** The RAM after the answer [out] to request [n]. *)
Definition answered (n : Z) (out : list Z) (m : phys) : phys :=
  store_bytes
    (store_bytes (store_bytes m (resp_buf mm) out) (used_box mm + 4 + 8 * (n mod 64)) (le_bytes 4 0 ++ le_bytes 4 (lenZ out)))
    (used_box mm + 2) (le_bytes 2 (wrap 16 (n + 1))).

Lemma answered_reads n out m fbn : layout fbn -> (length out <= 408)%nat ->
  ld (answered n out m) (used_box mm + 2) 2 = wrap 16 (n + 1) /\
  ld (answered n out m) (used_box mm + 4 + 8 * (n mod 64) + 4) 4 = lenZ out /\
  (forall i k, (i + k <= length out)%nat ->
     load_bytes (answered n out m) (resp_buf mm + Z.of_nat i) k = take k (drop i out)) /\
  ld (answered n out m) (avail_box mm + 2) 2 = ld m (avail_box mm + 2) 2 /\
  kept m (answered n out m).
Proof.
  intros Hlay Hout. pose proof (slot_range n) as Hslot. unfold ld, answered. split_and!.
  - change 2%nat with (length (le_bytes 2 (wrap 16 (n + 1)))) at 2. rewrite load_store_bytes.
    apply of_le_bytes_id. by apply Z.mod_pos_bound.
  - rewrite load_store_sep by lsep. rewrite (load_store_at _ _ _ 4) by (cbn; lia).
    apply (of_le_bytes_id 4). unfold fits, lenZ. lia.
  - intros i k Hk. pose proof (l_up _ Hlay) as Hs. rewrite !load_store_sep by by_sep Hs. by apply load_store_at.
  - pose proof (l_au _ Hlay) as Hs. pose proof (l_ap _ Hlay) as Hs'. rewrite !load_store_sep; [done|by_sep Hs'|by_sep Hs..].
  - repeat (eapply kept_trans; [|apply kept_store; intros x; unfold lenZ in *; cbn [length le_bytes app];
      rewrite ?length_app; cbn; unfold scratch; lia]). apply kept_refl.
Qed.

Lemma next_ne n : 0 <= n < 2 ^ 16 -> wrap 16 (n + 1) <> n.
Proof. unfold wrap. intros Hn. destruct (decide (n = 65535)) as [->|]; [done|]. rewrite Z.mod_small; lia. Qed.

Lemma work_serves n cmd rl m d fbn q0 d' resp :
  layout fbn -> (0 < length cmd <= 72)%nat -> (0 < rl <= 408)%nat -> queue_ok n q0 d m ->
  command (posted n cmd rl m) cmd (set_work n (Some O) d) = (d', resp) ->
  work (set_work n (Some O) d, posted n cmd rl m) =
  (set_work (wrap 16 (n + 1)) None d', answered n (take rl resp) (posted n cmd rl m)).
Proof.
  intros Hlay Hcmd Hrl Hq Ec. destruct Hq.
  destruct (posted_found n cmd rl m fbn Hcmd Hrl Hlay k_addr0).
  pose proof (command_frame (posted n cmd rl m) cmd (set_work n (Some O) d)) as Hf. rewrite Ec in Hf. cbn in Hf.
  destruct Hf as (Hfq & Hfe & Hfs & _).
  unfold work. cbn [ad_pending set_work ad_seen ad_enabled ad_queue]. rewrite k_dev0, k_on0. cbn [fst snd negb orb].
  rewrite f_aidx0, bool_decide_eq_false_2; cbn [orb].
  2: { by apply next_ne. }
  unfold serve. cbn [ad_queue set_work ad_seen]. rewrite k_dev0, f_head0. rewrite Z.mul_0_r, Z.add_0_r.
  rewrite f_next0. change (16 * 1) with 16. rewrite f_qaddr0, f_qlen0, f_paddr0, f_plen0, !Nat2Z.id.
  unfold lenZ at 1. rewrite Nat2Z.id, f_req0, Ec, Hfs. reflexivity.
Qed.


(** ** The driver *)

Lemma wait_used_go km q d m fuel : (1 < fuel)%nat -> ld m (used_phys q + 2) 2 = last_used q ->
  wait_used fuel q (st km d m) = wait_used (pred fuel) q (st km (work (d, m)).1 (work (d, m)).2).
Proof.
  intros Hf Hl. destruct fuel as [|[|fuel]]; [lia..|]. cbn [wait_used pred].
  rewrite (mbindM_Ret _ _ _ _ _ (peek_st _ _ _ _ _)). unfold used_idx_at. rewrite Hl, Z.eqb_refl. cbn [negb].
  by rewrite (mbindM_Ret _ _ _ _ _ (spin_st _ _ _)).
Qed.
Lemma wait_used_done km q d m fuel : ld m (used_phys q + 2) 2 <> last_used q ->
  wait_used fuel q (st km d m) = Ret (st km d m, Ok tt).
Proof.
  intros Hl. destruct fuel as [|fuel]; cbn [wait_used]; rewrite (mbindM_Ret _ _ _ _ _ (peek_st _ _ _ _ _));
    unfold used_idx_at; by rewrite (proj2 (Z.eqb_neq _ _) Hl).
Qed.

Lemma wait_used_st km n q m d'' m'' (k : nat) : forall fuel d, (k + 1 < fuel)%nat ->
  last_used q = n -> ld m (used_phys q + 2) 2 = n -> ad_seen d = n ->
  work (set_work n (Some O) d, m) = (d'', m'') -> ld m'' (used_phys q + 2) 2 <> n ->
  wait_used fuel q (st km (set_work n (Some k) d) m) = Ret (st km d'' m'', Ok tt).
Proof.
  induction k as [|k IH]; intros fuel d Hf Hlast Hld Hs Hw Hne; rewrite wait_used_go by (lia || congruence).
  - rewrite Hw. apply wait_used_done. by rewrite Hlast.
  - apply (IH (pred fuel) d); done || lia.
Qed.

(** The adapter looks at a doorbell in time. *)
Definition timely (d : adapter) : Prop := Z.of_nat (ad_delay d) + 2 <= 50000000.

Definition next_queue (q : VirtQueue) : VirtQueue :=
  mkQueue (desc_phys q) (avail_phys q) (used_phys q) (next_desc q) (wrap 16 (last_used q + 1)) (notify_off q).

Lemma notify_st km d m t q : notify_base t + notify_off q * notify_off_multiplier t = ad_notify d ->
  notify t (notify_off q) (st km d m) = Ret (st km (set_work (ad_seen d) (Some (ad_delay d)) d) m, Ok tt).
Proof. intros Hn. unfold notify, mmio_write. cbn. rewrite Hn, Z.eqb_refl. done. Qed.

Lemma submit_request_st km n cmd rl m d fbn t q d' resp :
  layout fbn -> (0 < length cmd <= 72)%nat -> (0 < rl <= 408)%nat -> queue_ok n q d m -> timely d ->
  notify_base t + notify_off q * notify_off_multiplier t = ad_notify d ->
  command (posted n cmd rl m) cmd (set_work n (Some O) d) = (d', resp) ->
  submit_request t q (req_buf mm) (lenZ cmd) (resp_buf mm) (Z.of_nat rl) (st km d (filled cmd rl m)) =
  Ret (st km (set_work (wrap 16 (n + 1)) None d') (answered n (take rl resp) (posted n cmd rl m)),
       Ok (next_queue q, lenZ (take rl resp))).
Proof.
  intros Hlay Hcmd Hrl Hq Ht Hnot Ec. pose proof (work_serves n cmd rl m d fbn q d' resp Hlay Hcmd Hrl Hq Ec) as Hw.
  pose proof Hq as Hq'. destruct Hq'. destruct (posted_found n cmd rl m fbn Hcmd Hrl Hlay k_addr0).
  destruct (answered_reads n (take rl resp) (posted n cmd rl m) fbn Hlay) as (Ru & Rl & _ & _ & _).
  { rewrite length_take. lia. }
  assert (Ha : ld (chained cmd rl m) (avail_box mm + 2) 2 = n).
  { unfold ld. pose proof (l_aq _ Hlay) as H1. pose proof (l_ap _ Hlay) as H2. pose proof (l_da _ Hlay) as H3.
    rewrite (chained_sep cmd rl m Hcmd Hrl); [done|by_sep H1|by_sep H2|by_sep H3]. }
  unfold submit_request. rewrite !bool_decide_eq_false_2 by (unfold lenZ; lia). cbn [orb].
  unfold desc_at, avail_idx_at, avail_ring_at, used_elem_at. rewrite k_desc0, k_avail0, k_used0, k_last0.
  do 2 rewrite (mbindM_Ret _ _ _ _ _ (poke_st _ _ _ _ _)).
  rewrite (mbindM_Ret _ _ _ _ _ (peek_st _ _ _ _ _)). fold (desc0 (lenZ cmd)) (desc1 (Z.of_nat rl)).
  change (store_bytes (store_bytes (filled cmd rl m) _ _) _ _) with (chained cmd rl m). rewrite Ha.
  do 2 rewrite (mbindM_Ret _ _ _ _ _ (poke_st _ _ _ _ _)).
  change (store_bytes (store_bytes (chained cmd rl m) _ _) _ _) with (posted n cmd rl m).
  rewrite (mbindM_Ret _ _ _ _ _ (notify_st _ _ _ _ _ Hnot)), k_seen0.
  rewrite (mbindM_Ret _ _ _ _ _ (wait_used_st km n q _ _ _ (ad_delay d) timeout_iters d
    ltac:(unfold timely, timeout_iters in *; lia) k_last0 ltac:(by rewrite k_used0, f_uidx0) k_seen0 Hw
    ltac:(rewrite k_used0, Ru; apply next_ne; done))).
  rewrite (mbindM_Ret _ _ _ _ _ (peek_st _ _ _ _ _)), Rl. unfold next_queue. by rewrite k_desc0, k_avail0, k_used0, k_last0.
Qed.

(** The machine after a request: the device [d'] the command left, and a
    RAM changed in the driver's own memory only. *)
Lemma queue_next n q d m fbn cmd rl d' resp :
  layout fbn -> (0 < length cmd <= 72)%nat -> (0 < rl <= 408)%nat -> queue_ok n q d m ->
  command (posted n cmd rl m) cmd (set_work n (Some O) d) = (d', resp) ->
  let m' := answered n (take rl resp) (posted n cmd rl m) in
  queue_ok (wrap 16 (n + 1)) (next_queue q) (set_work (wrap 16 (n + 1)) None d') m' /\ kept m m'.
Proof.
  intros Hlay Hcmd Hrl [] Ec m'. destruct (posted_found n cmd rl m fbn Hcmd Hrl Hlay k_addr0).
  destruct (answered_reads n (take rl resp) (posted n cmd rl m) fbn Hlay) as (Ru & _ & _ & Ra & Rk).
  { rewrite length_take. lia. }
  pose proof (command_frame (posted n cmd rl m) cmd (set_work n (Some O) d)) as Hf. rewrite Ec in Hf. cbn in Hf.
  destruct Hf as (Hfq & Hfe & _). split; [|by eapply kept_trans].
  split; cbn [next_queue desc_phys avail_phys used_phys last_used ad_queue ad_enabled ad_seen ad_pending set_work];
    try done; try congruence.
  - by apply Z.mod_pos_bound.
  - unfold m'. by rewrite Ra.
Qed.

Lemma submit_st km n cmd exp m d fbn g d' :
  layout fbn -> (0 < length cmd <= 72)%nat -> queue_ok n (queue g) d m -> timely d -> fits 32 exp ->
  notify_base (transport g) + notify_off (queue g) * notify_off_multiplier (transport g) = ad_notify d ->
  command (posted n cmd 256 m) cmd (set_work n (Some O) d) = (d', CtrlHdr exp) ->
  submit mm cmd exp (st km d m, g) =
  Ret ((st km (set_work (wrap 16 (n + 1)) None d') (answered n (CtrlHdr exp) (posted n cmd 256 m)),
        set_queue (next_queue (queue g)) g), Ok tt).
Proof.
  intros Hlay Hcmd Hq Ht Hexp Hnot Ec.
  pose proof (submit_request_st km n cmd 256 m d fbn _ _ _ _ Hlay Hcmd ltac:(lia) Hq Ht Hnot Ec) as Hs.
  destruct (answered_reads n (CtrlHdr exp) (posted n cmd 256 m) fbn Hlay) as (_ & _ & Rr & _); [cbn; lia|].
  change (take 256 (CtrlHdr exp)) with (CtrlHdr exp) in Hs. change (Z.of_nat 256) with 256 in Hs.
  unfold submit, self. rewrite (mbindM_Ret _ _ _ (st km d m, g) g) by done.
  rewrite (mbindM_Ret _ _ _ (st km d (store_bytes m (req_buf mm) cmd), g) tt) by done.
  rewrite (mbindM_Ret _ _ _ (st km d (filled cmd 256 m), g) tt) by done.
  rewrite (mbindM_Ret _ _ _ (st km (set_work (wrap 16 (n + 1)) None d') (answered n (CtrlHdr exp) (posted n cmd 256 m)), g)
    (next_queue (queue g), 24)) by (unfold on_machine, zoom; cbn [fst snd]; by rewrite Hs).
  cbn [Z.ltb Z.compare Pos.compare Pos.compare_cont].
  rewrite (mbindM_Ret _ _ _ (st km (set_work (wrap 16 (n + 1)) None d') (answered n (CtrlHdr exp) (posted n cmd 256 m)),
    set_queue (next_queue (queue g)) g) tt) by done.
  rewrite (mbindM_Ret _ _ _ (st km (set_work (wrap 16 (n + 1)) None d') (answered n (CtrlHdr exp) (posted n cmd 256 m)),
    set_queue (next_queue (queue g)) g) exp).
  - by rewrite Z.eqb_refl.
  - unfold on_machine, zoom. cbn [fst snd]. rewrite peek_st. repeat f_equal. unfold ld.
    pose proof (Rr 0%nat 4%nat ltac:(cbn; lia)) as E. change (Z.of_nat 0) with 0 in E. rewrite Z.add_0_r in E.
    rewrite E. by apply (of_le_bytes_id 4).
Qed.

(** ** Commands of the display *)

Lemma fld_le req o n v : take n (drop o req) = le_bytes n v -> fits (8 * Z.of_nat n) v -> fld req o n = v.
Proof. intros E Hv. unfold fld. rewrite E. by apply of_le_bytes_id. Qed.

Lemma command_transfer m d x y w h off rw rh addr len :
  fits 32 x -> fits 32 y -> fits 32 w -> fits 32 h -> fits 64 off ->
  ad_res d = Some (rw, rh) -> ad_back d = Some (addr, len) ->
  x + w <= rw -> y + h <= rh -> 0 < w -> 0 < h -> off + 4 * (rw * (h - 1) + w) <= len ->
  command m (TransferToHost2d x y w h off) d =
  (set_gfx (ad_res d)
     (fun px py => if in_rect x y w h px py then ld m (addr + off + 4 * (rw * (py - y) + (px - x))) 4 else ad_pix d px py)
     (ad_back d) (ad_scan d) (ad_screen d) d, gpu_ok).
Proof.
  intros Hx Hy Hw Hh Ho Er Eb ?????. change (command m (TransferToHost2d x y w h off) d) with
    (transfer m (TransferToHost2d x y w h off) d). unfold transfer.
  rewrite (fld_le _ 24 4 x), (fld_le _ 28 4 y), (fld_le _ 32 4 w), (fld_le _ 36 4 h), (fld_le _ 40 8 off) by done.
  rewrite Er, Eb, bool_decide_eq_true_2; [done|]. split_and!; done || lia.
Qed.

Lemma command_flush m d x y w h rw rh sw sh :
  fits 32 x -> fits 32 y -> fits 32 w -> fits 32 h -> ad_res d = Some (rw, rh) -> ad_scan d = Some (sw, sh) ->
  x + w <= rw -> y + h <= rh ->
  command m (ResourceFlush x y w h) d =
  (set_gfx (ad_res d) (ad_pix d) (ad_back d) (ad_scan d)
     (fun px py => if in_rect x y w h px py && in_rect 0 0 sw sh px py then ad_pix d px py else ad_screen d px py) d, gpu_ok).
Proof.
  intros Hx Hy Hw Hh Er Es ??. change (command m (ResourceFlush x y w h) d) with (flush (ResourceFlush x y w h) d). unfold flush.
  rewrite (fld_le _ 24 4 x), (fld_le _ 28 4 y), (fld_le _ 32 4 w), (fld_le _ 36 4 h) by done.
  rewrite Er, Es, bool_decide_eq_true_2; [done|]. split_and!; done || lia.
Qed.

(** ** Presenting a region *)

(** The driver and the adapter agree on the queue and the doorbell. *)
Record linked (fbn n : Z) (g : VirtioGpu) (d : adapter) (m : phys) : Prop := {
  i_layout : layout fbn;
  i_queue : queue_ok n (queue g) d m;
  i_timely : timely d;
  i_bell : notify_base (transport g) + notify_off (queue g) * notify_off_multiplier (transport g) = ad_notify d;
}.

(** And on the one resource, whose backing is the frame buffer. *)
Record gpu_ready (n : Z) (g : VirtioGpu) (d : adapter) (m : phys) : Prop := {
  r_link : linked (4 * (gpu_width g * gpu_height g)) n g d m;
  r_width : 0 < gpu_width g;
  r_height : 0 < gpu_height g;
  r_size : 4 * (gpu_width g * gpu_height g) < 2 ^ 32;
  r_fb : gpu_fb g = fb_box mm;
  r_res : ad_res d = Some (gpu_width g, gpu_height g);
  r_back : ad_back d = Some (gpu_fb g, 4 * (gpu_width g * gpu_height g));
  r_scan : ad_scan d = Some (gpu_width g, gpu_height g);
}.

(** The pixel of the frame buffer at column [px] of row [py]. *)
Definition fb_pixel (g : VirtioGpu) (m : phys) (px py : Z) : Z := ld m (gpu_fb g + 4 * (gpu_width g * py + px)) 4.

(** The frame buffer is not in the driver's own memory. *)
Lemma fb_pixel_kept g m m' px py : layout (4 * (gpu_width g * gpu_height g)) -> gpu_fb g = fb_box mm -> kept m m' ->
  0 <= px < gpu_width g -> 0 <= py < gpu_height g -> fb_pixel g m' px py = fb_pixel g m px py.
Proof.
  intros Hl Hfb Hk Hx Hy. unfold fb_pixel, ld. f_equal. apply load_bytes_ext. intros a Ha. apply Hk.
  rewrite Hfb in Ha. assert (0 <= gpu_width g * py + px) by nia.
  assert (gpu_width g * py + px + 1 <= gpu_width g * gpu_height g) by nia.
  pose proof (l_df _ Hl) as H1. pose proof (l_af _ Hl) as H2. pose proof (l_uf _ Hl) as H3.
  pose proof (l_qf _ Hl) as H4. pose proof (l_pf _ Hl) as H5. clear Hl Hk. unfold sep in *.
  intros [|[|[|[]]]]; lia.
Qed.

Lemma linked_submit km fbn n cmd exp m d g d' :
  linked fbn n g d m -> (0 < length cmd <= 72)%nat -> fits 32 exp ->
  command (posted n cmd 256 m) cmd (set_work n (Some O) d) = (d', CtrlHdr exp) ->
  exists m', let g' := set_queue (next_queue (queue g)) g in
    submit mm cmd exp (st km d m, g) = Ret ((st km (set_work (wrap 16 (n + 1)) None d') m', g'), Ok tt) /\
    linked fbn (wrap 16 (n + 1)) g' (set_work (wrap 16 (n + 1)) None d') m' /\ kept m m'.
Proof.
  intros [] Hc He Ec. pose proof (command_frame (posted n cmd 256 m) cmd (set_work n (Some O) d)) as Hf.
  rewrite Ec in Hf. cbn in Hf. destruct Hf as (_ & _ & _ & _ & _ & Hn & Hdl & _).
  destruct (queue_next n _ d m _ cmd 256 d' _ i_layout0 Hc ltac:(lia) i_queue0 Ec) as [Hq Hk].
  eexists. cbv zeta. split; [by eapply submit_st|]. split; [|done].
  split; cbn [queue transport set_queue next_queue notify_off ad_notify set_work]; [assumption|assumption| |congruence].
  unfold timely in *. cbn [ad_delay set_work]. by rewrite Hdl.
Qed.

Lemma ready_submit km n cmd exp m d g d' :
  gpu_ready n g d m -> (0 < length cmd <= 72)%nat -> fits 32 exp ->
  command (posted n cmd 256 m) cmd (set_work n (Some O) d) = (d', CtrlHdr exp) ->
  ad_res d' = ad_res d -> ad_back d' = ad_back d -> ad_scan d' = ad_scan d ->
  exists m' g', submit mm cmd exp (st km d m, g) = Ret ((st km (set_work (wrap 16 (n + 1)) None d') m', g'), Ok tt) /\
    gpu_ready (wrap 16 (n + 1)) g' (set_work (wrap 16 (n + 1)) None d') m' /\ kept m m' /\ g' = set_queue (next_queue (queue g)) g.
Proof.
  intros [] Hc He Ec E1 E2 E3. destruct (linked_submit km _ n cmd exp m d g d' r_link0 Hc He Ec) as (m' & Hs & Hl & Hk).
  eexists m', _. split; [exact Hs|]. split; [|done].
  split; cbn [gpu_width gpu_height gpu_fb queue set_queue ad_res ad_back ad_scan set_work]; congruence || done.
Qed.

(** A rectangle inside the display is shown: the transfer, then the flush. *)
Lemma present_inside km n g d m x y w h :
  gpu_ready n g d m -> 0 <= x -> 0 <= y -> 0 < w -> 0 < h -> x + w <= gpu_width g -> y + h <= gpu_height g ->
  exists d' m' g',
    (_ ← submit mm (TransferToHost2d x y w h ((y * gpu_width g + x) * 4)) VIRTIO_GPU_RESP_OK_NODATA;
     submit mm (ResourceFlush x y w h) VIRTIO_GPU_RESP_OK_NODATA) (st km d m, g) = Ret ((st km d' m', g'), Ok tt) /\
    gpu_ready (wrap 16 (wrap 16 (n + 1) + 1)) g' d' m' /\ kept m m' /\ (exists q, g' = set_queue q g) /\
    (forall px py, ad_screen d' px py = if in_rect x y w h px py then fb_pixel g m px py else ad_screen d px py).
Proof.
  intros Hr Hx Hy Hw Hh Hxw Hyh. pose proof Hr as Hr'. destruct Hr'. pose proof (i_layout _ _ _ _ _ r_link0) as r_layout0.
  assert (gpu_width g <= gpu_width g * gpu_height g /\ gpu_height g <= gpu_width g * gpu_height g) as [] by nia.
  assert (Hfit : fits 32 x /\ fits 32 y /\ fits 32 w /\ fits 32 h) by (unfold fits; lia).
  destruct Hfit as (Fx & Fy & Fw & Fh).
  assert (Ho : y * gpu_width g + x + (gpu_width g * (h - 1) + w) <= gpu_width g * gpu_height g) by nia.
  assert (Ho0 : 0 <= y * gpu_width g + x) by nia.
  assert (Fo : fits 64 ((y * gpu_width g + x) * 4)) by (unfold fits; lia).
  pose proof (command_transfer (posted n (TransferToHost2d x y w h ((y * gpu_width g + x) * 4)) 256 m) (set_work n (Some O) d)
    x y w h _ _ _ _ _ Fx Fy Fw Fh Fo r_res0 r_back0 Hxw Hyh Hw Hh ltac:(lia)) as E1.
  destruct (ready_submit km n (TransferToHost2d x y w h ((y * gpu_width g + x) * 4)) VIRTIO_GPU_RESP_OK_NODATA m d g _ Hr ltac:(cbn; lia) ltac:(done) E1) as (m1 & g1 & R1 & Hr1 & K1 & Eg1); [done..|].
  rewrite (mbindM_Ret _ _ _ _ _ R1). pose proof Hr1 as Hr1'. destruct Hr1'.
  match type of Hr1 with gpu_ready _ _ ?d _ => set (d1 := d) in * end.
  pose proof (command_flush (posted (wrap 16 (n + 1)) (ResourceFlush x y w h) 256 m1) (set_work (wrap 16 (n + 1)) (Some O) d1)
    x y w h _ _ _ _ Fx Fy Fw Fh r_res1 r_scan1 ltac:(by rewrite Eg1) ltac:(by rewrite Eg1)) as E2.
  destruct (ready_submit km _ (ResourceFlush x y w h) VIRTIO_GPU_RESP_OK_NODATA m1 _ g1 _ Hr1 ltac:(cbn; lia) ltac:(done) E2) as (m2 & g2 & R2 & Hr2 & K2 & Eg2); [done..|].
  eexists _, m2, g2. split; [exact R2|]. split; [done|]. split; [by eapply kept_trans|].
  split; [by rewrite Eg2, Eg1; eexists|].
  intros px py. cbn [ad_screen set_work set_gfx ad_pix]. rewrite Eg1. cbn [gpu_width gpu_height set_queue].
  destruct (in_rect x y w h px py) eqn:Ein; [|done].
  pose proof Ein as Ein'. unfold in_rect in Ein. apply andb_prop in Ein as [Ein ?%Z.ltb_lt]. apply andb_prop in Ein as [Ein ?%Z.leb_le].
  apply andb_prop in Ein as [?%Z.leb_le ?%Z.ltb_lt].
  replace (in_rect 0 0 (gpu_width g) (gpu_height g) px py) with true by (unfold in_rect; lia). cbn [andb].
  pose proof (posted_kept n (TransferToHost2d x y w h ((y * gpu_width g + x) * 4)) 256 m ltac:(cbn; lia) ltac:(lia)) as Hk.
  rewrite <- (fb_pixel_kept g m _ px py r_layout0 r_fb0 Hk) by lia. unfold fb_pixel, d1. cbn [ad_pix set_work set_gfx].
  rewrite Ein'. f_equal. ring.
Qed.

(** ** Bringing the adapter up *)

(** The transport has the adapter's registers, apart from the doorbell. *)
Record wired (t : VirtioTransport) (d : adapter) : Prop := {
  w_common : ad_common d = common_cfg t;
  w_notify : ad_notify d = notify_base t;
  w_apart : forall off, 0 <= off < 0x38 -> common_cfg t + off <> ad_notify d;
}.

Lemma cfg_write_st km t d m n off v : wired t d -> 0 <= off < 0x38 ->
  cfg_write t n off v (st km d m) = Ret (st km (reg_write off v d) m, Ok tt).
Proof.
  intros [] Ho. unfold cfg_write, mmio_write. cbn. rewrite (proj2 (Z.eqb_neq _ _) (w_apart0 _ Ho)), w_common0.
  by replace (common_cfg t + off - common_cfg t) with off by lia.
Qed.
Lemma cfg_read_st km t d m n off : wired t d -> cfg_read t n off (st km d m) = Ret (st km d m, Ok (reg_read off d)).
Proof.
  intros []. unfold cfg_read, mmio_read. cbn. rewrite w_common0.
  by replace (common_cfg t + off - common_cfg t) with off by lia.
Qed.
Lemma reg_write_frame off v d :
  ad_common (reg_write off v d) = ad_common d /\ ad_notify (reg_write off v d) = ad_notify d.
Proof. unfold reg_write. repeat case_match; done. Qed.
Lemma wired_write t d off v : wired t d -> wired t (reg_write off v d).
Proof. destruct (reg_write_frame off v d) as [E1 E2]. intros []. split; rewrite ?E1, ?E2; done. Qed.

Ltac wires := repeat apply wired_write; assumption.
Ltac reg_step := first
  [ erewrite mbindM_Ret by (apply cfg_write_st; [wires|lia])
  | erewrite mbindM_Ret by (apply cfg_read_st; wires) ].

Lemma init_base_st km rounds t d m : wired t d -> (0 < rounds)%nat ->
  init_base rounds t (st km d m) = Ret (st km (set_regs 11 1 (0, 0, 0) false (reset d)) m, Ok tt).
Proof.
  intros Hw Hr. destruct rounds as [|rounds]; [lia|]. unfold init_base, set_status, status. reg_step.
  assert (Er : reg_write OFF_DEV_STATUS 0 d = reset d) by (unfold reg_write; by destruct (ad_queue d) as [[]]).
  pose proof (wired_write t d OFF_DEV_STATUS 0 Hw) as Hw'. rewrite Er in *.
  rewrite (mbindM_Ret _ _ _ (st km (reset d) m) tt).
  2: { cbn [wait_reset]. unfold status. by reg_step. }
  do 4 reg_step. change (reg_read OFF_DEV_FEAT _) with 1. change (Z.land 1 1 =? 0) with false; cbv iota.
  do 6 reg_step.
  done.
Qed.

Lemma setup_queue_st km t d m da aa ua :
  wired t d -> ad_queue d = (0, 0, 0) ->
  setup_queue t 0 QUEUE_SIZE da aa ua (st km d m) =
  Ret (st km (set_regs (ad_status d) (ad_feat_sel d) (da, aa, ua) true d) m, Ok 0).
Proof.
  intros Hw Hq. unfold setup_queue. do 7 reg_step. rewrite cfg_read_st by wires.
  clear Hw. destruct d. cbn in Hq. subst. reflexivity.
Qed.

(** The tables as [VirtQueue::new] leaves them. *)
Definition tables (m : phys) : phys :=
  store_bytes (store_bytes (store_bytes m (desc_box mm)
    (concat ((fun i => desc_bytes (mkDesc 0 0 0 (if i <? QUEUE_SIZE - 1 then i + 1 else 0))) <$> seqZ 0 QUEUE_SIZE)))
    (avail_box mm) (replicate (4 + 2 * 64 + 2) 0)) (used_box mm) (replicate (4 + 8 * 64 + 4) 0).

Lemma tables_linked t d m fbn st0 fs :
  layout fbn -> wired t d -> timely d -> fits 64 (req_buf mm) -> fits 64 (resp_buf mm) ->
  let q := mkQueue (desc_box mm) (avail_box mm) (used_box mm) 0 0 0 in
  linked fbn 0 (mkGpu t q 0 0 0 0)
    (set_regs st0 fs (desc_box mm, avail_box mm, used_box mm) true (reset d)) (tables m).
Proof.
  intros Hl Hw Ht Hq Hp q. split; [assumption| |assumption|cbn; destruct Hw; rewrite Z.mul_0_l; lia].
  split; try reflexivity; [lia| | |done]; unfold ld, tables.
  - pose proof (l_au _ Hl) as Hs. rewrite load_store_sep by by_sep Hs. by rewrite (load_store_at _ _ _ 2) by (done || (cbn; lia)).
  - by rewrite (load_store_at _ _ _ 2) by (done || (cbn; lia)).
Qed.
Lemma tables_kept m : kept m (tables m).
Proof.
  unfold tables. repeat (eapply kept_trans; [|apply kept_store; intros x; unfold scratch, lenZ;
    rewrite ?length_replicate; try (cbn; lia)]); [apply kept_refl|].
  change (length (concat _)) with 1024%nat. lia.
Qed.

Lemma get_display_info_st km fbn n g d m w h :
  linked fbn n g d m -> ad_mode d = (w, h) -> 0 < w < 2 ^ 32 -> 0 < h < 2 ^ 32 ->
  exists m', let g' := set_queue (next_queue (queue g)) g in let d' := set_work (wrap 16 (n + 1)) None d in
    get_display_info mm (st km d m, g) = Ret ((st km d' m', g'), Ok (w, h)) /\ linked fbn (wrap 16 (n + 1)) g' d' m' /\ kept m m'.
Proof.
  intros [] Hm Hw Hh. set (cmd := CtrlHdr VIRTIO_GPU_CMD_GET_DISPLAY_INFO).
  assert (Ec : command (posted n cmd 408 m) cmd (set_work n (Some O) d) = (set_work n (Some O) d, display_info w h)).
  { change (command _ cmd ?d') with (d', display_info (ad_mode d').1 (ad_mode d').2). cbn [ad_mode set_work]. by rewrite Hm. }
  pose proof (submit_request_st km n cmd 408 m d fbn _ _ _ _ i_layout0 ltac:(cbn; lia) ltac:(lia) i_queue0 i_timely0 i_bell0 Ec) as Hs.
  destruct (queue_next n _ d m _ cmd 408 _ _ i_layout0 ltac:(cbn; lia) ltac:(lia) i_queue0 Ec) as [Hq Hk].
  destruct (answered_reads n (display_info w h) (posted n cmd 408 m) fbn i_layout0) as (_ & _ & Rr & _); [cbn; lia|].
  change (take 408 (display_info w h)) with (display_info w h) in *.
  change (set_work (wrap 16 (n + 1)) None (set_work n (Some 0%nat) d)) with (set_work (wrap 16 (n + 1)) None d) in *.
  set (m' := answered n (display_info w h) (posted n cmd 408 m)) in *.
  exists m'. cbv zeta. split; [|split; [split; [done|done|exact i_timely0|exact i_bell0]|done]].
  set (s' := (st km (set_work (wrap 16 (n + 1)) None d) m', set_queue (next_queue (queue g)) g)).
  assert (Hp : forall i v z, z = resp_buf mm + Z.of_nat i -> (i + 4 <= 408)%nat -> fits 32 v -> take 4 (drop i (display_info w h)) = le_bytes 4 v ->
    on_machine (peek 4 z) s' = Ret (s', Ok v)).
  { intros i v z -> Hi Hv E. unfold on_machine, zoom, s'. cbn [fst snd]. rewrite peek_st. unfold ld.
    rewrite (Rr i 4%nat Hi), E. rewrite (of_le_bytes_id 4) by done. done. }
  unfold get_display_info, self. rewrite (mbindM_Ret _ _ _ (st km d m, g) g) by done.
  rewrite (mbindM_Ret _ _ _ (st km d (store_bytes m (req_buf mm) cmd), g) tt) by done.
  rewrite (mbindM_Ret _ _ _ (st km d (filled cmd 408 m), g) tt) by done.
  rewrite (mbindM_Ret _ _ _ (s'.1, g) (next_queue (queue g), 408)).
  2: { unfold on_machine, zoom. cbn [fst snd]. change (lenZ cmd) with 24 in Hs. change (Z.of_nat 408) with (24 + 16 * 24) in Hs.
       by rewrite Hs. }
  rewrite (mbindM_Ret _ _ _ s' tt) by done.
  rewrite (mbindM_Ret _ _ _ _ _ (Hp 0%nat VIRTIO_GPU_RESP_OK_DISPLAY_INFO (resp_buf mm) ltac:(lia) ltac:(lia) ltac:(done) ltac:(done))).
  cbn [negb Z.eqb Pos.eqb].
  rewrite (mbindM_Ret _ _ _ _ _ (Hp 32%nat w (resp_buf mm + 24 + 8) ltac:(lia) ltac:(lia) ltac:(unfold fits; lia) ltac:(done))).
  rewrite (mbindM_Ret _ _ _ _ _ (Hp 36%nat h (resp_buf mm + 24 + 12) ltac:(lia) ltac:(lia) ltac:(unfold fits; lia) ltac:(done))).
  rewrite (mbindM_Ret _ _ _ _ _ (Hp 40%nat 1 (resp_buf mm + 24 + 16) ltac:(lia) ltac:(lia) ltac:(done) ltac:(done))).
  rewrite (proj2 (Z.eqb_neq w 0)), (proj2 (Z.eqb_neq h 0)) by lia. done.
Qed.

(** Writing in the frame buffer does not touch the queue. *)
Lemma linked_fb fbn n g d m a l w h fb len :
  linked fbn n g d m -> fb_box mm <= a -> a + lenZ l <= fb_box mm + fbn ->
  linked fbn n (mkGpu (transport g) (queue g) w h fb len) d (store_bytes m a l).
Proof.
  intros [Hl [] ? ?] Ha Hf. split; try assumption. split; try assumption; unfold ld.
  - pose proof (l_af _ Hl) as Hs. rewrite load_store_sep; [done|unfold sep in *; lia].
  - pose proof (l_uf _ Hl) as Hs. rewrite load_store_sep; [done|unfold sep in *; lia].
Qed.

Lemma command_create m d w h : fits 32 w -> fits 32 h ->
  command m (ResourceCreate2d w h) d = (set_gfx (Some (w, h)) (fun _ _ => 0) None (ad_scan d) (ad_screen d) d, gpu_ok).
Proof.
  intros Hw Hh. unfold command. change (fld (ResourceCreate2d w h) 0 4) with 0x0101. cbn [Z.eqb Pos.eqb].
  rewrite bool_decide_eq_true_2 by done. by rewrite (fld_le _ 32 4 w), (fld_le _ 36 4 h).
Qed.
Lemma command_attach m d a len : fits 64 a -> fits 32 len -> is_Some (ad_res d) ->
  command m (ResourceAttachBacking a len) d =
  (set_gfx (ad_res d) (ad_pix d) (Some (a, len)) (ad_scan d) (ad_screen d) d, gpu_ok).
Proof.
  intros Ha Hl Hr. unfold command. change (fld (ResourceAttachBacking a len) 0 4) with 0x0106. cbn [Z.eqb Pos.eqb].
  rewrite bool_decide_eq_true_2 by done. by rewrite (fld_le _ 32 8 a), (fld_le _ 40 4 len).
Qed.
Lemma command_scanout m d w h : fits 32 w -> fits 32 h -> ad_res d = Some (w, h) ->
  command m (SetScanout w h) d = (set_gfx (ad_res d) (ad_pix d) (ad_back d) (Some (w, h)) (ad_screen d) d, gpu_ok).
Proof.
  intros Hw Hh Hr. unfold command. change (fld (SetScanout w h) 0 4) with 0x0103. cbn [Z.eqb Pos.eqb]. rewrite Hr.
  rewrite (fld_le _ 32 4 w), (fld_le _ 36 4 h) by done. rewrite bool_decide_eq_true_2; [done|]. split_and!; done || lia.
Qed.

Lemma load_replicate m a k i : (i < k)%nat -> store_bytes m a (replicate k 0) (a + Z.of_nat i) = 0.
Proof.
  intros Hi. unfold store_bytes. rewrite bool_decide_eq_true_2 by (unfold lenZ; rewrite length_replicate; lia).
  replace (Z.to_nat (a + Z.of_nat i - a)) with i by lia. apply list_lookup_total_correct. by apply lookup_replicate_2.
Qed.

(** The frame buffer is black. *)
Definition black (n : Z) (m : phys) : Prop := forall x, fb_box mm <= x < fb_box mm + n -> m x = 0.
Lemma black_kept n m m' : layout n -> black n m -> kept m m' -> black n m'.
Proof.
  intros Hl Hb Hk x Hx. rewrite Hk; [by apply Hb|]. pose proof (l_df _ Hl) as H1. pose proof (l_af _ Hl) as H2.
  pose proof (l_uf _ Hl) as H3. pose proof (l_qf _ Hl) as H4. pose proof (l_pf _ Hl) as H5. clear Hl Hk. unfold sep in *.
  intros [|[|[|[]]]]; lia.
Qed.

Section set_up.
Context (km : kmem) (w h : Z).
Context (Hw : 0 < w) (Hh : 0 < h) (Hsize : 4 * (w * h) < 2 ^ 32) (Hfb : fits 64 (fb_box mm)).

Lemma mode_fits : fits 32 w /\ fits 32 h /\ fits 32 (4 * (w * h)) /\ 0 < w * h.
Proof. assert (w <= w * h /\ h <= w * h) as [] by nia. unfold fits. lia. Qed.

(** The three commands on the resource. *)
Lemma resource_st n g d m :
  linked (4 * (w * h)) n g d m -> gpu_width g = w -> gpu_height g = h -> gpu_fb g = fb_box mm -> gpu_fb_len g = w * h ->
  exists n' d' m' g',
    (_ ← create_resource_2d mm; _ ← attach_backing mm; set_scanout mm) (st km d m, g) = Ret ((st km d' m', g'), Ok tt) /\
    gpu_ready n' g' d' m' /\ kept m m' /\ gpu_width g' = w /\ gpu_height g' = h.
Proof.
  intros Hl Ew Eh Ef El. destruct mode_fits as (Fw & Fh & F4 & Hp).
  unfold create_resource_2d, attach_backing, set_scanout, self.
  destruct (linked_submit km _ n (ResourceCreate2d w h) VIRTIO_GPU_RESP_OK_NODATA m d g _ Hl ltac:(cbn; lia) ltac:(done)
    (command_create _ _ w h Fw Fh)) as (m1 & R1 & L1 & K1).
  rewrite (mbindM_Ret _ _ _ _ tt) by (rewrite (mbindM_Ret _ _ _ (st km d m, g) g) by done; rewrite Ew, Eh; exact R1). clear R1.
  match type of L1 with linked _ _ _ ?x _ => set (d1 := x) in * end. set (g1 := set_queue _ _) in *.
  destruct (linked_submit km _ _ (ResourceAttachBacking (fb_box mm) (4 * (w * h))) VIRTIO_GPU_RESP_OK_NODATA m1 d1 g1 _ L1
    ltac:(cbn; lia) ltac:(done) (command_attach _ (set_work (wrap 16 (n + 1)) (Some O) d1) _ _ Hfb F4 ltac:(by eexists))) as (m2 & R2 & L2 & K2).
  erewrite mbindM_Ret.
  2: { rewrite (mbindM_Ret _ _ _ (st km d1 m1, g1) g1) by done. cbn [g1 gpu_fb_len set_queue gpu_fb]. rewrite El, Ef.
       rewrite (mbindM_Ret _ _ _ (st km d1 m1, g1) (4 * (w * h))).
       - unfold wrap; rewrite Z.mod_small by exact F4. exact R2.
       - rewrite (mul_chk_ok 64) by (unfold fits in *; lia). by rewrite Z.mul_comm. }
  clear R2. match type of L2 with linked _ _ _ ?x _ => set (d2 := x) in * end. set (g2 := set_queue _ g1) in *.
  destruct (linked_submit km _ _ (SetScanout w h) VIRTIO_GPU_RESP_OK_NODATA m2 d2 g2 _ L2
    ltac:(cbn; lia) ltac:(done) (command_scanout _ (set_work (wrap 16 (wrap 16 (n + 1) + 1)) (Some O) d2) _ _ Fw Fh ltac:(done))) as (m3 & R3 & L3 & K3).
  eexists _, _, m3, _. split.
  { rewrite (mbindM_Ret _ _ _ (st km d2 m2, g2) g2) by done. cbn [g2 g1 gpu_width gpu_height set_queue]. rewrite Ew, Eh. exact R3. }
  split; [|split; [eauto using kept_trans|done]].
  split; cbn [set_queue gpu_width gpu_height gpu_fb g2 g1]; rewrite ?Ew, ?Eh, ?Ef; done.
Qed.

Lemma set_up_display_st n g d m : linked (4 * (w * h)) n g d m -> ad_mode d = (w, h) ->
  exists n' d' m' g',
    set_up_display mm (st km d m, g) = Ret ((st km d' m', g'), Ok tt) /\
    gpu_ready n' g' d' m' /\ gpu_width g' = w /\ gpu_height g' = h /\ black (4 * (w * h)) m'.
Proof.
  intros Hl Hm. destruct mode_fits as (Fw & Fh & F4 & Hp).
  destruct (get_display_info_st km _ n g d m w h Hl Hm ltac:(unfold fits in *; lia) ltac:(unfold fits in *; lia)) as (m1 & R1 & L1 & _).
  unfold set_up_display, self. rewrite (mbindM_Ret _ _ _ _ _ R1). clear R1.
  set (g1 := set_queue _ _) in *. set (d1 := set_work _ _ _) in *.
  rewrite (mbindM_Ret _ _ _ (st km d1 m1, g1) g1) by done.
  rewrite (mbindM_Ret _ _ _ (st km d1 m1, g1) (w * h)) by (rewrite (mul_chk_ok 32) by lia; done).
  set (l := replicate (Z.to_nat (4 * (w * h))) 0). set (m2 := store_bytes m1 (fb_box mm) l).
  assert (El : lenZ l = 4 * (w * h)) by (unfold l, lenZ; rewrite length_replicate; lia).
  pose proof (linked_fb _ _ _ _ _ (fb_box mm) l w h (fb_box mm) (w * h) L1 ltac:(lia) ltac:(lia)) as L2. fold m2 in L2.
  set (g2 := mkGpu _ _ _ _ _ _) in *.
  rewrite (mbindM_Ret _ _ _ (st km d1 m2, g1) tt) by done. rewrite (mbindM_Ret _ _ _ (st km d1 m2, g2) tt) by done.
  destruct (resource_st _ g2 d1 m2 L2 eq_refl eq_refl eq_refl eq_refl) as (n' & d' & m' & g' & R & Hr & Hk & Ew & Eh).
  exists n', d', m', g'. split_and!; try done. apply (black_kept _ m2); [by apply (i_layout _ _ _ _ _ Hl)| |done].
  intros x Hx. unfold m2, l. replace x with (fb_box mm + Z.of_nat (Z.to_nat (x - fb_box mm))) by lia. apply load_replicate. lia.
Qed.
End set_up.

Lemma bring_up_st km rounds t d m w h :
  layout (4 * (w * h)) -> wired t d -> timely d -> fits 64 (req_buf mm) -> fits 64 (resp_buf mm) -> fits 64 (fb_box mm) ->
  ad_mode d = (w, h) -> 0 < w -> 0 < h -> 4 * (w * h) < 2 ^ 32 -> (0 < rounds)%nat ->
  exists n d' m' g,
    bring_up mm rounds t (st km d m) = Ret (st km d' m', Ok g) /\
    gpu_ready n g d' m' /\ gpu_width g = w /\ gpu_height g = h /\ black (4 * (w * h)) m'.
Proof.
  intros Hl Hw Ht Hq Hp Hf Hm Hw0 Hh0 Hs Hr. unfold bring_up.
  rewrite (mbindM_Ret _ _ _ _ _ (init_base_st km rounds t d m Hw Hr)).
  rewrite (mbindM_Ret _ _ _ (st km (set_regs 11 1 (0, 0, 0) false (reset d)) (tables m))
    (mkQueue (desc_box mm) (avail_box mm) (used_box mm) 0 0 0)) by done.
  rewrite (mbindM_Ret _ _ _ _ _ (setup_queue_st km t (set_regs 11 1 (0, 0, 0) false (reset d)) (tables m)
    (desc_box mm) (avail_box mm) (used_box mm) ltac:(by destruct Hw; split) eq_refl)).
  unfold driver_ok, set_status. erewrite mbindM_Ret by (apply cfg_write_st; [by destruct Hw; split|lia]).
  pose proof (tables_linked t d m (4 * (w * h)) 15 1 Hl Hw Ht Hq Hp) as L. cbv zeta in L.
  destruct (set_up_display_st km w h Hw0 Hh0 Hs Hf _ _ _ _ L Hm) as (n' & d' & m' & g' & R & Hg & Ew & Eh & Hb).
  exists n', d', m', g'. split_and!; try done. unfold with_self.
  match goal with |- context [set_up_display mm ?x] => change (set_up_display mm x = Ret ((st km d' m', g'), Ok tt)) in R end.
  by rewrite R.
Qed.

(** ** A client of the display *)

(** It draws in the frame buffer and presents regions. *)
Inductive gop := Plot (x y c : Z) | Present (x y w h : Z).
Definition run_gop (o : gop) : M (machine (D := adapter) * VirtioGpu) string unit :=
  match o with
  | Plot x y c => g ← self; on_machine (poke (gpu_fb g + 4 * (gpu_width g * y + x)) (le_bytes 4 c))
  | Present x y w h => present_region mm x y w h
  end.

(** What it means: pictures as functions of the column and the row. *)
Record pictures := mkPics { drawn : Z -> Z -> Z; shown : Z -> Z -> Z }.
Definition spec_gop (W H : Z) (o : gop) (s : pictures) : pictures :=
  match o with
  | Plot x y c => mkPics (fun px py => if bool_decide (px = x /\ py = y) then c else drawn s px py) (shown s)
  | Present x y w h =>
      if (w =? 0) || (h =? 0) then s else
      let x := Z.min x (W - 1) in
      let y := Z.min y (H - 1) in
      mkPics (drawn s)
        (fun px py => if in_rect x y (Z.min w (W - x)) (Z.min h (H - y)) px py then drawn s px py else shown s px py)
  end.
Definition gop_ok (W H : Z) (o : gop) : Prop :=
  match o with
  | Plot x y c => 0 <= x < W /\ 0 <= y < H /\ fits 32 c
  | Present x y w h => fits 32 x /\ fits 32 y /\ fits 32 w /\ fits 32 h
  end.

Record displays (W H : Z) (s : pictures) (g : VirtioGpu) (d : adapter) (m : phys) : Prop := {
  s_ready : exists n, gpu_ready n g d m;
  s_width : gpu_width g = W;
  s_height : gpu_height g = H;
  s_drawn : forall px py, 0 <= px < W -> 0 <= py < H -> fb_pixel g m px py = drawn s px py;
  s_shown : forall px py, ad_screen d px py = shown s px py;
}.

Lemma plot_pixel W H m fb x y c px py :
  0 <= x < W -> 0 <= y < H -> 0 <= px < W -> 0 <= py < H -> fits 32 c ->
  ld (store_bytes m (fb + 4 * (W * y + x)) (le_bytes 4 c)) (fb + 4 * (W * py + px)) 4 =
  if bool_decide (px = x /\ py = y) then c else ld m (fb + 4 * (W * py + px)) 4.
Proof.
  intros Hx Hy Hpx Hpy Hc. unfold ld. destruct (bool_decide_reflect (px = x /\ py = y)) as [[-> ->]|Hne].
  - change 4%nat with (length (le_bytes 4 c)) at 2. rewrite load_store_bytes. by apply (of_le_bytes_id 4).
  - f_equal. apply load_store_sep. unfold sep, lenZ. cbn [length le_bytes].
    assert (W * py + px <> W * y + x); [|lia]. intros E. apply Hne.
    assert (py = y) by nia. subst. lia.
Qed.

Lemma plot_displays km W H s g d m x y c :
  displays W H s g d m -> gop_ok W H (Plot x y c) ->
  exists m', run_gop (Plot x y c) (st km d m, g) = Ret ((st km d m', g), Ok tt) /\
    displays W H (spec_gop W H (Plot x y c) s) g d m'.
Proof.
  intros [[n Hr] Ew Eh Hd Hs] (Hx & Hy & Hc). pose proof Hr as Hr'. destruct Hr' as [Hl ? ? Hsz Hf ? ? ?].
  set (a := gpu_fb g + 4 * (gpu_width g * y + x)). exists (store_bytes m a (le_bytes 4 c)). split; [done|].
  assert (0 <= W * y + x /\ W * y + x + 1 <= W * H) as [] by nia.
  split; [|done|done| |done].
  2: { intros px py Hpx Hpy. cbn [spec_gop drawn]. unfold fb_pixel, a. rewrite <- Hd by done. unfold fb_pixel.
       rewrite Ew. by apply (plot_pixel W H). }
  exists n. split; try done. destruct g. apply (linked_fb _ _ _ _ _ a (le_bytes 4 c) _ _ _ _ Hl).
  - unfold a. rewrite Hf, Ew. lia.
  - unfold a, lenZ. cbn [length le_bytes]. rewrite Hf, Ew, Eh. lia.
Qed.

Lemma present_displays km W H s g d m x y w h :
  displays W H s g d m -> gop_ok W H (Present x y w h) ->
  exists d' m' g', run_gop (Present x y w h) (st km d m, g) = Ret ((st km d' m', g'), Ok tt) /\
    displays W H (spec_gop W H (Present x y w h) s) g' d' m'.
Proof.
  intros Hd (Fx & Fy & Fw & Fh). cbn [run_gop spec_gop]. unfold present_region.
  destruct ((w =? 0) || (h =? 0)) eqn:E0; [by exists d, m, g|]. apply orb_false_iff in E0 as [Ew0%Z.eqb_neq Eh0%Z.eqb_neq].
  destruct Hd as [[n Hr] Ew Eh Hd Hs]. pose proof Hr as Hr'. destruct Hr' as [Hl ? ? Hsz Hf ? ? ?].
  unfold self. rewrite (mbindM_Ret _ _ _ (st km d m, g) g) by done. rewrite Ew, Eh in *. unfold fits in *.
  rewrite !Z.max_r by lia. set (x' := Z.min x (W - 1)). set (y' := Z.min y (H - 1)).
  assert (0 <= x' <= W - 1 /\ 0 <= y' <= H - 1) as [Hx' Hy'] by lia.
  assert (0 <= y' * W /\ y' * W + x' + 1 <= W * H) as [] by nia.
  rewrite (mbindM_Ret _ _ _ (st km d m, g) (W - x')) by (by rewrite sub_chk_ok by lia).
  rewrite (mbindM_Ret _ _ _ (st km d m, g) (H - y')) by (by rewrite sub_chk_ok by lia).
  rewrite (mbindM_Ret _ _ _ (st km d m, g) (y' * W + x')).
  2: { rewrite (mul_chk_ok 32) by lia. cbn [mbind outcome_bind]. by rewrite (add_chk_ok 32) by lia. }
  destruct (present_inside km n g d m x' y' (Z.min w (W - x')) (Z.min h (H - y')) Hr) as (d' & m' & g' & R & Hr2 & Hk & (q & ->) & Hsc); try lia.
  rewrite Ew in R. exists d', m', (set_queue q g). split; [exact R|]. split; [by eexists|done|done| |].
  - intros px py Hpx Hpy. cbn [drawn]. rewrite <- Hd by done. change (fb_pixel g m' px py = fb_pixel g m px py).
    apply fb_pixel_kept; [rewrite Ew, Eh; by destruct Hl|done|done|lia..].
  - intros px py. cbn [shown]. rewrite Hsc, Hs. destruct (in_rect _ _ _ _ px py) eqn:Ein; [|done].
    apply Hd; unfold in_rect in Ein; lia.
Qed.

Lemma client_displays km W H ops : forall s g d m,
  displays W H s g d m -> Forall (gop_ok W H) ops ->
  exists d' m' g', mfor ops run_gop (st km d m, g) = Ret ((st km d' m', g'), Ok tt) /\
    displays W H (foldl (fun s o => spec_gop W H o s) s ops) g' d' m'.
Proof.
  induction ops as [|o ops IH]; intros s g d m Hd Hok; [by exists d, m, g|].
  apply Forall_cons in Hok as [Ho Hok].
  assert (exists d1 m1 g1, run_gop o (st km d m, g) = Ret ((st km d1 m1, g1), Ok tt) /\ displays W H (spec_gop W H o s) g1 d1 m1)
    as (d1 & m1 & g1 & R & Hd1).
  { destruct o as [x y c|x y w h]; [|by apply present_displays].
    destruct (plot_displays km W H s g d m x y c Hd Ho) as (m1 & R & Hd1). by exists d, m1, g. }
  cbn [mfor foldl]. unfold mbindM. rewrite R. by apply IH.
Qed.

(** C10. The display shows what its client presents.  Brought up on an
    adapter whose registers the transport has, the driver returns an object;
    whatever pixels the client then draws in the frame buffer and whatever
    regions it presents, in any order, every call returns and the display
    shows in each presented region the pixels drawn at that moment, clamped
    to its size, and elsewhere what it showed before. *)
Theorem virtio_display km rounds t d m w h ops :
  layout (4 * (w * h)) -> wired t d -> timely d -> fits 64 (req_buf mm) -> fits 64 (resp_buf mm) -> fits 64 (fb_box mm) ->
  ad_mode d = (w, h) -> 0 < w -> 0 < h -> 4 * (w * h) < 2 ^ 32 -> (0 < rounds)%nat -> Forall (gop_ok w h) ops ->
  exists d1 m1 g d' m' g',
    bring_up mm rounds t (st km d m) = Ret (st km d1 m1, Ok g) /\
    mfor ops run_gop (st km d1 m1, g) = Ret ((st km d' m', g'), Ok tt) /\
    let s := foldl (fun s o => spec_gop w h o s) (mkPics (fun _ _ => 0) (ad_screen d1)) ops in
    (forall px py, ad_screen d' px py = shown s px py) /\
    (forall px py, 0 <= px < w -> 0 <= py < h -> fb_pixel g' m' px py = drawn s px py).
Proof.
  intros Hl Hw Ht Hq Hp Hf Hm Hw0 Hh0 Hs Hr Hok.
  destruct (bring_up_st km rounds t d m w h Hl Hw Ht Hq Hp Hf Hm Hw0 Hh0 Hs Hr) as (n & d1 & m1 & g & R & Hg & Ew & Eh & Hb).
  destruct (client_displays km w h ops (mkPics (fun _ _ => 0) (ad_screen d1)) g d1 m1) as (d' & m' & g' & R' & []); [|done|].
  - split; [by eexists|done|done| |done]. intros px py Hpx Hpy. cbn [drawn]. unfold fb_pixel, ld.
    assert (0 <= w * py + px /\ w * py + px + 1 <= w * h) as [] by nia.
    assert (E : load_bytes m1 (gpu_fb g + 4 * (gpu_width g * py + px)) 4 = replicate 4 0); [|by rewrite E].
    unfold load_bytes. cbn. destruct Hg. rewrite r_fb0, Ew. by rewrite !Hb by lia.
  - exists d1, m1, g, d', m', g'. by split_and!.
Qed.
End driver.

(** A display of 4 by 3 pixels, slow to look at its doorbell. *)
Definition demo_mem : Mem := mkMem 0x10000 0x11000 0x12000 0x20000 0x13000 0x13100.
Definition demo_transport : VirtioTransport :=
  mkTransport (mkPciDevice (mkPciAddr 0 3 0) 0x1af4 0x1050 3 0x80 0 1 0 [] 0 0) 0xfe000000 0xfe001000 4 0xfe002000 0xfe003000.
Definition demo_adapter : adapter :=
  mkAd 0xfe000000 0xfe001000 (4, 3) 1000 0 0 (0, 0, 0) false 0 None None (fun _ _ => 0) None None (fun _ _ => 7).
Definition demo_kernel : kmem := mkKmem None (fun _ => 0) rc_new 0x1000 None None.
Definition demo_ops : list gop := [Plot 1 2 0xff8000; Present 1 1 9 9; Plot 0 0 5; Present 0 0 1 0].

Lemma virtio_display_witness :
  exists d1 m1 g d' m' g',
    bring_up demo_mem 1 demo_transport (st demo_kernel demo_adapter (fun _ => 0)) = Ret (st demo_kernel d1 m1, Ok g) /\
    mfor demo_ops (run_gop demo_mem) (st demo_kernel d1 m1, g) = Ret ((st demo_kernel d' m', g'), Ok tt) /\
    let s := foldl (fun s o => spec_gop 4 3 o s) (mkPics (fun _ _ => 0) (ad_screen d1)) demo_ops in
    (forall px py, ad_screen d' px py = shown s px py) /\
    (forall px py, 0 <= px < 4 -> 0 <= py < 3 -> fb_pixel g' m' px py = drawn s px py).
Proof.
  apply (virtio_display demo_mem demo_kernel 1 demo_transport demo_adapter (fun _ => 0) 4 3 demo_ops).
  1: { split; unfold sep; cbn; lia. }
  1: { split; [done|done|cbn; lia]. }
  1: { unfold timely, demo_adapter. cbn [ad_delay]. lia. }
  all: first [done|lia|idtac].
  unfold demo_ops. repeat apply Forall_cons_2; try apply Forall_nil_2; cbn; unfold fits; lia.
Defined.
