(* ===== verification/Ulib.v ===== *)
(** * The user library

    userland/crates/ulib: the system call wrappers (syscall.rs), formatted
    output and line input (io.rs), errno (errno.rs), the helpers of
    process.rs and the entry point of lib.rs.

    A user program is a tree of the events it causes: the [syscall]
    instruction, accesses to its memory, a panic and the [hlt] after a
    failed exit.  What the kernel makes of the events is in UserRun.v.  The
    bytes of a string being written are at the address [text], where the
    program puts them. *)
From S2P Require Import Prelude Str Ipc.
From ITree Require Import ITree.
Local Open Scope Z_scope.

Variant userE : Type -> Type :=
| Syscall (nr a1 a2 a3 : Z) : userE Z
| Load (a n : Z) : userE (list Z)
| Store (a : Z) (l : list Z) : userE unit
| UserPanic : userE Empty_set
| Hlt : userE Empty_set.

Abbreviation prog := (itree userE).
#[export] Instance prog_ret : MRet prog := fun A a => Ret a.
#[export] Instance prog_bind : MBind prog := fun A B k c => ITree.bind c k.

(** ** syscall.rs *)

Abbreviation NR_WRITE := 1 (only parsing).
Abbreviation NR_READ := 2 (only parsing).
Abbreviation NR_EXIT := 3 (only parsing).
Abbreviation NR_GETPID := 4 (only parsing).
Abbreviation NR_UPTIME := 5 (only parsing).
Abbreviation NR_FORK := 20 (only parsing).
Abbreviation NR_EXEC := 21 (only parsing).
Abbreviation NR_WAIT := 22 (only parsing).
Abbreviation NR_KILL := 23 (only parsing).
Abbreviation NR_YIELD := 24 (only parsing).
Abbreviation NR_SLEEP_MS := 25 (only parsing).
Abbreviation NR_GETUID := 30 (only parsing).
Abbreviation NR_GETEUID := 31 (only parsing).
Abbreviation NR_GETGID := 32 (only parsing).
Abbreviation NR_GETEGID := 33 (only parsing).
Abbreviation NR_SETUID := 34 (only parsing).
Abbreviation NR_FB_ACQUIRE := 40 (only parsing).
Abbreviation NR_FB_PRESENT := 41 (only parsing).
Abbreviation NR_INPUT_POLL := 42 (only parsing).
Abbreviation NR_SHM_CREATE := 43 (only parsing).
Abbreviation NR_SHM_MAP := 44 (only parsing).
Abbreviation NR_SHM_UNMAP := 45 (only parsing).
Abbreviation NR_IPC_SEND := 46 (only parsing).
Abbreviation NR_IPC_RECV := 47 (only parsing).

(** Registers a wrapper does not set are not looked at by its call. *)
Definition syscall0 (nr : Z) : prog Z := trigger (Syscall nr 0 0 0).
Definition syscall1 (nr a1 : Z) : prog Z := trigger (Syscall nr a1 0 0).
Definition syscall2 (nr a1 a2 : Z) : prog Z := trigger (Syscall nr a1 a2 0).
Definition syscall3 (nr a1 a2 a3 : Z) : prog Z := trigger (Syscall nr a1 a2 a3).

Definition load (a n : Z) : prog (list Z) := trigger (Load a n).
Definition store (a : Z) (l : list Z) : prog unit := trigger (Store a l).
Definition panic {A} : prog A := v ← trigger UserPanic; match (v : Empty_set) with end.
Definition hlt {A} : prog A := v ← trigger Hlt; match (v : Empty_set) with end.

(** [as i64], and the common reading of an answer. *)
Definition as_i64 (r : Z) : Z := if bool_decide (2 ^ 63 <= r) then r - 2 ^ 64 else r.
Definition or_neg (r : Z) : Z := if bool_decide (r = U64_MAX) then -1 else as_i64 r.
Definition zero_or_neg (r : Z) : Z := if bool_decide (r = U64_MAX) then -1 else 0.

(** Slices are an address and a length. *)
Definition write (fd p len : Z) : prog Z := r ← syscall3 NR_WRITE fd p len; mret (as_i64 r).
Definition read (fd p len : Z) : prog Z := n ← syscall3 NR_READ fd p len; mret (or_neg n).
Definition exit {A} (code : Z) : prog A := _ ← syscall1 NR_EXIT (wrap 64 code); hlt.
Definition getpid : prog Z := r ← syscall0 NR_GETPID; mret (wrap 32 r).
Definition uptime_ms : prog Z := syscall0 NR_UPTIME.
Definition yield_now : prog unit := _ ← syscall0 NR_YIELD; mret tt.
Definition sleep_ms (ms : Z) : prog unit := _ ← syscall1 NR_SLEEP_MS ms; mret tt.
Definition fork : prog Z := r ← syscall0 NR_FORK; mret (or_neg r).
Definition exec (p len : Z) : prog Z := r ← syscall2 NR_EXEC p len; mret (or_neg r).
Definition wait (pid : Z) : prog Z := r ← syscall1 NR_WAIT (wrap 64 pid); mret (or_neg r).
Definition kill (pid sig : Z) : prog Z := r ← syscall2 NR_KILL pid sig; mret (or_neg r).
Definition getuid : prog Z := r ← syscall0 NR_GETUID; mret (wrap 32 r).
Definition geteuid : prog Z := r ← syscall0 NR_GETEUID; mret (wrap 32 r).
Definition getgid : prog Z := r ← syscall0 NR_GETGID; mret (wrap 32 r).
Definition getegid : prog Z := r ← syscall0 NR_GETEGID; mret (wrap 32 r).
Definition setuid (uid : Z) : prog Z := r ← syscall1 NR_SETUID uid; mret (zero_or_neg r).
Definition fb_acquire (out : Z) : prog Z := r ← syscall1 NR_FB_ACQUIRE out; mret (zero_or_neg r).
(** [rect] is the address of the rectangle. *)
Definition fb_present (rect : option Z) : prog Z := r ← syscall1 NR_FB_PRESENT (default 0 rect); mret (zero_or_neg r).
Definition input_poll (p len : Z) : prog Z := n ← syscall2 NR_INPUT_POLL p len; mret (or_neg n).
Definition shm_create (size : Z) : prog Z := r ← syscall1 NR_SHM_CREATE size; mret (or_neg r).
Definition shm_map (handle mode : Z) : prog Z := syscall2 NR_SHM_MAP handle mode.
Definition shm_unmap (ptr : Z) : prog Z := r ← syscall1 NR_SHM_UNMAP ptr; mret (zero_or_neg r).
Definition ipc_send (target p len : Z) : prog Z := r ← syscall3 NR_IPC_SEND target p len; mret (zero_or_neg r).
(** [sender_at] is where [sender_u64] is. *)
Definition ipc_recv (p len sender_at : Z) : prog (Z * Z) :=
  _ ← store sender_at (le_bytes 8 0);
  n ← syscall3 NR_IPC_RECV p len sender_at;
  l ← load sender_at 8;
  mret (wrap 32 (of_le l), or_neg n).

(** ** io.rs *)

Section io.
Context (text : Z).

(** [write_str] on the [len] bytes at [text]; the answer is whether it
    succeeded. *)
Definition write_all (fd len : Z) : prog bool :=
  ITree.iter (fun off =>
    if bool_decide (off = len) then mret (inr true) else
    n ← write fd (text + off) (len - off);
    if bool_decide (n < 0) then mret (inr false)
    else if bool_decide (n = 0) then mret (inr false)
    else if bool_decide (n <= len - off) then mret (inl (off + n)) else panic) 0.
Definition write_str (fd : Z) (s : str) : prog bool := _ ← store text s; write_all fd (lenZ s).

(** [write!]: the pieces in order, up to the first error. *)
Fixpoint write_fmt (fd : Z) (pieces : list str) : prog bool :=
  match pieces with
  | [] => mret true
  | s :: pieces => ok ← write_str fd s; if (ok : bool) then write_fmt fd pieces else mret false
  end.
Definition print (pieces : list str) : prog unit := _ ← write_fmt 1 pieces; mret tt.
Definition println (pieces : list str) : prog unit := print (pieces ++ [[10]]).
Definition eprint (pieces : list str) : prog unit := _ ← write_fmt 2 pieces; mret tt.
Definition eprintln (pieces : list str) : prog unit := eprint (pieces ++ [[10]]).

(** [stdin_line] in the buffer of [len] bytes at [buf]. *)
Definition stdin_line (buf len : Z) : prog (option str) :=
  n ← read 0 buf len;
  if bool_decide (n <= 0) then mret None else
  if bool_decide (len < n) then panic else
  l ← load buf n;
  mret (from_utf8 (if bool_decide (last l = Some 10) then take (Z.to_nat (n - 1)) l else l)).

(** ** errno.rs *)

Definition errno_str (e : Z) : str :=
  if e =? 0 then bstr "Success"
  else if e =? 1 then bstr "Operation not permitted"
  else if e =? 2 then bstr "No such file or directory"
  else if e =? 9 then bstr "Bad file descriptor"
  else if e =? 11 then bstr "Try again"
  else if e =? 12 then bstr "Out of memory"
  else if e =? 13 then bstr "Permission denied"
  else if e =? 14 then bstr "Bad address"
  else if e =? 16 then bstr "Device or resource busy"
  else if e =? 17 then bstr "File exists"
  else if e =? 20 then bstr "Not a directory"
  else if e =? 21 then bstr "Is a directory"
  else if e =? 22 then bstr "Invalid argument"
  else if e =? 28 then bstr "No space left on device"
  else if e =? 32 then bstr "Broken pipe"
  else bstr "Unknown error".
(** [ERRNO] is at [at_]. *)
Definition errno (at_ : Z) : prog Z := l ← load at_ 4; mret (of_le l).
Definition set_errno (at_ v : Z) : prog unit := store at_ (le_bytes 4 v).
Definition perror (at_ : Z) (prefix : str) : prog unit :=
  e ← errno at_; eprintln [prefix; bstr ": "; errno_str e].

(** ** process.rs *)

(** A path is put at [text]. *)
Definition exec_path (path : str) : prog Z := _ ← store text path; exec text (lenZ path).

Definition fork_exec_wait (path : str) : prog Z :=
  pid ← fork;
  if bool_decide (pid = 0) then
    _ ← exec_path path;
    _ ← eprintln [bstr "exec('"; path; bstr "') a échoué"];
    exit 127
  else if bool_decide (0 < pid) then wait pid else mret (-1).

Definition spawn (path : str) : prog Z :=
  pid ← fork;
  if bool_decide (pid = 0) then _ ← exec_path path; exit 127
  else if bool_decide (0 < pid) then mret pid else mret (-1).

End io.

(** [_start]: [main], then [exit(0)]. *)
Definition start (main : prog unit) : prog Empty_set := _ ← main; exit 0.
