(* ===== verification/UserProgs.v ===== *)
(** * The user programs

    userland/init, userland/sh and userland/displayd, over the user library
    of Ulib.v.  A [loop] is an iteration of the tree; [text] is where the
    strings being written are, and the other addresses are those of the
    programs' local arrays. *)
From S2P Require Import Prelude Str Ipc Ulib.
From ITree Require Import ITree.
Local Open Scope Z_scope.

(** [loop { body }] *)
Definition loop {A} (body : prog unit) : prog A := ITree.iter (fun _ : unit => _ ← body; mret (inl tt)) tt.
(** [for x in l { f(x) }] *)
Fixpoint pfor {A} (l : list A) (f : A -> prog unit) : prog unit :=
  match l with [] => mret tt | x :: l => _ ← f x; pfor l f end.

Section programs.
Context (text : Z).

(** ** init *)

Definition SHELL : str := bstr "/bin/sh".

Definition init_turn : prog unit :=
  pid ← fork;
  if bool_decide (pid = 0) then
    _ ← exec_path text SHELL;
    _ ← eprintln text [bstr "[init] impossible d'exec "; SHELL; bstr " — halte."];
    exit 1
  else if bool_decide (0 < pid) then
    _ ← wait pid;
    println text [bstr "[init] le shell (pid="; fmt_dec pid; bstr ") s'est terminé, redémarrage..."]
  else
    _ ← eprintln text [bstr "[init] fork échoué — halte."];
    exit 1.
Definition init_main : prog unit :=
  _ ← println text [bstr "[init] bonjour depuis le PID 1. lancement de "; SHELL];
  loop init_turn.

(** ** sh *)

Abbreviation LINE_MAX := 256 (only parsing).

(** A digit and the sum are checked at 32 bits. *)
Fixpoint i32_digits (n : Z) (rest : str) : option Z :=
  match rest with
  | [] => Some n
  | c :: rest =>
      if bool_decide (48 <= c <= 57) then
        if bool_decide (n * 10 < 2 ^ 31) then
          if bool_decide (n * 10 + (c - 48) < 2 ^ 31) then i32_digits (n * 10 + (c - 48)) rest else None
        else None
      else None
  end.
Definition parse_i32 (s : str) : option Z :=
  match s with
  | [] => None
  | c :: r =>
      let '(neg, rest) := if bool_decide (c = 45) then (true, r) else (false, s) in
      match rest with
      | [] => None
      | _ => n ← i32_digits 0 rest; Some (if neg : bool then - n else n)
      end
  end.

Definition prompt : prog unit :=
  uid ← geteuid;
  print text [[if bool_decide (uid = 0) then 35 else 36]; bstr " "].

Definition help : prog unit :=
  pfor [ "builtins :"; "  help           cette aide"; "  exit [code]    quitte le shell (code défaut = 0)";
         "  echo <args>    répète ses arguments"; "  pid            affiche le PID courant";
         "  whoami         uid/euid du process"; "  pwd, cd        stubs";
         "sinon : fork + exec du binaire nommé (chemin absolu attendu)." ]%string
    (fun l => println text [bstr l]).

(** The [i]-th word of [echo], after a space when it is not the first. *)
Definition echo_word (i : Z) (a : str) : prog unit :=
  _ ← (if bool_decide (0 < i) then print text [[32]] else mret tt);
  print text [a].
Fixpoint echo_words (i : Z) (ws : list str) : prog unit :=
  match ws with [] => mret tt | a :: ws => _ ← echo_word i a; echo_words (i + 1) ws end.

Definition external (cmd : str) : prog unit :=
  pid ← fork;
  if bool_decide (pid = 0) then
    _ ← exec_path text cmd;
    _ ← eprintln text [bstr "sh: "; cmd; bstr ": commande introuvable"];
    exit 127
  else if bool_decide (0 < pid) then _ ← wait pid; mret tt
  else eprintln text [bstr "sh: fork échoué"].

Definition dispatch (argv : list str) : prog unit :=
  match argv with
  | [] => panic
  | cmd :: args =>
      if bool_decide (cmd = bstr "exit" \/ cmd = bstr "quit") then
        exit (default 0 (head args ≫= parse_i32))
      else if bool_decide (cmd = bstr "help") then help
      else if bool_decide (cmd = bstr "echo") then _ ← echo_words 0 args; println text []
      else if bool_decide (cmd = bstr "pid") then pid ← getpid; println text [fmt_dec pid]
      else if bool_decide (cmd = bstr "whoami") then
        uid ← getuid; euid ← geteuid;
        if bool_decide (uid = euid) then println text [bstr "uid="; fmt_dec uid]
        else println text [bstr "uid="; fmt_dec uid; bstr " (euid="; fmt_dec euid; bstr ")"]
      else if bool_decide (cmd = bstr "pwd") then println text [bstr "/"]
      else if bool_decide (cmd = bstr "cd") then eprintln text [bstr "cd: non implémenté (pas de sous-dossiers)"]
      else external cmd
  end.

(** [trim_ascii] *)
Fixpoint trim_ascii_start (s : str) : str :=
  match s with c :: s' => if ascii_white c then trim_ascii_start s' else s | [] => [] end.
Definition trim_ascii (s : str) : str := reverse (trim_ascii_start (reverse (trim_ascii_start s))).

(** One turn of the loop, with the line in the [LINE_MAX] bytes at [buf]. *)
Definition sh_turn (buf : Z) : prog unit :=
  _ ← prompt;
  line ← stdin_line buf LINE_MAX;
  match line with
  | None => mret tt
  | Some line =>
      let line := trim_ascii line in
      if bool_decide (line = []) then mret tt else
      match take 8 (str_words ascii_white line) with
      | [] => mret tt
      | argv => dispatch argv
      end
  end.
Definition sh_main (buf : Z) : prog unit :=
  _ ← println text [];
  _ ← println text [bstr "d/OS shell v0.1 — tape 'help' pour la liste des builtins."];
  _ ← store buf (replicate 256 0);
  loop (sh_turn buf).

End programs.

(** * The display server

    userland/displayd.  The canvas is the [u32] slice over the back buffer
    the kernel maps, so a pixel is a store to the program's memory, after
    the bounds check of the slice. *)

Abbreviation BG_RGB := 0x0a1a2a (only parsing).
Abbreviation FG_RGB := 0xe6e8eb (only parsing).
Abbreviation CURSOR_RGB := 0xffffff (only parsing).
Abbreviation CURSOR_SIZE := 8 (only parsing).
Abbreviation KIND_MOUSE_MOVE := 3 (only parsing).

(** [FbInfo] as the program reads it. *)
Record FbInfo := mkFbInfo {
  buffer_ptr : Z; buffer_len : Z; fi_width : Z; fi_height : Z; fi_pitch : Z; fi_format : Z; fi_caps : Z
}.
Definition read_info (l : list Z) : FbInfo :=
  let at_ o n := of_le (take n (drop o l)) in
  mkFbInfo (at_ 0%nat 8%nat) (at_ 8%nat 8%nat) (at_ 16%nat 4%nat) (at_ 20%nat 4%nat) (at_ 24%nat 4%nat)
    (at_ 28%nat 4%nat) (at_ 32%nat 4%nat).

(** The slice: its address and its number of pixels. *)
Record canvas := mkCanvas { c_base : Z; c_len : Z }.
Definition put (c : canvas) (i rgb : Z) : prog unit :=
  if bool_decide (i < c_len c) then store (c_base c + 4 * i) (le_bytes 4 rgb) else panic.

(** A sum of [u32] and of [i32]. *)
Definition add32 (a b : Z) : prog Z := if bool_decide (a + b < 2 ^ 32) then mret (a + b) else panic.
Definition in_i32 (x : Z) : Prop := - 2 ^ 31 <= x < 2 ^ 31.
#[export] Instance in_i32_dec x : Decision (in_i32 x).
Proof. unfold in_i32. apply _. Defined.
Definition addi32 (a b : Z) : prog Z := if bool_decide (in_i32 (a + b)) then mret (a + b) else panic.
Definition as_i32 (x : Z) : Z := let y := wrap 32 x in if bool_decide (2 ^ 31 <= y) then y - 2 ^ 32 else y.

(** ** Drawing *)

Definition fill (c : canvas) (pitch w h rgb : Z) : prog unit :=
  pfor (seqZ 0 h) (fun y => pfor (seqZ 0 w) (fun x => put c (y * pitch + x) rgb)).

Definition fill_rect (c : canvas) (pitch x y w h max_w max_h rgb : Z) : prog unit :=
  xw ← add32 x w;
  yh ← add32 y h;
  let x_end := Z.min xw max_w in
  let y_end := Z.min yh max_h in
  pfor (seqZ y (y_end - y)) (fun py => pfor (seqZ x (x_end - x)) (fun px => put c (py * pitch + px) rgb)).

(** A character: a block of 6 by 8 at column [cx]. *)
Definition draw_block (c : canvas) (pitch cx y fg : Z) : prog unit :=
  pfor (seqZ 0 8) (fun dy =>
    yd ← add32 y dy;
    pfor (seqZ 0 6) (fun dx => xd ← add32 cx dx; put c (yd * pitch + xd) fg)).
Fixpoint draw_label (c : canvas) (pitch cx y : Z) (s : str) (fg : Z) : prog unit :=
  match s with
  | [] => mret tt
  | ch :: s =>
      _ ← (if bool_decide (ch = 32 \/ ch < 0x20) then mret tt else draw_block c pitch cx y fg);
      cx ← add32 cx 8;
      draw_label c pitch cx y s fg
  end.

(** ** The loop *)

(** The events: [kind], [mouse_dx] and [mouse_dy]. *)
Definition read_event (l : list Z) : Z * Z * Z :=
  let at_ o := of_le (take 4 (drop o l)) in
  (at_ 0%nat, as_i32 (at_ 40%nat), as_i32 (at_ 44%nat)).

(** [(cur + d).clamp(0, size as i32 - 1)] *)
Definition move_axis (cur d size : Z) : prog Z :=
  v ← addi32 cur d;
  m ← addi32 (as_i32 size) (-1);
  if bool_decide (m < 0) then panic else mret (Z.max 0 (Z.min v m)).

Fixpoint handle_events (w h : Z) (evs : list (Z * Z * Z)) (cur : Z * Z) : prog (Z * Z) :=
  match evs with
  | [] => mret cur
  | (kind, dx, dy) :: evs =>
      cur ← (if bool_decide (kind = KIND_MOUSE_MOVE) then
               x ← move_axis cur.1 dx w;
               y ← move_axis cur.2 dy h;
               mret (x, y)
             else mret cur);
      handle_events w h evs cur
  end.

Definition redraw (c : canvas) (pitch w h : Z) (last cur : Z * Z) : prog unit :=
  if bool_decide (cur.1 <> last.1 \/ cur.2 <> last.2) then
    _ ← fill_rect c pitch (wrap 32 last.1) (wrap 32 last.2) CURSOR_SIZE CURSOR_SIZE w h BG_RGB;
    fill_rect c pitch (wrap 32 cur.1) (wrap 32 cur.2) CURSOR_SIZE CURSOR_SIZE w h CURSOR_RGB
  else mret tt.

(** The part of a turn between the two system calls. *)
Definition animate (c : canvas) (pitch w h : Z) (evs : list (Z * Z * Z)) (cur : Z * Z) : prog (Z * Z) :=
  new ← handle_events w h evs cur;
  _ ← redraw c pitch w h cur new;
  mret new.

(** One turn; the array of 16 events is at [events]. *)
Definition displayd_turn (events : Z) (c : canvas) (pitch w h : Z) (cur : Z * Z) : prog (Z * Z) :=
  n ← input_poll events 16;
  evs ← (if bool_decide (0 < n) then
           if bool_decide (16 < n) then panic else
           l ← load events (56 * n);
           mret ((fun i => read_event (drop (56 * i) l)) <$> seq 0 (Z.to_nat n))
         else mret []);
  new ← animate c pitch w h evs cur;
  _ ← fb_present None;
  _ ← sleep_ms 16;
  mret new.

(** The first picture. *)
Definition desktop (c : canvas) (pitch w h : Z) : prog unit :=
  _ ← fill c pitch w h BG_RGB;
  draw_label c pitch 32 32 (bstr "d/OS  -  displayd v0.1") FG_RGB.

(** [info] is where the [FbInfo] is. *)
Definition displayd_main (text events info_at : Z) : prog unit :=
  _ ← println text [bstr "[displayd] starting"];
  _ ← store info_at (replicate 40 0);
  r ← fb_acquire info_at;
  if bool_decide (r <> 0) then
    eprintln text [bstr "[displayd] FB_ACQUIRE failed (already held? not display-server?)"] else
  l ← load info_at 40;
  let info := read_info l in
  if bool_decide (buffer_ptr info = 0) || bool_decide (buffer_len info = 0) then
    eprintln text [bstr "[displayd] kernel returned null buffer"] else
  _ ← println text [bstr "[displayd] FB acquired: "; fmt_dec (fi_width info); bstr "x"; fmt_dec (fi_height info); bstr "@";
                    fmt_dec (fi_format info); bstr " pitch="; fmt_dec (fi_pitch info); bstr " buf="; fmt_0x (buffer_ptr info);
                    bstr " len="; fmt_dec (buffer_len info)];
  let pitch := fi_pitch info / 4 in
  let c := mkCanvas (buffer_ptr info) (buffer_len info / 4) in
  let '(w, h) := (fi_width info, fi_height info) in
  _ ← desktop c pitch w h;
  _ ← store events (replicate (56 * 16) 0);
  ITree.iter (fun cur => new ← displayd_turn events c pitch w h cur; mret (inl new)) (as_i32 (w / 2), as_i32 (h / 2)).
