(* ===== verification/UserRun.v ===== *)
(** * Running a user program

    The events of a program of Ulib.v against the kernel: a system call is
    [syscall_dispatch] of Syscall.v on the whole state of the kernel, with
    what the rest of the machine does during the [c]-th call of the machine
    given by [w c]; loads and stores go through the page tables ([UserMem]).
    [uexec] is the run as a relation, with the reasons a program stops. *)
From S2P Require Import Prelude Str Phys FrameAllocator FrameRefcount Paging AddressSpace Signal.
From S2P Require Import ProcessTable Ipc Queue Gfx Elf Executor Time Process.
From S2P Require Import BlockDev Ramfs Fat32 Thread Exec Fb Syscall Ulib UserProgs.
From ITree Require ITree.
Local Open Scope Z_scope.

(** How a run ends: with a value, with control gone to the kernel, waiting
    in a call, in a fault on its memory, in a panic of the program, at [hlt]
    in ring 3, or with a panic of the kernel. *)
Inductive uend (R : Type) :=
| Returned (r : R)
| Gone (c : control)
| Blocked
| Fault
| Panicked
| Halted
| KernelPanic.
Arguments Returned {R} _.
Arguments Gone {R} _.
Arguments Blocked {R}.
Arguments Fault {R}.
Arguments Panicked {R}.
Arguments Halted {R}.
Arguments KernelPanic {R}.

Section run.
Context {D : Type} `{ArrayQueue InputEventAbi} `{ArrayQueue Z} `{X86Paging} `{UserMem} `{BlockDev D}.
Local Abbreviation S := (sys D).
Context (w : Z -> env (D := D)).

Definition umem (s : S) : kmem := i_mem (y_i s).

(** One event: the answer, or the end of the run. *)
Definition answer {A} (e : userE A) (s : S) : S * (A + uend Empty_set) :=
  match e in userE A return S * (A + uend Empty_set) with
  | Syscall n a1 a2 a3 =>
      match syscall_dispatch (w (k_count (y_k s))) n a1 a2 a3 0 s with
      | Ret (s', RetVal v) => (s', inl v)
      | Ret (s', NoReturn c) => (s', inr (Gone c))
      | Ret (s', Waiting) => (s', inr Blocked)
      | Panic => (s, inr KernelPanic)
      end
  | Load a n => match uread (umem s) a n with Ret l => (s, inl l) | Panic => (s, inr Fault) end
  | Store a l => match uwrite (umem s) a l with Ret k => (set_y_mem k s, inl tt) | Panic => (s, inr Fault) end
  | UserPanic => (s, inr Panicked)
  | Hlt => (s, inr Halted)
  end.

Definition uend_map {R} (u : uend Empty_set) : uend R :=
  match u with
  | Returned v => match v with end
  | Gone c => Gone c
  | Blocked => Blocked
  | Fault => Fault
  | Panicked => Panicked
  | Halted => Halted
  | KernelPanic => KernelPanic
  end.

Inductive urun {R} : ITreeDefinition.itree' userE R -> S -> S -> uend R -> Prop :=
| urun_ret r s : urun (ITreeDefinition.RetF r) s s (Returned r)
| urun_tau t s s' u : urun (ITreeDefinition.observe t) s s' u -> urun (ITreeDefinition.TauF t) s s' u
| urun_vis {A} (e : userE A) k s s1 a s' u :
    answer e s = (s1, inl a) -> urun (ITreeDefinition.observe (k a)) s1 s' u -> urun (ITreeDefinition.VisF e k) s s' u
| urun_end {A} (e : userE A) k s s' u :
    answer e s = (s', inr u) -> urun (ITreeDefinition.VisF e k) s s' (uend_map u).

(** [t] from [s] ends in [s'] with [u]. *)
Definition uexec {R} (t : prog R) (s s' : S) (u : uend R) : Prop := urun (ITreeDefinition.observe t) s s' u.

(** The run as a function, [n] nodes of the tree long at most. *)
Fixpoint urun_n {R} (n : nat) (t : prog R) (s : S) : option (S * uend R) :=
  match n with
  | O => None
  | Datatypes.S n =>
      match ITreeDefinition.observe t with
      | ITreeDefinition.RetF r => Some (s, Returned r)
      | ITreeDefinition.TauF t => urun_n n t s
      | ITreeDefinition.VisF e k =>
          match answer e s with
          | (s1, inl a) => urun_n n (k a) s1
          | (s1, inr u) => Some (s1, uend_map u)
          end
      end
  end.

Lemma urun_n_sound {R} n (t : prog R) s s' u : urun_n n t s = Some (s', u) -> uexec t s s' u.
Proof.
  revert t s. induction n as [|n IH]; intros t s; cbn [urun_n]; [done|]. unfold uexec.
  destruct (ITreeDefinition.observe t) as [r|t'|A e k].
  - intros [= -> <-]. constructor.
  - intros E. constructor. by apply IH.
  - destruct (answer e s) as [s1 [a|u1]] eqn:Ea; intros E.
    + eapply urun_vis; [exact Ea|]. by apply IH.
    + injection E as <- <-. by eapply urun_end.
Qed.

Lemma urun_n_complete {R} (t : prog R) s s' u : uexec t s s' u ->
  exists n, forall m, (n <= m)%nat -> urun_n m t s = Some (s', u).
Proof.
  unfold uexec. intros Hr. enough (exists n, forall m t', (n <= m)%nat ->
    ITreeDefinition.observe t' = ITreeDefinition.observe t -> urun_n m t' s = Some (s', u)) as [n Hn] by (exists n; intros; by apply Hn).
  induction Hr as [r s|t' s s' u _ [n IH]|A e k s sa a s' u Ea _ [n IH]|A e k s s' u Ea].
  - exists 1%nat. intros [|m] t' Hm Et; [lia|]. cbn. by rewrite Et.
  - exists (Datatypes.S n). intros [|m] t1 Hm Et; [lia|]. cbn. rewrite Et. apply IH; [lia|done].
  - exists (Datatypes.S n). intros [|m] t1 Hm Et; [lia|]. cbn. rewrite Et, Ea. apply IH; [lia|done].
  - exists 1%nat. intros [|m] t1 Hm Et; [lia|]. cbn. by rewrite Et, Ea.
Qed.

(** A program ends in one way. *)
Lemma uexec_det {R} (t : prog R) s s1 u1 s2 u2 : uexec t s s1 u1 -> uexec t s s2 u2 -> s1 = s2 /\ u1 = u2.
Proof.
  intros [n1 E1]%urun_n_complete [n2 E2]%urun_n_complete.
  specialize (E1 (n1 + n2)%nat ltac:(lia)). specialize (E2 (n1 + n2)%nat ltac:(lia)). rewrite E1 in E2. by injection E2.
Qed.

(** ** Rules *)

Lemma uexec_ret {R} (r : R) s : uexec (mret r) s s (Returned r).
Proof. constructor. Qed.

Lemma observe_bind {R Q} (t : prog R) (k : R -> prog Q) :
  ITreeDefinition.observe (ITreeDefinition.ITree.bind t k) =
  match ITreeDefinition.observe t with
  | ITreeDefinition.RetF r => ITreeDefinition.observe (k r)
  | ITreeDefinition.TauF t => ITreeDefinition.TauF (ITreeDefinition.ITree.bind t k)
  | ITreeDefinition.VisF e h => ITreeDefinition.VisF e (fun x => ITreeDefinition.ITree.bind (h x) k)
  end.
Proof.
  transitivity (ITreeDefinition.observe
    match ITreeDefinition.observe t with
    | ITreeDefinition.RetF r => k r
    | ITreeDefinition.TauF t => ITreeDefinition.Tau (ITreeDefinition.ITree.bind t k)
    | ITreeDefinition.VisF e h => ITreeDefinition.Vis e (fun x => ITreeDefinition.ITree.bind (h x) k)
    end); [reflexivity|]. by destruct (ITreeDefinition.observe t).
Qed.

Lemma uexec_bind {R Q} (t : prog R) (k : R -> prog Q) s s1 r s' u :
  uexec t s s1 (Returned r) -> uexec (k r) s1 s' u -> uexec (t ≫= k) s s' u.
Proof.
  unfold uexec, mbind, prog_bind. intros Ht Hk. remember (ITreeDefinition.observe t) as ot eqn:Eo.
  remember (Returned r) as v eqn:Ev. revert t Eo Ev.
  induction Ht as [r' s|t' s s1' u1 _ IH|A e k' s sa a s1' u1 Ea _ IH|A e k' s s1' u1 Ea]; intros t Eo Ev.
  - injection Ev as ->. rewrite observe_bind. by rewrite <- Eo.
  - rewrite observe_bind, <- Eo. constructor. by apply IH.
  - rewrite observe_bind, <- Eo. eapply urun_vis; [exact Ea|]. by apply IH.
  - destruct u1 as [[]| | | | | |]; discriminate Ev.
Qed.

(** A run that does not return ends the programs it is part of. *)
Lemma uexec_bind_end {R Q} (t : prog R) (k : R -> prog Q) s s' u :
  uexec t s s' (uend_map u) -> uexec (t ≫= k) s s' (uend_map u).
Proof.
  unfold uexec, mbind, prog_bind. intros Ht. remember (ITreeDefinition.observe t) as ot eqn:Eo.
  remember (uend_map u) as v eqn:Ev. revert t Eo.
  induction Ht as [r' s|t' s s1' u1 _ IH|A e k' s sa a s1' u1 Ea _ IH|A e k' s s1' u1 Ea]; intros t Eo.
  - destruct u as [[]| | | | | |]; discriminate Ev.
  - rewrite observe_bind, <- Eo. constructor. by apply IH.
  - rewrite observe_bind, <- Eo. eapply urun_vis; [exact Ea|]. by apply IH.
  - rewrite observe_bind, <- Eo. replace (uend_map u) with (@uend_map Q u1); [by eapply urun_end|].
    destruct u1 as [[]| | | | | |], u as [[]| | | | | |]; cbn in *; congruence.
Qed.

Lemma uexec_trigger {A} (e : userE A) s s' a : answer e s = (s', inl a) -> uexec (ITreeDefinition.ITree.trigger e) s s' (Returned a).
Proof. intros Ea. eapply urun_vis; [exact Ea|]. constructor. Qed.
Lemma uexec_trigger_end {A} (e : userE A) s s' u : answer e s = (s', inr u) -> uexec (ITreeDefinition.ITree.trigger e) s s' (uend_map u).
Proof. intros Ea. by eapply urun_end. Qed.

(** One turn of an iteration. *)
Lemma uexec_iter {I R} (body : I -> prog (I + R)) i s s1 j s' u :
  uexec (body i) s s1 (Returned (inl j)) -> uexec (ITreeDefinition.ITree.iter body j) s1 s' u ->
  uexec (ITreeDefinition.ITree.iter body i) s s' u.
Proof.
  intros Hb Hi. apply (uexec_bind (body i) (fun lr => match lr with inl l => ITreeDefinition.Tau (ITreeDefinition.ITree.iter body l)
    | inr r => ITreeDefinition.go (ITreeDefinition.RetF r) end) _ s1 (inl j)); [done|]. by constructor.
Qed.
Lemma uexec_iter_done {I R} (body : I -> prog (I + R)) i s s' r :
  uexec (body i) s s' (Returned (inr r)) -> uexec (ITreeDefinition.ITree.iter body i) s s' (Returned r).
Proof.
  intros Hb. apply (uexec_bind (body i) (fun lr => match lr with inl l => ITreeDefinition.Tau (ITreeDefinition.ITree.iter body l)
    | inr r => ITreeDefinition.go (ITreeDefinition.RetF r) end) _ s' (inr r)); [done|]. constructor.
Qed.
End run.
