(* ===== verification/UserCorrect.v ===== *)
(** * User programs on the kernel

    What a program of Ulib.v and UserProgs.v does when its system calls are
    those of Syscall.v: the text it prints reaches the console, the line it
    reads is the line typed, and the turns of the shell. *)
From S2P Require Import Prelude Str Phys FrameAllocator FrameRefcount Paging AddressSpace Signal.
From S2P Require Import ProcessTable Ipc Queue Gfx Elf Executor Time Process.
From S2P Require Import BlockDev Ramfs Fat32 Thread Exec Fb Syscall Ulib UserProgs UserRun.
From ITree Require ITree.
Local Open Scope Z_scope.

(** The processor's memory as bytes: [ubyte] is what a load finds, and the
    addresses [uown] are writable and have a frame that no other of them
    has, so that a store changes its own bytes only. *)
Class UserMemLaws `{UserMem} := {
  ubyte : kmem -> Z -> option Z;
  uown : kmem -> Z -> Prop;
  uread_bytes k a n : uread k a n = match mapM (ubyte k) (seqZ a n) with Some l => Ret l | None => Panic end;
  uwrite_bytes k a l : (forall x, a <= x < a + lenZ l -> uown k x) ->
    exists k', uwrite k a l = Ret k' /\ (forall x, uown k x -> uown k' x) /\
      (forall x, uown k x -> ubyte k' x = if bool_decide (a <= x < a + lenZ l) then l !! Z.to_nat (x - a) else ubyte k x);
}.

Section laws.
Context `{UserMemLaws}.

(** The bytes [l] are at [a]. *)
Definition holds (k : kmem) (a : Z) (l : list Z) : Prop :=
  forall i v, l !! i = Some v -> ubyte k (a + Z.of_nat i) = Some v.
Definition own (k : kmem) (a n : Z) : Prop := forall x, a <= x < a + n -> uown k x.

Lemma holds_read k a l : holds k a l -> uread k a (lenZ l) = Ret l.
Proof.
  intros Hh. rewrite uread_bytes. enough (mapM (ubyte k) (seqZ a (lenZ l)) = Some l) as -> by done.
  apply mapM_Some. apply Forall2_same_length_lookup_2.
  { rewrite length_seqZ. unfold lenZ. lia. }
  intros i x v [-> Hi]%lookup_seqZ Hv. by apply Hh.
Qed.
Lemma holds_drop k a l i z : z = Z.of_nat i -> holds k a l -> holds k (a + z) (drop i l).
Proof. intros -> Hh j v. rewrite lookup_drop. intros Hv%Hh. rewrite <- Hv. f_equal. lia. Qed.
Lemma umem_holds_app k a l1 l2 : holds k a l1 -> holds k (a + lenZ l1) l2 -> holds k a (l1 ++ l2).
Proof.
  intros H1 H2 i v [Hv|[Hi Hv]]%lookup_app_Some; [by apply H1|].
  rewrite <- (H2 _ _ Hv). f_equal. unfold lenZ. lia.
Qed.

(** A store to own addresses. *)
Lemma own_write k a l : own k a (lenZ l) ->
  exists k', uwrite k a l = Ret k' /\ holds k' a l /\ (forall x, uown k x -> uown k' x) /\
    (forall b l', holds k b l' -> own k b (lenZ l') -> b + lenZ l' <= a \/ a + lenZ l <= b -> holds k' b l').
Proof.
  intros Ho. destruct (uwrite_bytes k a l Ho) as (k' & E & Hk & Hb). exists k'. split; [done|]. split; [|split; [done|]].
  - intros i v Hv. pose proof (lookup_lt_Some _ _ _ Hv) as Hl. rewrite Hb by (apply Ho; unfold lenZ; lia).
    rewrite bool_decide_eq_true_2 by (unfold lenZ; lia). replace (Z.to_nat _) with i by lia. done.
  - intros b l' Hh Ho' Hs i v Hv. pose proof (lookup_lt_Some _ _ _ Hv) as Hl. rewrite Hb by (apply Ho'; unfold lenZ; lia).
    rewrite bool_decide_eq_false_2 by (unfold lenZ in *; lia). by apply Hh.
Qed.
End laws.

(** ** Words *)

Lemma str_words_start s : str_words ascii_white (trim_ascii_start s) = str_words ascii_white s.
Proof. induction s as [|c s IH]; [done|]. cbn [trim_ascii_start str_words]. destruct (ascii_white c) eqn:E; [done|]. cbn [str_words]. by rewrite E. Qed.
Lemma trim_start_white s : exists ws, s = ws ++ trim_ascii_start s /\ forallb ascii_white ws = true.
Proof.
  induction s as [|c s (ws & Es & Hw)]; [by exists []|]. cbn [trim_ascii_start]. destruct (ascii_white c) eqn:E; [|by exists []].
  exists (c :: ws). cbn [app forallb]. rewrite E, Hw. split; [congruence|done].
Qed.
Lemma str_words_white ws : forallb ascii_white ws = true -> str_words ascii_white ws = [].
Proof. induction ws as [|c ws IH]; [done|]. cbn [forallb str_words]. intros [-> Hw]%andb_prop. by apply IH. Qed.
Lemma str_words_end s ws : forallb ascii_white ws = true -> str_words ascii_white (s ++ ws) = str_words ascii_white s.
Proof.
  intros Hw. induction s as [|c s IH]; [by apply str_words_white|]. cbn [app str_words]. rewrite IH.
  destruct (ascii_white c); [done|]. destruct s as [|d s]; [|done]. cbn [app head str_words].
  by destruct (head ws).
Qed.
Lemma forallb_reverse {A} (f : A -> bool) l : forallb f (reverse l) = forallb f l.
Proof.
  induction l as [|x l IH]; [done|]. rewrite reverse_cons, forallb_app, IH. cbn. by rewrite andb_true_r, andb_comm.
Qed.
Lemma str_words_trim s : str_words ascii_white (trim_ascii s) = str_words ascii_white s.
Proof.
  unfold trim_ascii. rewrite <- (str_words_start s). set (t := trim_ascii_start s).
  destruct (trim_start_white (reverse t)) as (ws & Et & Hw).
  assert (E : t = reverse (trim_ascii_start (reverse t)) ++ reverse ws).
  { rewrite <- reverse_app, <- Et. by rewrite reverse_involutive. }
  rewrite E at 2. symmetry. apply str_words_end. by rewrite forallb_reverse.
Qed.

(** The words are made of the characters of the line. *)
Lemma str_words_of (P : Z -> Prop) s : Forall P s -> Forall (fun w => Forall P w /\ lenZ w <= lenZ s) (str_words ascii_white s).
Proof.
  induction 1 as [|c s Hc Hs IH]; [by constructor|]. cbn [str_words].
  assert (Hm : Forall (fun w => Forall P w /\ lenZ w <= lenZ (c :: s)) (str_words ascii_white s)).
  { eapply Forall_impl; [exact IH|]. intros w [Hw Hl]. split; [done|]. unfold lenZ in *. cbn [length]. lia. }
  assert (Hone : Forall P [c] /\ lenZ [c] <= lenZ (c :: s)) by (split; [by repeat constructor|unfold lenZ; cbn [length]; lia]).
  destruct (ascii_white c); [done|]. destruct (head s) as [d|]; [|by constructor].
  destruct (str_words ascii_white s) as [|w ws]; [by constructor|]. destruct (ascii_white d); [by constructor|].
  apply Forall_cons in IH as [[Hw Hl] _]. apply Forall_cons in Hm as [_ Hm]. constructor; [|done].
  split; [by constructor|]. unfold lenZ in *. cbn [length]. lia.
Qed.

(** ** Output *)

Section user.
Context {D : Type} `{ArrayQueue InputEventAbi} `{ArrayQueue Z} `{X86Paging} `{UserMemLaws} `{BlockDev D}.
Local Abbreviation S := (sys D).
Context (w : Z -> env (D := D)).
(** [cap] bytes for strings at [text], and [LINE_MAX] for a line at [buf]. *)
Context (text cap buf : Z).

Record places : Prop := {
  pl_text : 0 < text;
  pl_text_end : text + cap < USER_SPACE_MAX;
  pl_buf : 0 < buf;
  pl_buf_end : buf + 256 < USER_SPACE_MAX;
  pl_apart : text + cap <= buf \/ buf + 256 <= text;
}.
Record ready (s : S) : Prop := {
  rd_text : own (umem s) text cap;
  rd_buf : own (umem s) buf 256;
}.

(** From [s] to [s'] with [out] printed on the console and [err] on the
    serial line, in [n] system calls. *)
Record spoke (out err : str) (n : Z) (s s' : S) : Prop := {
  sp_console : k_console (y_k s') = k_console (y_k s) ++ out;
  sp_serial : k_serial (y_k s') = k_serial (y_k s) ++ err;
  sp_count : k_count (y_k s') = k_count (y_k s) + n;
  sp_table : y_table s' = y_table s;
  sp_ready : ready s -> ready s';
}.
Lemma spoke_refl s : spoke [] [] 0 s s.
Proof. split; rewrite ?app_nil_r; done || lia. Qed.
Lemma spoke_trans o1 e1 n1 o2 e2 n2 s1 s2 s3 :
  spoke o1 e1 n1 s1 s2 -> spoke o2 e2 n2 s2 s3 -> spoke (o1 ++ o2) (e1 ++ e2) (n1 + n2) s1 s3.
Proof.
  intros [] []. split; [rewrite sp_console1, sp_console0, app_assoc|rewrite sp_serial1, sp_serial0, app_assoc|lia|congruence|]; auto.
Qed.

Lemma uexec_store (s : S) a l k : uwrite (umem s) a l = Ret k -> uexec w (store a l) s (set_y_mem k s) (Returned tt).
Proof. intros E. apply uexec_trigger. cbn. by rewrite E. Qed.
Lemma uexec_load (s : S) a n l : uread (umem s) a n = Ret l -> uexec w (load a n) s s (Returned l).
Proof. intros E. apply uexec_trigger. cbn. by rewrite E. Qed.

(** A call that returns a value. *)
Lemma uexec_syscall n a1 a2 a3 (s s' : S) v :
  syscall_dispatch (w (k_count (y_k s))) n a1 a2 a3 0 s = Ret (s', RetVal v) ->
  uexec w (syscall3 n a1 a2 a3) s s' (Returned v).
Proof. intros E. apply uexec_trigger. cbn. by rewrite E. Qed.

Lemma user_slice_ok p n : 0 < p -> 0 < n -> p + n < USER_SPACE_MAX ->
  user_slice p n = Some (p, n) /\ user_slice_mut p n = Some (p, n).
Proof.
  intros Hp Hn He. unfold user_slice, user_slice_mut, checked_add. unfold USER_SPACE_MAX in *.
  rewrite (proj2 (Z.eqb_neq p 0)), (proj2 (Z.eqb_neq n 0)) by lia. cbn [orb].
  rewrite (bool_decide_eq_true_2 (p + n < 2 ^ 64)) by lia. cbn [mbind option_bind].
  by rewrite bool_decide_eq_false_2 by lia.
Qed.

(** What [fd] gets of the text [x]. *)
Definition out_of (fd : Z) (x : str) : str := if bool_decide (fd = 1) then x else [].
Definition err_of (fd : Z) (x : str) : str := if bool_decide (fd = 2) then x else [].

Lemma sys_write_ok fd p l (s : S) :
  fd = 1 \/ fd = 2 -> 0 < p -> 0 < lenZ l -> p + lenZ l < USER_SPACE_MAX -> utf8_ok l = true -> holds (umem s) p l ->
  sys_write fd p (lenZ l) s = Ret (if bool_decide (fd = 1) then print_console l s else print_serial l s, lenZ l).
Proof.
  intros Hfd Hp Hl He Hu Hh. unfold sys_write, fn_ret. rewrite (proj1 (user_slice_ok p (lenZ l) Hp Hl He)).
  rewrite (mbindM_Ret _ _ _ s l). 2: { unfold from_user. rewrite (mbindM_Ret _ _ _ s s) by done. unfold mlift. pose proof (holds_read _ _ _ Hh) as E. unfold umem in E. by rewrite E. }
  unfold from_utf8. rewrite Hu. destruct Hfd as [-> | ->]; done.
Qed.

Lemma write_exec fd p l (s : S) :
  fd = 1 \/ fd = 2 -> 0 < p -> 0 < lenZ l -> p + lenZ l < USER_SPACE_MAX -> utf8_ok l = true -> holds (umem s) p l ->
  k_count (y_k s) + 1 < 2 ^ 64 ->
  exists s', uexec w (write fd p (lenZ l)) s s' (Returned (lenZ l)) /\ spoke (out_of fd l) (err_of fd l) 1 s s'.
Proof.
  intros Hfd Hp Hl Hend Hu Hh Hc. set (s1 := set_y_count (k_count (y_k s) + 1) s).
  set (s' := if bool_decide (fd = 1) then print_console l s1 else print_serial l s1).
  exists s'. split.
  - eapply uexec_bind; [apply (uexec_syscall _ _ _ _ s s' (lenZ l))|].
    + unfold syscall_dispatch. rewrite add_chk_ok by done. cbn [mbind outcome_bind].
      rewrite bool_decide_eq_true_2 by done. fold s1. unfold ret_val. by rewrite (sys_write_ok fd p l s1).
    + replace (lenZ l) with (as_i64 (lenZ l)) at 2; [apply uexec_ret|]. unfold as_i64. unfold USER_SPACE_MAX in *.
      by rewrite bool_decide_eq_false_2 by lia.
  - unfold out_of, err_of, s'. destruct Hfd as [-> | ->]; (split; [cbn; by rewrite ?app_nil_r..|done|done|by intros []; split]).
Qed.

(** A piece that is not empty takes a call. *)
Fixpoint ncalls (pieces : list str) : Z :=
  match pieces with [] => 0 | x :: l => (if bool_decide (x = []) then 0 else 1) + ncalls l end.
Lemma ncalls_range pieces : 0 <= ncalls pieces <= lenZ pieces.
Proof. unfold lenZ. induction pieces as [|x l IH]; cbn [ncalls length]; [lia|]. destruct (bool_decide _); lia. Qed.

Lemma write_str_exec fd x (s : S) : places -> ready s ->
  fd = 1 \/ fd = 2 -> lenZ x <= cap -> utf8_ok x = true -> k_count (y_k s) + ncalls [x] < 2 ^ 64 ->
  exists s', uexec w (write_str text fd x) s s' (Returned true) /\ spoke (out_of fd x) (err_of fd x) (ncalls [x]) s s'.
Proof.
  intros [] [] Hfd Hx Hu Hc. destruct (own_write (umem s) text x) as (k & Ew & Hh & Hk & _).
  { intros y Hy. apply rd_text0. lia. }
  assert (Hr : ready (set_y_mem k s)) by (split; intros y Hy; apply Hk; auto).
  unfold write_str, write_all. destruct (decide (x = [])) as [->|Hne].
  - exists (set_y_mem k s). split.
    + eapply uexec_bind; [by apply uexec_store|]. apply uexec_iter_done. apply uexec_ret.
    + unfold out_of, err_of. split; cbn; [destruct Hfd as [-> | ->]; by rewrite app_nil_r..|lia|done|done].
  - assert (Hl : 0 < lenZ x) by (destruct x; [done|unfold lenZ; cbn; lia]).
    cbn [ncalls] in Hc. rewrite bool_decide_eq_false_2 in Hc by done.
    destruct (write_exec fd text x (set_y_mem k s)) as (s' & E & Hsp); try done; [lia|].
    exists s'. split.
    + eapply uexec_bind; [by apply uexec_store|]. eapply uexec_iter; [|apply uexec_iter_done].
      * rewrite bool_decide_eq_false_2 by lia. rewrite Z.add_0_r, Z.sub_0_r. eapply uexec_bind; [exact E|].
        rewrite !bool_decide_eq_false_2, bool_decide_eq_true_2 by lia. apply uexec_ret.
      * rewrite bool_decide_eq_true_2 by lia. apply uexec_ret.
    + cbn [ncalls]. rewrite bool_decide_eq_false_2 by done. destruct Hsp. split; try done. by intros _; apply sp_ready0.
Qed.

Lemma out_of_app fd x y : out_of fd (x ++ y) = out_of fd x ++ out_of fd y.
Proof. unfold out_of. by destruct (bool_decide _). Qed.
Lemma err_of_app fd x y : err_of fd (x ++ y) = err_of fd x ++ err_of fd y.
Proof. unfold err_of. by destruct (bool_decide _). Qed.

Definition piece_ok (x : str) : Prop := lenZ x <= cap /\ utf8_ok x = true.

Lemma write_fmt_exec fd pieces : forall s : S, places -> ready s -> fd = 1 \/ fd = 2 -> Forall piece_ok pieces ->
  k_count (y_k s) + ncalls pieces < 2 ^ 64 ->
  exists s', uexec w (write_fmt text fd pieces) s s' (Returned true) /\
    spoke (out_of fd (concat pieces)) (err_of fd (concat pieces)) (ncalls pieces) s s'.
Proof.
  induction pieces as [|x l IH]; intros s Hp Hr Hfd Hok Hc.
  { exists s. split; [apply uexec_ret|]. unfold out_of, err_of. destruct Hfd as [-> | ->]; apply spoke_refl. }
  apply Forall_cons in Hok as [[Hx Hu] Hok]. pose proof (ncalls_range l). pose proof (ncalls_range [x]).
  assert (En : ncalls (x :: l) = ncalls [x] + ncalls l) by (cbn [ncalls]; lia). rewrite En in *.
  destruct (write_str_exec fd x s Hp Hr Hfd Hx Hu ltac:(lia)) as (s1 & E1 & H1').
  destruct (IH s1 Hp ltac:(by apply H1') Hfd Hok) as (s2 & E2 & H2'); [rewrite (sp_count _ _ _ _ _ H1'); lia|].
  exists s2. split; [by eapply uexec_bind|]. cbn [concat]. rewrite out_of_app, err_of_app. by eapply spoke_trans.
Qed.

(** [print!] and [eprint!]. *)
Lemma print_exec pieces (s : S) : places -> ready s -> Forall piece_ok pieces -> k_count (y_k s) + ncalls pieces < 2 ^ 64 ->
  exists s', uexec w (print text pieces) s s' (Returned tt) /\ spoke (concat pieces) [] (ncalls pieces) s s'.
Proof.
  intros Hp Hr Hok Hc. destruct (write_fmt_exec 1 pieces s Hp Hr (or_introl eq_refl) Hok Hc) as (s' & E & Hs).
  exists s'. split; [|done]. eapply uexec_bind; [exact E|apply uexec_ret].
Qed.
Lemma eprint_exec pieces (s : S) : places -> ready s -> Forall piece_ok pieces -> k_count (y_k s) + ncalls pieces < 2 ^ 64 ->
  exists s', uexec w (eprint text pieces) s s' (Returned tt) /\ spoke [] (concat pieces) (ncalls pieces) s s'.
Proof.
  intros Hp Hr Hok Hc. destruct (write_fmt_exec 2 pieces s Hp Hr (or_intror eq_refl) Hok Hc) as (s' & E & Hs).
  exists s'. split; [|done]. eapply uexec_bind; [exact E|apply uexec_ret].
Qed.

(** ** Input *)

(** One key: echoed, and its byte stored after the ones before. *)
Lemma store_key c (s : S) pre : lenZ pre < 256 -> ready s -> holds (umem s) buf pre ->
  exists k, into_user (buf + lenZ pre) [c] (print_console [c] s) = Ret (set_y_mem k (print_console [c] s), Ok tt) /\
    spoke [c] [] 0 s (set_y_mem k (print_console [c] s)) /\ holds k buf (pre ++ [c]).
Proof.
  intros Hl [] Hh. destruct (own_write (umem s) (buf + lenZ pre) [c]) as (k & Ew & Hk & Ho & Hf).
  { intros x Hx. apply rd_buf0. unfold lenZ in *. cbn in *. lia. }
  exists k. split; [|split].
  - unfold into_user. rewrite (mbindM_Ret _ _ _ (print_console [c] s) (print_console [c] s)) by done.
    rewrite (mbindM_Ret _ _ _ (print_console [c] s) k); [done|].
    change (i_mem (y_i (print_console [c] s))) with (umem s). unfold mlift. by rewrite Ew.
  - split; cbn; rewrite ?app_nil_r; try done; [lia|]. intros _. split; intros x Hx; apply Ho; auto.
  - apply umem_holds_app; [|done]. apply Hf; [done| |left; lia]. intros x Hx. apply rd_buf0. lia.
Qed.

(** The loop of [sys_read] on a typed line: every key is echoed and stored,
    up to the end of the line. *)
Lemma read_loop_line line rest : forall (s : S) pre,
  Forall (fun c => 32 <= c < 127) line -> lenZ pre + lenZ line < 256 -> ready s -> holds (umem s) buf pre ->
  exists s', read_loop ((inl <$> line) ++ inl 10 :: rest) buf 256 (lenZ pre) s = Ret (s', Ok (Some (lenZ (pre ++ line ++ [10])))) /\
    spoke (line ++ [10]) [] 0 s s' /\ holds (umem s') buf (pre ++ line ++ [10]).
Proof.
  induction line as [|c line IH]; intros s pre Hok Hl Hr Hh.
  - destruct (store_key 10 s pre) as (k & E & Hs & Hk); [unfold lenZ in *; cbn in *; lia|done..|].
    exists (set_y_mem k (print_console [10] s)). split; [|done]. cbn [fmap list_fmap app read_loop].
    rewrite (bool_decide_eq_false_2 (10 = 8 \/ 10 = 127)) by lia.
    rewrite (mbindM_Ret _ _ _ (print_console [10] s) tt) by done. rewrite (bool_decide_eq_false_2 (10 = 13)) by lia.
    rewrite (bool_decide_eq_true_2 (lenZ pre < 256)) by (unfold lenZ in *; cbn in *; lia). change (wrap 8 10) with 10. rewrite (mbindM_Ret _ _ _ _ _ E).
    rewrite bool_decide_eq_true_2 by lia. unfold lenZ. rewrite length_app. cbn [length]. unfold mok. do 4 f_equal. lia.
  - apply Forall_cons in Hok as [Hc Hok]. assert (Hc8 : wrap 8 c = c) by (apply Z.mod_small; lia).
    assert (Hee : encode_char c = [c]) by (unfold encode_char; by rewrite bool_decide_eq_true_2 by lia).
    destruct (store_key c s pre) as (k & E & Hs & Hk); [unfold lenZ in *; cbn in *; lia|done..|].
    destruct (IH (set_y_mem k (print_console [c] s)) (pre ++ [c]) Hok) as (s' & E' & Hs' & Hh');
      [unfold lenZ in *; rewrite length_app; cbn in *; lia|by apply Hs|done|].
    exists s'. rewrite <- !app_assoc in E', Hh'. cbn [app] in E', Hh'. split; [|split; [|done]].
    2: { change (c :: line) with ([c] ++ line). rewrite <- app_assoc. by apply (spoke_trans [c] [] 0 (line ++ [10]) [] 0 _ _ _ Hs). }
    cbn [fmap list_fmap app read_loop]. rewrite bool_decide_eq_false_2 by lia. rewrite Hee.
    rewrite (mbindM_Ret _ _ _ (print_console [c] s) tt) by done. rewrite (bool_decide_eq_false_2 (c = 13)) by lia.
    rewrite Hc8, (bool_decide_eq_true_2 (lenZ pre < 256)) by (unfold lenZ in *; cbn in *; lia). rewrite (mbindM_Ret _ _ _ _ _ E).
    rewrite bool_decide_eq_false_2 by (unfold lenZ in *; cbn in *; lia). rewrite <- E'. f_equal.
    unfold lenZ. rewrite length_app. cbn [length]. lia.
Qed.

Lemma printable_ascii (l : str) : Forall (fun c => 32 <= c < 127) l -> ascii l = true.
Proof.
  induction 1 as [|c l Hc _ IH]; [done|]. unfold ascii in *. cbn [forallb]. by rewrite bool_decide_eq_true_2, IH by lia.
Qed.

Lemma stdin_line_exec line rest (s : S) : places -> ready s ->
  e_keys (w (k_count (y_k s))) = (inl <$> line) ++ inl 10 :: rest -> Forall (fun c => 32 <= c < 127) line -> lenZ line < 256 ->
  k_count (y_k s) + 1 < 2 ^ 64 ->
  exists s', uexec w (stdin_line buf 256) s s' (Returned (Some line)) /\ spoke (line ++ [10]) [] 1 s s'.
Proof.
  intros Hp Hr Hk Hok Hl Hc. set (s1 := set_y_count (k_count (y_k s) + 1) s).
  destruct (read_loop_line line rest s1 []) as (s' & E & Hs & Hh); try done; [by destruct Hr|].
  cbn [app] in E, Hh. set (n := lenZ (line ++ [10])) in *.
  assert (Hn : n = lenZ line + 1) by (unfold n, lenZ; rewrite length_app; cbn; lia).
  assert (0 <= lenZ line) by (unfold lenZ; lia).
  exists s'. split.
  - unfold stdin_line, read. eapply uexec_bind; [eapply uexec_bind; [apply (uexec_syscall _ _ _ _ s s' n)|apply uexec_ret]|].
    + unfold syscall_dispatch. rewrite add_chk_ok by done. cbn [mbind outcome_bind]. fold s1. destruct Hp.
      change (bool_decide (2 = nr.WRITE)) with false. change (bool_decide (2 = nr.READ)) with true. cbv iota. unfold sys_read.
      rewrite bool_decide_eq_false_2 by auto. rewrite (proj2 (user_slice_ok buf 256 pl_buf0 ltac:(lia) ltac:(lia))).
      rewrite bool_decide_eq_false_2 by lia. change (lenZ []) with 0 in E. rewrite Hk, E. done.
    + assert (Eo : or_neg n = n).
      { unfold or_neg, as_i64, U64_MAX. by rewrite !bool_decide_eq_false_2 by lia. }
      rewrite Eo, !bool_decide_eq_false_2 by lia. eapply uexec_bind; [apply uexec_load; by apply holds_read|].
      rewrite last_snoc, bool_decide_eq_true_2 by done.
      replace (Z.to_nat (n - 1)) with (length line) by (unfold lenZ in Hn; lia). rewrite take_app_length.
      unfold from_utf8. rewrite ascii_utf8; [apply uexec_ret|].
      by apply printable_ascii.
  - destruct Hs. split; [done|done|cbn in *; lia|done|]. by intros []; apply sp_ready0; split.
Qed.

(** ** The builtins of the shell *)

(** A call without arguments that reads [v] off the state. *)
Lemma syscall0_exec n v (s : S) : k_count (y_k s) + 1 < 2 ^ 64 ->
  (forall e, syscall_dispatch e n 0 0 0 0 s = Ret (set_y_count (k_count (y_k s) + 1) s, RetVal v)) ->
  exists s', uexec w (syscall0 n) s s' (Returned v) /\ spoke [] [] 1 s s'.
Proof.
  intros Hc Hd. exists (set_y_count (k_count (y_k s) + 1) s). split.
  - apply uexec_trigger. cbn -[syscall_dispatch]. by rewrite Hd.
  - split; cbn; rewrite ?app_nil_r; done || (by intros []; split).
Qed.

Lemma ident_exec (s : S) : k_count (y_k s) + 1 < 2 ^ 64 ->
  (exists s', uexec w getpid s s' (Returned (wrap 32 (current_pid (y_table s)))) /\ spoke [] [] 1 s s') /\
  (exists s', uexec w getuid s s' (Returned (wrap 32 (sys_getuid s))) /\ spoke [] [] 1 s s') /\
  (exists s', uexec w geteuid s s' (Returned (wrap 32 (sys_geteuid s))) /\ spoke [] [] 1 s s').
Proof.
  intros Hc. split_and!.
  - destruct (syscall0_exec 4 (current_pid (y_table s)) s Hc) as (s' & E & Hs).
    { intros e. unfold syscall_dispatch. by rewrite add_chk_ok. }
    exists s'. split; [|done]. eapply uexec_bind; [exact E|apply uexec_ret].
  - destruct (syscall0_exec 30 (sys_getuid s) s Hc) as (s' & E & Hs).
    { intros e. unfold syscall_dispatch. by rewrite add_chk_ok. }
    exists s'. split; [|done]. eapply uexec_bind; [exact E|apply uexec_ret].
  - destruct (syscall0_exec 31 (sys_geteuid s) s Hc) as (s' & E & Hs).
    { intros e. unfold syscall_dispatch. by rewrite add_chk_ok. }
    exists s'. split; [|done]. eapply uexec_bind; [exact E|apply uexec_ret].
Qed.

Lemma spoke_ident out err n (s s' : S) : spoke out err n s s' ->
  current_pid (y_table s') = current_pid (y_table s) /\ sys_getuid s' = sys_getuid s /\ sys_geteuid s' = sys_geteuid s.
Proof. intros []. unfold sys_getuid, sys_geteuid, ident_field. by rewrite sp_table0. Qed.

(** What a builtin prints on the console and on the serial line. *)
Definition help_text : str := concat ((fun l => bstr l ++ [10]) <$>
  [ "builtins :"; "  help           cette aide"; "  exit [code]    quitte le shell (code défaut = 0)";
    "  echo <args>    répète ses arguments"; "  pid            affiche le PID courant";
    "  whoami         uid/euid du process"; "  pwd, cd        stubs";
    "sinon : fork + exec du binaire nommé (chemin absolu attendu)." ]%string).
Definition builtin_text (pid uid euid : Z) (cmd : str) (args : list str) : option (str * str) :=
  if bool_decide (cmd = bstr "help") then Some (help_text, [])
  else if bool_decide (cmd = bstr "echo") then Some (str_join 32 args ++ [10], [])
  else if bool_decide (cmd = bstr "pid") then Some (fmt_dec pid ++ [10], [])
  else if bool_decide (cmd = bstr "whoami") then
    Some (if bool_decide (uid = euid) then bstr "uid=" ++ fmt_dec uid ++ [10]
          else bstr "uid=" ++ fmt_dec uid ++ bstr " (euid=" ++ fmt_dec euid ++ bstr ")" ++ [10], [])
  else if bool_decide (cmd = bstr "pwd") then Some (bstr "/" ++ [10], [])
  else if bool_decide (cmd = bstr "cd") then Some ([], bstr "cd: non implémenté (pas de sous-dossiers)" ++ [10])
  else None.

Section says.
Context (Hp : places) (Hcap : 256 <= cap).

(** While the processes are those of [T], [t] returns after at most [N]
    calls and prints [out] and [err]. *)
Definition says (T : ProcessTable) (N : Z) (t : prog unit) (out err : str) : Prop :=
  forall s : S, y_table s = T -> ready s -> k_count (y_k s) + N < 2 ^ 64 ->
  exists s' n, uexec w t s s' (Returned tt) /\ spoke out err n s s' /\ 0 <= n <= N.

Lemma says_ret T : says T 0 (mret tt) [] [].
Proof. intros s _ _ _. exists s, 0. split; [apply uexec_ret|]. split; [apply spoke_refl|lia]. Qed.
Lemma ubind_says T N1 N2 t1 t2 o1 e1 o2 e2 : 0 <= N2 -> says T N1 t1 o1 e1 -> says T N2 t2 o2 e2 ->
  says T (N1 + N2) (_ ← t1; t2) (o1 ++ o2) (e1 ++ e2).
Proof.
  intros HN H1' H2' s HT Hr Hc. destruct (H1' s HT Hr ltac:(lia)) as (s1 & n1 & E1 & Hs1 & Hn1).
  destruct (H2' s1) as (s2 & n2 & E2 & Hs2 & Hn2);
    [by rewrite (sp_table _ _ _ _ _ Hs1)|by apply Hs1|rewrite (sp_count _ _ _ _ _ Hs1); lia|].
  exists s2, (n1 + n2). split; [by eapply uexec_bind|]. split; [by eapply spoke_trans|lia].
Qed.
Lemma says_as T N N' t out err out' err' : says T N t out err -> N <= N' -> out = out' -> err = err' -> says T N' t out' err'.
Proof. intros Ht HN <- <- s HT Hr Hc. destruct (Ht s HT Hr ltac:(lia)) as (s' & n & ?). exists s', n. intuition lia. Qed.

Lemma uprint_says T pieces : Forall piece_ok pieces -> says T (lenZ pieces) (print text pieces) (concat pieces) [].
Proof.
  intros Hok s _ Hr Hc. pose proof (ncalls_range pieces) as Hn.
  destruct (print_exec pieces s Hp Hr Hok ltac:(lia)) as (s' & E & Hs). by exists s', (ncalls pieces).
Qed.
Lemma says_eprint T pieces : Forall piece_ok pieces -> says T (lenZ pieces) (eprint text pieces) [] (concat pieces).
Proof.
  intros Hok s _ Hr Hc. pose proof (ncalls_range pieces) as Hn.
  destruct (eprint_exec pieces s Hp Hr Hok ltac:(lia)) as (s' & E & Hs). by exists s', (ncalls pieces).
Qed.
(** A value read off the state first. *)
Lemma says_read T N (t : prog Z) v k out err :
  (forall s : S, y_table s = T -> k_count (y_k s) + 1 < 2 ^ 64 -> exists s', uexec w t s s' (Returned v) /\ spoke [] [] 1 s s') ->
  0 <= N -> says T N (k v) out err -> says T (1 + N) (x ← t; k x) out err.
Proof.
  intros Ht HN Hk s HT Hr Hc. destruct (Ht s HT ltac:(lia)) as (s1 & E1 & Hs1).
  destruct (Hk s1) as (s2 & n2 & E2 & Hs2 & Hn2);
    [by rewrite (sp_table _ _ _ _ _ Hs1)|by apply Hs1|rewrite (sp_count _ _ _ _ _ Hs1); lia|].
  exists s2, (1 + n2). split; [by eapply uexec_bind|]. split; [|lia].
  exact (spoke_trans _ _ _ _ _ _ _ _ _ Hs1 Hs2).
Qed.

Lemma lit_ok x : (lenZ x <=? 256) && utf8_ok x = true -> piece_ok x.
Proof. intros [Hl%Z.leb_le Hu]%andb_prop. split; [lia|done]. Qed.
Lemma dec_ok n : 0 <= n -> piece_ok (fmt_dec n).
Proof.
  intros Hn. split; [|apply ascii_utf8, digits_ascii; by apply fmt_dec_range].
  enough (forall f m, (length (dec_digits f m) <= f + 1)%nat) as Hd by (specialize (Hd 20%nat n); unfold fmt_dec, lenZ; lia).
  induction f as [|f IH]; intros m; cbn; [lia|]. destruct (bool_decide _); [cbn; lia|]. rewrite length_app. cbn. specialize (IH (m / 10)). lia.
Qed.
Lemma printable_ok x : Forall (fun c => 32 <= c < 127) x -> lenZ x <= 256 -> piece_ok x.
Proof. intros Hx Hl. split; [lia|]. by apply ascii_utf8, printable_ascii. Qed.

Lemma str_join_cons (a : str) ws : str_join 32 (a :: ws) = a ++ concat ((cons 32) <$> ws).
Proof.
  revert a. induction ws as [|b ws IH]; intros a; [by rewrite app_nil_r|].
  change (str_join 32 (a :: b :: ws)) with (a ++ 32 :: str_join 32 (b :: ws)). by rewrite IH.
Qed.

Lemma says_echo_rest T ws : forall i, 0 < i -> Forall piece_ok ws ->
  says T (2 * lenZ ws) (echo_words text i ws) (concat ((cons 32) <$> ws)) [].
Proof.
  induction ws as [|a ws IH]; intros i Hi Hok; [apply says_ret|]. apply Forall_cons in Hok as [Ha Hok].
  eapply says_as; [apply ubind_says; [|apply ubind_says|apply (IH (i + 1)); [lia|done]]| | |].
  3: rewrite bool_decide_eq_true_2 by lia; apply (uprint_says T [[32]]); repeat constructor; by apply lit_ok.
  3: apply (uprint_says T [a]); by constructor.
  all: unfold lenZ; cbn; rewrite ?app_nil_r; done || lia.
Qed.
Lemma says_echo T ws : Forall piece_ok ws -> says T (2 * lenZ ws) (echo_words text 0 ws) (str_join 32 ws) [].
Proof.
  intros Hok. destruct ws as [|a ws]; [apply says_ret|]. apply Forall_cons in Hok as [Ha Hok]. rewrite str_join_cons.
  eapply says_as; [apply ubind_says; [|apply ubind_says|apply (says_echo_rest T ws 1); [lia|done]]| | |].
  3: rewrite bool_decide_eq_false_2 by lia; apply says_ret.
  3: apply (uprint_says T [a]); by constructor.
  all: unfold lenZ; cbn; rewrite ?app_nil_r; done || lia.
Qed.

Lemma says_lines T (ls : list string) : Forall (fun l => piece_ok (bstr l)) ls ->
  says T (2 * lenZ ls) (pfor ls (fun l => println text [bstr l])) (concat ((fun l => bstr l ++ [10]) <$> ls)) [].
Proof.
  induction 1 as [|l ls Hl _ IH]; [apply says_ret|]. cbn [pfor fmap list_fmap concat].
  eapply says_as; [apply ubind_says; [|apply (uprint_says T ([bstr l] ++ [[10]]))|exact IH]| | |].
  2: repeat constructor; [apply Hl|apply Hl|by apply lit_ok..].
  all: unfold lenZ; cbn; rewrite ?app_nil_r; done || lia.
Qed.

(** The numbers the identity calls answer. *)
Definition my_pid (T : ProcessTable) : Z := wrap 32 (current_pid T).
Definition my_id (f : Process -> Z) (T : ProcessTable) : Z :=
  wrap 32 (match table_current T with Some p => f p | None => U64_MAX end).
Lemma wrap_nonneg x : 0 <= wrap 32 x.
Proof. by apply Z.mod_pos_bound. Qed.

Lemma says_pid T : says T 3 (pid ← getpid; println text [fmt_dec pid]) (fmt_dec (my_pid T) ++ [10]) [].
Proof.
  apply (says_read T 2 getpid (my_pid T)); [|lia|].
  - intros s HT Hc. destruct (ident_exec s Hc) as [(s' & E & Hs) _]. exists s'. unfold my_pid. by rewrite <- HT.
  - apply (uprint_says T [fmt_dec (my_pid T); [10]]). repeat (constructor; [first [apply dec_ok, wrap_nonneg|by apply lit_ok]|]). done.
Qed.

Lemma says_whoami T :
  says T 8 (uid ← getuid; euid ← geteuid;
            if bool_decide (uid = euid) then println text [bstr "uid="; fmt_dec uid]
            else println text [bstr "uid="; fmt_dec uid; bstr " (euid="; fmt_dec euid; bstr ")"])
    (if bool_decide (my_id uid T = my_id euid T) then bstr "uid=" ++ fmt_dec (my_id uid T) ++ [10]
     else bstr "uid=" ++ fmt_dec (my_id uid T) ++ bstr " (euid=" ++ fmt_dec (my_id euid T) ++ bstr ")" ++ [10]) [].
Proof.
  apply (says_read T 7 getuid (my_id uid T)); [|lia|apply (says_read T 6 geteuid (my_id euid T)); [|lia|]].
  - intros s HT Hc. destruct (ident_exec s Hc) as [_ [(s' & E & Hs) _]]. exists s'. unfold my_id. by rewrite <- HT.
  - intros s HT Hc. destruct (ident_exec s Hc) as [_ [_ (s' & E & Hs)]]. exists s'. unfold my_id. by rewrite <- HT.
  - case_bool_decide.
    + eapply says_as; [apply (uprint_says T [bstr "uid="; fmt_dec (my_id uid T); [10]])|done|by cbn; rewrite ?app_nil_r|done].
      repeat (constructor; [first [apply dec_ok, wrap_nonneg|by apply lit_ok]|]). done.
    + eapply says_as; [apply (uprint_says T [bstr "uid="; fmt_dec (my_id uid T); bstr " (euid="; fmt_dec (my_id euid T); bstr ")"; [10]])
        |done|by cbn; rewrite ?app_nil_r|done].
      repeat (constructor; [first [apply dec_ok, wrap_nonneg|by apply lit_ok]|]). done.
Qed.

Lemma says_builtin T cmd args out err : Forall piece_ok args -> lenZ args <= 7 ->
  builtin_text (my_pid T) (my_id uid T) (my_id euid T) cmd args = Some (out, err) ->
  says T 24 (dispatch text (cmd :: args)) out err.
Proof.
  intros Ha Hl Hb. assert (0 <= lenZ args) by (unfold lenZ; lia). unfold dispatch. unfold builtin_text in Hb.
  rewrite bool_decide_eq_false_2 by (intros [-> | ->]; discriminate Hb).
  case_bool_decide as E1.
  { simplify_eq. eapply says_as; [apply says_lines|..]; [|done..].
    repeat (constructor; [by apply lit_ok|]). done. }
  case_bool_decide as E2.
  { simplify_eq. eapply (says_as T (2 * lenZ args + 1)); [apply ubind_says; [lia|by apply says_echo|apply (uprint_says T [[10]])]|lia|done|done].
    repeat constructor; by apply lit_ok. }
  case_bool_decide as E3; [simplify_eq; eapply says_as; [apply says_pid|lia|done..]|].
  case_bool_decide as E4; [simplify_eq; eapply says_as; [apply says_whoami|lia|done..]|].
  case_bool_decide as E5.
  { simplify_eq. eapply says_as; [apply (uprint_says T [bstr "/"; [10]])|done..]. repeat constructor; by apply lit_ok. }
  case_bool_decide as E6; [|done]. simplify_eq.
  eapply says_as; [apply (says_eprint T [bstr "cd: non implémenté (pas de sous-dossiers)"; [10]])|done..].
  repeat constructor; by apply lit_ok.
Qed.

Definition sym (T : ProcessTable) : Z := if bool_decide (my_id euid T = 0) then 35 else 36.
Lemma prompt_exec (s : S) : ready s -> k_count (y_k s) + 3 < 2 ^ 64 ->
  exists s', uexec w (prompt text) s s' (Returned tt) /\ spoke [sym (y_table s); 32] [] 3 s s'.
Proof.
  intros Hr Hc. destruct (ident_exec s ltac:(lia)) as [_ [_ (s1 & E1 & Hs1)]].
  destruct (print_exec [[sym (y_table s)]; bstr " "] s1 Hp) as (s2 & E2 & Hs2).
  - by apply Hs1.
  - constructor; [|constructor; [by apply lit_ok|done]]. unfold sym. case_bool_decide; by apply lit_ok.
  - rewrite (sp_count _ _ _ _ _ Hs1). cbn. lia.
  - exists s2. split; [by eapply uexec_bind|]. exact (spoke_trans _ _ _ _ _ _ _ _ _ Hs1 Hs2).
Qed.

(** C11. A turn of the user shell.  When the keys of a line and Enter arrive
    while it reads and the first words of the line are a builtin and its
    arguments, the turn returns, and through the system calls the console
    has got the prompt of the user, the line as it was typed, and what the
    builtin prints: for [echo], the arguments with one space between them.
    No process is touched. *)
Theorem sh_builtin_turn (s : S) line rest cmd args out err :
  ready s -> k_count (y_k s) + 28 < 2 ^ 64 ->
  e_keys (w (k_count (y_k s) + 3)) = (inl <$> line) ++ inl 10 :: rest ->
  Forall (fun c => 32 <= c < 127) line -> lenZ line < 256 ->
  take 8 (str_words ascii_white line) = cmd :: args ->
  builtin_text (my_pid (y_table s)) (my_id uid (y_table s)) (my_id euid (y_table s)) cmd args = Some (out, err) ->
  exists s', uexec w (sh_turn text buf) s s' (Returned tt) /\
    k_console (y_k s') = k_console (y_k s) ++ [sym (y_table s); 32] ++ line ++ [10] ++ out /\
    k_serial (y_k s') = k_serial (y_k s) ++ err /\ y_table s' = y_table s /\ ready s'.
Proof.
  intros Hr Hc Hk Hok Hl Hw Hb. destruct (prompt_exec s Hr ltac:(lia)) as (s1 & E1 & Hs1).
  pose proof (sp_count _ _ _ _ _ Hs1) as Hc1.
  destruct (stdin_line_exec line rest s1 Hp) as (s2 & E2 & Hs2); [by apply Hs1|by rewrite Hc1|done..|lia|].
  pose proof (spoke_trans _ _ _ _ _ _ _ _ _ Hs1 Hs2) as Hs12.
  assert (Hargs : Forall piece_ok args /\ lenZ args <= 7).
  { pose proof (str_words_of _ _ Hok) as Hf. apply (Forall_take _ 8) in Hf. rewrite Hw in Hf. apply Forall_cons in Hf as [_ Hf]. split.
    - eapply Forall_impl; [exact Hf|]. intros x [Hx Hxl]. apply printable_ok; [done|lia].
    - pose proof (f_equal length Hw) as E.
      rewrite length_take in E. cbn [length] in E. unfold lenZ. lia. }
  destruct Hargs as [Hargs Hal].
  destruct (says_builtin (y_table s) cmd args out err Hargs Hal Hb s2) as (s3 & n & E3 & Hs3 & Hn);
    [apply Hs12|by apply Hs12|rewrite (sp_count _ _ _ _ _ Hs12); lia|].
  exists s3. destruct (spoke_trans _ _ _ _ _ _ _ _ _ Hs12 Hs3). split; [|split_and!; try done; [|by auto]].
  - eapply uexec_bind; [exact E1|]. eapply uexec_bind; [exact E2|]. cbv beta iota zeta.
    rewrite str_words_trim, Hw. rewrite bool_decide_eq_false_2; [exact E3|].
    intros Et. rewrite <- (str_words_trim line), Et in Hw. done.
  - rewrite sp_console0. by rewrite <- !app_assoc.
Qed.
End says.
End user.

(** * What the display server draws

    The canvas of displayd as a picture: a drawing function paints a set of
    pixels in one colour.  The desktop, and the cursor along the batches of
    mouse events. *)

Section displayd.
Context {D : Type} `{ArrayQueue InputEventAbi} `{ArrayQueue Z} `{X86Paging} `{UserMemLaws} `{BlockDev D}.
Local Abbreviation S := (sys D).
Context (w : Z -> env (D := D)) (c : canvas).

(** The canvas is the program's own and shows [pic]. *)
Record canvas_ok (s : S) (pic : Z -> Z) : Prop := {
  cv_own : own (umem s) (c_base c) (4 * c_len c);
  cv_pix : forall i, 0 <= i < c_len c -> holds (umem s) (c_base c + 4 * i) (le_bytes 4 (pic i));
}.
Lemma canvas_ok_ext s pic pic' : (forall i, 0 <= i < c_len c -> pic i = pic' i) -> canvas_ok s pic -> canvas_ok s pic'.
Proof. intros He []. split; [done|]. intros i Hi. rewrite <- He by done. auto. Qed.

(** [t] returns and paints the pixels [P] in [rgb]; only memory changes. *)
Definition paints (rgb : Z) (t : prog unit) (P : Z -> bool) : Prop :=
  forall (s : S) pic, canvas_ok s pic ->
  exists k, uexec w t s (set_y_mem k s) (Returned tt) /\ canvas_ok (set_y_mem k s) (fun i => if P i then rgb else pic i).

Lemma paints_put rgb i : 0 <= i < c_len c -> paints rgb (put c i rgb) (fun j => bool_decide (j = i)).
Proof.
  intros Hi s pic []. destruct (own_write (umem s) (c_base c + 4 * i) (le_bytes 4 rgb)) as (k & E & Hh & Ho & Hf).
  { intros x Hx. apply cv_own0. unfold lenZ in Hx. cbn in Hx. lia. }
  exists k. split; [unfold put; rewrite bool_decide_eq_true_2 by lia; by apply uexec_store|].
  split; [intros x Hx; by apply Ho, cv_own0|]. intros j Hj. case_bool_decide; [by subst|].
  apply Hf; [by apply cv_pix0| |unfold lenZ; cbn; lia]. intros x Hx. apply cv_own0. unfold lenZ in Hx. cbn in Hx. lia.
Qed.
Lemma paints_ext rgb t P Q : (forall i, 0 <= i < c_len c -> P i = Q i) -> paints rgb t P -> paints rgb t Q.
Proof.
  intros He Ht s pic Hc. destruct (Ht s pic Hc) as (k & E & Hk). exists k. split; [done|].
  eapply canvas_ok_ext; [|exact Hk]. intros i Hi. cbn. by rewrite He.
Qed.
Lemma set_y_mem_id (s : S) : set_y_mem (umem s) s = s.
Proof. by destruct s as [[[[]]] ?]. Qed.
Lemma paints_none rgb : paints rgb (mret tt) (fun _ => false).
Proof. intros s pic Hc. exists (umem s). rewrite set_y_mem_id. split; [apply uexec_ret|done]. Qed.
Lemma paints_seq rgb t1 t2 P Q : paints rgb t1 P -> paints rgb t2 Q -> paints rgb (_ ← t1; t2) (fun i => Q i || P i).
Proof.
  intros H1' H2' s pic Hc. destruct (H1' s pic Hc) as (k1 & E1 & Hc1). destruct (H2' _ _ Hc1) as (k2 & E2 & Hc2).
  exists k2. split; [by eapply uexec_bind|]. eapply canvas_ok_ext; [|exact Hc2]. intros i _. cbn. by destruct (Q i), (P i).
Qed.
Lemma paints_pfor {A} rgb (l : list A) f P : Forall (fun x => paints rgb (f x) (P x)) l ->
  paints rgb (pfor l f) (fun i => existsb (fun x => P x i) l).
Proof.
  induction 1 as [|x l Hx _ IH]; [apply paints_none|]. eapply paints_ext; [|by apply (paints_seq _ _ _ _ _ Hx IH)].
  intros i _. cbn. apply orb_comm.
Qed.

(** ** Rectangles *)

Context (pitch : Z) (Hpitch : 0 < pitch).

(** The pixel is in columns [x] to [xe] of rows [y] to [ye]. *)
Definition cells (x y xe ye i : Z) : bool :=
  (y <=? i / pitch) && (i / pitch <? ye) && (x <=? i mod pitch) && (i mod pitch <? xe).

Lemma cell_at py px : 0 <= px < pitch -> (py * pitch + px) / pitch = py /\ (py * pitch + px) mod pitch = px.
Proof.
  intros Hx. rewrite Z.div_add_l, Z.div_small by lia. split; [lia|]. by rewrite Z.add_comm, Z.mod_add, Z.mod_small by lia.
Qed.
Lemma existsb_seqZ (f : Z -> bool) a n : existsb f (seqZ a n) = true <-> exists x, a <= x < a + n /\ f x = true.
Proof.
  rewrite existsb_exists. split.
  - intros (x & Hin%list_elem_of_In%elem_of_seqZ & Hf). eauto.
  - intros (x & Hx & Hf). exists x. split; [by apply list_elem_of_In, elem_of_seqZ|done].
Qed.

Lemma paints_cells rgb x y xe ye : 0 <= x -> 0 <= y -> xe <= pitch -> (ye - 1) * pitch + xe <= c_len c ->
  paints rgb (pfor (seqZ y (ye - y)) (fun py => pfor (seqZ x (xe - x)) (fun px => put c (py * pitch + px) rgb))) (cells x y xe ye).
Proof.
  intros Hx Hy Hxe Hl. eapply paints_ext.
  2: { apply (paints_pfor rgb _ _ (fun py i => existsb (fun px => bool_decide (i = py * pitch + px)) (seqZ x (xe - x)))).
       apply Forall_forall. intros py Hpy%elem_of_seqZ. apply (paints_pfor rgb _ _ (fun px i => bool_decide (i = py * pitch + px))).
       apply Forall_forall. intros px Hpx%elem_of_seqZ. apply paints_put. nia. }
  intros i Hi. apply eq_true_iff_eq. rewrite existsb_seqZ. setoid_rewrite existsb_seqZ. unfold cells.
  rewrite !andb_true_iff, !Z.leb_le, !Z.ltb_lt. split.
  - intros (py & Hpy & px & Hpx & ->%bool_decide_eq_true_1). destruct (cell_at py px) as [-> ->]; lia.
  - intros Hc. exists (i / pitch). split; [lia|]. exists (i mod pitch). split; [lia|]. apply bool_decide_eq_true_2.
    pose proof (Z.div_mod i pitch). lia.
Qed.

Context (W H' : Z) (HW : 0 < W <= pitch) (HH : 0 < H') (Hlen : (H' - 1) * pitch + W <= c_len c).
Context (HWs : W <= 2 ^ 30) (HHs : H' <= 2 ^ 30).

Lemma paints_fill rgb : paints rgb (fill c pitch W H' rgb) (cells 0 0 W H').
Proof.
  pose proof (paints_cells rgb 0 0 W H') as Hc. rewrite !Z.sub_0_r in Hc. apply Hc; lia.
Qed.

(** [fill_rect] clips the rectangle to the screen. *)
Lemma paints_rect rgb x y rw rh : 0 <= x < W -> 0 <= y < H' -> 0 <= rw <= 2 ^ 30 -> 0 <= rh <= 2 ^ 30 ->
  paints rgb (fill_rect c pitch x y rw rh W H' rgb) (cells x y (Z.min (x + rw) W) (Z.min (y + rh) H')).
Proof.
  intros Hx Hy Hrw Hrh s pic Hc.
  destruct (paints_cells rgb x y (Z.min (x + rw) W) (Z.min (y + rh) H') ltac:(lia) ltac:(lia) ltac:(lia) ltac:(nia) s pic Hc)
    as (k & E & Hk).
  exists k. split; [|done]. unfold fill_rect, add32. rewrite !bool_decide_eq_true_2 by lia.
  eapply uexec_bind; [apply uexec_ret|]. eapply uexec_bind; [apply uexec_ret|]. exact E.
Qed.

(** ** The label *)

Lemma paints_add32 rgb a b k P : a + b < 2 ^ 32 -> paints rgb (k (a + b)) P -> paints rgb (x ← add32 a b; k x) P.
Proof.
  intros Hab Hk s pic Hc. destruct (Hk s pic Hc) as (m & E & Hm). exists m. split; [|done].
  unfold add32. rewrite bool_decide_eq_true_2 by done. eapply uexec_bind; [apply uexec_ret|exact E].
Qed.

Lemma paints_block fg cx y : 0 <= cx -> cx + 6 <= W -> 0 <= y -> y + 8 <= H' ->
  paints fg (draw_block c pitch cx y fg) (cells cx y (cx + 6) (y + 8)).
Proof.
  intros Hx Hxw Hy Hyh. eapply paints_ext.
  2: { apply (paints_pfor fg _ _ (fun dy i => existsb (fun dx => bool_decide (i = (y + dy) * pitch + (cx + dx))) (seqZ 0 6))).
       apply Forall_forall. intros dy Hdy%elem_of_seqZ. apply paints_add32; [lia|].
       apply (paints_pfor fg _ _ (fun dx i => bool_decide (i = (y + dy) * pitch + (cx + dx)))).
       apply Forall_forall. intros dx Hdx%elem_of_seqZ. apply paints_add32; [lia|]. apply paints_put. nia. }
  intros i Hi. apply eq_true_iff_eq. rewrite existsb_seqZ. setoid_rewrite existsb_seqZ. unfold cells.
  rewrite !andb_true_iff, !Z.leb_le, !Z.ltb_lt. split.
  - intros (dy & Hdy & dx & Hdx & ->%bool_decide_eq_true_1). destruct (cell_at (y + dy) (cx + dx)) as [-> ->]; lia.
  - intros Hc. exists (i / pitch - y). split; [lia|]. exists (i mod pitch - cx). split; [lia|]. apply bool_decide_eq_true_2.
    pose proof (Z.div_mod i pitch). replace (y + (i / pitch - y)) with (i / pitch) by lia. lia.
Qed.

Definition blank (ch : Z) : bool := bool_decide (ch = 32 \/ ch < 0x20).
(** The pixels of the text [t] from column [cx] of row [y]. *)
Fixpoint label (cx y : Z) (t : str) (i : Z) : bool :=
  match t with [] => false | ch :: t => label (cx + 8) y t i || (negb (blank ch) && cells cx y (cx + 6) (y + 8) i) end.

Lemma paints_label fg y t : forall cx, 0 <= cx -> cx + 8 * lenZ t <= W + 2 -> 0 <= y -> y + 8 <= H' ->
  paints fg (draw_label c pitch cx y t fg) (label cx y t).
Proof.
  induction t as [|ch t IH]; intros cx Hx Hw Hy Hh; [apply paints_none|]. unfold lenZ in *. cbn [length] in Hw.
  cbn [draw_label label]. apply paints_seq.
  - unfold blank. case_bool_decide; cbn [negb andb]; [apply paints_none|apply paints_block; lia].
  - apply paints_add32; [lia|]. apply IH; lia.
Qed.

(** ** The cursor *)

(** The new place along one axis. *)
Definition clamp (size v : Z) : Z := Z.max 0 (Z.min v (size - 1)).
Definition on_screen (cur : Z * Z) : Prop := 0 <= cur.1 < W /\ 0 <= cur.2 < H'.
Definition move (cur : Z * Z) (ev : Z * Z * Z) : Z * Z :=
  let '(kind, dx, dy) := ev in
  if bool_decide (kind = KIND_MOUSE_MOVE) then (clamp W (cur.1 + dx), clamp H' (cur.2 + dy)) else cur.
(** Movements that do not overflow the sum. *)
Definition small (ev : Z * Z * Z) : Prop := Z.abs ev.1.2 <= 2 ^ 30 /\ Z.abs ev.2 <= 2 ^ 30.

Lemma move_axis_exec (s : S) cur d size : 0 <= cur < size -> size <= 2 ^ 30 -> Z.abs d <= 2 ^ 30 ->
  uexec w (move_axis cur d size) s s (Returned (clamp size (cur + d))).
Proof.
  intros Hc Hs Hd. unfold move_axis, addi32. rewrite (bool_decide_eq_true_2 (in_i32 (cur + d))) by (unfold in_i32; lia).
  eapply uexec_bind; [apply uexec_ret|].
  assert (Ea : as_i32 size = size).
  { unfold as_i32, wrap. rewrite Z.mod_small by lia. by rewrite bool_decide_eq_false_2 by lia. }
  rewrite Ea. rewrite bool_decide_eq_true_2 by (unfold in_i32; lia). eapply uexec_bind; [apply uexec_ret|].
  rewrite bool_decide_eq_false_2 by lia. replace (size + -1) with (size - 1) by lia. apply uexec_ret.
Qed.
Lemma move_on_screen cur ev : on_screen cur -> on_screen (move cur ev).
Proof. destruct ev as [[kind dx] dy]. unfold on_screen, move, clamp. case_bool_decide; cbn; lia. Qed.

Lemma events_exec (s : S) evs : forall cur, on_screen cur -> Forall small evs ->
  uexec w (handle_events W H' evs cur) s s (Returned (foldl move cur evs)) /\ on_screen (foldl move cur evs).
Proof.
  induction evs as [|[[kind dx] dy] evs IH]; intros cur Hc Hok; [split; [apply uexec_ret|done]|].
  apply Forall_cons in Hok as [[Hdx Hdy] Hok]. cbn [fst snd] in *. destruct Hc as [Hcx Hcy].
  destruct (IH (move cur (kind, dx, dy)) ltac:(by apply move_on_screen) Hok) as [E Ho]. split; [|done].
  cbn [handle_events foldl]. eapply uexec_bind; [|exact E]. unfold move. case_bool_decide; [|apply uexec_ret].
  eapply uexec_bind; [by apply move_axis_exec|]. eapply uexec_bind; [by apply move_axis_exec|]. apply uexec_ret.
Qed.

(** ** Turns *)

Definition block (cur : Z * Z) : Z -> bool :=
  cells cur.1 cur.2 (Z.min (cur.1 + CURSOR_SIZE) W) (Z.min (cur.2 + CURSOR_SIZE) H').
(** The picture and the cursor after a batch of events. *)
Definition spec_batch (st : (Z -> Z) * (Z * Z)) (evs : list (Z * Z * Z)) : (Z -> Z) * (Z * Z) :=
  let '(pic, cur) := st in
  let new := foldl move cur evs in
  (if bool_decide (new = cur) then pic
   else fun i => if block new i then CURSOR_RGB else if block cur i then BG_RGB else pic i, new).
Definition desktop_pic (i : Z) (old : Z) : Z :=
  if label 32 32 (bstr "d/OS  -  displayd v0.1") i then FG_RGB else if cells 0 0 W H' i then BG_RGB else old.

Lemma redraw_exec (s : S) pic cur new : canvas_ok s pic -> on_screen cur -> on_screen new ->
  exists k, uexec w (redraw c pitch W H' cur new) s (set_y_mem k s) (Returned tt) /\
    canvas_ok (set_y_mem k s) (if bool_decide (new = cur) then pic
      else fun i => if block new i then CURSOR_RGB else if block cur i then BG_RGB else pic i).
Proof.
  intros Hc [] []. unfold redraw. destruct (decide (new = cur)) as [->|Hne].
  { rewrite bool_decide_eq_false_2 by tauto. rewrite bool_decide_eq_true_2 by done.
    by destruct (paints_none 0 s pic Hc) as (k & E & Hk); exists k. }
  rewrite bool_decide_eq_true_2 by (destruct new, cur; cbn in *; destruct (decide (z = z1)); [right|left]; congruence).
  rewrite (bool_decide_eq_false_2 (new = cur)) by done.
  assert (Hm : forall z, 0 <= z < 2 ^ 30 -> wrap 32 z = z) by (intros z Hz; apply Z.mod_small; lia). rewrite !Hm by lia.
  destruct (paints_rect BG_RGB cur.1 cur.2 8 8 ltac:(done) ltac:(done) ltac:(lia) ltac:(lia) s pic Hc) as (k1 & E1 & Hc1).
  destruct (paints_rect CURSOR_RGB new.1 new.2 8 8 ltac:(done) ltac:(done) ltac:(lia) ltac:(lia) _ _ Hc1) as (k2 & E2 & Hc2).
  exists k2. split; [by eapply uexec_bind|exact Hc2].
Qed.

Lemma animate_exec (s : S) pic cur evs : canvas_ok s pic -> on_screen cur -> Forall small evs ->
  exists k, uexec w (animate c pitch W H' evs cur) s (set_y_mem k s) (Returned (spec_batch (pic, cur) evs).2) /\
    canvas_ok (set_y_mem k s) (spec_batch (pic, cur) evs).1 /\ on_screen (spec_batch (pic, cur) evs).2.
Proof.
  intros Hc Ho Hok. destruct (events_exec s evs cur Ho Hok) as [E1 Ho1].
  destruct (redraw_exec s pic cur _ Hc Ho Ho1) as (k & E2 & Hk). exists k. split; [|done].
  eapply uexec_bind; [exact E1|]. eapply uexec_bind; [exact E2|apply uexec_ret].
Qed.

(** The turns of the loop without their system calls. *)
Fixpoint animations (batches : list (list (Z * Z * Z))) (cur : Z * Z) : prog (Z * Z) :=
  match batches with [] => mret cur | evs :: batches => new ← animate c pitch W H' evs cur; animations batches new end.

Lemma animations_exec batches : forall (s : S) pic cur, canvas_ok s pic -> on_screen cur -> Forall (Forall small) batches ->
  let st := foldl spec_batch (pic, cur) batches in
  exists k, uexec w (animations batches cur) s (set_y_mem k s) (Returned st.2) /\ canvas_ok (set_y_mem k s) st.1 /\ on_screen st.2.
Proof.
  induction batches as [|evs batches IH]; intros s pic cur Hc Ho Hok st.
  { exists (umem s). rewrite set_y_mem_id. split; [apply uexec_ret|done]. }
  apply Forall_cons in Hok as [Hev Hok]. destruct (animate_exec s pic cur evs Hc Ho Hev) as (k1 & E1 & Hc1 & Ho1).
  destruct (IH _ _ _ Hc1 Ho1 Hok) as (k2 & E2 & Hc2 & Ho2). exists k2. split; [by eapply uexec_bind|].
  unfold st. cbn [foldl]. rewrite <- surjective_pairing in Hc2, Ho2. done.
Qed.

(** C31. What the display server draws.  On a canvas as large as the screen
    the kernel announced, it draws the desktop and then follows any batches
    of mouse events without leaving the slice or overflowing: the cursor
    stays on the screen, at the place the events clamped one by one give,
    and the canvas is the desktop with the last block of the cursor on top
    of the places it has left, which are in the background colour. *)
Theorem displayd_draws (s : S) pic batches :
  canvas_ok s pic -> 206 <= W -> 40 <= H' -> Forall (Forall small) batches ->
  let st := foldl spec_batch (fun i => desktop_pic i (pic i), (W / 2, H' / 2)) batches in
  exists k, uexec w (_ ← desktop c pitch W H'; animations batches (as_i32 (W / 2), as_i32 (H' / 2))) s (set_y_mem k s) (Returned st.2) /\
    canvas_ok (set_y_mem k s) st.1 /\ on_screen st.2.
Proof.
  intros Hc Hw Hh Hok st. destruct (paints_fill BG_RGB s pic Hc) as (k1 & E1 & Hc1).
  assert (El : lenZ (bstr "d/OS  -  displayd v0.1") = 22) by done.
  destruct (paints_label FG_RGB 32 (bstr "d/OS  -  displayd v0.1") 32 ltac:(lia) ltac:(lia) ltac:(lia) ltac:(lia) _ _ Hc1)
    as (k2 & E2 & Hc2).
  assert (Hd : forall z, 0 < z -> 0 <= z / 2 < z) by (intros z Hz; split; [apply Z.div_pos|apply Z.div_lt]; lia).
  assert (Ha : forall z, 0 < z <= 2 ^ 30 -> as_i32 (z / 2) = z / 2).
  { intros z Hz. specialize (Hd z). unfold as_i32, wrap. rewrite Z.mod_small by lia. by rewrite bool_decide_eq_false_2 by lia. }
  destruct (animations_exec batches _ _ (W / 2, H' / 2) Hc2) as (k3 & E3 & Hc3 & Ho3); [split; apply Hd; lia|done|].
  exists k3. split; [|done]. rewrite !Ha by lia. eapply uexec_bind; [by eapply uexec_bind|exact E3].
Qed.
End displayd.

(** * A user shell and a display server at work

    Process 3 of the demonstration runs the shell of UserProgs.v with its
    buffers at 0x10000 and 0x11000, and displayd on a canvas of 206 by 40
    pixels; the claims on user programs are applied to them. *)
From S2P Require Import Ports Ata PagingModel IpcCorrect SyscallCorrect.

(** The flat memory of the demonstrations. *)
#[export] Instance flat_user_laws : UserMemLaws (H := flat_user).
Proof.
  refine {| ubyte k x := Some (km_mem k x); uown _ _ := True |}.
  - intros k a n. cbn. enough (mapM (fun x => Some (km_mem k x)) (seqZ a n) = Some (load_bytes (km_mem k) a (Z.to_nat n))) as -> by done.
    unfold load_bytes, seqZ. apply mapM_Some. apply Forall2_fmap_l, Forall2_fmap_r. apply Forall_Forall2_diag, Forall_forall.
    intros i _. f_equal. f_equal. lia.
  - intros k a l _. eexists. split; [reflexivity|]. split; [done|]. intros x _. cbn. unfold store_bytes.
    case_bool_decide; [|done]. rewrite list_lookup_lookup_total_lt; [done|]. unfold lenZ in *. lia.
Defined.

(** The keys of a line arrive during the fourth call. *)
Definition typed : str := bstr " echo un   deux".
Definition ud_world (n : Z) : env (D := ata ide) :=
  mkEnv 0x33 0x2b 0x9000 (if n =? 3 then (inl <$> typed) ++ [inl 10] else []) [] [] (fun s => s).

Lemma ud_places : places 0x10000 256 0x11000.
Proof. split; unfold USER_SPACE_MAX; lia. Qed.

Lemma sh_builtin_turn_witness :
  exists s', uexec ud_world (sh_turn 0x10000 0x11000) sd_state s' (Returned tt) /\
    k_console (y_k s') = [] ++ [sym (y_table sd_state); 32] ++ typed ++ [10] ++ bstr "un deux" ++ [10] /\
    k_serial (y_k s') = [] ++ [] /\ y_table s' = y_table sd_state /\ ready 0x10000 256 0x11000 s'.
Proof.
  apply (sh_builtin_turn ud_world 0x10000 256 0x11000 ud_places ltac:(lia) sd_state typed [] (bstr "echo") [bstr "un"; bstr "deux"]
           (bstr "un deux" ++ [10]) []).
  - by split.
  - cbn. lia.
  - reflexivity.
  - by_decide.
  - by_decide.
  - vm_compute. reflexivity.
  - vm_compute. reflexivity.
Defined.

Definition ud_canvas : canvas := mkCanvas 0x20000 (206 * 40).
Definition ud_batches : list (list (Z * Z * Z)) := [[(3, 5, -7); (1, 0, 0)]; []; [(3, -500, 100)]].

Lemma displayd_draws_witness :
  let st := foldl (spec_batch 206 206 40) (fun i => desktop_pic 206 206 40 i 0, (103, 20)) ud_batches in
  exists k, uexec ud_world (_ ← desktop ud_canvas 206 206 40;
                            animations ud_canvas 206 206 40 ud_batches (as_i32 (206 / 2), as_i32 (40 / 2)))
      sd_state (set_y_mem k sd_state) (Returned st.2) /\
    canvas_ok ud_canvas (set_y_mem k sd_state) st.1 /\ on_screen 206 40 st.2.
Proof.
  apply (displayd_draws ud_world ud_canvas 206 ltac:(lia) 206 40 ltac:(lia) ltac:(lia) ltac:(cbn; lia) ltac:(lia) ltac:(lia)
           sd_state (fun _ => 0) ud_batches); [|lia|lia|].
  - split; [done|]. intros i Hi j v Hv. change (ubyte (umem sd_state) ?x) with (Some (ipc_mem x)). f_equal.
    cbn in Hi. unfold ipc_mem, store_u64, store_bytes. rewrite !bool_decide_eq_false_2 by (unfold lenZ; cbn; lia).
    do 4 (destruct j as [|j]; [by injection Hv|]). done.
  - repeat constructor; cbn; lia.
Defined.
