(* ===== verification/Apic.v ===== *)
(** * The local APIC and the I/O APICs

    kernel/src/arch/x86_64/apic.rs.  A controller is known by the address of
    its registers; the two [Once] cells are the record [apics]. *)
From S2P Require Import Prelude Phys FrameAllocator FrameRefcount Paging Ports Mmio Acpi.
Local Open Scope Z_scope.

Abbreviation LAPIC_ID := 0x020 (only parsing).
Abbreviation LAPIC_VERSION := 0x030 (only parsing).
Abbreviation LAPIC_TPR := 0x080 (only parsing).
Abbreviation LAPIC_EOI := 0x0B0 (only parsing).
Abbreviation LAPIC_SPURIOUS := 0x0F0 (only parsing).
Abbreviation LAPIC_ESR := 0x280 (only parsing).
Abbreviation LAPIC_LVT_TIMER := 0x320 (only parsing).
Abbreviation LAPIC_LVT_LINT0 := 0x350 (only parsing).
Abbreviation LAPIC_LVT_LINT1 := 0x360 (only parsing).
Abbreviation LAPIC_LVT_ERROR := 0x370 (only parsing).
Abbreviation LVT_MASK := (2 ^ 16) (only parsing).
Abbreviation SVR_ENABLE := (2 ^ 8) (only parsing).
Abbreviation SPURIOUS_VECTOR := 0xFF (only parsing).
Abbreviation IOAPIC_REG_ID := 0x00 (only parsing).
Abbreviation IOAPIC_REG_VER := 0x01 (only parsing).
Abbreviation IOAPIC_REDTBL_BASE := 0x10 (only parsing).

Record IoApicDev := mkIoApicDev { ia_info : IoApic; ia_base : Z }.
Record apics := mkApics { LAPIC : option Z; IOAPICS : option (list IoApicDev) }.

(** The low word of a redirection entry. *)
Definition redirection_low (vector : Z) (masked : bool) (flags : Z) : Z :=
  let polarity := Z.land (Z.shiftr flags 0) 3 in
  let trigger := Z.land (Z.shiftr flags 2) 3 in
  let low := vector in
  let low := if bool_decide (polarity = 3) then Z.lor low (2 ^ 13) else low in
  let low := if bool_decide (trigger = 3) then Z.lor low (2 ^ 15) else low in
  if masked then Z.lor low (2 ^ 16) else low.

Section apic.
Context {D : Type} `{Ports D} `{X86Paging} `{Mmio D}.
Local Abbreviation V := (M (machine (D := D)) string).

(** ** The local APIC at [base] *)

Definition lapic_read (base off : Z) : V Z := mmio_read 4 (base + 4 * (off / 4)).
Definition lapic_write (base off val : Z) : V unit := mmio_write 4 (base + 4 * (off / 4)) val.
Definition lapic_id (base : Z) : V Z := v ← lapic_read base LAPIC_ID; mok (Z.shiftr v 24).
Definition lapic_version (base : Z) : V Z := v ← lapic_read base LAPIC_VERSION; mok (Z.land v 0xFF).
Definition eoi (base : Z) : V unit := lapic_write base LAPIC_EOI 0.
Definition enable (base : Z) : V unit :=
  _ ← lapic_write base LAPIC_TPR 0;
  _ ← lapic_write base LAPIC_LVT_TIMER LVT_MASK;
  _ ← lapic_write base LAPIC_LVT_LINT0 LVT_MASK;
  _ ← lapic_write base LAPIC_LVT_LINT1 LVT_MASK;
  _ ← lapic_write base LAPIC_LVT_ERROR LVT_MASK;
  _ ← lapic_write base LAPIC_SPURIOUS (Z.lor SVR_ENABLE SPURIOUS_VECTOR);
  _ ← lapic_write base LAPIC_ESR 0;
  lapic_write base LAPIC_ESR 0.
Definition eoi_if_ready (a : apics) : V unit :=
  match LAPIC a with Some base => eoi base | None => mok tt end.

(** ** An I/O APIC *)

Definition ioapic_read (d : IoApicDev) (reg : Z) : V Z :=
  _ ← mmio_write 4 (ia_base d) reg; mmio_read 4 (ia_base d + 16).
Definition ioapic_write (d : IoApicDev) (reg val : Z) : V unit :=
  _ ← mmio_write 4 (ia_base d) reg; mmio_write 4 (ia_base d + 16) val.
Definition ioapic_id (d : IoApicDev) : V Z := v ← ioapic_read d IOAPIC_REG_ID; mok (Z.land (Z.shiftr v 24) 0xF).
Definition max_redirection (d : IoApicDev) : V Z :=
  v ← ioapic_read d IOAPIC_REG_VER; mok (Z.land (Z.shiftr v 16) 0xFF + 1).

Definition set_redirection (d : IoApicDev) (gsi vector lapic_id : Z) (masked : bool) (flags : Z) : V unit :=
  if gsi <? gsi_base (ia_info d) then mok tt else
  let idx := gsi - gsi_base (ia_info d) in
  max ← max_redirection d;
  if max <=? idx then mok tt else
  let low := redirection_low vector masked flags in
  let high := Z.shiftl lapic_id 24 in
  _ ← ioapic_write d (IOAPIC_REDTBL_BASE + idx * 2 + 1) high;
  ioapic_write d (IOAPIC_REDTBL_BASE + idx * 2) low.

Definition mask_all (d : IoApicDev) : V unit :=
  n ← max_redirection d;
  mfor (seqZ 0 n) (fun i =>
    _ ← ioapic_write d (IOAPIC_REDTBL_BASE + i * 2) LVT_MASK;
    ioapic_write d (IOAPIC_REDTBL_BASE + i * 2 + 1) 0).

(** ** Initialisation *)

Definition disable_pic : V unit :=
  _ ← on_ports (out8 0xA1 0xFF); on_ports (out8 0x21 0xFF).

(** Each I/O APIC that can be mapped, all its entries masked. *)
Fixpoint map_ioapics (l : list IoApic) : V (list IoApicDev) :=
  match l with
  | [] => mok []
  | i :: l =>
      r ← try_ (on_kmem (map_mmio (io_address i) 0x20));
      match (r : result Z string) with
      | Err _ => map_ioapics l
      | Ok virt =>
          let dev := mkIoApicDev i virt in
          _ ← max_redirection dev;
          _ ← mask_all dev;
          devs ← map_ioapics l;
          mok (dev :: devs)
      end
  end.

Definition apic_init (info : AcpiInfo) (a : apics) : V apics :=
  if lapic_phys_addr info =? 0 then mok a else
  r ← try_ (on_kmem (map_mmio (lapic_phys_addr info) 0x400));
  match (r : result Z string) with
  | Err _ => mok a
  | Ok lapic_virt =>
      _ ← enable lapic_virt;
      _ ← lapic_id lapic_virt;
      _ ← lapic_version lapic_virt;
      devs ← map_ioapics (io_apics info);
      mok (mkApics (Some (default lapic_virt (LAPIC a))) (Some (default devs (IOAPICS a))))
  end.

End apic.

(** * What the APIC driver programs

    A local APIC and an I/O APIC as their data sheets describe them: an index
    register and a data window, behind which is a table of two words per
    interrupt.  After the initialisation and any routes, the table has the
    last route of each interrupt and masks the others. *)

Record chips := mkChips {
  cp_lapic : Z;       (** where the registers of the local APIC are *)
  cp_regs : Z -> Z;   (** by offset *)
  cp_io : Z;          (** where the I/O APIC is *)
  cp_sel : Z;
  cp_max : Z;         (** the number of its entries *)
  cp_tbl : Z -> Z;    (** the words of the redirection table *)
}.
Definition upd (f : Z -> Z) (i v : Z) : Z -> Z := fun j => if bool_decide (j = i) then v else f j.
Definition set_sel (v : Z) (c : chips) : chips := mkChips (cp_lapic c) (cp_regs c) (cp_io c) v (cp_max c) (cp_tbl c).
Definition set_tbl (f : Z -> Z) (c : chips) : chips := mkChips (cp_lapic c) (cp_regs c) (cp_io c) (cp_sel c) (cp_max c) f.
Definition set_lregs (f : Z -> Z) (c : chips) : chips := mkChips (cp_lapic c) f (cp_io c) (cp_sel c) (cp_max c) (cp_tbl c).

#[export] Instance chips_mmio : Mmio chips := {|
  mm_read _ a cm :=
    let c := cm.1 in
    (cm, if a =? cp_io c + 16 then
           if cp_sel c =? IOAPIC_REG_VER then Z.shiftl (cp_max c - 1) 16 + 0x11
           else if IOAPIC_REDTBL_BASE <=? cp_sel c then cp_tbl c (cp_sel c - 16) else 0
         else cp_regs c (a - cp_lapic c));
  mm_write _ a v cm :=
    let c := cm.1 in
    (if a =? cp_io c then set_sel v c
     else if a =? cp_io c + 16 then
       if IOAPIC_REDTBL_BASE <=? cp_sel c then set_tbl (upd (cp_tbl c) (cp_sel c - 16) v) c else c
     else set_lregs (upd (cp_regs c) (a - cp_lapic c) v) c, cm.2);
  mm_spin cm := cm;
|}.

(** The local APIC's page and the I/O APIC's are apart. *)
Record chips_ok (c : chips) : Prop := {
  co_max : 1 <= cp_max c <= 256;
  co_apart : cp_io c + 16 < cp_lapic c \/ cp_lapic c + 0x400 <= cp_io c;
}.

Section apic.
Context (km : kmem) (m : phys).

(** ** The I/O APIC *)

Section ioapic.
Context (d : IoApicDev).

Lemma ioapic_write_st c reg v : ia_base d = cp_io c -> 16 <= reg ->
  ioapic_write d reg v (st km c m) = Ret (st km (set_sel reg (set_tbl (upd (cp_tbl c) (reg - 16) v) c)) m, Ok tt).
Proof.
  intros Hb Hr. unfold ioapic_write. rewrite (mbindM_Ret _ _ _ _ _ (mmio_write_st _ _ _ _ _ _)), mmio_write_st.
  cbn -[Z.add Z.sub]. rewrite Hb, Z.eqb_refl. cbn -[Z.add Z.sub]. rewrite (proj2 (Z.eqb_neq _ _)) by lia. rewrite Z.eqb_refl.
  by rewrite (proj2 (Z.leb_le _ _) Hr).
Qed.
Lemma max_redirection_st c : ia_base d = cp_io c -> 1 <= cp_max c <= 256 ->
  max_redirection d (st km c m) = Ret (st km (set_sel 1 c) m, Ok (cp_max c)).
Proof.
  intros Hb Hm. unfold max_redirection, ioapic_read.
  rewrite (mbindM_Ret _ _ _ (st km (set_sel 1 c) m) (Z.shiftl (cp_max c - 1) 16 + 0x11)).
  - unfold mok. do 3 f_equal. rewrite Z.shiftl_mul_pow2, Z.shiftr_div_pow2 by lia.
    rewrite Z.div_add_l by lia. change (0x11 / 2 ^ 16) with 0. change 0xFF with (Z.ones 8). rewrite Z.land_ones by lia.
    rewrite Z.mod_small; lia.
  - rewrite (mbindM_Ret _ _ _ _ _ (mmio_write_st _ _ _ _ _ _)), mmio_read_st. cbn -[Z.add Z.sub]. rewrite Hb, Z.eqb_refl.
    cbn -[Z.add Z.sub]. by rewrite Z.eqb_refl.
Qed.

(** The two words of entry [i]. *)
Definition words (c : chips) (i : Z) : Z * Z := (cp_tbl c (2 * i), cp_tbl c (2 * i + 1)).
(** All but the table and the index register. *)
Definition same_rest (c c' : chips) : Prop :=
  cp_lapic c' = cp_lapic c /\ cp_regs c' = cp_regs c /\ cp_io c' = cp_io c /\ cp_max c' = cp_max c.
Lemma same_rest_trans c1 c2 c3 : same_rest c1 c2 -> same_rest c2 c3 -> same_rest c1 c3.
Proof. unfold same_rest. intuition congruence. Qed.

(** Writing both words of an entry. *)
Lemma write_entry_st c i v1 v2 r1 r2 : ia_base d = cp_io c -> 0 <= i ->
  (r1 = 16 + i * 2 + 1 /\ r2 = 16 + i * 2) \/ (r1 = 16 + i * 2 /\ r2 = 16 + i * 2 + 1) ->
  exists c', (_ ← ioapic_write d r1 v1; ioapic_write d r2 v2) (st km c m) = Ret (st km c' m, Ok tt) /\ same_rest c c' /\
    (forall j, words c' j = if bool_decide (j = i) then if bool_decide (r1 < r2) then (v1, v2) else (v2, v1) else words c j).
Proof.
  intros Hb Hi Hr. eexists. split; [|split].
  - rewrite (mbindM_Ret _ _ _ _ _ (ioapic_write_st c r1 v1 Hb ltac:(lia))). by rewrite ioapic_write_st by (done || lia).
  - done.
  - intros j. unfold words. cbn [cp_tbl set_sel set_tbl]. unfold upd.
    destruct (decide (j = i)) as [->|Hj].
    + destruct Hr as [[-> ->]|[-> ->]]; dec.
    + rewrite (bool_decide_eq_false_2 (j = i)) by done. destruct Hr as [[-> ->]|[-> ->]]; by rewrite !bool_decide_eq_false_2 by lia.
Qed.

Lemma mask_loop_st n : forall a c, ia_base d = cp_io c -> 0 <= a ->
  exists c', mfor (seqZ a (Z.of_nat n)) (fun i => _ ← ioapic_write d (16 + i * 2) LVT_MASK; ioapic_write d (16 + i * 2 + 1) 0)
      (st km c m) = Ret (st km c' m, Ok tt) /\ same_rest c c' /\
    (forall j, words c' j = if bool_decide (a <= j < a + Z.of_nat n) then (LVT_MASK, 0) else words c j).
Proof.
  induction n as [|n IH]; intros a c Hb Ha.
  { exists c. split; [done|]. split; [done|]. intros j. by rewrite bool_decide_eq_false_2 by lia. }
  rewrite seqZ_cons by lia. replace (Z.pred (Z.of_nat (S n))) with (Z.of_nat n) by lia.
  destruct (write_entry_st c a LVT_MASK 0 (16 + a * 2) (16 + a * 2 + 1) Hb Ha ltac:(by right)) as (c1 & E1 & Hs1 & Hw1).
  destruct (IH (Z.succ a) c1) as (c2 & E2 & Hs2 & Hw2); [destruct Hs1 as (_ & _ & E & _); congruence|lia|].
  exists c2. cbn [mfor]. unfold mbindM at 1. rewrite E1. split; [exact E2|]. split; [by eapply same_rest_trans|].
  intros j. rewrite Hw2, Hw1. rewrite (bool_decide_eq_true_2 (16 + a * 2 < 16 + a * 2 + 1)) by lia. dec.
Qed.

Lemma mask_all_st c : ia_base d = cp_io c -> 1 <= cp_max c <= 256 ->
  exists c', mask_all d (st km c m) = Ret (st km c' m, Ok tt) /\ same_rest c c' /\
    (forall j, 0 <= j < cp_max c -> words c' j = (LVT_MASK, 0)).
Proof.
  intros Hb Hm. unfold mask_all. rewrite (mbindM_Ret _ _ _ _ _ (max_redirection_st c Hb Hm)).
  destruct (mask_loop_st (Z.to_nat (cp_max c)) 0 (set_sel 1 c)) as (c' & E & Hs & Hw); [done|lia|]. rewrite Z2Nat.id in * by lia.
  exists c'. split; [exact E|]. split; [done|]. intros j Hj. by rewrite Hw, bool_decide_eq_true_2.
Qed.

(** ** Routes *)

Record route := mkRoute { r_gsi : Z; r_vector : Z; r_lapic : Z; r_masked : bool; r_flags : Z }.
Definition route_ok (r : route) : Prop := 0 <= r_vector r < 256 /\ 0 <= r_lapic r < 256.
Definition set_route (r : route) : M (machine (D := chips)) string unit :=
  set_redirection d (r_gsi r) (r_vector r) (r_lapic r) (r_masked r) (r_flags r).
Definition entry_of (r : route) : Z * Z :=
  (redirection_low (r_vector r) (r_masked r) (r_flags r), Z.shiftl (r_lapic r) 24).
(** The entry after the routes: the last one for its interrupt. *)
Definition routed (base max : Z) (rs : list route) (t : Z -> Z * Z) (i : Z) : Z * Z :=
  foldl (fun e r => if bool_decide (r_gsi r = base + i /\ 0 <= i < max) then entry_of r else e) (t i) rs.

Lemma set_route_st c r : ia_base d = cp_io c -> 1 <= cp_max c <= 256 ->
  exists c', set_route r (st km c m) = Ret (st km c' m, Ok tt) /\ same_rest c c' /\
    (forall i, words c' i = routed (gsi_base (ia_info d)) (cp_max c) [r] (words c) i).
Proof.
  intros Hb Hm. unfold set_route, set_redirection, routed. cbn [foldl].
  destruct (Z.ltb_spec (r_gsi r) (gsi_base (ia_info d))).
  { exists c. split; [done|]. split; [done|]. intros i. by rewrite bool_decide_eq_false_2 by lia. }
  rewrite (mbindM_Ret _ _ _ _ _ (max_redirection_st c Hb Hm)).
  destruct (Z.leb_spec (cp_max c) (r_gsi r - gsi_base (ia_info d))).
  { exists (set_sel 1 c). split; [done|]. split; [done|]. intros i. by rewrite bool_decide_eq_false_2 by lia. }
  set (idx := r_gsi r - gsi_base (ia_info d)) in *.
  destruct (write_entry_st (set_sel 1 c) idx (Z.shiftl (r_lapic r) 24) (redirection_low (r_vector r) (r_masked r) (r_flags r))
    (16 + idx * 2 + 1) (16 + idx * 2) Hb ltac:(lia) ltac:(by left)) as (c' & E & Hs & Hw).
  exists c'. split; [exact E|]. split; [done|]. intros i. rewrite Hw. rewrite (bool_decide_eq_false_2 (_ < _)) by lia.
  unfold idx in *. dec; f_equal; lia.
Qed.

Lemma routes_st rs : forall c, ia_base d = cp_io c -> 1 <= cp_max c <= 256 ->
  exists c', mfor rs set_route (st km c m) = Ret (st km c' m, Ok tt) /\ same_rest c c' /\
    (forall i, words c' i = routed (gsi_base (ia_info d)) (cp_max c) rs (words c) i).
Proof.
  induction rs as [|r rs IH]; intros c Hb Hm; [by exists c|].
  destruct (set_route_st c r Hb Hm) as (c1 & E1 & Hs1 & Hw1). pose proof Hs1 as (_ & _ & Ei & Em).
  destruct (IH c1 ltac:(congruence) ltac:(congruence)) as (c2 & E2 & Hs2 & Hw2).
  exists c2. cbn [mfor]. unfold mbindM at 1. rewrite E1. split; [done|]. split; [by eapply same_rest_trans|].
  intros i. rewrite Hw2. unfold routed at 1. rewrite Hw1, Em. done.
Qed.

(** ** The local APIC *)

Definition after_enable (f : Z -> Z) : Z -> Z :=
  upd (upd (upd (upd (upd (upd (upd (upd f 0x80 0) 0x320 LVT_MASK) 0x350 LVT_MASK) 0x360 LVT_MASK) 0x370 LVT_MASK)
    0xF0 0x1FF) 0x280 0) 0x280 0.

Lemma lapic_write_st base c off v : base = cp_lapic c -> chips_ok c -> 0 <= off < 0x400 -> off mod 4 = 0 ->
  lapic_write base off v (st km c m) = Ret (st km (set_lregs (upd (cp_regs c) off v) c) m, Ok tt).
Proof.
  intros -> [] Ho H4. unfold lapic_write. rewrite mmio_write_st. cbn -[Z.add Z.sub Z.mul Z.div].
  replace (4 * (off / 4)) with off by (pose proof (Z.div_mod off 4); lia).
  rewrite !(proj2 (Z.eqb_neq _ _)) by lia. by replace (cp_lapic c + off - cp_lapic c) with off by lia.
Qed.
Lemma enable_st c : chips_ok c ->
  enable (cp_lapic c) (st km c m) = Ret (st km (set_lregs (after_enable (cp_regs c)) c) m, Ok tt).
Proof.
  intros Hc. assert (Hs : forall f, chips_ok (set_lregs f c)) by (intros f; by destruct Hc; split).
  unfold enable. do 7 (erewrite mbindM_Ret by (apply lapic_write_st; [done|done || apply Hs|lia|done])).
  by rewrite lapic_write_st by (done || apply Hs || lia).
Qed.
End ioapic.

(** What an entry says: the vector, the two modes, the mask, and the local
    APIC it goes to; no other bit is set. *)
Lemma low_fields vector masked flags : 0 <= vector < 256 ->
  let low := redirection_low vector masked flags in
  Z.land low 0xFF = vector /\ Z.testbit low 13 = bool_decide (Z.land flags 3 = 3) /\
  Z.testbit low 15 = bool_decide (Z.land (Z.shiftr flags 2) 3 = 3) /\ Z.testbit low 16 = masked /\
  Z.land low (unot 32 0x1A0FF) = 0.
Proof.
  intros Hv. unfold redirection_low. rewrite Z.shiftr_0_r.
  set (p := bool_decide (Z.land flags 3 = 3)). set (t := bool_decide (Z.land (Z.shiftr flags 2) 3 = 3)).
  assert (Ht : forallb (fun v => forallb (fun p : bool => forallb (fun t : bool => forallb (fun k : bool =>
    let low := if p then Z.lor v (2 ^ 13) else v in let low := if t then Z.lor low (2 ^ 15) else low in
    let low := if k then Z.lor low (2 ^ 16) else low in
    (Z.land low 0xFF =? v) && eqb (Z.testbit low 13) p && eqb (Z.testbit low 15) t && eqb (Z.testbit low 16) k &&
    (Z.land low (unot 32 0x1A0FF) =? 0)) [true; false]) [true; false]) [true; false]) (seqZ 0 256) = true) by (vm_compute; reflexivity).
  rewrite forallb_forall in Ht. specialize (Ht vector (proj1 (list_elem_of_In _ _) (proj2 (elem_of_seqZ _ _ _) Hv))).
  rewrite forallb_forall in Ht. specialize (Ht p ltac:(destruct p; cbn; tauto)).
  rewrite forallb_forall in Ht. specialize (Ht t ltac:(destruct t; cbn; tauto)).
  rewrite forallb_forall in Ht. specialize (Ht masked ltac:(destruct masked; cbn; tauto)). cbv zeta in Ht.
  rewrite !andb_true_iff, !eqb_true_iff, !Z.eqb_eq in Ht. cbv zeta. tauto.
Qed.

(** The entry of a route as the chip reads it. *)
Definition reads_as (r : route) (e : Z * Z) : Prop :=
  Z.land e.1 0xFF = r_vector r /\ Z.testbit e.1 13 = bool_decide (Z.land (r_flags r) 3 = 3) /\
  Z.testbit e.1 15 = bool_decide (Z.land (Z.shiftr (r_flags r) 2) 3 = 3) /\ Z.testbit e.1 16 = r_masked r /\
  Z.land e.1 (unot 32 0x1A0FF) = 0 /\ Z.shiftr e.2 24 = r_lapic r.

(** C32. The interrupt routing.  After the local APIC is enabled, the I/O
    APIC masked and any routes programmed, the redirection table has for
    each interrupt its last route, and masks the interrupts without one;
    routes outside the chip change nothing.  An entry reads as its route:
    vector, polarity, trigger, mask and destination, in fixed delivery
    mode.  The local vectors are masked and the spurious vector is set. *)
Theorem apic_routes c d rs : chips_ok c -> ia_base d = cp_io c -> Forall route_ok rs ->
  exists c', (_ ← enable (cp_lapic c); _ ← mask_all d; mfor rs (set_route d)) (st km c m) = Ret (st km c' m, Ok tt) /\
    (forall i, 0 <= i < cp_max c -> words c' i = routed (gsi_base (ia_info d)) (cp_max c) rs (fun _ => (LVT_MASK, 0)) i) /\
    Forall (fun r => reads_as r (entry_of r)) rs /\
    (forall o, o ∈ [LAPIC_LVT_TIMER; LAPIC_LVT_LINT0; LAPIC_LVT_LINT1; LAPIC_LVT_ERROR] -> Z.testbit (cp_regs c' o) 16 = true) /\
    cp_regs c' LAPIC_SPURIOUS = Z.lor SVR_ENABLE SPURIOUS_VECTOR.
Proof.
  intros Hc Hb Hrs. set (c0 := set_lregs (after_enable (cp_regs c)) c).
  destruct (mask_all_st d c0 Hb ltac:(apply Hc)) as (c1 & E1 & Hs1 & Hw1). pose proof Hs1 as (_ & Er & Ei & Em).
  destruct (routes_st d rs c1) as (c2 & E2 & (_ & Er2 & _) & Hw2); [by rewrite Ei|rewrite Em; apply Hc|].
  exists c2. split; [|split; [|split; [|split]]].
  - rewrite (mbindM_Ret _ _ _ _ _ (enable_st c Hc)). by rewrite (mbindM_Ret _ _ _ _ _ E1).
  - intros i Hi. rewrite Hw2, Em. unfold routed. by rewrite Hw1.
  - eapply Forall_impl; [exact Hrs|]. intros r [Hv Hl]. destruct (low_fields _ (r_masked r) (r_flags r) Hv) as (?&?&?&?&?).
    split_and!; try done. cbn [entry_of snd]. rewrite Z.shiftr_shiftl_l by lia. apply Z.shiftl_0_r.
  - intros o Ho. rewrite Er2, Er. repeat (apply elem_of_cons in Ho as [-> | Ho]; [done|]). by apply not_elem_of_nil in Ho.
  - by rewrite Er2, Er.
Qed.
End apic.

Lemma apic_routes_witness :
  let c := mkChips 0xfee00000 (fun _ => 0) 0xfec00000 0 24 (fun _ => 7) in
  let d := mkIoApicDev (mkIoApic 0 0xfec00000 0) 0xfec00000 in
  let rs := [mkRoute 1 0x21 0 false 0; mkRoute 9 0x29 1 false 15; mkRoute 30 0x30 0 false 0; mkRoute 1 0x22 0 true 0] in
  let km := mkKmem None (fun _ => 0) rc_new 0x1000 None None in
  exists c', (_ ← enable (cp_lapic c); _ ← mask_all d; mfor rs (set_route d)) (st km c (fun _ => 0)) = Ret (st km c' (fun _ => 0), Ok tt) /\
    (forall i, 0 <= i < cp_max c -> words c' i = routed (gsi_base (ia_info d)) (cp_max c) rs (fun _ => (LVT_MASK, 0)) i) /\
    Forall (fun r => reads_as r (entry_of r)) rs /\
    (forall o, o ∈ [LAPIC_LVT_TIMER; LAPIC_LVT_LINT0; LAPIC_LVT_LINT1; LAPIC_LVT_ERROR] -> Z.testbit (cp_regs c' o) 16 = true) /\
    cp_regs c' LAPIC_SPURIOUS = Z.lor SVR_ENABLE SPURIOUS_VECTOR.
Proof.
  intros c d rs km. apply (apic_routes km (fun _ => 0) c d rs).
  - split; cbn; lia.
  - reflexivity.
  - unfold rs. repeat (apply Forall_cons_2; [split; cbn; lia|]). apply Forall_nil_2.
Defined.
