(* ===== verification/Nvme.v ===== *)
(** * The NVMe controller

    kernel/src/drivers/nvme.rs: the reset, the admin queue and the IDENTIFY
    command, over the memory-mapped registers of Mmio.v.  The boxes of the
    two queues and of the answer are ranges of RAM; between two looks at the
    completion queue the controller can work. *)
From S2P Require Import Prelude Str Phys FrameAllocator FrameRefcount Paging Ports Pci Mmio.
Local Open Scope Z_scope.

Abbreviation REG_CAP := 0x00 (only parsing).
Abbreviation REG_VS := 0x08 (only parsing).
Abbreviation REG_CC := 0x14 (only parsing).
Abbreviation REG_CSTS := 0x1C (only parsing).
Abbreviation REG_AQA := 0x24 (only parsing).
Abbreviation REG_ASQ := 0x28 (only parsing).
Abbreviation REG_ACQ := 0x30 (only parsing).
Abbreviation REG_SQ0TDBL := 0x1000 (only parsing).
Abbreviation CC_ENABLE := 1 (only parsing).
Abbreviation CSTS_RDY := 1 (only parsing).
Abbreviation ADMIN_QUEUE_DEPTH := 32 (only parsing).
Abbreviation ADMIN_OP_IDENTIFY := 0x06 (only parsing).
Abbreviation IDENT_CNS_CONTROLLER := 0x01 (only parsing).

(** [asq] and [acq] are where the boxes are. *)
Record Nvme := mkNvme {
  nv_addr : PciAddr;
  mmio_base : Z;
  asq : Z;
  acq : Z;
  sq_tail : Z;
  cq_head : Z;
  cq_phase : Z;
  nv_vendor_id : Z;
  nv_model : str;
  nv_serial : str;
}.

Definition trim_ascii_end (b : list Z) : str := trim_end_matches 0 (trim_end_matches 32 (default [] (from_utf8 b))).

(** The submission entry of IDENTIFY, with the answer at [buf]. *)
Definition identify_sqe (buf : Z) : list Z :=
  [ADMIN_OP_IDENTIFY; 0; 1; 0] ++ replicate 20 0 ++ le_bytes 8 buf ++ replicate 8 0 ++ le_bytes 4 IDENT_CNS_CONTROLLER ++ replicate 20 0.

Section nvme.
Context {D : Type} `{Ports D} `{X86Paging} `{Mmio D}.
Local Abbreviation V := (M (machine (D := D)) string).

Definition mmio_read32 (n : Nvme) (off : Z) : V Z := mmio_read 4 (mmio_base n + off).
Definition mmio_read64 (n : Nvme) (off : Z) : V Z := mmio_read 8 (mmio_base n + off).
Definition mmio_write32 (n : Nvme) (off val : Z) : V unit := mmio_write 4 (mmio_base n + off) val.
Definition mmio_write64 (n : Nvme) (off val : Z) : V unit := mmio_write 8 (mmio_base n + off) val.

(** Waits for [RDY] to be [rdy], [spins] times after the first look. *)
Fixpoint wait_rdy (spins : nat) (n : Nvme) (rdy : bool) (e : string) : V unit :=
  csts ← mmio_read32 n REG_CSTS;
  if bool_decide (Z.land csts CSTS_RDY <> 0) then
    if rdy then mok tt else match spins with O => mfail e | S spins => wait_rdy spins n rdy e end
  else
    if rdy then match spins with O => mfail e | S spins => wait_rdy spins n rdy e end else mok tt.

Definition nvme_init (n : Nvme) : V unit :=
  cc ← mmio_read32 n REG_CC;
  _ ← mmio_write32 n REG_CC (Z.land cc (unot 32 CC_ENABLE));
  _ ← wait_rdy (N.to_nat 1000000) n false "nvme: timeout disable"%string;
  let aqa := Z.lor (Z.shiftl (ADMIN_QUEUE_DEPTH - 1) 16) (ADMIN_QUEUE_DEPTH - 1) in
  _ ← mmio_write32 n REG_AQA aqa;
  _ ← mmio_write64 n REG_ASQ (asq n);
  _ ← mmio_write64 n REG_ACQ (acq n);
  let cc_new := Z.lor (Z.lor (Z.shiftl 6 20) (Z.shiftl 4 16)) CC_ENABLE in
  _ ← mmio_write32 n REG_CC cc_new;
  wait_rdy (N.to_nat 5000000) n true "nvme: timeout enable"%string.

(** The poll of the completion entry: its status when its phase is [ph]. *)
Fixpoint wait_cqe (spins : nat) (at_ ph : Z) : V Z :=
  status ← peek 2 (at_ + 14);
  if Z.land status 1 =? ph then mok (Z.shiftr status 1) else
  match spins with
  | O => mfail "nvme: timeout identify"%string
  | S spins => _ ← spin_loop; wait_cqe spins at_ ph
  end.

Definition identify_controller (buf : Z) (n : Nvme) : V Nvme :=
  _ ← poke buf (replicate 4096 0);
  _ ← poke (asq n + 64 * sq_tail n) (identify_sqe buf);
  let tail := (sq_tail n + 1) mod ADMIN_QUEUE_DEPTH in
  _ ← mmio_write32 n REG_SQ0TDBL tail;
  sc ← wait_cqe (N.to_nat 50000000) (acq n + 16 * cq_head n) (cq_phase n);
  let head := (cq_head n + 1) mod ADMIN_QUEUE_DEPTH in
  let phase := if head =? 0 then Z.lxor (cq_phase n) 1 else cq_phase n in
  if negb (sc =? 0) then mfail "nvme: identify failed (non-zero SC)"%string else
  s ← mget;
  let b := load_bytes (ram s) buf 4096 in
  mok (mkNvme (nv_addr n) (mmio_base n) (asq n) (acq n) tail head phase
         (of_le (take 2 b)) (trim_ascii_end (take 40 (drop 24 b))) (trim_ascii_end (take 20 (drop 4 b)))).

(** The two queues and the buffer are at [asq_at], [acq_at] and [buf]. *)
Definition probe_and_init (devs : option (list PciDevice)) (asq_at acq_at buf : Z) (once : option Nvme) : V (option Nvme) :=
  devs ← ok_or devs "nvme: pci non init"%string;
  dev ← ok_or (snd <$> list_find (fun d => class_code d = 1 /\ subclass d = 8) devs) "nvme: pas de controller trouvé"%string;
  bar0 ← mlift (idx (bars dev) 0);
  if bar0 =? 0 then mfail "nvme: BAR0 vide"%string else
  let base := Z.land bar0 (unot 64 0xF) in
  _ ← on_kmem (map_mmio base 0x2000);
  _ ← on_ports (enable_device_io_mmio_bus_master (pd_addr dev));
  _ ← poke asq_at (replicate (64 * 32) 0);
  _ ← poke acq_at (replicate (16 * 32) 0);
  let n := mkNvme (pd_addr dev) base asq_at acq_at 0 0 1 0 [] [] in
  _ ← mmio_read64 n REG_CAP;
  _ ← mmio_read32 n REG_VS;
  _ ← nvme_init n;
  n ← identify_controller buf n;
  mok (Some (default n once)).

End nvme.

(** * The NVMe controller identified

    A controller as the NVMe specification describes one, as far as the
    driver uses it: the ready bit follows the enable bit after a while, and a
    ring of the admin doorbell makes it execute the next entry of the
    submission queue and post a completion.  Its queues and pages are
    aligned: it ignores the low twelve bits of their addresses. *)

Record ctrl := mkCtrl {
  ct_base : Z;          (** where its registers are *)
  ct_latency : nat;     (** looks at CSTS before the ready bit follows *)
  ct_delay : nat;       (** turns before a command is executed *)
  ct_data : list Z;     (** what IDENTIFY answers *)
  ct_cc : Z;
  ct_rdy : bool;
  ct_wait : nat;
  ct_asq : Z;
  ct_acq : Z;
  ct_head : Z;          (** entries executed, modulo the depth *)
  ct_pending : option nat;
}.
Definition set_run (cc : Z) (rdy : bool) (wait : nat) (h : Z) (p : option nat) (c : ctrl) : ctrl :=
  mkCtrl (ct_base c) (ct_latency c) (ct_delay c) (ct_data c) cc rdy wait (ct_asq c) (ct_acq c) h p.
Definition set_queues (a q : Z) (c : ctrl) : ctrl :=
  mkCtrl (ct_base c) (ct_latency c) (ct_delay c) (ct_data c) (ct_cc c) (ct_rdy c) (ct_wait c) a q (ct_head c) (ct_pending c).

Definition page_of (a : Z) : Z := 4096 * (a / 4096).
Definition enabled (c : ctrl) : bool := Z.odd (ct_cc c).

(** Executes the entry at the head: the data of IDENTIFY go to the page of
    the buffer, and the completion has the identifier and the phase 1. *)
Definition execute (c : ctrl) (m : phys) : ctrl * phys :=
  let sqe := load_bytes m (page_of (ct_asq c) + 64 * ct_head c) 64 in
  let fld o n := of_le (take n (drop o sqe)) in
  let ok := bool_decide (fld 0%nat 1%nat = ADMIN_OP_IDENTIFY /\ fld 40%nat 4%nat = IDENT_CNS_CONTROLLER) in
  let m := if ok then store_bytes m (page_of (fld 24%nat 8%nat)) (ct_data c) else m in
  let cqe := replicate 12 0 ++ le_bytes 2 (fld 2%nat 2%nat) ++ le_bytes 2 (if ok then 1 else 3) in
  (set_run (ct_cc c) (ct_rdy c) (ct_wait c) (ct_head c + 1) None c, store_bytes m (page_of (ct_acq c) + 16 * ct_head c) cqe).

#[export] Instance ctrl_mmio : Mmio ctrl := {|
  mm_read _ a cm :=
    let c := cm.1 in
    if a =? ct_base c + REG_CSTS then
      match ct_wait c with
      | O => let c := set_run (ct_cc c) (enabled c) O (ct_head c) (ct_pending c) c in ((c, cm.2), if ct_rdy c then 1 else 0)
      | S k => ((set_run (ct_cc c) (ct_rdy c) k (ct_head c) (ct_pending c) c, cm.2), if ct_rdy c then 1 else 0)
      end
    else (cm, if a =? ct_base c + REG_CC then ct_cc c else 0);
  mm_write _ a v cm :=
    let c := cm.1 in
    (if a =? ct_base c + REG_CC then set_run v (ct_rdy c) (ct_latency c) 0 None c
     else if a =? ct_base c + REG_ASQ then set_queues v (ct_acq c) c
     else if a =? ct_base c + REG_ACQ then set_queues (ct_asq c) v c
     else if (a =? ct_base c + REG_SQ0TDBL) && ct_rdy c then set_run (ct_cc c) (ct_rdy c) (ct_wait c) (ct_head c) (Some (ct_delay c)) c
     else c, cm.2);
  mm_spin cm :=
    let '(c, m) := cm in
    match ct_pending c with
    | None => (c, m)
    | Some (S k) => (set_run (ct_cc c) (ct_rdy c) (ct_wait c) (ct_head c) (Some k) c, m)
    | Some O => execute c m
    end;
|}.

Section nvme.
Context (km : kmem).

Lemma read_csts_st m n c : mmio_base n = ct_base c ->
  mmio_read32 n REG_CSTS (st km c m) =
  Ret (st km (set_run (ct_cc c) (match ct_wait c with O => enabled c | S _ => ct_rdy c end) (pred (ct_wait c)) (ct_head c) (ct_pending c) c) m,
       Ok (if match ct_wait c with O => enabled c | S _ => ct_rdy c end then 1 else 0)).
Proof.
  intros Hb. unfold mmio_read32. rewrite mmio_read_st. cbn -[Z.add]. rewrite Hb, Z.eqb_refl. destruct c as [? ? ? ? ? ? []]; done.
Qed.

(** The ready bit follows the enable bit in time. *)
Lemma wait_rdy_st m n rdy e : forall spins c, mmio_base n = ct_base c -> enabled c = rdy -> (ct_wait c <= spins)%nat ->
  exists w, wait_rdy spins n rdy e (st km c m) = Ret (st km (set_run (ct_cc c) rdy w (ct_head c) (ct_pending c) c) m, Ok tt).
Proof.
  induction spins as [|spins IH]; intros c Hb He Hw; cbn [wait_rdy]; rewrite (mbindM_Ret _ _ _ _ _ (read_csts_st m n c Hb)).
  - replace (ct_wait c) with O by lia. rewrite He. exists O. by destruct rdy.
  - set (v := match ct_wait c with O => enabled c | S _ => ct_rdy c end).
    destruct (decide (v = rdy)) as [Ev|Ev]; [rewrite Ev; exists (pred (ct_wait c)); by destruct rdy|].
    assert (Hr : (if bool_decide (Z.land (if v then 1 else 0) CSTS_RDY <> 0) then
        if rdy then mok tt else wait_rdy spins n rdy e else if rdy then wait_rdy spins n rdy e else mok tt) = wait_rdy spins n rdy e
        :> M (machine (D := ctrl)) string unit)
      by (destruct v, rdy; done).
    rewrite Hr. set (c1 := set_run _ _ _ _ _ c). destruct (IH c1) as (w & E); [done|done| |].
    + unfold c1. cbn [ct_wait set_run]. unfold v in Ev. destruct (ct_wait c); [by rewrite He in Ev|cbn; lia].
    + exists w. by rewrite E.
Qed.

Lemma eqb_off b x y : (b + x =? b + y) = (x =? y).
Proof. destruct (Z.eqb_spec x y) as [->|]; [apply Z.eqb_refl|]. apply Z.eqb_neq. lia. Qed.

(** A write to register [off]. *)
Lemma write_st k m n c off v : mmio_base n = ct_base c ->
  mmio_write k (mmio_base n + off) v (st km c m) =
  Ret (st km (if off =? REG_CC then set_run v (ct_rdy c) (ct_latency c) 0 None c
              else if off =? REG_ASQ then set_queues v (ct_acq c) c
              else if off =? REG_ACQ then set_queues (ct_asq c) v c
              else if (off =? REG_SQ0TDBL) && ct_rdy c then set_run (ct_cc c) (ct_rdy c) (ct_wait c) (ct_head c) (Some (ct_delay c)) c
              else c) m, Ok tt).
Proof. intros Hb. rewrite mmio_write_st. cbn -[Z.add Z.eqb]. by rewrite Hb, !eqb_off. Qed.

Lemma nvme_init_st m n c : mmio_base n = ct_base c -> Z.of_nat (ct_latency c) <= 1000000 ->
  exists w, nvme_init n (st km c m) =
    Ret (st km (mkCtrl (ct_base c) (ct_latency c) (ct_delay c) (ct_data c) 0x640001 true w (asq n) (acq n) 0 None) m, Ok tt).
Proof.
  intros Hb Hl. unfold nvme_init, mmio_write32, mmio_write64.
  rewrite (mbindM_Ret _ _ _ (st km c m) (ct_cc c)).
  2: { unfold mmio_read32. rewrite mmio_read_st. cbn -[Z.add Z.eqb]. rewrite Hb, !eqb_off. done. }
  rewrite (mbindM_Ret _ _ _ _ _ (write_st _ m n c _ _ Hb)). cbn -[Z.land unot N.to_nat wait_rdy mmio_write mbindM].
  set (c1 := set_run _ _ _ _ _ c).
  destruct (wait_rdy_st m n false "nvme: timeout disable"%string (N.to_nat 1000000) c1) as (w1 & E1); [done| |unfold c1; cbn [ct_wait set_run]; lia|].
  { unfold enabled, c1. cbn [ct_cc set_run]. change (Z.odd ?x) with (Z.odd x). rewrite <- Z.bit0_odd, Z.land_spec. apply andb_false_r. }
  rewrite (mbindM_Ret _ _ _ _ _ E1). set (c2 := set_run _ _ _ _ _ c1).
  do 3 (erewrite mbindM_Ret by (by apply write_st); cbn -[Z.land unot N.to_nat wait_rdy mmio_write mbindM]).
  erewrite mbindM_Ret by (by apply write_st). cbn -[Z.land unot N.to_nat wait_rdy mmio_write mbindM].
  match goal with |- exists w, wait_rdy _ _ _ _ (st km ?c m) = _ => set (c3 := c) end.
  destruct (wait_rdy_st m n true "nvme: timeout enable"%string (N.to_nat 5000000) c3) as (w2 & E2); [done|done|unfold c3; cbn [ct_wait set_run]; cbn; lia|].
  exists w2. rewrite E2. done.
Qed.

Lemma wait_cqe_st a c' m' : forall spins k m c, (k < spins)%nat -> ct_pending c = Some k ->
  ld m (a + 14) 2 = 0 -> (forall w, execute (set_run (ct_cc c) (ct_rdy c) (ct_wait c) (ct_head c) w c) m = (c', m')) -> ld m' (a + 14) 2 = 1 ->
  wait_cqe spins a 1 (st km c m) = Ret (st km c' m', Ok 0).
Proof.
  induction spins as [|spins IH]; intros k m c Hk Hp Hm He Hm'; [lia|]. cbn [wait_cqe].
  rewrite (mbindM_Ret _ _ _ _ _ (peek_st _ _ _ _ _)), Hm. change (Z.land 0 1 =? 1) with false. cbv iota.
  rewrite (mbindM_Ret _ _ _ _ _ (spin_st _ _ _)). cbn [mm_spin ctrl_mmio]. rewrite Hp. destruct k as [|k].
  - specialize (He (Some O)). replace (set_run _ _ _ _ _ c) with c in He by (destruct c; cbn in *; by subst). rewrite He. cbn [fst snd].
    destruct spins as [|spins]; cbn [wait_cqe]; rewrite (mbindM_Ret _ _ _ _ _ (peek_st _ _ _ _ _)), Hm'; done.
  - cbn [fst snd]. apply (IH k); [lia|done|done|intros w; exact (He w)|done].
Qed.

(** The boxes are pages of their own. *)
Record boxes (n : Nvme) (buf : Z) : Prop := {
  bx_asq : asq n mod 4096 = 0;
  bx_acq : acq n mod 4096 = 0;
  bx_buf : buf mod 4096 = 0;
  bx_fits : fits 64 buf;
  bx_aq : sep (asq n) 2048 (acq n) 512;
  bx_ab : sep (asq n) 2048 buf 4096;
  bx_qb : sep (acq n) 512 buf 4096;
}.
Lemma page_of_id a : a mod 4096 = 0 -> page_of a = a.
Proof. unfold page_of. pose proof (Z.div_mod a 4096). lia. Qed.

Lemma execute_st n buf m c : boxes n buf -> ct_asq c = asq n -> ct_acq c = acq n -> ct_head c = 0 -> length (ct_data c) = 4096%nat ->
  load_bytes m (asq n) 64 = identify_sqe buf ->
  exists m', execute c m = (set_run (ct_cc c) (ct_rdy c) (ct_wait c) 1 None c, m') /\
    load_bytes m' buf 4096 = ct_data c /\ ld m' (acq n + 14) 2 = 1 /\
    (forall x, ~ (buf <= x < buf + 4096) -> ~ (acq n <= x < acq n + 16) -> m' x = m x).
Proof.
  intros [] Ea Eq Eh Hd Hs. unfold execute. rewrite Ea, Eq, Eh, (page_of_id (asq n)), (page_of_id (acq n)), !Z.mul_0_r, !Z.add_0_r, Hs by done.
  rewrite bool_decide_eq_true_2 by done.
  assert (Eb : of_le (take 8 (drop 24 (identify_sqe buf))) = buf) by (apply (of_le_bytes_id 8); exact bx_fits0).
  rewrite Eb, page_of_id by done. eexists. split; [reflexivity|]. split; [|split].
  - rewrite load_store_sep.
    + change 4096%nat with (N.to_nat 4096) in Hd |- *. rewrite <- Hd. apply load_store_bytes.
    + change (lenZ (_ ++ _)) with 16. change (Z.of_nat 4096) with 4096. unfold sep in *. lia.
  - unfold ld. by rewrite (load_store_at _ _ _ 14) by (cbn; lia).
  - intros x H1 H2. rewrite !store_out; [done|unfold lenZ; lia|unfold lenZ; cbn; lia].
Qed.

(** C33. The controller is identified.  With its queues and its buffer in
    pages of their own and a controller that answers in time, the driver
    resets it, rings the doorbell once and returns the vendor, the model and
    the serial number of the data the controller sends, without the blanks
    and zeros at their ends; RAM changes in the boxes only. *)
Theorem nvme_identified n buf m c :
  boxes n buf -> mmio_base n = ct_base c -> Z.of_nat (ct_latency c) <= 1000000 -> Z.of_nat (ct_delay c) < 50000000 ->
  length (ct_data c) = 4096%nat -> sq_tail n = 0 -> cq_head n = 0 -> cq_phase n = 1 -> ld m (acq n + 14) 2 = 0 ->
  exists c' m', (_ ← nvme_init n; identify_controller buf n) (st km c m) =
      Ret (st km c' m', Ok (mkNvme (nv_addr n) (mmio_base n) (asq n) (acq n) 1 1 1 (of_le (take 2 (ct_data c)))
        (trim_ascii_end (take 40 (drop 24 (ct_data c)))) (trim_ascii_end (take 20 (drop 4 (ct_data c)))))) /\
    ct_rdy c' = true /\
    (forall x, ~ (buf <= x < buf + 4096) -> ~ (acq n <= x < acq n + 512) -> ~ (asq n <= x < asq n + 2048) -> m' x = m x).
Proof.
  intros Hbx Hb Hlat Hdel Hd Ht Hh Hph Hm. destruct (nvme_init_st m n c Hb Hlat) as (w & E).
  rewrite (mbindM_Ret _ _ _ _ _ E). set (c1 := mkCtrl _ _ _ _ _ _ _ _ _ _ _). pose proof Hbx as Hbx'. destruct Hbx'.
  unfold identify_controller. rewrite Ht, Hh, Hph, !Z.mul_0_r, !Z.add_0_r.
  do 2 rewrite (mbindM_Ret _ _ _ _ _ (poke_st _ _ _ _ _)).
  set (m1 := store_bytes (store_bytes m buf _) (asq n) _).
  unfold mmio_write32. rewrite (mbindM_Ret _ _ _ _ _ (write_st _ m1 n c1 _ _ Hb)).
  cbn -[Z.add N.to_nat wait_cqe mbindM load_bytes identify_sqe]. set (c2 := set_run _ _ _ _ _ c1).
  destruct (execute_st n buf m1 c2) as (m' & Ee & Hdata & Hst & Hk); try done.
  { apply (load_store_bytes _ (asq n) (identify_sqe buf)). }
  assert (Hm1 : ld m1 (acq n + 14) 2 = 0).
  { unfold ld, m1. rewrite !load_store_sep; [done|..].
    - unfold lenZ, sep in *. rewrite length_replicate. lia.
    - change (lenZ (identify_sqe buf)) with 64. unfold sep in *. lia. }
  rewrite (mbindM_Ret _ _ _ _ _ (wait_cqe_st (acq n) _ m' (N.to_nat 50000000) (ct_delay c) m1 c2 ltac:(lia) eq_refl Hm1 (fun _ => Ee) Hst)).
  cbn [negb Z.eqb]. rewrite (mbindM_Ret _ _ _ (st km (set_run (ct_cc c2) (ct_rdy c2) (ct_wait c2) 1 None c2) m')
    (st km (set_run (ct_cc c2) (ct_rdy c2) (ct_wait c2) 1 None c2) m')) by done.
  exists (set_run (ct_cc c2) (ct_rdy c2) (ct_wait c2) 1 None c2), m'. split; [|split; [reflexivity|]].
  - change (ram (st km ?d m')) with m'. rewrite Hdata. reflexivity.
  - intros x H1 H2 H3. rewrite Hk by lia. unfold m1. rewrite !store_out; [done|..]; unfold lenZ.
    + rewrite length_replicate. lia.
    + change (length (identify_sqe buf)) with 64%nat. lia.
Qed.
End nvme.

(** A controller that answers after a thousand turns. *)
Lemma nvme_identified_witness :
  let data := [0x86; 0x80] ++ [0; 0] ++ (bstr "S3RIAL" ++ replicate 14 32) ++ (bstr "QEMU NVMe Ctrl" ++ replicate 26 32) ++ replicate 4032 0 in
  let c := mkCtrl 0xfebf0000 5 1000 data 0 false 0 0 0 0 None in
  let n := mkNvme (mkPciAddr 0 4 0) 0xfebf0000 0x10000 0x11000 0 0 1 0 [] [] in
  let km := mkKmem None (fun _ => 0) rc_new 0x1000 None None in
  exists c' m', (_ ← nvme_init n; identify_controller 0x12000 n) (st km c (fun _ => 0)) =
      Ret (st km c' m', Ok (mkNvme (nv_addr n) (mmio_base n) (asq n) (acq n) 1 1 1 0x8086 (bstr "QEMU NVMe Ctrl") (bstr "S3RIAL"))) /\
    ct_rdy c' = true /\
    (forall x, ~ (0x12000 <= x < 0x12000 + 4096) -> ~ (acq n <= x < acq n + 512) -> ~ (asq n <= x < asq n + 2048) -> m' x = (fun _ => 0) x).
Proof.
  intros data c n km. apply (nvme_identified km n 0x12000 (fun _ => 0) c).
  - split; unfold sep, fits; cbn [asq acq n]; first [reflexivity|lia].
  - reflexivity.
  - cbn. lia.
  - cbn [ct_delay c]. lia.
  - reflexivity.
  - reflexivity.
  - reflexivity.
  - reflexivity.
  - reflexivity.
Defined.
