(* ===== verification/Interrupts.v ===== *)
(** * Exceptions and interrupts

    kernel/src/arch/x86_64/idt.rs (the descriptor table and its handlers),
    pic.rs (the vectors) and backtrace.rs (the walk over saved frame
    pointers).  What a handler prints is not modelled, except the addresses
    of a backtrace.  A handler answers whether the interrupted code goes on
    ([inl]) or where control goes instead ([inr]); a panic of the kernel is
    [Panic]. *)
From S2P Require Import Prelude Phys FrameAllocator FrameRefcount Paging AddressSpace Signal.
From S2P Require Import AddressSpaceCorrect CowCorrect ProcessTable Ipc Queue Gfx Elf Executor Time Process.
From S2P Require Import ProcessCorrect.
Local Open Scope Z_scope.

(** ** The table *)

Abbreviation PIC_1_OFFSET := 32 (only parsing).
Abbreviation PIC_2_OFFSET := (PIC_1_OFFSET + 8) (only parsing).
Definition Timer : Z := PIC_1_OFFSET.
Definition Keyboard : Z := Timer + 1.
Definition Mouse : Z := PIC_2_OFFSET + 4.

Abbreviation DOUBLE_FAULT_IST_INDEX := 0 (only parsing).
Abbreviation GENERAL_FAULT_IST_INDEX := 1 (only parsing).

Inductive handler :=
  | breakpoint | page_fault | general_protection_fault | double_fault | invalid_opcode
  | stack_segment_fault | timer | keyboard | mouse | int80.

(** A present gate: its handler, the privilege level an [int] instruction
    needs, and the stack of the interrupt stack table, if any. *)
Record gate := mkGate { g_handler : handler; g_dpl : Z; g_ist : option Z }.

(** The vectors of the exceptions are those of the architecture. *)
Definition IDT (v : Z) : option gate :=
  if v =? 3 then Some (mkGate breakpoint 3 None)
  else if v =? 14 then Some (mkGate page_fault 0 (Some GENERAL_FAULT_IST_INDEX))
  else if v =? 13 then Some (mkGate general_protection_fault 0 (Some GENERAL_FAULT_IST_INDEX))
  else if v =? 8 then Some (mkGate double_fault 0 (Some DOUBLE_FAULT_IST_INDEX))
  else if v =? 6 then Some (mkGate invalid_opcode 0 None)
  else if v =? 12 then Some (mkGate stack_segment_fault 0 None)
  else if v =? Timer then Some (mkGate timer 0 None)
  else if v =? Keyboard then Some (mkGate keyboard 0 None)
  else if v =? Mouse then Some (mkGate mouse 0 None)
  else if v =? 0x80 then Some (mkGate int80 3 None)
  else None.

(** ** The exception handlers *)

Definition from_user (code_segment : Z) : bool := Z.land code_segment 3 =? 3.
Abbreviation PROTECTION_VIOLATION := 1 (only parsing).
Abbreviation CAUSED_BY_WRITE := 2 (only parsing).

Section handlers.
Context `{ArrayQueue InputEventAbi} `{ArrayQueue Z} `{X86Paging}.

Definition answer : Type := outcome (pstate * (unit + control)).

(** [current_fault_kill] does not return. *)
Definition fault_kill (s : pstate) : answer := '(s, c) ← current_fault_kill s; Ret (s, inr c).

Definition breakpoint_handler (s : pstate) : answer := Ret (s, inl tt).
Definition double_fault_handler (s : pstate) : answer := Panic.
Definition gpf_handler (cs : Z) (s : pstate) : answer := if from_user cs then fault_kill s else Panic.
Definition invalid_opcode_handler (cs : Z) (s : pstate) : answer := if from_user cs then fault_kill s else Panic.
Definition stack_segment_fault_handler (cs : Z) (s : pstate) : answer := if from_user cs then fault_kill s else Panic.

(** [try_resolve_cow] on the kernel's state. *)
Definition cow_fault (addr : Z) : M pstate string unit :=
  zoom (fun s => (ps_mem s, ps_table s)) (fun kt s => set_table kt.2 (set_kmem kt.1 s))
    (try_resolve_cow proc_replace_mapping addr).

(** [addr] is what CR2 holds. *)
Definition page_fault_handler (addr error_code cs : Z) (s : pstate) : answer :=
  '(s, resolved) ←
    (if contains error_code CAUSED_BY_WRITE && contains error_code PROTECTION_VIOLATION then
       '(s, r) ← cow_fault addr s; Ret (s, is_ok r)
     else Ret (s, false));
  if (resolved : bool) then Ret (s, inl tt) else
  if from_user cs then fault_kill s else Ret (s, inr HltLoop).

Definition int80_handler (s : pstate) : answer := Ret (s, inl tt).

(** The handlers of exceptions; the others serve devices. *)
Definition exception_handler (h : handler) (addr error_code cs : Z) : option (pstate -> answer) :=
  match h with
  | breakpoint => Some breakpoint_handler
  | page_fault => Some (page_fault_handler addr error_code cs)
  | general_protection_fault => Some (gpf_handler cs)
  | double_fault => Some double_fault_handler
  | invalid_opcode => Some (invalid_opcode_handler cs)
  | stack_segment_fault => Some (stack_segment_fault_handler cs)
  | int80 => Some int80_handler
  | timer | keyboard | mouse => None
  end.

(** An exception of the processor (a vector below 32), through the table.  A
    vector without a gate raises a segment-not-present fault, which has no
    gate either: the processor goes for the double fault. *)
Definition exception (v addr error_code cs : Z) (s : pstate) : answer :=
  match g ← IDT v; exception_handler (g_handler g) addr error_code cs with
  | Some h => h s
  | None => double_fault_handler s
  end.

(** ** What the handlers do *)

Lemma wp_liftK {St A} (c : K A) (st : St) (Q : kmem * St -> result A string -> Prop) k :
  (forall k' r, Q (k', st) r) -> wp (liftK c) Q (k, st).
Proof. intros HQ s' r. unfold liftK. destruct (c k) as [[k' r']|]; [|done]. intros [= <- <-]. apply HQ. Qed.

(** A fault that is not resolved leaves the process table alone. *)
Lemma try_resolve_cow_err {St} (replace : Z -> Z -> St -> St) va k st k' st' e :
  try_resolve_cow replace va (k, st) = Ret ((k', st'), Err e) -> st' = st.
Proof.
  intros E. cut (wp (try_resolve_cow replace va) (fun s' r => is_ok r = false -> s'.2 = st) (k, st)).
  { intros Hw. exact (Hw _ _ E eq_refl). }
  clear E. unfold try_resolve_cow, ok_or.
  repeat first [done | apply wp_bind | apply wp_mget | apply wp_mok | apply wp_mfail | apply wp_mput
    | apply wp_mlift; intros ?? | apply wp_liftK; intros ?? | progress cbn beta iota | case_match].
Qed.

Lemma put_proc_same t p : procs t !! current t = Some p -> put_proc t (current t) p = t.
Proof. intros Hp. unfold put_proc. rewrite insert_id by done. by destruct t. Qed.

End handlers.

(** [process::replace_mapping] on the current process. *)
Lemma proc_replace_current `{PagingLaws} t p page f :
  procs t !! current t = Some p -> low_page page ->
  proc_replace_mapping page f t = put_proc t (current t) (set_as (set_page (address_space p) page f) p).
Proof.
  intros Hp [Hlow Hal]. unfold proc_replace_mapping, table_current. rewrite Hp.
  unfold replace_mapping. rewrite containing_spec by lia. by rewrite frame_of_id by (split; lia).
Qed.



(** ** The backtrace *)

(** The lines [walk] prints: the index of a frame and its return address. *)
Fixpoint walk_frames (m : phys) (depth : nat) (i rbp : Z) : outcome (list (Z * Z)) :=
  match depth with
  | O => Ret []
  | S depth =>
      if (rbp =? 0) || (rbp <? 0x1000) then Ret [] else
      a ← rbp +! 8 @ 64;
      let return_addr := load_u64 m a in
      let saved_rbp := load_u64 m rbp in
      if return_addr =? 0 then Ret [] else
      if saved_rbp <=? rbp then Ret [(i, return_addr)] else
      l ← walk_frames m depth (i + 1) saved_rbp;
      Ret ((i, return_addr) :: l)
  end.
Definition walk (m : phys) (rbp : Z) (max_depth : nat) : outcome (list (Z * Z)) :=
  walk_frames m max_depth 0 rbp.
(** [rbp] is what the register holds. *)
Definition print (m : phys) (rbp : Z) : outcome (list (Z * Z)) := walk m rbp 16.

(** A stack of calls as frame pointers leave it: the frame at [rbp] has the
    return address [ra] and the caller's frame further up; the outermost
    frame has a saved pointer below the first page. *)
Inductive call_chain (m : phys) : Z -> list Z -> Prop :=
  | chain_end rbp : 0 <= rbp < 0x1000 -> call_chain m rbp []
  | chain_frame rbp ra l : 0x1000 <= rbp -> rbp + 8 < 2 ^ 64 ->
      load_u64 m (rbp + 8) = ra -> ra <> 0 ->
      (rbp < load_u64 m rbp \/ l = []) -> call_chain m (load_u64 m rbp) l -> call_chain m rbp (ra :: l).

Lemma walk_chain m l rbp depth i : call_chain m rbp l ->
  walk_frames m depth i rbp = Ret (zip (seqZ i (lenZ l)) (take depth l)).
Proof.
  intros Hc. revert depth i. induction Hc as [rbp Hr|rbp ra l Hr Hb Hra Hnz Hup Hc IH]; intros [|depth] i; cbn -[load_u64].
  1-2: rewrite ?(proj2 (Z.ltb_lt _ _)), ?orb_true_r by lia; by rewrite ?take_nil, ?zip_with_nil_r.
  { by rewrite zip_with_nil_r. }
  rewrite (proj2 (Z.eqb_neq rbp 0)), (proj2 (Z.ltb_ge rbp 0x1000)), add_chk_ok by lia. cbn -[load_u64].
  rewrite Hra, (proj2 (Z.eqb_neq ra 0)) by done. rewrite lenZ_cons, seqZ_cons by (pose proof (lenZ_nonneg l); lia).
  replace (Z.pred (1 + lenZ l)) with (lenZ l) by lia. cbn -[load_u64].
  case_match eqn:E.
  - destruct Hup as [Hup| ->]; [lia|]. by rewrite take_nil, zip_with_nil_r.
  - rewrite IH. by rewrite <- Z.add_1_r.
Qed.

(** The backtrace of a stack of calls: the return addresses from the
    innermost, numbered from 0, at most 16. *)
Theorem backtrace_chain m rbp l : call_chain m rbp l ->
  print m rbp = Ret (zip (seqZ 0 (lenZ l)) (take 16 l)).
Proof. apply walk_chain. Qed.

(** * Concrete faults

    The theorems above at the address space of MemoryDemo, run by a
    process with pid 1. *)
From S2P Require Import PagingModel MemoryDemo.

Definition id_proc : Process :=
  mkProcess 1 0 [] Runnable demo_as 0x9000 (set_iret 0x5000 0x5ff0 0x202 0x23 0x1b tf_default) [] [] 0 0 0 0.
Definition id_state (fa : BitmapFrameAllocator) : pstate :=
  mkP _ _ (mkI (demo_kmem fa 2) (mkTable {[1 := id_proc]} [] 1) ipc_new) (gfx_new None) 2 0 false false
    clock_new execq_new.


Definition id_start : pstate := id_state (mkFA [0; 0; 0; 0] 32 0 0).

