(* ===== verification/VgaText.v ===== *)
(** * The VGA text screen

    kernel/src/drivers/vga.rs: the 80 by 25 cells at 0xb8000, the writer that
    keeps its text on the last row and scrolls, and the choice between it and
    the framebuffer console.  A screen is its rows from top to bottom. *)
From S2P Require Import Prelude Fb Console.
Local Open Scope Z_scope.

Abbreviation BUFFER_HEIGHT := 25 (only parsing).
Abbreviation BUFFER_WIDTH := 80 (only parsing).

Definition Black : Z := 0.
Definition LightGreen : Z := 10.
Definition ColorCode_new (fg bg : Z) : Z := Z.lor (Z.shiftl bg 4) fg.

Record ScreenChar := mkSC { ascii : Z; sc_color : Z }.
Abbreviation Buffer := (list (list ScreenChar)).
Record Writer := mkWriter { column : Z; color : Z; buffer : Buffer }.

(** [self.buffer.chars[row][col]], read and written. *)
Definition cell (b : Buffer) (row col : Z) : outcome ScreenChar := r ← idx b row; idx r col.
Definition set_cell (b : Buffer) (row col : Z) (c : ScreenChar) : outcome Buffer :=
  r ← idx b row; r ← idx_set r col c; idx_set b row r.
Definition set_buffer (b : Buffer) (w : Writer) : Writer := mkWriter (column w) (color w) b.
Definition set_column (c : Z) (w : Writer) : Writer := mkWriter c (color w) (buffer w).

Definition clear_row (row : Z) (w : Writer) : outcome Writer :=
  let blank := mkSC 32 (color w) in
  b ← ofold (fun b col => set_cell b row col blank) (buffer w) (seqZ 0 BUFFER_WIDTH);
  Ret (set_buffer b w).

Definition shift_row (b : Buffer) (row : Z) : outcome Buffer :=
  ofold (fun b col => c ← cell b row col; set_cell b (row - 1) col c) b (seqZ 0 BUFFER_WIDTH).
Definition new_line (w : Writer) : outcome Writer :=
  b ← ofold shift_row (buffer w) (seqZ 1 (BUFFER_HEIGHT - 1));
  w ← clear_row (BUFFER_HEIGHT - 1) (set_buffer b w);
  Ret (set_column 0 w).

Definition write_byte (byte : Z) (w : Writer) : outcome Writer :=
  if byte =? 10 then new_line w
  else if byte =? 0x08 then Ret (if 0 <? column w then set_column (column w - 1) w else w)
  else
    w ← if BUFFER_WIDTH <=? column w then new_line w else Ret w;
    b ← set_cell (buffer w) (BUFFER_HEIGHT - 1) (column w) (mkSC byte (color w));
    Ret (set_column (column w + 1) (set_buffer b w)).

Definition printable (b : Z) : bool := (0x20 <=? b) && (b <=? 0x7e) || (b =? 10) || (b =? 0x08).
Definition write_string (s : list Z) (w : Writer) : outcome Writer :=
  ofold (fun w byte => write_byte (if printable byte then byte else 0xfe) w) w s.

Definition clear_screen (w : Writer) : outcome Writer :=
  w ← ofold (fun w row => clear_row row w) w (seqZ 0 BUFFER_HEIGHT);
  Ret (set_column 0 w).

(** The static [WRITER] over what the memory at 0xb8000 holds. *)
Definition WRITER (b : Buffer) : Writer := mkWriter 0 (ColorCode_new LightGreen Black) b.

(** [console::write_fmt]: the text goes to the framebuffer, if both the
    console and the framebuffer exist. *)
Definition write_fmt (s : list Z) (console : option Console) (fb : option Fb)
  : outcome (option Console * option Fb * bool) :=
  match console, fb with
  | Some c, Some f => '(c, f) ← console_write_str s c f; Ret (Some c, Some f, true)
  | _, _ => Ret (console, fb, false)
  end.
(** [_print]: once the console exists the VGA text is no longer written. *)
Definition _print (s : list Z) (console : option Console) (fb : option Fb) (w : Writer)
  : outcome (option Console * option Fb * Writer) :=
  match console with
  | Some _ => '(console, fb, _) ← write_fmt s console fb; Ret (console, fb, w)
  | None => w ← write_string s w; Ret (console, fb, w)
  end.

(** ** The transcript *)

(** The specification: every line since the start, the last one being
    written, and the column of the cursor in it; the screen is the last 25
    lines.  [put] is a line with a character written at a column. *)
Record transcript := mkT { t_lines : list (list ScreenChar); t_last : list ScreenChar; t_col : Z }.

Definition blank_row (c : Z) : list ScreenChar := replicate 80 (mkSC 32 c).
Definition t_newline (c : Z) (t : transcript) : transcript :=
  mkT (t_lines t ++ [t_last t]) (blank_row c) 0.
Definition t_byte (c byte : Z) (t : transcript) : transcript :=
  if byte =? 10 then t_newline c t
  else if byte =? 8 then mkT (t_lines t) (t_last t) (Z.max 0 (t_col t - 1))
  else
    let t := if t_col t =? 80 then t_newline c t else t in
    mkT (t_lines t) (<[Z.to_nat (t_col t) := mkSC byte c]> (t_last t)) (t_col t + 1).
Definition t_string (c : Z) (s : list Z) (t : transcript) : transcript :=
  foldl (fun t b => t_byte c (if printable b then b else 0xfe) t) t s.

Definition last_rows (n : nat) (l : list (list ScreenChar)) : list (list ScreenChar) := drop (length l - n) l.
Definition shows (w : Writer) (t : transcript) : Prop :=
  buffer w = last_rows 24 (t_lines t) ++ [t_last t] /\ (24 <= length (t_lines t))%nat /\
  column w = t_col t /\ 0 <= t_col t <= 80 /\
  Forall (fun r => length r = 80%nat) (t_lines t) /\ length (t_last t) = 80%nat.

(** ** The loops *)

Lemma set_cell_ok b row col c r :
  b !! Z.to_nat row = Some r -> 0 <= row -> 0 <= col < lenZ r ->
  set_cell b row col c = Ret (<[Z.to_nat row := <[Z.to_nat col := c]> r]> b).
Proof.
  intros Hr Hrow Hcol. unfold set_cell. rewrite (proj2 (idx_Ret b row r)) by done. obind.
  rewrite idx_set_in_range by done. obind. apply idx_set_in_range.
  apply lookup_lt_Some in Hr. unfold lenZ. lia.
Qed.

(** Writing the cells of a row from the left, each with a character that the
    row itself does not decide. *)
Lemma fill_row b row r (v : Buffer -> Z -> outcome ScreenChar) (G : Z -> ScreenChar) (n : nat) :
  b !! Z.to_nat row = Some r -> 0 <= row -> (n <= length r)%nat ->
  (forall x col, 0 <= col < Z.of_nat n -> v (<[Z.to_nat row := x]> b) col = Ret (G col)) ->
  ofold (fun b col => c ← v b col; set_cell b row col c) b (seqZ 0 (Z.of_nat n)) =
    Ret (<[Z.to_nat row := (G <$> seqZ 0 (Z.of_nat n)) ++ drop n r]> b).
Proof.
  intros Hr Hrow. induction n as [|n IH]; intros Hn Hv.
  { change (seqZ 0 (Z.of_nat 0)) with (@nil Z). cbn [ofold]. f_equal. symmetry. by apply (list_insert_id b). }
  rewrite Nat2Z.inj_succ, <- Z.add_1_r, seqZ_app, fmap_app, ofold_app by lia.
  rewrite IH by (try intros; try apply Hv; lia). obind. replace (0 + Z.of_nat n) with (Z.of_nat n) by lia.
  change (seqZ (Z.of_nat n) 1) with [Z.of_nat n]. cbn [ofold]. rewrite Hv by lia. obind.
  assert (Hlen : length (G <$> seqZ 0 (Z.of_nat n)) = n) by (rewrite length_fmap, length_seqZ; lia).
  erewrite set_cell_ok; [| |done|].
  2:{ apply list_lookup_insert_eq. by apply lookup_lt_Some in Hr. }
  2:{ rewrite lenZ_app. unfold lenZ. rewrite Hlen, length_drop. lia. }
  obind. rewrite list_insert_insert_eq. do 2 f_equal. rewrite Nat2Z.id.
  rewrite <- Hlen at 1. rewrite <- (Nat.add_0_r (length _)), insert_app_r. rewrite <- app_assoc. f_equal.
  destruct (drop n r) as [|y k] eqn:Ed.
  { apply (f_equal length) in Ed. rewrite length_drop in Ed. cbn in Ed. lia. }
  cbn. f_equal. replace (S n) with (n + 1)%nat by lia. by rewrite <- drop_drop, Ed.
Qed.

Lemma seqZ_all {A} (l : list A) (d : A) : (fun i => nth (Z.to_nat i) l d) <$> seqZ 0 (lenZ l) = l.
Proof.
  apply list_eq. intros i. rewrite list_lookup_fmap. destruct (decide (i < length l)%nat) as [Hi|Hi].
  - rewrite lookup_seqZ_lt by (unfold lenZ; lia). cbn [fmap option_fmap option_map]. replace (Z.to_nat (0 + Z.of_nat i)) with i by lia.
    destruct (lookup_lt_is_Some_2 l i Hi) as [x Hx]. by rewrite (nth_lookup_Some _ _ _ _ Hx).
  - rewrite lookup_seqZ_ge by (unfold lenZ; lia). by rewrite lookup_ge_None_2 by lia.
Qed.

Lemma clear_row_ok w row r :
  buffer w !! Z.to_nat row = Some r -> 0 <= row -> length r = 80%nat ->
  clear_row row w = Ret (set_buffer (<[Z.to_nat row := blank_row (color w)]> (buffer w)) w).
Proof.
  intros Hr Hrow Hlen. unfold clear_row.
  pose proof (fill_row (buffer w) row r (fun _ _ => Ret (mkSC 32 (color w))) (fun _ => mkSC 32 (color w)) 80
    Hr Hrow ltac:(lia) ltac:(done)) as E. change (Z.of_nat 80) with 80 in E.
  cbn [mbind outcome_bind] in E. cbv zeta. rewrite E. obind. rewrite drop_ge by lia. by rewrite app_nil_r.
Qed.

Lemma shift_row_ok b row r r' :
  b !! Z.to_nat (row - 1) = Some r -> b !! Z.to_nat row = Some r' -> 1 <= row ->
  length r = 80%nat -> length r' = 80%nat -> shift_row b row = Ret (<[Z.to_nat (row - 1) := r']> b).
Proof.
  intros Hr Hr' Hrow Hlen Hlen'. unfold shift_row.
  pose proof (fill_row b (row - 1) r (fun b col => cell b row col) (fun i => nth (Z.to_nat i) r' (mkSC 0 0)) 80
    Hr ltac:(lia) ltac:(lia)) as E. change (Z.of_nat 80) with 80 in E. rewrite E.
  - do 2 f_equal. rewrite drop_ge, app_nil_r by lia.
    replace 80 with (lenZ r') by (unfold lenZ; lia). apply seqZ_all.
  - intros x col Hcol. unfold cell.
    rewrite (proj2 (idx_Ret _ row r')) by (rewrite list_lookup_insert_ne by lia; split; [lia|done]). obind.
    apply idx_Ret. split; [lia|].
    destruct (lookup_lt_is_Some_2 r' (Z.to_nat col) ltac:(lia)) as [y Hy].
    by rewrite (nth_lookup_Some _ _ _ _ Hy).
Qed.

(** The scroll moves every row up by one; the last stays where it was. *)
Lemma shift_rows_ok b (n : nat) :
  Forall (fun r => length r = 80%nat) b -> (n < length b)%nat ->
  ofold shift_row b (seqZ 1 (Z.of_nat n)) = Ret (take n (tail b) ++ drop n b).
Proof.
  intros Hb. induction n as [|n IH]; intros Hn; [by rewrite drop_0|].
  rewrite Nat2Z.inj_succ, <- Z.add_1_r, seqZ_app, ofold_app by lia. rewrite IH by lia. obind.
  change (seqZ (1 + Z.of_nat n) 1) with [1 + Z.of_nat n]. cbn [ofold].
  destruct b as [|r0 b]; [cbn in Hn; lia|]. cbn [tail length] in *.
  assert (Hln : length (take n b) = n) by (rewrite length_take; lia).
  destruct (lookup_lt_is_Some_2 (r0 :: b) n ltac:(cbn; lia)) as [r Hr].
  destruct (lookup_lt_is_Some_2 b n ltac:(lia)) as [r' Hr'].
  pose proof (drop_S _ _ _ Hr) as Ed. pose proof (drop_S _ _ _ Hr') as Ed'.
  cbn [drop] in Ed. rewrite Ed, Ed'.
  erewrite (shift_row_ok _ _ r r').
  - obind. f_equal. replace (Z.to_nat (1 + Z.of_nat n - 1)) with (length (take n b) + 0)%nat by lia.
    rewrite insert_app_r. cbn. by rewrite (take_S_r _ _ _ Hr'), <- app_assoc, Ed'.
  - replace (Z.to_nat (1 + Z.of_nat n - 1)) with (length (take n b) + 0)%nat by lia. by rewrite lookup_app_r, Nat.add_sub' by lia.
  - replace (Z.to_nat (1 + Z.of_nat n)) with (length (take n b) + 1)%nat by lia.
    by rewrite lookup_app_r, Nat.add_sub' by lia.
  - lia.
  - exact (Forall_lookup_1 _ _ _ _ Hb Hr).
  - exact (Forall_lookup_1 _ (r0 :: b) (S n) _ Hb Hr').
Qed.

Definition screen_ok (b : Buffer) : Prop := length b = 25%nat /\ Forall (fun r => length r = 80%nat) b.

Lemma new_line_ok w : screen_ok (buffer w) ->
  new_line w = Ret (mkWriter 0 (color w) (tail (buffer w) ++ [blank_row (color w)])).
Proof.
  intros [Hlen Hb]. unfold new_line. change (BUFFER_HEIGHT - 1) with (Z.of_nat 24).
  rewrite shift_rows_ok by (done || lia). obind.
  destruct (buffer w) as [|r0 b]; [done|]. cbn [tail length] in *.
  assert (Hlb : length b = 24%nat) by lia. rewrite (take_ge b) by lia.
  destruct (lookup_lt_is_Some_2 (r0 :: b) 24 ltac:(cbn; lia)) as [r Hr].
  rewrite (drop_S _ _ _ Hr), (drop_ge (r0 :: b)) by (cbn; lia).
  erewrite (clear_row_ok _ _ r); [| |done|exact (Forall_lookup_1 _ _ _ _ Hb Hr)].
  - obind. unfold set_column, set_buffer. cbn [color buffer column]. do 2 f_equal.
    replace (Z.to_nat (Z.of_nat 24)) with (length b + 0)%nat by lia. by rewrite insert_app_r.
  - cbn [buffer set_buffer]. replace (Z.to_nat (Z.of_nat 24)) with (length b + 0)%nat by lia.
    by rewrite lookup_app_r, Nat.add_sub' by lia.
Qed.

Lemma last_rows_snoc n l x : (n < length (l ++ [x]))%nat -> (0 < n)%nat ->
  last_rows n (l ++ [x]) = last_rows (n - 1) l ++ [x].
Proof.
  intros Hl Hn. rewrite length_app in Hl. cbn in Hl. unfold last_rows. rewrite length_app. cbn [length].
  rewrite drop_app_le by lia. do 2 f_equal. lia.
Qed.

Lemma shows_screen w t : shows w t -> screen_ok (buffer w).
Proof.
  intros (-> & Hl & _ & _ & Hls & Hlast). split.
  - rewrite length_app. unfold last_rows. rewrite length_drop. cbn. lia.
  - apply Forall_app. split; [by apply Forall_drop|by repeat constructor].
Qed.

Lemma shows_newline w t : shows w t -> exists w', new_line w = Ret w' /\
  shows w' (t_newline (color w) t) /\ color w' = color w.
Proof.
  intros Hs. pose proof (shows_screen _ _ Hs) as Hok. destruct Hs as (Hb & Hl & Hc & Hr & Hls & Hlast).
  eexists. split; [by apply new_line_ok|]. split; [|done]. unfold shows, t_newline.
  cbn [buffer column t_lines t_last t_col]. rewrite Hb. split_and!; try done; [|rewrite length_app; lia|].
  - f_equal. rewrite last_rows_snoc by (rewrite ?length_app; cbn; lia).
    unfold last_rows. destruct (drop (length (t_lines t) - 24) (t_lines t)) as [|r l] eqn:Ed.
    { apply (f_equal length) in Ed. rewrite length_drop in Ed. cbn in Ed. lia. }
    cbn [tail app]. f_equal. replace (length (t_lines t) - (24 - 1))%nat with (length (t_lines t) - 24 + 1)%nat by lia.
    by rewrite <- drop_drop, Ed.
  - apply Forall_app. split; [done|by repeat constructor].
Qed.

(** A character on the last line. *)
Lemma shows_put w t byte : shows w t -> t_col t < 80 ->
  (b ← set_cell (buffer w) (BUFFER_HEIGHT - 1) (column w) (mkSC byte (color w));
   Ret (set_column (column w + 1) (set_buffer b w))) =
  Ret (mkWriter (column w + 1) (color w)
         (last_rows 24 (t_lines t) ++ [<[Z.to_nat (t_col t) := mkSC byte (color w)]> (t_last t)])).
Proof.
  intros (Hb & Hl & Hc & Hr & Hls & Hlast) Hlt. rewrite Hb, Hc.
  assert (Hlen : Z.to_nat (BUFFER_HEIGHT - 1) = (length (last_rows 24 (t_lines t)) + 0)%nat).
  { unfold last_rows. rewrite length_drop. lia. }
  erewrite (set_cell_ok _ _ _ _ (t_last t)).
  - obind. rewrite Hlen, insert_app_r. done.
  - rewrite Hlen, lookup_app_r, Nat.add_sub' by lia. done.
  - done.
  - unfold lenZ. lia.
Qed.

Lemma shows_byte w t byte : shows w t -> exists w', write_byte byte w = Ret w' /\
  shows w' (t_byte (color w) byte t) /\ color w' = color w.
Proof.
  intros Hs. unfold write_byte, t_byte. destruct (byte =? 10); [by apply shows_newline|].
  destruct (byte =? 8).
  { eexists. split; [done|]. destruct Hs as (Hb & Hl & Hc & Hr & Hls & Hlast).
    case_match; (split; [|done]); unfold shows; cbn; split_and!; try done; lia. }
  assert (exists w1, (if BUFFER_WIDTH <=? column w then new_line w else Ret w) = Ret w1 /\
    shows w1 (if t_col t =? 80 then t_newline (color w) t else t) /\ color w1 = color w) as (w1 & -> & Hs1 & Hc1).
  { destruct Hs as (Hb & Hl & Hc & Hr & Hls & Hlast) eqn:E. clear E. rewrite Hc.
    destruct (Z.leb_spec 80 (t_col t)) as [H80|H80].
    - rewrite (proj2 (Z.eqb_eq _ _)) by lia. by apply shows_newline.
    - rewrite (proj2 (Z.eqb_neq _ _)) by lia. by exists w. }
  set (t1 := if t_col t =? 80 then t_newline (color w) t else t) in *.
  assert (Hlt : t_col t1 < 80).
  { destruct Hs as (_ & _ & _ & Hr & _). unfold t1. case_match; cbn; lia. }
  obind. rewrite (shows_put w1 t1) by done. eexists. split; [done|]. rewrite Hc1. split; [|done].
  destruct Hs1 as (Hb & Hl & Hc & Hr & Hls & Hlast). unfold shows. cbn.
  rewrite length_insert. split_and!; try done; lia.
Qed.

Lemma shows_string s w t : shows w t -> exists w', write_string s w = Ret w' /\
  shows w' (t_string (color w) s t) /\ color w' = color w.
Proof.
  revert w t. induction s as [|b s IH]; intros w t Hs; [by exists w|].
  destruct (shows_byte w t (if printable b then b else 0xfe) Hs) as (w1 & E & Hs1 & Hc).
  unfold write_string, t_string. cbn [ofold foldl]. rewrite E. obind. rewrite <- Hc in *.
  exact (IH w1 _ Hs1).
Qed.

(** ** Lines of text *)

Lemma clear_screen_ok w : screen_ok (buffer w) ->
  clear_screen w = Ret (mkWriter 0 (color w) (replicate 25 (blank_row (color w)))).
Proof.
  intros [Hlen Hb]. unfold clear_screen.
  assert (E : forall n, (n <= 25)%nat -> ofold (fun w row => clear_row row w) w (seqZ 0 (Z.of_nat n)) =
    Ret (set_buffer (replicate n (blank_row (color w)) ++ drop n (buffer w)) w)).
  { induction n as [|n IH]; intros Hn; [by destruct w|].
    rewrite Nat2Z.inj_succ, <- Z.add_1_r, seqZ_app, ofold_app, IH by lia. obind.
    change (seqZ (0 + Z.of_nat n) 1) with [0 + Z.of_nat n]. cbn [ofold].
    destruct (lookup_lt_is_Some_2 (buffer w) n ltac:(lia)) as [r Hr]. rewrite (drop_S _ _ _ Hr).
    assert (En : Z.to_nat (0 + Z.of_nat n) = (length (replicate n (blank_row (color w))) + 0)%nat)
      by (rewrite length_replicate; lia).
    erewrite (clear_row_ok _ _ r); [|cbn [buffer set_buffer]|lia|exact (Forall_lookup_1 _ _ _ _ Hb Hr)].
    - obind. rewrite En. unfold set_buffer. cbn [buffer color column]. rewrite insert_app_r. cbn [insert list_insert].
      by rewrite replicate_S_end, <- app_assoc.
    - by rewrite En, lookup_app_r, Nat.add_sub' by lia. }
  change BUFFER_HEIGHT with (Z.of_nat 25). rewrite E by lia. obind. rewrite drop_ge by lia. by rewrite app_nil_r.
Qed.

Definition text_byte (b : Z) : Prop := 0x20 <= b <= 0x7e.
(** A line of the screen with the text [l] on the left. *)
Definition text_row (c : Z) (l : list Z) : list ScreenChar :=
  (fun b => mkSC b c) <$> l ++ replicate (80 - length l) 32.
Definition println_all (ls : list (list Z)) : list Z := concat ((fun l => l ++ [10]) <$> ls).

Lemma t_string_app c s k t : t_string c (s ++ k) t = t_string c k (t_string c s t).
Proof. apply foldl_app. Qed.

Lemma t_string_text c l : Forall text_byte l -> (length l <= 80)%nat -> forall ls,
  t_string c l (mkT ls (blank_row c) 0) = mkT ls (text_row c l) (lenZ l).
Proof.
  induction l as [|b l IH] using rev_ind; intros Hl Hlen ls.
  { done. }
  apply Forall_app in Hl as [Hl [Hb _]%Forall_cons]. rewrite length_app in Hlen. cbn in Hlen.
  rewrite t_string_app, IH by (done || lia). unfold text_byte in Hb. cbn [t_string foldl].
  assert (Ep : printable b = true) by (unfold printable; rewrite !(proj2 (Z.leb_le _ _)) by lia; done).
  unfold t_byte. rewrite Ep. cbn [t_col t_lines t_last].
  rewrite (proj2 (Z.eqb_neq b 10)), (proj2 (Z.eqb_neq b 8)), (proj2 (Z.eqb_neq (lenZ l) 80)) by (unfold lenZ; lia).
  cbn [t_col t_lines t_last]. f_equal; [|rewrite lenZ_app; done].
  unfold text_row. rewrite lenZ_to_nat, length_app. cbn [length].
  replace (80 - length l)%nat with (S (80 - (length l + 1))) by lia. cbn [replicate].
  rewrite <- (Nat.add_0_r (length l)) at 1. rewrite !fmap_app, !fmap_cons.
  rewrite <- (length_fmap (fun b => mkSC b c) l) at 1. rewrite insert_app_r. cbn. by rewrite <- app_assoc.
Qed.

Lemma t_string_lines c ls dn : Forall (fun l => Forall text_byte l /\ (length l <= 80)%nat) ls ->
  t_string c (println_all ls) (mkT dn (blank_row c) 0) = mkT (dn ++ (text_row c <$> ls)) (blank_row c) 0.
Proof.
  revert dn. induction ls as [|l ls IH]; intros dn Hls; [by rewrite app_nil_r|].
  apply Forall_cons in Hls as [[Hl Hlen] Hls]. unfold println_all. cbn [fmap list_fmap concat].
  rewrite !t_string_app, t_string_text by done.
  change (t_string c [10] (mkT dn (text_row c l) (lenZ l))) with (mkT (dn ++ [text_row c l]) (blank_row c) 0).
  fold (println_all ls). rewrite IH by done. by rewrite <- app_assoc.
Qed.

(** C34. The early console.  On a screen of any contents, clearing and then
    printing lines of at most 80 printable characters never indexes out of
    the buffer, and the screen then shows the last 24 of the lines, in order
    and at the bottom, each padded with blanks to the right, above the empty
    line of the cursor; rows not yet reached are blank. *)
Theorem vga_shows_lines b ls :
  length b = 25%nat -> Forall (fun r => length r = 80%nat) b ->
  Forall (fun l => Forall text_byte l /\ (length l <= 80)%nat) ls ->
  exists w1 w2, clear_screen (WRITER b) = Ret w1 /\ write_string (println_all ls) w1 = Ret w2 /\
    column w2 = 0 /\
    buffer w2 = last_rows 24 (replicate 24 (blank_row 10) ++ (text_row 10 <$> ls)) ++ [blank_row 10].
Proof.
  intros Hlen Hb Hls. eexists.
  destruct (shows_string (println_all ls) (mkWriter 0 10 (replicate 25 (blank_row 10)))
    (mkT (replicate 24 (blank_row 10)) (blank_row 10) 0)) as (w2 & E & Hs & _).
  { unfold shows. cbn [buffer column color t_lines t_last t_col].
    rewrite length_replicate. split_and!; try done; try lia. by apply Forall_replicate. }
  exists w2. split; [by apply clear_screen_ok|]. split; [exact E|]. cbn [color] in Hs.
  rewrite t_string_lines in Hs by done. destruct Hs as (-> & _ & -> & _). done.
Qed.

Lemma vga_shows_lines_witness :
  exists w1 w2, clear_screen (WRITER (replicate 25 (replicate 80 (mkSC 7 7)))) = Ret w1 /\
    write_string (println_all [bstr "boot"; bstr "ok"]) w1 = Ret w2 /\ column w2 = 0 /\
    buffer w2 = last_rows 24 (replicate 24 (blank_row 10) ++ (text_row 10 <$> [bstr "boot"; bstr "ok"])) ++
                [blank_row 10].
Proof.
  apply (vga_shows_lines (replicate 25 (replicate 80 (mkSC 7 7))) [bstr "boot"; bstr "ok"]).
  - done.
  - by apply Forall_replicate.
  - by_decide.
Defined.
