(* ===== verification/E1000Init.v ===== *)
(** * Bringing the network card up

    [init] of kernel/src/drivers/e1000.rs: the card is looked up among the PCI
    functions of the scan, its registers are mapped, its command register is
    enabled and [init_device] programs it.  Messages are not modelled. *)
From S2P Require Import Prelude Phys FrameAllocator FrameRefcount Paging Ports Pci E1000.
Local Open Scope Z_scope.

Abbreviation E1000_VENDOR := 0x8086 (only parsing).
Abbreviation E1000_DEVICE_82540EM := 0x100E (only parsing).
Abbreviation E1000_DEVICE_82545EM := 0x100F (only parsing).
Abbreviation E1000_DEVICE_82574L := 0x10D3 (only parsing).

Definition is_e1000 (d : PciDevice) : bool :=
  (vendor_id d =? E1000_VENDOR) &&
  ((device_id d =? E1000_DEVICE_82540EM) || (device_id d =? E1000_DEVICE_82545EM) || (device_id d =? E1000_DEVICE_82574L)).

Section init.
Context {D : Type} `{Ports D} `{X86Paging}.

Definition ports_k {A} (c : M D string A) : M (D * kmem) string A := zoom fst (fun d s => (d, s.2)) c.
Definition kmem_k {A} (c : M kmem string A) : M (D * kmem) string A := zoom snd (fun k s => (s.1, k)) c.

(** [devs] is the list of the PCI module, if it is set up, [nic] the static;
    [rx_ptr], [bufs_ptr] and [tx_ptr] are the blocks the allocator returns and
    [r] is the register file of the card. *)
Definition e1000_init (devs : option (list PciDevice)) (rx_ptr bufs_ptr tx_ptr : Z) (r : gmap Z Z)
    (nic : option E1000) : M (D * kmem) string (option E1000) :=
  match devs with
  | None => mok nic
  | Some devs =>
      match snd <$> list_find (fun d => is_e1000 d = true) devs with
      | None => mok nic
      | Some dev =>
          bar0 ← mlift (idx (bars dev) 0);
          let bar := Z.land bar0 (unot 32 0xF) in
          if bar =? 0 then mok nic else
          _ ← ports_k (enable_device_io_mmio_bus_master (pd_addr dev));
          m ← try_ (kmem_k (map_mmio bar (128 * 1024)));
          match m with
          | Err _ => mok nic
          | Ok _ => mok (Some (default (init_device rx_ptr bufs_ptr tx_ptr r) nic))
          end
      end
  end.

End init.

(** [mac_address] *)
Definition mac_address (nic : option E1000) : option (list Z) := mac <$> nic.

(** [rx_debug]: three registers, the status, and the first descriptor. *)
Definition rx_debug (e : E1000) : outcome (Z * Z * Z * Z * Z * Z) :=
  d ← idx (rx_ring e) 0;
  Ret (reg e REG_RCTL, reg e REG_RDH, reg e REG_RDT, reg e REG_STATUS, rx_status d, rx_length d).

(** ** The command register *)

(** The bits [enable_device_io_mmio_bus_master] sets. *)
Definition enabled_cmd (before : Z) : Z := Z.lor (Z.lor (Z.lor before (Z.shiftl 1 0)) (Z.shiftl 1 1)) (Z.shiftl 1 2).

Lemma enabled_cmd_7 b : enabled_cmd b = Z.lor b 7.
Proof. unfold enabled_cmd. by rewrite <- !Z.lor_assoc. Qed.

Lemma low_half v : 0 <= Z.land v 0xFFFF < 2 ^ 16.
Proof. change 0xFFFF with (Z.ones 16). rewrite Z.land_ones by lia. apply Z.mod_pos_bound. lia. Qed.

(** Writing the enabled command back is setting the three bits of the whole
    register. *)
Lemma enable_dword v : fits 32 v ->
  Z.lor (Z.land v (unot 32 0xFFFF)) (wrap 32 (enabled_cmd (Z.land v 0xFFFF))) = Z.lor v 7.
Proof.
  intros Hv. pose proof (low_half v) as Hb. rewrite enabled_cmd_7, wrap_id.
  - rewrite Z.lor_assoc, <- Z.land_lor_distr_r. f_equal. change (Z.lor _ 0xFFFF) with (Z.ones 32).
    rewrite Z.land_ones by lia. by apply Z.mod_small.
  - split; [apply Z.lor_nonneg; lia|].
    destruct (decide (Z.lor (Z.land v 0xFFFF) 7 = 0)) as [->|Hne]; [lia|].
    assert (0 <= Z.lor (Z.land v 0xFFFF) 7) by (apply Z.lor_nonneg; lia).
    apply Z.log2_lt_pow2; [lia|]. rewrite Z.log2_lor by lia.
    apply Z.max_lub_lt; [|by vm_compute].
    destruct (decide (Z.land v 0xFFFF = 0)) as [->|]; [by vm_compute|].
    apply Z.log2_lt_pow2; lia.
Qed.

Lemma unchanged_dword v : enabled_cmd (Z.land v 0xFFFF) = Z.land v 0xFFFF -> Z.lor v 7 = v.
Proof.
  rewrite enabled_cmd_7. intros E. apply Z.bits_inj'. intros n Hn. rewrite Z.lor_spec.
  apply (f_equal (fun z => Z.testbit z n)) in E. rewrite Z.lor_spec, Z.land_spec in E.
  destruct (Z.testbit 7 n) eqn:E7; [|by rewrite orb_false_r].
  rewrite orb_true_r in *. symmetry in E. by apply andb_true_iff in E as [-> _].
Qed.

(** On the bus of Pci. *)
Lemma read_u16_cmd a x c : addr_ok a ->
  exists x', read_u16 (E := string) a 4 (mkBus x c) = Ret (mkBus x' c, Ok (Z.land (cfg_dword c (key a) 4) 0xFFFF)).
Proof.
  intros Ha. destruct (answers_read_u32 c a 4 Ha ltac:(lia) x) as [x' E]. exists x'.
  unfold read_u16. change (Z.land 4 252) with 4 in *. rewrite (mbindM_Ret _ _ _ _ _ E).
  change (Z.land 4 3 * 8) with 0. by rewrite Z.shiftr_0_r.
Qed.

Lemma write_u16_cmd a x c w : addr_ok a ->
  exists x', write_u16 (E := string) a 4 w (mkBus x c) =
    Ret (mkBus x' (alter (insert 4 (Z.lor (Z.land (cfg_dword c (key a) 4) (unot 32 0xFFFF)) (wrap 32 w))) (key a) c), Ok tt).
Proof.
  intros Ha. destruct (answers_read_u32 c a 4 Ha ltac:(lia) x) as [x' E].
  destruct (decode_encode a 4 Ha ltac:(lia)) as [Hd Hb]. exists (encode a 4).
  unfold write_u16. change (Z.land 4 252) with 4 in *. cbv zeta. rewrite (mbindM_Ret _ _ _ _ _ E).
  change (Z.land 4 0x2 * 8) with 0. rewrite Z.shiftl_0_r. change (wrap 32 (Z.shiftl 0xFFFF 0)) with 0xFFFF.
  unfold write_u32. rewrite (mbindM_Ret _ _ _ (mkBus (encode a 4) c) tt) by reflexivity.
  unfold out32. cbn [p_out32 bus_ports latch cfg]. cbn [Z.eqb Pos.eqb andb]. by rewrite Hb, Hd.
Qed.

Lemma enable_bus a x c r v :
  addr_ok a -> c !! key a = Some r -> default 0 (r !! 4) = v -> fits 32 v ->
  exists x' c' ba, enable_device_io_mmio_bus_master (E := string) a (mkBus x c) = Ret (mkBus x' c', Ok ba) /\
    cfg_dword c' (key a) 4 = Z.lor v 7 /\
    forall f off, (f, off) <> (key a, 4) -> cfg_dword c' f off = cfg_dword c f off.
Proof.
  intros Ha Hr Hv Hfit. assert (Hd : cfg_dword c (key a) 4 = v) by (unfold cfg_dword; by rewrite Hr).
  destruct (read_u16_cmd a x c Ha) as [x1 E1]. rewrite Hd in E1.
  unfold enable_device_io_mmio_bus_master. rewrite (mbindM_Ret _ _ _ _ _ E1). cbv zeta.
  fold (enabled_cmd (Z.land v 0xFFFF)). destruct (Z.eqb_spec (enabled_cmd (Z.land v 0xFFFF)) (Z.land v 0xFFFF)) as [E|E].
  - eexists x1, c, _. split; [reflexivity|]. by rewrite Hd, unchanged_dword.
  - destruct (write_u16_cmd a x1 c (enabled_cmd (Z.land v 0xFFFF)) Ha) as [x2 E2].
    cbn [negb]. rewrite (mbindM_Ret _ _ _ _ _ E2). eexists x2, _, _. split; [reflexivity|].
    rewrite Hd, enable_dword by done. split.
    + unfold cfg_dword. rewrite lookup_alter_eq, Hr. cbn. by rewrite lookup_insert_eq.
    + intros f off Hne. unfold cfg_dword. destruct (decide (f = key a)) as [->|Hf].
      * rewrite lookup_alter_eq, Hr. cbn. rewrite lookup_insert_ne by congruence. done.
      * by rewrite lookup_alter_ne.
Qed.

(** Scan and bring-up together.  If some visible function is a card the
    driver knows, the driver takes one such function [a]; unless its first
    base address is empty or cannot be mapped, the card is programmed, its
    input/output, memory and bus-master bits are set, and no other
    configuration register of the bus changes. *)
Theorem e1000_comes_up `{X86Paging} c x a0 rx_ptr bufs_ptr tx_ptr r k :
  visible c a0 -> is_e1000 (describe c a0) = true ->
  exists x1 devs a, pci_init (E := string) (mkBus x c) = Ret (mkBus x1 c, Ok devs) /\
    visible c a /\ is_e1000 (describe c a) = true /\
    forall bar cr k' va, head (bars (describe c a)) = Some bar -> Z.land bar (unot 32 0xF) <> 0 ->
      c !! key a = Some cr -> fits 32 (default 0 (cr !! 4)) ->
      map_mmio (Z.land bar (unot 32 0xF)) 0x20000 k = Ret (k', Ok va) ->
      exists x2 c', e1000_init (Some devs) rx_ptr bufs_ptr tx_ptr r None (mkBus x1 c, k) =
          Ret ((mkBus x2 c', k'), Ok (Some (init_device rx_ptr bufs_ptr tx_ptr r))) /\
        cfg_dword c' (key a) 4 = Z.lor (default 0 (cr !! 4)) 7 /\
        forall f off, (f, off) <> (key a, 4) -> cfg_dword c' f off = cfg_dword c f off.
Proof.
  intros Hv0 He0. destruct (pci_scan_lists c x) as (x1 & devs & E & Hin).
  assert (exists i d, list_find (fun d => is_e1000 d = true) devs = Some (i, d)) as (i & d & Hf).
  { destruct (list_find_elem_of (fun d => is_e1000 d = true) devs (describe c a0)) as [[i d] Hf]; [|done|by exists i, d].
    apply Hin. by exists a0. }
  pose proof Hf as (Hi & He & _)%list_find_Some.
  destruct (proj1 (Hin d) (list_elem_of_lookup_2 _ _ _ Hi)) as (a & Hv & ->).
  exists x1, devs, a. split; [done|]. split; [done|]. split; [done|].
  intros bar cr k' va Hbar Hnz Hc Hfit Hmap. pose proof Hv as (Ha & _).
  unfold e1000_init. rewrite Hf. cbn [fmap option_fmap option_map snd].
  assert (Eb : idx (bars (describe c a)) 0 = Ret bar).
  { apply idx_Ret. split; [done|]. by destruct (bars (describe c a)). }
  rewrite Eb. rewrite (mbindM_Ret _ _ _ (mkBus x1 c, k) bar) by reflexivity.
  rewrite (proj2 (Z.eqb_neq _ 0)) by done. change (pd_addr (describe c a)) with a.
  destruct (enable_bus a x1 c cr _ Ha Hc eq_refl Hfit) as (x2 & c' & ba & Ee & Hcmd & Hrest).
  rewrite (mbindM_Ret _ _ _ (mkBus x2 c', k) ba) by (unfold ports_k, zoom; cbn [fst]; by rewrite Ee).
  rewrite (mbindM_Ret _ _ _ (mkBus x2 c', k') (Ok va)).
  - by exists x2, c'.
  - unfold try_, kmem_k, zoom. cbn [snd]. change (128 * 1024) with 0x20000. by rewrite Hmap.
Qed.
